(* ===== verification/_CoqProject ===== *)
-Q . S2P
Prelude.v
JsString.v
Json.v
Base64Url.v
JsMap.v
Zod.v
WellFormed.v
Protocol.v
Effects.v
Platform.v
Transcripts.v
Store.v
Signal.v
Wire.v
History.v
Profile.v
Config.v
RelayClient.v
Inbound.v
Outbound.v
Session.v
Args.v
Cli.v
Text.v
Console.v
Frame.v
Reducer.v
TuiShell.v
Composing.v
Launch.v
NodePath.v
Pretty.v
Files.v
Async.v
Home.v
Repeater.v
Daemon.v
Operator.v
Guard.v
Bridge.v
Cards.v
Station.v
Server.v
Page.v
Mobile.v
Delivery.v
Service.v
Setup.v
