(* ===== verification/Prelude.v ===== *)
(** * Echolet: the TypeScript client, its command line, console, web station and mobile prototype

    Echolet is an end-to-end encrypted messenger with store-and-forward relays.  This
    development models the node client: the wire formats and their signatures
    ([packages/protocol], [packages/crypto-core]), the encrypted store and the Signal client
    over libsignal ([packages/session-node]), identities and the older bootstrap sessions
    ([packages/client-core]), the program [apps/cli]: its profile, relay client,
    messengers, eight commands, full-screen console and operator commands; the web station
    [apps/web]: its server and the parts of its page that decide something; and the mobile
    prototype [apps/mobile].

    ** The parts and the files, in the order of their dependencies

    - [Prelude]: scopes, tactics and lemmas on lists, options and results.
    - The language: [JsString] (strings as UTF-16 units, UTF-8, splitting, trimming, decimal),
      [Json] ([JSON.stringify] and [JSON.parse], proved inverse on the values the program
      makes), [JsMap] (the insertion-ordered [Map]), [WellFormed] (what parses prints back).
    - The platform: [Effects] (the error type, the state-and-error monad [M], transactions),
      [Platform] (classes for the functions of Node and of the libraries), [Zod] (the schema
      combinators the program uses).
    - [Base64Url]: [crypto-core/src/encoding/base64url.ts].
    - [Protocol]: [packages/protocol/src]: every schema and validator.
    - [Transcripts]: [crypto-core/src/{mailbox,signatures,identity}] and
      [client-core/src/identity]: canonical JSON, signed statements, keys from a seed.
    - [Store]: [session-node/src/EncryptedSqliteStore.ts]; [Signal]: [SignalClient.ts];
      [Wire]: [wire.ts].
    - [Session]: [crypto-core/src/session], [client-core/src/{sessions,messages}].
    - [History], [Profile], [Config], [Inbound], [Outbound]: [apps/cli/src/runtime];
      [RelayClient]: [apps/cli/src/transport].
    - [Args], [Cli]: [apps/cli/src/commands/cli.ts], the parser and the commands.
    - [Text], [Console], [Frame], [Reducer], [TuiShell], [Launch]: [apps/cli/src/tui]: text and
      layout, the data and the bridge to the command line, the frame, the reducer, the event
      loop with its driver, the launch; [Composing]: the way of a message from the keys of its
      row to a child's input.
    - [NodePath], [Pretty], [Files], [Async]: more of the platform: [node:path], indented JSON,
      the files and the terminal of a command with operations that may fail at any time, and
      asynchronous handlers over a shared state with their event loop.
    - [Home], [Daemon]: [apps/cli/src/runtime/globalPaths.ts] and [daemon.ts]; [Repeater],
      [Operator], [Service]: [apps/cli/src/operator]: the repeater's configuration, the questions
      and the profile commands, the running of the repeater and the station; [Setup]: the setup
      of a station and the contact commands, over [openProfile] on those files.
    - [Guard], [Bridge], [Cards], [Station], [Server]: [apps/web/src/server]: the request guard,
      the bridge to the command line, contact cards, the status store, the server; with what
      [apps/web/src/client] does with a card ([Cards.Client]) and a status ([Station.Browser]);
      [Page]: [client/App.tsx], the state of the page and its handlers.
    - [Mobile]: [apps/mobile/src]: the screens with their state and handlers, the relay client,
      the log; [Delivery]: two phones in conversation, and what one shows.

    ** How the parts interact

    A record of the store is bytes under a string key.  A transaction is a program [Tx] on the
    records; [Store.perform] runs it on the snapshot and refines the atomic map that the
    profile assumes ([Profile.transact] is stated on an environment [env]: the records on disk,
    every state that was committed, and the world).  [Signal] and [Profile] give transactions;
    the messengers compose them with calls of the relay, seen through the class [Relay] whose
    laws [RelayClient] discharges over one [fetch].  [Cli.run_protocol] composes all of it
    into a report and an exit code.  The console does not link against any of this: it starts
    the command line as a child.  [Console.buildArgv] and [Args.parseCommand] meet in
    [Console.console_argv_read], the report and [parseCliOutcome] in [Console.report_read_back],
    the body written to the child and [Cli.readStdinBody] in [Composing.message_travels].

    The station's server does the same from behind HTTP: [Bridge] builds an argument vector and
    reads a report, and meets [Args] and [Cli] in [Bridge.bridge_argv_read] and
    [Bridge.bridge_reads_report].  A handler of [Server] is an [Async.prog] on one shared state
    that stops at every [await]; what it asks there (a command, a file, the relay, a body) is a
    [Cards.question], any answer may come, and [Async.reachable] interleaves the handlers of
    requests and timers in every order.  A theorem about the station is proved handler by
    handler in the logic [Async.always] and holds in every reachable state by
    [Async.reachable_safe].  The page is such a loop too: its handlers read the last render and
    fetch from the station; there the logic is [Async.holds], with an invariant of the page and
    the history of all that was asked and answered ([Async.happens_holds]), and page and server
    meet in [Page.station_reads_page].  The phone is a third loop, with the same logic, over the
    sessions of [Session]; two of them meet in [Delivery.page_is_read].  The operator's commands
    run in [M (machine W)] of [Files] and meet the server in [Service.station_arguments_read];
    [Setup.in_store] runs a program of [Profile] or [Outbound] on the records that [Store.read]
    opens in a database file and writes back, with [Store.write], what it committed.

    ** What the theorems show

    - Trust.  Nothing but an approval changes a pinned identity, whatever the native code does
      ([Signal.trust_only_by_approval]); a contact is never replaced ([Profile.contact_pinned]);
      an import without a confirmation changes nothing ([Cli.unconfirmed_import_fails]); the
      console writes its yes only after it painted all four identifiers
      ([TuiShell.trust_answer_was_shown]); a bundle is imported only when verified
      ([Wire.import_sound], [Outbound.first_contact_verified]).
    - Once.  One ciphertext per message id ([Signal.encrypt_once]), one receipt
      ([Signal.decrypt_at_most_once], [Inbound.admitted_once], [Session.message_read_once]), one
      recorded envelope at every commit ([Outbound.recorded_message_fixed],
      [Outbound.resend_is_delivery]), one command at a time ([TuiShell.one_command_at_a_time]).
    - Durability.  The snapshot is an atomic map ([Store.perform_refines_atomic]), accepted work
      is finished in order ([Store.queue_fifo]), a rewalk is never lost
      ([Inbound.rewalk_survives]), a rejected envelope stops nothing and leaves no trace
      ([Inbound.accept_isolates], [Inbound.rejected_poll_changes_nothing]), acknowledgements
      drain ([Inbound.acks_drain]), history is a log ([History.history_refines_log]), the pool
      stands at its target ([Profile.pool_stands]).
    - Formats.  Canonical encodings, unambiguous signed texts, records that verify, an argument
      vector and an answer that are read as they were written ([Base64Url], [Protocol],
      [Transcripts], [Args], [Cli], [Launch]), conversations of the bootstrap sessions
      ([Session.session_conversation]).
    - Bounds and failures.  [RelayClient.relay_failures_closed], [RelayClient.send_within_bound],
      [Outbound.unpublished_send_stays_local]; frames of exactly the terminal's size
      ([Frame.frame_exact_and_clean]); nothing from outside steers the terminal
      ([TuiShell.nothing_steers]); what a child is given to send is what the keys of the row
      spelled, and is in no argument ([Composing.message_travels]); the console handles every event to its end
      ([TuiShell.console_never_fails]) from every launch ([Launch.launch_is_safe]).
    - The station.  A foreign host or page is refused ([Guard.guard_refuses_foreign]); a command
      is started only for a guarded request, as its body says, an import only when confirmed
      ([Server.commands_guarded]); one poll at a time ([Server.one_poll_at_a_time]); no request,
      failure or interleaving ends the process while addresses parse and children start
      ([Server.station_survives]); only files under the page's
      directory are read for a page, or, for a path that opens with two slashes, the file its
      rest names from the root ([Server.served_files_known]); bodies and the log are bounded
      ([Server.body_read_back], [Server.log_bounded]); one outcome per child ([Bridge.execute_settles_once]); a card's
      file is removed whatever fails ([Cards.card_operation_contained]) and validating one
      changes nothing ([Bridge.validate_changes_nothing]); the newest refresh wins
      ([Station.newest_refresh_wins]); browser and station read the same
      ([Cards.client_and_station_agree], [Station.status_read_back], [Page.station_reads_page]).
    - The page.  A card is posted for import only after the station accepted exactly that card
      ([Page.import_needs_validation]), and nothing is shown as checked, exported or said that
      the station did not answer ([Page.page_shows_answers]), in any order of events, answers
      and renders.
    - The phone.  It acknowledges the page one poll gave, after going through it in order, each
      envelope opened or, where its sender's bundle was not given, passed over unread; sends
      only what it sealed and signed; and without the demo flag publishes its device record and
      nothing else ([Mobile.acknowledged_after_poll]); what one phone composes another reads, page after
      page ([Delivery.page_is_read]); messages are shown once and in order
      ([Delivery.shown_after_poll]).
    - The operator.  A profile's key is made once ([Home.profile_key_kept]) and a choice is kept
      ([Home.active_profile_read_back]); a deletion stays inside its profile and needs consent
      ([Operator.profile_delete_contained]); a daemon's life, and whom a stop reaches
      ([Daemon.daemon_lifecycle]); no value of the environment file reaches another variable or
      Docker's options ([Repeater.env_file_read_back], [Repeater.docker_argv_contained]); what
      was set up starts, and a refused file starts nothing
      ([Service.repeater_setup_startable], [Setup.station_setup_startable],
      [Service.refused_start_runs_nothing]); a contact is added to the one database, as its
      verified card says ([Setup.contact_added]).
    - Where the code falls short: [Session.crossing_messages_unreadable],
      [Args.inherited_command_fails_otherwise], [Text.tall_item_loses_marker], the last
      section of [TuiShell], [Bridge.killed_child_succeeds], [Bridge.split_character_corrupted],
      [Server.unparsable_address_kills], [Server.unstartable_history_kills],
      [Server.absolute_path_escapes], [Server.large_message_is_500], [Operator.delete_escapes],
      [Daemon.unrecorded_child_runs_on], [Page.conversation_stays], [Page.selection_jumps],
      [Page.split_character_posted_wrong],
      [Delivery.resent_message_blocks], [Delivery.unread_message_acknowledged],
      [Setup.setup_loses_station], [Setup.summary_lists_nobody], [Setup.verify_reads_nothing].

    ** Parameters and their hypotheses

    Cryptography (Ed25519, X25519, secretbox, HMAC, SHA-256, AES-GCM), libsignal, SQLite, the
    uuid check of zod, the WHATWG URL parser, [fetch] with its body stream, the clock, the files
    of the protocol commands, the environment, the terminal's size, the sockets of the station,
    creating a process and sending it a signal, Docker and the browser are parameters; the
    files of the operator's commands are the map of [Files].  The laws a theorem needs
    (a signature verifies, a sealed text opens, a fresh identifier, a stream within its type)
    are classes with [Laws] in their name; a concrete instance of each is given beside it
    ([Toy], [ToyNative], [ToyRelay], the [Sample] modules) and the witnesses run on it.
    libsignal has no law at all where trust is concerned: it is an arbitrary program over the
    record callbacks.

    ** Bounds and fuel

    JSON parsing runs on the length of its text, which every step shortens; [hkdf_rounds] on the
    number of bytes asked for; the page walk of a poll on [maxPollPagesPerPoll] (16), the code's
    own bound; the acknowledgement batches on the number of pending identifiers; wrapping a line
    ([Frame.cut_points]) on the number of points, each row taking at least one; a question of the
    operator's setup on the number of lines typed and one more, which is enough
    ([Service.question_ends]).  No other definition has fuel.  Integers are [Z]: the code's numbers are integers below 2^53, and
    the checks that keep them there ([safe integer], 32-bit key identifiers) are in the model.

    ** Not modelled

    - JSON numbers with a fraction or an exponent (no record, request or report of the program
      has one): [parse] refuses such a text.
    - The [TypeError] of a template that is given an object with a member [toString]: [to_text]
      prints every object alike.
    - The banner and the help of the operator's program ([operator/banner.ts]): text.
    - The markup of the React page of [apps/web], its skins, knobs, canvases and sounds.  React
      is taken to show, at each render, all that was set before it; between a setter and the
      render a handler may still run with the older page.
    - The markup of the screens of [apps/mobile].  A screen is mounted anew whenever it is
      shown, as React does with another component; the alert and the network are the platform's.
    - Links, permissions and the order of entries of the operator's file system, and two
      commands at once on it.
    - [apps/relay]: another program, in Go; whatever it answers is covered, since [fetch] is a
      parameter.
    - [packages/client-db]: interfaces without code.
    - A process that dies inside SQLite's commit, and two processes on one profile: SQLite's own
      guarantees. *)

From Stdlib Require Export ZArith Lia.
From stdpp Require Export base list list_numbers option decidable numbers strings sorting.

#[export] Set Default Goal Selector "!".
#[global] Open Scope Z_scope.

(** ** Results of fallible code

    A TypeScript function that may throw returns a [res E A]. *)
Inductive res (E A : Type) : Type :=
  | Ok (a : A)
  | Err (e : E).
Arguments Ok {E A} a.
Arguments Err {E A} e.

Definition res_bind {E A B} (m : res E A) (f : A -> res E B) : res E B :=
  match m with Ok a => f a | Err e => Err e end.
Definition res_map {E A B} (f : A -> B) (m : res E A) : res E B :=
  match m with Ok a => Ok (f a) | Err e => Err e end.
Definition of_option {E A} (e : E) (o : option A) : res E A :=
  match o with Some a => Ok a | None => Err e end.
Definition ok_or {E A} (d : A) (m : res E A) : A := match m with Ok a => a | Err _ => d end.
Definition is_ok {E A} (m : res E A) : bool :=
  match m with Ok _ => true | Err _ => false end.

(** Applied to [None], code falls through to a default: the TypeScript [??]. *)
Definition default_to {A} (d : A) (o : option A) : A :=
  match o with Some a => a | None => d end.

(** ** Tactics shared by every file *)

(** [lia] reasons about division and modulo by constants. *)
Ltac Zify.zify_post_hook ::= Z.to_euclidean_division_equations.

(** Case analysis on the scrutinee of a [match] or an [if] of the goal or of
    a hypothesis, keeping the equation. *)
Ltac case_match_in H :=
  match type of H with
  | context [match ?x with _ => _ end] => destruct x eqn:?
  end.
Ltac case_goal :=
  match goal with
  | |- context [match ?x with _ => _ end] => destruct x eqn:?
  end.

(** Turn boolean comparisons into propositions. *)
Ltac bool_to_prop :=
  repeat match goal with
  | H : andb _ _ = true |- _ => apply andb_true_iff in H as [? ?]
  | H : orb _ _ = false |- _ => apply orb_false_iff in H as [? ?]
  | H : negb _ = true |- _ => apply negb_true_iff in H
  | H : negb _ = false |- _ => apply negb_false_iff in H
  | H : (_ <=? _)%Z = true |- _ => apply Z.leb_le in H
  | H : (_ <=? _)%Z = false |- _ => apply Z.leb_gt in H
  | H : (_ <? _)%Z = true |- _ => apply Z.ltb_lt in H
  | H : (_ <? _)%Z = false |- _ => apply Z.ltb_ge in H
  | H : (_ =? _)%Z = true |- _ => apply Z.eqb_eq in H
  | H : (_ =? _)%Z = false |- _ => apply Z.eqb_neq in H
  end.

(** Decide a boolean condition of the goal by linear arithmetic. *)
Ltac decide_bool :=
  repeat match goal with
  | |- context [(?a <=? ?b)%Z] => first [ replace (a <=? b)%Z with true by (symmetry; apply Z.leb_le; lia)
                                       | replace (a <=? b)%Z with false by (symmetry; apply Z.leb_gt; lia) ]
  | |- context [(?a <? ?b)%Z] => first [ replace (a <? b)%Z with true by (symmetry; apply Z.ltb_lt; lia)
                                      | replace (a <? b)%Z with false by (symmetry; apply Z.ltb_ge; lia) ]
  | |- context [(?a =? ?b)%Z] => first [ replace (a =? b)%Z with true by (symmetry; apply Z.eqb_eq; lia)
                                      | replace (a =? b)%Z with false by (symmetry; apply Z.eqb_neq; lia) ]
  end; cbn [andb orb negb].

(** ** Hint database of the development *)
Create HintDb echolet discriminated.
#[export] Hint Constants Opaque : echolet.
Create Rewrite HintDb echolet_rw.

(** ** Generic lemmas *)

Lemma forallb_Forall' {A} (p : A -> bool) (l : list A) :
  forallb p l = true <-> Forall (fun x => p x = true) l.
Proof. induction l; cbn; rewrite ?andb_true_iff, ?Forall_cons; naive_solver. Qed.

Lemma forallb_map {A B} (p : B -> bool) (f : A -> B) l : (forall x, In x l -> p (f x) = true) -> forallb p (map f l) = true.
Proof. intros H. apply forallb_forall. intros y (x & <- & Hx)%in_map_iff. by apply H. Qed.
Lemma forallb_take {A} (p : A -> bool) n l : forallb p l = true -> forallb p (take n l) = true.
Proof. rewrite <- (take_drop n l) at 1. by rewrite forallb_app; intros [? _]%andb_true_iff. Qed.
Lemma forallb_lookup {A} (p : A -> bool) l i x : forallb p l = true -> l !! i = Some x -> p x = true.
Proof. rewrite forallb_forall. intros H Hi. apply H. apply list_elem_of_In. by eapply list_elem_of_lookup_2. Qed.
Lemma forallb_insert {A} (p : A -> bool) l i x : forallb p l = true -> p x = true -> forallb p (<[i := x]> l) = true.
Proof. rewrite !forallb_Forall'. intros Hl Hx. by apply Forall_insert. Qed.
Lemma forallb_In {A} (p : A -> bool) l x : forallb p l = true -> In x l -> p x = true.
Proof. rewrite forallb_forall. auto. Qed.
Lemma Ok_inj {E A} (a b : A) : @Ok E A a = Ok b -> a = b.
Proof. by intros [= ->]. Qed.
Lemma Forall_of_forallb {A} (P : A -> Prop) (p : A -> bool) l : (forall x, p x = true -> P x) -> forallb p l = true -> Forall P l.
Proof. intros H. rewrite forallb_Forall'. intros Hl. eapply Forall_impl; [exact Hl|exact H]. Qed.
Lemma forallb_drop {A} (p : A -> bool) n l : forallb p l = true -> forallb p (drop n l) = true.
Proof. rewrite <- (take_drop n l) at 1. by rewrite forallb_app; intros [_ ?]%andb_true_iff. Qed.

Lemma concat_singletons {A} (l : list A) : concat (map (fun x => [x]) l) = l.
Proof. induction l; cbn; congruence. Qed.

Lemma take_drop_eq {A} n (l : list A) : take n l ++ drop n l = l.
Proof. apply take_drop. Qed.

(** Strings and keys are compared by their units; decidable equality of lists
    gives the boolean test the code writes [===]. *)
Definition eqb {A} `{EqDecision A} (x y : A) : bool := bool_decide (x = y).

Lemma eqb_eq {A} `{EqDecision A} (x y : A) : eqb x y = true <-> x = y.
Proof. apply bool_decide_eq_true. Qed.
Lemma eqb_neq {A} `{EqDecision A} (x y : A) : eqb x y = false <-> x <> y.
Proof. apply bool_decide_eq_false. Qed.
Lemma eqb_refl {A} `{EqDecision A} (x : A) : eqb x x = true.
Proof. by apply eqb_eq. Qed.
Lemma eqb_true {A} `{EqDecision A} (x y : A) : eqb x y = true -> x = y.
Proof. apply eqb_eq. Qed.
#[export] Hint Rewrite @eqb_refl : echolet_rw.
