(* ===== verification/JsString.v ===== *)
(** * JavaScript strings, UTF-16 and UTF-8

    A JavaScript string is a list of UTF-16 code units ([jstr]); a
    [Uint8Array] or [Buffer] is a list of bytes.  The file gives the part of the
    language's standard library that the client uses on them: iteration by code
    point ([[...text]]), [TextEncoder]/[TextDecoder], default [sort],
    [startsWith], [split], [join], [trim], [padStart] and decimal printing. *)

From S2P Require Import Prelude.
From Stdlib Require DecimalFacts DecimalPos DecimalZ.
From Stdlib Require Ascii String.

Abbreviation jstr := (list Z).
Abbreviation bytes := (list Z).

(** ** Code points *)

Definition is_high (u : Z) : bool := (0xD800 <=? u) && (u <=? 0xDBFF).
Definition is_low (u : Z) : bool := (0xDC00 <=? u) && (u <=? 0xDFFF).
Definition is_surrogate (u : Z) : bool := (0xD800 <=? u) && (u <=? 0xDFFF).
Definition unit_ok (u : Z) : bool := (0 <=? u) && (u <=? 0xFFFF).
Definition byte_ok (b : Z) : bool := (0 <=? b) && (b <=? 0xFF).
Definition scalar_ok (c : Z) : bool :=
  (0 <=? c) && (c <=? 0x10FFFF) && negb (is_surrogate c).

(** The string iterator: a surrogate pair is one point, any other unit is one
    point of its own. *)
Fixpoint code_points (s : jstr) : list jstr :=
  match s with
  | [] => []
  | u :: s' =>
      match s' with
      | v :: s'' =>
          if is_high u && is_low v then [u; v] :: code_points s''
          else [u] :: code_points s'
      | [] => [[u]]
      end
  end.

(** [codePointAt(0)] of one point. *)
Definition point_value (p : jstr) : Z :=
  match p with
  | [] => 0
  | [u] => u
  | u :: v :: _ => 0x10000 + (u - 0xD800) * 0x400 + (v - 0xDC00)
  end.

(** [String.fromCodePoint]. *)
Definition from_code_point (c : Z) : jstr :=
  if c <? 0x10000 then [c]
  else [0xD800 + (c - 0x10000) / 0x400; 0xDC00 + (c - 0x10000) mod 0x400].

Definition is_lone (p : jstr) : bool :=
  match p with [u] => is_surrogate u | _ => false end.

(** [isWellFormed]: no lone surrogate (and every unit is 16 bits wide). *)
Definition well_formed (s : jstr) : bool :=
  forallb unit_ok s && forallb (fun p => negb (is_lone p)) (code_points s).

(** ** UTF-8 *)

Definition utf8_scalar (c : Z) : bytes :=
  if c <? 0x80 then [c]
  else if c <? 0x800 then [0xC0 + c / 64; 0x80 + c mod 64]
  else if c <? 0x10000 then [0xE0 + c / 4096; 0x80 + c / 64 mod 64; 0x80 + c mod 64]
  else [0xF0 + c / 262144; 0x80 + c / 4096 mod 64; 0x80 + c / 64 mod 64; 0x80 + c mod 64].

(** [new TextEncoder().encode(s)]: a lone surrogate becomes U+FFFD. *)
Definition utf8_encode (s : jstr) : bytes :=
  flat_map (fun p => utf8_scalar (if is_lone p then 0xFFFD else point_value p)) (code_points s).

(** [Buffer.byteLength(s, "utf8")]. *)
Definition utf8_length (s : jstr) : Z := Z.of_nat (length (utf8_encode s)).

(** The WHATWG decoder.  The state holds how many continuation bytes are still
    needed, the bits read so far and the range the next byte must be in. *)
Record utf8_state := Utf8State { u_need : nat; u_acc : Z; u_lo : Z; u_hi : Z }.
Definition utf8_init : utf8_state := Utf8State 0 0 0x80 0xBF.

Definition utf8_lead (b : Z) : list (option Z) * utf8_state :=
  if b <? 0x80 then ([Some b], utf8_init)
  else if b <? 0xC2 then ([None], utf8_init)
  else if b <? 0xE0 then ([], Utf8State 1 (b - 0xC0) 0x80 0xBF)
  else if b =? 0xE0 then ([], Utf8State 2 (b - 0xE0) 0xA0 0xBF)
  else if b =? 0xED then ([], Utf8State 2 (b - 0xE0) 0x80 0x9F)
  else if b <? 0xF0 then ([], Utf8State 2 (b - 0xE0) 0x80 0xBF)
  else if b =? 0xF0 then ([], Utf8State 3 (b - 0xF0) 0x90 0xBF)
  else if b <? 0xF4 then ([], Utf8State 3 (b - 0xF0) 0x80 0xBF)
  else if b =? 0xF4 then ([], Utf8State 3 (b - 0xF0) 0x80 0x8F)
  else ([None], utf8_init).

(** [None] in the result is one decoding error. *)
Fixpoint utf8_scan (st : utf8_state) (bs : bytes) : list (option Z) :=
  match bs with
  | [] => match u_need st with O => [] | S _ => [None] end
  | b :: r =>
      match u_need st with
      | O => let '(out, st') := utf8_lead b in out ++ utf8_scan st' r
      | S n =>
          if (u_lo st <=? b) && (b <=? u_hi st) then
            match n with
            | O => Some (u_acc st * 64 + b mod 64) :: utf8_scan utf8_init r
            | S _ => utf8_scan (Utf8State n (u_acc st * 64 + b mod 64) 0x80 0xBF) r
            end
          else let '(out, st') := utf8_lead b in None :: out ++ utf8_scan st' r
      end
  end.

Definition of_scalars (cs : list Z) : jstr := flat_map from_code_point cs.

(** [buffer.toString("utf8")]: every error is one U+FFFD, a byte-order mark stays. *)
Definition utf8_to_string (bs : bytes) : jstr :=
  of_scalars (map (default_to 0xFFFD) (utf8_scan utf8_init bs)).

(** [new TextDecoder().decode(bs)] also drops a leading byte-order mark. *)
Definition strip_bom (bs : bytes) : bytes :=
  match bs with
  | b0 :: b1 :: b2 :: r => if (b0 =? 0xEF) && (b1 =? 0xBB) && (b2 =? 0xBF) then r else bs
  | _ => bs
  end.
Definition text_decode (bs : bytes) : jstr := utf8_to_string (strip_bom bs).

(** [new TextDecoder("utf-8", { fatal: true })]: [None] stands for the exception. *)
Definition text_decode_fatal (bs : bytes) : option jstr :=
  of_scalars <$> mapM (M := option) id (utf8_scan utf8_init (strip_bom bs)).

(** ** Literals *)

Definition js (s : String.string) : jstr :=
  utf8_to_string (map (fun a => Z.of_nat (Ascii.nat_of_ascii a)) (String.list_ascii_of_string s)).
Arguments js s%_string_scope.

(** ** Comparison and sorting by code units *)

Fixpoint jcompare (a b : jstr) : comparison :=
  match a, b with
  | [], [] => Eq
  | [], _ :: _ => Lt
  | _ :: _, [] => Gt
  | x :: a', y :: b' => match x ?= y with Eq => jcompare a' b' | c => c end
  end.
Definition jle (a b : jstr) : Prop := jcompare a b <> Gt.

#[export] Instance jle_dec : RelDecision jle.
Proof. intros a b. unfold jle. solve_decision. Defined.

(** [xs.sort()] on strings. *)
Definition jsort (l : list jstr) : list jstr := merge_sort jle l.

(** ** The other operations *)

Definition starts_with (p s : jstr) : bool := eqb (take (length p) s) p.

Fixpoint join (sep : jstr) (l : list jstr) : jstr :=
  match l with
  | [] => []
  | [x] => x
  | x :: l' => x ++ sep ++ join sep l'
  end.

(** [s.split(c)] for a separator of one unit. *)
Fixpoint split_on (c : Z) (s : jstr) : list jstr :=
  match s with
  | [] => [[]]
  | u :: s' =>
      if u =? c then [] :: split_on c s'
      else match split_on c s' with
           | [] => [[u]]
           | x :: l => (u :: x) :: l
           end
  end.

Definition is_js_space (u : Z) : bool :=
  ((9 <=? u) && (u <=? 13)) || (u =? 32) || (u =? 160) || (u =? 0x1680)
  || ((0x2000 <=? u) && (u <=? 0x200A)) || (u =? 0x2028) || (u =? 0x2029)
  || (u =? 0x202F) || (u =? 0x205F) || (u =? 0x3000) || (u =? 0xFEFF).
Fixpoint trim_start (s : jstr) : jstr :=
  match s with
  | u :: s' => if is_js_space u then trim_start s' else s
  | [] => []
  end.
Definition trim (s : jstr) : jstr := rev (trim_start (rev (trim_start s))).

Definition repeat_str (c : jstr) (n : Z) : jstr := concat (replicate (Z.to_nat n) c).

(** [s.padStart(n, c)] for a filler of one unit. *)
Definition pad_start (n : Z) (c : Z) (s : jstr) : jstr :=
  replicate (Z.to_nat n - length s) c ++ s.

(** ASCII lower-casing; [toLowerCase] agrees with it on ASCII strings. *)
Definition lower_unit (u : Z) : Z := if (65 <=? u) && (u <=? 90) then u + 32 else u.
Definition lower (s : jstr) : jstr := map lower_unit s.

(** ** Decimal printing: [String(n)] for an integer *)

Fixpoint uint_units (u : Decimal.uint) : jstr :=
  match u with
  | Decimal.Nil => []
  | Decimal.D0 u => 48 :: uint_units u
  | Decimal.D1 u => 49 :: uint_units u
  | Decimal.D2 u => 50 :: uint_units u
  | Decimal.D3 u => 51 :: uint_units u
  | Decimal.D4 u => 52 :: uint_units u
  | Decimal.D5 u => 53 :: uint_units u
  | Decimal.D6 u => 54 :: uint_units u
  | Decimal.D7 u => 55 :: uint_units u
  | Decimal.D8 u => 56 :: uint_units u
  | Decimal.D9 u => 57 :: uint_units u
  end.
Definition show_Z (z : Z) : jstr :=
  match Z.to_int z with
  | Decimal.Pos u => uint_units u
  | Decimal.Neg u => 45 :: uint_units u
  end.

Definition is_digit (u : Z) : bool := (48 <=? u) && (u <=? 57).

(** The inverse: read a non-empty run of digits. *)
Definition push_digit (d : Z) (u : Decimal.uint) : Decimal.uint :=
  if d =? 48 then Decimal.D0 u else if d =? 49 then Decimal.D1 u
  else if d =? 50 then Decimal.D2 u else if d =? 51 then Decimal.D3 u
  else if d =? 52 then Decimal.D4 u else if d =? 53 then Decimal.D5 u
  else if d =? 54 then Decimal.D6 u else if d =? 55 then Decimal.D7 u
  else if d =? 56 then Decimal.D8 u else Decimal.D9 u.
Fixpoint units_uint (s : jstr) : Decimal.uint :=
  match s with [] => Decimal.Nil | d :: s' => push_digit d (units_uint s') end.
Definition read_digits (s : jstr) : Z := Z.of_uint (units_uint s).

(** ** Lemmas: code points *)

(** Induction on a string following the iterator. *)
Lemma code_points_ind (P : jstr -> Prop) :
  P [] -> (forall u, P [u]) ->
  (forall u v s, is_high u && is_low v = true -> P s -> P (u :: v :: s)) ->
  (forall u v s, is_high u && is_low v = false -> P (v :: s) -> P (u :: v :: s)) ->
  forall s, P s.
Proof.
  intros H0 H1 H2 H3 s.
  enough (P s /\ forall u, P (u :: s)) as [? _] by done.
  induction s as [|v s [IH IH']]; [split; auto|].
  split; [apply IH'|]. intros u.
  destruct (is_high u && is_low v) eqn:E; auto.
Qed.

Lemma code_points_pair u v s :
  is_high u && is_low v = true -> code_points (u :: v :: s) = [u; v] :: code_points s.
Proof. intros H. cbn. by rewrite H. Qed.

Lemma code_points_single u v s :
  is_high u && is_low v = false -> code_points (u :: v :: s) = [u] :: code_points (v :: s).
Proof. intros H. cbn. by rewrite H. Qed.

Lemma code_points_concat s : concat (code_points s) = s.
Proof.
  induction s using code_points_ind; [done|done| |].
  - rewrite code_points_pair by done. cbn. by rewrite IHs.
  - rewrite code_points_single by done. cbn [concat]. by rewrite IHs.
Qed.

Lemma code_points_nonempty s : Forall (fun p => p <> []) (code_points s).
Proof.
  induction s using code_points_ind; [constructor|repeat constructor; done| |].
  - rewrite code_points_pair by done. by constructor.
  - rewrite code_points_single by done. by constructor.
Qed.

Lemma code_points_cons_bmp u s :
  is_high u = false -> code_points (u :: s) = [u] :: code_points s.
Proof. intros H. destruct s; cbn; [done|]. by rewrite H. Qed.

Lemma length_code_points s : (length (code_points s) <= length s)%nat.
Proof.
  induction s using code_points_ind; [done|done| |].
  - rewrite code_points_pair by done. cbn. lia.
  - rewrite code_points_single by done. cbn in *. lia.
Qed.

(** Cutting a string at a point boundary keeps the segmentation. *)
Lemma code_points_take n s :
  code_points (concat (take n (code_points s))) = take n (code_points s).
Proof.
  revert n. induction s using code_points_ind; intros n; [by destruct n| | |].
  - destruct n as [|[|n]]; done.
  - rewrite code_points_pair by done. destruct n as [|n]; [done|].
    cbn [take concat]. change ([u; v] ++ ?x) with (u :: v :: x).
    rewrite code_points_pair by done. by rewrite IHs.
  - rewrite code_points_single by done. destruct n as [|n]; [done|].
    cbn [take concat]. change ([u] ++ ?x) with (u :: x).
    rewrite <- (IHs n) at 2.
    destruct (take n (code_points (v :: s))) as [|p l] eqn:E; [done|].
    assert (exists q, p = v :: q) as [q ->].
    { destruct n as [|n]; [done|]. cbn [code_points] in E.
      destruct s as [|w s']; [cbn in E; inv E; by eexists|].
      destruct (is_high v && is_low w); cbn in E; inv E; by eexists. }
    cbn [concat]. rewrite <- app_comm_cons. by rewrite code_points_single.
Qed.

Lemma code_points_app_bmp a b :
  forallb (fun u => negb (is_surrogate u)) a = true ->
  code_points (a ++ b) = map (fun u => [u]) a ++ code_points b.
Proof.
  induction a as [|u a IH]; [done|]. cbn [forallb]. rewrite andb_true_iff. intros [H1 H2].
  cbn [app map]. rewrite code_points_cons_bmp.
  - by rewrite IH.
  - unfold is_surrogate, is_high in *. bool_to_prop.
    apply andb_false_iff in H1. apply andb_false_iff.
    destruct H1; bool_to_prop; [left; apply Z.leb_gt|right; apply Z.leb_gt]; lia.
Qed.

(** ** Lemmas: UTF-8 and UTF-16 round trips *)

(** The decoder on one lead byte, and on one continuation byte. *)
Lemma utf8_lead_1 b : b < 0x80 -> utf8_lead b = ([Some b], utf8_init).
Proof. intros. unfold utf8_lead. by decide_bool. Qed.
Lemma utf8_lead_2 b : 0xC2 <= b < 0xE0 -> utf8_lead b = ([], Utf8State 1 (b - 0xC0) 0x80 0xBF).
Proof. intros. unfold utf8_lead. by decide_bool. Qed.
Lemma utf8_lead_3 b :
  0xE0 <= b < 0xF0 ->
  utf8_lead b = ([], Utf8State 2 (b - 0xE0) (if b =? 0xE0 then 0xA0 else 0x80) (if b =? 0xED then 0x9F else 0xBF)).
Proof.
  intros. unfold utf8_lead.
  destruct (Z.eq_dec b 0xE0) as [->|?]; [done|]. destruct (Z.eq_dec b 0xED) as [->|?]; [done|].
  by decide_bool.
Qed.
Lemma utf8_lead_4 b :
  0xF0 <= b < 0xF5 ->
  utf8_lead b = ([], Utf8State 3 (b - 0xF0) (if b =? 0xF0 then 0x90 else 0x80) (if b =? 0xF4 then 0x8F else 0xBF)).
Proof.
  intros. unfold utf8_lead.
  destruct (Z.eq_dec b 0xF0) as [->|?]; [done|]. destruct (Z.eq_dec b 0xF4) as [->|?]; [done|].
  by decide_bool.
Qed.

Lemma utf8_scan_last a lo hi b r :
  lo <= b <= hi ->
  utf8_scan (Utf8State 1 a lo hi) (b :: r) = Some (a * 64 + b mod 64) :: utf8_scan utf8_init r.
Proof. intros. cbn. by decide_bool. Qed.
Lemma utf8_scan_more n a lo hi b r :
  lo <= b <= hi ->
  utf8_scan (Utf8State (S (S n)) a lo hi) (b :: r)
  = utf8_scan (Utf8State (S n) (a * 64 + b mod 64) 0x80 0xBF) r.
Proof. intros. cbn. by decide_bool. Qed.
Lemma utf8_scan_start b r :
  utf8_scan utf8_init (b :: r) = (utf8_lead b).1 ++ utf8_scan (utf8_lead b).2 r.
Proof. cbn. by destruct (utf8_lead b). Qed.

Lemma add_0x80_mod x : (0x80 + x mod 64) mod 64 = x mod 64.
Proof. lia. Qed.

Lemma utf8_scan_scalar c r :
  scalar_ok c = true ->
  utf8_scan utf8_init (utf8_scalar c ++ r) = Some c :: utf8_scan utf8_init r.
Proof.
  unfold scalar_ok, is_surrogate. intros H. bool_to_prop.
  assert (c < 0xD800 \/ 0xDFFF < c) as Hs.
  { apply andb_false_iff in H0 as [?|?]; bool_to_prop; lia. }
  clear H0. unfold utf8_scalar.
  destruct (c <? 0x80) eqn:E1; [|destruct (c <? 0x800) eqn:E2; [|destruct (c <? 0x10000) eqn:E3]];
    bool_to_prop; cbn [app]; rewrite utf8_scan_start.
  - by rewrite utf8_lead_1 by lia.
  - rewrite utf8_lead_2 by lia. cbn [fst snd app].
    rewrite utf8_scan_last, add_0x80_mod by lia. do 2 f_equal. lia.
  - rewrite utf8_lead_3 by lia. cbn [fst snd app].
    rewrite utf8_scan_more, utf8_scan_last, !add_0x80_mod.
    + do 2 f_equal. lia.
    + lia.
    + repeat case_match; bool_to_prop; lia.
  - rewrite utf8_lead_4 by lia. cbn [fst snd app].
    rewrite utf8_scan_more, utf8_scan_more, utf8_scan_last, !add_0x80_mod.
    + do 2 f_equal. lia.
    + lia.
    + lia.
    + repeat case_match; bool_to_prop; lia.
Qed.

Lemma from_code_point_unit u : u < 0x10000 -> from_code_point u = [u].
Proof. intros. unfold from_code_point. by decide_bool. Qed.

Lemma from_code_point_pair u v :
  is_high u && is_low v = true -> from_code_point (point_value [u; v]) = [u; v].
Proof.
  unfold is_high, is_low. intros H. bool_to_prop.
  unfold from_code_point, point_value. decide_bool. f_equal; [|f_equal]; lia.
Qed.

Lemma pair_scalar_ok u v :
  is_high u && is_low v = true -> scalar_ok (point_value [u; v]) = true.
Proof.
  unfold is_high, is_low. intros H. bool_to_prop.
  unfold scalar_ok, is_surrogate, point_value. by decide_bool.
Qed.

Lemma unit_scalar_ok u :
  unit_ok u = true -> is_surrogate u = false -> scalar_ok u = true.
Proof. unfold unit_ok, scalar_ok. intros H ->. bool_to_prop. by decide_bool. Qed.

Lemma well_formed_pair u v s :
  is_high u && is_low v = true ->
  well_formed (u :: v :: s) = unit_ok u && unit_ok v && well_formed s.
Proof.
  intros H. unfold well_formed. rewrite code_points_pair by done. cbn.
  by rewrite !andb_assoc.
Qed.
Lemma well_formed_single u v s :
  is_high u && is_low v = false ->
  well_formed (u :: v :: s) = unit_ok u && negb (is_surrogate u) && well_formed (v :: s).
Proof.
  intros H. unfold well_formed. rewrite code_points_single by done. cbn [forallb is_lone].
  destruct (unit_ok u), (negb (is_surrogate u)); cbn; rewrite ?andb_false_r; done.
Qed.

Lemma utf8_encode_pair u v s :
  is_high u && is_low v = true ->
  utf8_encode (u :: v :: s) = utf8_scalar (point_value [u; v]) ++ utf8_encode s.
Proof. intros H. unfold utf8_encode. by rewrite code_points_pair. Qed.
Lemma utf8_encode_single u v s :
  is_high u && is_low v = false ->
  utf8_encode (u :: v :: s)
  = utf8_scalar (if is_surrogate u then 0xFFFD else u) ++ utf8_encode (v :: s).
Proof. intros H. unfold utf8_encode. by rewrite code_points_single. Qed.

(** Decoding the encoding of a well-formed string gives its scalars, without
    an error. *)
Lemma utf8_scan_encode s r :
  well_formed s = true ->
  utf8_scan utf8_init (utf8_encode s ++ r)
  = map (fun p => Some (point_value p)) (code_points s) ++ utf8_scan utf8_init r.
Proof.
  induction s using code_points_ind; intros Hw.
  - done.
  - unfold well_formed in Hw. cbn in Hw. bool_to_prop. unfold utf8_encode. cbn.
    rewrite H0, app_nil_r. apply utf8_scan_scalar. by apply unit_scalar_ok.
  - rewrite well_formed_pair in Hw by done. rewrite !andb_true_iff in Hw. destruct Hw as [_ Hw].
    rewrite utf8_encode_pair, code_points_pair by done. rewrite <- app_assoc.
    rewrite utf8_scan_scalar by by apply pair_scalar_ok. cbn [map app]. by rewrite IHs.
  - rewrite well_formed_single in Hw by done. apply andb_true_iff in Hw as [Hu Hw]. bool_to_prop.
    rewrite utf8_encode_single, code_points_single by done. rewrite <- app_assoc, H1.
    rewrite utf8_scan_scalar by by apply unit_scalar_ok. cbn [map app]. by rewrite IHs.
Qed.

Lemma of_scalars_code_points s :
  forallb unit_ok s = true -> of_scalars (map point_value (code_points s)) = s.
Proof.
  induction s using code_points_ind; intros Hu.
  - done.
  - cbn in *. unfold of_scalars. cbn. unfold unit_ok in Hu. bool_to_prop.
    by rewrite from_code_point_unit by lia.
  - cbn [forallb] in Hu. rewrite !andb_true_iff in Hu. destruct Hu as [? [? ?]].
    rewrite code_points_pair by done. unfold of_scalars. cbn [map flat_map].
    rewrite from_code_point_pair by done. cbn [app]. do 2 f_equal. by apply IHs.
  - change (unit_ok u && forallb unit_ok (v :: s) = true) in Hu.
    apply andb_true_iff in Hu as [Hx ?].
    rewrite code_points_single by done. unfold of_scalars. cbn [map flat_map].
    assert (u < 0x10000) by (unfold unit_ok in Hx; bool_to_prop; lia). cbn [point_value].
    rewrite from_code_point_unit by lia. cbn [app]. f_equal. by apply IHs.
Qed.

Lemma well_formed_units s : well_formed s = true -> forallb unit_ok s = true.
Proof. unfold well_formed. intros H. by bool_to_prop. Qed.

Lemma utf8_to_string_encode s :
  well_formed s = true -> utf8_to_string (utf8_encode s) = s.
Proof.
  intros Hw. unfold utf8_to_string. pose proof (utf8_scan_encode s [] Hw) as E.
  rewrite app_nil_r in E. cbn [utf8_scan u_need utf8_init] in E. rewrite E, app_nil_r, map_map. cbn.
  apply of_scalars_code_points. by apply well_formed_units.
Qed.

(** A text that starts with a unit below U+0800 has no byte-order mark. *)
Lemma strip_bom_encode u s :
  u < 0x800 -> strip_bom (utf8_encode (u :: s)) = utf8_encode (u :: s).
Proof.
  intros Hu.
  assert (is_high u = false) as Hh by (unfold is_high; by decide_bool).
  assert (is_surrogate u = false) as Hs by (unfold is_surrogate; by decide_bool).
  unfold utf8_encode. rewrite code_points_cons_bmp by done. cbn [flat_map is_lone].
  rewrite Hs. cbn [point_value]. unfold utf8_scalar.
  destruct (u <? 0x80) eqn:E; bool_to_prop; decide_bool; cbn [app];
    match goal with |- strip_bom (?b :: ?r) = _ =>
      assert ((b =? 0xEF) = false) as Eb by (apply Z.eqb_neq; lia);
      destruct r as [|? [|? ?]]; cbn [strip_bom]; rewrite ?Eb; done end.
Qed.

Lemma text_decode_encode u s :
  u < 0x800 -> well_formed (u :: s) = true -> text_decode (utf8_encode (u :: s)) = u :: s.
Proof.
  intros Hu Hw. unfold text_decode. rewrite strip_bom_encode by done.
  by apply utf8_to_string_encode.
Qed.

Lemma utf8_scalar_bytes c : scalar_ok c = true -> forallb byte_ok (utf8_scalar c) = true.
Proof.
  unfold scalar_ok. intros H. bool_to_prop. unfold utf8_scalar, byte_ok.
  repeat case_match; bool_to_prop; cbn [forallb]; decide_bool; done.
Qed.

(** ** Lemmas: order and sorting *)

Lemma jcompare_eq a b : jcompare a b = Eq <-> a = b.
Proof.
  revert b. induction a as [|x a IH]; intros [|y b]; cbn; try done.
  destruct (Z.compare_spec x y); rewrite ?IH; split; intros; simplify_eq; try done; lia.
Qed.
Lemma jcompare_antisym a b : jcompare b a = CompOpp (jcompare a b).
Proof.
  revert b. induction a as [|x a IH]; intros [|y b]; cbn; try done.
  rewrite (Z.compare_antisym x y). destruct (x ?= y); cbn; auto.
Qed.
Lemma jcompare_gt_trans a b c : jcompare a b <> Gt -> jcompare b c <> Gt -> jcompare a c <> Gt.
Proof.
  revert b c. induction a as [|x a IH]; intros [|y b] [|z c]; cbn; try done.
  destruct (Z.compare_spec x y), (Z.compare_spec y z), (Z.compare_spec x z);
    subst; try done; try lia; eauto.
Qed.

#[export] Instance jle_total : Total jle.
Proof.
  intros a b. unfold jle. rewrite (jcompare_antisym b a).
  destruct (jcompare b a); cbn; naive_solver.
Qed.
#[export] Instance jle_trans : Transitive jle.
Proof. intros a b c. apply jcompare_gt_trans. Qed.
#[export] Instance jle_antisymm : AntiSymm (=) jle.
Proof.
  intros a b. unfold jle. rewrite (jcompare_antisym a b).
  destruct (jcompare a b) eqn:E; cbn; try done. intros. by apply jcompare_eq.
Qed.

Lemma jsort_perm l : Permutation (jsort l) l.
Proof. apply merge_sort_Permutation. Qed.
Lemma jsort_sorted l : StronglySorted jle (jsort l).
Proof. apply StronglySorted_merge_sort; apply _. Qed.

(** The order in which the elements arrive does not matter. *)
Lemma jsort_permutation l k : Permutation l k -> jsort l = jsort k.
Proof.
  intros H. apply (StronglySorted_unique jle); [apply jsort_sorted..|].
  by rewrite !jsort_perm.
Qed.

Lemma jsort_filter (P : jstr -> Prop) `{!forall x, Decision (P x)} l :
  filter P (jsort l) = jsort (filter P l).
Proof.
  apply (StronglySorted_unique jle); [|apply jsort_sorted|by rewrite !jsort_perm].
  pose proof (jsort_sorted l) as Hl. induction Hl as [|x k Hs IH Hx]; [apply SSorted_nil|].
  rewrite filter_cons. case_decide; [|done]. apply SSorted_cons; [done|].
  rewrite Forall_forall in *. intros y [_ Hy]%list_elem_of_filter. auto.
Qed.

(** ** Lemmas: prefixes, separators *)

Lemma starts_with_app p s : starts_with p (p ++ s) = true.
Proof. unfold starts_with. rewrite take_app_length. apply eqb_refl. Qed.

Lemma starts_with_iff p s : starts_with p s = true <-> exists t, s = p ++ t.
Proof.
  unfold starts_with. rewrite eqb_eq. split.
  - intros H. exists (drop (length p) s). rewrite <- H at 1. by rewrite take_drop.
  - intros [t ->]. by rewrite take_app_length.
Qed.
#[export] Hint Rewrite starts_with_app : echolet_rw.

(** A separator that occurs in no component makes concatenation injective. *)
Lemma sep_injective (c : Z) (a a' b b' : jstr) :
  c ∉ a -> c ∉ a' -> a ++ c :: b = a' ++ c :: b' -> a = a' /\ b = b'.
Proof.
  revert a'. induction a as [|x a IH]; intros [|y a'] H1 H2 E; cbn in E; simplify_eq; try done.
  - exfalso. apply H2. by left.
  - exfalso. apply H1. by left.
  - rewrite not_elem_of_cons in H1, H2.
    destruct (IH a') as [-> ->]; naive_solver.
Qed.

Lemma split_on_nonempty c s : split_on c s <> [].
Proof. destruct s; cbn; repeat case_match; done. Qed.

Lemma split_on_fresh c s : c ∉ s -> split_on c s = [s].
Proof.
  induction s as [|u s IH]; cbn; [done|]. rewrite not_elem_of_cons. intros [Hu Hs].
  rewrite (proj2 (Z.eqb_neq u c)) by congruence. by rewrite IH.
Qed.

Lemma split_on_app c a b : c ∉ a -> split_on c (a ++ c :: b) = a :: split_on c b.
Proof.
  induction a as [|u a IH]; cbn.
  - by rewrite Z.eqb_refl.
  - rewrite not_elem_of_cons. intros [Hu Ha].
    rewrite (proj2 (Z.eqb_neq u c)) by congruence. by rewrite IH.
Qed.

(** [split] inverts [join] when no component holds the separator. *)
Lemma split_join c l :
  l <> [] -> Forall (fun x => c ∉ x) l -> split_on c (join [c] l) = l.
Proof.
  intros Hl H. induction H as [|x l Hx H IH]; [done|].
  destruct l as [|y l]; [by apply split_on_fresh|].
  change (join [c] (x :: y :: l)) with (x ++ c :: join [c] (y :: l)).
  rewrite split_on_app by done. by rewrite IH.
Qed.

Lemma join_split c s : join [c] (split_on c s) = s.
Proof.
  induction s as [|u s IH]; [done|]. cbn. destruct (u =? c) eqn:E.
  - apply Z.eqb_eq in E as ->.
    destruct (split_on c s) eqn:Es; [by apply split_on_nonempty in Es|].
    cbn in *. by rewrite IH.
  - destruct (split_on c s) as [|x l] eqn:Es; [by apply split_on_nonempty in Es|].
    destruct l; cbn in *; by rewrite <- IH.
Qed.

(** ** Lemmas: decimal printing *)

Lemma units_uint_of_units u : units_uint (uint_units u) = u.
Proof. induction u; cbn; unfold push_digit; cbn; congruence. Qed.
Lemma uint_units_digits u : forallb is_digit (uint_units u) = true.
Proof. induction u; cbn; auto. Qed.
Lemma uint_units_inj u v : uint_units u = uint_units v -> u = v.
Proof. intros H. rewrite <- (units_uint_of_units u), H. apply units_uint_of_units. Qed.

Lemma show_Z_nonneg z : 0 <= z -> exists u, show_Z z = uint_units u /\ Z.to_int z = Decimal.Pos u.
Proof. intros. unfold show_Z. destruct z; [by eexists|by eexists|lia]. Qed.

Lemma show_Z_read z : 0 <= z -> read_digits (show_Z z) = z.
Proof.
  intros H. destruct (show_Z_nonneg z H) as (u & -> & E).
  unfold read_digits. rewrite units_uint_of_units.
  pose proof (DecimalZ.of_to z) as Z0. by rewrite E in Z0.
Qed.

Lemma show_Z_inj x y : show_Z x = show_Z y -> x = y.
Proof.
  unfold show_Z. intros H. rewrite <- (DecimalZ.of_to x), <- (DecimalZ.of_to y).
  destruct (Z.to_int x) as [u|u], (Z.to_int y) as [v|v].
  - by rewrite (uint_units_inj u v).
  - exfalso. pose proof (uint_units_digits u) as D. rewrite H in D. done.
  - exfalso. pose proof (uint_units_digits v) as D. rewrite <- H in D. done.
  - by rewrite (uint_units_inj u v) by congruence.
Qed.

(** No digit is a given non-digit unit. *)
Lemma show_Z_fresh c z : is_digit c = false -> c <> 45 -> c ∉ show_Z z.
Proof.
  intros Hc Hm. assert (forall u, c ∉ uint_units u) as Hu.
  { intros u Hin. pose proof (uint_units_digits u) as D. rewrite forallb_Forall', Forall_forall in D.
    rewrite (D _ Hin) in Hc. done. }
  unfold show_Z. destruct (Z.to_int z); [apply Hu|].
  rewrite not_elem_of_cons. split; [done|apply Hu].
Qed.

(** ** Lemmas: trimming *)

Lemma trim_start_keep u s : is_js_space u = false -> trim_start (u :: s) = u :: s.
Proof. intros H. cbn [trim_start]. by rewrite H. Qed.
Lemma trim_start_plain s : forallb (fun u => negb (is_js_space u)) s = true -> trim_start s = s.
Proof. destruct s as [|u s]; [done|]. cbn [forallb]. intros [Hu%negb_true_iff _]%andb_true_iff. by apply trim_start_keep. Qed.
Lemma trim_plain s : forallb (fun u => negb (is_js_space u)) s = true -> trim s = s.
Proof.
  intros H. unfold trim. rewrite (trim_start_plain s H), trim_start_plain; [apply rev_involutive|].
  apply forallb_Forall', List.Forall_rev. by apply forallb_Forall'.
Qed.
Lemma show_Z_all_digits z : 0 <= z -> forallb is_digit (show_Z z) = true.
Proof. intros Hz. destruct (show_Z_nonneg z Hz) as (u & -> & _). apply uint_units_digits. Qed.
Lemma digit_not_space u : is_digit u = true -> negb (is_js_space u) = true.
Proof. unfold is_digit, is_js_space. intros H. assert (48 <= u <= 57) by lia. lia. Qed.
Lemma trim_show_Z z : 0 <= z -> trim (show_Z z) = show_Z z.
Proof.
  intros Hz. apply trim_plain. pose proof (show_Z_all_digits z Hz) as H. rewrite forallb_Forall' in *.
  eapply Forall_impl; [exact H|]. apply digit_not_space.
Qed.
Lemma show_Z_nonempty z : show_Z z <> [].
Proof. unfold show_Z. destruct z as [|p|p]; [done| |done]. intros E. pose proof (show_Z_read (Z.pos p) ltac:(lia)) as R. unfold show_Z in R. by rewrite E in R. Qed.

(** ** Lemmas: concatenation of well-formed strings *)

Lemma code_points_app a b :
  well_formed a = true -> code_points (a ++ b) = code_points a ++ code_points b.
Proof.
  induction a using code_points_ind; intros Hw.
  - done.
  - unfold well_formed in Hw. cbn in Hw. bool_to_prop. cbn [app code_points].
    apply code_points_cons_bmp. revert H0. unfold is_surrogate, is_high. intros [?|?]%andb_false_iff;
      apply andb_false_iff; bool_to_prop; [left|right]; apply Z.leb_gt; lia.
  - rewrite well_formed_pair in Hw by done. rewrite !andb_true_iff in Hw. destruct Hw as [_ Hw].
    cbn [app]. rewrite !code_points_pair by done. cbn. by rewrite IHa.
  - rewrite well_formed_single in Hw by done. apply andb_true_iff in Hw as [_ Hw].
    cbn [app]. rewrite !code_points_single by done. cbn [app] in IHa. by rewrite IHa.
Qed.

Lemma well_formed_app a b :
  well_formed a = true -> well_formed b = true -> well_formed (a ++ b) = true.
Proof.
  intros Ha Hb. unfold well_formed in *. rewrite forallb_app.
  rewrite code_points_app by done. rewrite forallb_app.
  apply andb_true_iff in Ha as [-> ->], Hb as [-> ->]. done.
Qed.

Lemma utf8_encode_app a b :
  well_formed a = true -> utf8_encode (a ++ b) = utf8_encode a ++ utf8_encode b.
Proof. intros Ha. unfold utf8_encode. rewrite code_points_app by done. apply flat_map_app. Qed.

Lemma well_formed_concat l : forallb well_formed l = true -> well_formed (concat l) = true.
Proof.
  induction l as [|a l IH]; [done|]. cbn [forallb concat]. rewrite andb_true_iff. intros [? ?].
  by apply well_formed_app; auto.
Qed.

(** Plain units: neither surrogates nor out of range. *)
Definition plain_unit (u : Z) : bool := unit_ok u && negb (is_surrogate u).
Lemma well_formed_plain s : forallb plain_unit s = true -> well_formed s = true.
Proof.
  unfold plain_unit. intros H. induction s as [|u s IH]; [done|].
  cbn [forallb] in H. rewrite !andb_true_iff in H. destruct H as [[Hu Hs] H].
  change (u :: s) with ([u] ++ s). apply well_formed_app; [|auto].
  unfold well_formed. cbn. by rewrite Hu, Hs.
Qed.

(** ** Lemmas: what the decoder gives is well formed *)

Definition scalar (c : Z) : Prop := 0 <= c <= 0x10FFFF /\ (c < 0xD800 \/ 0xDFFF < c).
Lemma from_code_point_well_formed c : scalar c -> well_formed (from_code_point c) = true.
Proof.
  intros [Hc Hs]. unfold from_code_point. destruct (c <? 0x10000) eqn:E; bool_to_prop.
  - apply well_formed_plain. cbn [forallb]. rewrite andb_true_r. unfold plain_unit, unit_ok, is_surrogate. decide_bool.
    destruct Hs; by decide_bool.
  - rewrite well_formed_pair; unfold is_high, is_low, unit_ok; by decide_bool.
Qed.
(** What a pending sequence can still become. *)
Fixpoint completes (need : nat) (acc lo hi : Z) : Prop :=
  match need with
  | O => scalar acc
  | S need => forall b, lo <= b <= hi -> completes need (acc * 64 + b mod 64) 0x80 0xBF
  end.
Definition pending_ok (st : utf8_state) : Prop :=
  match u_need st with O => True | n => completes n (u_acc st) (u_lo st) (u_hi st) end.
Definition scanned_ok (o : option Z) : Prop := match o with Some c => scalar c | None => True end.
Lemma utf8_lead_ok b : byte_ok b = true -> pending_ok (utf8_lead b).2 /\ Forall scanned_ok (utf8_lead b).1.
Proof.
  unfold byte_ok. intros H. bool_to_prop. unfold utf8_lead.
  repeat case_goal; bool_to_prop; (split; [try exact I|repeat constructor]);
    unfold pending_ok; cbn [u_need u_acc u_lo u_hi completes fst snd]; unfold scalar; lia.
Qed.
Lemma utf8_scan_ok bs st : pending_ok st -> forallb byte_ok bs = true -> Forall scanned_ok (utf8_scan st bs).
Proof.
  revert st. induction bs as [|b r IH]; intros st Hst; cbn [utf8_scan forallb].
  { destruct (u_need st); repeat constructor. }
  intros [Hb Hr]%andb_true_iff. destruct (utf8_lead_ok b Hb) as [Hl Ho]. unfold pending_ok in Hst.
  assert (Forall scanned_ok (let '(out, st') := utf8_lead b in out ++ utf8_scan st' r)) as Hlead.
  { destruct (utf8_lead b) as [out st']. cbn [fst snd] in *. apply Forall_app. split; [done|]. by apply IH. }
  destruct (u_need st) as [|n]; [done|]. destruct ((u_lo st <=? b) && (b <=? u_hi st)) eqn:E.
  - bool_to_prop. cbn [completes] in Hst. specialize (Hst b (conj H H0)). destruct n as [|n].
    + constructor; [exact Hst|]. by apply IH.
    + apply IH; [exact Hst|done].
  - destruct (utf8_lead b). by constructor.
Qed.
Lemma utf8_to_string_well_formed bs : forallb byte_ok bs = true -> well_formed (utf8_to_string bs) = true.
Proof.
  intros H. unfold utf8_to_string, of_scalars. pose proof (utf8_scan_ok bs utf8_init I H) as Hs.
  rewrite flat_map_concat_map. apply well_formed_concat. rewrite map_map. revert Hs.
  induction (utf8_scan utf8_init bs) as [|o l IH]; intros Hs; [done|]. apply Forall_cons in Hs as [Ho Hl]. cbn [map forallb].
  rewrite IH by done. rewrite andb_true_r. apply from_code_point_well_formed. destruct o; [exact Ho|]. cbn. unfold scalar. lia.
Qed.

(** A literal is never unfolded by unification; [vm_compute] still reads it. *)
#[global] Opaque js.
