(* ===== verification/Json.v ===== *)
(** * JSON: the values, [JSON.stringify] and [JSON.parse]

    Part of the language, modelled because every record of the encrypted store
    and every body on the wire goes through it.  Numbers are integers (every
    number the client stores is one); a text with a fraction or an exponent is
    outside the model and [parse] answers [None] for it, as for a syntax error. *)

From S2P Require Import Prelude JsString.

#[local] Unset Elimination Schemes.
Inductive json : Type :=
  | JNull
  | JBool (b : bool)
  | JNum (z : Z)
  | JStr (s : jstr)
  | JArr (l : list json)
  | JObj (l : list (jstr * json)).

#[local] Set Elimination Schemes.

#[export] Instance json_eq_dec : EqDecision json.
Proof.
  refine (fix go (x y : json) : Decision (x = y) :=
    match x, y with
    | JNull, JNull => left eq_refl
    | JBool a, JBool b => cast_if (decide (a = b))
    | JNum a, JNum b => cast_if (decide (a = b))
    | JStr a, JStr b => cast_if (decide (a = b))
    | JArr a, JArr b => cast_if (@list_eq_dec _ go a b)
    | JObj a, JObj b => cast_if (@list_eq_dec _ (@prod_eq_dec _ _ _ go) a b)
    | _, _ => right _
    end); clear go; abstract congruence.
Defined.

(** Induction through the lists. *)
Fixpoint json_rect' (P : json -> Prop)
    (Hnull : P JNull) (Hbool : forall b, P (JBool b)) (Hnum : forall z, P (JNum z))
    (Hstr : forall s, P (JStr s)) (Harr : forall l, Forall P l -> P (JArr l))
    (Hobj : forall l, Forall (fun kv => P kv.2) l -> P (JObj l)) (v : json) : P v :=
  let rec := json_rect' P Hnull Hbool Hnum Hstr Harr Hobj in
  match v with
  | JNull => Hnull
  | JBool b => Hbool b
  | JNum z => Hnum z
  | JStr s => Hstr s
  | JArr l => Harr l ((fix go l := match l return Forall P l with
                                 | [] => @List.Forall_nil _ _
                                 | x :: l => @List.Forall_cons _ _ _ _ (rec x) (go l) end) l)
  | JObj l => Hobj l ((fix go l := match l return Forall (fun kv => P kv.2) l with
                                 | [] => @List.Forall_nil _ _
                                 | x :: l => @List.Forall_cons _ _ _ _ (rec x.2) (go l) end) l)
  end.

(** ** Printing *)

Definition hex_digit (d : Z) : Z := if d <? 10 then 48 + d else 87 + d.
Definition hex4 (u : Z) : jstr :=
  [hex_digit (u / 4096); hex_digit (u / 256 mod 16); hex_digit (u / 16 mod 16); hex_digit (u mod 16)].

(** One code point inside a string literal (well-formed [JSON.stringify]: a lone
    surrogate is escaped). *)
Definition quote_point (p : jstr) : jstr :=
  match p with
  | [u] =>
      if u =? 34 then [92; 34]
      else if u =? 92 then [92; 92]
      else if u =? 8 then [92; 98]
      else if u =? 12 then [92; 102]
      else if u =? 10 then [92; 110]
      else if u =? 13 then [92; 114]
      else if u =? 9 then [92; 116]
      else if (u <? 32) || is_surrogate u then 92 :: 117 :: hex4 u
      else [u]
  | _ => p
  end.
Definition quote (s : jstr) : jstr := 34 :: flat_map quote_point (code_points s) ++ [34].

Fixpoint stringify (v : json) : jstr :=
  match v with
  | JNull => js "null"
  | JBool true => js "true"
  | JBool false => js "false"
  | JNum z => show_Z z
  | JStr s => quote s
  | JArr l => 91 :: join [44] (map stringify l) ++ [93]
  | JObj l => 123 :: join [44] (map (fun kv => quote kv.1 ++ 58 :: stringify kv.2) l) ++ [125]
  end.

(** ** Property order of objects

    A key that is an array index comes before every other key, in ascending
    order; the rest keep the order in which they were first set. *)

Definition is_index (k : jstr) : bool :=
  negb (eqb k []) && forallb is_digit k && eqb (show_Z (read_digits k)) k
  && (read_digits k <? 4294967295).

Fixpoint index_insert (k : jstr) (v : json) (l : list (jstr * json)) : list (jstr * json) :=
  match l with
  | [] => [(k, v)]
  | (k', v') :: l' =>
      if is_index k' && (read_digits k' <? read_digits k) then (k', v') :: index_insert k v l'
      else (k, v) :: l
  end.
Fixpoint obj_replace (k : jstr) (v : json) (l : list (jstr * json)) : list (jstr * json) :=
  match l with
  | [] => []
  | (k', v') :: l' => if eqb k' k then (k', v) :: l' else (k', v') :: obj_replace k v l'
  end.
Definition obj_has (k : jstr) (l : list (jstr * json)) : bool := existsb (fun kv => eqb kv.1 k) l.
Definition obj_set (k : jstr) (v : json) (l : list (jstr * json)) : list (jstr * json) :=
  if obj_has k l then obj_replace k v l
  else if is_index k then index_insert k v l
  else l ++ [(k, v)].
Definition obj_of (members : list (jstr * json)) : list (jstr * json) :=
  fold_left (fun l kv => obj_set kv.1 kv.2 l) members [].

(** Property read: [obj[key]]; [None] stands for [undefined]. *)
Fixpoint obj_get (k : jstr) (l : list (jstr * json)) : option json :=
  match l with
  | [] => None
  | (k', v) :: l' => if eqb k' k then Some v else obj_get k l'
  end.
Definition field (k : jstr) (v : json) : option json :=
  match v with JObj l => obj_get k l | _ => None end.

(** A value in a template: [String(value)]; [undefined] is [None].  An object is printed as one
    that inherits [toString]; with a member of that name JavaScript throws a [TypeError], which
    is not modelled. *)
Fixpoint to_text (v : json) : jstr :=
  match v with
  | JNull => js "null"
  | JBool b => if b then js "true" else js "false"
  | JNum n => show_Z n
  | JStr s => s
  | JArr l => join (js ",") (map (fun v => match v with JNull => [] | v => to_text v end) l)
  | JObj _ => js "[object Object]"
  end.
Definition template (v : option json) : jstr := match v with Some v => to_text v | None => js "undefined" end.

(** ** Parsing *)

Definition is_ws (u : Z) : bool := (u =? 32) || (u =? 9) || (u =? 10) || (u =? 13).
Fixpoint skip_ws (s : jstr) : jstr :=
  match s with
  | u :: s' => if is_ws u then skip_ws s' else s
  | [] => []
  end.

Definition hex_value (u : Z) : option Z :=
  if is_digit u then Some (u - 48)
  else if (97 <=? u) && (u <=? 102) then Some (u - 87)
  else if (65 <=? u) && (u <=? 70) then Some (u - 55)
  else None.
Definition read_hex4 (a b c d : Z) : option Z :=
  match hex_value a, hex_value b, hex_value c, hex_value d with
  | Some a, Some b, Some c, Some d => Some (a * 4096 + b * 256 + c * 16 + d)
  | _, _, _, _ => None
  end.
Definition simple_escape (e : Z) : option Z :=
  if e =? 34 then Some 34 else if e =? 92 then Some 92 else if e =? 47 then Some 47
  else if e =? 98 then Some 8 else if e =? 102 then Some 12 else if e =? 110 then Some 10
  else if e =? 114 then Some 13 else if e =? 116 then Some 9 else None.

Definition cons_fst (u : Z) (r : option (jstr * jstr)) : option (jstr * jstr) :=
  match r with Some (s, rest) => Some (u :: s, rest) | None => None end.

(** The rest of a string literal, after its opening quote. *)
Fixpoint parse_string (s : jstr) : option (jstr * jstr) :=
  match s with
  | [] => None
  | u :: r =>
      if u =? 34 then Some ([], r)
      else if u =? 92 then
        match r with
        | [] => None
        | e :: r' =>
            if e =? 117 then
              match r' with
              | a :: b :: c :: d :: r'' =>
                  match read_hex4 a b c d with
                  | Some x => cons_fst x (parse_string r'')
                  | None => None
                  end
              | _ => None
              end
            else match simple_escape e with
                 | Some x => cons_fst x (parse_string r')
                 | None => None
                 end
        end
      else if u <? 32 then None
      else cons_fst u (parse_string r)
  end.

Fixpoint span_digits (s : jstr) : jstr * jstr :=
  match s with
  | u :: s' => if is_digit u then let '(d, r) := span_digits s' in (u :: d, r) else ([], s)
  | [] => ([], [])
  end.

(** A number token without fraction or exponent. *)
Definition parse_nat (s : jstr) : option (Z * jstr) :=
  let '(d, r) := span_digits s in
  match d with
  | [] => None
  | u :: d' =>
      if (u =? 48) && negb (eqb d' []) then None
      else match r with
           | c :: _ => if (c =? 46) || (c =? 101) || (c =? 69) then None
                       else Some (read_digits d, r)
           | [] => Some (read_digits d, r)
           end
  end.
Definition parse_number (s : jstr) : option (Z * jstr) :=
  match s with
  | 45 :: s' => match parse_nat s' with Some (z, r) => Some (- z, r) | None => None end
  | _ => parse_nat s
  end.

Definition expect (c : Z) (s : jstr) : option jstr :=
  match skip_ws s with
  | u :: r => if u =? c then Some r else None
  | [] => None
  end.

Fixpoint parse_value (n : nat) (s : jstr) : option (json * jstr) :=
  match n with
  | O => None
  | S n =>
      let s := skip_ws s in
      match s with
      | [] => None
      | u :: r =>
          if u =? 34 then
            match parse_string r with Some (x, r') => Some (JStr x, r') | None => None end
          else if u =? 91 then
            match expect 93 r with
            | Some r' => Some (JArr [], r')
            | None => match parse_elements n r with
                      | Some (l, r') => Some (JArr l, r') | None => None end
            end
          else if u =? 123 then
            match expect 125 r with
            | Some r' => Some (JObj [], r')
            | None => match parse_members n r with
                      | Some (l, r') => Some (JObj (obj_of l), r') | None => None end
            end
          else if starts_with (js "null") s then Some (JNull, drop 4 s)
          else if starts_with (js "true") s then Some (JBool true, drop 4 s)
          else if starts_with (js "false") s then Some (JBool false, drop 5 s)
          else match parse_number s with Some (z, r') => Some (JNum z, r') | None => None end
      end
  end
with parse_elements (n : nat) (s : jstr) : option (list json * jstr) :=
  match n with
  | O => None
  | S n =>
      match parse_value n s with
      | None => None
      | Some (v, r) =>
          match expect 44 r with
          | Some r' => match parse_elements n r' with
                       | Some (l, r'') => Some (v :: l, r'') | None => None end
          | None => match expect 93 r with Some r' => Some ([v], r') | None => None end
          end
      end
  end
with parse_members (n : nat) (s : jstr) : option (list (jstr * json) * jstr) :=
  match n with
  | O => None
  | S n =>
      match expect 34 s with
      | None => None
      | Some r =>
          match parse_string r with
          | None => None
          | Some (k, r) =>
              match expect 58 r with
              | None => None
              | Some r =>
                  match parse_value n r with
                  | None => None
                  | Some (v, r) =>
                      match expect 44 r with
                      | Some r' => match parse_members n r' with
                                   | Some (l, r'') => Some ((k, v) :: l, r'') | None => None end
                      | None => match expect 125 r with
                                | Some r' => Some ([(k, v)], r') | None => None end
                      end
                  end
              end
          end
      end
  end.

(** [JSON.parse(text)]; [None] stands for the [SyntaxError].  Every call but one
    per list consumes a unit, so twice the length is enough fuel
    ([parse_value_fuel] below). *)
Definition fuel_for (s : jstr) : nat := S (2 * length s).
Definition parse (s : jstr) : option json :=
  match parse_value (fuel_for s) s with
  | Some (v, r) => match skip_ws r with [] => Some v | _ => None end
  | None => None
  end.

(** The [encode]/[decode] pair used for every record of the store. *)
Definition json_encode (v : json) : bytes := utf8_encode (stringify v).
Definition json_decode (bs : bytes) : option json := parse (text_decode bs).

(** JSON literals, with a single quote for each double quote. *)
Definition jsq (s : String.string) : jstr := map (fun u => if u =? 39 then 34 else u) (js s).
Arguments jsq s%_string_scope.

Example parse_sample :
  parse (jsq "{ 'a' : [1, -20, true, null, 'x\u00e9\n'], 'b': {} }")
  = Some (JObj [(js "a", JArr [JNum 1; JNum (-20); JBool true; JNull; JStr [120; 233; 10]]); (js "b", JObj [])]).
Proof. vm_compute. reflexivity. Qed.

(** ** Well-formed values

    Strings hold 16-bit units; an object has no key twice and no key that is an
    array index (no record of the client has one). *)
Definition keys_ok (l : list (jstr * json)) : bool :=
  bool_decide (NoDup l.*1) && forallb (fun k => negb (is_index k) && forallb unit_ok k) l.*1.
Fixpoint json_ok (v : json) : bool :=
  match v with
  | JNull | JBool _ | JNum _ => true
  | JStr s => forallb unit_ok s
  | JArr l => forallb json_ok l
  | JObj l => keys_ok l && forallb (fun kv => json_ok kv.2) l
  end.

(** ** Lemmas: string literals *)

(** The two shapes of a point of a string of 16-bit units. *)
Definition point_ok (p : jstr) : Prop :=
  (exists u, p = [u] /\ unit_ok u = true)
  \/ (exists u v, p = [u; v] /\ is_high u && is_low v = true /\ unit_ok u = true /\ unit_ok v = true).

Lemma code_points_ok s : forallb unit_ok s = true -> Forall point_ok (code_points s).
Proof.
  rewrite forallb_Forall'. intros Hs. induction s using code_points_ind.
  - constructor.
  - apply Forall_cons in Hs as [? _]. apply Forall_singleton. left. eauto.
  - rewrite !Forall_cons in Hs. destruct Hs as (? & ? & ?). rewrite code_points_pair by done.
    apply Forall_cons_2; [right; eauto 7|auto].
  - rewrite code_points_single by done. apply Forall_cons in Hs as [? ?].
    apply Forall_cons_2; [left; eauto|auto].
Qed.

Lemma hex_value_digit d : 0 <= d < 16 -> hex_value (hex_digit d) = Some d.
Proof.
  intros. unfold hex_value, hex_digit, is_digit.
  destruct (d <? 10) eqn:E; bool_to_prop; decide_bool; f_equal; lia.
Qed.
Lemma read_hex4_hex4 u :
  unit_ok u = true ->
  read_hex4 (hex_digit (u / 4096)) (hex_digit (u / 256 mod 16)) (hex_digit (u / 16 mod 16))
    (hex_digit (u mod 16)) = Some u.
Proof.
  unfold unit_ok. intros. bool_to_prop. unfold read_hex4.
  rewrite !hex_value_digit by lia. f_equal. lia.
Qed.

Definition prepend (p : jstr) (r : option (jstr * jstr)) : option (jstr * jstr) :=
  match r with Some (s, rest) => Some (p ++ s, rest) | None => None end.
Lemma prepend_cons u r : cons_fst u r = prepend [u] r.
Proof. by destruct r as [[]|]. Qed.

Lemma parse_string_plain u t :
  32 <= u -> u <> 34 -> u <> 92 -> parse_string (u :: t) = prepend [u] (parse_string t).
Proof. intros. cbn. decide_bool. apply prepend_cons. Qed.
Lemma parse_string_escape e x t :
  e <> 117 -> simple_escape e = Some x ->
  parse_string (92 :: e :: t) = prepend [x] (parse_string t).
Proof. intros H E. cbn. decide_bool. rewrite E. apply prepend_cons. Qed.
Lemma parse_string_hex u t :
  unit_ok u = true -> parse_string (92 :: 117 :: hex4 u ++ t) = prepend [u] (parse_string t).
Proof. intros H. cbn. rewrite read_hex4_hex4 by done. apply prepend_cons. Qed.

Lemma parse_string_point p t :
  point_ok p -> parse_string (quote_point p ++ t) = prepend p (parse_string t).
Proof.
  intros [(u & -> & Hu)|(u & v & -> & Hp & Hu & Hv)].
  - unfold quote_point.
    destruct (u =? 34) eqn:E1; [apply Z.eqb_eq in E1 as ->; by apply parse_string_escape|].
    destruct (u =? 92) eqn:E2; [apply Z.eqb_eq in E2 as ->; by apply parse_string_escape|].
    destruct (u =? 8) eqn:E3; [apply Z.eqb_eq in E3 as ->; by apply parse_string_escape|].
    destruct (u =? 12) eqn:E4; [apply Z.eqb_eq in E4 as ->; by apply parse_string_escape|].
    destruct (u =? 10) eqn:E5; [apply Z.eqb_eq in E5 as ->; by apply parse_string_escape|].
    destruct (u =? 13) eqn:E6; [apply Z.eqb_eq in E6 as ->; by apply parse_string_escape|].
    destruct (u =? 9) eqn:E7; [apply Z.eqb_eq in E7 as ->; by apply parse_string_escape|].
    destruct ((u <? 32) || is_surrogate u) eqn:E8; [by apply parse_string_hex|].
    bool_to_prop. by apply parse_string_plain.
  - unfold is_high, is_low in Hp. bool_to_prop. cbn [quote_point app].
    rewrite !parse_string_plain by lia. destruct (parse_string t) as [[]|]; done.
Qed.

Lemma parse_string_points ps t :
  Forall point_ok ps -> parse_string (flat_map quote_point ps ++ 34 :: t) = Some (concat ps, t).
Proof.
  induction 1 as [|p ps Hp _ IH]; [done|]. cbn [flat_map]. rewrite <- app_assoc.
  rewrite parse_string_point, IH by done. done.
Qed.

(** A string literal reads back as the string it was printed from, whatever
    follows it. *)
Lemma parse_string_quote s t :
  forallb unit_ok s = true ->
  parse_string (drop 1 (quote s) ++ t) = Some (s, t).
Proof.
  intros Hs. change (drop 1 (quote s)) with (flat_map quote_point (code_points s) ++ [34]).
  rewrite <- app_assoc. cbn [app].
  rewrite parse_string_points by by apply code_points_ok. by rewrite code_points_concat.
Qed.

Lemma quote_cons s t : quote s ++ t = 34 :: (drop 1 (quote s) ++ t).
Proof. done. Qed.

(** ** Lemmas: numbers *)

Lemma span_digits_app d r :
  forallb is_digit d = true -> (forall c r', r = c :: r' -> is_digit c = false) ->
  span_digits (d ++ r) = (d, r).
Proof.
  induction d as [|u d IH]; cbn [app forallb].
  - intros _ Hr. destruct r as [|c r]; [done|]. cbn. by rewrite (Hr c r).
  - rewrite andb_true_iff. intros [Hu Hd] Hr. cbn. rewrite Hu, IH by done. done.
Qed.

Lemma to_uint_normal p : Decimal.unorm (Pos.to_uint p) = Pos.to_uint p.
Proof.
  pose proof (DecimalPos.Unsigned.to_of (Pos.to_uint p)) as E.
  rewrite DecimalPos.Unsigned.of_to in E. by symmetry.
Qed.

Lemma unorm_leading_zero u d :
  Decimal.unorm u = u -> uint_units u = 48 :: d -> d = [].
Proof.
  intros Hn Hu. destruct u; try discriminate. cbn in Hu. injection Hu as <-.
  unfold Decimal.unorm in Hn. cbn [Decimal.nzhead] in Hn.
  destruct (Decimal.nzhead u) eqn:E; try discriminate.
  - injection Hn as <-. done.
  - exfalso. eapply DecimalFacts.nzhead_nonzero. exact E.
Qed.

Lemma show_Z_no_leading_zero z d : 0 <= z -> show_Z z = 48 :: d -> d = [].
Proof.
  destruct z as [|p|p]; [|intros _|lia].
  - cbn. intros _ [= <-]. done.
  - apply unorm_leading_zero. apply to_uint_normal.
Qed.

Lemma uint_units_nonempty p : uint_units (Pos.to_uint p) <> [].
Proof.
  pose proof (DecimalPos.Unsigned.to_uint_nonnil p). by destruct (Pos.to_uint p).
Qed.

(** What may follow a value inside a document, or the newline after one. *)
Definition stops (r : jstr) : Prop :=
  r = [] \/ exists c r', r = c :: r' /\ (c = 44 \/ c = 93 \/ c = 125 \/ c = 10).

Lemma parse_nat_show z r : 0 <= z -> stops r -> parse_nat (show_Z z ++ r) = Some (z, r).
Proof.
  intros Hz Hr. unfold parse_nat.
  destruct (show_Z_nonneg z Hz) as (u & Eu & _).
  rewrite span_digits_app; cycle 1.
  { rewrite Eu. apply uint_units_digits. }
  { intros c r' ->. by destruct Hr as [?|(? & ? & [= <- <-] & [->|[->|[->| ->]]])]. }
  destruct (show_Z z) as [|a d] eqn:E.
  { exfalso. destruct z; [done| |lia]. by apply (uint_units_nonempty p). }
  assert ((a =? 48) && negb (eqb d []) = false) as ->.
  { destruct (a =? 48) eqn:Ea; [|done]. apply Z.eqb_eq in Ea as ->.
    by rewrite (show_Z_no_leading_zero z d Hz E). }
  rewrite <- E, show_Z_read by done.
  by destruct Hr as [->|(c & r' & -> & [->|[->|[->| ->]]])].
Qed.

Lemma show_Z_opp p : show_Z (Z.neg p) = 45 :: show_Z (Z.pos p).
Proof. done. Qed.

Lemma digits_not_minus z d : 0 <= z -> show_Z z = 45 :: d -> False.
Proof.
  intros Hz E. destruct (show_Z_nonneg z Hz) as (u & Eu & _).
  pose proof (uint_units_digits u) as D. rewrite <- Eu, E in D. done.
Qed.

Lemma parse_number_show z r : stops r -> parse_number (show_Z z ++ r) = Some (z, r).
Proof.
  intros Hr. destruct (Z.le_gt_cases 0 z) as [Hz|Hz].
  - rewrite <- (parse_nat_show z r Hz Hr). unfold parse_number.
    destruct (show_Z z) as [|a d] eqn:E.
    + exfalso. destruct z; [done| |lia]. by apply (uint_units_nonempty p).
    + cbn [app]. destruct (Z.eq_dec a 45) as [->|?]; [by destruct (digits_not_minus z d)|].
      destruct a; try done. repeat (destruct p; try done).
  - destruct z as [|p|p]; try lia. rewrite show_Z_opp. cbn [app parse_number].
    by rewrite (parse_nat_show (Z.pos p)) by (done || lia).
Qed.

(** ** Lemmas: property order *)

Lemma obj_has_false k l : obj_has k l = false <-> k ∉ l.*1.
Proof.
  unfold obj_has. induction l as [|[k' v] l IH]; cbn;
    [split; [intros _; apply not_elem_of_nil|done]|].
  rewrite orb_false_iff, eqb_neq, not_elem_of_cons. naive_solver.
Qed.

Lemma obj_set_fresh k v l :
  k ∉ l.*1 -> is_index k = false -> obj_set k v l = l ++ [(k, v)].
Proof. intros Hk Hi. unfold obj_set. by rewrite (proj2 (obj_has_false k l) Hk), Hi. Qed.

Lemma obj_of_ok_from l acc :
  NoDup (acc ++ l).*1 -> forallb (fun k => negb (is_index k)) l.*1 = true ->
  fold_left (fun l kv => obj_set kv.1 kv.2 l) l acc = acc ++ l.
Proof.
  revert acc. induction l as [|[k v] l IH]; intros acc Hn Hi; cbn [fold_left].
  - by rewrite app_nil_r.
  - cbn [forallb fmap list_fmap fst] in Hi. apply andb_true_iff in Hi as [Hk Hi]. bool_to_prop.
    rewrite obj_set_fresh; cbn [fst snd].
    + rewrite IH, <- app_assoc; [done| |done]. by rewrite <- app_assoc.
    + rewrite fmap_app in Hn. apply NoDup_app in Hn as (_ & Hn & _). intros Hin.
      apply (Hn k Hin). by left.
    + done.
Qed.

(** Setting the properties of an object in its own order rebuilds it. *)
Lemma obj_of_ok l : keys_ok l = true -> obj_of l = l.
Proof.
  unfold keys_ok. rewrite andb_true_iff, bool_decide_eq_true. intros [Hn Hk].
  apply (obj_of_ok_from l []); [done|].
  rewrite forallb_Forall' in *. eapply Forall_impl; [exact Hk|]. cbn.
  intros k Hx. cbn in Hx. apply andb_true_iff in Hx. tauto.
Qed.

(** ** Lemmas: documents *)

Lemma skip_ws_id u t : is_ws u = false -> skip_ws (u :: t) = u :: t.
Proof. intros H. cbn. by rewrite H. Qed.
Lemma expect_hit c t : is_ws c = false -> expect c (c :: t) = Some t.
Proof. intros H. unfold expect. rewrite skip_ws_id by done. by rewrite Z.eqb_refl. Qed.
Lemma expect_miss c u t : is_ws u = false -> u <> c -> expect c (u :: t) = None.
Proof. intros H ?. unfold expect. rewrite skip_ws_id by done. by rewrite (proj2 (Z.eqb_neq u c)). Qed.

(** The first unit of a printed value. *)
Definition value_start (u : Z) : Prop :=
  u = 34 \/ u = 91 \/ u = 123 \/ u = 110 \/ u = 116 \/ u = 102 \/ u = 45 \/ is_digit u = true.
Lemma stringify_start v : exists u t, stringify v = u :: t /\ value_start u.
Proof.
  unfold value_start. destruct v as [|[]|z|s|l|l]; cbn [stringify].
  1-3: by eexists _, _; split; [vm_compute; reflexivity|naive_solver].
  2-4: by eexists _, _; split; [reflexivity|naive_solver].
  destruct z as [|p|p]; [by eexists _, _; split; [reflexivity|naive_solver]| |].
  - destruct (show_Z_nonneg (Z.pos p)) as (u & Eu & E2); [lia|]. rewrite Eu.
    pose proof (uint_units_digits u) as D. destruct (uint_units u) as [|a d] eqn:E.
    + exfalso. injection E2 as <-. by apply (uint_units_nonempty p).
    + cbn in D. bool_to_prop. eexists _, _; split; [reflexivity|]. naive_solver.
  - by eexists _, _; split; [reflexivity|naive_solver].
Qed.

Lemma value_start_not_ws u : value_start u -> is_ws u = false /\ u <> 93 /\ u <> 125 /\ u <> 44.
Proof.
  unfold value_start, is_ws, is_digit.
  intros H. repeat destruct H as [->|H]; try (repeat split; done). bool_to_prop. split; [|lia].
  by decide_bool.
Qed.

Lemma stops_nil : stops [].
Proof. by left. Qed.
Lemma stops_cons c r : c = 44 \/ c = 93 \/ c = 125 \/ c = 10 -> stops (c :: r).
Proof. intros. right. eauto. Qed.

Lemma join_cons sep x y l : join sep (x :: y :: l) = x ++ sep ++ join sep (y :: l).
Proof. done. Qed.

(** What the round-trip theorem says of one value. *)
Definition reads_back (v : json) : Prop :=
  forall n r, (2 * length (stringify v) <= n)%nat -> stops r ->
  parse_value n (stringify v ++ r) = Some (v, r).

Lemma length_stringify v : (1 <= length (stringify v))%nat.
Proof. destruct (stringify_start v) as (u & t & -> & _). cbn. lia. Qed.

Lemma parse_elements_join l n r :
  l <> [] -> Forall reads_back l ->
  (2 * length (join [44%Z] (map stringify l)) + 1 <= n)%nat ->
  parse_elements n (join [44] (map stringify l) ++ 93 :: r) = Some (l, r).
Proof.
  intros Hl H. revert n. induction H as [|v l Hv Hrest IH]; [done|]. intros n Hn.
  destruct n as [|n]; [lia|]. destruct l as [|w l].
  - cbn [map join] in *. cbn [parse_elements].
    rewrite Hv by (first [lia | apply stops_cons; lia]). by rewrite expect_miss, expect_hit by done.
  - change (map stringify (v :: w :: l)) with (stringify v :: stringify w :: map stringify l) in *.
    rewrite join_cons in *. rewrite !length_app in Hn. cbn [length] in Hn.
    rewrite <- !app_assoc. cbn [parse_elements app].
    rewrite Hv by (first [lia | apply stops_cons; lia]). rewrite expect_hit by done.
    change (stringify w :: map stringify l) with (map stringify (w :: l)) in *.
    rewrite IH; [done|done|]. pose proof (length_stringify v). lia.
Qed.

Definition member_text (kv : jstr * json) : jstr := quote kv.1 ++ 58 :: stringify kv.2.

Lemma parse_member_value kv n t :
  forallb unit_ok kv.1 = true -> reads_back kv.2 -> stops t ->
  (2 * length (member_text kv) <= n)%nat ->
  exists r1, expect 34 (member_text kv ++ t) = Some r1 /\
  exists r2, parse_string r1 = Some (kv.1, r2) /\
  exists r3, expect 58 r2 = Some r3 /\ parse_value n r3 = Some (kv.2, t).
Proof.
  intros Hk Hv Ht Hn. unfold member_text in *. rewrite length_app in Hn. cbn [length] in Hn.
  rewrite <- app_assoc, quote_cons. eexists. split; [by apply expect_hit|].
  eexists. split; [by apply parse_string_quote|].
  eexists. split; [by apply expect_hit|]. apply Hv; [lia|done].
Qed.

Lemma parse_members_join l n r :
  l <> [] -> Forall (fun kv => forallb unit_ok kv.1 = true /\ reads_back kv.2) l ->
  (2 * length (join [44%Z] (map member_text l)) + 1 <= n)%nat ->
  parse_members n (join [44] (map member_text l) ++ 125 :: r) = Some (l, r).
Proof.
  intros Hl H. revert n. induction H as [|[k v] l [Hk Hv] Hrest IH]; [done|]. intros n Hn.
  destruct n as [|n]; [lia|]. destruct l as [|w l].
  - cbn [map join] in *. cbn [parse_members].
    destruct (parse_member_value (k, v) n (125 :: r) Hk Hv) as (r1 & -> & r2 & -> & r3 & -> & ->);
      [apply stops_cons; lia|lia|]. by rewrite expect_miss, expect_hit by done.
  - change (map member_text ((k, v) :: w :: l))
      with (member_text (k, v) :: member_text w :: map member_text l) in *.
    rewrite join_cons in *. rewrite !length_app in Hn. cbn [length] in Hn.
    rewrite <- !app_assoc. cbn [parse_members app].
    destruct (parse_member_value (k, v) n
      (44 :: join [44] (member_text w :: map member_text l) ++ 125 :: r) Hk Hv)
      as (r1 & -> & r2 & -> & r3 & -> & ->);
      [apply stops_cons; lia|lia|]. rewrite expect_hit by done.
    change (member_text w :: map member_text l) with (map member_text (w :: l)) in *.
    rewrite IH; [done|done|lia].
Qed.

Lemma stringify_obj l : stringify (JObj l) = 123 :: join [44] (map member_text l) ++ [125].
Proof. done. Qed.

(** A number's text starts with a digit or a sign, so no literal is read. *)
Lemma show_Z_start z : exists u t, show_Z z = u :: t /\ (u = 45 \/ is_digit u = true).
Proof.
  destruct z as [|p|p]; [by eexists _, _; split; [reflexivity|right]| |].
  - pose proof (uint_units_digits (Pos.to_uint p)) as D.
    destruct (uint_units (Pos.to_uint p)) as [|a d] eqn:E; [by destruct (uint_units_nonempty p)|].
    exists a, d. split; [exact E|]. cbn in D. apply andb_true_iff in D. tauto.
  - by eexists _, _; split; [reflexivity|left].
Qed.

Lemma parse_value_number n z r :
  stops r -> parse_value (S n) (show_Z z ++ r) = Some (JNum z, r).
Proof.
  intros Hr. pose proof (parse_number_show z r Hr) as P.
  destruct (show_Z_start z) as (u & t & E & Hu). rewrite E in *. cbn [app] in *.
  assert (Hu' : u = 45 \/ 48 <= u <= 57) by (destruct Hu; [auto|unfold is_digit in *; bool_to_prop; lia]).
  cbn [parse_value]. rewrite skip_ws_id by (unfold is_ws; by decide_bool).
  assert ((u =? 34) = false) as -> by (apply Z.eqb_neq; lia).
  assert ((u =? 91) = false) as -> by (apply Z.eqb_neq; lia).
  assert ((u =? 123) = false) as -> by (apply Z.eqb_neq; lia).
  assert (forall c s, starts_with (c :: s) (u :: t ++ r) = true -> u = c) as Hs.
  { intros c s Hx. apply starts_with_iff in Hx as [? Hx]. by injection Hx. }
  destruct (starts_with (js "null") _) eqn:E1; [pose proof (Hs 110 _ E1); lia|].
  destruct (starts_with (js "true") _) eqn:E2; [pose proof (Hs 116 _ E2); lia|].
  destruct (starts_with (js "false") _) eqn:E3; [pose proof (Hs 102 _ E3); lia|].
  by rewrite P.
Qed.

Lemma join_start l u t :
  head l = Some (u :: t) -> exists t', join [44] l = u :: t'.
Proof. destruct l as [|x [|y l]]; [done| |]; cbn; intros [= ->]; eauto. Qed.

Lemma expect_start c u t r s :
  s = u :: t -> is_ws u = false -> u <> c -> expect c (s ++ r) = None.
Proof. intros -> ? ?. by apply expect_miss. Qed.

Lemma elements_not_closed l r : l <> [] -> expect 93 (join [44] (map stringify l) ++ r) = None.
Proof.
  destruct l as [|v l]; [done|]. intros _.
  destruct (stringify_start v) as (u & t & E & Hu).
  destruct (join_start (map stringify (v :: l)) u t) as [t' E']; [cbn; by rewrite E|].
  pose proof (value_start_not_ws u Hu) as (? & ? & _). by eapply expect_start.
Qed.
Lemma members_not_closed l r : l <> [] -> expect 125 (join [44] (map member_text l) ++ r) = None.
Proof.
  destruct l as [|[k v] l]; [done|]. intros _.
  destruct (join_start (map member_text ((k, v) :: l)) 34 (drop 1 (member_text (k, v)))) as [t' E'];
    [done|]. by eapply expect_start.
Qed.

(** Every value reads back from its text, whatever follows it. *)
Lemma parse_value_stringify v : json_ok v = true -> reads_back v.
Proof.
  induction v as [|b|z|s|l IH|l IH] using json_rect'; intros Hok n r Hn Hr;
    (destruct n as [|n]; [match type of Hn with context [stringify ?v] =>
                           pose proof (length_stringify v); lia end|]).
  - done.
  - by destruct b.
  - by apply parse_value_number.
  - cbn [stringify parse_value]. rewrite quote_cons, skip_ws_id by done. cbn [Z.eqb Pos.eqb].
    by rewrite parse_string_quote.
  - cbn [stringify] in *. rewrite <- app_comm_cons, <- app_assoc. cbn [parse_value app].
    rewrite skip_ws_id by done. cbn [Z.eqb Pos.eqb].
    destruct (decide (l = [])) as [->|Hl]; [done|]. rewrite elements_not_closed by done.
    cbn [length] in Hn. rewrite length_app in Hn. cbn [length] in Hn.
    rewrite parse_elements_join; [done|done| |lia].
    apply forallb_Forall' in Hok.
    rewrite Forall_forall in *. auto.
  - rewrite stringify_obj in *. change (keys_ok l && forallb (fun kv => json_ok kv.2) l = true) in Hok.
    apply andb_true_iff in Hok as [Hk Hok].
    rewrite <- app_comm_cons, <- app_assoc. cbn [parse_value app].
    rewrite skip_ws_id by done. cbn [Z.eqb Pos.eqb].
    destruct (decide (l = [])) as [->|Hl]; [done|]. rewrite members_not_closed by done.
    cbn [length] in Hn. rewrite length_app in Hn. cbn [length] in Hn.
    rewrite parse_members_join; [by rewrite obj_of_ok|done| |lia].
    unfold keys_ok in Hk. apply andb_true_iff in Hk as [_ Hk].
    apply forallb_Forall' in Hk. apply forallb_Forall' in Hok. apply Forall_fmap in Hk.
    rewrite Forall_forall in *. intros kv Hin. split; [|auto].
    specialize (Hk kv Hin). cbn in Hk. apply andb_true_iff in Hk. tauto.
Qed.

(** One value and a newline, as a line of output is written. *)
Lemma parse_stringify_line v : json_ok v = true -> parse (stringify v ++ [10]) = Some v.
Proof.
  intros Hv. unfold parse.
  rewrite parse_value_stringify; [done|done| |apply stops_cons; lia].
  unfold fuel_for. rewrite length_app. cbn [length]. lia.
Qed.
(** [JSON.parse(JSON.stringify(v))] is [v]. *)
Theorem parse_stringify v : json_ok v = true -> parse (stringify v) = Some v.
Proof.
  intros Hv. unfold parse. rewrite <- (app_nil_r (stringify v)) at 2.
  rewrite parse_value_stringify; [done|done|unfold fuel_for; lia|apply stops_nil].
Qed.

(** ** Lemmas: the fuel of the parser *)

Lemma skip_ws_length s : (length (skip_ws s) <= length s)%nat.
Proof. induction s as [|u s IH]; cbn; [done|]. destruct (is_ws u); cbn; lia. Qed.
Lemma expect_length c s r : expect c s = Some r -> (length r < length s)%nat.
Proof.
  unfold expect. pose proof (skip_ws_length s). destruct (skip_ws s) as [|u t]; [done|].
  case_match; [|done]. intros [= <-]. cbn in *. lia.
Qed.
Lemma cons_fst_some u o p r :
  cons_fst u o = Some (p, r) -> exists p', o = Some (p', r).
Proof. destruct o as [[]|]; [|done]. intros [= _ <-]. eauto. Qed.
Lemma parse_string_length n s p r :
  (length s <= n)%nat -> parse_string s = Some (p, r) -> (length r < length s)%nat.
Proof.
  revert s p r. induction n as [|n IH]; intros s p r Hn; (destruct s as [|u s]; [done|]); cbn in Hn; [lia|].
  assert (forall u' o, cons_fst u' (parse_string o) = Some (p, r) ->
    (length o <= n)%nat -> (length r < length o)%nat) as step.
  { intros u' o H Ho. apply cons_fst_some in H as [p' H]. by eapply IH. }
  cbn [parse_string].
  destruct (u =? 34); [intros [= _ <-]; cbn; lia|].
  destruct (u =? 92).
  - destruct s as [|e s]; [done|]. cbn in Hn. destruct (e =? 117).
    + destruct s as [|a [|b [|c [|d s]]]]; try done. cbn in Hn.
      destruct (read_hex4 a b c d); [|done]. intros H. apply step in H; cbn; lia.
    + destruct (simple_escape e); [|done]. intros H. apply step in H; cbn; lia.
  - destruct (u <? 32); [done|]. intros H. apply step in H; cbn; lia.
Qed.
Lemma span_digits_length s d r : span_digits s = (d, r) -> length s = (length d + length r)%nat.
Proof.
  revert d r. induction s as [|u s IH]; cbn; intros d r; [by intros [= <- <-]|].
  destruct (is_digit u); [|by intros [= <- <-]].
  destruct (span_digits s) as [d' r']. intros [= <- <-]. cbn. by rewrite (IH d' r').
Qed.
Lemma parse_nat_length s z r : parse_nat s = Some (z, r) -> (length r < length s)%nat.
Proof.
  unfold parse_nat. destruct (span_digits s) as [d r'] eqn:E. apply span_digits_length in E.
  destruct d as [|u d]; [done|]. cbn in E.
  destruct (_ && _); [done|]. destruct r' as [|c r']; [intros [= _ <-]; lia|].
  destruct (_ || _); [done|]. intros [= _ <-]. lia.
Qed.
Lemma parse_number_length s z r : parse_number s = Some (z, r) -> (length r < length s)%nat.
Proof.
  assert (parse_number s = parse_nat s
    \/ exists s', s = 45 :: s' /\ parse_number s
       = match parse_nat s' with Some (z, r) => Some (- z, r) | None => None end) as [->|(s' & -> & ->)].
  { destruct s as [|u s]; [by left|]. destruct u as [|p|p]; try by left.
    repeat (destruct p; try by left). right. eauto. }
  - apply parse_nat_length.
  - destruct (parse_nat s') as [[]|] eqn:E; [|done]. intros [= _ <-].
    apply parse_nat_length in E. cbn. lia.
Qed.

(** A parsed value leaves strictly less text. *)
Lemma parse_lengths n :
  (forall s v r, parse_value n s = Some (v, r) -> (length r < length s)%nat) /\
  (forall s v r, parse_elements n s = Some (v, r) -> (length r < length s)%nat) /\
  (forall s v r, parse_members n s = Some (v, r) -> (length r < length s)%nat).
Proof.
  induction n as [|n (IHv & IHe & IHm)]; [done|]. repeat split; intros s v r.
  - cbn [parse_value]. pose proof (skip_ws_length s). destruct (skip_ws s) as [|u t]; [done|].
    cbn [length] in *. destruct (u =? 34).
    { destruct (parse_string t) as [[]|] eqn:E; [|done]. intros [= _ <-].
      eapply parse_string_length in E; [|reflexivity]. lia. }
    destruct (u =? 91).
    { destruct (expect 93 t) eqn:E; [intros [= _ <-]; apply expect_length in E; lia|].
      destruct (parse_elements n t) as [[]|] eqn:E'; [|done]. intros [= _ <-].
      apply IHe in E'. lia. }
    destruct (u =? 123).
    { destruct (expect 125 t) eqn:E; [intros [= _ <-]; apply expect_length in E; lia|].
      destruct (parse_members n t) as [[]|] eqn:E'; [|done]. intros [= _ <-].
      apply IHm in E'. lia. }
    repeat (destruct (starts_with _ _); [intros [= _ <-]; rewrite ?length_drop; cbn [length]; lia|]).
    destruct (parse_number (u :: t)) as [[]|] eqn:E; [|done]. intros [= _ <-].
    apply parse_number_length in E. cbn in E. lia.
  - cbn [parse_elements]. destruct (parse_value n s) as [[w t]|] eqn:E; [|done]. apply IHv in E.
    destruct (expect 44 t) eqn:E1.
    + apply expect_length in E1. destruct (parse_elements n _) as [[]|] eqn:E2; [|done].
      intros [= _ <-]. apply IHe in E2. lia.
    + destruct (expect 93 t) eqn:E2; [|done]. intros [= _ <-]. apply expect_length in E2. lia.
  - cbn [parse_members]. destruct (expect 34 s) eqn:E0; [|done]. apply expect_length in E0.
    destruct (parse_string _) as [[k t0]|] eqn:E1; [|done].
    eapply parse_string_length in E1; [|reflexivity].
    destruct (expect 58 t0) eqn:E2; [|done]. apply expect_length in E2.
    destruct (parse_value n _) as [[w t]|] eqn:E; [|done]. apply IHv in E.
    destruct (expect 44 t) eqn:E3.
    + apply expect_length in E3. destruct (parse_members n _) as [[]|] eqn:E4; [|done].
      intros [= _ <-]. apply IHm in E4. lia.
    + destruct (expect 125 t) eqn:E4; [|done]. intros [= _ <-]. apply expect_length in E4. lia.
Qed.

(** More fuel than twice the text's length never changes an answer. *)
Lemma parse_fuel n :
  (forall s m, (2 * length s < n -> n <= m -> parse_value m s = parse_value n s)%nat) /\
  (forall s m, (2 * length s + 1 < n -> n <= m -> parse_elements m s = parse_elements n s)%nat) /\
  (forall s m, (2 * length s + 1 < n -> n <= m -> parse_members m s = parse_members n s)%nat).
Proof.
  induction n as [|n (IHv & IHe & IHm)]; [repeat split; intros; lia|].
  repeat split; intros s m Hs Hm; (destruct m as [|m]; [lia|]); apply le_S_n in Hm.
  - cbn [parse_value]. pose proof (skip_ws_length s). destruct (skip_ws s) as [|u t]; [done|].
    cbn [length] in *. rewrite (IHe t m), (IHm t m) by lia. done.
  - cbn [parse_elements]. rewrite (IHv s m) by lia.
    destruct (parse_value n s) as [[w t]|] eqn:E; [|done].
    apply (proj1 (parse_lengths n)) in E.
    destruct (expect 44 t) eqn:E1; [|done]. apply expect_length in E1.
    rewrite (IHe _ m) by lia. done.
  - cbn [parse_members]. destruct (expect 34 s) eqn:E0; [|done]. apply expect_length in E0.
    destruct (parse_string _) as [[k t0]|] eqn:E1; [|done].
    eapply parse_string_length in E1; [|reflexivity].
    destruct (expect 58 t0) eqn:E2; [|done]. apply expect_length in E2.
    rewrite (IHv _ m) by lia.
    destruct (parse_value n _) as [[w t]|] eqn:E; [|done].
    apply (proj1 (parse_lengths n)) in E.
    destruct (expect 44 t) eqn:E3; [|done]. apply expect_length in E3.
    rewrite (IHm _ m) by lia. done.
Qed.
Lemma parse_value_fuel s m :
  (fuel_for s <= m)%nat -> parse_value m s = parse_value (fuel_for s) s.
Proof. unfold fuel_for. intros. apply (proj1 (parse_fuel _)); lia. Qed.

(** ** The bytes of a record *)
Lemma hex_digit_plain d : 0 <= d < 16 -> plain_unit (hex_digit d) = true.
Proof.
  intros. unfold plain_unit, unit_ok, is_surrogate, hex_digit.
  destruct (d <? 10) eqn:E; bool_to_prop; by decide_bool.
Qed.
Lemma quote_point_well_formed p : point_ok p -> well_formed (quote_point p) = true.
Proof.
  intros [(u & -> & Hu)|(u & v & -> & Hp & Hu & Hv)].
  - unfold quote_point. repeat (destruct (_ =? _); [done|]).
    destruct ((u <? 32) || is_surrogate u) eqn:E.
    + apply well_formed_plain. cbn [forallb hex4]. unfold unit_ok in Hu. bool_to_prop.
      rewrite !hex_digit_plain by lia. done.
    + apply orb_false_iff in E as [_ E]. apply well_formed_plain. cbn [forallb].
      unfold plain_unit. by rewrite Hu, E.
  - cbn [quote_point]. by rewrite well_formed_pair, Hu, Hv.
Qed.
Lemma quote_well_formed s : forallb unit_ok s = true -> well_formed (quote s) = true.
Proof.
  intros Hs. apply code_points_ok in Hs. unfold quote. change (34 :: ?l) with ([34] ++ l).
  apply well_formed_app; [done|]. apply well_formed_app; [|done].
  rewrite flat_map_concat_map. apply well_formed_concat. apply forallb_Forall'.
  apply Forall_fmap. eapply Forall_impl; [exact Hs|]. apply quote_point_well_formed.
Qed.
Lemma show_Z_well_formed z : well_formed (show_Z z) = true.
Proof.
  apply well_formed_plain, forallb_Forall'.
  assert (forall u, is_digit u = true -> plain_unit u = true) as Hd.
  { unfold is_digit, plain_unit, unit_ok, is_surrogate. intros. bool_to_prop. by decide_bool. }
  assert (forall p, Forall (fun u => plain_unit u = true) (uint_units (Pos.to_uint p))) as Hp.
  { intros p. eapply Forall_impl; [|exact Hd]. apply forallb_Forall', uint_units_digits. }
  destruct z as [|p|p]; [by repeat constructor|apply Hp|]. apply Forall_cons_2; [done|apply Hp].
Qed.
Lemma join_well_formed l :
  Forall (fun s => well_formed s = true) l -> well_formed (join [44] l) = true.
Proof.
  induction 1 as [|x l Hx Hl IH]; [done|]. destruct l as [|y l]; [done|].
  rewrite join_cons. by repeat apply well_formed_app.
Qed.
Lemma stringify_well_formed v : json_ok v = true -> well_formed (stringify v) = true.
Proof.
  induction v as [|b|z|s|l IH|l IH] using json_rect'; intros Hok.
  - done.
  - by destruct b.
  - apply show_Z_well_formed.
  - by apply quote_well_formed.
  - cbn [stringify]. change (91 :: ?l) with ([91] ++ l).
    apply well_formed_app; [done|]. apply well_formed_app; [|done]. apply join_well_formed.
    apply forallb_Forall' in Hok. apply Forall_fmap. rewrite Forall_forall in *. cbn. auto.
  - rewrite stringify_obj. change (keys_ok l && forallb (fun kv => json_ok kv.2) l = true) in Hok.
    apply andb_true_iff in Hok as [Hk Hok].
    change (123 :: ?l) with ([123] ++ l).
    apply well_formed_app; [done|]. apply well_formed_app; [|done]. apply join_well_formed.
    unfold keys_ok in Hk. apply andb_true_iff in Hk as [_ Hk]. apply forallb_Forall' in Hk.
    apply forallb_Forall' in Hok. apply Forall_fmap in Hk. apply Forall_fmap.
    rewrite Forall_forall in *. intros kv Hin.
    change (compose _ _ kv) with (well_formed (member_text kv) = true). unfold member_text.
    specialize (Hk kv Hin). cbn in Hk. apply andb_true_iff in Hk as [_ Hk].
    apply well_formed_app; [by apply quote_well_formed|].
    change (58 :: ?l) with ([58] ++ l). apply well_formed_app; auto.
Qed.

(** A record decodes to the value it was encoded from. *)
Lemma json_decode_encode v : json_ok v = true -> json_decode (json_encode v) = Some v.
Proof.
  intros Hv. unfold json_decode, json_encode.
  pose proof (stringify_well_formed v Hv) as Hw.
  destruct (stringify_start v) as (u & t & E & Hu). rewrite E in *.
  rewrite text_decode_encode; [rewrite <- E; by apply parse_stringify| |done].
  unfold value_start, is_digit in Hu.
  repeat destruct Hu as [->|Hu]; bool_to_prop; lia.
Qed.
#[export] Hint Resolve json_decode_encode : echolet.

Lemma json_encode_inj v w :
  json_ok v = true -> json_ok w = true -> json_encode v = json_encode w -> v = w.
Proof.
  intros Hv Hw E. apply json_decode_encode in Hv, Hw. rewrite E in Hv. congruence.
Qed.
