(* ===== verification/Base64Url.v ===== *)
(** * Base64url: [packages/crypto-core/src/encoding/base64url.ts] and the
    [encodedBytes] check of [packages/protocol/src/types/signalPreKeyBundleV2.ts]

    [btoa] and [atob] are the platform's: the standard alphabet in groups of
    three bytes, and the forgiving decoder of the WHATWG specification. *)

From S2P Require Import Prelude JsString.

(** ** The platform's [btoa] and [atob] *)

(** The six-bit groups of a byte string; the last one is filled with zeros. *)
Fixpoint sextets (bs : bytes) : list Z :=
  match bs with
  | a :: b :: c :: r =>
      [a / 4; a mod 4 * 16 + b / 16; b mod 16 * 4 + c / 64; c mod 64] ++ sextets r
  | [a; b] => [a / 4; a mod 4 * 16 + b / 16; b mod 16 * 4]
  | [a] => [a / 4; a mod 4 * 16]
  | [] => []
  end.
Fixpoint unsextets (vs : list Z) : bytes :=
  match vs with
  | a :: b :: c :: d :: r => [a * 4 + b / 16; b mod 16 * 16 + c / 4; c mod 4 * 64 + d] ++ unsextets r
  | [a; b; c] => [a * 4 + b / 16; b mod 16 * 16 + c / 4]
  | [a; b] => [a * 4 + b / 16]
  | _ => []
  end.

Definition std_char (v : Z) : Z :=
  if v <? 26 then 65 + v else if v <? 52 then 71 + v else if v <? 62 then v - 4
  else if v =? 62 then 43 else 47.
Definition std_value (u : Z) : option Z :=
  if (65 <=? u) && (u <=? 90) then Some (u - 65)
  else if (97 <=? u) && (u <=? 122) then Some (u - 71)
  else if (48 <=? u) && (u <=? 57) then Some (u + 4)
  else if u =? 43 then Some 62 else if u =? 47 then Some 63 else None.

Definition padding (n : nat) : nat := ((3 - n mod 3) mod 3)%nat.
Definition btoa (bs : bytes) : jstr :=
  map std_char (sextets bs) ++ replicate (padding (length bs)) 61.

Definition ascii_space (u : Z) : bool :=
  (u =? 9) || (u =? 10) || (u =? 12) || (u =? 13) || (u =? 32).
Definition strip_one (s : jstr) : jstr :=
  match rev s with u :: r => if u =? 61 then rev r else s | [] => s end.
Fixpoint read_values (s : jstr) : option (list Z) :=
  match s with
  | [] => Some []
  | u :: s' => match std_value u, read_values s' with
               | Some v, Some vs => Some (v :: vs) | _, _ => None end
  end.
Definition atob (s : jstr) : option bytes :=
  let s := filter (fun u => ascii_space u = false) s in
  let s := if (length s mod 4 =? 0)%nat then strip_one (strip_one s) else s in
  if (length s mod 4 =? 1)%nat then None
  else match read_values s with Some vs => Some (unsextets vs) | None => None end.

(** ** base64url.ts *)

Definition strip_equals (s : jstr) : jstr :=
  rev ((fix go r := match r with u :: r' => if u =? 61 then go r' else r | [] => [] end) (rev s)).
Definition to_url (u : Z) : Z := if u =? 43 then 45 else if u =? 47 then 95 else u.
Definition from_url (u : Z) : Z := if u =? 45 then 43 else if u =? 95 then 47 else u.

Definition encodeBase64Url (bs : bytes) : jstr := strip_equals (map to_url (btoa bs)).
Definition decodeBase64Url (s : jstr) : option bytes := atob (map from_url s).

(** ** signalPreKeyBundleV2.ts: [encodedBytes] *)

Definition alphabet : jstr :=
  js "ABCDEFGHIJKLMNOPQRSTUVWXYZabcdefghijklmnopqrstuvwxyz0123456789-_".
(** [alphabet.indexOf(c)]; [-1] when absent. *)
Definition index_from (c : Z) : jstr -> Z -> Z :=
  fix go s i := match s with u :: s' => if u =? c then i else go s' (i + 1) | [] => -1 end.
Definition index_of (c : Z) : Z := index_from c alphabet 0.
Definition url_unit (u : Z) : bool :=
  ((65 <=? u) && (u <=? 90)) || ((97 <=? u) && (u <=? 122)) || ((48 <=? u) && (u <=? 57))
  || (u =? 45) || (u =? 95).

Definition encodedBytes (n : Z) (prefix : option Z) (value : jstr) : bool :=
  if negb (Z.of_nat (length value) =? (n * 8 + 5) / 6)
     || negb (negb (eqb value []) && forallb url_unit value) then false
  else
    let unusedBits := (6 - (n * 8) mod 6) mod 6 in
    if negb (Z.land (index_of (List.last value (-1))) (Z.shiftl 1 unusedBits - 1) =? 0) then false
    else match prefix with
         | None => true
         | Some p => Z.lor (Z.shiftl (index_of (nth 0 value (-1))) 2)
                           (Z.shiftr (index_of (nth 1 value (-1))) 4) =? p
         end.

(** ** Lemmas: sextets *)

Lemma sextets_ind (P : bytes -> Prop) :
  P [] -> (forall a, P [a]) -> (forall a b, P [a; b]) ->
  (forall a b c r, P r -> P (a :: b :: c :: r)) -> forall bs, P bs.
Proof.
  intros H0 H1 H2 H3. fix IH 1. intros [|a [|b [|c r]]]; [done|apply H1|apply H2|apply H3, IH].
Qed.
Lemma unsextets_ind (P : list Z -> Prop) :
  P [] -> (forall a, P [a]) -> (forall a b, P [a; b]) -> (forall a b c, P [a; b; c]) ->
  (forall a b c d r, P r -> P (a :: b :: c :: d :: r)) -> forall vs, P vs.
Proof.
  intros H0 H1 H2 H3 H4. fix IH 1.
  intros [|a [|b [|c [|d r]]]]; [done|apply H1|apply H2|apply H3|apply H4, IH].
Qed.

Definition sextet_ok (v : Z) : Prop := 0 <= v < 64.
Definition byte_range (b : Z) : Prop := 0 <= b < 256.
Lemma byte_range_ok b : byte_ok b = true <-> byte_range b.
Proof. unfold byte_ok, byte_range. rewrite andb_true_iff, !Z.leb_le. lia. Qed.

Lemma sextets_ok bs : Forall byte_range bs -> Forall sextet_ok (sextets bs).
Proof.
  unfold byte_range. induction bs using sextets_ind; rewrite ?Forall_cons; intros H;
    cbn [sextets app]; repeat (apply Forall_cons_2; [unfold sextet_ok; lia|]);
    first [apply List.Forall_nil | tauto].
Qed.

Lemma unsextets_sextets bs : Forall byte_range bs -> unsextets (sextets bs) = bs.
Proof.
  unfold byte_range. induction bs using sextets_ind; rewrite ?Forall_cons; intros H;
    cbn [sextets unsextets app]; [done| | |rewrite IHbs by tauto]; repeat f_equal; lia.
Qed.

Lemma length_sextets bs :
  Z.of_nat (length (sextets bs)) = (Z.of_nat (length bs) * 8 + 5) / 6.
Proof.
  induction bs using sextets_ind; cbn [sextets app length]; [done|done|done|]. lia.
Qed.

(** Sextets that are the encoding of something: the unused low bits are zero. *)
Fixpoint canonical (vs : list Z) : Prop :=
  match vs with
  | _ :: _ :: _ :: _ :: r => canonical r
  | [_; _; c] => c mod 4 = 0
  | [_; b] => b mod 16 = 0
  | [_] => False
  | [] => True
  end.
Lemma sextets_canonical bs : Forall byte_range bs -> canonical (sextets bs).
Proof.
  unfold byte_range. induction bs using sextets_ind; rewrite ?Forall_cons; intros H;
    cbn [sextets canonical app]; first [done | lia | tauto].
Qed.
Lemma sextets_unsextets vs :
  Forall sextet_ok vs -> canonical vs ->
  sextets (unsextets vs) = vs /\ Forall byte_range (unsextets vs).
Proof.
  unfold sextet_ok. induction vs using unsextets_ind; rewrite ?Forall_cons; intros H Hc;
    cbn [unsextets canonical] in *; [done|done| | |].
  1-2: split; [cbn [sextets]; repeat f_equal; lia|];
       repeat (apply Forall_cons_2; [unfold byte_range; lia|]); apply List.Forall_nil.
  destruct IHvs as [E1 E2]; [tauto|done|]. split.
  - cbn [app sextets]. rewrite E1. repeat f_equal; lia.
  - repeat (apply Forall_cons_2; [unfold byte_range; lia|]). done.
Qed.

(** ** Lemmas: characters *)

Definition url_char (v : Z) : Z := to_url (std_char v).

(** A property of all sixty-four sextets is checked by computation. *)
Lemma sextet_cases (p : Z -> bool) v :
  forallb p (seqZ 0 64) = true -> sextet_ok v -> p v = true.
Proof.
  rewrite forallb_Forall', Forall_forall. intros H Hv. apply H.
  apply elem_of_seqZ. unfold sextet_ok in Hv. lia.
Qed.
Ltac by_sextets p Hv := pose proof (sextet_cases p _ eq_refl Hv) as Hcase; cbn beta in Hcase.

Lemma std_value_char v : sextet_ok v -> std_value (std_char v) = Some v.
Proof. intros Hv. by_sextets (fun v => eqb (std_value (std_char v)) (Some v)) Hv. by apply eqb_eq. Qed.
Lemma from_url_char v : sextet_ok v -> from_url (url_char v) = std_char v.
Proof. intros Hv. by_sextets (fun v => from_url (url_char v) =? std_char v) Hv. by apply Z.eqb_eq. Qed.
Lemma url_char_facts v :
  sextet_ok v ->
  (url_char v =? 61) = false /\ ascii_space (std_char v) = false /\ (std_char v =? 61) = false
  /\ url_unit (url_char v) = true /\ index_of (url_char v) = v.
Proof.
  intros Hv. by_sextets (fun v => negb (url_char v =? 61) && negb (ascii_space (std_char v))
    && negb (std_char v =? 61) && url_unit (url_char v) && (index_of (url_char v) =? v)) Hv.
  rewrite !andb_true_iff, !negb_true_iff, Z.eqb_eq in Hcase. tauto.
Qed.

Definition url_unit_sound (u : Z) : bool :=
  implb (url_unit u) ((0 <=? index_of u) && (index_of u <? 64) && (u =? url_char (index_of u))).
Lemma url_unit_sound_all : forallb url_unit_sound (seqZ 45 78) = true.
Proof. vm_compute. reflexivity. Qed.
Lemma url_unit_range u : url_unit u = true -> 45 <= u < 45 + 78.
Proof.
  unfold url_unit. rewrite !orb_true_iff.
  intros Hu. repeat destruct Hu as [Hu|Hu]; bool_to_prop; lia.
Qed.
Lemma url_unit_char u : url_unit u = true -> exists v, sextet_ok v /\ u = url_char v.
Proof.
  intros Hu. pose proof (url_unit_range u Hu) as Hr. apply elem_of_seqZ in Hr.
  pose proof url_unit_sound_all as H. apply forallb_Forall' in H.
  apply (proj1 (Forall_forall _ _) H) in Hr. unfold url_unit_sound in Hr. rewrite Hu in Hr.
  generalize dependent (index_of u). cbn [implb]. intros v Hv. exists v. unfold sextet_ok.
  by bool_to_prop.
Qed.
Lemma url_units_chars s :
  forallb url_unit s = true -> exists vs, Forall sextet_ok vs /\ s = map url_char vs.
Proof.
  induction s as [|u s IH]; cbn; [exists []; split; [apply List.Forall_nil|done]|].
  rewrite andb_true_iff. intros [Hu Hs]. destruct (IH Hs) as (vs & ? & ->).
  destruct (url_unit_char u Hu) as (v & ? & ->). exists (v :: vs). split; [by apply Forall_cons_2|done].
Qed.

Lemma rev_replicate {A} n (x : A) : rev (replicate n x) = replicate n x.
Proof. rewrite rev_alt. apply reverse_replicate. Qed.
Lemma strip_equals_app s n :
  Forall (fun u => (u =? 61) = false) s -> strip_equals (s ++ replicate n 61) = s.
Proof.
  intros H. unfold strip_equals. rewrite rev_app_distr, rev_replicate.
  assert (Hr : Forall (fun u => (u =? 61) = false) (rev s)) by by apply Forall_rev.
  rewrite <- (rev_involutive s) at 2. f_equal. revert Hr. generalize (rev s). clear.
  intros r Hr. induction n as [|n IH]; [|exact IH]. cbn.
  destruct r as [|u r]; [done|]. apply Forall_cons in Hr as [-> _]. done.
Qed.

Lemma map_forall_eq {A B} (f g : A -> B) l : Forall (fun x => f x = g x) l -> map f l = map g l.
Proof. induction 1; cbn; congruence. Qed.

(** The encoder without its detour through padding. *)
Lemma encode_chars bs :
  Forall byte_range bs -> encodeBase64Url bs = map url_char (sextets bs).
Proof.
  intros H. apply sextets_ok in H. unfold encodeBase64Url, btoa.
  rewrite map_app, map_map, (fmap_replicate to_url).
  apply (strip_equals_app (map url_char (sextets bs)) (padding (length bs))).
  apply Forall_map. eapply Forall_impl; [exact H|]. apply url_char_facts.
Qed.

Lemma read_values_chars vs : Forall sextet_ok vs -> read_values (map std_char vs) = Some vs.
Proof. induction 1 as [|v vs Hv _ IH]; [done|]. cbn. by rewrite std_value_char, IH. Qed.
Lemma filter_all s : Forall (fun u => ascii_space u = false) s -> filter (fun u => ascii_space u = false) s = s.
Proof. induction 1 as [|u s Hu _ IH]; [done|]. rewrite filter_cons_True by done. by rewrite IH. Qed.
Lemma strip_one_plain s : Forall (fun u => (u =? 61) = false) s -> strip_one s = s.
Proof.
  intros H. unfold strip_one. apply Forall_rev in H. destruct (rev s) as [|u r] eqn:E; [done|].
  apply Forall_cons in H as [Hu _]. by rewrite Hu.
Qed.

Lemma decode_chars vs :
  Forall sextet_ok vs -> (length vs mod 4 <> 1)%nat ->
  decodeBase64Url (map url_char vs) = Some (unsextets vs).
Proof.
  intros H Hl. unfold decodeBase64Url. rewrite map_map.
  rewrite (map_forall_eq _ std_char) by (eapply Forall_impl; [exact H|]; apply from_url_char).
  assert (Forall (fun u => (u =? 61) = false) (map std_char vs)) as H1.
  { apply Forall_map. eapply Forall_impl; [exact H|]. apply url_char_facts. }
  unfold atob. rewrite filter_all; cycle 1.
  { apply Forall_map. eapply Forall_impl; [exact H|]. apply url_char_facts. }
  rewrite !strip_one_plain by (try rewrite !strip_one_plain; done).
  assert (forall b : bool, (if b then map std_char vs else map std_char vs) = map std_char vs) as ->
    by by intros [].
  rewrite length_map. apply Nat.eqb_neq in Hl. rewrite Hl. by rewrite read_values_chars.
Qed.

Lemma sextets_length_mod bs : (length (sextets bs) mod 4 <> 1)%nat.
Proof.
  induction bs using sextets_ind; cbn [sextets app length]; [done|done|done|].
  change (S (S (S (S ?n)))) with (4 + n)%nat.
  by rewrite Nat.add_comm, <- (Nat.mul_1_l 4), Nat.Div0.mod_add, Nat.mul_1_l.
Qed.

(** ** The codec *)

(** Decoding gives back the bytes that were encoded. *)
Lemma decode_encode bs :
  Forall byte_range bs -> decodeBase64Url (encodeBase64Url bs) = Some bs.
Proof.
  intros H. rewrite encode_chars by done.
  rewrite decode_chars by auto using sextets_ok, sextets_length_mod.
  by rewrite unsextets_sextets.
Qed.
Lemma encode_inj bs cs :
  Forall byte_range bs -> Forall byte_range cs -> encodeBase64Url bs = encodeBase64Url cs -> bs = cs.
Proof. intros H1%decode_encode H2%decode_encode E. rewrite E in H1. congruence. Qed.
#[export] Hint Resolve decode_encode : echolet.

(** ** The check of encoded keys *)

Lemma mask_spec v k :
  sextet_ok v -> k = 0 \/ k = 2 \/ k = 4 ->
  Z.land v (Z.shiftl 1 k - 1) = v mod 2 ^ k.
Proof.
  intros _ Hk. rewrite Z.shiftl_1_l, Z.sub_1_r, <- Z.ones_equiv. apply Z.land_ones. lia.
Qed.
Lemma lead_byte a b :
  sextet_ok a -> sextet_ok b -> Z.lor (Z.shiftl a 2) (Z.shiftr b 4) = a * 4 + b / 16.
Proof.
  intros Ha Hb.
  pose proof (sextet_cases (fun a => forallb (fun b =>
    Z.lor (Z.shiftl a 2) (Z.shiftr b 4) =? a * 4 + b / 16) (seqZ 0 64)) a eq_refl Ha) as H.
  apply Z.eqb_eq. exact (sextet_cases _ b H Hb).
Qed.

(** The tail condition of [encodedBytes], on sextets. *)
Definition tail_clear (n : Z) (vs : list Z) : Prop :=
  List.last vs 0 mod 2 ^ ((6 - (n * 8) mod 6) mod 6) = 0.

Lemma tail_canonical vs n :
  Z.of_nat (length vs) = (n * 8 + 5) / 6 -> 0 <= n -> Forall sextet_ok vs ->
  (tail_clear n vs <-> canonical vs)
  /\ (canonical vs -> Z.of_nat (length (unsextets vs)) = n).
Proof.
  unfold tail_clear. intros Hl Hn Hv. revert n Hl Hn.
  induction vs as [|a|a b|a b c|a b c d r IH] using unsextets_ind; intros n Hl Hn;
    cbn [length canonical unsextets app List.last] in *.
  - assert (n = 0) as -> by lia. done.
  - lia.
  - assert (n = 1) as -> by lia. done.
  - assert (n = 2) as -> by lia. done.
  - rewrite !Forall_cons in Hv. destruct Hv as (_ & _ & _ & Hd & Hv).
    assert (n = 3 \/ 3 < n) as [->|Hn'] by lia.
    + destruct r; [|cbn [length] in Hl; lia]. cbn. change (2 ^ 0) with 1.
      split; [|done]. split; [done|intros _; apply Z.mod_1_r].
    + destruct (IH Hv (n - 3)) as [E1 E2]; [lia|lia|].
      replace ((n - 3) * 8 mod 6) with (n * 8 mod 6) in E1 by lia.
      destruct r as [|e r]; [cbn [length] in Hl; lia|]. split; [exact E1|].
      intros Hc. specialize (E2 Hc). cbn [length] in *. lia.
Qed.

Lemma last_chars vs : vs <> [] -> List.last (map url_char vs) (-1) = url_char (List.last vs 0).
Proof.
  induction vs as [|a vs IH]; [done|]. intros _. destruct vs as [|b vs]; [done|].
  change (List.last (map url_char (b :: vs)) (-1) = url_char (List.last (b :: vs) 0)). by apply IH.
Qed.
Lemma last_ok vs : Forall sextet_ok vs -> sextet_ok (List.last vs 0).
Proof.
  induction 1 as [|a vs Ha Hv IH]; [done|]. destruct vs as [|b vs]; [done|]. exact IH.
Qed.

Lemma encodedBytes_chars n prefix vs :
  0 < n -> Forall sextet_ok vs ->
  encodedBytes n prefix (map url_char vs) = true <->
  Z.of_nat (length vs) = (n * 8 + 5) / 6 /\ tail_clear n vs
  /\ (forall p, prefix = Some p -> nth 0 vs 0 * 4 + nth 1 vs 0 / 16 = p).
Proof.
  intros Hn Hv. unfold encodedBytes. rewrite length_map.
  destruct (Z.eqb_spec (Z.of_nat (length vs)) ((n * 8 + 5) / 6)) as [Hl|Hl]; cbn [negb orb]; [|naive_solver].
  assert (forallb url_unit (map url_char vs) = true) as ->.
  { apply forallb_Forall', Forall_map. eapply Forall_impl; [exact Hv|]. apply url_char_facts. }
  destruct vs as [|a [|b vs]]; [cbn in Hl; lia|cbn in Hl; lia|].
  assert (eqb (map url_char (a :: b :: vs)) [] = false) as -> by done. cbn [negb andb].
  rewrite last_chars by done.
  pose proof (url_char_facts _ (last_ok _ Hv)) as (_ & _ & _ & _ & ->).
  rewrite mask_spec by (first [by apply last_ok | lia]).
  fold (tail_clear n (a :: b :: vs)). cbn [map nth].
  rewrite !Forall_cons in Hv. destruct Hv as (Ha & Hb & _).
  pose proof (url_char_facts _ Ha) as (_ & _ & _ & _ & ->).
  pose proof (url_char_facts _ Hb) as (_ & _ & _ & _ & ->).
  rewrite lead_byte by done. unfold tail_clear.
  destruct (Z.eqb_spec (List.last (a :: b :: vs) 0 mod 2 ^ ((6 - n * 8 mod 6) mod 6)) 0); cbn [negb];
    [|naive_solver].
  destruct prefix as [p|]; [rewrite Z.eqb_eq|]; naive_solver.
Qed.

Lemma lead_of_sextets bs :
  Forall byte_range bs -> bs <> [] ->
  nth 0 (sextets bs) 0 * 4 + nth 1 (sextets bs) 0 / 16 = nth 0 bs 0.
Proof.
  unfold byte_range. intros H Hne.
  destruct bs as [|a [|b [|c r]]]; [done| | |]; rewrite ?Forall_cons in H; cbn [sextets app nth]; lia.
Qed.

Lemma encodedBytes_iff n prefix s :
  0 < n ->
  encodedBytes n prefix s = true <->
  exists bs, Forall byte_range bs /\ Z.of_nat (length bs) = n /\ encodeBase64Url bs = s
             /\ (forall p, prefix = Some p -> nth 0 bs 0 = p).
Proof.
  intros Hn. split.
  - intros H. assert (exists vs, Forall sextet_ok vs /\ s = map url_char vs) as (vs & Hv & ->).
    { apply url_units_chars. unfold encodedBytes in H.
      destruct (forallb url_unit s); [done|]. by rewrite andb_false_r, orb_true_r in H. }
    apply encodedBytes_chars in H as (Hl & Ht & Hp); [|done|done].
    destruct (tail_canonical vs n Hl) as [Hc Hlen]; [lia|done|]. apply Hc in Ht.
    destruct (sextets_unsextets vs Hv Ht) as [E Hb].
    exists (unsextets vs). split; [done|]. split; [by apply Hlen|].
    split; [by rewrite encode_chars, E by done|].
    intros p Hsome. rewrite <- lead_of_sextets, E; [auto|done|].
    specialize (Hlen Ht). intros E0. rewrite E0 in Hlen. cbn in Hlen. lia.
  - intros (bs & Hb & Hl & <- & Hp). rewrite encode_chars by done.
    pose proof (length_sextets bs) as Hs. rewrite Hl in Hs.
    apply encodedBytes_chars; [done|by apply sextets_ok|]. split; [done|]. split.
    + apply tail_canonical; [done|lia|by apply sextets_ok|by apply sextets_canonical].
    + intros p Hsome. rewrite lead_of_sextets; [auto|done|]. intros ->. cbn in Hl. lia.
Qed.

(** ** The properties *)

(** The wire check of a key is exact.  [encodedBytes] accepts a text if and
    only if it is the encoding of a byte string of the expected length (and, where
    one is expected, of the expected leading byte), so every key has one text,
    which [decodeBase64Url] turns back into its bytes. *)
Theorem encodedBytes_canonical n prefix s :
  0 < n ->
  encodedBytes n prefix s = true <->
  exists bs, decodeBase64Url s = Some bs /\ encodeBase64Url bs = s
             /\ Forall byte_range bs /\ Z.of_nat (length bs) = n
             /\ (forall p, prefix = Some p -> nth 0 bs 0 = p).
Proof.
  intros Hn. rewrite encodedBytes_iff by done. split.
  - intros (bs & ? & ? & <- & ?). exists bs. auto using decode_encode.
  - intros (bs & _ & ? & ? & ? & ?). eauto.
Qed.
Lemma encodedBytes_canonical_witness :
  exists bs, decodeBase64Url (js "BQc") = Some bs /\ encodeBase64Url bs = js "BQc"
             /\ Forall byte_range bs /\ Z.of_nat (length bs) = 2
             /\ (forall p, Some 5 = Some p -> nth 0 bs 0 = p).
Proof. apply (encodedBytes_canonical 2 (Some 5)); [lia|vm_compute; reflexivity]. Defined.
