(* ===== verification/JsMap.v ===== *)
(** * The JavaScript [Map] with string keys

    A [Map] iterates in insertion order: setting a key that is present keeps its
    place, setting an absent one appends it, deleting removes it.  The records of
    the encrypted store live in one. *)

From S2P Require Import Prelude JsString.

Section jsmap.
Context {V : Type}.
Implicit Types (m : list (jstr * V)) (k : jstr) (v : V).

Fixpoint get k m : option V :=
  match m with
  | [] => None
  | (k', v) :: m' => if eqb k' k then Some v else get k m'
  end.
Definition has k m : bool := match get k m with Some _ => true | None => false end.
Fixpoint set k v m : list (jstr * V) :=
  match m with
  | [] => [(k, v)]
  | (k', v') :: m' => if eqb k' k then (k', v) :: m' else (k', v') :: set k v m'
  end.
Fixpoint delete k m : list (jstr * V) :=
  match m with
  | [] => []
  | (k', v') :: m' => if eqb k' k then delete k m' else (k', v') :: delete k m'
  end.
Definition keys m : list jstr := m.*1.
Definition keys_with (prefix : jstr) m : list jstr :=
  filter (fun k => starts_with prefix k = true) (keys m).

(** A [Map] holds a key once. *)
Definition map_ok m : Prop := NoDup (keys m).

Lemma get_set_eq k v m : get k (set k v m) = Some v.
Proof.
  induction m as [|[k' v'] m IH]; cbn; [by rewrite eqb_refl|].
  destruct (eqb k' k) eqn:E; cbn; by rewrite E.
Qed.
Lemma get_set_ne k k' v m : k <> k' -> get k' (set k v m) = get k' m.
Proof.
  intros Hne. induction m as [|[k0 v0] m IH]; cbn.
  - by rewrite (proj2 (eqb_neq _ _) Hne).
  - destruct (eqb k0 k) eqn:E; cbn; [|by rewrite IH].
    apply eqb_eq in E as ->. by rewrite (proj2 (eqb_neq _ _) Hne).
Qed.
Lemma get_set k k' v m : get k' (set k v m) = if eqb k k' then Some v else get k' m.
Proof.
  destruct (eqb k k') eqn:E; [apply eqb_eq in E as ->; apply get_set_eq|].
  by apply get_set_ne, eqb_neq.
Qed.
Lemma get_delete_eq k m : get k (delete k m) = None.
Proof.
  induction m as [|[k' v'] m IH]; cbn; [done|]. destruct (eqb k' k) eqn:E; cbn; by rewrite ?E.
Qed.
Lemma get_delete_ne k k' m : k <> k' -> get k' (delete k m) = get k' m.
Proof.
  intros Hne. induction m as [|[k0 v0] m IH]; cbn; [done|].
  destruct (eqb k0 k) eqn:E; cbn; [|by rewrite IH].
  apply eqb_eq in E as ->. by rewrite (proj2 (eqb_neq _ _) Hne).
Qed.
Lemma get_delete k k' m : get k' (delete k m) = if eqb k k' then None else get k' m.
Proof.
  destruct (eqb k k') eqn:E; [apply eqb_eq in E as ->; apply get_delete_eq|].
  by apply get_delete_ne, eqb_neq.
Qed.

Lemma get_None k m : get k m = None <-> k ∉ keys m.
Proof.
  induction m as [|[k' v'] m IH]; cbn; [split; [intros _; apply not_elem_of_nil|done]|].
  rewrite not_elem_of_cons. destruct (eqb k' k) eqn:E.
  - apply eqb_eq in E as ->. naive_solver.
  - apply eqb_neq in E. naive_solver.
Qed.
Lemma get_Some k m : is_Some (get k m) <-> k ∈ keys m.
Proof.
  rewrite <- not_eq_None_Some. destruct (decide (k ∈ keys m)) as [Hin|Hin].
  - rewrite get_None. naive_solver.
  - rewrite get_None. naive_solver.
Qed.

Lemma keys_set k v m : keys (set k v m) = if has k m then keys m else keys m ++ [k].
Proof.
  unfold has. induction m as [|[k' v'] m IH]; cbn; [done|].
  destruct (eqb k' k) eqn:E; cbn; [done|].
  change (set k v m).*1 with (keys (set k v m)). rewrite IH. by destruct (get k m).
Qed.
Lemma elem_of_keys_set k k' v m : k' ∈ keys (set k v m) <-> k' = k \/ k' ∈ keys m.
Proof.
  rewrite keys_set. unfold has. destruct (get k m) eqn:E.
  - assert (k ∈ keys m) by (apply get_Some; eauto). naive_solver.
  - rewrite elem_of_app, list_elem_of_singleton. naive_solver.
Qed.
Lemma keys_delete k m : keys (delete k m) = filter (fun k' => k' <> k) (keys m).
Proof.
  induction m as [|[k' v'] m IH]; [done|]. cbn [delete].
  change (keys ((k', v') :: m)) with (k' :: keys m). destruct (eqb k' k) eqn:E.
  - apply eqb_eq in E as ->. rewrite filter_cons_False by naive_solver. exact IH.
  - apply eqb_neq in E. rewrite filter_cons_True by done.
    change (k' :: keys (delete k m) = k' :: filter (fun k' => k' <> k) (keys m)). by f_equal.
Qed.
Lemma elem_of_keys_delete k k' m : k' ∈ keys (delete k m) <-> k' <> k /\ k' ∈ keys m.
Proof. rewrite keys_delete. by rewrite list_elem_of_filter. Qed.

Lemma map_ok_set k v m : map_ok m -> map_ok (set k v m).
Proof.
  unfold map_ok. rewrite keys_set. unfold has. destruct (get k m) eqn:E; [done|].
  intros Hm. apply NoDup_app. split; [done|]. split; [|apply NoDup_singleton].
  intros x Hx ->%list_elem_of_singleton. by apply get_None in E.
Qed.
Lemma map_ok_delete k m : map_ok m -> map_ok (delete k m).
Proof. unfold map_ok. rewrite keys_delete. by apply NoDup_filter. Qed.

(** Rebuilding a map by setting its entries in their own order. *)
Lemma set_fresh k v m : k ∉ keys m -> set k v m = m ++ [(k, v)].
Proof.
  induction m as [|[k' v'] m IH]; cbn; [done|].
  rewrite not_elem_of_cons. intros [Hne Hin].
  rewrite (proj2 (eqb_neq k' k)) by done. by rewrite IH.
Qed.

Lemma elem_of_keys_with p k m : k ∈ keys_with p m <-> starts_with p k = true /\ k ∈ keys m.
Proof. unfold keys_with. by rewrite list_elem_of_filter. Qed.
Lemma keys_with_NoDup p m : map_ok m -> NoDup (keys_with p m).
Proof. apply NoDup_filter. Qed.
End jsmap.

#[export] Hint Rewrite @get_set_eq @get_delete_eq : echolet_rw.
#[export] Hint Resolve map_ok_set map_ok_delete : echolet.
