(* ===== verification/Zod.v ===== *)
(** * Schemas

    The schema declarations of the client are written with zod.  Each combinator
    a declaration uses is read here as zod documents it: a schema maps an input
    value to the parsed value or refuses it.  An object schema answers the
    properties in the schema's order; a strict one refuses unknown properties.
    The [uuid] format is a regular expression inside zod and stays a parameter. *)

From S2P Require Import Prelude JsString Json.

Class Zod := { zod_uuid : jstr -> bool; zod_url : jstr -> bool }.

Definition schema := json -> option json.

Definition accepts (s : schema) (v : json) : bool :=
  match s v with Some _ => true | None => false end.

Definition z_string (check : jstr -> bool) : schema := fun v =>
  match v with JStr s => if check s then Some v else None | _ => None end.
Definition any_string : schema := z_string (fun _ => true).
Definition z_number (check : Z -> bool) : schema := fun v =>
  match v with JNum z => if check z then Some v else None | _ => None end.
Definition any_number : schema := z_number (fun _ => true).
Definition z_boolean : schema := fun v => match v with JBool _ => Some v | _ => None end.
Definition z_null : schema := fun v => match v with JNull => Some v | _ => None end.
Definition z_literal (x : json) : schema := fun v => if eqb v x then Some v else None.
Definition z_union (a b : schema) : schema := fun v =>
  match a v with Some w => Some w | None => b v end.
Definition z_nullable (s : schema) : schema := z_union z_null s.
(** [z.custom(test)]: the value itself, untouched. *)
Definition z_custom (test : json -> bool) : schema := fun v => if test v then Some v else None.
(** [schema.refine(test)]: tests the parsed value. *)
Definition z_refine (s : schema) (test : json -> bool) : schema := fun v =>
  match s v with Some w => if test w then Some w else None | None => None end.

Fixpoint parse_all (s : schema) (l : list json) : option (list json) :=
  match l with
  | [] => Some []
  | v :: l => match s v, parse_all s l with Some w, Some ws => Some (w :: ws) | _, _ => None end
  end.
Definition z_array (s : schema) (check : Z -> bool) : schema := fun v =>
  match v with
  | JArr l => if check (Z.of_nat (length l)) then
                match parse_all s l with Some ws => Some (JArr ws) | None => None end
              else None
  | _ => None
  end.

(** A property: its key, whether it is optional, its schema. *)
Definition property : Type := jstr * bool * schema.
Definition req (k : jstr) (s : schema) : property := (k, false, s).
Definition opt (k : jstr) (s : schema) : property := (k, true, s).

Fixpoint parse_properties (ps : list property) (l : list (jstr * json))
  : option (list (jstr * json)) :=
  match ps with
  | [] => Some []
  | (k, optional, s) :: ps =>
      match obj_get k l with
      | None => if optional then parse_properties ps l else None
      | Some v => match s v, parse_properties ps l with
                  | Some w, Some ws => Some ((k, w) :: ws)
                  | _, _ => None
                  end
      end
  end.
Definition known (ps : list property) (k : jstr) : bool :=
  existsb (fun p => eqb p.1.1 k) ps.
Definition z_object (ps : list property) : schema := fun v =>
  match v with
  | JObj l => match parse_properties ps l with Some ws => Some (JObj ws) | None => None end
  | _ => None
  end.
Definition z_strict (ps : list property) : schema := fun v =>
  match v with
  | JObj l => if forallb (fun kv => known ps kv.1) l then z_object ps v else None
  | _ => None
  end.

(** [.min(1)], [.max(n)], [.int().min(a).max(b)] and their combinations. *)
Definition len (s : jstr) : Z := Z.of_nat (length s).
Definition length_between (a b : Z) (s : jstr) : bool := (a <=? len s) && (len s <=? b).
Definition nonempty (s : jstr) : bool := 1 <=? len s.
Definition between (a b z : Z) : bool := (a <=? z) && (z <=? b).
Definition max_safe_integer : Z := 2 ^ 53 - 1.

(** Reading a property of a parsed value; the schema guarantees the type. *)
Definition str_field (k : jstr) (v : json) : jstr :=
  match field k v with Some (JStr s) => s | _ => [] end.
Definition num_field (k : jstr) (v : json) : Z :=
  match field k v with Some (JNum z) => z | _ => 0 end.
Definition sub_field (k : jstr) (v : json) : json := default_to JNull (field k v).
Definition arr_field (k : jstr) (v : json) : list json :=
  match field k v with Some (JArr l) => l | _ => [] end.

(** ** Lemmas *)

Lemma obj_get_key k l v : obj_get k l = Some v -> k ∈ l.*1.
Proof.
  induction l as [|[k' w] l IH]; cbn; [done|]. destruct (eqb k' k) eqn:E.
  - apply eqb_eq in E as ->. intros _. by left.
  - intros H. right. auto.
Qed.

Lemma obj_get_last k l v : k ∉ l.*1 -> obj_get k (l ++ [(k, v)]) = Some v.
Proof.
  induction l as [|[k' w] l IH]; cbn; [by rewrite eqb_refl|].
  rewrite not_elem_of_cons. intros [Hne Hin]. rewrite (proj2 (eqb_neq k' k)) by done. auto.
Qed.

Lemma parse_properties_keys ps l ws :
  parse_properties ps l = Some ws -> forall k, k ∈ ws.*1 -> known ps k = true /\ k ∈ l.*1.
Proof.
  revert ws. induction ps as [|[[k o] s] ps IH]; cbn; intros ws.
  - intros [= <-] k Hk. by apply not_elem_of_nil in Hk.
  - unfold known in *. destruct (obj_get k l) as [v|] eqn:E.
    + destruct (s v) as [w|]; [|done]. destruct (parse_properties ps l) as [ws'|]; [|done].
      intros [= <-] k' Hk'. cbn in Hk'. apply elem_of_cons in Hk' as [->|Hk'].
      * cbn. rewrite eqb_refl. split; [done|]. by eapply obj_get_key.
      * destruct (IH _ eq_refl _ Hk') as [H1 H2]. cbn. by rewrite H1, orb_true_r.
    + destruct o; [|done]. intros H k' Hk'. destruct (IH _ H _ Hk') as [H1 H2].
      cbn. by rewrite H1, orb_true_r.
Qed.

(** What an object schema answered for a property it requires. *)
Lemma parse_properties_get ps l ws k s :
  parse_properties ps l = Some ws -> (k, false, s) ∈ ps -> NoDup ps.*1.*1 ->
  exists v w, obj_get k l = Some v /\ s v = Some w /\ obj_get k ws = Some w.
Proof.
  revert ws. induction ps as [|[[k' o] s'] ps IH]; cbn; intros ws H Hin Hnd.
  { by apply not_elem_of_nil in Hin. }
  apply NoDup_cons in Hnd as [Hk' Hnd].
  apply elem_of_cons in Hin as [[= -> <- ->]|Hin].
  - destruct (obj_get k' l) as [v|]; [|done]. destruct (s' v) as [w|] eqn:Ew; [|done].
    destruct (parse_properties ps l); [|done]. injection H as <-.
    exists v, w. split; [done|]. split; [done|]. cbn. by rewrite eqb_refl.
  - assert (k' <> k) as Hne.
    { intros ->. apply Hk'. apply list_elem_of_fmap. exists (k, false). split; [done|].
      apply list_elem_of_fmap. by exists (k, false, s). }
    destruct (obj_get k' l) as [v|].
    + destruct (s' v) as [w|]; [|done]. destruct (parse_properties ps l) as [ws'|]; [|done].
      injection H as <-. destruct (IH ws' eq_refl Hin Hnd) as (v0 & w0 & ? & ? & ?).
      exists v0, w0. split; [done|]. split; [done|]. cbn.
      by rewrite (proj2 (eqb_neq k' k)).
    + destruct o; [|done]. destruct (IH ws H Hin Hnd) as (v0 & w0 & ? & ? & ?). eauto.
Qed.

(** A concrete format check, for the witnesses: 8-4-4-4-12 hexadecimal digits. *)
Definition hex_unit (u : Z) : bool :=
  between 48 57 u || between 97 102 u || between 65 70 u.
Definition uuid_shape (s : jstr) : bool :=
  match split_on 45 s with
  | [a; b; c; d; e] =>
      eqb (map (fun x => length x) [a; b; c; d; e]) [8; 4; 4; 4; 12]%nat
      && forallb (forallb hex_unit) [a; b; c; d; e]
  | _ => false
  end.
Definition zod_example : Zod := {| zod_uuid := uuid_shape; zod_url := fun _ => true |}.

(** Decide the comparisons of literal keys and values of a goal. *)
Ltac eval_keys :=
  repeat match goal with
  | |- context [@eqb ?A ?D ?x ?y] =>
      let t := constr:(@eqb A D x y) in
      let v := eval vm_compute in t in
      lazymatch v with true => idtac | false => idtac end;
      replace t with v by (vm_compute; reflexivity)
  end.
Ltac eval_object := cbn [obj_get field fst snd]; eval_keys; cbn [obj_get field fst snd negb andb orb].
