(* ===== verification/WellFormed.v ===== *)
(** * Well-formed values

    What comes from outside, bytes of a file or of the network, decodes to strings
    of 16-bit units, parses to values made of such strings, and what a schema
    answers for them is a value that prints and parses back to itself
    ([json_ok]). *)

From S2P Require Import Prelude JsString Json Base64Url Zod.

(** ** Decoding bytes *)

Lemma from_code_point_units c : 0 <= c <= 0x10FFFF -> forallb unit_ok (from_code_point c) = true.
Proof.
  intros Hc. unfold from_code_point, unit_ok. destruct (c <? 0x10000) eqn:E; bool_to_prop; cbn [forallb];
    rewrite !andb_true_iff, !Z.leb_le; lia.
Qed.

(** The decoder's state never passes the last code point. *)
Definition utf8_inv (st : utf8_state) : Prop :=
  match u_need st with
  | O => True
  | S n => 0 <= u_acc st /\ 0x80 <= u_lo st /\ u_hi st <= 0xBF
           /\ (u_acc st * 64 + (u_hi st - 0x80) + 1) * 64 ^ Z.of_nat n <= 0x110000
  end.
Lemma utf8_lead_inv b :
  byte_range b -> utf8_inv (utf8_lead b).2 /\ Forall (fun o => forall c, o = Some c -> 0 <= c <= 0x10FFFF) (utf8_lead b).1.
Proof.
  unfold byte_range, utf8_lead, utf8_inv. intros Hb.
  repeat match goal with |- context [if ?x then _ else _] => destruct x eqn:?; bool_to_prop end;
    cbn; (split; [first [done | lia]|]); repeat (apply Forall_cons_2; [intros c [= <-]; lia|]);
    try apply List.Forall_nil.
Qed.
Lemma utf8_scan_range st bs :
  Forall byte_range bs -> utf8_inv st ->
  Forall (fun o => forall c, o = Some c -> 0 <= c <= 0x10FFFF) (utf8_scan st bs).
Proof.
  intros Hb. revert st. induction Hb as [|b bs Hb Hbs IH]; intros st Hst; cbn [utf8_scan].
  { destruct (u_need st); [apply List.Forall_nil|]. apply Forall_cons_2; [done|apply List.Forall_nil]. }
  pose proof (utf8_lead_inv b Hb) as [Hl Ho]. unfold utf8_inv in Hst.
  destruct (u_need st) as [|n].
  { destruct (utf8_lead b) as [out st']. apply Forall_app. cbn in *. auto. }
  destruct Hst as (Ha & Hlo & Hhi & Hbound). unfold byte_range in Hb.
  destruct ((u_lo st <=? b) && (b <=? u_hi st)) eqn:E; bool_to_prop.
  - assert (b mod 64 = b - 128) as Hm by lia. destruct n as [|n].
    + change (64 ^ Z.of_nat 0) with 1 in Hbound. apply Forall_cons_2; [|by apply IH]. intros c [= <-]. lia.
    + apply IH. unfold utf8_inv. cbn [u_need u_acc u_lo u_hi]. split; [lia|]. split; [lia|]. split; [lia|].
      rewrite Nat2Z.inj_succ, Z.pow_succ_r in Hbound by lia.
      assert (0 < 64 ^ Z.of_nat n) by (apply Z.pow_pos_nonneg; lia).
      rewrite Hm. nia.
  - destruct (utf8_lead b) as [out st']. cbn in *. apply Forall_cons_2; [done|]. apply Forall_app. auto.
Qed.
Lemma utf8_to_string_units bs : Forall byte_range bs -> forallb unit_ok (utf8_to_string bs) = true.
Proof.
  intros Hb. unfold utf8_to_string, of_scalars. pose proof (utf8_scan_range utf8_init bs Hb I) as Hs.
  induction Hs as [|o l Ho Hl IH]; [done|]. cbn [map flat_map]. rewrite forallb_app, IH, andb_true_r.
  apply from_code_point_units. destruct o as [c|]; cbn; [by apply Ho|lia].
Qed.
Lemma text_decode_units bs : Forall byte_range bs -> forallb unit_ok (text_decode bs) = true.
Proof.
  intros Hb. unfold text_decode. apply utf8_to_string_units. unfold strip_bom.
  destruct bs as [|a [|b [|c r]]]; try exact Hb. destruct (_ && _); [|exact Hb].
  rewrite !Forall_cons in Hb. tauto.
Qed.

(** ** Parsing *)

(** Every string and every key is made of 16-bit units. *)
Fixpoint units_ok (v : json) : bool :=
  match v with
  | JNull | JBool _ | JNum _ => true
  | JStr s => forallb unit_ok s
  | JArr l => forallb units_ok l
  | JObj l => forallb (fun kv => forallb unit_ok kv.1 && units_ok kv.2) l
  end.
Definition text_ok (s : jstr) : Prop := forallb unit_ok s = true.

Lemma text_ok_cons u s : text_ok (u :: s) <-> unit_ok u = true /\ text_ok s.
Proof. unfold text_ok. cbn. by rewrite andb_true_iff. Qed.
Lemma text_ok_skip_ws s : text_ok s -> text_ok (skip_ws s).
Proof.
  induction s as [|u s IH]; [done|]. cbn [skip_ws]. destruct (is_ws u); [|done].
  intros [_ Hs]%text_ok_cons. auto.
Qed.
Lemma text_ok_expect c s r : text_ok s -> expect c s = Some r -> text_ok r.
Proof.
  intros Hs%text_ok_skip_ws. unfold expect. destruct (skip_ws s) as [|u t]; [done|].
  destruct (u =? c); [|done]. intros [= <-]. by apply text_ok_cons in Hs as [_ ?].
Qed.
Lemma text_ok_drop n s : text_ok s -> text_ok (drop n s).
Proof.
  revert s. induction n as [|n IH]; intros [|u s] Hs; try done. cbn. apply IH.
  by apply text_ok_cons in Hs as [_ ?].
Qed.
Lemma hex_value_range u d : hex_value u = Some d -> 0 <= d < 16.
Proof.
  unfold hex_value, is_digit.
  repeat (destruct (_ && _) eqn:E; [apply andb_true_iff in E; rewrite !Z.leb_le in E; intros [= <-]; lia|clear E]).
  done.
Qed.
Lemma read_hex4_unit a b c d x : read_hex4 a b c d = Some x -> unit_ok x = true.
Proof.
  unfold read_hex4. destruct (hex_value a) eqn:Ea; [|done]. destruct (hex_value b) eqn:Eb; [|done].
  destruct (hex_value c) eqn:Ec; [|done]. destruct (hex_value d) eqn:Ed; [|done]. intros [= <-].
  apply hex_value_range in Ea, Eb, Ec, Ed. unfold unit_ok. rewrite andb_true_iff, !Z.leb_le. lia.
Qed.
Lemma simple_escape_unit e x : simple_escape e = Some x -> unit_ok x = true.
Proof. unfold simple_escape. repeat (destruct (_ =? _); [by intros [= <-]|]). done. Qed.

Lemma cons_fst_ok u o p r :
  cons_fst u o = Some (p, r) -> exists p', o = Some (p', r) /\ p = u :: p'.
Proof. destruct o as [[p' r']|]; [|done]. intros [= <- <-]. eauto. Qed.
Lemma parse_string_units n s p r :
  (length s <= n)%nat -> text_ok s -> parse_string s = Some (p, r) -> text_ok p /\ text_ok r.
Proof.
  revert s p r. induction n as [|n IH]; intros [|u s] p r Hl Hs; cbn [length] in Hl;
    [intros E; discriminate E|lia|intros E; discriminate E|].
  apply text_ok_cons in Hs as [Hu Hs]. cbn [parse_string].
  destruct (u =? 34); [intros [= <- <-]; done|].
  assert (forall x s' p r, unit_ok x = true -> (length s' <= length s)%nat -> text_ok s' ->
    cons_fst x (parse_string s') = Some (p, r) -> text_ok p /\ text_ok r) as Hrec.
  { intros x s' p' r' Hx Hl' Hs' (p'' & E & ->)%cons_fst_ok.
    apply IH in E as [? ?]; [|lia|done]. split; [|done]. by apply text_ok_cons. }
  destruct (u =? 92).
  - destruct s as [|e s]; [done|]. apply text_ok_cons in Hs as [_ Hs]. destruct (e =? 117).
    + destruct s as [|a [|b [|c [|d s]]]]; try done. destruct (read_hex4 a b c d) as [x|] eqn:E; [|done].
      apply read_hex4_unit in E. intros Hp. rewrite !text_ok_cons in Hs. destruct Hs as (_ & _ & _ & _ & Hs).
      eapply Hrec; [exact E| |exact Hs|exact Hp]. cbn. lia.
    + destruct (simple_escape e) as [x|] eqn:E; [|done]. apply simple_escape_unit in E. intros Hp.
      eapply Hrec; [exact E| |exact Hs|exact Hp]. cbn. lia.
  - destruct (u <? 32); [done|]. intros Hp. by eapply Hrec.
Qed.
Lemma span_digits_units s d r : text_ok s -> span_digits s = (d, r) -> text_ok r.
Proof.
  revert d r. induction s as [|u s IH]; cbn; intros d r Hs; [by intros [= _ <-]|].
  destruct (is_digit u); [|by intros [= _ <-]]. destruct (span_digits s) as [d' r'] eqn:E.
  intros [= _ <-]. apply text_ok_cons in Hs as [_ Hs]. by eapply IH.
Qed.
Lemma parse_nat_units s z r : text_ok s -> parse_nat s = Some (z, r) -> text_ok r.
Proof.
  unfold parse_nat. intros Hs. destruct (span_digits s) as [d r'] eqn:E.
  pose proof (span_digits_units _ _ _ Hs E). destruct d as [|u d]; [done|]. destruct (_ && _); [done|].
  destruct r' as [|c r'']; [by intros [= _ <-]|]. destruct (_ || _); [done|]. by intros [= _ <-].
Qed.
Lemma parse_number_units s z r : text_ok s -> parse_number s = Some (z, r) -> text_ok r.
Proof.
  intros Hs. unfold parse_number. destruct s as [|u s']; [done|].
  assert (parse_nat (u :: s') = Some (z, r) -> text_ok r) as Hn by by apply parse_nat_units.
  apply text_ok_cons in Hs as [_ Hs].
  assert (match parse_nat s' with Some (z, r) => Some (- z, r) | None => None end = Some (z, r) -> text_ok r) as Hm.
  { destruct (parse_nat s') as [[z' r']|] eqn:E; [|done]. intros [= _ <-]. by eapply parse_nat_units. }
  destruct u as [|p|p]; try exact Hn. do 6 (destruct p as [p|p|]; try exact Hn). exact Hm.
Qed.

(** The values of an object built key by key. *)
Lemma obj_replace_units k v l :
  forallb unit_ok k = true -> units_ok v = true -> units_ok (JObj l) = true -> units_ok (JObj (obj_replace k v l)) = true.
Proof.
  intros Hk Hv. cbn [units_ok]. induction l as [|[k' v'] l IH]; [done|]. cbn [obj_replace forallb fst snd].
  rewrite !andb_true_iff. intros [[Hk' Hv'] Hl]. destruct (eqb k' k); cbn [forallb fst snd]; rewrite !andb_true_iff; auto.
Qed.
Lemma index_insert_units k v l :
  forallb unit_ok k = true -> units_ok v = true -> units_ok (JObj l) = true -> units_ok (JObj (index_insert k v l)) = true.
Proof.
  intros Hk Hv. cbn [units_ok]. induction l as [|[k' v'] l IH]; cbn [index_insert forallb fst snd].
  { rewrite Hk, Hv. done. }
  intros Hl. destruct (is_index k' && _); cbn [forallb fst snd]; [|by rewrite Hk, Hv].
  apply andb_true_iff in Hl as [-> Hl]. by apply IH.
Qed.
Lemma obj_set_units k v l :
  forallb unit_ok k = true -> units_ok v = true -> units_ok (JObj l) = true -> units_ok (JObj (obj_set k v l)) = true.
Proof.
  intros Hk Hv Hl. unfold obj_set. destruct (obj_has k l); [by apply obj_replace_units|].
  destruct (is_index k); [by apply index_insert_units|]. cbn [units_ok] in *.
  rewrite forallb_app, Hl. cbn. by rewrite Hk, Hv.
Qed.
Lemma obj_of_units members : units_ok (JObj members) = true -> units_ok (JObj (obj_of members)) = true.
Proof.
  unfold obj_of. assert (forall acc, units_ok (JObj acc) = true -> units_ok (JObj members) = true ->
    units_ok (JObj (fold_left (fun l kv => obj_set kv.1 kv.2 l) members acc)) = true) as Hg.
  { induction members as [|[k v] l IH]; intros acc Ha Hl; [done|]. cbn [fold_left].
    cbn [units_ok forallb fst snd] in Hl. rewrite !andb_true_iff in Hl. destruct Hl as [[Hk Hv] Hl].
    apply IH; [by apply obj_set_units|done]. }
  by apply Hg.
Qed.

Lemma parse_units_fuel n :
  (forall s v r, text_ok s -> parse_value n s = Some (v, r) -> units_ok v = true /\ text_ok r) /\
  (forall s l r, text_ok s -> parse_elements n s = Some (l, r) -> forallb units_ok l = true /\ text_ok r) /\
  (forall s l r, text_ok s -> parse_members n s = Some (l, r) -> units_ok (JObj l) = true /\ text_ok r).
Proof.
  induction n as [|n (IHv & IHe & IHm)]; [done|]. split; [|split]; intros s v r Hs.
  - cbn [parse_value]. pose proof (text_ok_skip_ws s Hs) as Hw. destruct (skip_ws s) as [|u t]; [done|].
    pose proof (proj2 (proj1 (text_ok_cons _ _) Hw)) as Ht. destruct (u =? 34).
    { destruct (parse_string t) as [[x r']|] eqn:E; [|done]. intros [= <- <-].
      by eapply parse_string_units in E as [? ?]. }
    destruct (u =? 91).
    { destruct (expect 93 t) eqn:E; [intros [= <- <-]; split; [done|by eapply text_ok_expect]|].
      destruct (parse_elements n t) as [[l r']|] eqn:E'; [|done]. intros [= <- <-]. by apply IHe in E'. }
    destruct (u =? 123).
    { destruct (expect 125 t) eqn:E; [intros [= <- <-]; split; [done|by eapply text_ok_expect]|].
      destruct (parse_members n t) as [[l r']|] eqn:E'; [|done]. intros [= <- <-].
      apply IHm in E' as [? ?]; [|done]. split; [by apply obj_of_units|done]. }
    repeat (destruct (starts_with _ _); [intros [= <- <-]; split; [done|by apply text_ok_drop]|]).
    destruct (parse_number (u :: t)) as [[z r']|] eqn:E; [|done]. intros [= <- <-].
    split; [done|]. exact (parse_number_units _ _ _ Hw E).
  - cbn [parse_elements]. destruct (parse_value n s) as [[w t]|] eqn:E; [|done].
    apply IHv in E as [Hv Ht]; [|done]. destruct (expect 44 t) eqn:E1.
    + destruct (parse_elements n _) as [[l' r']|] eqn:E2; [|done]. intros [= <- <-].
      apply IHe in E2 as [? ?]; [|by eapply text_ok_expect]. cbn. by rewrite Hv.
    + destruct (expect 93 t) eqn:E2; [|done]. intros [= <- <-]. cbn. rewrite Hv.
      split; [done|by eapply text_ok_expect].
  - cbn [parse_members]. destruct (expect 34 s) eqn:E0; [|done].
    destruct (parse_string _) as [[k t0]|] eqn:E1; [|done].
    eapply parse_string_units in E1 as [Hk Ht0]; [|reflexivity|by eapply text_ok_expect].
    destruct (expect 58 t0) eqn:E2; [|done].
    destruct (parse_value n _) as [[w t]|] eqn:E; [|done].
    apply IHv in E as [Hv Ht]; [|by eapply text_ok_expect]. unfold text_ok in Hk.
    destruct (expect 44 t) eqn:E3.
    + destruct (parse_members n _) as [[l' r']|] eqn:E4; [|done]. intros [= <- <-].
      apply IHm in E4 as [Hl ?]; [|by eapply text_ok_expect]. cbn [units_ok forallb fst snd] in *. by rewrite Hk, Hv.
    + destruct (expect 125 t) eqn:E4; [|done]. intros [= <- <-]. cbn [units_ok forallb fst snd].
      rewrite Hk, Hv. split; [done|by eapply text_ok_expect].
Qed.
Lemma parse_units s v : forallb unit_ok s = true -> parse s = Some v -> units_ok v = true.
Proof.
  unfold parse. intros Hs. destruct (parse_value (fuel_for s) s) as [[w r]|] eqn:E; [|done].
  destruct (skip_ws r); [|done]. intros [= <-].
  by destruct (proj1 (parse_units_fuel _) _ _ _ Hs E).
Qed.
Lemma json_ok_units v : json_ok v = true -> units_ok v = true.
Proof.
  induction v as [|b|z|s|l IH|l IH] using json_rect'; try done.
  - change (forallb json_ok l = true -> forallb units_ok l = true). rewrite !forallb_Forall'.
    rewrite !Forall_forall in *. auto.
  - change (keys_ok l && forallb (fun kv => json_ok kv.2) l = true -> units_ok (JObj l) = true).
    unfold keys_ok. rewrite !andb_true_iff. intros [[_ Hk] Hv]. cbn [units_ok].
    apply forallb_Forall' in Hk, Hv. apply forallb_Forall'. apply Forall_fmap in Hk. rewrite Forall_forall in *.
    intros kv Hin. specialize (Hk kv Hin). specialize (Hv kv Hin). cbn in Hk.
    apply andb_true_iff in Hk as [_ ->]. cbn. by apply IH.
Qed.

(** ** Schemas answer well-formed values

    For a class of inputs closed under taking parts: the values made of 16-bit
    strings, or the well-formed values. *)
Class Closed (P : json -> bool) := {
  closed_str : forall s, P (JStr s) = true -> forallb unit_ok s = true;
  closed_arr : forall l, P (JArr l) = true -> forallb P l = true;
  closed_obj : forall l, P (JObj l) = true -> forallb (fun kv => P kv.2) l = true;
}.
#[export] Instance units_closed : Closed units_ok.
Proof.
  split; [done|done|]. intros l. cbn [units_ok]. induction l as [|kv l IH]; [done|]. cbn [forallb].
  rewrite !andb_true_iff. intros [[_ ?] ?]. auto.
Qed.
#[export] Instance json_closed : Closed json_ok.
Proof.
  split; [done|done|]. intros l.
  change (keys_ok l && forallb (fun kv => json_ok kv.2) l = true -> forallb (fun kv => json_ok kv.2) l = true).
  rewrite andb_true_iff. by intros [].
Qed.

Section schemas.
Context (P : json -> bool) `{!Closed P}.

Definition schema_ok (s : schema) : Prop :=
  forall v w, s v = Some w -> P v = true -> json_ok w = true.

Lemma z_string_ok check : schema_ok (z_string check).
Proof. intros [] w; try done. cbn. destruct (check s); [|done]. intros [= <-]. apply closed_str. Qed.
Lemma z_number_ok check : schema_ok (z_number check).
Proof. intros [] w; try done. cbn. destruct (check z); [|done]. by intros [= <-]. Qed.
Lemma z_boolean_ok : schema_ok z_boolean.
Proof. intros [] w; try done. by intros [= <-]. Qed.
Lemma z_null_ok : schema_ok z_null.
Proof. intros [] w; try done. by intros [= <-]. Qed.
Lemma z_literal_ok x : json_ok x = true -> schema_ok (z_literal x).
Proof. intros Hx v w. unfold z_literal. destruct (eqb v x) eqn:E; [|done]. rewrite eqb_eq in E. subst v. by intros [= <-]. Qed.
Lemma z_union_ok a b : schema_ok a -> schema_ok b -> schema_ok (z_union a b).
Proof. intros Ha Hb v w. unfold z_union. destruct (a v) eqn:E; [intros [= <-]; by eapply Ha|apply Hb]. Qed.
Lemma z_nullable_ok s : schema_ok s -> schema_ok (z_nullable s).
Proof. apply z_union_ok, z_null_ok. Qed.
Lemma z_refine_ok s test : schema_ok s -> schema_ok (z_refine s test).
Proof.
  intros Hs v w. unfold z_refine. destruct (s v) eqn:E; [|done]. destruct (test _); [|done].
  intros [= <-]. by eapply Hs.
Qed.
Lemma parse_all_ok s l ws : schema_ok s -> parse_all s l = Some ws -> forallb P l = true -> forallb json_ok ws = true.
Proof.
  intros Hs. revert ws. induction l as [|v l IH]; intros ws; cbn; [by intros [= <-]|].
  destruct (s v) as [w|] eqn:E; [|done]. destruct (parse_all s l) as [ws'|]; [|done]. intros [= <-].
  rewrite andb_true_iff. intros [Hv Hl]. cbn. rewrite (Hs _ _ E Hv). exact (IH _ eq_refl Hl).
Qed.
Lemma parse_all_length s l ws : parse_all s l = Some ws -> length ws = length l.
Proof.
  revert ws. induction l as [|v l IH]; intros ws; cbn; [by intros [= <-]|].
  destruct (s v); [|done]. destruct (parse_all s l); [|done]. intros [= <-]. cbn. by rewrite IH.
Qed.
Lemma z_array_ok s check : schema_ok s -> schema_ok (z_array s check).
Proof.
  intros Hs v w. destruct v as [| | | |l|]; try done. cbn [z_array]. destruct (check _); [|done].
  destruct (parse_all s l) as [ws|] eqn:E; [|done]. intros [= <-] Hl%closed_arr. by eapply parse_all_ok.
Qed.

Lemma obj_get_closed k l v : P (JObj l) = true -> obj_get k l = Some v -> P v = true.
Proof.
  intros Hl%closed_obj. induction l as [|[k' v'] l IH]; [done|]. cbn [forallb obj_get fst snd] in *.
  apply andb_true_iff in Hl as [Hv Hl]. destruct (eqb k' k); [by intros [= <-]|auto].
Qed.
(** The keys of a schema: distinct, and none an array index. *)
Definition properties_keys_ok (ps : list property) : bool := keys_ok (map (fun p => (p.1.1, JNull)) ps).
Definition properties_ok (ps : list property) : Prop :=
  properties_keys_ok ps = true /\ Forall (fun p => schema_ok p.2) ps.

Lemma parse_properties_sub ps l ws : parse_properties ps l = Some ws -> sublist ws.*1 ps.*1.*1.
Proof.
  revert ws. induction ps as [|[[k o] s] ps IH]; intros ws; cbn [parse_properties].
  { intros [= <-]. apply sublist_nil. }
  destruct (obj_get k l) as [v|].
  - destruct (s v); [|done]. destruct (parse_properties ps l); [|done]. intros [= <-].
    cbn. by apply sublist_skip, IH.
  - destruct o; [|done]. intros E. cbn. by apply sublist_cons, IH.
Qed.
Lemma z_object_ok ps : properties_ok ps -> schema_ok (z_object ps).
Proof.
  intros [Hk Hs] v w. destruct v as [| | | | |l]; try done. cbn [z_object].
  destruct (parse_properties ps l) as [ws|] eqn:E; [|done]. intros [= <-] Hl.
  change (keys_ok ws && forallb (fun kv => json_ok kv.2) ws = true). apply andb_true_iff. split.
  - pose proof (parse_properties_sub _ _ _ E) as Hsub. unfold properties_keys_ok, keys_ok in *.
    replace ((map (fun p : property => (p.1.1, JNull)) ps).*1) with (ps.*1.*1) in Hk
      by (rewrite <- !list_fmap_compose; done).
    apply andb_true_iff in Hk as [Hn Hf]. apply bool_decide_eq_true in Hn. apply andb_true_iff. split.
    + apply bool_decide_eq_true. by eapply sublist_NoDup; [exact Hn|].
    + apply forallb_Forall' in Hf. apply forallb_Forall'. rewrite Forall_forall in *. intros k Hin. apply Hf. by eapply elem_of_sublist.
  - clear Hk. revert ws E. induction Hs as [|[[k o] s] ps Hs Hps IH]; intros ws; cbn [parse_properties].
    { by intros [= <-]. }
    destruct (obj_get k l) as [v|] eqn:Ev.
    + destruct (s v) as [w|] eqn:Ew; [|done]. destruct (parse_properties ps l) as [ws'|]; [|done].
      intros [= <-]. cbn [forallb snd]. rewrite (Hs _ _ Ew) by by eapply obj_get_closed. by apply IH.
    + destruct o; [|done]. apply IH.
Qed.
Lemma z_strict_ok ps : properties_ok ps -> schema_ok (z_strict ps).
Proof.
  intros Hps v w. destruct v as [| | | | |l]; try done. cbn [z_strict]. destruct (forallb _ l); [|done].
  by apply z_object_ok.
Qed.
End schemas.

Lemma z_custom_ok test : schema_ok json_ok (z_custom test).
Proof. intros v w. unfold z_custom. destruct (test v); [|done]. by intros [= <-]. Qed.

(** Every schema that is a composition of the combinators. *)
Ltac solve_schema_ok :=
  repeat first
    [ apply z_strict_ok; [apply _|split; [vm_compute; reflexivity|]]
    | apply z_object_ok; [apply _|split; [vm_compute; reflexivity|]]
    | apply Forall_cons_2; [cbn [snd]|] | apply List.Forall_nil
    | apply z_string_ok; apply _ | apply z_number_ok | apply z_boolean_ok | apply z_null_ok
    | apply z_nullable_ok | apply z_array_ok; [apply _|] | apply z_refine_ok | apply z_custom_ok
    | apply z_literal_ok; vm_compute; reflexivity ].

(** Parts of a well-formed value. *)
Lemma obj_get_json_ok k l v : json_ok (JObj l) = true -> obj_get k l = Some v -> json_ok v = true.
Proof. apply obj_get_closed, _. Qed.
Lemma sub_field_json_ok k v : json_ok v = true -> json_ok (sub_field k v) = true.
Proof.
  intros Hv. unfold sub_field, field. destruct v as [| | | | |l]; try done.
  destruct (obj_get k l) as [w|] eqn:E; [|done]. by eapply obj_get_json_ok.
Qed.
Lemma str_field_units k v : json_ok v = true -> forallb unit_ok (str_field k v) = true.
Proof.
  intros Hv%(sub_field_json_ok k). unfold str_field. unfold sub_field in Hv.
  by destruct (field k v) as [[]|].
Qed.

(** ** Updating a member of an object *)
Lemma obj_get_has k l : obj_has k l = true <-> exists v, obj_get k l = Some v.
Proof.
  unfold obj_has. induction l as [|[k' v] l IH]; cbn; [split; [done|by intros [? ?]]|].
  destruct (eqb k' k); cbn; [|exact IH]. split; [by exists v|done].
Qed.
Lemma obj_replace_keys k v l : (obj_replace k v l).*1 = l.*1.
Proof. induction l as [|[k' v'] l IH]; [done|]. cbn. destruct (eqb k' k); cbn; by rewrite ?IH. Qed.
Lemma obj_get_replace k v l : obj_has k l = true -> obj_get k (obj_replace k v l) = Some v.
Proof.
  unfold obj_has. induction l as [|[k' v'] l IH]; [done|]. cbn. destruct (eqb k' k) eqn:E; cbn; rewrite E; [done|].
  exact IH.
Qed.
Lemma obj_get_replace_ne k k' v l : k' <> k -> obj_get k' (obj_replace k v l) = obj_get k' l.
Proof.
  intros Hne. induction l as [|[j w] l IH]; [done|]. cbn. destruct (eqb j k) eqn:E; cbn.
  - apply eqb_eq in E as ->. by rewrite (proj2 (eqb_neq k k')) by done.
  - by rewrite IH.
Qed.
Lemma obj_get_last_ne k k' v l : k' <> k -> obj_get k' (l ++ [(k, v)]) = obj_get k' l.
Proof.
  intros Hne. induction l as [|[j w] l IH]; cbn; [by rewrite (proj2 (eqb_neq k k'))|]. by rewrite IH.
Qed.
Section update.
Context (k : jstr) (Hk : is_index k = false).

Lemma obj_get_set_eq v l : obj_get k (obj_set k v l) = Some v.
Proof using Hk.
  unfold obj_set. rewrite Hk. destruct (obj_has k l) eqn:E; [by apply obj_get_replace|].
  apply obj_get_last. by apply obj_has_false.
Qed.
Lemma obj_get_set_ne k' v l : k' <> k -> obj_get k' (obj_set k v l) = obj_get k' l.
Proof using Hk.
  intros Hne. unfold obj_set. rewrite Hk.
  destruct (obj_has k l); [by apply obj_get_replace_ne|by apply obj_get_last_ne].
Qed.
Lemma obj_replace_same v l : obj_get k l = Some v -> obj_replace k v l = l.
Proof using.
  induction l as [|[j w] l IH]; [done|]. cbn. destruct (eqb j k); [by intros [= ->]|]. intros E. by rewrite IH.
Qed.
Lemma obj_set_again v l : obj_set k v (obj_set k v l) = obj_set k v l.
Proof using Hk.
  pose proof (obj_get_set_eq v l) as E. set (l' := obj_set k v l) in *.
  unfold obj_set. rewrite (proj2 (obj_get_has k l') (ex_intro _ _ E)). by apply obj_replace_same.
Qed.
Lemma obj_set_json_ok v l :
  forallb unit_ok k = true -> json_ok v = true -> json_ok (JObj l) = true -> json_ok (JObj (obj_set k v l)) = true.
Proof using Hk.
  intros Hu Hv.
  change (keys_ok l && forallb (fun kv => json_ok kv.2) l = true ->
          keys_ok (obj_set k v l) && forallb (fun kv => json_ok kv.2) (obj_set k v l) = true).
  unfold obj_set. rewrite Hk. intros [Hl Hf]%andb_true_iff. apply andb_true_iff. unfold keys_ok in *.
  apply andb_true_iff in Hl as [Hn Hl]. apply bool_decide_eq_true in Hn.
  destruct (obj_has k l) eqn:E.
  - rewrite obj_replace_keys, Hl, (bool_decide_eq_true_2 _ Hn). split; [done|]. clear E Hn Hl.
    induction l as [|[j w] l IH]; [done|]. cbn [obj_replace forallb snd] in *. apply andb_true_iff in Hf as [Hw Hf].
    destruct (eqb j k); cbn [forallb snd]; [by rewrite Hv, Hf|]. by rewrite Hw, IH.
  - apply obj_has_false in E. rewrite fmap_app, forallb_app, forallb_app, Hl, Hf. cbn. rewrite Hk, Hu, Hv.
    split; [|done]. rewrite andb_true_r. apply bool_decide_eq_true. apply NoDup_app. split; [done|].
    split; [|apply NoDup_singleton]. intros x Hx ->%list_elem_of_singleton. done.
Qed.
End update.
