(* ===== verification/Protocol.v ===== *)
(** * The wire types: [packages/protocol/src]

    The schemas of the records the client, the relay and other devices exchange,
    the Signal address of a device and the text a published bundle is signed over. *)

From S2P Require Import Prelude JsString Json Zod Base64Url.

(** ** constants/limits.ts *)
Definition PREKEY_MIN_COUNT : nat := 20.
Definition MAX_MESSAGE_BYTES : Z := 262144.

Section protocol.
Context `{Zod}.

(** ** types/deviceRecord.ts, chatMessage.ts, receipt.ts, preKeyBundle.ts, mailboxEnvelope.ts *)

Definition z_uuid : schema := z_string zod_uuid.

Definition DeviceRecord_properties : list property :=
  [ req (js "type") (z_literal (JStr (js "device_record")));
    req (js "version") (z_literal (JNum 1));
    req (js "identity_id") any_string;
    req (js "device_id") z_uuid;
    req (js "device_pubkey") any_string;
    opt (js "device_label") any_string;
    req (js "capabilities") (z_object
      [ opt (js "mailbox_poll") z_boolean;
        opt (js "receipts") z_boolean;
        opt (js "attachments") z_boolean ]);
    req (js "created_at_ms") any_number;
    req (js "signature") any_string ].
Definition DeviceRecordSchema : schema := z_object DeviceRecord_properties.

Definition ChatMessageSchema : schema := z_object
  [ req (js "type") (z_literal (JStr (js "chat_message")));
    req (js "version") (z_literal (JNum 1));
    req (js "message_id") z_uuid;
    req (js "conversation_id") any_string;
    req (js "sender_identity_id") any_string;
    req (js "sender_device_id") z_uuid;
    req (js "created_at_ms") any_number;
    req (js "body") any_string;
    req (js "reply_to_message_id") (z_nullable z_uuid) ].

Definition ReceiptSchema : schema := z_object
  [ req (js "type") (z_literal (JStr (js "receipt")));
    req (js "version") (z_literal (JNum 1));
    req (js "receipt_id") z_uuid;
    req (js "message_id") z_uuid;
    req (js "status") (z_string (fun s =>
      existsb (eqb s) [js "queued"; js "relayed"; js "delivered"; js "read"]));
    req (js "created_at_ms") any_number ].

Definition PreKeyBundleSchema : schema := z_object
  [ req (js "type") (z_literal (JStr (js "prekey_bundle")));
    req (js "version") (z_literal (JNum 1));
    req (js "bundle_id") z_uuid;
    req (js "identity_id") any_string;
    req (js "device_id") z_uuid;
    req (js "device_pubkey") any_string;
    req (js "signed_prekey") (z_object
      [ req (js "key_id") any_string;
        req (js "public_key") any_string;
        req (js "created_at_ms") any_number;
        req (js "expires_at_ms") any_number;
        req (js "signature") any_string ]);
    req (js "one_time_prekeys") (z_array (z_object
      [ req (js "key_id") any_string; req (js "public_key") any_string ]) (fun _ => true));
    req (js "created_at_ms") any_number;
    req (js "signature") any_string ].

Definition MailboxEnvelope_properties : list property :=
  [ req (js "type") (z_literal (JStr (js "mailbox_envelope")));
    req (js "version") (z_literal (JNum 1));
    req (js "envelope_id") z_uuid;
    req (js "message_id") z_uuid;
    req (js "sender_identity_id") any_string;
    req (js "sender_device_id") z_uuid;
    req (js "recipient_identity_id") any_string;
    req (js "recipient_device_id") z_uuid;
    req (js "recipient_mailbox_id") any_string;
    req (js "payload_type") (z_literal (JStr (js "ciphertext_message")));
    req (js "ciphertext") any_string;
    req (js "created_at_ms") any_number;
    req (js "expires_at_ms") any_number;
    req (js "size_bytes") any_number;
    opt (js "sender_signature") (z_string (length_between 1 256)) ].
Definition MailboxEnvelopeSchema : schema := z_object MailboxEnvelope_properties.
(** [MailboxEnvelopeSchema.strict()], [DeviceRecordSchema.strict()]. *)
Definition StrictMailboxEnvelope : schema := z_strict MailboxEnvelope_properties.
Definition StrictDeviceRecord : schema := z_strict DeviceRecord_properties.

(** ** validators *)
Definition validateDeviceRecord (input : json) : option json := DeviceRecordSchema input.
Definition validatePreKeyBundle (input : json) : option json := PreKeyBundleSchema input.

(** ** types/signalPreKeyBundleV2.ts *)

Definition hex_or_dash (u : Z) : bool :=
  ((48 <=? u) && (u <=? 57)) || ((97 <=? u) && (u <=? 102)) || (u =? 45).
Definition uuid_v2_ok (s : jstr) : bool := zod_uuid s && negb (eqb s []) && forallb hex_or_dash s.
Definition uuid_v2 : schema := z_string uuid_v2_ok.
Definition timestamp : schema := z_number (between 0 max_safe_integer).
Definition keyId : schema := z_number (between 0 0xffffffff).
Definition identity_ok : jstr -> bool := encodedBytes 32 None.
Definition identity : schema := z_string identity_ok.
Definition signature : schema := z_string (encodedBytes 64 None).
Definition ecKey : schema := z_string (encodedBytes 33 (Some 0x05)).

Definition signedDevice : schema := z_strict
  [ req (js "type") (z_literal (JStr (js "device_record")));
    req (js "version") (z_literal (JNum 1));
    req (js "identity_id") identity;
    req (js "device_id") uuid_v2;
    req (js "device_pubkey") identity;
    opt (js "device_label") (z_string (fun s => len s <=? 256));
    req (js "capabilities") (z_strict
      [ opt (js "mailbox_poll") z_boolean;
        opt (js "receipts") z_boolean;
        opt (js "attachments") z_boolean ]);
    req (js "created_at_ms") timestamp;
    req (js "signature") signature ].
Definition originalSignedDevice : schema := z_custom (accepts signedDevice).

Definition bundle_properties : list property :=
  [ req (js "type") (z_literal (JStr (js "signal_prekey_bundle")));
    req (js "version") (z_literal (JNum 2));
    req (js "suite") (z_literal (JStr (js "libsignal-pq-v1")));
    req (js "bundle_id") uuid_v2;
    req (js "created_at_ms") timestamp;
    req (js "expires_at_ms") timestamp;
    req (js "device_record") originalSignedDevice;
    req (js "registration_id") (z_number (between 1 16380));
    req (js "signal_identity_key") ecKey;
    req (js "signed_prekey") (z_strict
      [ req (js "key_id") keyId; req (js "public_key") ecKey; req (js "signature") signature ]);
    req (js "kyber_prekey") (z_strict
      [ req (js "key_id") keyId;
        req (js "public_key") (z_string (encodedBytes 1569 (Some 0x08)));
        req (js "signature") signature ]);
    req (js "one_time_prekey") (z_nullable (z_strict
      [ req (js "key_id") keyId; req (js "public_key") ecKey ]));
    req (js "signature") signature ].
Definition lifetime_ok (value : json) : bool :=
  let created := num_field (js "created_at_ms") value in
  let expires := num_field (js "expires_at_ms") value in
  (created <? expires) && (expires - created <=? 7 * 24 * 60 * 60 * 1000).
Definition SignalPreKeyBundleV2Schema : schema := z_refine (z_strict bundle_properties) lifetime_ok.

Record DeviceAddress := { name : jstr; deviceId : Z }.
#[export] Instance address_eq_dec : EqDecision DeviceAddress.
Proof. solve_decision. Defined.

(** [None] stands for the [ZodError]. *)
Definition signalAddressForDevice (identityId device : jstr) : option DeviceAddress :=
  if identity_ok identityId && uuid_v2_ok device
  then Some {| name := stringify (JArr [JStr identityId; JStr device]); deviceId := 1 |}
  else None.

Definition signing_value (value : json) : json :=
  let device := sub_field (js "device_record") value in
  let capabilities := sub_field (js "capabilities") device in
  let signed := sub_field (js "signed_prekey") value in
  let kyber := sub_field (js "kyber_prekey") value in
  let one_time := sub_field (js "one_time_prekey") value in
  JArr [ JStr (js "echolet.signal.prekey_bundle.v2");
         sub_field (js "bundle_id") value; sub_field (js "suite") value;
         JArr [ sub_field (js "type") device; sub_field (js "version") device;
                sub_field (js "identity_id") device; sub_field (js "device_id") device;
                sub_field (js "device_pubkey") device; sub_field (js "device_label") device;
                JArr [ sub_field (js "mailbox_poll") capabilities;
                       sub_field (js "receipts") capabilities;
                       sub_field (js "attachments") capabilities ];
                sub_field (js "created_at_ms") device; sub_field (js "signature") device ];
         sub_field (js "created_at_ms") value; sub_field (js "expires_at_ms") value;
         sub_field (js "registration_id") value; sub_field (js "signal_identity_key") value;
         JArr [ sub_field (js "key_id") signed; sub_field (js "public_key") signed;
                sub_field (js "signature") signed ];
         JArr [ sub_field (js "key_id") kyber; sub_field (js "public_key") kyber;
                sub_field (js "signature") kyber ];
         match one_time with
         | JNull => JNull
         | _ => JArr [ sub_field (js "key_id") one_time; sub_field (js "public_key") one_time ]
         end ].
Definition signalBundleV2SigningText (bundle : json) : option jstr :=
  match SignalPreKeyBundleV2Schema bundle with
  | Some value => Some (stringify (signing_value value))
  | None => None
  end.

End protocol.

(** ** Lemmas *)

Lemma obj_get_In k l v : obj_get k l = Some v -> (k, v) ∈ l.
Proof.
  induction l as [|[k' w] l IH]; cbn; [done|]. destruct (eqb k' k) eqn:E.
  - apply eqb_eq in E as ->. intros [= ->]. by left.
  - intros Hv. right. auto.
Qed.
Lemma sub_field_ok k v : json_ok v = true -> json_ok (sub_field k v) = true.
Proof.
  unfold sub_field, field. destruct v as [|b|z|s|l|l]; try done.
  intros Hv. change (keys_ok l && forallb (fun kv => json_ok kv.2) l = true) in Hv.
  apply andb_true_iff in Hv as [_ Hv].
  destruct (obj_get k l) as [v|] eqn:E; [|done]. cbn.
  apply obj_get_In in E. apply forallb_Forall' in Hv. rewrite Forall_forall in Hv.
  by apply (Hv (k, v)).
Qed.
Lemma json_ok_arr l : json_ok (JArr l) = forallb json_ok l.
Proof. done. Qed.

Lemma signing_value_ok v : json_ok v = true -> json_ok (signing_value v) = true.
Proof.
  intros Hv. unfold signing_value.
  assert (forall k, json_ok (sub_field k v) = true) as H1 by (intros; by apply sub_field_ok).
  assert (forall k k', json_ok (sub_field k' (sub_field k v)) = true) as H2
    by (intros; by apply sub_field_ok).
  assert (forall k k' k'', json_ok (sub_field k'' (sub_field k' (sub_field k v))) = true) as H3
    by (intros; by apply sub_field_ok).
  rewrite json_ok_arr. cbn [forallb]. rewrite !json_ok_arr. cbn [forallb]. rewrite !json_ok_arr.
  cbn [forallb]. rewrite !H1, !H2, !H3. cbn [andb].
  destruct (sub_field (js "one_time_prekey") v) eqn:E; try done;
    rewrite <- E, json_ok_arr; cbn [forallb]; by rewrite !H2.
Qed.

(** What the signing text covers, as paths into the bundle: everything but the
    outer type, version and signature. *)
Definition at_path (path : list jstr) (v : json) : json := fold_left (fun v k => sub_field k v) path v.
Definition covered_paths : list (list jstr) :=
  [ [js "bundle_id"]; [js "suite"];
    [js "device_record"; js "type"]; [js "device_record"; js "version"];
    [js "device_record"; js "identity_id"]; [js "device_record"; js "device_id"];
    [js "device_record"; js "device_pubkey"]; [js "device_record"; js "device_label"];
    [js "device_record"; js "capabilities"; js "mailbox_poll"];
    [js "device_record"; js "capabilities"; js "receipts"];
    [js "device_record"; js "capabilities"; js "attachments"];
    [js "device_record"; js "created_at_ms"]; [js "device_record"; js "signature"];
    [js "created_at_ms"]; [js "expires_at_ms"]; [js "registration_id"]; [js "signal_identity_key"];
    [js "signed_prekey"; js "key_id"]; [js "signed_prekey"; js "public_key"];
    [js "signed_prekey"; js "signature"];
    [js "kyber_prekey"; js "key_id"]; [js "kyber_prekey"; js "public_key"];
    [js "kyber_prekey"; js "signature"];
    [js "one_time_prekey"; js "key_id"]; [js "one_time_prekey"; js "public_key"] ].

Lemma one_time_cases (a b : json) :
  match a with JNull => JNull
             | _ => JArr [sub_field (js "key_id") a; sub_field (js "public_key") a] end
  = match b with JNull => JNull
               | _ => JArr [sub_field (js "key_id") b; sub_field (js "public_key") b] end ->
  sub_field (js "key_id") a = sub_field (js "key_id") b
  /\ sub_field (js "public_key") a = sub_field (js "public_key") b.
Proof. destruct a, b; intros E; try discriminate; try done; injection E; auto. Qed.

Lemma elem_of_map_eq {A B} (f g : A -> B) l x : map f l = map g l -> x ∈ l -> f x = g x.
Proof.
  induction l as [|y l IH]; cbn; intros E Hx; [by apply not_elem_of_nil in Hx|].
  injection E as E1 E2. apply elem_of_cons in Hx as [->|Hx]; auto.
Qed.
Lemma signing_value_covers v w p :
  signing_value v = signing_value w -> p ∈ covered_paths -> at_path p v = at_path p w.
Proof.
  intros E. unfold signing_value in E. injection E. clear E. intros.
  match goal with H : match ?a with JNull => _ | _ => _ end = _ |- _ => apply one_time_cases in H as [? ?] end.
  assert (map (fun p => at_path p v) covered_paths = map (fun p => at_path p w) covered_paths) as Hmap.
  { cbn [map covered_paths at_path fold_left]. repeat (apply (f_equal2 cons); [assumption|]). reflexivity. }
  by apply (elem_of_map_eq _ _ _ _ Hmap).
Qed.

Lemma identity_units s : identity_ok s = true -> forallb unit_ok s = true.
Proof.
  intros Hs. apply encodedBytes_iff in Hs as (bs & Hb & _ & <- & _); [|lia].
  rewrite encode_chars by done. apply forallb_Forall', Forall_map.
  eapply Forall_impl; [by apply sextets_ok|]. intros v Hv.
  by_sextets (fun v => unit_ok (url_char v)) Hv. done.
Qed.
Lemma hex_or_dash_units s : forallb hex_or_dash s = true -> forallb unit_ok s = true.
Proof.
  rewrite !forallb_Forall'. intros Hs. eapply Forall_impl; [exact Hs|]. cbn.
  unfold hex_or_dash, unit_ok. intros u Hu. rewrite !orb_true_iff in Hu.
  repeat destruct Hu as [Hu|Hu]; bool_to_prop; by decide_bool.
Qed.

Section properties.
Context `{Zod}.

Lemma signalAddress_ok i d a :
  signalAddressForDevice i d = Some a ->
  json_ok (JArr [JStr i; JStr d]) = true /\ a = {| name := stringify (JArr [JStr i; JStr d]); deviceId := 1 |}.
Proof.
  unfold signalAddressForDevice. destruct (identity_ok i && uuid_v2_ok d) eqn:E; [|done].
  intros [= <-]. split; [|done]. unfold uuid_v2_ok in E. rewrite !andb_true_iff in E.
  destruct E as [Hi [_ Hd]]. cbn. by rewrite identity_units, hex_or_dash_units.
Qed.

(** Two devices never share a Signal address. *)
Lemma signalAddress_inj i d i' d' a :
  signalAddressForDevice i d = Some a -> signalAddressForDevice i' d' = Some a -> i = i' /\ d = d'.
Proof.
  intros [H1 ->]%signalAddress_ok [H2 E]%signalAddress_ok. apply (f_equal name) in E.
  cbn [name] in E. apply (f_equal parse) in E. rewrite !parse_stringify in E by done. injection E. auto.
Qed.

(** C32: the text a published bundle is signed over determines every field of the
    bundle but its outer type, version and signature: two accepted bundles with
    the same signing text agree on the identity, the device record and its own
    signature, the validity window and every key, so a signature on one says
    nothing about another. *)
Theorem signing_text_injective b1 b2 w1 w2 t :
  SignalPreKeyBundleV2Schema b1 = Some w1 -> SignalPreKeyBundleV2Schema b2 = Some w2 ->
  json_ok w1 = true -> json_ok w2 = true ->
  signalBundleV2SigningText b1 = Some t -> signalBundleV2SigningText b2 = Some t ->
  forall p, p ∈ covered_paths -> at_path p w1 = at_path p w2.
Proof.
  unfold signalBundleV2SigningText. intros -> -> H1%signing_value_ok H2%signing_value_ok <- E p Hp.
  apply (f_equal (default_to [])) in E. cbn [default_to] in E.
  apply (f_equal parse) in E. rewrite !parse_stringify in E by done.
  apply (f_equal (default_to JNull)) in E. cbn [default_to] in E.
  symmetry in E. by apply signing_value_covers.
Qed.
End properties.

(** ** A concrete bundle, for the witnesses *)
Module Sample.
#[export] Instance zod : Zod := zod_example.
Definition key43 : jstr := repeat_str (js "A") 43.
Definition sig86 : jstr := repeat_str (js "A") 86.
Definition ec44 (c : jstr) : jstr := js "BQ" ++ repeat_str c 42.
Definition device : json := JObj
  [ (js "type", JStr (js "device_record")); (js "version", JNum 1);
    (js "identity_id", JStr key43);
    (js "device_id", JStr (js "110a486a-e330-43dd-8383-b1aa8b1cc353"));
    (js "device_pubkey", JStr key43);
    (js "capabilities", JObj [(js "receipts", JBool true); (js "mailbox_poll", JBool false)]);
    (js "created_at_ms", JNum 0); (js "signature", JStr sig86) ].
Definition bundle (prekey : json) (sig : jstr) : json := JObj
  [ (js "type", JStr (js "signal_prekey_bundle")); (js "version", JNum 2);
    (js "suite", JStr (js "libsignal-pq-v1"));
    (js "bundle_id", JStr (js "f841b845-e677-4bce-b18e-d1d3bf745e67"));
    (js "created_at_ms", JNum 1000); (js "expires_at_ms", JNum 2000);
    (js "device_record", device); (js "registration_id", JNum 12);
    (js "signal_identity_key", JStr (ec44 (js "A")));
    (js "signed_prekey", JObj [(js "key_id", JNum 2); (js "public_key", JStr (ec44 (js "A")));
                               (js "signature", JStr sig86)]);
    (js "kyber_prekey", JObj [(js "key_id", JNum 4294967295);
                              (js "public_key", JStr (js "CA" ++ repeat_str (js "A") 2090));
                              (js "signature", JStr sig86)]);
    (js "one_time_prekey", prekey); (js "signature", JStr sig) ].
Definition one_time : json := JObj [(js "key_id", JNum 1); (js "public_key", JStr (ec44 (js "A")))].
End Sample.

Lemma signing_text_injective_witness :
  at_path [js "device_record"; js "identity_id"] (Sample.bundle Sample.one_time Sample.sig86)
  = at_path [js "device_record"; js "identity_id"]
      (Sample.bundle Sample.one_time (js "B" ++ repeat_str (js "A") 85)).
Proof.
  eapply (signing_text_injective (H := Sample.zod)
            (Sample.bundle Sample.one_time Sample.sig86)
            (Sample.bundle Sample.one_time (js "B" ++ repeat_str (js "A") 85))).
  1-6: vm_compute; reflexivity.
  unfold covered_paths. do 4 apply list_elem_of_further. apply list_elem_of_here.
Defined.
