(* ===== verification/Effects.v ===== *)
(** * Effects: errors, the state-and-error monad, the platform

    A method of the client may throw and reads or writes some state, so it is an
    [M S A]: a function from the state to a result and the state left behind.
    What an aborted computation leaves behind is visible too: it is what a
    [catch] or a rollback sees. *)

From S2P Require Import Prelude JsString Json JsMap.

(** ** Errors

    One constructor per error class of [apps/cli/src]; [ErrOther] is any error
    the code does not give a class of its own ([Error], [ZodError], [TypeError],
    [SyntaxError], an error of the native module). *)
Record relay_error := RelayError {
  re_code : jstr;
  re_retryable : bool;
  re_httpStatus : option Z;
  re_remoteCode : option jstr;
}.
#[export] Instance relay_error_eq_dec : EqDecision relay_error.
Proof. solve_decision. Defined.

Inductive err : Type :=
  | ErrPersistence
  | ErrProfile (message : jstr)
  | ErrConfiguration (message : jstr)
  | ErrInbound (code : jstr)
  | ErrOutbound (code message : jstr)
  | ErrRelay (e : relay_error)
  | ErrCli (code : jstr) (exitCode : Z)
  | ErrOther (message : jstr).
#[export] Instance err_eq_dec : EqDecision err.
Proof. solve_decision. Defined.

(** ** The monad *)

Definition M (S A : Type) : Type := S -> res err A * S.

Section monad.
Context {S : Type}.

Definition ret {A} (a : A) : M S A := fun s => (Ok a, s).
Definition throw {A} (e : err) : M S A := fun s => (Err e, s).
Definition bind {A B} (m : M S A) (f : A -> M S B) : M S B :=
  fun s => let '(r, s') := m s in
           match r with Ok a => f a s' | Err e => (Err e, s') end.
Definition catch {A} (m : M S A) (h : err -> M S A) : M S A :=
  fun s => let '(r, s') := m s in
           match r with Ok a => (Ok a, s') | Err e => h e s' end.
Definition gets {A} (f : S -> A) : M S A := fun s => (Ok (f s), s).
Definition modify (f : S -> S) : M S unit := fun s => (Ok tt, f s).
Definition lift {A} (r : res err A) : M S A := fun s => (r, s).
Definition when (b : bool) (m : M S unit) : M S unit := if b then m else ret tt.
Definition fail (message : jstr) {A} : M S A := throw (ErrOther message).
Definition from_option {A} (message : jstr) (o : option A) : M S A :=
  match o with Some a => ret a | None => fail message end.

Fixpoint mapM {A B} (f : A -> M S B) (l : list A) : M S (list B) :=
  match l with
  | [] => ret []
  | x :: l => bind (f x) (fun y => bind (mapM f l) (fun ys => ret (y :: ys)))
  end.
Fixpoint forM {A} (l : list A) (f : A -> M S unit) : M S unit :=
  match l with
  | [] => ret tt
  | x :: l => bind (f x) (fun _ => forM l f)
  end.

(** *** Reasoning: the outcome of a run *)

Definition wp {A} (m : M S A) (Q : res err A -> S -> Prop) (s : S) : Prop :=
  Q (m s).1 (m s).2.

Lemma wp_run {A} (m : M S A) Q s r s' : wp m Q s -> m s = (r, s') -> Q r s'.
Proof. unfold wp. intros H E. by rewrite E in H. Qed.
Lemma wp_ret {A} (a : A) Q s : Q (Ok a) s -> wp (ret a) Q s.
Proof. done. Qed.
Lemma wp_throw {A} e (Q : res err A -> S -> Prop) s : Q (Err e) s -> wp (throw e) Q s.
Proof. done. Qed.
Lemma wp_bind {A B} (m : M S A) (f : A -> M S B) Q s :
  wp m (fun r s' => match r with Ok a => wp (f a) Q s' | Err e => Q (Err e) s' end) s ->
  wp (bind m f) Q s.
Proof. unfold wp, bind. destruct (m s) as [[a|e] s']; done. Qed.
Lemma wp_catch {A} (m : M S A) h Q s :
  wp m (fun r s' => match r with Ok a => Q (Ok a) s' | Err e => wp (h e) Q s' end) s ->
  wp (catch m h) Q s.
Proof. unfold wp, catch. destruct (m s) as [[a|e] s']; done. Qed.
Lemma wp_mono {A} (m : M S A) (Q Q' : res err A -> S -> Prop) s :
  wp m Q s -> (forall r s', Q r s' -> Q' r s') -> wp m Q' s.
Proof. unfold wp. auto. Qed.

(** *** Reasoning: what a computation may do to the state

    [preserves R m]: whatever [m] answers, the state it leaves is related by
    [R] to the one it started from. *)
Section preserves.
Context (R : S -> S -> Prop).
Definition preserves {A} (m : M S A) : Prop := forall s, R s (m s).2.

Context `{!PreOrder R}.
Lemma preserves_ret {A} (a : A) : preserves (ret a).
Proof. intros s. reflexivity. Qed.
Lemma preserves_throw {A} e : preserves (@throw A e).
Proof. intros s. reflexivity. Qed.
Lemma preserves_lift {A} (r : res err A) : preserves (lift r).
Proof. intros s. reflexivity. Qed.
Lemma preserves_gets {A} (f : S -> A) : preserves (gets f).
Proof. intros s. reflexivity. Qed.
Lemma preserves_from_option {A} msg (o : option A) : preserves (from_option msg o).
Proof. intros s. destruct o; reflexivity. Qed.
Lemma preserves_bind {A B} (m : M S A) (f : A -> M S B) :
  preserves m -> (forall a, preserves (f a)) -> preserves (bind m f).
Proof.
  intros Hm Hf s. unfold bind. specialize (Hm s). destruct (m s) as [[a|e] s']; [|done].
  cbn in Hm. etrans; [exact Hm|apply Hf].
Qed.
Lemma preserves_catch {A} (m : M S A) h :
  preserves m -> (forall e, preserves (h e)) -> preserves (catch m h).
Proof.
  intros Hm Hh s. unfold catch. specialize (Hm s). destruct (m s) as [[a|e] s']; [done|].
  cbn in Hm. etrans; [exact Hm|apply Hh].
Qed.
Lemma preserves_when b m : preserves m -> preserves (when b m).
Proof. destruct b; [done|]. intros _. apply preserves_ret. Qed.
Lemma preserves_mapM {A B} (f : A -> M S B) l :
  (forall a, preserves (f a)) -> preserves (mapM f l).
Proof.
  intros Hf. induction l as [|x l IH]; [apply preserves_ret|].
  apply preserves_bind; [apply Hf|]. intros y. apply preserves_bind; [done|].
  intros ys. apply preserves_ret.
Qed.
Lemma preserves_forM {A} (f : A -> M S unit) l :
  (forall a, preserves (f a)) -> preserves (forM l f).
Proof.
  intros Hf. induction l as [|x l IH]; [apply preserves_ret|].
  apply preserves_bind; [apply Hf|]. done.
Qed.
End preserves.
End monad.

Declare Scope monad_scope.
Delimit Scope monad_scope with monad.
Notation "x <- m ; k" := (bind m (fun x => k))
  (at level 100, m at next level, right associativity) : monad_scope.
Notation "' p <- m ; k" := (bind m (fun x => match x with p => k end))
  (at level 100, p pattern, m at next level, right associativity) : monad_scope.
Notation "m ;; k" := (bind m (fun _ => k))
  (at level 100, right associativity) : monad_scope.
Open Scope monad_scope.

(** Case analysis on every branch of a computation for [preserves]. *)
Ltac preserves_step :=
  match goal with
  | |- preserves _ (ret _) => apply preserves_ret; try apply _
  | |- preserves _ (throw _) => apply preserves_throw; try apply _
  | |- preserves _ (fail _) => apply preserves_throw; try apply _
  | |- preserves _ (lift _) => apply preserves_lift; try apply _
  | |- preserves _ (gets _) => apply preserves_gets; try apply _
  | |- preserves _ (from_option _ _) => apply preserves_from_option; try apply _
  | |- preserves _ (when _ _) => apply preserves_when; [try apply _|]
  | |- preserves _ (bind _ _) => apply preserves_bind; [try apply _| |intros ?]
  | |- preserves _ (catch _ _) => apply preserves_catch; [try apply _| |intros ?]
  | |- preserves _ (mapM _ _) => apply preserves_mapM; [try apply _|intros ?]
  | |- preserves _ (forM _ _) => apply preserves_forM; [try apply _|intros ?]
  | |- preserves _ (match ?x with _ => _ end) => destruct x
  | |- preserves _ (let '(_, _) := ?x in _) => destruct x
  end.
Ltac solve_preserves_with tac :=
  repeat first [ progress intros | tac tt | preserves_step | solve [eauto 2 with echolet] ].
Ltac solve_preserves := solve_preserves_with ltac:(fun _ => fail).

(** Running the binds of a hypothesis [m s = (r, s')] one by one. *)
Lemma bind_ok {S A B} (m : M S A) (f : A -> M S B) s b s'' :
  bind m f s = (Ok b, s'') -> exists a s', m s = (Ok a, s') /\ f a s' = (Ok b, s'').
Proof. unfold bind. destruct (m s) as [[a|e] s'] eqn:E; [eauto|done]. Qed.

Lemma bind_run {S A B} (m : M S A) (f : A -> M S B) s a s' : m s = (Ok a, s') -> bind m f s = f a s'.
Proof. unfold bind. by intros ->. Qed.
Lemma bind_fails {S A B} (m : M S A) (f : A -> M S B) s e s' : m s = (Err e, s') -> bind m f s = (Err e, s').
Proof. unfold bind. by intros ->. Qed.

(** A loop over readers reads every element. *)
Lemma mapM_read {S A B} (f : A -> M S B) l l' s :
  Forall2 (fun x y => f x s = (Ok y, s)) l l' -> mapM f l s = (Ok l', s).
Proof.
  induction 1 as [|x y l l' Hx Hl IH]; [done|]. cbn [mapM]. unfold bind. rewrite Hx, IH. done.
Qed.
