(* ===== verification/Platform.v ===== *)
(** * The platform and the third-party code, as parameters

    Nothing here is a definition: each class lists the functions of Node, of
    tweetnacl, of bip39, of uuid that the client calls, and a second class the
    documented behaviour some theorems rely on. *)

From S2P Require Import Prelude JsString Base64Url.

(** Pure cryptography.  [None] stands for a thrown error (a key or a signature of
    the wrong size). *)
Class Crypto := {
  sha256 : bytes -> bytes;
  hmac_sha256 : bytes -> bytes -> bytes;
  mnemonicToSeedSync : jstr -> bytes;
  sign_detached : bytes -> bytes -> option bytes;
  sign_detached_verify : bytes -> bytes -> bytes -> option bool;
  sign_keyPair_fromSeed : bytes -> option (bytes * bytes);
  box_keyPair_fromSecretKey : bytes -> option (bytes * bytes);
  uuidv5_URL : jstr -> jstr;
}.

(** tweetnacl and SHA-256, as documented. *)
Class CryptoLaws `{Crypto} := {
  sha256_bytes : forall m, Forall byte_range (sha256 m) /\ length (sha256 m) = 32%nat;
  sign_bytes : forall m sk sig, sign_detached m sk = Some sig -> Forall byte_range sig;
  keyPair_bytes : forall seed pk sk, sign_keyPair_fromSeed seed = Some (pk, sk) ->
    Forall byte_range pk /\ Forall byte_range sk;
  sign_verifies : forall seed pk sk m sig,
    sign_keyPair_fromSeed seed = Some (pk, sk) -> sign_detached m sk = Some sig ->
    sign_detached_verify m sig pk = Some true;
}.

(** What depends on the moment: the clock, random values, fresh identifiers, and
    whether the file system lets a transaction begin, commit and roll back.  [W]
    is the state of all that. *)
Class World (W : Type) := {
  date_now : W -> Z * W;
  randomUUID : W -> jstr * W;
  randomBytes : nat -> W -> bytes * W;
  randomInt : Z -> Z -> W -> Z * W;
  generateMnemonic : W -> jstr * W;
  io_begin : W -> bool * W;
  io_commit : W -> bool * W;
  io_rollback : W -> bool * W;
}.

(** ** A toy instance, for the witnesses: it satisfies the laws and computes. *)
Module Toy.
Definition byte (z : Z) : Z := z mod 256.
Definition pad (n : nat) (m : bytes) : bytes := take n (map byte m ++ replicate n 0).
#[export] Instance crypto : Crypto := {|
  sha256 := pad 32;
  hmac_sha256 k d := map byte (rev k ++ d);
  mnemonicToSeedSync s := s;
  sign_detached m sk := Some (pad 64 (sk ++ m));
  sign_detached_verify m sig pk := Some (eqb sig (pad 64 (pk ++ m)));
  sign_keyPair_fromSeed s := Some (pad 32 s, pad 32 s);
  box_keyPair_fromSecretKey s := Some (pad 32 s, pad 32 s);
  uuidv5_URL _ := js "110a486a-e330-43dd-8383-b1aa8b1cc353";
|}.
Lemma byte_bytes l : Forall byte_range (map byte l).
Proof. apply Forall_map, Forall_forall. intros x _. unfold byte_range, byte. lia. Qed.
Lemma pad_bytes n m : Forall byte_range (pad n m).
Proof.
  apply Forall_take, Forall_app. split; [apply byte_bytes|].
  apply Forall_replicate. unfold byte_range. lia.
Qed.
Lemma pad_length n m : length (pad n m) = n.
Proof. unfold pad. rewrite length_take, length_app, length_map, length_replicate. lia. Qed.
#[export] Instance crypto_laws : CryptoLaws.
Proof.
  split; cbn [sha256 sign_detached sign_detached_verify sign_keyPair_fromSeed crypto].
  - intros m. split; [apply pad_bytes|apply pad_length].
  - intros m sk sig [= <-]. apply pad_bytes.
  - intros s pk sk [= <- <-]. split; apply pad_bytes.
  - intros s pk sk m sig [= <- <-] [= <-]. by rewrite eqb_refl.
Qed.

(** The clock stands still at [now]; identifiers come from a counter. *)
Definition world : Type := Z.
Definition uuid (n : Z) : jstr := js "00000000-0000-4000-8000-" ++ pad_start 12 48 (show_Z n).
Definition now : Z := 1500.
#[export] Instance world_ops : World world := {|
  date_now w := (now, w);
  randomUUID w := (uuid w, w + 1);
  randomBytes n w := (replicate n (byte w), w + 1);
  randomInt lo hi w := (lo, w + 1);
  generateMnemonic w := (js "seed" ++ show_Z w, w + 1);
  io_begin w := (true, w);
  io_commit w := (true, w);
  io_rollback w := (true, w);
|}.
End Toy.
