(* ===== verification/Transcripts.v ===== *)
(** * Signed statements: [packages/crypto-core/src/mailbox], [signatures],
    [identity], and [packages/client-core/src/identity]

    The strings a device signs for the relay, canonical JSON, and the keys
    derived from a profile's seed. *)

From S2P Require Import Prelude JsString Json Zod Base64Url Protocol Platform.

(** ** mailbox/auth.ts: the transcripts *)

Definition colon : jstr := js ":".

Definition createMailboxChallengeMessage (challengeId recipientMailboxId deviceId nonce : jstr)
    (readThrough : option jstr) : jstr :=
  match readThrough with
  | None => js "echolet-mailbox-challenge:v1:" ++ challengeId ++ colon ++ recipientMailboxId
            ++ colon ++ deviceId ++ colon ++ nonce
  | Some r => js "echolet-mailbox-challenge:v2:" ++ challengeId ++ colon ++ recipientMailboxId
              ++ colon ++ deviceId ++ colon ++ nonce ++ colon ++ r
  end.
Definition createMailboxCreateChallengeMessage (recipientMailboxId deviceId : jstr) : jstr :=
  js "echolet-mailbox-create-challenge:v1:" ++ recipientMailboxId ++ colon ++ deviceId.
Definition createMailboxAckMessage (recipientMailboxId deviceId : jstr) (envelopeIds : list jstr)
    (readThrough : option jstr) : jstr :=
  let normalizedEnvelopeIds := join (js ",") (jsort envelopeIds) in
  match readThrough with
  | None => js "echolet-mailbox-ack:v1:" ++ recipientMailboxId ++ colon ++ deviceId ++ colon
            ++ normalizedEnvelopeIds
  | Some r => js "echolet-mailbox-ack:v2:" ++ recipientMailboxId ++ colon ++ deviceId ++ colon
              ++ normalizedEnvelopeIds ++ colon ++ r
  end.
Definition createMailboxEnvelopeMessage (recipientMailboxId envelopeId senderIdentityId
    senderDeviceId ciphertextDigest : jstr) (createdAtMs expiresAtMs : Z) : jstr :=
  js "echolet-mailbox-envelope:v1:" ++ recipientMailboxId ++ colon ++ envelopeId ++ colon
  ++ senderIdentityId ++ colon ++ senderDeviceId ++ colon ++ ciphertextDigest ++ colon
  ++ show_Z createdAtMs ++ colon ++ show_Z expiresAtMs.

(** ** signatures/canonicalJson.ts *)

(** [Object.keys] with the values; [None] for a value that is no object. *)
Definition entries (v : json) : option (list (jstr * json)) :=
  match v with
  | JObj l => Some l
  | JArr l => Some (imap (fun i v => (show_Z (Z.of_nat i), v)) l)
  | _ => None
  end.
(** Assigning [result.__proto__] sets the prototype and adds no property. *)
Definition canonicalJson (obj : json) : jstr :=
  match entries obj with
  | None => stringify obj
  | Some l =>
      let add result key :=
        if eqb key (js "signature") || eqb key (js "__proto__") then result
        else obj_set key (default_to JNull (obj_get key l)) result in
      stringify (JObj (fold_left add (jsort l.*1) []))
  end.

Section signing.
Context `{Crypto}.

(** ** signatures/sign.ts *)

(** A key is given as bytes or as base64url text. *)
Definition key_input : Type := bytes + jstr.
Definition normalizeKeyBytes (key : key_input) : option bytes :=
  match key with inl b => Some b | inr s => decodeBase64Url s end.

(** [None] stands for the thrown error. *)
Definition signUtf8Message (message : jstr) (secretKey : key_input) : option jstr :=
  match normalizeKeyBytes secretKey with
  | None => None
  | Some key => match sign_detached (utf8_encode message) key with
                | Some signature => Some (encodeBase64Url signature)
                | None => None
                end
  end.
Definition verifyUtf8Message (message signatureBase64Url : jstr) (publicKey : key_input) : option bool :=
  match decodeBase64Url signatureBase64Url, normalizeKeyBytes publicKey with
  | Some signature, Some key => sign_detached_verify (utf8_encode message) signature key
  | _, _ => None
  end.
Definition signCanonicalJson (obj : json) (secretKey : bytes) : option jstr :=
  signUtf8Message (canonicalJson obj) (inl secretKey).
Definition verifyCanonicalJson (obj : json) (signatureBase64Url : jstr) (publicKey : bytes) : option bool :=
  verifyUtf8Message (canonicalJson obj) signatureBase64Url (inl publicKey).

(** ** mailbox/auth.ts: signing and verifying the transcripts *)

Definition signMailboxChallengeMessage (challengeId recipientMailboxId deviceId nonce secret : jstr) :=
  signUtf8Message (createMailboxChallengeMessage challengeId recipientMailboxId deviceId nonce None) (inr secret).
Definition signMailboxCreateChallengeMessage (recipientMailboxId deviceId secret : jstr) :=
  signUtf8Message (createMailboxCreateChallengeMessage recipientMailboxId deviceId) (inr secret).
Definition verifyMailboxChallengeMessage (challengeId recipientMailboxId deviceId nonce signature public : jstr) :=
  verifyUtf8Message (createMailboxChallengeMessage challengeId recipientMailboxId deviceId nonce None) signature (inr public).
Definition verifyMailboxCreateChallengeMessage (recipientMailboxId deviceId signature public : jstr) :=
  verifyUtf8Message (createMailboxCreateChallengeMessage recipientMailboxId deviceId) signature (inr public).
Definition signMailboxAckMessage (recipientMailboxId deviceId : jstr) (envelopeIds : list jstr) (secret : jstr) :=
  signUtf8Message (createMailboxAckMessage recipientMailboxId deviceId envelopeIds None) (inr secret).
Definition verifyMailboxAckMessage (recipientMailboxId deviceId : jstr) (envelopeIds : list jstr) (signature public : jstr) :=
  verifyUtf8Message (createMailboxAckMessage recipientMailboxId deviceId envelopeIds None) signature (inr public).
Definition hashMailboxEnvelopeCiphertext (ciphertext : jstr) : jstr :=
  encodeBase64Url (sha256 (utf8_encode ciphertext)).
Definition signMailboxEnvelopeMessage (recipientMailboxId envelopeId senderIdentityId senderDeviceId
    ciphertextDigest : jstr) (createdAtMs expiresAtMs : Z) (secret : key_input) :=
  signUtf8Message (createMailboxEnvelopeMessage recipientMailboxId envelopeId senderIdentityId
    senderDeviceId ciphertextDigest createdAtMs expiresAtMs) secret.
Definition verifyMailboxEnvelopeMessage (recipientMailboxId envelopeId senderIdentityId senderDeviceId
    ciphertextDigest : jstr) (createdAtMs expiresAtMs : Z) (signature : jstr) (public : key_input) :=
  verifyUtf8Message (createMailboxEnvelopeMessage recipientMailboxId envelopeId senderIdentityId
    senderDeviceId ciphertextDigest createdAtMs expiresAtMs) signature public.

(** ** mailbox/deriveMailboxId.ts *)
Definition deriveMailboxId (identityPubKey : jstr) : jstr :=
  encodeBase64Url (sha256 (utf8_encode (identityPubKey ++ js ":mailbox:v1"))).

(** ** identity/generateKeyPair.ts *)

Definition deriveSeedBytes (seed namespace : jstr) : bytes :=
  take 32 (hmac_sha256 (mnemonicToSeedSync seed) (utf8_encode (js "echolet:" ++ namespace ++ js ":v1"))).
Definition encode_pair (p : option (bytes * bytes)) : option (jstr * jstr) :=
  match p with
  | Some (public, secret) => Some (encodeBase64Url public, encodeBase64Url secret)
  | None => None
  end.
Definition deriveKeyPairFromSeed (seed namespace : jstr) : option (jstr * jstr) :=
  encode_pair (sign_keyPair_fromSeed (deriveSeedBytes seed namespace)).
Definition deriveSessionKeyPairFromSeed (seed namespace : jstr) : option (jstr * jstr) :=
  encode_pair (box_keyPair_fromSecretKey (deriveSeedBytes seed (js "session:" ++ namespace))).

(** ** client-core/src/identity *)

(** [s.slice(-4, -2)]. *)
Definition slice_m4_m2 (s : jstr) : jstr :=
  let n := length s in take ((n - 2) - (n - 4)) (drop (n - 4) s).
Definition generateCallsign (identityPubKey suffix : jstr) : jstr :=
  js "AD-" ++ slice_m4_m2 identityPubKey ++ js "-" ++ (if eqb suffix [] then js "GEN" else suffix).

Record IdentityProfile := {
  identityId : jstr; identityPubKey : jstr; identitySecretKey : jstr;
  deviceUuid : jstr; devicePubKey : jstr; deviceSecretKey : jstr;
  sessionPubKey : jstr; sessionSecretKey : jstr;
  callsign : jstr; seed : jstr;
}.
(** With an explicit seed; the code draws one from bip39 otherwise. *)
Definition createIdentityProfile (the_seed deviceLabel suffix : jstr) : option IdentityProfile :=
  match deriveKeyPairFromSeed the_seed (js "identity"),
        deriveKeyPairFromSeed the_seed (js "device:" ++ deviceLabel),
        deriveSessionKeyPairFromSeed the_seed (js "device:" ++ deviceLabel) with
  | Some (ip, isk), Some (dp, dsk), Some (sp, ssk) =>
      Some {| identityId := ip; identityPubKey := ip; identitySecretKey := isk;
              deviceUuid := uuidv5_URL (the_seed ++ colon ++ deviceLabel);
              devicePubKey := dp; deviceSecretKey := dsk;
              sessionPubKey := sp; sessionSecretKey := ssk;
              callsign := generateCallsign ip suffix; seed := the_seed |}
  | _, _, _ => None
  end.

Definition device_record (identity_id device_id device_pubkey : jstr) (label : option jstr) (now : Z)
  : list (jstr * json) :=
  [ (js "type", JStr (js "device_record")); (js "version", JNum 1);
    (js "identity_id", JStr identity_id); (js "device_id", JStr device_id);
    (js "device_pubkey", JStr device_pubkey) ]
  ++ match label with Some l => [(js "device_label", JStr l)] | None => [] end
  ++ [ (js "capabilities", JObj [ (js "mailbox_poll", JBool true); (js "receipts", JBool true);
                                  (js "attachments", JBool false) ]);
       (js "created_at_ms", JNum now) ].
Definition createSignedDeviceRecord (identity_id device_id device_pubkey identity_secret : jstr)
    (label : option jstr) (now : Z) : option json :=
  let record := device_record identity_id device_id device_pubkey label now in
  match decodeBase64Url identity_secret with
  | None => None
  | Some key => match signCanonicalJson (JObj record) key with
                | Some signature => Some (JObj (record ++ [(js "signature", JStr signature)]))
                | None => None
                end
  end.

Fixpoint one_time_prekeys (the_seed : jstr) (index : nat) (count : nat) : option (list json) :=
  match count with
  | O => Some []
  | S count =>
      let keyId := js "otk-" ++ pad_start 3 48 (show_Z (Z.of_nat index + 1)) in
      match deriveSessionKeyPairFromSeed the_seed keyId, one_time_prekeys the_seed (S index) count with
      | Some (public, _), Some rest =>
          Some (JObj [(js "key_id", JStr keyId); (js "public_key", JStr public)] :: rest)
      | _, _ => None
      end
  end.
Definition createSignedPreKeyBundle (profile : IdentityProfile) (oneTimePreKeyCount : nat)
    (createdAtMs : Z) (bundle_id : jstr) : option json :=
  let signedPreKey signature := JObj
    [ (js "key_id", JStr (js "spk-001")); (js "public_key", JStr (sessionPubKey profile));
      (js "created_at_ms", JNum createdAtMs);
      (js "expires_at_ms", JNum (createdAtMs + 7 * 24 * 60 * 60 * 1000));
      (js "signature", JStr signature) ] in
  match decodeBase64Url (deviceSecretKey profile), decodeBase64Url (identitySecretKey profile) with
  | Some deviceKey, Some identityKey =>
      match signCanonicalJson (signedPreKey []) deviceKey,
            one_time_prekeys (seed profile) 0 oneTimePreKeyCount with
      | Some prekeySignature, Some oneTimePreKeys =>
          let bundle signature := JObj
            [ (js "type", JStr (js "prekey_bundle")); (js "version", JNum 1);
              (js "bundle_id", JStr bundle_id); (js "identity_id", JStr (identityId profile));
              (js "device_id", JStr (deviceUuid profile));
              (js "device_pubkey", JStr (devicePubKey profile));
              (js "signed_prekey", signedPreKey prekeySignature);
              (js "one_time_prekeys", JArr oneTimePreKeys);
              (js "created_at_ms", JNum createdAtMs); (js "signature", JStr signature) ] in
          match signCanonicalJson (bundle []) identityKey with
          | Some signature => Some (bundle signature)
          | None => None
          end
      | _, _ => None
      end
  | _, _ => None
  end.

End signing.

(** ** Lemmas: the transcripts as fields *)

(** Everything a device may be asked to sign for the relay. *)
Inductive statement : Type :=
  | Challenge (challengeId mailbox device nonce : jstr) (readThrough : option jstr)
  | CreateChallenge (mailbox device : jstr)
  | Ack (mailbox device : jstr) (envelopeIds : list jstr) (readThrough : option jstr)
  | Envelope (mailbox envelopeId sender senderDevice digest : jstr) (createdAt expiresAt : Z).

Definition transcript (s : statement) : jstr :=
  match s with
  | Challenge c m d n r => createMailboxChallengeMessage c m d n r
  | CreateChallenge m d => createMailboxCreateChallengeMessage m d
  | Ack m d ids r => createMailboxAckMessage m d ids r
  | Envelope m e i d h c x => createMailboxEnvelopeMessage m e i d h c x
  end.

Definition parts (s : statement) : list jstr :=
  match s with
  | Challenge c m d n None => [js "echolet-mailbox-challenge"; js "v1"; c; m; d; n]
  | Challenge c m d n (Some r) => [js "echolet-mailbox-challenge"; js "v2"; c; m; d; n; r]
  | CreateChallenge m d => [js "echolet-mailbox-create-challenge"; js "v1"; m; d]
  | Ack m d ids None => [js "echolet-mailbox-ack"; js "v1"; m; d; join (js ",") (jsort ids)]
  | Ack m d ids (Some r) => [js "echolet-mailbox-ack"; js "v2"; m; d; join (js ",") (jsort ids); r]
  | Envelope m e i d h c x =>
      [js "echolet-mailbox-envelope"; js "v1"; m; e; i; d; h; show_Z c; show_Z x]
  end.
Lemma transcript_parts s : transcript s = join [58] (parts s).
Proof. destruct s as [? ? ? ? []| |? ? ? []|]; reflexivity. Qed.

(** Fields the relay's identifiers satisfy: no separator inside. *)
Definition field_ok (s : jstr) : Prop := 58 ∉ s.
Definition id_ok (s : jstr) : Prop := s <> [] /\ (58 ∉ s) /\ (44 ∉ s).
Definition statement_ok (s : statement) : Prop :=
  match s with
  | Challenge c m d n r => field_ok c /\ field_ok m /\ field_ok d /\ field_ok n /\ (forall x, r = Some x -> field_ok x)
  | CreateChallenge m d => field_ok m /\ field_ok d
  | Ack m d ids r => field_ok m /\ field_ok d /\ Forall id_ok ids /\ (forall x, r = Some x -> field_ok x)
  | Envelope m e i d h _ _ => field_ok m /\ field_ok e /\ field_ok i /\ field_ok d /\ field_ok h
  end.

(** The same statement, up to the order of the acknowledged ids. *)
Definition same_statement (a b : statement) : Prop :=
  match a, b with
  | Ack m d ids r, Ack m' d' ids' r' => m = m' /\ d = d' /\ r = r' /\ Permutation ids ids'
  | _, _ => a = b
  end.

Lemma not_elem_of_join c sep l :
  c ∉ sep -> Forall (fun x => c ∉ x) l -> c ∉ join sep l.
Proof.
  intros Hs H. induction H as [|x l Hx Hl IH]; [apply not_elem_of_nil|].
  destruct l as [|y l]; [done|].
  change (c ∉ x ++ sep ++ join sep (y :: l)). rewrite !not_elem_of_app. auto.
Qed.

Lemma jsort_ids ids : Forall id_ok ids -> Forall id_ok (jsort ids).
Proof. intros H. by rewrite (jsort_perm ids). Qed.

Lemma joined_ids_ok ids : Forall id_ok ids -> field_ok (join (js ",") (jsort ids)).
Proof.
  intros H%jsort_ids. apply (not_elem_of_join 58 [44]); [apply not_elem_of_cons; split; [done|apply not_elem_of_nil]|].
  eapply Forall_impl; [exact H|]. by intros x (_ & ? & _).
Qed.
Lemma joined_ids_inj ids ids' :
  Forall id_ok ids -> Forall id_ok ids' ->
  join (js ",") (jsort ids) = join (js ",") (jsort ids') -> Permutation ids ids'.
Proof.
  intros H%jsort_ids H'%jsort_ids E. rewrite <- (jsort_perm ids), <- (jsort_perm ids').
  revert H H' E. generalize (jsort ids) (jsort ids'). clear. intros l l' H H' E.
  assert (forall l, Forall id_ok l -> Forall (fun x => 44 ∉ x) l) as Hc.
  { intros k Hk. eapply Forall_impl; [exact Hk|]. by intros x (_ & _ & ?). }
  assert (forall l, Forall id_ok l -> l <> [] -> join [44] l <> []) as Hne.
  { intros [|x [|y k]]; [done| |]; intros (? & ? & ?)%Forall_cons_1 || intros Hx; intros _.
    - apply Forall_cons in Hx as [(? & _) _]. done.
    - apply Forall_cons in Hx as [(? & _) _]. by destruct x. }
  change (js ",") with [44] in E.
  destruct (decide (l = [])) as [->|Hl], (decide (l' = [])) as [->|Hl']; [done| | |].
  - symmetry in E. by apply Hne in E.
  - by apply Hne in E.
  - apply (f_equal (split_on 44)) in E. rewrite !split_join in E by auto. by rewrite E.
Qed.

Lemma literal_ok (s : jstr) : bool_decide (58 ∉ s) = true -> 58 ∉ s.
Proof. apply bool_decide_eq_true_1. Qed.
Lemma id_literal s :
  negb (eqb s []) && bool_decide (58 ∉ s) && bool_decide (44 ∉ s) = true -> id_ok s.
Proof.
  rewrite !andb_true_iff, negb_true_iff, eqb_neq, !bool_decide_eq_true. unfold id_ok. tauto.
Qed.
Lemma show_Z_no_colon z : 58 ∉ show_Z z.
Proof. by apply show_Z_fresh. Qed.

Ltac one_part := first [ assumption | apply show_Z_no_colon | by apply joined_ids_ok
                       | by eauto | apply literal_ok; vm_compute; reflexivity ].
Lemma parts_ok s : statement_ok s -> Forall (fun x => 58 ∉ x) (parts s).
Proof.
  intros Hs. destruct s as [c m d n [r|]|m d|m d ids [r|]|m e i d h c x]; cbn [parts statement_ok] in *;
    unfold field_ok in *; destruct_and?; repeat (apply Forall_cons_2; [one_part|]); apply List.Forall_nil.
Qed.

(** Reading a transcript back into its fields. *)
Lemma transcript_split s : statement_ok s -> split_on 58 (transcript s) = parts s.
Proof.
  intros Hs. rewrite transcript_parts. apply split_join; [by destruct s as [????[]| |???[]|]|].
  by apply parts_ok.
Qed.

Lemma parts_inj a b :
  statement_ok a -> statement_ok b -> parts a = parts b -> same_statement a b.
Proof.
  intros Ha Hb E.
  destruct a as [c m d n [r|]|m d|m d ids [r|]|m e i d h c x],
    b as [c' m' d' n' [r'|]|m' d'|m' d' ids' [r'|]|m' e' i' d' h' c' x'];
    cbn [parts] in E; try discriminate E; injection E; clear E; intros; subst;
    try (match goal with H : js _ = js _ |- _ => vm_compute in H; discriminate H end);
    cbn [same_statement]; try done;
    try (cbn in Ha, Hb; split; [done|]; split; [done|]; split; [done|];
         apply joined_ids_inj; [tauto|tauto|done]).
  f_equal; by apply show_Z_inj.
Qed.

(** Sorting makes the acknowledged ids a set with repetitions. *)
Lemma ack_order ids ids' m d r :
  Permutation ids ids' -> createMailboxAckMessage m d ids r = createMailboxAckMessage m d ids' r.
Proof. intros Hp. unfold createMailboxAckMessage. by rewrite (jsort_permutation ids ids' Hp). Qed.

(** ** Lemmas: canonical JSON *)

Definition signed_key (k : jstr) : bool := negb (eqb k (js "signature") || eqb k (js "__proto__")).
Definition canonical_members (l : list (jstr * json)) : list (jstr * json) :=
  map (fun k => (k, default_to JNull (obj_get k l))) (filter (fun k => signed_key k = true) (jsort l.*1)).

Lemma canonical_fold l ks acc :
  NoDup (acc.*1 ++ ks) -> Forall (fun k => is_index k = false) ks ->
  fold_left (fun result key =>
    if eqb key (js "signature") || eqb key (js "__proto__") then result
    else obj_set key (default_to JNull (obj_get key l)) result) ks acc
  = acc ++ map (fun k => (k, default_to JNull (obj_get k l))) (filter (fun k => signed_key k = true) ks).
Proof.
  revert acc. induction ks as [|k ks IH]; intros acc Hn Hi; cbn [fold_left].
  { by rewrite app_nil_r. }
  apply Forall_cons in Hi as [Hk Hi].
  assert (NoDup (acc.*1 ++ ks)) as Hn'.
  { apply NoDup_app in Hn as (? & H & [_ ?]%NoDup_cons). apply NoDup_app. split; [done|]. split; [|done].
    intros x Hx Hx'. apply (H x Hx). by right. }
  destruct (eqb k (js "signature") || eqb k (js "__proto__")) eqn:E.
  - rewrite filter_cons_False by (unfold signed_key; by rewrite E). by apply IH.
  - rewrite filter_cons_True by (unfold signed_key; by rewrite E). cbn [map].
    rewrite obj_set_fresh; [|intros Hx; apply NoDup_app in Hn as (_ & H & _); apply (H k Hx); by left|done].
    rewrite IH; [by rewrite <- app_assoc| |done].
    rewrite fmap_app. cbn [fmap list_fmap fst]. by rewrite <- app_assoc.
Qed.

Lemma keys_ok_facts l : keys_ok l = true -> NoDup l.*1 /\ Forall (fun k => is_index k = false /\ forallb unit_ok k = true) l.*1.
Proof.
  unfold keys_ok. rewrite andb_true_iff, bool_decide_eq_true. intros [Hn Hk]. split; [done|].
  apply forallb_Forall' in Hk. eapply Forall_impl; [exact Hk|]. cbn. intros k Hx.
  apply andb_true_iff in Hx as [Hx ?]. split; [|done]. by apply negb_true_iff in Hx.
Qed.

Lemma canonicalJson_obj l :
  keys_ok l = true -> canonicalJson (JObj l) = stringify (JObj (canonical_members l)).
Proof.
  intros [Hn Hk]%keys_ok_facts. unfold canonicalJson, canonical_members. cbn [entries].
  rewrite canonical_fold; [done| |].
  - cbn. by rewrite jsort_perm.
  - rewrite jsort_perm. eapply Forall_impl; [exact Hk|]. by intros k [? _].
Qed.

Lemma obj_get_permutation k l l' :
  NoDup l.*1 -> Permutation l l' -> obj_get k l = obj_get k l'.
Proof.
  intros Hn Hp. induction Hp as [|[k1 v1] l l' Hp IH|[k1 v1] [k2 v2] l|l l' l'' H1 IH1 H2 IH2].
  - done.
  - cbn in *. apply NoDup_cons in Hn as [_ Hn]. by rewrite IH.
  - cbn in *. apply NoDup_cons in Hn as [Hn _]. destruct (eqb k2 k) eqn:E2, (eqb k1 k) eqn:E1; try done.
    apply eqb_eq in E1 as ->, E2 as ->. exfalso. apply Hn. by left.
  - rewrite IH1 by done. apply IH2. by rewrite <- H1.
Qed.

(** The order of the properties is not part of what is signed. *)
Lemma canonicalJson_order l l' :
  keys_ok l = true -> Permutation l l' -> canonicalJson (JObj l) = canonicalJson (JObj l').
Proof.
  intros Hk Hp. assert (keys_ok l' = true) as Hk'.
  { unfold keys_ok in *. rewrite andb_true_iff, bool_decide_eq_true in *.
    rewrite forallb_Forall' in *. destruct Hk. rewrite <- Hp. done. }
  rewrite !canonicalJson_obj by done. unfold canonical_members.
  rewrite (jsort_permutation l.*1 l'.*1) by by rewrite Hp. do 2 f_equal.
  apply map_ext. intros k. f_equal. f_equal. apply obj_get_permutation; [|done].
  by apply keys_ok_facts in Hk as [? _].
Qed.

Lemma obj_get_canonical k l :
  signed_key k = true -> obj_get k (canonical_members l) = obj_get k l.
Proof.
  intros Hk. unfold canonical_members.
  assert (forall ks, obj_get k (map (fun k => (k, default_to JNull (obj_get k l))) ks)
    = if bool_decide (k ∈ ks) then Some (default_to JNull (obj_get k l)) else None) as ->.
  { induction ks as [|k' ks IH]; [done|]. cbn. destruct (eqb k' k) eqn:E.
    - apply eqb_eq in E as ->. rewrite bool_decide_eq_true_2 by by left. done.
    - rewrite IH. apply eqb_neq in E.
      by rewrite (bool_decide_ext (k ∈ k' :: ks) (k ∈ ks)) by (rewrite elem_of_cons; naive_solver). }
  case_bool_decide as Hin.
  - rewrite list_elem_of_filter, jsort_perm in Hin. destruct Hin as [_ Hin].
    destruct (obj_get k l) eqn:E; [done|]. exfalso. revert E Hin. clear.
    induction l as [|[k' v] l IH]; cbn; [by intros _ ?%not_elem_of_nil|].
    destruct (eqb k' k) eqn:E; [done|]. apply eqb_neq in E. rewrite elem_of_cons. naive_solver.
  - destruct (obj_get k l) eqn:E; [|done]. exfalso. apply Hin.
    rewrite list_elem_of_filter, jsort_perm. split; [done|]. by eapply obj_get_key.
Qed.

Lemma canonical_members_ok l : json_ok (JObj l) = true -> json_ok (JObj (canonical_members l)) = true.
Proof.
  intros Hl. pose proof Hl as Hl'.
  change (keys_ok l && forallb (fun kv => json_ok kv.2) l = true) in Hl.
  apply andb_true_iff in Hl as [Hk _].
  change (keys_ok (canonical_members l) && forallb (fun kv => json_ok kv.2) (canonical_members l) = true).
  assert ((canonical_members l).*1 = filter (fun k => signed_key k = true) (jsort l.*1)) as E.
  { unfold canonical_members. generalize (filter (fun k => signed_key k = true) (jsort l.*1)).
    intros ks. induction ks as [|k ks IH]; [done|]. cbn. by f_equal. }
  apply andb_true_iff. split.
  - unfold keys_ok in *. rewrite E. rewrite andb_true_iff, bool_decide_eq_true in *. destruct Hk as [Hn Hk].
    split; [apply NoDup_filter; by rewrite jsort_perm|].
    apply forallb_Forall'. apply forallb_Forall' in Hk. apply Forall_forall.
    intros k Hin. rewrite list_elem_of_filter, jsort_perm in Hin. rewrite Forall_forall in Hk. apply Hk. tauto.
  - apply forallb_Forall'. unfold canonical_members. apply Forall_map. apply Forall_forall.
    intros k _. cbn. apply (sub_field_ok k (JObj l) Hl').
Qed.

(** The signature itself is left out of what is signed. *)
Lemma canonicalJson_signature l v :
  keys_ok (l ++ [(js "signature", v)]) = true ->
  canonicalJson (JObj (l ++ [(js "signature", v)])) = canonicalJson (JObj l).
Proof.
  intros Hk. pose proof (keys_ok_facts _ Hk) as [Hn Hf]. rewrite fmap_app in Hn, Hf.
  apply NoDup_app in Hn as (Hn & Hs & _). apply Forall_app in Hf as [Hf _].
  assert (keys_ok l = true) as Hkl.
  { unfold keys_ok. apply andb_true_iff. rewrite bool_decide_eq_true. split; [done|].
    apply forallb_Forall'. eapply Forall_impl; [exact Hf|]. cbn. by intros k [-> ->]. }
  rewrite !canonicalJson_obj by done. do 2 f_equal. unfold canonical_members.
  rewrite fmap_app. cbn [fmap list_fmap fst].
  rewrite (jsort_permutation (l.*1 ++ [js "signature"]) (js "signature" :: l.*1))
    by (symmetry; apply Permutation_cons_append).
  assert (filter (fun k => signed_key k = true) (jsort (js "signature" :: l.*1))
    = filter (fun k => signed_key k = true) (jsort l.*1)) as ->.
  { rewrite !jsort_filter. by rewrite filter_cons_False by by vm_compute. }
  rewrite jsort_filter. apply map_ext_in. intros k Hin. f_equal. f_equal.
  apply list_elem_of_In in Hin. rewrite jsort_perm, list_elem_of_filter in Hin. destruct Hin as [Hk' _].
  clear - Hk'. induction l as [|[k0 v0] l IH]; cbn [obj_get app];
    [|destruct (eqb k0 k); [done|exact IH]].
  destruct (eqb (js "signature") k) eqn:E; [|done]. apply eqb_eq in E as <-. by vm_compute in Hk'.
Qed.

Section laws.
Context `{Crypto} `{!CryptoLaws}.

Lemma verify_sign message sig seed_bytes pk sk :
  sign_keyPair_fromSeed seed_bytes = Some (pk, sk) ->
  signUtf8Message message (inr (encodeBase64Url sk)) = Some sig ->
  verifyUtf8Message message sig (inr (encodeBase64Url pk)) = Some true.
Proof.
  intros Hk Hs. destruct (keyPair_bytes _ _ _ Hk) as [Hp Hsk].
  unfold signUtf8Message, verifyUtf8Message, normalizeKeyBytes in *.
  rewrite decode_encode in Hs by done. rewrite decode_encode by done.
  destruct (sign_detached _ sk) as [s|] eqn:E; [|done]. injection Hs as <-.
  rewrite decode_encode by (by eapply sign_bytes). by eapply sign_verifies.
Qed.

Lemma signed_object_verifies rec l seed_bytes pk sk sig :
  sign_keyPair_fromSeed seed_bytes = Some (pk, sk) ->
  signCanonicalJson (JObj rec) sk = Some sig ->
  keys_ok (rec ++ [(js "signature", JStr sig)]) = true ->
  Permutation (rec ++ [(js "signature", JStr sig)]) l ->
  obj_get (js "signature") l = Some (JStr sig) /\ verifyCanonicalJson (JObj l) sig pk = Some true.
Proof.
  intros Hk E Hkeys Hperm. pose proof (keys_ok_facts _ Hkeys) as [Hn _]. split.
  - rewrite <- (obj_get_permutation _ _ _ Hn Hperm).
    rewrite fmap_app in Hn. apply NoDup_app in Hn as (_ & Hs & _).
    apply obj_get_last. intros Hin. apply (Hs _ Hin). by left.
  - unfold verifyCanonicalJson. rewrite <- (canonicalJson_order _ _ Hkeys Hperm).
    rewrite (canonicalJson_signature _ _ Hkeys).
    unfold signCanonicalJson, signUtf8Message in E. cbn [normalizeKeyBytes] in E.
    destruct (sign_detached _ sk) as [s|] eqn:Es'; [|done]. injection E as <-.
    unfold verifyUtf8Message. rewrite decode_encode by (by eapply sign_bytes).
    by eapply sign_verifies.
Qed.

(** The keys of one seed and label, and the record signed with them. *)
Lemma createIdentityProfile_keys the_seed label suffix p :
  createIdentityProfile the_seed label suffix = Some p ->
  exists ip isk dp dsk,
    sign_keyPair_fromSeed (deriveSeedBytes the_seed (js "identity")) = Some (ip, isk)
    /\ sign_keyPair_fromSeed (deriveSeedBytes the_seed (js "device:" ++ label)) = Some (dp, dsk)
    /\ identityId p = encodeBase64Url ip /\ identitySecretKey p = encodeBase64Url isk
    /\ devicePubKey p = encodeBase64Url dp /\ deviceSecretKey p = encodeBase64Url dsk.
Proof.
  unfold createIdentityProfile, deriveKeyPairFromSeed, encode_pair.
  destruct (sign_keyPair_fromSeed (deriveSeedBytes the_seed (js "identity"))) as [[ip isk]|]; [|done].
  destruct (sign_keyPair_fromSeed (deriveSeedBytes the_seed _)) as [[dp dsk]|]; [|done].
  destruct (deriveSessionKeyPairFromSeed _ _) as [[sp ssk]|]; [|done].
  intros [= <-]. by exists ip, isk, dp, dsk.
Qed.
End laws.

(** ** Properties *)

(** A device record a profile signs is accepted by the check every importer
    makes, whatever order its properties arrive in: the signature of
    [createSignedDeviceRecord] verifies under the identity key for every
    reordering of the record's properties. *)
Theorem device_record_verifies `{Crypto} `{!CryptoLaws} the_seed label suffix p device_id dlabel now record l :
  createIdentityProfile the_seed label suffix = Some p ->
  createSignedDeviceRecord (identityId p) device_id (devicePubKey p) (identitySecretKey p) dlabel now
    = Some record ->
  json_ok record = true -> (exists l0, record = JObj l0 /\ Permutation l0 l) ->
  exists signature key,
    obj_get (js "signature") l = Some (JStr signature)
    /\ decodeBase64Url (identityId p) = Some key
    /\ verifyCanonicalJson (JObj l) signature key = Some true.
Proof.
  intros Hp Hr Hok (l0 & -> & Hperm).
  apply createIdentityProfile_keys in Hp as (ip & isk & dp & dsk & Hk & _ & Ei & Es & _).
  unfold createSignedDeviceRecord in Hr. rewrite Es in Hr.
  destruct (keyPair_bytes _ _ _ Hk) as [Hip Hisk]. rewrite decode_encode in Hr by done.
  revert Hr. generalize (device_record (identityId p) device_id (devicePubKey p) dlabel now).
  generalize dependent (deriveSeedBytes the_seed (js "identity")). intros seed0 Hk rec.
  destruct (signCanonicalJson _ isk) as [sig|] eqn:E; [|done]. intros [= <-].
  exists sig, ip. rewrite Ei, decode_encode by done.
  destruct (signed_object_verifies rec l seed0 ip isk sig Hk E) as [? ?]; [|done|by split_and!].
  change (keys_ok (rec ++ [(js "signature", JStr sig)]) && forallb (fun kv => json_ok kv.2) (rec ++ [(js "signature", JStr sig)]) = true) in Hok.
  by apply andb_true_iff in Hok as [? _].
Qed.

Definition sample_profile : option IdentityProfile :=
  createIdentityProfile (H := Toy.crypto) (js "seed") (js "cli-device") [].
Definition sample_record : json :=
  match sample_profile with
  | Some p => default_to JNull (createSignedDeviceRecord (H := Toy.crypto) (identityId p)
                (js "110a486a-e330-43dd-8383-b1aa8b1cc353") (devicePubKey p) (identitySecretKey p)
                (Some (js "cli-device")) 5)
  | None => JNull
  end.
Lemma device_record_verifies_witness :
  match sample_profile, sample_record with
  | Some p, JObj l =>
      exists signature key,
        obj_get (js "signature") (rev l) = Some (JStr signature)
        /\ decodeBase64Url (identityId p) = Some key
        /\ verifyCanonicalJson (H := Toy.crypto) (JObj (rev l)) signature key = Some true
  | _, _ => False
  end.
Proof.
  destruct sample_profile as [p|] eqn:Ep; [|vm_compute in Ep; discriminate Ep].
  destruct sample_record as [| | | | |l] eqn:Er; try (vm_compute in Er; discriminate Er).
  apply (device_record_verifies (H := Toy.crypto) (H0 := Toy.crypto_laws) (js "seed") (js "cli-device") [] p
           (js "110a486a-e330-43dd-8383-b1aa8b1cc353") (Some (js "cli-device")) 5 (JObj l) (rev l)).
  - exact Ep.
  - unfold sample_record in Er. rewrite Ep in Er.
    destruct (createSignedDeviceRecord _ _ _ _ _ _) as [r|] eqn:E; [|discriminate Er].
    cbn [default_to] in Er. by rewrite Er.
  - rewrite <- Er. vm_compute. reflexivity.
  - exists l. split; [done|]. apply Permutation_rev.
Defined.

(** The transcripts are an unambiguous encoding.  Two statements whose fields
    hold no separator have the same transcript only if they are the same
    statement, up to the order of the ids an acknowledgement names; so a
    signature never passes from one kind, version, read position or field to
    another, and every permutation of an acknowledgement is the same text. *)
Theorem transcripts_injective a b :
  statement_ok a -> statement_ok b -> (transcript a = transcript b <-> same_statement a b).
Proof.
  intros Ha Hb. split.
  - intros E. apply parts_inj; [done|done|]. by rewrite <- !transcript_split, E by done.
  - intros Hs. destruct a, b; cbn [same_statement] in Hs; try discriminate Hs; try (by rewrite Hs).
    destruct Hs as (-> & -> & -> & Hp). by apply ack_order.
Qed.
Lemma transcripts_injective_witness :
  transcript (Ack (js "mb") (js "dev") [js "b"; js "a"] None) <> transcript (Ack (js "mb") (js "dev") [js "a"; js "b"] (Some (js "7"))).
Proof.
  intros E. apply transcripts_injective in E.
  - destruct E as (_ & _ & E & _). discriminate E.
  - split_and!; try (apply literal_ok; vm_compute; reflexivity); [|done].
    repeat apply Forall_cons_2; try apply List.Forall_nil;
      (apply id_literal; vm_compute; reflexivity).
  - split_and!; try (apply literal_ok; vm_compute; reflexivity); cycle 1.
    { intros x [= <-]. apply literal_ok. vm_compute. reflexivity. }
    repeat apply Forall_cons_2; try apply List.Forall_nil;
      (apply id_literal; vm_compute; reflexivity).
Defined.
