(* ===== verification/Store.v ===== *)
(** * The encrypted store: [packages/session-node/src/EncryptedSqliteStore.ts]

    One row of one table holds the whole state: the records as a JSON snapshot,
    sealed with AES-256-GCM.  [perform] runs one operation between [BEGIN
    IMMEDIATE] and [COMMIT].  Its specification is [atomic]: the operation runs
    on the records themselves and either all of its writes are kept or none.
    SQLite's begin, commit and rollback are the [io] operations of the platform,
    the cipher is a parameter. *)

From S2P Require Import Prelude JsString Json JsMap Base64Url Platform Effects.

Abbreviation records := (list (jstr * bytes)).

(** node:crypto's AES-256-GCM: key, nonce, additional data, text. *)
Class Gcm := {
  gcm_seal : bytes -> bytes -> bytes -> bytes -> bytes * bytes;
  gcm_open : bytes -> bytes -> bytes -> bytes -> bytes -> option bytes;
}.
Class GcmLaws `{Gcm} := {
  gcm_opens : forall key nonce aad text ct tag,
    gcm_seal key nonce aad text = (ct, tag) -> gcm_open key nonce aad ct tag = Some text;
  gcm_tag : forall key nonce aad text ct tag,
    gcm_seal key nonce aad text = (ct, tag) -> length tag = 16%nat;
}.

(** [Buffer.from(s, "base64")]: skips every character outside the two alphabets. *)
Definition buffer_from_base64 (s : jstr) : bytes :=
  unsextets (omap (fun u => std_value (from_url u)) s).

Definition aad : bytes := utf8_encode (js "Echolet/session-node/state/v1").

Record row := Row { row_version : Z; row_nonce : bytes; row_tag : bytes; row_ciphertext : bytes }.

Section store.
Context {W : Type} `{World W} `{Gcm}.

(** A transaction's callback: reads and writes the records, and the platform. *)
Definition Tx (A : Type) : Type := M (records * W) A.

Definition tx_get (k : jstr) : Tx (option bytes) := gets (fun s => get k s.1).
Definition tx_set (k : jstr) (v : bytes) : Tx unit := modify (fun s => (set k v s.1, s.2)).
Definition tx_delete (k : jstr) : Tx unit := modify (fun s => (delete k s.1, s.2)).
Definition tx_keys (prefix : jstr) : Tx (list jstr) := gets (fun s => keys_with prefix s.1).
(** A call of the platform. *)
Definition world_call {A} (f : W -> A * W) : Tx A :=
  fun s => let '(a, w) := f s.2 in (Ok a, (s.1, w)).

(** ** [read] and [write] *)

Fixpoint read_entries (l : list json) (acc : records) : res err records :=
  match l with
  | [] => Ok acc
  | JArr [JStr k; JStr v] :: l =>
      if has k acc then Err (ErrOther (js "Invalid session snapshot record"))
      else let bs := buffer_from_base64 v in
           if eqb (btoa bs) v then read_entries l (set k bs acc)
           else Err (ErrOther (js "Invalid session record encoding"))
  | _ :: _ => Err (ErrOther (js "Invalid session snapshot record"))
  end.
Definition read (key : bytes) (value : option row) : res err records :=
  match value with
  | None => Err (ErrOther (js "Missing encrypted session state"))
  | Some r =>
      if negb (row_version r =? 1) || negb (Nat.eqb (length (row_nonce r)) 12)
         || negb (Nat.eqb (length (row_tag r)) 16)
      then Err (ErrOther (js "Invalid encrypted session state"))
      else match gcm_open key (row_nonce r) aad (row_ciphertext r) (row_tag r) with
           | None => Err (ErrOther (js "Unsupported state or unable to authenticate data"))
           | Some plaintext =>
               match parse (utf8_to_string plaintext) with
               | Some (JArr entries) => read_entries entries []
               | Some _ => Err (ErrOther (js "Invalid session snapshot"))
               | None => Err (ErrOther (js "SyntaxError"))
               end
           end
  end.

Definition snapshot (r : records) : json :=
  JArr (map (fun kv => JArr [JStr kv.1; JStr (btoa kv.2)]) r).
Definition write (key : bytes) (r : records) (w : W) : row * W :=
  let '(nonce, w) := randomBytes 12 w in
  let '(ciphertext, tag) := gcm_seal key nonce aad (utf8_encode (stringify (snapshot r))) in
  ({| row_version := 1; row_nonce := nonce; row_tag := tag; row_ciphertext := ciphertext |}, w).

(** ** [perform] *)

Definition io_error : err := ErrOther (js "SQLite error").

(** [ROLLBACK; throw error]: a failing rollback throws its own error. *)
Definition rolled_back {A} (e : err) (db : option row) (w : W) : res err A * (option row * W) :=
  let '(ok, w) := io_rollback w in (Err (if ok then e else io_error), (db, w)).

Definition perform {A} (key : bytes) (operation : Tx A) : M (option row * W) A := fun s =>
  let '(db, w) := s in
  let '(ok, w) := io_begin w in
  if negb ok then (Err io_error, (db, w))
  else match read key db with
       | Err e => rolled_back e db w
       | Ok r =>
           match operation (r, w) with
           | (Err e, (_, w)) => rolled_back e db w
           | (Ok a, (r', w)) =>
               let '(new_row, w) := write key r' w in
               let '(ok, w) := io_commit w in
               if ok then (Ok a, (Some new_row, w)) else rolled_back io_error db w
           end
       end.

(** ** The constructor *)
Definition open_store (key : bytes) (file : option (option row)) (w : W)
  : res err (option row) * W :=
  if negb (Nat.eqb (length key) 32) then (Err (ErrOther (js "Storage key must be 32 bytes")), w)
  else match file with
       | None =>
           let '(ok, w) := io_begin w in
           if negb ok then (Err io_error, w)
           else let '(r, w) := write key [] w in
                let '(ok, w) := io_commit w in
                if ok then (Ok (Some r), w)
                else let '(ok, w) := io_rollback w in (Err io_error, w)
       | Some db => (res_map (fun _ => db) (read key db), w)
       end.

(** ** The specification: an atomic map

    The state of a client process: the committed records, the platform, and
    (for crash safety) the records after each commit. *)
Record env := Env { disk : records; world : W; commits : list records }.

Inductive outcome (A : Type) : Type :=
  | Committed (a : A)
  | Raised (e : err)      (** the operation's own error *)
  | StorageFailed.        (** begin, read, commit or rollback failed *)
Arguments Committed {A} a.
Arguments Raised {A} e.
Arguments StorageFailed {A}.

Definition atomic {A} (operation : Tx A) (s : env) : outcome A * env :=
  let '(ok, w) := io_begin (world s) in
  if negb ok then (StorageFailed, Env (disk s) w (commits s))
  else match operation (disk s, w) with
       | (Err e, (_, w)) =>
           let '(ok, w) := io_rollback w in
           (if ok then Raised e else StorageFailed, Env (disk s) w (commits s))
       | (Ok a, (r', w)) =>
           let '(_, w) := randomBytes 12 w in
           let '(ok, w) := io_commit w in
           if ok then (Committed a, Env r' w (commits s ++ [r']))
           else let '(_, w) := io_rollback w in (StorageFailed, Env (disk s) w (commits s))
       end.

(** What the caller of [perform] sees of an outcome. *)
Definition outcome_result {A} (o : outcome A) : res err A :=
  match o with Committed a => Ok a | Raised e => Err e | StorageFailed => Err io_error end.

(** ** The queue of [transaction] and [close]

    [transaction] refuses a nested call and a closing store, and otherwise
    appends the operation to the tail; [close] closes the database once the tail
    has run.  [J] is whatever identifies a submitted operation. *)
Section queue.
Context {J : Type}.
Record queue_state := Queue {
  waiting : list J;           (** submitted, not started *)
  running : option J;
  closing : bool;
  closed : bool;
  finished : list J;
  accepted : list J;          (** every operation the store took, in order *)
}.
Definition queue_init : queue_state := Queue [] None false false [] [].
(** [active]: the call comes from inside a running transaction. *)
Definition submit (active : bool) (j : J) (s : queue_state) : res err queue_state :=
  if active then Err (ErrOther (js "Nested transaction is not supported"))
  else if closing s then Err (ErrOther (js "Store is closed"))
  else Ok (Queue (waiting s ++ [j]) (running s) (closing s) (closed s) (finished s) (accepted s ++ [j])).
Definition request_close (active : bool) (s : queue_state) : res err queue_state :=
  if active then Err (ErrOther (js "Cannot close from a transaction"))
  else Ok (Queue (waiting s) (running s) true (closed s) (finished s) (accepted s)).
Inductive queue_step : queue_state -> queue_state -> Prop :=
  | step_submit active j s s' : submit active j s = Ok s' -> queue_step s s'
  | step_request_close active s s' : request_close active s = Ok s' -> queue_step s s'
  | step_start j q c d f a : queue_step (Queue (j :: q) None c d f a) (Queue q (Some j) c d f a)
  | step_finish j q c d f a : queue_step (Queue q (Some j) c d f a) (Queue q None c d (f ++ [j]) a)
  | step_close d f a : queue_step (Queue [] None true d f a) (Queue [] None true true f a).
Inductive queue_reachable : queue_state -> Prop :=
  | reach_init : queue_reachable queue_init
  | reach_step s s' : queue_reachable s -> queue_step s s' -> queue_reachable s'.
End queue.

End store.
Arguments Committed {A} a.
Arguments Raised {A} e.
Arguments StorageFailed {A}.
Arguments env W : clear implicits.
Arguments Tx W A : clear implicits.

(** ** Lemmas: the snapshot *)

Definition records_ok (r : records) : Prop :=
  map_ok r /\ Forall (fun kv => forallb unit_ok kv.1 = true /\ Forall byte_range kv.2) r.

Lemma std_char_unit v : sextet_ok v -> unit_ok (std_char v) = true.
Proof. intros Hv. by_sextets (fun v => unit_ok (std_char v)) Hv. done. Qed.
Lemma btoa_units bs : Forall byte_range bs -> forallb unit_ok (btoa bs) = true.
Proof.
  intros Hb%sextets_ok. unfold btoa. rewrite forallb_app. apply andb_true_iff. split.
  - apply forallb_Forall', Forall_map. eapply Forall_impl; [exact Hb|]. apply std_char_unit.
  - apply forallb_Forall', Forall_replicate. done.
Qed.
Lemma std_value_lenient v : sextet_ok v -> std_value (from_url (std_char v)) = Some v.
Proof.
  intros Hv. by_sextets (fun v => eqb (std_value (from_url (std_char v))) (Some v)) Hv. by apply eqb_eq.
Qed.
Lemma buffer_from_btoa bs : Forall byte_range bs -> buffer_from_base64 (btoa bs) = bs.
Proof.
  intros Hb. pose proof (sextets_ok _ Hb) as Hs. unfold buffer_from_base64, btoa. rewrite omap_app.
  assert (omap (fun u => std_value (from_url u)) (replicate (padding (length bs)) 61) = []) as ->
    by (generalize (padding (length bs)) as n; induction n; [done|exact IHn]).
  rewrite app_nil_r. rewrite <- (unsextets_sextets bs Hb) at 2. f_equal.
  induction Hs as [|v vs Hv Hvs IH]; [done|]. cbn [map].
  change (omap ?f (?x :: ?l)) with (match f x with Some y => y :: omap f l | None => omap f l end).
  cbn beta. by rewrite std_value_lenient, IH.
Qed.

Lemma snapshot_ok r : records_ok r -> json_ok (snapshot r) = true.
Proof.
  intros [_ Hr]. change (forallb json_ok (map (fun kv => JArr [JStr kv.1; JStr (btoa kv.2)]) r) = true).
  apply forallb_Forall', Forall_map. eapply Forall_impl; [exact Hr|].
  intros [k v] [Hk Hv]. change (forallb unit_ok k && (forallb unit_ok (btoa v) && true) = true).
  cbn [fst] in Hk. by rewrite Hk, btoa_units.
Qed.

Lemma read_entries_snapshot r acc :
  Forall (fun kv => Forall byte_range kv.2) r -> NoDup (keys (acc ++ r)) ->
  read_entries (map (fun kv => JArr [JStr kv.1; JStr (btoa kv.2)]) r) acc = Ok (acc ++ r).
Proof.
  intros Hr. revert acc. induction Hr as [|[k v] r Hv Hr IH]; intros acc Hn; cbn [map read_entries fst snd] in *.
  { by rewrite app_nil_r. }
  assert (k ∉ keys acc) as Hk.
  { unfold keys in *. rewrite fmap_app in Hn. apply NoDup_app in Hn as (_ & Hd & _).
    intros Hin. apply (Hd k Hin). by left. }
  unfold has. rewrite (proj2 (get_None k acc) Hk). 
  rewrite buffer_from_btoa, eqb_refl, set_fresh by done.
  rewrite IH; [by rewrite <- app_assoc|by rewrite <- app_assoc].
Qed.

Section facts.
Context {W : Type} `{World W} `{Gcm} `{!GcmLaws}.

(** The nonces Node hands out are as long as asked for. *)
Context (randomBytes_length : forall n w, length (randomBytes n w).1 = n).

(** A written snapshot reads back, record for record and in order. *)
Lemma read_write key r w :
  records_ok r -> read key (Some (write key r w).1) = Ok r.
Proof.
  intros Hr. unfold write. pose proof (randomBytes_length 12 w) as Hl.
  destruct (randomBytes 12 w) as [nonce w'].
  destruct (gcm_seal key nonce aad _) as [ct tag] eqn:E. cbn [fst] in Hl |- *.
  unfold read. cbn [row_version row_nonce row_tag row_ciphertext].
  rewrite Hl, (gcm_tag _ _ _ _ _ _ E). cbn [Z.eqb Pos.eqb Nat.eqb negb orb]. rewrite (gcm_opens _ _ _ _ _ _ E).
  rewrite utf8_to_string_encode by by apply stringify_well_formed, snapshot_ok.
  rewrite parse_stringify by by apply snapshot_ok.
  destruct Hr as [Hn Hr]. apply (read_entries_snapshot r []); [|done].
  eapply Forall_impl; [exact Hr|]. by intros ? [].
Qed.

(** An operation that leaves records the snapshot can hold. *)
Definition keeps_records_ok {A} (operation : Tx W A) : Prop :=
  forall r w, records_ok r -> records_ok (operation (r, w)).2.1.

(** The database stands for the committed records. *)
Definition represents (key : bytes) (db : option row) (r : records) : Prop :=
  read key db = Ok r /\ records_ok r.

(** C3: the encrypted store implements the atomic map.  Running an operation on a
    database that stands for the records [disk s] answers what running it on the
    records themselves answers, leaves the platform in the same state, and leaves
    a database that stands for the records of the specification: all of the
    operation's writes after a commit, none of them when the operation throws or
    the storage fails. *)
Theorem perform_refines_atomic {A} key (operation : Tx W A) db (s : env W) :
  keeps_records_ok operation -> represents key db (disk s) ->
  let '(result, (db', w')) := perform key operation (db, world s) in
  let '(o, s') := atomic operation s in
  result = outcome_result o /\ w' = world s' /\ represents key db' (disk s').
Proof.
  intros Hop [Hread Hok]. destruct s as [r w c]. unfold perform, atomic. cbn [disk world commits] in *.
  destruct (io_begin w) as [[] w1]; cbn [negb]; [|done]. rewrite Hread.
  specialize (Hop r w1 Hok). destruct (operation (r, w1)) as [[a|e] [r' w2]]; cbn [snd fst] in Hop.
  - pose proof (read_write key r' w2 Hop) as Hw. unfold write in *.
    destruct (randomBytes 12 w2) as [nonce w3].
    destruct (gcm_seal key nonce aad _) as [ct tag]. cbn [fst] in Hw.
    destruct (io_commit w3) as [[] w4]; [done|]. unfold rolled_back.
    destruct (io_rollback w4) as [[] w5]; done.
  - unfold rolled_back. destruct (io_rollback w2) as [[] w3]; done.
Qed.
End facts.

(** ** Lemmas: the queue *)

(** Every accepted operation is finished, running or waiting, in the order it was
    accepted; a closed store has nothing left. *)
Definition queue_inv {J} (s : queue_state (J := J)) : Prop :=
  accepted s = finished s ++ match running s with Some j => [j] | None => [] end ++ waiting s
  /\ (closed s = true -> closing s = true /\ waiting s = [] /\ running s = None).

Lemma queue_inv_step {J} (s s' : queue_state (J := J)) : queue_inv s -> queue_step s s' -> queue_inv s'.
Proof.
  unfold queue_inv. intros [Ha Hc] Hs. destruct Hs as [active j s s' Hs|active s s' Hs|j q c d f a|j q c d f a|d f a].
  - unfold submit in Hs. destruct active; [done|]. destruct (closing s) eqn:E; [done|].
    injection Hs as <-. cbn. split; [by rewrite Ha, <- !app_assoc|].
    intros Hd. destruct (Hc Hd) as [? _]. congruence.
  - unfold request_close in Hs. destruct active; [done|]. injection Hs as <-. cbn. naive_solver.
  - cbn in *. split; [by rewrite Ha|]. intros Hd. destruct (Hc Hd) as (_ & ? & _). done.
  - cbn in *. split; [by rewrite Ha, <- app_assoc|]. intros Hd. destruct (Hc Hd) as (_ & _ & ?). done.
  - cbn in *. split; [done|]. done.
Qed.

(** The store runs what it accepted, in order, and closes only after it.  In
    every reachable state the accepted operations are the finished ones, then the
    one running, then the waiting ones; a closed store has finished every
    operation it ever accepted, and accepts no other. *)
Theorem queue_fifo {J} (s : queue_state (J := J)) :
  queue_reachable s ->
  accepted s = finished s ++ match running s with Some j => [j] | None => [] end ++ waiting s
  /\ (closed s = true -> finished s = accepted s /\ forall j, is_ok (submit false j s) = false).
Proof.
  intros Hr. assert (queue_inv s) as [Ha Hc].
  { induction Hr; [split; done|by eapply queue_inv_step]. }
  split; [done|]. intros Hd. destruct (Hc Hd) as (Hcl & Hw & Hrun).
  rewrite Ha, Hw, Hrun, !app_nil_r. split; [done|]. intros j. unfold submit. by rewrite Hcl.
Qed.

(** ** Witnesses *)

Lemma records_ok_set k v r :
  forallb unit_ok k = true -> Forall byte_range v -> records_ok r -> records_ok (set k v r).
Proof.
  intros Hk Hv [Hm Hr]. split; [by apply map_ok_set|]. clear Hm.
  induction Hr as [|[k' v'] r [Hk' Hv'] Hr IH]; cbn; [by repeat constructor|].
  destruct (eqb k' k); apply Forall_cons_2; done.
Qed.

Module ToyGcm.
#[export] Instance gcm : Gcm := {|
  gcm_seal key nonce aad text := (text, replicate 16 0);
  gcm_open key nonce aad ct tag := Some ct;
|}.
#[export] Instance laws : GcmLaws.
Proof. split; cbn; intros; simplify_eq; done. Qed.
End ToyGcm.

Lemma queue_fifo_witness :
  let s := Queue [2] (Some 1) true false [] [1; 2] in
  queue_reachable s /\ accepted s = finished s ++ [1] ++ waiting s.
Proof.
  assert (queue_reachable (Queue [2] (Some 1) true false [] [1; 2])) as Hr.
  { apply reach_step with (s := Queue [2] (Some 1) false false [] [1; 2]); [|by apply (step_request_close false)].
    apply reach_step with (s := Queue [1; 2] None false false [] [1; 2]); [|apply step_start].
    apply reach_step with (s := Queue [1] None false false [] [1]); [|by apply (step_submit false 2)].
    apply reach_step with (s := queue_init); [apply reach_init|by apply (step_submit false 1)]. }
  split; [exact Hr|]. apply (queue_fifo _ Hr).
Defined.

Lemma perform_refines_atomic_witness :
  let op := tx_set (js "k") [7] in
  let '(result, (db', w')) := perform (H := Toy.world_ops) (H0 := ToyGcm.gcm) [] op
    (Some (write (H := Toy.world_ops) (H0 := ToyGcm.gcm) [] [] 0).1, 1) in
  let '(o, s') := atomic (H := Toy.world_ops) op (Env [] 1 []) in
  result = outcome_result o /\ w' = world s' /\ represents (H0 := ToyGcm.gcm) [] db' (disk s').
Proof.
  apply (perform_refines_atomic (H := Toy.world_ops) (H0 := ToyGcm.gcm) (H1 := ToyGcm.laws)
           (fun n w => length_replicate n _) [] (tx_set (js "k") [7]) _ (Env [] 1 [])).
  - intros r w Hr. apply records_ok_set; [vm_compute; reflexivity| |done].
    repeat constructor; vm_compute; congruence.
  - split; [vm_compute; reflexivity|]. repeat constructor.
Defined.
