(* ===== verification/Signal.v ===== *)
(** * The Signal client: [packages/session-node/src/SignalClient.ts]

    libsignal's native functions read and write protocol state through the
    callbacks of the class [Records].  The native code is a parameter: a function
    from its arguments to a program over those callbacks ([prog]), which
    [run_native] runs with the methods of [Records].  A native object is
    represented by the bytes its [serialize] returns; [equals] on public keys is
    equality of those. *)

From S2P Require Import Prelude JsString Json JsMap Zod Base64Url Protocol Platform Effects Store.

(** ** The native module *)

Inductive prog (A : Type) : Type :=
  | Done (a : A)
  | Throw (message : jstr)
  | GetIdentityKey (k : bytes -> prog A)
  | GetLocalRegistrationId (k : Z -> prog A)
  | GetIdentity (address : DeviceAddress) (k : option bytes -> prog A)
  | IsTrustedIdentity (address : DeviceAddress) (key : bytes) (k : bool -> prog A)
  | SaveIdentity (address : DeviceAddress) (key : bytes) (k : prog A)
  | GetSession (address : DeviceAddress) (k : option bytes -> prog A)
  | SaveSession (address : DeviceAddress) (record : bytes) (k : prog A)
  | GetExistingSessions (addresses : list DeviceAddress) (k : list bytes -> prog A)
  | GetPreKey (id : Z) (k : bytes -> prog A)
  | SavePreKey (id : Z) (record : bytes) (k : prog A)
  | RemovePreKey (id : Z) (k : prog A)
  | GetSignedPreKey (id : Z) (k : bytes -> prog A)
  | SaveSignedPreKey (id : Z) (record : bytes) (k : prog A)
  | GetKyberPreKey (id : Z) (k : bytes -> prog A)
  | SaveKyberPreKey (id : Z) (record : bytes) (k : prog A)
  | MarkKyberPreKeyUsed (id signedId : Z) (baseKey : bytes) (k : prog A).
Arguments Done {A}. Arguments Throw {A}. Arguments GetIdentityKey {A}.
Arguments GetLocalRegistrationId {A}. Arguments GetIdentity {A}. Arguments IsTrustedIdentity {A}.
Arguments SaveIdentity {A}. Arguments GetSession {A}. Arguments SaveSession {A}.
Arguments GetExistingSessions {A}. Arguments GetPreKey {A}. Arguments SavePreKey {A}.
Arguments RemovePreKey {A}. Arguments GetSignedPreKey {A}. Arguments SaveSignedPreKey {A}.
Arguments GetKyberPreKey {A}. Arguments SaveKyberPreKey {A}. Arguments MarkKyberPreKeyUsed {A}.

(** [L.PreKeyBundle]: what [PreKeyBundle.new] was given. *)
Record prekey_bundle := PreKeyBundle {
  pb_registrationId : Z; pb_deviceId : Z;
  pb_preKey : option (Z * bytes);
  pb_signedId : Z; pb_signedPublic : bytes; pb_signedSignature : bytes;
  pb_identity : bytes;
  pb_kyberId : Z; pb_kyberPublic : bytes; pb_kyberSignature : bytes;
}.

Class Native (W : Type) := {
  sk_deserialize : bytes -> option bytes;
  sk_generate : W -> bytes * W;
  sk_public : bytes -> bytes;
  sk_sign : bytes -> bytes -> W -> bytes * W;
  pk_deserialize : bytes -> option bytes;
  pk_verify : bytes -> bytes -> bytes -> bool;
  kem_generate : W -> bytes * W;
  kem_public : bytes -> bytes;
  kem_pk_deserialize : bytes -> option bytes;
  prekey_new : Z -> bytes -> bytes -> bytes;
  prekey_deserialize : bytes -> option bytes;
  prekey_id : bytes -> Z;
  prekey_public : bytes -> bytes;
  signed_prekey_new : Z -> Z -> bytes -> bytes -> bytes -> bytes;
  kyber_prekey_new : Z -> Z -> bytes -> bytes -> bytes;
  signed_prekey_deserialize : bytes -> option bytes;
  kyber_prekey_deserialize : bytes -> option bytes;
  signed_id : bytes -> Z;
  signed_public : bytes -> bytes;
  signed_signature : bytes -> bytes;
  kyber_id : bytes -> Z;
  kyber_public : bytes -> bytes;
  kyber_signature : bytes -> bytes;
  session_deserialize : bytes -> option bytes;
  prekey_message_deserialize : bytes -> option bytes;
  message_deserialize : bytes -> option bytes;
  processPreKeyBundle : prekey_bundle -> DeviceAddress -> DeviceAddress -> W -> prog unit * W;
  signalEncrypt : bytes -> DeviceAddress -> DeviceAddress -> W -> prog (Z * bytes) * W;
  signalDecryptPreKey : bytes -> DeviceAddress -> DeviceAddress -> W -> prog bytes * W;
  signalDecrypt : bytes -> DeviceAddress -> DeviceAddress -> W -> prog bytes * W;
}.
(** [L.CiphertextMessageType]. *)
Definition Whisper : Z := 2.
Definition PreKey : Z := 3.

Section signal.
Context {W : Type} `{World W} `{Native W} `{Crypto}.
Local Abbreviation Tx := (Tx W).

(** ** Helpers *)

Definition addressKey (a : DeviceAddress) : jstr := stringify (JArr [JStr (name a); JNum (deviceId a)]).
Definition before_colon (s : jstr) : jstr := match split_on 58 s with x :: _ => x | [] => [] end.
Definition requireRecord (key : jstr) : Tx bytes :=
  v <- tx_get key; from_option (js "Missing session record: " ++ before_colon key) v.
Definition decode (bs : bytes) : Tx json := from_option (js "SyntaxError") (json_decode bs).
(** Reading a property of a decoded value. *)
Definition property (k : jstr) (v : json) : Tx (option json) :=
  match v with JNull => fail (js "TypeError") | _ => ret (field k v) end.
Definition address_ok (a : DeviceAddress) : bool :=
  negb (eqb (name a) []) && (len (name a) <=? 256) && between 1 127 (deviceId a).
Definition assertAddress (a : DeviceAddress) : Tx unit :=
  if address_ok a then ret tt else fail (js "Invalid device address").
Definition assertMessageId (id : jstr) : Tx unit :=
  if negb (eqb id []) && (len id <=? 256) then ret tt else fail (js "Invalid message id").

Definition hex_byte (b : Z) : jstr := [hex_digit (b / 16); hex_digit (b mod 16)].
Definition hex (bs : bytes) : jstr := flat_map hex_byte bs.

(** [Number.parseInt(s, 10)]; [None] is [NaN]. *)
Fixpoint leading_digits (s : jstr) : jstr :=
  match s with u :: s' => if is_digit u then u :: leading_digits s' else [] | [] => [] end.
Definition parse_nat10 (s : jstr) : option Z :=
  match leading_digits s with [] => None | d => Some (read_digits d) end.
Definition parseInt10 (s : jstr) : option Z :=
  match trim_start s with
  | u :: s' => if u =? 45 then option_map Z.opp (parse_nat10 s')
               else if u =? 43 then parse_nat10 s' else parse_nat10 (u :: s')
  | [] => None
  end.

Definition oneTimePreKeyPointer : jstr := js "pre-current".
Definition maxOneTimePreKeyId : Z := 0xffffff.
Definition currentOneTimePreKeyId : Tx Z :=
  value <- tx_get oneTimePreKeyPointer;
  match value with
  | None => ret 1
  | Some bs => id <- decode bs;
               match id with
               | JNum n => if between 1 maxOneTimePreKeyId n then ret n
                           else fail (js "Invalid one-time prekey pointer")
               | _ => fail (js "Invalid one-time prekey pointer")
               end
  end.

(** ** class Records *)

Definition pre_key (id : Z) : jstr := js "pre:" ++ show_Z id.
Definition signed_key (id : Z) : jstr := js "signed:" ++ show_Z id.
Definition kyber_key (id : Z) : jstr := js "kyber:" ++ show_Z id.
Definition session_key (a : DeviceAddress) : jstr := js "session:" ++ addressKey a.
Definition trust_key (a : DeviceAddress) : jstr := js "trust:" ++ addressKey a.
Definition used_key (id signedId : Z) (baseKey : bytes) : jstr :=
  js "used:" ++ show_Z id ++ js ":" ++ show_Z signedId ++ js ":" ++ btoa baseKey.

Definition getIdentityKey : Tx bytes :=
  v <- requireRecord (js "identity"); from_option (js "native") (sk_deserialize v).
Definition getLocalRegistrationId : Tx Z :=
  v <- requireRecord (js "device"); d <- decode v;
  match field (js "registrationId") d with Some (JNum n) => ret n | _ => fail (js "TypeError") end.
Definition getIdentity (a : DeviceAddress) : Tx (option bytes) :=
  v <- tx_get (trust_key a);
  match v with
  | None => ret None
  | Some bs => key <- from_option (js "native") (pk_deserialize bs); ret (Some key)
  end.
Definition isTrustedIdentity (a : DeviceAddress) (key : bytes) : Tx bool :=
  old <- getIdentity a; ret (match old with Some k => eqb k key | None => false end).
Definition saveIdentity (a : DeviceAddress) (key : bytes) : Tx unit :=
  trusted <- isTrustedIdentity a key;
  if trusted then ret tt else fail (js "Remote identity is not explicitly approved").
Definition getSession (a : DeviceAddress) : Tx (option bytes) :=
  v <- tx_get (session_key a);
  match v with
  | None => ret None
  | Some bs => r <- from_option (js "native") (session_deserialize bs); ret (Some r)
  end.
Definition saveSession (a : DeviceAddress) (record : bytes) : Tx unit := tx_set (session_key a) record.
Definition getExistingSessions (l : list DeviceAddress) : Tx (list bytes) :=
  mapM (fun a => r <- getSession a; from_option (js "Missing session") r) l.
Definition getPreKey (id : Z) : Tx bytes :=
  v <- requireRecord (pre_key id); from_option (js "native") (prekey_deserialize v).
Definition savePreKey (id : Z) (record : bytes) : Tx unit := tx_set (pre_key id) record.
Definition removePreKey (id : Z) : Tx unit := tx_delete (pre_key id).
Definition getSignedPreKey (id : Z) : Tx bytes :=
  v <- requireRecord (signed_key id); from_option (js "native") (signed_prekey_deserialize v).
Definition saveSignedPreKey (id : Z) (record : bytes) : Tx unit := tx_set (signed_key id) record.
Definition getKyberPreKey (id : Z) : Tx bytes :=
  v <- requireRecord (kyber_key id); from_option (js "native") (kyber_prekey_deserialize v).
Definition saveKyberPreKey (id : Z) (record : bytes) : Tx unit := tx_set (kyber_key id) record.
Definition markKyberPreKeyUsed (id signedId : Z) (baseKey : bytes) : Tx unit :=
  v <- tx_get (used_key id signedId baseKey);
  match v with
  | Some _ => fail (js "Kyber prekey already used for this base key")
  | None => tx_set (used_key id signedId baseKey) [1]
  end.

(** A native call: an error a callback raises ends it. *)
Fixpoint run_native {A} (p : prog A) : Tx A :=
  match p with
  | Done a => ret a
  | Throw message => fail message
  | GetIdentityKey k => v <- getIdentityKey; run_native (k v)
  | GetLocalRegistrationId k => v <- getLocalRegistrationId; run_native (k v)
  | GetIdentity a k => v <- getIdentity a; run_native (k v)
  | IsTrustedIdentity a key k => v <- isTrustedIdentity a key; run_native (k v)
  | SaveIdentity a key k => saveIdentity a key;; run_native k
  | GetSession a k => v <- getSession a; run_native (k v)
  | SaveSession a r k => saveSession a r;; run_native k
  | GetExistingSessions l k => v <- getExistingSessions l; run_native (k v)
  | GetPreKey id k => v <- getPreKey id; run_native (k v)
  | SavePreKey id r k => savePreKey id r;; run_native k
  | RemovePreKey id k => removePreKey id;; run_native k
  | GetSignedPreKey id k => v <- getSignedPreKey id; run_native (k v)
  | SaveSignedPreKey id r k => saveSignedPreKey id r;; run_native k
  | GetKyberPreKey id k => v <- getKyberPreKey id; run_native (k v)
  | SaveKyberPreKey id r k => saveKyberPreKey id r;; run_native k
  | MarkKyberPreKeyUsed id s b k => markKyberPreKeyUsed id s b;; run_native k
  end.
Definition native {A} (f : W -> prog A * W) : Tx A := p <- world_call f; run_native p.

(** ** class SignalClient

    Each method is the body of its transaction, with the checks it makes before
    opening it; [local] is the client's own address. *)

Record StoredCiphertext := { c_messageId : jstr; c_type : Z; c_body : bytes }.
(** What [outgoing] returns: the record's fields as they were stored. *)
Record Outgoing := { o_messageId : json; o_type : json; o_body : bytes }.

(** [addressKey(metadata.address)] of a stored record. *)
Definition storedAddressKey (metadata : json) : Tx jstr :=
  match metadata with
  | JNull => fail (js "TypeError")
  | _ => match field (js "address") metadata with
         | None | Some JNull => fail (js "TypeError")
         | Some a => ret (stringify (JArr [sub_field (js "name") a; sub_field (js "deviceId") a]))
         end
  end.

Definition device_metadata (a : DeviceAddress) (registrationId : Z) : json :=
  JObj [ (js "address", JObj [(js "name", JStr (name a)); (js "deviceId", JNum (deviceId a))]);
         (js "registrationId", JNum registrationId) ].

Definition create (address : DeviceAddress) : Tx unit :=
  assertAddress address;;
  stored <- tx_get (js "device");
  match stored with
  | Some bs =>
      metadata <- decode bs;
      key <- storedAddressKey metadata;
      if negb (eqb key (addressKey address)) then fail (js "Store belongs to another local device")
      else identity <- requireRecord (js "identity");
           from_option (js "native") (sk_deserialize identity);;
           ret tt
  | None =>
      keys <- tx_keys [];
      if negb (eqb keys []) then fail (js "Incomplete device store; refusing identity reset")
      else
        identity <- world_call sk_generate;
        pre <- world_call sk_generate;
        signed <- world_call sk_generate;
        kyber <- world_call kem_generate;
        registrationId <- world_call (randomInt 1 16380);
        tx_set (js "device") (json_encode (device_metadata address registrationId));;
        tx_set (js "identity") identity;;
        tx_set (pre_key 1) (prekey_new 1 (sk_public pre) pre);;
        t1 <- world_call date_now;
        signature1 <- world_call (sk_sign identity (sk_public signed));
        tx_set (signed_key 2) (signed_prekey_new 2 t1 (sk_public signed) signed signature1);;
        t2 <- world_call date_now;
        signature2 <- world_call (sk_sign identity (kem_public kyber));
        tx_set (kyber_key 3) (kyber_prekey_new 3 t2 kyber signature2)
  end.

Definition publicBundle (local : DeviceAddress) : Tx prekey_bundle :=
  identity <- getIdentityKey;
  signed <- getSignedPreKey 2;
  kyber <- getKyberPreKey 3;
  id <- currentOneTimePreKeyId;
  preBytes <- tx_get (pre_key id);
  pre <- match preBytes with
         | None => ret None
         | Some bs => p <- from_option (js "native") (prekey_deserialize bs);
                      ret (Some (prekey_id p, prekey_public p))
         end;
  registrationId <- getLocalRegistrationId;
  ret {| pb_registrationId := registrationId; pb_deviceId := deviceId local; pb_preKey := pre;
         pb_signedId := signed_id signed; pb_signedPublic := signed_public signed;
         pb_signedSignature := signed_signature signed; pb_identity := sk_public identity;
         pb_kyberId := kyber_id kyber; pb_kyberPublic := kyber_public kyber;
         pb_kyberSignature := kyber_signature kyber |}.

Definition allocated_ids (keys : list jstr) : list Z :=
  omap (fun key => match parseInt10 (drop 4 key) with
                   | Some id => if between 1 max_safe_integer id then Some id else None
                   | None => None end) keys.
Definition rotateOneTimePreKey : Tx Z :=
  requireRecord (js "identity");;
  keys <- tx_keys (js "pre:");
  current <- currentOneTimePreKeyId;
  let next := fold_left Z.max (allocated_ids keys) current + 1 in
  if maxOneTimePreKeyId <? next then fail (js "One-time prekey identifiers are exhausted")
  else pre <- world_call sk_generate;
       tx_set (pre_key next) (prekey_new next (sk_public pre) pre);;
       tx_set oneTimePreKeyPointer (json_encode (JNum next));;
       ret next.

Definition approveRemote (remote : DeviceAddress) (serializedIdentity : bytes) : Tx unit :=
  assertAddress remote;;
  key <- from_option (js "native") (pk_deserialize serializedIdentity);
  old <- getIdentity remote;
  match old with
  | Some k => if eqb k key then tx_set (trust_key remote) key
              else fail (js "Remote identity changed; explicit re-verification and session reset required")
  | None => tx_set (trust_key remote) key
  end.

Definition establish (local remote : DeviceAddress) (bundle : prekey_bundle) : Tx unit :=
  assertAddress remote;;
  if negb (pb_deviceId bundle =? deviceId remote) then fail (js "Bundle device does not match recipient")
  else
    trusted <- isTrustedIdentity remote (pb_identity bundle);
    if negb trusted then fail (js "Remote identity is not explicitly approved")
    else
      session <- getSession remote;
      match session with
      | Some _ => fail (js "Session already exists; refusing implicit reset")
      | None => native (processPreKeyBundle bundle remote local)
      end.

Definition outbox_key (remote : DeviceAddress) (messageId : jstr) : jstr :=
  js "outbox:" ++ addressKey remote ++ js ":" ++ messageId.
Definition inbox_key (remote : DeviceAddress) (messageId : jstr) : jstr :=
  js "inbox:" ++ addressKey remote ++ js ":" ++ messageId.
Definition message_payload (messageId body : jstr) : bytes :=
  json_encode (JObj [(js "messageId", JStr messageId); (js "body", JStr body)]).
Definition content_hash (messageId plaintext : jstr) : jstr := hex (sha256 (message_payload messageId plaintext)).
Definition outbox_record (messageId : jstr) (type : Z) (body : bytes) (contentHash : jstr) : json :=
  JObj [ (js "messageId", JStr messageId); (js "type", JNum type); (js "body", JStr (btoa body));
         (js "contentHash", JStr contentHash) ].
Definition outgoing (record : json) : Tx Outgoing :=
  match field (js "body") record with
  | Some (JStr b) => ret {| o_messageId := sub_field (js "messageId") record;
                            o_type := sub_field (js "type") record;
                            o_body := buffer_from_base64 b |}
  | _ => fail (js "TypeError")
  end.

Definition encrypt (local remote : DeviceAddress) (messageId plaintext : jstr) : Tx Outgoing :=
  assertAddress remote;;
  assertMessageId messageId;;
  if 64 * 1024 <? utf8_length plaintext then fail (js "Message exceeds reference size limit")
  else
    identity <- getIdentity remote;
    match identity with
    | None => fail (js "Remote identity is not explicitly approved")
    | Some _ =>
        previous <- tx_get (outbox_key remote messageId);
        match previous with
        | Some bs =>
            record <- decode bs;
            hash <- property (js "contentHash") record;
            if eqb hash (Some (JStr (content_hash messageId plaintext)))
            then outgoing record
            else fail (js "Message id already used with different content")
        | None =>
            message <- native (signalEncrypt (message_payload messageId plaintext) remote local);
            let record := outbox_record messageId message.1 message.2 (content_hash messageId plaintext) in
            tx_set (outbox_key remote messageId) (json_encode record);;
            outgoing record
        end
    end.

Definition retry (remote : DeviceAddress) (messageId : jstr) : Tx Outgoing :=
  assertAddress remote;;
  assertMessageId messageId;;
  requireRecord (trust_key remote);;
  bs <- requireRecord (outbox_key remote messageId);
  record <- decode bs;
  outgoing record.

Definition decrypt (local remote : DeviceAddress) (message : StoredCiphertext) : Tx jstr :=
  assertAddress remote;;
  assertMessageId (c_messageId message);;
  if 1024 * 1024 <? Z.of_nat (length (c_body message)) then fail (js "Ciphertext exceeds reference size limit")
  else
    seen <- tx_get (inbox_key remote (c_messageId message));
    match seen with
    | Some _ => fail (js "Message already received")
    | None =>
        plaintext <-
          (if c_type message =? PreKey then
             m <- from_option (js "native") (prekey_message_deserialize (c_body message));
             native (signalDecryptPreKey m remote local)
           else if c_type message =? Whisper then
             m <- from_option (js "native") (message_deserialize (c_body message));
             native (signalDecrypt m remote local)
           else fail (js "Unsupported ciphertext type"));
        payload <- decode plaintext;
        match payload, field (js "messageId") payload, field (js "body") payload with
        | JNull, _, _ => fail (js "TypeError")
        | _, Some (JStr id), Some (JStr body) =>
            if eqb id (c_messageId message) then
              tx_set (inbox_key remote (c_messageId message)) (message_payload (c_messageId message) body);;
              ret body
            else fail (js "Authenticated message payload mismatch")
        | _, _, _ => fail (js "Authenticated message payload mismatch")
        end
    end.
End signal.

(** ** Lemmas: the keys of the records *)

(** Two literal prefixes neither of which extends the other. *)
Definition clash (p q : jstr) : bool :=
  let n := Nat.min (length p) (length q) in negb (eqb (take n p) (take n q)).
Lemma clash_starts_with p q s : clash p q = true -> starts_with p (q ++ s) = false.
Proof.
  unfold clash. rewrite negb_true_iff, eqb_neq. intros Hne.
  destruct (starts_with p (q ++ s)) eqn:E; [|done]. exfalso. apply Hne.
  apply starts_with_iff in E as [t E].
  apply (f_equal (take (Nat.min (length p) (length q)))) in E.
  rewrite !take_app_le in E by lia. done.
Qed.
Lemma clash_ne p q s t : clash p q = true -> p ++ s <> q ++ t.
Proof.
  intros H%(clash_starts_with p q t) E. rewrite <- E, starts_with_app in H. done.
Qed.

Definition native_prefixes : list jstr := [js "session:"; js "pre:"; js "signed:"; js "kyber:"; js "used:"].
Definition native_key (k : jstr) : bool := existsb (fun p => starts_with p k) native_prefixes.

Lemma native_key_prefix p s : p ∈ native_prefixes -> native_key (p ++ s) = true.
Proof.
  intros Hp. apply existsb_exists. exists p. split; [by apply list_elem_of_In|apply starts_with_app].
Qed.
Lemma not_native_key q s :
  forallb (fun p => clash p q) native_prefixes = true -> native_key (q ++ s) = false.
Proof.
  intros H. unfold native_key. destruct (existsb _ _) eqn:E; [|done].
  apply existsb_exists in E as (p & Hp & E). rewrite forallb_forall in H.
  by rewrite (clash_starts_with p q s (H p Hp)) in E.
Qed.

Lemma addressKey_inj a b :
  forallb unit_ok (name a) = true -> forallb unit_ok (name b) = true ->
  addressKey a = addressKey b -> a = b.
Proof.
  unfold addressKey. intros Ha Hb E. apply (f_equal parse) in E.
  rewrite !parse_stringify in E by (cbn; by rewrite ?Ha, ?Hb).
  destruct a, b. cbn in *. by simplify_eq.
Qed.

(** ** Lemmas: what the callbacks may write *)

Section boundary.
Context {W : Type} `{World W} `{Native W} `{Crypto}.

(** [same_outside P]: the records of every key outside [P] are untouched. *)
Definition same_outside (P : jstr -> bool) (s s' : records * W) : Prop :=
  forall k, P k = false -> get k s'.1 = get k s.1.
#[export] Instance same_outside_preorder P : PreOrder (same_outside P).
Proof. split; [by intros s k|]. intros s1 s2 s3 H1' H2' k Hk. by rewrite H2', H1'. Qed.

Lemma same_outside_weaken (P Q : jstr -> bool) {A} (m : Tx W A) :
  (forall k, P k = true -> Q k = true) -> preserves (same_outside P) m -> preserves (same_outside Q) m.
Proof.
  intros HPQ Hm s k Hk. apply Hm. destruct (P k) eqn:E; [|done]. apply HPQ in E. congruence.
Qed.
Lemma preserves_tx_get P k : preserves (same_outside P) (tx_get (W := W) k).
Proof. by intros s k'. Qed.
Lemma preserves_tx_keys P p : preserves (same_outside P) (tx_keys (W := W) p).
Proof. by intros s k'. Qed.
Lemma preserves_world_call P {A} (f : W -> A * W) : preserves (same_outside P) (world_call f).
Proof. intros s k _. unfold world_call. by destruct (f s.2). Qed.
Lemma preserves_tx_set (P : jstr -> bool) k v : P k = true -> preserves (same_outside P) (tx_set (W := W) k v).
Proof. intros Hk s k' Hk'. cbn. apply get_set_ne. congruence. Qed.
Lemma preserves_tx_delete (P : jstr -> bool) k : P k = true -> preserves (same_outside P) (tx_delete (W := W) k).
Proof. intros Hk s k' Hk'. cbn. apply get_delete_ne. congruence. Qed.

(** The methods that only read. *)
Section readers.
Context (P : jstr -> bool).
#[local] Hint Extern 1 (preserves _ _) =>
  (first [ apply preserves_tx_get | apply preserves_tx_keys | apply preserves_world_call ]) : echolet.
Lemma preserves_decode bs : preserves (same_outside P) (decode (W := W) bs).
Proof. unfold decode. solve_preserves. Qed.
Lemma preserves_requireRecord k : preserves (same_outside P) (requireRecord (W := W) k).
Proof. unfold requireRecord. solve_preserves. Qed.
Lemma preserves_assertAddress a : preserves (same_outside P) (assertAddress (W := W) a).
Proof. unfold assertAddress. solve_preserves. Qed.
Lemma preserves_assertMessageId i : preserves (same_outside P) (assertMessageId (W := W) i).
Proof. unfold assertMessageId. solve_preserves. Qed.
Lemma preserves_property k v : preserves (same_outside P) (property (W := W) k v).
Proof. unfold property. solve_preserves. Qed.
Lemma preserves_outgoing v : preserves (same_outside P) (outgoing (W := W) v).
Proof. unfold outgoing. solve_preserves. Qed.
#[local] Hint Resolve preserves_decode preserves_requireRecord preserves_assertAddress
  preserves_assertMessageId preserves_property preserves_outgoing : echolet.
Lemma preserves_currentOneTimePreKeyId : preserves (same_outside P) (currentOneTimePreKeyId (W := W)).
Proof. unfold currentOneTimePreKeyId. solve_preserves. Qed.
Lemma preserves_getIdentityKey : preserves (same_outside P) (getIdentityKey (W := W)).
Proof. unfold getIdentityKey. solve_preserves. Qed.
Lemma preserves_getLocalRegistrationId : preserves (same_outside P) (getLocalRegistrationId (W := W)).
Proof. unfold getLocalRegistrationId. solve_preserves. Qed.
Lemma preserves_getIdentity a : preserves (same_outside P) (getIdentity (W := W) a).
Proof. unfold getIdentity. solve_preserves. Qed.
#[local] Hint Resolve preserves_getIdentity : echolet.
Lemma preserves_isTrustedIdentity a k : preserves (same_outside P) (isTrustedIdentity (W := W) a k).
Proof. unfold isTrustedIdentity. solve_preserves. Qed.
#[local] Hint Resolve preserves_isTrustedIdentity : echolet.
Lemma preserves_saveIdentity a k : preserves (same_outside P) (saveIdentity (W := W) a k).
Proof. unfold saveIdentity. solve_preserves. Qed.
Lemma preserves_getSession a : preserves (same_outside P) (getSession (W := W) a).
Proof. unfold getSession. solve_preserves. Qed.
#[local] Hint Resolve preserves_getSession : echolet.
Lemma preserves_getExistingSessions l : preserves (same_outside P) (getExistingSessions (W := W) l).
Proof. unfold getExistingSessions. solve_preserves. Qed.
Lemma preserves_getPreKey i : preserves (same_outside P) (getPreKey (W := W) i).
Proof. unfold getPreKey. solve_preserves. Qed.
Lemma preserves_getSignedPreKey i : preserves (same_outside P) (getSignedPreKey (W := W) i).
Proof. unfold getSignedPreKey. solve_preserves. Qed.
Lemma preserves_getKyberPreKey i : preserves (same_outside P) (getKyberPreKey (W := W) i).
Proof. unfold getKyberPreKey. solve_preserves. Qed.
End readers.
#[local] Hint Resolve preserves_decode preserves_requireRecord preserves_assertAddress
  preserves_assertMessageId preserves_property preserves_outgoing
  preserves_currentOneTimePreKeyId preserves_getIdentityKey preserves_getLocalRegistrationId
  preserves_getIdentity preserves_isTrustedIdentity preserves_saveIdentity preserves_getSession
  preserves_getExistingSessions preserves_getPreKey preserves_getSignedPreKey
  preserves_getKyberPreKey : echolet.
#[local] Hint Extern 1 (preserves _ _) =>
  (first [ apply preserves_tx_get | apply preserves_tx_keys | apply preserves_world_call ]) : echolet.

(** Whatever the native code does, it writes under the prefixes of the protocol
    state only. *)
Lemma preserves_run_native {A} (p : prog A) : preserves (same_outside native_key) (run_native (W := W) p).
Proof.
  assert (forall k v q, q ∈ native_prefixes -> preserves (same_outside native_key) (tx_set (W := W) (q ++ k) v)) as Hset.
  { intros k v q Hq. apply preserves_tx_set. by apply native_key_prefix. }
  induction p; cbn [run_native]; try solve [apply preserves_ret, _|apply preserves_throw, _];
    (apply preserves_bind; [apply _| |done]); try solve [eauto 2 with echolet].
  - apply Hset. by apply (list_elem_of_lookup_2 _ 0%nat).
  - apply Hset. by apply (list_elem_of_lookup_2 _ 1%nat).
  - apply preserves_tx_delete, native_key_prefix. by apply (list_elem_of_lookup_2 _ 1%nat).
  - apply Hset. by apply (list_elem_of_lookup_2 _ 2%nat).
  - apply Hset. by apply (list_elem_of_lookup_2 _ 3%nat).
  - unfold markKyberPreKeyUsed. apply preserves_bind; [apply _|apply preserves_tx_get|].
    intros [v|]; [apply preserves_throw, _|]. apply Hset. by apply (list_elem_of_lookup_2 _ 4%nat).
Qed.
Lemma preserves_native {A} (f : W -> prog A * W) : preserves (same_outside native_key) (native f).
Proof. unfold native. apply preserves_bind; [apply _|apply preserves_world_call|]. apply preserves_run_native. Qed.
End boundary.
#[export] Hint Resolve preserves_decode preserves_requireRecord preserves_assertAddress
  preserves_assertMessageId preserves_property preserves_outgoing
  preserves_currentOneTimePreKeyId preserves_getIdentityKey preserves_getLocalRegistrationId
  preserves_getIdentity preserves_isTrustedIdentity preserves_saveIdentity preserves_getSession
  preserves_getExistingSessions preserves_getPreKey preserves_getSignedPreKey
  preserves_getKyberPreKey preserves_native : echolet.
#[export] Hint Extern 1 (preserves _ _) =>
  (first [ apply preserves_tx_get | apply preserves_tx_keys | apply preserves_world_call ]) : echolet.

(** Stepping through the binds of a run [H : m s = (Ok a, s')]. *)
Lemma tx_get_ok {W} k (s : records * W) v s' : tx_get k s = (Ok v, s') -> v = get k s.1 /\ s' = s.
Proof. by intros [= <- <-]. Qed.
Lemma tx_set_ok {W} k x (s : records * W) v s' : tx_set k x s = (Ok v, s') -> s' = (set k x s.1, s.2).
Proof. by intros [= <- <-]. Qed.
Lemma from_option_ok {S A} msg (o : option A) (s : S) a s' :
  from_option msg o s = (Ok a, s') -> o = Some a /\ s' = s.
Proof. destruct o; [|done]. by intros [= <- <-]. Qed.
Lemma ret_ok {S A} (a b : A) (s s' : S) : ret a s = (Ok b, s') -> a = b /\ s' = s.
Proof. by intros [= <- <-]. Qed.
Lemma fail_ok {S A} msg (a : A) (s s' : S) : fail msg s = (Ok a, s') -> False.
Proof. done. Qed.
Ltac run_step H :=
  lazymatch type of H with
  | bind _ _ _ = (Ok _, _) =>
      let H1 := fresh "Hrun" in apply bind_ok in H; destruct H as (? & ? & H1 & H); try run_step H1
  | ret _ _ = (Ok _, _) => apply ret_ok in H; destruct H as [? ?]; subst
  | tx_get _ _ = (Ok _, _) => apply tx_get_ok in H; destruct H as [? ?]; subst
  | tx_set _ _ _ = (Ok _, _) => apply tx_set_ok in H; subst
  | from_option _ _ _ = (Ok _, _) => apply from_option_ok in H; destruct H as [? ?]; subst
  | fail _ _ = (Ok _, _) => by destruct (fail_ok _ _ _ _ H)
  | throw _ _ = (Ok _, _) => discriminate H
  | (if ?b then _ else _) _ = (Ok _, _) => let E := fresh "Hif" in destruct b eqn:E
  | (match ?x with _ => _ end) _ = (Ok _, _) => let E := fresh "Hmatch" in destruct x eqn:E
  end.
Ltac run_all H := repeat run_step H.

(** ** Lemmas: what native code returns *)

Fixpoint returns {A} (Q : A -> Prop) (p : prog A) : Prop :=
  match p with
  | Done a => Q a
  | Throw _ => True
  | GetIdentityKey k | GetPreKey _ k | GetSignedPreKey _ k | GetKyberPreKey _ k =>
      forall v, returns Q (k v)
  | GetLocalRegistrationId k => forall v, returns Q (k v)
  | GetIdentity _ k | GetSession _ k => forall v, returns Q (k v)
  | IsTrustedIdentity _ _ k => forall v, returns Q (k v)
  | GetExistingSessions _ k => forall v, returns Q (k v)
  | SaveIdentity _ _ k | SaveSession _ _ k | SavePreKey _ _ k | RemovePreKey _ k
  | SaveSignedPreKey _ _ k | SaveKyberPreKey _ _ k | MarkKyberPreKeyUsed _ _ _ k => returns Q k
  end.

(** The documented behaviour of the native module the theorems rely on: reading a
    serialized key gives its serialization, and messages are byte strings. *)
Class NativeLaws {W} `{Native W} := {
  pk_canonical : forall b c, pk_deserialize b = Some c -> pk_deserialize c = Some c;
  encrypt_bytes : forall payload a b w,
    returns (fun m => Forall byte_range m.2) (signalEncrypt payload a b w).1;
  sk_roundtrip : forall w, is_Some (sk_deserialize (sk_generate w).1);
}.

Lemma hex_units bs : Forall byte_range bs -> forallb unit_ok (hex bs) = true.
Proof.
  intros Hb. unfold hex. rewrite flat_map_concat_map. apply forallb_forall. intros u Hu.
  apply in_concat in Hu as (l & Hl & Hu). apply in_map_iff in Hl as (b & <- & Hin).
  rewrite Forall_forall in Hb. specialize (Hb b (proj2 (list_elem_of_In _ _) Hin)).
  unfold byte_range in Hb. unfold hex_byte, hex_digit, unit_ok in *. cbn in Hu.
  destruct Hu as [<-|[<-|[]]]; match goal with |- context [?a <? 10] => destruct (a <? 10) eqn:E end;
    bool_to_prop; apply andb_true_iff; rewrite !Z.leb_le; lia.
Qed.

Lemma hex_digit_inj a b : 0 <= a < 16 -> 0 <= b < 16 -> hex_digit a = hex_digit b -> a = b.
Proof.
  unfold hex_digit. destruct (a <? 10) eqn:E, (b <? 10) eqn:E'; bool_to_prop; lia.
Qed.
Lemma hex_inj a b : Forall byte_range a -> Forall byte_range b -> hex a = hex b -> a = b.
Proof.
  unfold hex. intros Ha. revert b. induction Ha as [|x a Hx Ha IH]; intros b Hb E.
  - by destruct b.
  - destruct Hb as [|y b Hy Hb]; [done|]. cbn [flat_map hex_byte app] in E. injection E as E1 E2 E3.
    unfold byte_range in *. apply hex_digit_inj in E1, E2; [|lia..]. f_equal; [lia|auto].
Qed.

Section client.
Context {W : Type} `{World W} `{Native W} `{Crypto}.

Lemma run_native_returns {A} Q (p : prog A) s a s' :
  returns Q p -> run_native (W := W) p s = (Ok a, s') -> Q a.
Proof.
  revert s. induction p; cbn [returns run_native]; intros s HQ Hrun;
    first [apply ret_ok in Hrun as [<- _]; done
          |by destruct (fail_ok _ _ _ _ Hrun)
          |apply bind_ok in Hrun as (? & ? & _ & Hrun); eauto].
Qed.

(** *** What each method may write *)

Definition none_key : jstr -> bool := fun _ => false.
Definition create_key (k : jstr) : bool :=
  eqb k (js "device") || eqb k (js "identity") || native_key k.
Definition rotate_key (k : jstr) : bool := starts_with (js "pre:") k || eqb k oneTimePreKeyPointer.

Lemma literal_native q s : q ∈ native_prefixes -> native_key (q ++ s) = true.
Proof. apply native_key_prefix. Qed.
Lemma preserves_storedAddressKey P v : preserves (same_outside P) (storedAddressKey (W := W) v).
Proof. unfold storedAddressKey. solve_preserves. Qed.
#[local] Hint Resolve preserves_storedAddressKey : echolet.

Lemma create_sets k v :
  k = js "device" \/ k = js "identity" \/ native_key k = true ->
  preserves (same_outside create_key) (tx_set (W := W) k v).
Proof.
  intros Hk. apply preserves_tx_set. unfold create_key.
  destruct Hk as [->|[->|Hk]]; [by rewrite eqb_refl|by rewrite eqb_refl, orb_true_r|by rewrite Hk, orb_true_r].
Qed.
Lemma pre_key_native z : native_key (pre_key z) = true.
Proof. apply native_key_prefix. by apply (list_elem_of_lookup_2 _ 1%nat). Qed.
Lemma signed_key_native z : native_key (signed_key z) = true.
Proof. apply native_key_prefix. by apply (list_elem_of_lookup_2 _ 2%nat). Qed.
Lemma kyber_key_native z : native_key (kyber_key z) = true.
Proof. apply native_key_prefix. by apply (list_elem_of_lookup_2 _ 3%nat). Qed.
Lemma preserves_create a : preserves (same_outside create_key) (create (W := W) a).
Proof.
  unfold create. solve_preserves_with ltac:(fun _ => lazymatch goal with
    | |- preserves _ (tx_set (js _) _) => apply create_sets; auto
    | |- preserves _ (tx_set (pre_key _) _) => apply create_sets; auto using pre_key_native
    | |- preserves _ (tx_set (signed_key _) _) => apply create_sets; auto using signed_key_native
    | |- preserves _ (tx_set (kyber_key _) _) => apply create_sets; auto using kyber_key_native
    end).
Qed.
Lemma preserves_publicBundle a : preserves (same_outside none_key) (publicBundle (W := W) a).
Proof. unfold publicBundle. solve_preserves. Qed.
Lemma preserves_rotate : preserves (same_outside rotate_key) (rotateOneTimePreKey (W := W)).
Proof.
  unfold rotateOneTimePreKey. solve_preserves_with ltac:(fun _ => lazymatch goal with
    | |- preserves _ (tx_set (pre_key _) _) =>
        apply preserves_tx_set; unfold rotate_key, pre_key; by rewrite starts_with_app
    | |- preserves _ (tx_set oneTimePreKeyPointer _) =>
        apply preserves_tx_set; unfold rotate_key; by rewrite eqb_refl, orb_true_r
    end).
Qed.
Lemma preserves_approveRemote a b :
  preserves (same_outside (eqb (trust_key a))) (approveRemote (W := W) a b).
Proof.
  unfold approveRemote. solve_preserves_with ltac:(fun _ => lazymatch goal with
    | |- preserves _ (tx_set _ _) => apply preserves_tx_set, eqb_refl end).
Qed.
Lemma preserves_establish l r b : preserves (same_outside native_key) (establish (W := W) l r b).
Proof. unfold establish. solve_preserves. Qed.
Lemma preserves_native_or {A} (P : jstr -> bool) (f : W -> prog A * W) :
  preserves (same_outside (fun k => native_key k || P k)) (native f).
Proof. eapply same_outside_weaken; [|apply preserves_native]. cbn. by intros k ->. Qed.
Lemma preserves_set_or (k : jstr) v :
  preserves (same_outside (fun k' => native_key k' || eqb k k')) (tx_set (W := W) k v).
Proof. apply preserves_tx_set. by rewrite eqb_refl, orb_true_r. Qed.
Lemma preserves_encrypt l r i p :
  preserves (same_outside (fun k => native_key k || eqb (outbox_key r i) k)) (encrypt (W := W) l r i p).
Proof.
  unfold encrypt. solve_preserves_with ltac:(fun _ => lazymatch goal with
    | |- preserves _ (tx_set _ _) => apply preserves_set_or
    | |- preserves _ (native _) => apply preserves_native_or end).
Qed.
Lemma preserves_retry r i : preserves (same_outside none_key) (retry (W := W) r i).
Proof. unfold retry. solve_preserves. Qed.
Lemma preserves_decrypt l r m :
  preserves (same_outside (fun k => native_key k || eqb (inbox_key r (c_messageId m)) k)) (decrypt (W := W) l r m).
Proof.
  unfold decrypt. solve_preserves_with ltac:(fun _ => lazymatch goal with
    | |- preserves _ (tx_set _ _) => apply preserves_set_or
    | |- preserves _ (native _) => apply preserves_native_or end).
Qed.
End client.

(** ** Lemmas: one message id, one ciphertext *)

Section messages.
Context {W : Type} `{World W} `{Native W} `{Crypto} `{!CryptoLaws} `{!NativeLaws}.

Definition trusted_as (s : records * W) (a : DeviceAddress) : option bytes :=
  match get (trust_key a) s.1 with Some b => pk_deserialize b | None => None end.

Lemma getIdentity_run a s :
  getIdentity a s = (match get (trust_key a) s.1 with
                     | None => Ok None
                     | Some b => match pk_deserialize b with
                                 | Some k => Ok (Some k)
                                 | None => Err (ErrOther (js "native")) end
                     end, s).
Proof.
  unfold getIdentity, bind, tx_get, gets, from_option. destruct (get _ _) as [b|]; [|done].
  by destruct (pk_deserialize b).
Qed.
Lemma getIdentity_trusted a s k s' :
  getIdentity a s = (Ok (Some k), s') -> trusted_as s a = Some k /\ s' = s.
Proof.
  rewrite getIdentity_run. unfold trusted_as. destruct (get _ _) as [b|]; [|done].
  destruct (pk_deserialize b) as [k'|]; [|done]. by intros [= <- <-].
Qed.
Lemma trusted_getIdentity a s k : trusted_as s a = Some k -> getIdentity a s = (Ok (Some k), s).
Proof.
  rewrite getIdentity_run. unfold trusted_as. destruct (get _ _) as [b|]; [|done].
  destruct (pk_deserialize b) as [k'|]; [|done]. by intros [= ->].
Qed.

(** What the outbox holds for a message that was sent. *)
Definition sent (s : records * W) (r : DeviceAddress) (i : jstr) (hash : jstr) (o : Outgoing) : Prop :=
  exists bs record, get (outbox_key r i) s.1 = Some bs /\ json_decode bs = Some record
    /\ record <> JNull
    /\ field (js "contentHash") record = Some (JStr hash)
    /\ forall s0 : records * W, outgoing record s0 = (Ok o, s0).

Lemma outgoing_ok record s o s' :
  outgoing (W := W) record s = (Ok o, s') -> s' = s /\ forall s0 : records * W, outgoing record s0 = (Ok o, s0).
Proof.
  unfold outgoing. destruct (field _ record) as [[]|] eqn:E; try done.
  intros [= <- <-]. split; [done|]. intros ?. reflexivity.
Qed.

Lemma outbox_record_ok i t b h :
  forallb unit_ok i = true -> Forall byte_range b -> forallb unit_ok h = true ->
  json_ok (outbox_record i t b h) = true.
Proof.
  intros Hi Hb Hh. unfold outbox_record.
  change (json_ok (JObj ?l)) with (keys_ok l && forallb (fun kv => json_ok kv.2) l).
  apply andb_true_iff. split; [vm_compute; reflexivity|].
  cbn [forallb snd json_ok]. by rewrite Hi, Hh, (btoa_units _ Hb).
Qed.
Lemma content_hash_units i p : forallb unit_ok (content_hash i p) = true.
Proof. apply hex_units, sha256_bytes. Qed.

Lemma field_head k v l : field k (JObj ((k, v) :: l)) = Some v.
Proof. cbn. by rewrite eqb_refl. Qed.
Lemma outbox_record_hash i t b h : field (js "contentHash") (outbox_record i t b h) = Some (JStr h).
Proof. unfold outbox_record. cbn [field obj_get]. by vm_compute (eqb _ _). Qed.

Lemma encrypt_ok l r i p s o s' :
  forallb unit_ok i = true -> encrypt l r i p s = (Ok o, s') ->
  sent s' r i (content_hash i p) o
  /\ address_ok r = true /\ negb (eqb i []) && (len i <=? 256) = true
  /\ (64 * 1024 <? utf8_length p) = false /\ is_Some (trusted_as s' r).
Proof.
  intros Hi Hrun. pose proof Hrun as Hrun0. unfold encrypt, assertAddress, assertMessageId in Hrun.
  apply bind_ok in Hrun as (? & s1 & Ha & Hrun).
  destruct (address_ok r) eqn:Ea; [|done]. apply ret_ok in Ha as [_ ->].
  apply bind_ok in Hrun as (? & s1 & Hm & Hrun).
  destruct (negb (eqb i []) && (len i <=? 256)) eqn:Em; [|done]. apply ret_ok in Hm as [_ ->].
  destruct (64 * 1024 <? utf8_length p) eqn:El; [done|].
  apply bind_ok in Hrun as (id & s1 & Hid & Hrun). destruct id as [id|]; [|done].
  apply getIdentity_trusted in Hid as [Hid ->].
  assert (is_Some (trusted_as s' r)) as Htrust.
  { unfold trusted_as. pose proof (preserves_encrypt l r i p s (trust_key r)) as Hk.
    rewrite Hrun0 in Hk. cbn [snd] in Hk. rewrite Hk; [unfold trusted_as in Hid; rewrite Hid; eauto|].
    apply orb_false_iff. split; [apply not_native_key; vm_compute; reflexivity|].
    apply eqb_neq, clash_ne. vm_compute. reflexivity. }
  enough (sent s' r i (content_hash i p) o) by done.
  apply bind_ok in Hrun as (prev & s1 & Hp & Hrun). apply tx_get_ok in Hp as [-> ->].
  destruct (get (outbox_key r i) s.1) as [bs|] eqn:Eo.
  - apply bind_ok in Hrun as (record & s1 & Hd & Hrun). apply from_option_ok in Hd as [Hd ->].
    apply bind_ok in Hrun as (h & s1 & Hh & Hrun).
    assert (h = field (js "contentHash") record /\ s1 = s /\ record <> JNull) as (-> & -> & Hnn).
    { unfold property in Hh. destruct record; try done; apply ret_ok in Hh as [<- ->]; split_and!; done. }
    destruct (eqb (field (js "contentHash") record) _) eqn:Eh in Hrun; [|by destruct (fail_ok _ _ _ _ Hrun)]. rewrite eqb_eq in Eh.
    apply outgoing_ok in Hrun as [-> Ho]. exists bs, record. by split_and!.
  - apply bind_ok in Hrun as (m & s1 & Hn & Hrun).
    apply bind_ok in Hn as (pr & s0 & Hw & Hn).
    assert (Forall byte_range m.2) as Hb.
    { eapply (run_native_returns (fun m => Forall byte_range m.2)); [|exact Hn].
      unfold world_call in Hw. pose proof (encrypt_bytes (message_payload i p) r l s.2) as He.
      destruct (signalEncrypt _ r l s.2) as [q w]. injection Hw as <- _. exact He. }
    apply bind_ok in Hrun as (? & s2 & Hset & Hrun). apply tx_set_ok in Hset as ->.
    apply outgoing_ok in Hrun as [-> Ho].
    exists (json_encode (outbox_record i m.1 m.2 (content_hash i p))), (outbox_record i m.1 m.2 (content_hash i p)).
    split; [cbn; by rewrite get_set_eq|]. split.
    { apply json_decode_encode, outbox_record_ok; [done|done|apply content_hash_units]. }
    split; [done|]. split; [apply outbox_record_hash|done].
Qed.

Lemma encrypt_sent l r i p h o s :
  address_ok r = true -> negb (eqb i []) && (len i <=? 256) = true ->
  (64 * 1024 <? utf8_length p) = false -> is_Some (trusted_as s r) ->
  sent s r i h o ->
  encrypt l r i p s =
    (if eqb (content_hash i p) h then Ok o
     else Err (ErrOther (js "Message id already used with different content")), s).
Proof.
  intros Ha Hm Hl [k Hk] (bs & record & Hg & Hd & Hnn & Hh & Ho).
  unfold encrypt, assertAddress, assertMessageId. rewrite Ha, Hm, Hl.
  unfold bind, ret. rewrite (trusted_getIdentity r s k Hk).
  unfold tx_get, gets. rewrite Hg. unfold decode, from_option. rewrite Hd. unfold ret.
  assert (property (js "contentHash") record s = (Ok (Some (JStr h)), s)) as ->
    by (destruct record; try done; cbn [property]; by rewrite Hh).
  destruct (eqb (content_hash i p) h) eqn:E.
  - apply eqb_eq in E as ->. rewrite eqb_refl. apply Ho.
  - apply eqb_neq in E. rewrite (proj2 (eqb_neq _ _)) by congruence. done.
Qed.
Lemma retry_sent r i h o s :
  address_ok r = true -> negb (eqb i []) && (len i <=? 256) = true ->
  is_Some (trusted_as s r) -> sent s r i h o -> retry r i s = (Ok o, s).
Proof.
  intros Ha Hm Hk (bs & record & Hg & Hd & Hnn & Hh & Ho).
  unfold retry, assertAddress, assertMessageId, requireRecord. rewrite Ha, Hm.
  unfold trusted_as in Hk. unfold bind, ret, tx_get, gets, from_option, decode, from_option.
  destruct (get (trust_key r) s.1); [|by destruct Hk]. unfold ret. cbn beta iota.
  rewrite Hg. cbn beta iota. rewrite Hd. apply Ho.
Qed.

(** Steps that leave the outbox record and the approval of [r] alone keep the
    message sent. *)
Lemma sent_stable (s s' : records * W) r i h o :
  get (outbox_key r i) s'.1 = get (outbox_key r i) s.1 -> sent s r i h o -> sent s' r i h o.
Proof. intros E (bs & record & Hg & ?). exists bs, record. by rewrite E. Qed.

(** C6: a message id names one ciphertext.  Once a message was encrypted for a
    device, encrypting the same text under the same id and retrying it answer the
    stored ciphertext and change nothing, in every later state that still holds
    the outbox record and the approval, whatever happened in between to the
    session; any other text under that id is refused (unless SHA-256 collides on
    the two payloads). *)
Theorem encrypt_once l r i p s o s' :
  forallb unit_ok i = true -> encrypt l r i p s = (Ok o, s') ->
  forall s2 l2, get (outbox_key r i) s2.1 = get (outbox_key r i) s'.1 ->
                get (trust_key r) s2.1 = get (trust_key r) s'.1 ->
  encrypt l2 r i p s2 = (Ok o, s2) /\ retry r i s2 = (Ok o, s2)
  /\ forall p', (64 * 1024 <? utf8_length p') = false ->
       sha256 (message_payload i p') <> sha256 (message_payload i p) ->
       encrypt l2 r i p' s2
       = (Err (ErrOther (js "Message id already used with different content")), s2).
Proof.
  intros Hi Hrun s2 l2 Ho Ht.
  destruct (encrypt_ok l r i p s o s' Hi Hrun) as (Hs & Ha & Hm & Hl & Hk).
  apply (sent_stable s' s2) in Hs; [|done].
  assert (is_Some (trusted_as s2 r)) as Hk2 by (unfold trusted_as in *; by rewrite Ht).
  split_and!.
  - rewrite (encrypt_sent l2 r i p _ o s2 Ha Hm Hl Hk2 Hs). by rewrite eqb_refl.
  - by eapply retry_sent.
  - intros p' Hl' Hne. rewrite (encrypt_sent l2 r i p' _ o s2 Ha Hm Hl' Hk2 Hs).
    rewrite (proj2 (eqb_neq _ _)); [done|]. intros E%hex_inj; [done|apply sha256_bytes..].
Qed.
End messages.

(** ** Lemmas: fresh prekey identifiers *)

Lemma leading_digits_all s : forallb is_digit s = true -> leading_digits s = s.
Proof.
  induction s as [|u s IH]; cbn; [done|]. rewrite andb_true_iff. intros [-> Hs]. by rewrite IH.
Qed.
Lemma parseInt10_show n : 0 < n -> parseInt10 (show_Z n) = Some n.
Proof.
  intros Hn. destruct (show_Z_nonneg n) as (u & Eu & _); [lia|].
  pose proof (uint_units_digits u) as Hd. rewrite <- Eu in Hd.
  destruct (show_Z n) as [|c d] eqn:E; [by destruct n as [|p|p]; try lia; destruct (uint_units_nonempty p)|].
  pose proof Hd as Hd'. cbn in Hd'. apply andb_true_iff in Hd' as [Hc _].
  unfold is_digit in Hc. apply andb_true_iff in Hc as [Hc1 Hc2]. bool_to_prop.
  unfold parseInt10. cbn [trim_start].
  assert (is_js_space c = false) as -> by (unfold is_js_space; by decide_bool).
  assert ((c =? 45) = false) as -> by (apply Z.eqb_neq; lia).
  assert ((c =? 43) = false) as -> by (apply Z.eqb_neq; lia).
  unfold parse_nat10. rewrite leading_digits_all by done. f_equal. rewrite <- E.
  apply show_Z_read. lia.
Qed.
Lemma fold_max_ge l c x : x = c \/ x ∈ l -> x <= fold_left Z.max l c.
Proof.
  revert c x. induction l as [|y l IH]; intros c x; cbn.
  - intros [->|H]; [lia|by apply not_elem_of_nil in H].
  - intros [->|[->|H]%elem_of_cons].
    + transitivity (Z.max c y); [lia|]. apply IH. by left.
    + transitivity (Z.max c y); [lia|]. apply IH. by left.
    + apply IH. by right.
Qed.
Lemma allocated_pre_key n ks :
  between 1 max_safe_integer n = true -> pre_key n ∈ ks -> n ∈ allocated_ids ks.
Proof.
  intros Hn Hin. unfold allocated_ids. apply list_elem_of_omap. exists (pre_key n). split; [done|].
  unfold pre_key. assert (drop 4 (js "pre:" ++ show_Z n) = show_Z n) as ->.
  { by rewrite drop_app_length' by (vm_compute; reflexivity). }
  rewrite parseInt10_show; [by rewrite Hn|]. unfold between in Hn. bool_to_prop. lia.
Qed.
Lemma pre_key_inj a b : pre_key a = pre_key b -> a = b.
Proof. unfold pre_key. intros E%app_inv_head. by apply show_Z_inj. Qed.
Lemma pre_key_pointer n : pre_key n <> oneTimePreKeyPointer.
Proof.
  unfold pre_key, oneTimePreKeyPointer. rewrite <- (app_nil_r (js "pre-current")).
  apply clash_ne. vm_compute. reflexivity.
Qed.

Section prekeys.
Context {W : Type} `{World W} `{Native W} `{Crypto}.

Lemma current_read (s : records * W) n s' :
  currentOneTimePreKeyId s = (Ok n, s') -> s' = s /\ 1 <= n <= maxOneTimePreKeyId.
Proof.
  unfold currentOneTimePreKeyId, maxOneTimePreKeyId. intros Hr.
  apply bind_ok in Hr as (v & s1 & Hv & Hr). apply tx_get_ok in Hv as [-> ->].
  destruct (get _ _) as [bs|]; [|apply ret_ok in Hr as [<- ->]; split; [done|lia]].
  apply bind_ok in Hr as (j & s1 & Hj & Hr). apply from_option_ok in Hj as [_ ->].
  destruct j; try done. destruct (between _ _ _) eqn:E; [|done]. apply ret_ok in Hr as [<- ->].
  split; [done|]. unfold between in E. bool_to_prop. lia.
Qed.

(** A rotated one-time prekey is new and nothing is forgotten.
    [rotateOneTimePreKey] answers an identifier no stored prekey has, within the
    protocol's 24 bits, stores a record under it, makes it the offered one, and
    keeps every prekey record that was there. *)
Theorem rotate_fresh s n s' :
  rotateOneTimePreKey (W := W) s = (Ok n, s') ->
  1 < n <= maxOneTimePreKeyId
  /\ get (pre_key n) s.1 = None /\ is_Some (get (pre_key n) s'.1)
  /\ currentOneTimePreKeyId s' = (Ok n, s')
  /\ (forall k, k <> pre_key n -> k <> oneTimePreKeyPointer -> get k s'.1 = get k s.1).
Proof.
  unfold rotateOneTimePreKey. intros Hr.
  apply bind_ok in Hr as (? & s1 & Hi & Hr).
  assert (s1 = s) as ->.
  { apply bind_ok in Hi as (? & ? & Hg & Hi). apply tx_get_ok in Hg as [-> ->].
    by apply from_option_ok in Hi as [_ ->]. }
  apply bind_ok in Hr as (ks & s1 & Hk & Hr). injection Hk as <- <-.
  apply bind_ok in Hr as (c & s1 & Hc & Hr). apply current_read in Hc as [-> Hc].
  cbv zeta in Hr. set (n' := fold_left Z.max _ c + 1) in Hr.
  assert (c < n') by (subst n'; pose proof (fold_max_ge (allocated_ids (keys_with (js "pre:") s.1)) c c); lia).
  destruct (maxOneTimePreKeyId <? n') eqn:Em; [done|]. bool_to_prop.
  apply bind_ok in Hr as (pre & s1 & Hw & Hr).
  unfold world_call in Hw. destruct (sk_generate s.2) as [sk w]. injection Hw as <- <-.
  apply bind_ok in Hr as (? & s1 & Hs & Hr). apply tx_set_ok in Hs as ->.
  apply bind_ok in Hr as (? & s1 & Hs & Hr). apply tx_set_ok in Hs as ->.
  apply ret_ok in Hr as [<- ->]. cbn [fst snd].
  assert (between 1 max_safe_integer n' = true) as Hb.
  { unfold between, maxOneTimePreKeyId, max_safe_integer in *. by decide_bool. }
  split; [lia|]. split; [|split; [|split]].
  - apply get_None. intros Hin.
    assert (n' <= fold_left Z.max (allocated_ids (keys_with (js "pre:") s.1)) c); [|subst n'; lia].
    apply fold_max_ge. right. apply allocated_pre_key; [done|].
    apply elem_of_keys_with. split; [apply starts_with_app|done].
  - rewrite get_set_ne by (intros E; symmetry in E; by apply pre_key_pointer in E).
    by rewrite get_set_eq.
  - unfold currentOneTimePreKeyId, bind, tx_get, gets. cbn [fst]. rewrite get_set_eq.
    unfold decode, from_option. rewrite json_decode_encode by done. unfold ret.
    assert (between 1 maxOneTimePreKeyId n' = true) as ->; [|done].
    unfold between. apply andb_true_iff. rewrite !Z.leb_le. lia.
  - intros k Hk1 Hk2. rewrite !get_set_ne by done. done.
Qed.
End prekeys.

(** ** Lemmas: received messages, approvals *)

Section received.
Context {W : Type} `{World W} `{Native W} `{Crypto}.

Lemma decrypt_inv l r m s body s' :
  decrypt (W := W) l r m s = (Ok body, s') ->
  get (inbox_key r (c_messageId m)) s.1 = None
  /\ get (inbox_key r (c_messageId m)) s'.1 = Some (message_payload (c_messageId m) body).
Proof.
  unfold decrypt, assertAddress, assertMessageId. intros Hr.
  apply bind_ok in Hr as (? & s1 & Ha & Hr).
  destruct (address_ok r); [|done]. apply ret_ok in Ha as [_ ->].
  apply bind_ok in Hr as (? & s1 & Hm & Hr).
  destruct (negb _ && _); [|done]. apply ret_ok in Hm as [_ ->].
  destruct (1024 * 1024 <? _); [done|].
  apply bind_ok in Hr as (seen & s1 & Hs & Hr). apply tx_get_ok in Hs as [-> ->].
  destruct (get _ s.1); [done|]. split; [done|].
  apply bind_ok in Hr as (pt & s1 & _ & Hr).
  apply bind_ok in Hr as (payload & s2 & _ & Hr).
  assert (exists i b, (if eqb i (c_messageId m) then
              tx_set (inbox_key r (c_messageId m)) (message_payload (c_messageId m) b);; ret b
            else fail (js "Authenticated message payload mismatch")) s2 = (Ok body, s')) as (i & b & Hr').
  { destruct payload; try done;
      (destruct (field (js "messageId") _) as [[]|]; try done;
       destruct (field (js "body") _) as [[]|]; try done; by eexists _, _). }
  destruct (eqb i _); [|done].
  apply bind_ok in Hr' as (? & s3 & Hset & Hr'). apply tx_set_ok in Hset as ->.
  apply ret_ok in Hr' as [<- ->]. cbn. apply get_set_eq.
Qed.

(** C7: a message is received at most once.  A successful decrypt found no earlier
    message with that sender and id, records the authenticated body under them,
    and from then on, as long as that record is there, no ciphertext is accepted
    for that sender and id and nothing changes. *)
Theorem decrypt_at_most_once l r m s body s' :
  decrypt (W := W) l r m s = (Ok body, s') ->
  get (inbox_key r (c_messageId m)) s.1 = None
  /\ get (inbox_key r (c_messageId m)) s'.1 = Some (message_payload (c_messageId m) body)
  /\ forall l2 m2 s2, c_messageId m2 = c_messageId m ->
       get (inbox_key r (c_messageId m)) s2.1 = get (inbox_key r (c_messageId m)) s'.1 ->
       exists e, decrypt l2 r m2 s2 = (Err e, s2).
Proof.
  intros Hrun. destruct (decrypt_inv l r m s body s' Hrun) as [Hn Hs]. split; [done|]. split; [done|].
  intros l2 m2 s2 Hid Hget. rewrite Hs in Hget.
  unfold decrypt, assertAddress, assertMessageId, bind. rewrite Hid.
  destruct (address_ok r); cbn [ret]; [|by eexists].
  destruct (negb _ && _); cbn [ret]; [|by eexists].
  destruct (1024 * 1024 <? _); [by eexists|]. unfold tx_get, gets, ret. rewrite Hget. by eexists.
Qed.
End received.

Section approvals.
Context {W : Type} `{World W} `{Native W} `{Crypto} `{!NativeLaws}.

(** The methods of the client, as the steps of a history. *)
Inductive operation : Type :=
  | OpCreate (a : DeviceAddress)
  | OpPublicBundle (local : DeviceAddress)
  | OpRotate
  | OpApprove (a : DeviceAddress) (serialized : bytes)
  | OpEstablish (local r : DeviceAddress) (b : prekey_bundle)
  | OpEncrypt (local r : DeviceAddress) (messageId plaintext : jstr)
  | OpRetry (r : DeviceAddress) (messageId : jstr)
  | OpDecrypt (local r : DeviceAddress) (m : StoredCiphertext).
Definition run_operation (o : operation) (s : records * W) : records * W :=
  match o with
  | OpCreate a => (create a s).2
  | OpPublicBundle l => (publicBundle l s).2
  | OpRotate => (rotateOneTimePreKey s).2
  | OpApprove a b => (approveRemote a b s).2
  | OpEstablish l r b => (establish l r b s).2
  | OpEncrypt l r i p => (encrypt l r i p s).2
  | OpRetry r i => (retry r i s).2
  | OpDecrypt l r m => (decrypt l r m s).2
  end.

Lemma trust_not_native a : native_key (trust_key a) = false.
Proof. apply not_native_key. vm_compute. reflexivity. Qed.
Lemma literal_not_trust q a : clash q (js "trust:") = true -> eqb (trust_key a) q = false.
Proof.
  intros Hc. apply eqb_neq. intros E. rewrite <- (app_nil_r q) in E.
  symmetry in E. by apply (clash_ne _ _ _ _ Hc) in E.
Qed.
Lemma eqb_sym_false {A} `{EqDecision A} (x y : A) : eqb x y = false -> eqb y x = false.
Proof. rewrite !eqb_neq. auto. Qed.
Lemma create_not_trust a : create_key (trust_key a) = false.
Proof.
  unfold create_key. rewrite !literal_not_trust by (vm_compute; reflexivity). apply trust_not_native.
Qed.
Lemma rotate_not_trust a : rotate_key (trust_key a) = false.
Proof.
  unfold rotate_key, oneTimePreKeyPointer. rewrite (literal_not_trust (js "pre-current")) by (vm_compute; reflexivity).
  rewrite orb_false_r. apply clash_starts_with. vm_compute. reflexivity.
Qed.
Lemma outbox_not_trust r i a : native_key (trust_key a) || eqb (outbox_key r i) (trust_key a) = false.
Proof. rewrite trust_not_native. apply eqb_neq, clash_ne. vm_compute. reflexivity. Qed.
Lemma inbox_not_trust r i a : native_key (trust_key a) || eqb (inbox_key r i) (trust_key a) = false.
Proof. rewrite trust_not_native. apply eqb_neq, clash_ne. vm_compute. reflexivity. Qed.

Lemma trust_untouched o s a :
  (forall a' b, o = OpApprove a' b -> trust_key a' <> trust_key a) ->
  get (trust_key a) (run_operation o s).1 = get (trust_key a) s.1.
Proof.
  intros Ho. destruct o as [x| | |a' b|l r b|l r i p|r i|l r m]; cbn [run_operation].
  - apply preserves_create, create_not_trust.
  - by apply preserves_publicBundle.
  - apply preserves_rotate, rotate_not_trust.
  - apply preserves_approveRemote. apply eqb_neq. by eapply Ho.
  - apply preserves_establish, trust_not_native.
  - apply preserves_encrypt, outbox_not_trust.
  - by apply preserves_retry.
  - apply preserves_decrypt, inbox_not_trust.
Qed.

Lemma approve_cases a b s :
  approveRemote a b s = (Err (ErrOther (js "Invalid device address")), s)
  \/ (exists e, approveRemote a b s = (Err e, s))
  \/ exists key, pk_deserialize b = Some key
     /\ (get (trust_key a) s.1 = None \/ trusted_as s a = Some key)
     /\ approveRemote a b s = (Ok tt, (set (trust_key a) key s.1, s.2)).
Proof.
  unfold approveRemote, assertAddress, bind. destruct (address_ok a); [|by left].
  unfold ret, from_option. destruct (pk_deserialize b) as [key|]; [|right; left; by eexists].
  unfold ret. rewrite getIdentity_run. unfold trusted_as.
  destruct (get (trust_key a) s.1) as [old|] eqn:E; [|right; right; exists key; by auto].
  destruct (pk_deserialize old) as [k|]; [|right; left; by eexists].
  destruct (eqb k key) eqn:Ek; [|right; left; by eexists].
  apply eqb_eq in Ek as ->. right. right. exists key. by auto.
Qed.

(** C1: trust comes from explicit approval and is never replaced.  Whatever method
    of the client runs, with whatever native code behind it and whether it
    succeeds or throws, a device that was trusted with a key is still trusted with
    that key, and a device newly trusted with a key is one [approveRemote] was
    called for with that key. *)
Theorem trust_only_by_approval o s a :
  (forall k, trusted_as s a = Some k -> trusted_as (run_operation o s) a = Some k)
  /\ (forall k, trusted_as (run_operation o s) a = Some k ->
        trusted_as s a = Some k
        \/ exists a' b, o = OpApprove a' b /\ trust_key a' = trust_key a /\ pk_deserialize b = Some k).
Proof.
  assert ((exists a' b, o = OpApprove a' b /\ trust_key a' = trust_key a)
    \/ ~ exists a' b, o = OpApprove a' b /\ trust_key a' = trust_key a) as [(a' & b & -> & Ea)|Hno].
  { destruct o as [| | |a' b| | | |]; try (right; intros (? & ? & E & _); discriminate E).
    destruct (decide (trust_key a' = trust_key a)); [left; eauto|right; intros (? & ? & [= <- <-] & ?); done]. }
  - cbn [run_operation]. destruct (approve_cases a' b s) as [E|[[e E]|(key & Hk & Ho & E)]]; rewrite E; cbn [snd].
    1-2: split; auto.
    unfold trusted_as in *. cbn [fst]. rewrite <- Ea, get_set_eq, (pk_canonical _ _ Hk). split.
    + intros k Hk'. destruct Ho as [Ho|Ho]; [by rewrite Ho in Hk'|congruence].
    + intros k [= <-]. right. by exists a', b.
  - assert (get (trust_key a) (run_operation o s).1 = get (trust_key a) s.1) as E.
    { apply trust_untouched. intros a' b -> E. apply Hno. by exists a', b. }
    unfold trusted_as. rewrite E. auto.
Qed.
End approvals.

(** ** Lemmas: the identity of a store *)

Section identity.
Context {W : Type} `{World W} `{Native W} `{Crypto} `{!NativeLaws}.

(** The store holds the identity of the device with this address key. *)
Definition owned_by (s : records * W) (key : jstr) : Prop :=
  exists bs metadata ib,
    get (js "device") s.1 = Some bs /\ json_decode bs = Some metadata
    /\ (forall s0 : records * W, storedAddressKey metadata s0 = (Ok key, s0))
    /\ get (js "identity") s.1 = Some ib /\ is_Some (sk_deserialize ib).

Lemma create_owned b s key :
  owned_by s key -> address_ok b = true ->
  create b s = (if eqb key (addressKey b) then Ok tt
                else Err (ErrOther (js "Store belongs to another local device")), s).
Proof.
  intros (bs & md & ib & Hg & Hd & Hk & Hi & [sk Hsk]) Hb.
  unfold create, assertAddress, bind. rewrite Hb. unfold ret, tx_get, gets. rewrite Hg.
  unfold decode, from_option. rewrite Hd. unfold ret. rewrite Hk.
  destruct (eqb key (addressKey b)); cbn [negb]; [|done].
  unfold requireRecord, bind, tx_get, gets, from_option. rewrite Hi. unfold ret. by rewrite Hsk.
Qed.

Lemma device_metadata_ok a n :
  forallb unit_ok (name a) = true -> json_ok (device_metadata a n) = true.
Proof.
  intros Ha. unfold device_metadata.
  change (json_ok (JObj ?l)) with (keys_ok l && forallb (fun kv => json_ok kv.2) l).
  apply andb_true_iff. split; [vm_compute; reflexivity|]. cbn [forallb snd].
  change (json_ok (JObj ?l)) with (keys_ok l && forallb (fun kv => json_ok kv.2) l).
  rewrite !andb_true_iff. split; [|done]. split; [vm_compute; reflexivity|].
  cbn [forallb snd json_ok]. by rewrite Ha.
Qed.
Lemma literal_field k k' v l : eqb (js k) (js k') = false -> obj_get (js k') ((js k, v) :: l) = obj_get (js k') l.
Proof. intros E. cbn. by rewrite E. Qed.
Lemma device_metadata_key a n (s : records * W) :
  storedAddressKey (device_metadata a n) s = (Ok (addressKey a), s).
Proof.
  unfold device_metadata, storedAddressKey, addressKey. rewrite field_head.
  unfold sub_field. rewrite field_head. cbn [field]. rewrite literal_field by (vm_compute; reflexivity).
  cbn [obj_get]. rewrite eqb_refl. done.
Qed.

Lemma create_ok_cases a s s' :
  forallb unit_ok (name a) = true -> create a s = (Ok tt, s') ->
  (s' = s /\ owned_by s (addressKey a)) \/ (s.1 = [] /\ owned_by s' (addressKey a)).
Proof.
  intros Hu. unfold create, assertAddress. intros Hr.
  apply bind_ok in Hr as (? & s1 & Ha & Hr).
  destruct (address_ok a) eqn:Ea; [|done]. apply ret_ok in Ha as [_ ->].
  apply bind_ok in Hr as (stored & s1 & Hg & Hr). apply tx_get_ok in Hg as [-> ->].
  destruct (get (js "device") s.1) as [bs|] eqn:Eg.
  - apply bind_ok in Hr as (md & s1 & Hd & Hr). apply from_option_ok in Hd as [Hd ->].
    apply bind_ok in Hr as (key & s1 & Hk & Hr).
    assert (s1 = s /\ forall s0 : records * W, storedAddressKey md s0 = (Ok key, s0)) as [-> Hk'].
    { unfold storedAddressKey in *. destruct md; try done;
        (destruct (field _ _) as [[]|]; try done; apply ret_ok in Hk as [<- ->]; done). }
    destruct (negb _) eqn:En; [done|]. apply negb_false_iff in En. rewrite eqb_eq in En. subst key.
    apply bind_ok in Hr as (ib & s1 & Hi & Hr).
    apply bind_ok in Hi as (? & s2 & Hi & Hi'). apply tx_get_ok in Hi as [-> ->].
    apply from_option_ok in Hi' as [Hi ->].
    apply bind_ok in Hr as (sk & s1 & Hsk & Hr). apply from_option_ok in Hsk as [Hsk ->].
    apply ret_ok in Hr as [_ ->]. left. split; [done|]. exists bs, md, ib. by split_and!.
  - apply bind_ok in Hr as (ks & s1 & Hks & Hr). injection Hks as <- <-.
    destruct (negb _) eqn:En; [done|]. apply negb_false_iff in En. rewrite eqb_eq in En.
    right. assert (s.1 = []) as E0.
    { unfold keys_with in En. destruct (s.1) as [|[k v] l]; [done|].
      cbn in En. unfold starts_with in En. cbn in En. by rewrite eqb_refl in En. }
    split; [done|].
    apply bind_ok in Hr as (identity & s1 & Hw & Hr).
    assert (is_Some (sk_deserialize identity)) as Hsk.
    { unfold world_call in Hw. pose proof (sk_roundtrip s.2) as Hs.
      destruct (sk_generate s.2). by injection Hw as <- _. }
    do 3 (apply bind_ok in Hr as (? & ? & _ & Hr)).
    apply bind_ok in Hr as (reg & ? & _ & Hr).
    apply bind_ok in Hr as (? & s3 & Hset & Hr). apply tx_set_ok in Hset as ->.
    apply bind_ok in Hr as (? & s4 & Hset & Hr). apply tx_set_ok in Hset as ->. cbn [fst snd] in Hr.
    exists (json_encode (device_metadata a reg)), (device_metadata a reg), identity.
    match type of Hr with ?m ?s5 = _ => set (rest := m) in Hr; set (s5' := s5) in Hr end.
    assert (preserves (same_outside native_key) rest) as Hrest.
    { subst rest. solve_preserves_with ltac:(fun _ => lazymatch goal with
        | |- preserves _ (tx_set (pre_key _) _) => apply preserves_tx_set, pre_key_native
        | |- preserves _ (tx_set (signed_key _) _) => apply preserves_tx_set, signed_key_native
        | |- preserves _ (tx_set (kyber_key _) _) => apply preserves_tx_set, kyber_key_native end). }
    specialize (Hrest s5'). rewrite Hr in Hrest. cbn [snd] in Hrest.
    assert (forall q, forallb (fun p => clash p q) native_prefixes = true -> native_key q = false) as Hlit
      by (intros q Hq; rewrite <- (app_nil_r q); by apply not_native_key).
    split; [|split; [|split; [|split; [|done]]]].
    + rewrite Hrest by (apply Hlit; vm_compute; reflexivity). subst s5'. cbn [fst].
      rewrite get_set_ne, get_set_eq; [done|]. intros E. apply (f_equal length) in E. vm_compute in E. lia.
    + by apply json_decode_encode, device_metadata_ok.
    + intros s0. apply device_metadata_key.
    + rewrite Hrest by (apply Hlit; vm_compute; reflexivity). subst s5'. cbn [fst]. apply get_set_eq.
Qed.

(** A store belongs to one device for good.  [create] either accepts a store
    that already is this device's, changing nothing, or fills an empty one; in
    every later state that still holds the device and identity records it accepts
    this address again, changing nothing, and refuses every other; and a store
    with records but no device record is refused untouched. *)
Theorem create_pins_device a s s' :
  forallb unit_ok (name a) = true -> create a s = (Ok tt, s') ->
  (s' = s \/ s.1 = [])
  /\ (forall b s2, get (js "device") s2.1 = get (js "device") s'.1 ->
                   get (js "identity") s2.1 = get (js "identity") s'.1 ->
                   forallb unit_ok (name b) = true -> address_ok b = true ->
      create b s2 = (if decide (b = a) then Ok tt
                     else Err (ErrOther (js "Store belongs to another local device")), s2))
  /\ (forall b s2, get (js "device") s2.1 = None -> s2.1 <> [] ->
      exists e, create b s2 = (Err e, s2)).
Proof.
  intros Hu Hr. assert (owned_by s' (addressKey a)) as Ho
    by (destruct (create_ok_cases a s s' Hu Hr) as [[-> ?]|[_ ?]]; done).
  split; [destruct (create_ok_cases a s s' Hu Hr) as [[-> ?]|[? _]]; auto|]. split.
  - intros b s2 Hd Hi Hub Hb.
    rewrite (create_owned b s2 (addressKey a)); [|
      destruct Ho as (bs & md & ib & ? & ? & ? & ? & ?); exists bs, md, ib; by rewrite Hd, Hi|done].
    case_decide as E; [by rewrite E, eqb_refl|].
    rewrite (proj2 (eqb_neq _ _)); [done|]. intros E'%addressKey_inj; auto.
  - intros b s2 Hd Hne. unfold create, assertAddress, bind.
    destruct (address_ok b); [|by eexists]. unfold ret, tx_get, tx_keys, gets. rewrite Hd.
    destruct s2 as [[|[k v] l] w]; [done|]. cbn [fst keys_with keys fmap list_fmap].
    unfold keys_with, keys. cbn [fmap list_fmap fst]. rewrite filter_cons_True by (unfold starts_with; by rewrite eqb_eq).
    by eexists.
Qed.
End identity.

(** ** Witnesses *)
Module ToyNative.
#[export] Instance native : Native Toy.world := {|
  sk_deserialize b := Some b;
  sk_generate w := ([Toy.byte w; 1], w + 1);
  sk_public b := 5 :: Toy.pad 32 b;
  sk_sign k m w := (Toy.pad 64 (k ++ m), w);
  pk_deserialize b := match b with [] => None | _ => Some b end;
  pk_verify _ _ _ := true;
  kem_generate w := ([Toy.byte w; 2], w + 1);
  kem_public b := 8 :: Toy.pad 1568 b;
  kem_pk_deserialize b := Some b;
  prekey_new id pub priv := Toy.byte id :: pub;
  prekey_deserialize b := Some b;
  prekey_id b := match b with i :: _ => i | [] => 0 end;
  prekey_public b := drop 1 b;
  signed_prekey_new id ts pub priv sig := Toy.byte id :: pub ++ sig;
  kyber_prekey_new id ts pair sig := Toy.byte id :: 8 :: Toy.pad 1568 pair ++ sig;
  signed_prekey_deserialize b := Some b;
  kyber_prekey_deserialize b := Some b;
  signed_id b := match b with i :: _ => i | [] => 0 end;
  signed_public b := take 33 (drop 1 b);
  signed_signature b := drop 34 b;
  kyber_id b := match b with i :: _ => i | [] => 0 end;
  kyber_public b := take 1569 (drop 1 b);
  kyber_signature b := drop 1570 b;
  session_deserialize b := Some b;
  prekey_message_deserialize b := Some b;
  message_deserialize b := Some b;
  processPreKeyBundle bundle r l w := (SaveSession r [1] (Done tt), w);
  signalEncrypt payload r l w := (SaveSession r [Toy.byte w] (Done (2, map Toy.byte payload)), w + 1);
  signalDecryptPreKey m r l w := (SaveSession r [2] (Done m), w);
  signalDecrypt m r l w := (Done m, w);
|}.
#[export] Instance laws : NativeLaws.
Proof.
  split; cbn.
  - intros [|x b] c; [done|]. by intros [= <-].
  - intros. apply Toy.byte_bytes.
  - intros. by eexists.
Qed.
Definition alice : DeviceAddress := {| name := js "alice"; deviceId := 1 |}.
Definition bob : DeviceAddress := {| name := js "bob"; deviceId := 1 |}.
(** A store of Alice's that trusts Bob. *)
Definition s0 : records * Toy.world :=
  run_operation (H := Toy.world_ops) (H0 := native) (H1 := Toy.crypto) (OpApprove bob [5; 9])
    (run_operation (H := Toy.world_ops) (H0 := native) (H1 := Toy.crypto) (OpCreate alice) ([], 0)).
Definition sent_run := encrypt (H0 := native) (H1 := Toy.crypto) alice bob (js "m1") (js "hello") s0.
Definition sent_out : Outgoing := ok_or (Build_Outgoing JNull JNull []) sent_run.1.
Definition message : StoredCiphertext :=
  {| c_messageId := js "m1"; c_type := 2; c_body := message_payload (js "m1") (js "hi") |}.
Definition received_run := decrypt (H0 := native) alice bob message s0.
Definition rotated_run := rotateOneTimePreKey (H0 := native) s0.
End ToyNative.

Lemma encrypt_once_witness :
  retry ToyNative.bob (js "m1") ToyNative.sent_run.2 = (Ok ToyNative.sent_out, ToyNative.sent_run.2).
Proof.
  destruct (encrypt_once (H0 := ToyNative.native) (H1 := Toy.crypto) (H2 := Toy.crypto_laws) (H3 := ToyNative.laws)
           ToyNative.alice ToyNative.bob (js "m1") (js "hello") ToyNative.s0 ToyNative.sent_out ToyNative.sent_run.2
           ltac:(vm_compute; reflexivity) ltac:(vm_compute; reflexivity)
           ToyNative.sent_run.2 ToyNative.alice eq_refl eq_refl) as (_ & Hr & _).
  exact Hr.
Defined.
Lemma decrypt_at_most_once_witness :
  exists e, decrypt (H0 := ToyNative.native) ToyNative.alice ToyNative.bob ToyNative.message ToyNative.received_run.2
            = (Err e, ToyNative.received_run.2).
Proof.
  destruct (decrypt_at_most_once (H0 := ToyNative.native) ToyNative.alice ToyNative.bob ToyNative.message
           ToyNative.s0 (js "hi") ToyNative.received_run.2) as (_ & _ & Hd); [vm_compute; reflexivity|].
  exact (Hd ToyNative.alice ToyNative.message ToyNative.received_run.2 eq_refl eq_refl).
Defined.
Lemma rotate_fresh_witness : get (pre_key 2) ToyNative.s0.1 = None.
Proof.
  destruct (rotate_fresh (H0 := ToyNative.native) ToyNative.s0 2 ToyNative.rotated_run.2) as (_ & Hn & _);
    [vm_compute; reflexivity|exact Hn].
Defined.
Lemma create_pins_device_witness :
  create (H := Toy.world_ops) (H0 := ToyNative.native) ToyNative.bob ToyNative.s0
  = (if decide (ToyNative.bob = ToyNative.alice) then Ok tt
     else Err (ErrOther (js "Store belongs to another local device")), ToyNative.s0).
Proof.
  destruct (create_pins_device (H := Toy.world_ops) (H0 := ToyNative.native) (H2 := ToyNative.laws)
           ToyNative.alice ([], 0) (create (H := Toy.world_ops) (H0 := ToyNative.native) ToyNative.alice ([], 0)).2)
    as (_ & Hc & _); [vm_compute; reflexivity|vm_compute; reflexivity|].
  apply Hc; vm_compute; reflexivity.
Defined.
Lemma trust_only_by_approval_witness :
  trusted_as (H0 := ToyNative.native) ToyNative.sent_run.2 ToyNative.bob = Some [5; 9].
Proof.
  destruct (trust_only_by_approval (H := Toy.world_ops) (H0 := ToyNative.native) (H1 := Toy.crypto)
              (H2 := ToyNative.laws) (OpEncrypt ToyNative.alice ToyNative.bob (js "m1") (js "hello"))
              ToyNative.s0 ToyNative.bob) as [Hk _].
  apply Hk. vm_compute. reflexivity.
Defined.
