(* ===== verification/Wire.v ===== *)
(** * Signed bundles: [packages/session-node/src/wire.ts]

    Exporting the public half of the Signal state as a signed bundle, and
    verifying a bundle against an expected contact. *)

From S2P Require Import Prelude JsString Json JsMap Zod Base64Url Protocol Platform.
From S2P Require Import Transcripts Effects Store Signal.

Section wire.
Context {W : Type} `{Zod} `{World W} `{Native W} `{Crypto}.

(** [Uint8Array.from(decodeBase64Url(value))]. *)
Definition key_bytes (value : jstr) : res err bytes :=
  of_option (ErrOther (js "InvalidCharacterError")) (decodeBase64Url value).
(** [JSON.parse(JSON.stringify(value))]. *)
Definition copyJson (v : json) : res err json :=
  of_option (ErrOther (js "SyntaxError")) (parse (stringify v)).
Definition zod_parse (s : schema) (v : json) : res err json :=
  of_option (ErrOther (js "ZodError")) (s v).
(** A test that may throw, and the error of its failure. *)
Definition require (message : jstr) (test : option bool) : res err unit :=
  match test with
  | None => Err (ErrOther (js "native"))
  | Some true => Ok tt
  | Some false => Err (ErrOther message)
  end.

Definition requireDeviceSignature (record : json) : res err unit :=
  res_bind (key_bytes (str_field (js "identity_id") record)) (fun key =>
  require (js "Invalid root signature on DeviceRecord")
    (verifyCanonicalJson record (str_field (js "signature") record) key)).

Definition currently_valid (now : Z) (wire : json) : bool :=
  between 0 max_safe_integer now && (num_field (js "created_at_ms") wire <=? now)
  && (now <? num_field (js "expires_at_ms") wire)
  && (num_field (js "created_at_ms") (sub_field (js "device_record") wire)
      <=? num_field (js "created_at_ms") wire).

Definition importVerifiedSignalBundleV2 (input : json) (identityId deviceUuid : jstr) (now : Z)
  : res err (DeviceAddress * prekey_bundle) :=
  res_bind (of_option (ErrOther (js "ZodError")) (signalAddressForDevice identityId deviceUuid)) (fun address =>
  res_bind (zod_parse SignalPreKeyBundleV2Schema input) (fun parsed =>
  res_bind (copyJson parsed) (fun wire =>
  let record := sub_field (js "device_record") wire in
  if negb (eqb (str_field (js "identity_id") record) identityId)
     || negb (eqb (str_field (js "device_id") record) deviceUuid)
  then Err (ErrOther (js "Bundle does not match expected contact"))
  else if negb (currently_valid now wire) then Err (ErrOther (js "Bundle is not currently valid"))
  else
  res_bind (requireDeviceSignature record) (fun _ =>
  res_bind (of_option (ErrOther (js "ZodError")) (signalBundleV2SigningText wire)) (fun text =>
  res_bind (key_bytes (str_field (js "device_pubkey") record)) (fun device_key =>
  res_bind (require (js "Invalid device signature on Signal bundle")
             (verifyUtf8Message text (str_field (js "signature") wire) (inl device_key))) (fun _ =>
  res_bind (key_bytes (str_field (js "signal_identity_key") wire)) (fun identity_bytes =>
  res_bind (of_option (ErrOther (js "native")) (pk_deserialize identity_bytes)) (fun identity =>
  let signed := sub_field (js "signed_prekey") wire in
  let kyber := sub_field (js "kyber_prekey") wire in
  res_bind (key_bytes (str_field (js "public_key") signed)) (fun signed_public =>
  res_bind (key_bytes (str_field (js "signature") signed)) (fun signed_sig =>
  res_bind (key_bytes (str_field (js "public_key") kyber)) (fun kyber_pub =>
  res_bind (key_bytes (str_field (js "signature") kyber)) (fun kyber_sig =>
  if negb (pk_verify identity signed_public signed_sig) || negb (pk_verify identity kyber_pub kyber_sig)
  then Err (ErrOther (js "Invalid native prekey signature"))
  else
  let oneTime := sub_field (js "one_time_prekey") wire in
  res_bind (match oneTime with
            | JNull => Ok None
            | _ => res_bind (key_bytes (str_field (js "public_key") oneTime)) (fun b =>
                   res_bind (of_option (ErrOther (js "native")) (pk_deserialize b)) (fun key =>
                   Ok (Some (num_field (js "key_id") oneTime, key))))
            end) (fun prekey =>
  res_bind (of_option (ErrOther (js "native")) (pk_deserialize signed_public)) (fun signed_key =>
  res_bind (of_option (ErrOther (js "native")) (kem_pk_deserialize kyber_pub)) (fun kyber_key =>
  Ok (address,
      {| pb_registrationId := num_field (js "registration_id") wire; pb_deviceId := deviceId address;
         pb_preKey := prekey;
         pb_signedId := num_field (js "key_id") signed; pb_signedPublic := signed_key;
         pb_signedSignature := signed_sig; pb_identity := identity;
         pb_kyberId := num_field (js "key_id") kyber; pb_kyberPublic := kyber_key;
         pb_kyberSignature := kyber_sig |}))))))))))))))))).

Definition wire_prekey (p : option (Z * bytes)) : json :=
  match p with
  | None => JNull
  | Some (id, public) => JObj [(js "key_id", JNum id); (js "public_key", JStr (encodeBase64Url public))]
  end.
(** The bundle before it is signed: a signature of 64 zero bytes. *)
Definition unsigned_wire (bundle_id : jstr) (record : json) (created expires : Z) (b : prekey_bundle) : json :=
  JObj [ (js "type", JStr (js "signal_prekey_bundle")); (js "version", JNum 2);
         (js "suite", JStr (js "libsignal-pq-v1")); (js "bundle_id", JStr bundle_id);
         (js "device_record", record); (js "created_at_ms", JNum created);
         (js "expires_at_ms", JNum expires); (js "registration_id", JNum (pb_registrationId b));
         (js "signal_identity_key", JStr (encodeBase64Url (pb_identity b)));
         (js "signed_prekey", JObj [ (js "key_id", JNum (pb_signedId b));
            (js "public_key", JStr (encodeBase64Url (pb_signedPublic b)));
            (js "signature", JStr (encodeBase64Url (pb_signedSignature b))) ]);
         (js "kyber_prekey", JObj [ (js "key_id", JNum (pb_kyberId b));
            (js "public_key", JStr (encodeBase64Url (pb_kyberPublic b)));
            (js "signature", JStr (encodeBase64Url (pb_kyberSignature b))) ]);
         (js "one_time_prekey", wire_prekey (pb_preKey b));
         (js "signature", JStr (encodeBase64Url (replicate 64 0))) ].
Definition with_signature (signature : jstr) (wire : json) : json :=
  match wire with JObj l => JObj (obj_set (js "signature") (JStr signature) l) | _ => wire end.

(** Called without explicit times: the bundle is created now and lives seven days. *)
Definition exportSignedSignalBundleV2 (local : DeviceAddress) (deviceRecord : json)
    (deviceSecretKey : bytes) : Tx W json :=
  record <- lift (copyJson deviceRecord);
  created <- world_call date_now;
  let expires := created + 7 * 24 * 60 * 60 * 1000 in
  let identity_id := str_field (js "identity_id") record in
  let device_id := str_field (js "device_id") record in
  address <- from_option (js "ZodError") (signalAddressForDevice identity_id device_id);
  if negb (eqb local address) then fail (js "Local Signal address does not match DeviceRecord")
  else
    lift (requireDeviceSignature record);;
    bundle <- publicBundle local;
    bundle_id <- world_call randomUUID;
    wire <- lift (zod_parse SignalPreKeyBundleV2Schema
                    (unsigned_wire bundle_id record created expires bundle));
    text <- from_option (js "ZodError") (signalBundleV2SigningText wire);
    signature <- from_option (js "native") (signUtf8Message text (inl deviceSecretKey));
    let signed := with_signature signature wire in
    lift (importVerifiedSignalBundleV2 signed identity_id device_id created);;
    ret signed.

End wire.

(** ** Lemmas *)

Lemma res_bind_ok {E A B} (m : res E A) (f : A -> res E B) b :
  res_bind m f = Ok b -> exists a, m = Ok a /\ f a = Ok b.
Proof. destruct m; [eauto|done]. Qed.
Lemma of_option_ok {E A} (e : E) (o : option A) a : of_option e o = Ok a -> o = Some a.
Proof. destruct o; [|done]. by intros [= ->]. Qed.
Lemma require_ok m t a : require m t = Ok a -> t = Some true.
Proof. by destruct t as [[]|]. Qed.
(** Open the binds of [H : res_bind m f = Ok b] one by one. *)
Ltac res_step H :=
  let a := fresh "r" in let H1 := fresh "Hres" in
  apply res_bind_ok in H; destruct H as (a & H1 & H); cbv zeta in H.

Section facts.
Context {W : Type} `{Zod} `{World W} `{Native W} `{Crypto}.

(** The one-time prekey a bundle carries: none where the wire says null, and otherwise its key
    id with the key its text decodes to. *)
Definition one_time_decoded (oneTime : json) (prekey : option (Z * bytes)) : Prop :=
  (oneTime = JNull /\ prekey = None)
  \/ (oneTime <> JNull /\ exists b key,
        decodeBase64Url (str_field (js "public_key") oneTime) = Some b
        /\ pk_deserialize b = Some key /\ prekey = Some (num_field (js "key_id") oneTime, key)).

(** What an accepted bundle is known to satisfy: whose it is, when it holds, what signed it, and
    every field of the native bundle as the wire has it. *)
Record verified (identityId deviceUuid : jstr) (now : Z) (wire : json) (b : prekey_bundle) : Prop := {
  v_identity : str_field (js "identity_id") (sub_field (js "device_record") wire) = identityId;
  v_device : str_field (js "device_id") (sub_field (js "device_record") wire) = deviceUuid;
  v_window : currently_valid now wire = true;
  v_root_signature : exists key,
    decodeBase64Url (str_field (js "identity_id") (sub_field (js "device_record") wire)) = Some key
    /\ verifyCanonicalJson (sub_field (js "device_record") wire)
         (str_field (js "signature") (sub_field (js "device_record") wire)) key = Some true;
  v_device_signature : exists key text,
    decodeBase64Url (str_field (js "device_pubkey") (sub_field (js "device_record") wire)) = Some key
    /\ signalBundleV2SigningText wire = Some text
    /\ verifyUtf8Message text (str_field (js "signature") wire) (inl key) = Some true;
  v_native_signatures : exists identity signed kyber,
    decodeBase64Url (str_field (js "signal_identity_key") wire) = Some identity
    /\ pk_deserialize identity = Some (pb_identity b)
    /\ decodeBase64Url (str_field (js "public_key") (sub_field (js "signed_prekey") wire)) = Some signed
    /\ decodeBase64Url (str_field (js "public_key") (sub_field (js "kyber_prekey") wire)) = Some kyber
    /\ pk_verify (pb_identity b) signed (pb_signedSignature b) = true
    /\ pk_verify (pb_identity b) kyber (pb_kyberSignature b) = true
    /\ pk_deserialize signed = Some (pb_signedPublic b)
    /\ kem_pk_deserialize kyber = Some (pb_kyberPublic b);
  v_registration : pb_registrationId b = num_field (js "registration_id") wire;
  v_device_number : option_map deviceId (signalAddressForDevice identityId deviceUuid) = Some (pb_deviceId b);
  v_signed_prekey : pb_signedId b = num_field (js "key_id") (sub_field (js "signed_prekey") wire)
    /\ decodeBase64Url (str_field (js "signature") (sub_field (js "signed_prekey") wire)) = Some (pb_signedSignature b);
  v_kyber_prekey : pb_kyberId b = num_field (js "key_id") (sub_field (js "kyber_prekey") wire)
    /\ decodeBase64Url (str_field (js "signature") (sub_field (js "kyber_prekey") wire)) = Some (pb_kyberSignature b);
  v_one_time_prekey : one_time_decoded (sub_field (js "one_time_prekey") wire) (pb_preKey b);
}.

(** What the import makes of the one-time prekey's field. *)
Lemma one_time_ok oneTime prekey :
  match oneTime with
  | JNull => Ok None
  | _ => res_bind (key_bytes (str_field (js "public_key") oneTime)) (fun b =>
         res_bind (of_option (ErrOther (js "native")) (pk_deserialize b)) (fun key =>
         Ok (Some (num_field (js "key_id") oneTime, key))))
  end = Ok prekey ->
  one_time_decoded oneTime prekey.
Proof.
  destruct oneTime; [injection 1 as <-; by left|..]; intros Ho; right; (split; [discriminate|]);
    res_step Ho; res_step Ho; apply of_option_ok in Hres, Hres0; injection Ho as <-; by eexists _, _.
Qed.

Lemma import_ok input identityId deviceUuid now address b :
  importVerifiedSignalBundleV2 input identityId deviceUuid now = Ok (address, b) ->
  signalAddressForDevice identityId deviceUuid = Some address
  /\ exists w wire, SignalPreKeyBundleV2Schema input = Some w /\ copyJson w = Ok wire
     /\ verified identityId deviceUuid now wire b.
Proof.
  unfold importVerifiedSignalBundleV2. intros Hr.
  res_step Hr. apply of_option_ok in Hres. res_step Hr. apply of_option_ok in Hres0.
  res_step Hr. rename r1 into wire.
  destruct (negb (eqb _ identityId) || _) eqn:Eid; [done|].
  apply orb_false_iff in Eid as [E1 E2]. apply negb_false_iff in E1, E2. rewrite eqb_eq in E1, E2.
  destruct (negb (currently_valid now wire)) eqn:Ev; [done|]. apply negb_false_iff in Ev.
  res_step Hr. apply res_bind_ok in Hres2 as (rk & Hrk & Hroot).
  apply of_option_ok in Hrk. apply require_ok in Hroot.
  res_step Hr. apply of_option_ok in Hres2. res_step Hr. apply of_option_ok in Hres3.
  res_step Hr. apply require_ok in Hres4.
  res_step Hr. apply of_option_ok in Hres5. res_step Hr. apply of_option_ok in Hres6.
  res_step Hr. apply of_option_ok in Hres7. res_step Hr. res_step Hr. apply of_option_ok in Hres9.
  res_step Hr.
  destruct (negb _ || negb _) eqn:Esig; [done|]. apply orb_false_iff in Esig as [Es1 Es2].
  apply negb_false_iff in Es1, Es2.
  res_step Hr. res_step Hr. apply of_option_ok in Hres12. res_step Hr. apply of_option_ok in Hres13.
  apply of_option_ok in Hres8, Hres10.
  injection Hr as <- <-. split; [done|]. exists r0, wire. split; [done|]. split; [done|].
  constructor; [exact E1|exact E2|exact Ev| | | |reflexivity| |exact (conj eq_refl Hres8)|
    exact (conj eq_refl Hres10)|exact (one_time_ok _ _ Hres11)].
  - exact (ex_intro _ rk (conj Hrk Hroot)).
  - exact (ex_intro _ r3 (ex_intro _ r2 (conj Hres3 (conj Hres2 Hres4)))).
  - exists r5, r7, r9. cbn [pb_identity pb_signedSignature pb_kyberSignature pb_signedPublic pb_kyberPublic].
    exact (conj Hres5 (conj Hres6 (conj Hres7 (conj Hres9 (conj Es1 (conj Es2 (conj Hres12 Hres13))))))).
  - by rewrite Hres.
Qed.

(** The clock only decides the window: a bundle accepted once is accepted, with
    the same result, at every other moment of its window. *)
Lemma import_at input i d now now' wire w r :
  SignalPreKeyBundleV2Schema input = Some w -> copyJson w = Ok wire ->
  importVerifiedSignalBundleV2 input i d now = Ok r -> currently_valid now' wire = true ->
  importVerifiedSignalBundleV2 input i d now' = Ok r.
Proof.
  intros Hw Hc. unfold importVerifiedSignalBundleV2.
  destruct (of_option _ (signalAddressForDevice i d)); [|done]. cbn [res_bind].
  unfold zod_parse. rewrite Hw. cbn [of_option res_bind]. rewrite Hc. cbn [res_bind].
  destruct (_ || _); [done|]. intros Hr Hv. rewrite Hv.
  destruct (currently_valid now wire); [exact Hr|done].
Qed.

Lemma preserves_export P local record key :
  preserves (same_outside P) (exportSignedSignalBundleV2 local record key).
Proof.
  assert (preserves (same_outside P) (publicBundle (W := W) local)) as Hb.
  { eapply same_outside_weaken; [|apply preserves_publicBundle]. done. }
  unfold exportSignedSignalBundleV2. solve_preserves_with ltac:(fun _ => lazymatch goal with
    | |- preserves _ (publicBundle _) => exact Hb end).
Qed.
#[local] Hint Resolve preserves_export : echolet.

(** C9: what the verified import accepts is authentic.  An accepted bundle names
    exactly the expected identity and device, is inside its validity window, its
    device record carries a signature of the identity key, its signing text one of
    the device key, both of its native keys one of its Signal identity key, and
    every field of the native bundle the session is built from is the decoded field
    of that wire: the registration id, the device number of the expected device, the
    identity key, the signed and the Kyber prekey with their ids and signatures, and
    the one-time prekey with its id, none exactly where the wire has null. *)
Theorem import_sound input i d now address b :
  importVerifiedSignalBundleV2 input i d now = Ok (address, b) ->
  signalAddressForDevice i d = Some address
  /\ exists w wire, SignalPreKeyBundleV2Schema input = Some w /\ copyJson w = Ok wire
     /\ verified i d now wire b
     /\ forall now', currently_valid now' wire = true ->
          importVerifiedSignalBundleV2 input i d now' = Ok (address, b).
Proof.
  intros Hr. destruct (import_ok _ _ _ _ _ _ Hr) as (Ha & w & wire & Hw & Hc & Hv).
  split; [done|]. exists w, wire. split; [done|]. split; [done|]. split; [done|].
  intros now' Hn. by eapply import_at.
Qed.

(** An exported bundle is one the importer accepts.  [exportSignedSignalBundleV2]
    leaves the store as it was and answers a bundle that the verified import accepts
    for the device's own identity at the moment of export and, with the same result,
    at every other moment of the bundle's window. *)
Theorem export_importable local record key (s : records * W) signed s' :
  exportSignedSignalBundleV2 local record key s = (Ok signed, s') ->
  (forall k, get k s'.1 = get k s.1)
  /\ exists i d created r w wire,
       importVerifiedSignalBundleV2 signed i d created = Ok r
       /\ r.1 = local
       /\ SignalPreKeyBundleV2Schema signed = Some w /\ copyJson w = Ok wire
       /\ forall now, currently_valid now wire = true ->
            importVerifiedSignalBundleV2 signed i d now = Ok r.
Proof.
  intros Hr. split.
  - pose proof (preserves_export none_key local record key s) as Hp. rewrite Hr in Hp. intros k. by apply Hp.
  - unfold exportSignedSignalBundleV2 in Hr.
    apply bind_ok in Hr as (rec & s1 & _ & Hr). apply bind_ok in Hr as (created & s2 & _ & Hr).
    cbv zeta in Hr. set (i := str_field (js "identity_id") rec) in *.
    set (d := str_field (js "device_id") rec) in *.
    apply bind_ok in Hr as (address & s3 & Ha & Hr). apply from_option_ok in Ha as [Ha ->].
    destruct (negb (eqb local address)) eqn:El; [done|]. apply negb_false_iff in El.
    rewrite eqb_eq in El. subst address.
    do 6 (apply bind_ok in Hr as (? & ? & _ & Hr)).
    apply bind_ok in Hr as (r & s5 & Hi & Hr). apply ret_ok in Hr as [<- _].
    unfold lift in Hi. injection Hi as Hi _. destruct r as [address b].
    destruct (import_ok _ _ _ _ _ _ Hi) as (Ha' & w & wire & Hw & Hc & Hv).
    exists i, d, created, (address, b), w, wire. split; [done|]. split; [cbn; congruence|].
    split; [done|]. split; [done|]. intros now Hn. by eapply import_at.
Qed.
End facts.

(** ** Witnesses *)
Module Sample.
Definition secret : bytes :=
  match deriveKeyPairFromSeed (H := Toy.crypto) (js "seed") (js "device:cli-device") with
  | Some (_, sk) => default_to [] (decodeBase64Url sk)
  | None => []
  end.
Definition identity_id : jstr := str_field (js "identity_id") sample_record.
Definition device_id : jstr := str_field (js "device_id") sample_record.
Definition address : DeviceAddress :=
  default_to ToyNative.alice (signalAddressForDevice (H := zod_example) identity_id device_id).
Definition store : records * Toy.world :=
  run_operation (H := Toy.world_ops) (H0 := ToyNative.native) (H1 := Toy.crypto) (OpCreate address) ([], 0).
Definition exported : res err json * (records * Toy.world) := exportSignedSignalBundleV2 (H := zod_example) (H0 := Toy.world_ops)
  (H1 := ToyNative.native) (H2 := Toy.crypto) address sample_record secret store.
Definition signed : json := ok_or JNull exported.1.
Definition imported : res err (DeviceAddress * prekey_bundle) := importVerifiedSignalBundleV2 (W := Toy.world) (H := zod_example)
  (H1 := ToyNative.native) (H2 := Toy.crypto) signed identity_id device_id 1600.
Definition imported_ok : DeviceAddress * prekey_bundle :=
  ok_or (address, PreKeyBundle 0 0 None 0 [] [] [] 0 [] []) imported.
End Sample.

Lemma import_sound_witness :
  signalAddressForDevice (H := zod_example) Sample.identity_id Sample.device_id = Some Sample.imported_ok.1.
Proof.
  destruct (import_sound (W := Toy.world) (H := zod_example) (H1 := ToyNative.native) (H2 := Toy.crypto)
    Sample.signed Sample.identity_id Sample.device_id 1600 Sample.imported_ok.1 Sample.imported_ok.2) as [Ha _];
    [vm_compute; reflexivity|exact Ha].
Defined.
Lemma export_importable_witness : exists i d created r,
  importVerifiedSignalBundleV2 (W := Toy.world) (H := zod_example) (H1 := ToyNative.native) (H2 := Toy.crypto)
    Sample.signed i d created = Ok r /\ r.1 = Sample.address.
Proof.
  destruct (export_importable (H := zod_example) (H0 := Toy.world_ops) (H1 := ToyNative.native)
    (H2 := Toy.crypto) Sample.address sample_record Sample.secret Sample.store Sample.signed Sample.exported.2)
    as (_ & i & d & created & r & w & wire & Hi & Ha & _); [vm_compute; reflexivity|].
  exists i, d, created, r. exact (conj Hi Ha).
Defined.
