(* ===== verification/History.v ===== *)
(** * The message history: [apps/cli/src/runtime/history.ts]

    An append-only log kept in the records: one record per entry under a
    zero-padded sequence number, and the last sequence number beside them. *)

From S2P Require Import Prelude JsString Json JsMap Zod Platform Effects Store Signal Protocol Wire.

(** ** Definitions *)

Section history.
Context {W : Type} `{Zod}.

Definition z_int (check : Z -> bool) : schema :=
  z_number (fun z => between (- max_safe_integer) max_safe_integer z && check z).
Definition entrySchema : schema := z_strict
  [ req (js "sequence") (z_int (fun z => 0 <? z));
    req (js "contactIdentityId") (z_string nonempty);
    req (js "messageId") z_uuid;
    req (js "direction") (z_string (fun s => eqb s (js "inbound") || eqb s (js "outbound")));
    req (js "plaintext") any_string;
    req (js "createdAtMs") (z_int (fun z => 0 <=? z)) ].

Record HistoryEntry := {
  h_contactIdentityId : jstr; h_messageId : jstr; h_direction : jstr;
  h_plaintext : jstr; h_createdAtMs : Z;
}.
(** [{ ...entry, sequence }]. *)
Definition entry_json (sequence : Z) (e : HistoryEntry) : json :=
  JObj [ (js "contactIdentityId", JStr (h_contactIdentityId e));
         (js "messageId", JStr (h_messageId e)); (js "direction", JStr (h_direction e));
         (js "plaintext", JStr (h_plaintext e)); (js "createdAtMs", JNum (h_createdAtMs e));
         (js "sequence", JNum sequence) ].

Definition sequence_key : jstr := js "cli:history-sequence".
Definition history_prefix : jstr := js "cli:history:".
Definition history_key (sequence : Z) : jstr := history_prefix ++ pad_start 16 48 (show_Z sequence).

Definition next_sequence (previous : option bytes) : Tx W Z :=
  match previous with
  | None => ret 1
  | Some bs => v <- decode bs;
               n <- lift (zod_parse (z_int (fun z => 0 <=? z)) v);
               match n with JNum n => ret (n + 1) | _ => fail (js "ZodError") end
  end.
Definition appendHistory (entry : HistoryEntry) : Tx W unit :=
  previous <- tx_get sequence_key;
  sequence <- next_sequence previous;
  if max_safe_integer <? sequence then fail (js "History sequence exhausted")
  else record <- lift (zod_parse entrySchema (entry_json sequence entry));
       tx_set (history_key sequence) (json_encode record);;
       tx_set sequence_key (json_encode (JNum sequence)).

Definition read_entry (key : jstr) : Tx W json :=
  v <- tx_get key;
  bs <- from_option (js "TypeError") v;
  j <- decode bs;
  lift (zod_parse entrySchema j).
Definition readHistory (contactIdentityId : jstr) : Tx W (list json) :=
  keys <- tx_keys history_prefix;
  entries <- mapM read_entry (jsort keys);
  ret (filter (fun e => str_field (js "contactIdentityId") e = contactIdentityId) entries).
End history.

(** ** Lemmas: decimal text of a fixed width *)

(** The value of a run of digits, most significant first. *)
Fixpoint dval (acc : Z) (s : jstr) : Z :=
  match s with [] => acc | u :: s' => dval (acc * 10 + (u - 48)) s' end.

Lemma of_uint_acc_dval d acc :
  Z.pos (Pos.of_uint_acc d acc) = dval (Z.pos acc) (uint_units d).
Proof.
  revert acc. induction d; intros acc; cbn [Pos.of_uint_acc uint_units dval]; [done|..];
    rewrite IHd; f_equal; lia.
Qed.
Lemma of_uint_dval d : Z.of_uint d = dval 0 (uint_units d).
Proof.
  unfold Z.of_uint. induction d; cbn [Pos.of_uint uint_units dval]; try done;
    try (cbn [Z.of_N]; rewrite of_uint_acc_dval; f_equal; lia).
Qed.
Lemma show_Z_dval n : 0 <= n -> dval 0 (show_Z n) = n.
Proof.
  intros Hn. destruct (show_Z_nonneg n Hn) as (u & E & _). rewrite E, <- of_uint_dval.
  pose proof (show_Z_read n Hn) as H. rewrite E in H. unfold read_digits in H.
  by rewrite units_uint_of_units in H.
Qed.
Lemma dval_zeros n s : dval 0 (replicate n 48 ++ s) = dval 0 s.
Proof. induction n as [|n IH]; [done|]. cbn [replicate app dval]. exact IH. Qed.

Lemma dval_bounds acc s :
  forallb is_digit s = true -> 0 <= acc ->
  acc * 10 ^ Z.of_nat (length s) <= dval acc s < (acc + 1) * 10 ^ Z.of_nat (length s).
Proof.
  revert acc. induction s as [|u s IH]; intros acc; cbn [forallb dval length]; [lia|].
  rewrite andb_true_iff. intros [Hu Hs] Ha. unfold is_digit in Hu. bool_to_prop.
  specialize (IH (acc * 10 + (u - 48)) Hs ltac:(lia)).
  rewrite Nat2Z.inj_succ, Z.pow_succ_r by lia.
  assert (0 < 10 ^ Z.of_nat (length s)) by (apply Z.pow_pos_nonneg; lia). nia.
Qed.

(** Digit strings of one length compare as their values. *)
Lemma dval_compare a b x y :
  forallb is_digit a = true -> forallb is_digit b = true -> length a = length b ->
  0 <= x -> 0 <= y -> dval x a <= dval y b -> x < y \/ (x = y /\ jcompare a b <> Gt).
Proof.
  revert b x y. induction a as [|u a IH]; intros [|v b] x y; cbn [forallb dval length jcompare]; try done.
  - intros _ _ _ _ _ H. assert (x < y \/ x = y) as [?|?] by lia; auto.
  - rewrite !andb_true_iff. intros [Hu Ha] [Hv Hb] [= Hl] Hx Hy Hle.
    unfold is_digit in Hu, Hv. bool_to_prop.
    destruct (IH b (x * 10 + (u - 48)) (y * 10 + (v - 48)) Ha Hb Hl) as [Hlt|[Heq Hc]]; [lia|lia|done| |].
    + destruct (Z.lt_trichotomy x y) as [?|[->|?]]; [by left| |lia].
      right. split; [done|]. destruct (Z.compare_spec u v); [lia|done|lia].
    + destruct (Z.lt_trichotomy x y) as [?|[->|?]]; [by left| |lia].
      right. split; [done|]. destruct (Z.compare_spec u v); [done|lia|lia].
Qed.

Lemma show_Z_digits n : 0 <= n -> forallb is_digit (show_Z n) = true.
Proof. intros Hn. destruct (show_Z_nonneg n Hn) as (u & -> & _). apply uint_units_digits. Qed.
Lemma length_show_Z n k : 0 < n < 10 ^ Z.of_nat k -> (length (show_Z n) <= k)%nat.
Proof.
  intros Hn. pose proof (show_Z_digits n ltac:(lia)) as Hd. pose proof (show_Z_dval n ltac:(lia)) as Hv.
  destruct (show_Z n) as [|u s] eqn:E; [cbn; lia|]. cbn [forallb] in Hd.
  apply andb_true_iff in Hd as [Hu Hs]. unfold is_digit in Hu. bool_to_prop.
  assert (u <> 48) as Hu0.
  { intros ->. rewrite (show_Z_no_leading_zero n s ltac:(lia) E) in Hv. cbn in Hv. lia. }
  cbn [dval length] in *. pose proof (dval_bounds (0 * 10 + (u - 48)) s Hs ltac:(lia)) as Hb.
  destruct (Nat.le_gt_cases (S (length s)) k) as [?|Hk]; [done|]. exfalso.
  assert (10 ^ Z.of_nat k <= 10 ^ Z.of_nat (length s)) by (apply Z.pow_le_mono_r; lia). nia.
Qed.
Lemma pad_start_length n : 0 < n <= max_safe_integer -> length (pad_start 16 48 (show_Z n)) = 16%nat.
Proof.
  intros Hn. unfold pad_start. rewrite length_app, length_replicate.
  pose proof (length_show_Z n 16). unfold max_safe_integer in Hn.
  assert (n < 10 ^ Z.of_nat 16) by (cbn; lia). change (Z.to_nat 16) with 16%nat. lia.
Qed.

Lemma history_key_le m n :
  0 < m <= max_safe_integer -> 0 < n <= max_safe_integer -> m <= n ->
  jle (history_key m) (history_key n).
Proof.
  intros Hm Hn Hle. unfold jle, history_key.
  assert (forall p a b, jcompare (p ++ a) (p ++ b) = jcompare a b) as ->.
  { intros p a b. induction p as [|u p IH]; [done|]. cbn. by rewrite Z.compare_refl. }
  destruct (dval_compare (pad_start 16 48 (show_Z m)) (pad_start 16 48 (show_Z n)) 0 0) as [?|[_ ?]];
    [| | |lia|lia| |lia|done].
  - unfold pad_start. rewrite forallb_app, show_Z_digits by lia.
    rewrite andb_true_r. apply forallb_Forall', Forall_replicate. done.
  - unfold pad_start. rewrite forallb_app, show_Z_digits by lia.
    rewrite andb_true_r. apply forallb_Forall', Forall_replicate. done.
  - by rewrite !pad_start_length.
  - unfold pad_start. rewrite !dval_zeros, !show_Z_dval by lia. lia.
Qed.
Lemma history_key_inj m n : 0 <= m -> 0 <= n -> history_key m = history_key n -> m = n.
Proof.
  unfold history_key. intros Hm Hn E%app_inv_head. apply (f_equal (dval 0)) in E.
  unfold pad_start in E. rewrite !dval_zeros, !show_Z_dval in E by lia. done.
Qed.

(** ** Lemmas: the log *)

Section log.
Context {W : Type} `{Zod}.

Definition entry_valid (e : HistoryEntry) : bool :=
  nonempty (h_contactIdentityId e) && zod_uuid (h_messageId e)
  && (eqb (h_direction e) (js "inbound") || eqb (h_direction e) (js "outbound"))
  && between 0 max_safe_integer (h_createdAtMs e)
  && forallb unit_ok (h_contactIdentityId e) && forallb unit_ok (h_messageId e)
  && forallb unit_ok (h_direction e) && forallb unit_ok (h_plaintext e).

(** The record of an entry, in the schema's order. *)
Definition stored_entry (sequence : Z) (e : HistoryEntry) : json :=
  JObj [ (js "sequence", JNum sequence); (js "contactIdentityId", JStr (h_contactIdentityId e));
         (js "messageId", JStr (h_messageId e)); (js "direction", JStr (h_direction e));
         (js "plaintext", JStr (h_plaintext e)); (js "createdAtMs", JNum (h_createdAtMs e)) ].

Lemma z_int_ok check z :
  between (- max_safe_integer) max_safe_integer z = true -> check z = true ->
  z_int check (JNum z) = Some (JNum z).
Proof. intros H1 H2. unfold z_int. cbn. by rewrite H1, H2. Qed.
Lemma between_safe z : 0 <= z <= max_safe_integer -> between (- max_safe_integer) max_safe_integer z = true.
Proof. unfold between, max_safe_integer. intros. by decide_bool. Qed.

Lemma entrySchema_ok l sequence e :
  0 < sequence <= max_safe_integer -> entry_valid e = true ->
  l = entry_json sequence e \/ l = stored_entry sequence e ->
  entrySchema l = Some (stored_entry sequence e).
Proof.
  intros Hs He Hl. unfold entry_valid in He. rewrite !andb_true_iff in He.
  destruct He as [[[[[[[Hc Hm] Hd] Ht] _] _] _] _].
  unfold between in Ht. apply andb_true_iff in Ht as [Ht1 Ht2]. apply Z.leb_le in Ht1, Ht2.
  assert (z_int (fun z => 0 <? z) (JNum sequence) = Some (JNum sequence)) as E1
    by (apply z_int_ok; [apply between_safe; lia|apply Z.ltb_lt; lia]).
  assert (z_int (fun z => 0 <=? z) (JNum (h_createdAtMs e)) = Some (JNum (h_createdAtMs e))) as E2
    by (apply z_int_ok; [apply between_safe; lia|apply Z.leb_le; lia]).
  assert (z_string nonempty (JStr (h_contactIdentityId e)) = Some (JStr (h_contactIdentityId e))) as E3
    by (cbn; by rewrite Hc).
  assert (z_uuid (JStr (h_messageId e)) = Some (JStr (h_messageId e))) as E4 by (cbn; by rewrite Hm).
  assert (z_string (fun s => eqb s (js "inbound") || eqb s (js "outbound")) (JStr (h_direction e))
    = Some (JStr (h_direction e))) as E5 by (cbn [z_string]; by rewrite Hd).
  assert (any_string (JStr (h_plaintext e)) = Some (JStr (h_plaintext e))) as E6 by done.
  destruct Hl as [-> | ->]; unfold entrySchema, z_strict, entry_json, stored_entry;
    cbn [forallb known existsb req opt fst snd]; eval_keys; cbn [orb andb];
    unfold z_object; cbn [parse_properties req]; eval_object;
    by rewrite E1, E2, E3, E4, E5, E6.
Qed.

(** Whatever the schema accepts, it stores in its own order. *)
Lemma entrySchema_inv sequence e record :
  entrySchema (entry_json sequence e) = Some record -> record = stored_entry sequence e.
Proof.
  unfold entrySchema, z_strict, entry_json; cbn [forallb known existsb req opt fst snd]; eval_keys; cbn [orb andb];
    unfold z_object; cbn [parse_properties req]; eval_object.
  unfold z_int, z_number, any_string, z_uuid, z_string.
  repeat match goal with |- context [if ?b then _ else _] => destruct b; [|done] end.
  by intros [= <-].
Qed.

(** The records hold exactly this log. *)
Record represents_log (r : records) (es : list HistoryEntry) : Prop := {
  rl_map : map_ok r;
  rl_sequence : get sequence_key r
    = match es with [] => None | _ => Some (json_encode (JNum (Z.of_nat (length es)))) end;
  rl_keys : forall k, k ∈ keys_with history_prefix r
    <-> exists i, (i < length es)%nat /\ k = history_key (Z.of_nat i + 1);
  rl_entries : forall i e, es !! i = Some e ->
    get (history_key (Z.of_nat i + 1)) r = Some (json_encode (stored_entry (Z.of_nat i + 1) e));
  rl_valid : Forall (fun e => entry_valid e = true) es;
  rl_bound : Z.of_nat (length es) <= max_safe_integer;
}.

Lemma stored_entry_ok sequence e : entry_valid e = true -> json_ok (stored_entry sequence e) = true.
Proof.
  intros He. unfold entry_valid in He. rewrite !andb_true_iff in He.
  destruct He as [[[[_ H1] H2] H3] H4]. unfold stored_entry.
  change (json_ok (JObj ?l)) with (keys_ok l && forallb (fun kv => json_ok kv.2) l).
  apply andb_true_iff. split; [vm_compute; reflexivity|]. cbn [forallb snd json_ok].
  by rewrite H1, H2, H3, H4.
Qed.

Lemma sequence_key_not_history n : history_key n <> sequence_key.
Proof.
  unfold history_key, history_prefix, sequence_key.
  rewrite <- (app_nil_r (js "cli:history-sequence")). apply clash_ne. vm_compute. reflexivity.
Qed.
Lemma sequence_not_prefixed : starts_with history_prefix sequence_key = false.
Proof. vm_compute. reflexivity. Qed.

Lemma next_sequence_run r es (w : W) :
  represents_log r es ->
  next_sequence (get sequence_key r) (r, w) = (Ok (Z.of_nat (length es) + 1), (r, w)).
Proof.
  intros Hr. rewrite (rl_sequence _ _ Hr). pose proof (rl_bound _ _ Hr).
  destruct es as [|e es]; [done|]. unfold next_sequence, bind, decode, from_option.
  rewrite json_decode_encode by done. unfold ret, lift, zod_parse.
  rewrite z_int_ok; [done|apply between_safe; lia|apply Z.leb_le; lia].
Qed.

Lemma append_run r es e (w : W) :
  represents_log r es -> entry_valid e = true -> Z.of_nat (length es) < max_safe_integer ->
  let n := Z.of_nat (length es) + 1 in
  appendHistory e (r, w)
  = (Ok tt, (set sequence_key (json_encode (JNum n))
              (set (history_key n) (json_encode (stored_entry n e)) r), w)).
Proof.
  intros Hr He Hb n. unfold appendHistory, bind, tx_get, gets. cbn [fst].
  rewrite (next_sequence_run r es w Hr). fold n.
  assert ((max_safe_integer <? n) = false) as -> by (apply Z.ltb_ge; lia).
  unfold lift, zod_parse. rewrite (entrySchema_ok (entry_json n e) n e) by (auto; lia). done.
Qed.

Lemma append_represents r es e :
  represents_log r es -> entry_valid e = true -> Z.of_nat (length es) < max_safe_integer ->
  let n := Z.of_nat (length es) + 1 in
  represents_log (set sequence_key (json_encode (JNum n))
                   (set (history_key n) (json_encode (stored_entry n e)) r)) (es ++ [e]).
Proof.
  intros Hr He Hb n. split.
  - apply map_ok_set, map_ok_set, (rl_map _ _ Hr).
  - rewrite get_set_eq, length_app. cbn [length]. replace (Z.of_nat (length es + 1)) with n by lia.
    by destruct es.
  - intros k. rewrite elem_of_keys_with, !elem_of_keys_set. pose proof (rl_keys _ _ Hr k) as Hk.
    rewrite elem_of_keys_with in Hk. rewrite length_app. cbn [length]. split.
    + intros [Hp [->|[->|Hin]]]; [by rewrite sequence_not_prefixed in Hp| |].
      * exists (length es). split; [lia|done].
      * destruct (proj1 Hk (conj Hp Hin)) as (i & ? & ->). exists i. split; [lia|done].
    + intros (i & Hi & ->). split; [apply starts_with_app|]. right.
      destruct (decide (i = length es)) as [->|]; [by left|]. right.
      apply Hk. exists i. split; [lia|done].
  - intros i e' Hi. rewrite get_set_ne by (intros E; symmetry in E; by apply sequence_key_not_history in E).
    destruct (decide (i = length es)) as [->|Hne].
    + fold n. rewrite get_set_eq. rewrite lookup_app_r, Nat.sub_diag in Hi by done. by injection Hi as ->.
    + apply lookup_lt_Some in Hi as Hlt. rewrite length_app in Hlt. cbn in Hlt.
      rewrite get_set_ne; cycle 1.
      { intros E. apply history_key_inj in E; lia. }
      apply (rl_entries _ _ Hr). rewrite lookup_app_l in Hi by lia. done.
  - apply Forall_app. split; [apply (rl_valid _ _ Hr)|]. by apply Forall_singleton.
  - rewrite length_app. cbn [length]. lia.
Qed.

(** The sorted keys are the entries in the order they were appended. *)
Lemma sorted_keys r es :
  represents_log r es ->
  jsort (keys_with history_prefix r) = map (fun i => history_key (Z.of_nat i + 1)) (seq 0 (length es)).
Proof.
  intros Hr. pose proof (rl_bound _ _ Hr) as Hb.
  apply (StronglySorted_unique jle); [apply jsort_sorted| |].
  - assert (forall k n, (k + n <= length es)%nat -> StronglySorted jle (map (fun i => history_key (Z.of_nat i + 1)) (seq k n))) as H1.
    { intros k n. revert k. induction n as [|n IH]; intros k Hk; cbn [seq map]; [apply SSorted_nil|].
      apply SSorted_cons; [apply IH; lia|]. apply Forall_map, Forall_forall. intros i Hi.
      apply elem_of_seq in Hi. apply history_key_le; lia. }
    by apply H1.
  - rewrite jsort_perm. apply NoDup_Permutation.
    + apply keys_with_NoDup, (rl_map _ _ Hr).
    + apply NoDup_ListNoDup, Finite.Injective_map_NoDup; [|apply seq_NoDup].
      intros i j E. apply history_key_inj in E; lia.
    + intros k. rewrite (rl_keys _ _ Hr k), list_elem_of_In, in_map_iff. split.
      * intros (i & Hi & ->). exists i. split; [done|]. apply in_seq. lia.
      * intros (i & <- & Hi). apply in_seq in Hi. exists i. split; [lia|done].
Qed.

Lemma read_entry_run r es (w : W) i e :
  represents_log r es -> es !! i = Some e ->
  read_entry (history_key (Z.of_nat i + 1)) (r, w)
  = (Ok (stored_entry (Z.of_nat i + 1) e), (r, w)).
Proof.
  intros Hr Hi. pose proof (rl_bound _ _ Hr). pose proof (lookup_lt_Some _ _ _ Hi).
  pose proof (Forall_lookup_1 _ _ _ _ (rl_valid _ _ Hr) Hi) as He. cbn in He.
  unfold read_entry, bind, tx_get, gets. cbn [fst]. rewrite (rl_entries _ _ Hr _ _ Hi).
  unfold from_option, ret, decode, from_option. rewrite json_decode_encode by by apply stored_entry_ok.
  unfold ret, lift, zod_parse. by rewrite (entrySchema_ok _ (Z.of_nat i + 1) e) by (auto; lia).
Qed.

Definition numbered (es : list HistoryEntry) : list json :=
  imap (fun i e => stored_entry (Z.of_nat i + 1) e) es.

(** C34: the history is an append-only log.  On records that hold a log,
    [appendHistory] of a valid entry succeeds and leaves records that hold the log
    extended by it, and [readHistory] answers that contact's entries in the order
    they were appended, numbered from one, and changes nothing; the zero-padded
    keys never reorder them, up to the last sequence number. *)
Theorem history_refines_log r es (w : W) :
  represents_log r es ->
  (forall e, entry_valid e = true -> Z.of_nat (length es) < max_safe_integer ->
     exists r', appendHistory e (r, w) = (Ok tt, (r', w)) /\ represents_log r' (es ++ [e]))
  /\ (forall id, readHistory id (r, w)
       = (Ok (filter (fun e => str_field (js "contactIdentityId") e = id) (numbered es)), (r, w))).
Proof.
  intros Hr. split.
  - intros e He Hb. eexists. split; [by apply append_run|]. by apply append_represents.
  - intros id. unfold readHistory, bind, tx_keys, gets. cbn [fst]. rewrite (sorted_keys r es Hr).
    rewrite (mapM_read _ _ (numbered es)); [done|]. unfold numbered.
    apply Forall2_same_length_lookup_2.
    { by rewrite length_map, length_seq, length_imap. }
    intros i k v Hk Hv. rewrite list_lookup_fmap_Some in Hk. destruct Hk as (j & -> & Hj).
    apply lookup_seq in Hj as [-> Hj]. rewrite list_lookup_imap in Hv.
    destruct (es !! i) as [e|] eqn:Ei; [|done]. injection Hv as <-. by apply read_entry_run with es.
Qed.
End log.

Lemma empty_log : represents_log (H := zod_example) [] [].
Proof.
  split; [apply NoDup_nil_2|done| |done|apply List.Forall_nil|by vm_compute].
  intros k. split; [by intros ?%not_elem_of_nil|]. intros (i & Hi & _). cbn in Hi. lia.
Qed.
Definition sample_entry : HistoryEntry :=
  {| h_contactIdentityId := js "bob"; h_messageId := js "110a486a-e330-43dd-8383-b1aa8b1cc353";
     h_direction := js "inbound"; h_plaintext := js "hi"; h_createdAtMs := 7 |}.
Lemma history_refines_log_witness :
  exists r', appendHistory (H := zod_example) sample_entry ([], tt) = (Ok tt, (r', tt))
             /\ represents_log (H := zod_example) r' [sample_entry].
Proof.
  destruct (history_refines_log (H := zod_example) [] [] tt empty_log) as [Ha _].
  exact (Ha sample_entry eq_refl eq_refl).
Defined.
