(* ===== verification/Profile.v ===== *)
(** * The profile: [apps/cli/src/runtime/profile.ts]

    One operator's durable state: the metadata record with the seed and the
    signed device record, the pinned contacts, the pool of published bundles, the
    unfinished re-walk of the mailbox.  Every method is one transaction of the
    store ([transact]); relay calls happen between them, never inside. *)

From S2P Require Import Prelude JsString Json JsMap Zod Base64Url Protocol Platform.
From S2P Require Import Transcripts Effects Store Signal Wire.

Section profile.
Context {W : Type} `{Zod} `{World W} `{Native W} `{Crypto}.
(** The profile's configuration. *)
Context (config_profile_id : jstr).

(** A step of the client process. *)
Definition Rt (A : Type) : Type := M (env W) A.
(** A call of the outside world from between transactions. *)
Definition outside {A} (f : W -> A * W) : Rt A :=
  fun s => let '(a, w) := f (world s) in (Ok a, Env (disk s) w (commits s)).

(** ** [transact]: the storage boundary *)
Definition transact {A} (operation : Tx W A) : Rt A := fun s =>
  let '(o, s') := atomic operation s in
  (match o with
   | Committed a => Ok a
   | Raised e => Err e
   | StorageFailed => Err ErrPersistence
   end, s').

(** ** Keys and schemas *)

Definition metadataKey : jstr := js "cli:profile".
Definition publicationKey : jstr := js "cli:publication".
Definition poolTarget : nat := PREKEY_MIN_COUNT.
Definition publicationSlotKey (slot : nat) : jstr :=
  match slot with
  | O => publicationKey
  | S _ => publicationKey ++ js ":" ++ show_Z (Z.of_nat slot)
  end.
Definition mailboxRewalkKey : jstr := js "cli:mailbox-rewalk".
Definition contact_prefix : jstr := js "cli:contact:".
Definition contact_key (identity_id : jstr) : jstr := contact_prefix ++ identity_id.
(** [/^\d{1,15}$/]. *)
Definition mailboxRewalkPosition (s : jstr) : bool := length_between 1 15 s && forallb is_digit s.

Definition metadataSchema : schema := z_strict
  [ req (js "version") (z_literal (JNum 1));
    req (js "profile_id") z_uuid;
    req (js "seed") (z_string nonempty);
    req (js "device_record") (z_custom (accepts StrictDeviceRecord)) ].
Definition cardSchema : schema := z_strict
  [ req (js "type") (z_literal (JStr (js "echolet_contact_card")));
    req (js "version") (z_literal (JNum 1));
    opt (js "display_name") (z_string (length_between 1 128));
    req (js "signal_bundle") (z_refine SignalPreKeyBundleV2Schema
      (fun b => negb (eqb (sub_field (js "one_time_prekey") b) JNull))) ].
Definition contactSchema : schema := z_strict
  [ req (js "identity_id") any_string;
    req (js "device_id") z_uuid;
    req (js "device_pubkey") any_string;
    req (js "signal_identity_key") any_string ].
Definition publicationSchema : schema := z_strict
  [ req (js "version") (z_literal (JNum 1));
    req (js "bundle") (z_custom (accepts SignalPreKeyBundleV2Schema)) ].

Definition cli_device : jstr := js "cli-device".

Definition readMetadata : Tx W json :=
  bytes <- tx_get metadataKey;
  match bytes with
  | None => throw (ErrProfile (js "Missing profile identity; refusing replacement"))
  | Some bs => j <- decode bs; lift (zod_parse metadataSchema j)
  end.
Definition device_of (metadata : json) : json := sub_field (js "device_record") metadata.
Definition address_of (record : json) : Tx W DeviceAddress :=
  from_option (js "ZodError")
    (signalAddressForDevice (str_field (js "identity_id") record) (str_field (js "device_id") record)).
(** The device's secret key, derived from the seed for one use. *)
Definition device_secret (metadata : json) : Tx W bytes :=
  identity <- from_option (js "native") (createIdentityProfile (str_field (js "seed") metadata) cli_device []);
  from_option (js "InvalidCharacterError") (decodeBase64Url (deviceSecretKey identity)).

(** ** Signing for the relay *)

Inductive mailbox_operation : Type :=
  | MailboxChallenge
  | MailboxPoll (challengeId nonce : jstr) (readThrough : option jstr)
  | MailboxAck (envelopeIds : list jstr).
Record authorization := Authorization {
  recipient_mailbox_id : jstr; auth_device_id : jstr; auth_signature : jstr }.

Definition mailbox_text (op : mailbox_operation) (mailboxId device_id : jstr) : jstr :=
  match op with
  | MailboxChallenge => createMailboxCreateChallengeMessage mailboxId device_id
  | MailboxPoll c n r => createMailboxChallengeMessage c mailboxId device_id n r
  | MailboxAck ids => createMailboxAckMessage mailboxId device_id ids None
  end.
Definition authorize (op : mailbox_operation) : Tx W authorization :=
  metadata <- readMetadata;
  let record := device_of metadata in
  key <- device_secret metadata;
  let mailboxId := deriveMailboxId (str_field (js "identity_id") record) in
  let device_id := str_field (js "device_id") record in
  signature <- from_option (js "native") (signUtf8Message (mailbox_text op mailboxId device_id) (inl key));
  ret (Authorization mailboxId device_id signature).
Definition mailboxAuthorization (op : mailbox_operation) : Rt authorization := transact (authorize op).

Record MailboxEnvelopeBinding := {
  b_recipientMailboxId : jstr; b_envelopeId : jstr; b_senderIdentityId : jstr;
  b_senderDeviceId : jstr; b_ciphertext : jstr; b_createdAtMs : Z; b_expiresAtMs : Z }.
Definition signEnvelopeBinding (b : MailboxEnvelopeBinding) : Tx W jstr :=
  metadata <- readMetadata;
  key <- device_secret metadata;
  from_option (js "native")
    (signMailboxEnvelopeMessage (b_recipientMailboxId b) (b_envelopeId b) (b_senderIdentityId b)
       (b_senderDeviceId b) (hashMailboxEnvelopeCiphertext (b_ciphertext b))
       (b_createdAtMs b) (b_expiresAtMs b) (inl key)).

(** ** The unfinished re-walk of the mailbox *)

Definition requestMailboxRewalk : Rt unit := transact (tx_set mailboxRewalkKey (utf8_encode (js "0"))).
Definition pendingMailboxRewalk : Rt (option jstr) := transact (
  stored <- tx_get mailboxRewalkKey;
  ret (match stored with
       | None => None
       | Some bs => let position := text_decode bs in
                    Some (if mailboxRewalkPosition position then position else js "0")
       end)).
Definition keepMailboxRewalk (position : jstr) : Rt unit :=
  let kept := if mailboxRewalkPosition position then position else js "0" in
  transact (tx_set mailboxRewalkKey (utf8_encode kept)).
Definition finishMailboxRewalk : Rt unit := transact (tx_delete mailboxRewalkKey).

(** ** [withRuntime]: the boundary the messengers work in

    The callback is given the device record and the device's Signal address; the
    client's methods and [signEnvelopeBinding] are the functions above. *)
Definition runtime_tx {A} (operation : json -> DeviceAddress -> Tx W A) : Tx W A :=
  metadata <- readMetadata;
  address <- address_of (device_of metadata);
  create address;;
  operation (device_of metadata) address.
Definition withRuntime {A} (operation : json -> DeviceAddress -> Tx W A) : Rt A :=
  transact (runtime_tx operation).

(** ** The publication pool *)

Definition signBundle : Tx W json :=
  metadata <- readMetadata;
  identity <- from_option (js "native") (createIdentityProfile (str_field (js "seed") metadata) cli_device []);
  address <- address_of (device_of metadata);
  create address;;
  key <- from_option (js "InvalidCharacterError") (decodeBase64Url (deviceSecretKey identity));
  exportSignedSignalBundleV2 address (device_of metadata) key.
Definition exportContact : Rt json := transact (
  bundle <- signBundle;
  lift (zod_parse cardSchema
    (JObj [ (js "type", JStr (js "echolet_contact_card")); (js "version", JNum 1);
            (js "signal_bundle", bundle) ]))).
Definition hasPublication : Rt bool := transact (
  v <- tx_get publicationKey; ret (match v with Some _ => true | None => false end)).

Definition readPublicationSlot (slot : nat) : Tx W (option json) :=
  stored <- tx_get (publicationSlotKey slot);
  match stored with
  | None => ret None
  | Some bs => j <- decode bs; p <- lift (zod_parse publicationSchema j);
               ret (Some (sub_field (js "bundle") p))
  end.
Definition mintPublicationSlot (slot : nat) (rotate : bool) : Tx W json :=
  when rotate (
    metadata <- readMetadata;
    address <- address_of (device_of metadata);
    create address;;
    rotateOneTimePreKey;;
    ret tt);;
  bundle <- signBundle;
  publication <- lift (zod_parse publicationSchema (JObj [(js "version", JNum 1); (js "bundle", bundle)]));
  tx_set (publicationSlotKey slot) (json_encode publication);;
  ret bundle.

Definition publicationBundle : Rt json := transact (
  member <- readPublicationSlot 0;
  match member with Some b => ret b | None => mintPublicationSlot 0 false end).

(** Slots from the highest down; [minted] counts the allocations. *)
Fixpoint fill_slots (slots : list nat) (members : list (option json)) (minted : Z)
  : Tx W (list (option json) * Z) :=
  match slots with
  | [] => ret (members, minted)
  | slot :: slots =>
      match members !! slot with
      | Some (Some _) => fill_slots slots members minted
      | _ => member <- mintPublicationSlot slot (existsb (fun m => bool_decide (m <> None)) members);
             fill_slots slots (<[slot := Some member]> members) (minted + 1)
      end
  end.
Definition restore_pool : Tx W (list (option json) * Z) :=
  members <- mapM readPublicationSlot (seq 0 poolTarget);
  fill_slots (rev (seq 0 poolTarget)) members 0.
Definition restorePublicationPool : Rt (list json * Z) := transact (
  pool <- restore_pool;
  ret (omap id pool.1, pool.2)).
Definition publicationPool : Rt (list json) := pool <- restorePublicationPool; ret pool.1.
Definition replacePublicationSlot (slot : nat) : Rt json :=
  if (slot <? poolTarget)%nat then transact (mintPublicationSlot slot true)
  else throw (ErrProfile (js "Publication slot is outside the pool")).
Definition rotatePublicationBundle : Rt json := transact (mintPublicationSlot 0 true).

(** ** Contacts *)

Definition contact_identifiers (wire : json) : json :=
  let record := sub_field (js "device_record") wire in
  JObj [ (js "identity_id", sub_field (js "identity_id") record);
         (js "device_id", sub_field (js "device_id") record);
         (js "device_pubkey", sub_field (js "device_pubkey") record);
         (js "signal_identity_key", sub_field (js "signal_identity_key") wire) ].
Definition pin_contact (identifiers : json) (address : DeviceAddress) (identityKey : bytes) : Tx W bool :=
  let key := contact_key (str_field (js "identity_id") identifiers) in
  previous <- tx_get key;
  match previous with
  | None => ret tt
  | Some bs => j <- decode bs;
               old <- lift (zod_parse contactSchema j);
               if eqb (stringify old) (stringify identifiers) then ret tt
               else throw (ErrProfile (js "Contact identifiers changed; replacement is not supported"))
  end;;
  metadata <- readMetadata;
  local <- address_of (device_of metadata);
  create local;;
  approveRemote address identityKey;;
  tx_set key (json_encode identifiers);;
  ret true.
(** [confirm]: the operator's answer, [None] when no callback was given. *)
Definition importContact (input : json) (confirm : option (json -> W -> bool * W)) : Rt bool :=
  copied <- lift (copyJson input);
  card <- lift (zod_parse cardSchema copied);
  let wire := sub_field (js "signal_bundle") card in
  let record := sub_field (js "device_record") wire in
  now <- outside date_now;
  '(address, bundle) <- lift (importVerifiedSignalBundleV2 wire (str_field (js "identity_id") record)
                                (str_field (js "device_id") record) now);
  let identifiers := contact_identifiers wire in
  match confirm with
  | None => throw (ErrProfile (js "Explicit contact confirmation is required"))
  | Some ask =>
      confirmed <- outside (ask identifiers);
      if confirmed then transact (pin_contact identifiers address (pb_identity bundle)) else ret false
  end.

Definition read_contact (key : jstr) : Tx W json :=
  v <- tx_get key; bs <- from_option (js "TypeError") v; j <- decode bs; lift (zod_parse contactSchema j).
Definition list_contacts : Tx W (list json) :=
  keys <- tx_keys contact_prefix; mapM read_contact (jsort keys).
Definition listContacts : Rt (list json) := transact list_contacts.
Definition summary : Rt json := transact (
  metadata <- readMetadata;
  keys <- tx_keys contact_prefix;
  ret (JObj [ (js "profile_id", JStr config_profile_id);
              (js "identity_id", sub_field (js "identity_id") (device_of metadata));
              (js "device_id", sub_field (js "device_id") (device_of metadata));
              (js "contact_count", JNum (Z.of_nat (length keys))) ])).
Definition diagnostics : Rt json :=
  contacts <- listContacts;
  s <- summary;
  let put k v o := match o with JObj l => JObj (obj_set (js k) v l) | _ => o end in
  ret (put "runtime"%string (JStr (js "node-reference")) (put "storage"%string (JStr (js "encrypted"))
        (put "contacts"%string (JArr contacts)
          (put "contact_count"%string (JNum (Z.of_nat (length contacts))) s)))).

(** ** [openProfile]: the transaction that opens or initializes the store *)
Definition open_tx (initialize : bool) : Tx W unit :=
  existing <- tx_get metadataKey;
  match existing with
  | Some _ => ret tt
  | None =>
      keys <- tx_keys [];
      if negb initialize || negb (eqb keys []) then throw (ErrProfile (js "Incomplete profile; refusing replacement"))
      else
        the_seed <- world_call generateMnemonic;
        identity <- from_option (js "native") (createIdentityProfile the_seed cli_device []);
        now <- world_call date_now;
        record <- from_option (js "native")
          (createSignedDeviceRecord (identityId identity) (deviceUuid identity) (devicePubKey identity)
             (identitySecretKey identity) (Some cli_device) now);
        address <- address_of record;
        create address;;
        tx_set metadataKey (json_encode (JObj [ (js "version", JNum 1);
          (js "profile_id", JStr config_profile_id); (js "seed", JStr the_seed);
          (js "device_record", record) ]))
  end;;
  metadata <- readMetadata;
  if negb (eqb (str_field (js "profile_id") metadata) config_profile_id)
  then throw (ErrProfile (js "Database belongs to another profile"))
  else address <- address_of (device_of metadata); create address.
(** It runs on the store itself, not through [transact]. *)
Definition openProfile_transaction (initialize : bool) : Rt unit := fun s =>
  let '(o, s') := atomic (open_tx initialize) s in (outcome_result o, s').
End profile.

(** ** Lemmas: one transaction *)

Section transactions.
Context {W : Type} `{World W}.

(** What a caller can conclude from a transaction's answer. *)
Lemma transact_ok {A} (op : Tx W A) s a s' :
  transact op s = (Ok a, s') ->
  exists w w', op (disk s, w) = (Ok a, (disk s', w')) /\ commits s' = commits s ++ [disk s'].
Proof.
  unfold transact, atomic. destruct (io_begin (world s)) as [[] w1]; cbn [negb]; [|done].
  destruct (op (disk s, w1)) as [[b|e] [r w2]] eqn:E.
  - destruct (randomBytes 12 w2) as [n w3]. destruct (io_commit w3) as [[] w4].
    + intros [= <- <-]. by exists w1, w2.
    + by destruct (io_rollback w4).
  - by destruct (io_rollback w2) as [[] w3].
Qed.
Lemma transact_err {A} (op : Tx W A) s e s' :
  transact op s = (Err e, s') ->
  disk s' = disk s /\ commits s' = commits s
  /\ (e = ErrPersistence \/ exists w rw, op (disk s, w) = (Err e, rw)).
Proof.
  unfold transact, atomic. destruct (io_begin (world s)) as [[] w1]; cbn [negb];
    [|intros [= <- <-]; auto].
  destruct (op (disk s, w1)) as [[b|e'] [r w2]] eqn:E.
  - destruct (randomBytes 12 w2) as [n w3]. destruct (io_commit w3) as [[] w4]; [done|].
    destruct (io_rollback w4) as [? w5]. intros [= <- <-]. auto.
  - destruct (io_rollback w2) as [[] w3]; intros [= <- <-]; split_and!; auto.
    right. by exists w1, (r, w2).
Qed.
(** A property every run of the operation establishes carries over to the disk. *)
Lemma transact_preserves {A} (R : records -> records -> Prop) (op : Tx W A) :
  (forall r, R r r) -> preserves (fun s s' => R s.1 s'.1) op ->
  preserves (fun s s' => R (disk s) (disk s')) (transact op).
Proof.
  intros HR Hop s. destruct (transact op s) as [[a|e] s'] eqn:E; cbn [snd].
  - apply transact_ok in E as (w & w' & E & _). specialize (Hop (disk s, w)). by rewrite E in Hop.
  - apply transact_err in E as (-> & _). apply HR.
Qed.

(** A failed transaction changes nothing and says which part failed.  When
    [transact] throws, the committed records and the sequence of commits are as
    before; unless it is the persistence error, what it throws is exactly what the
    operation itself threw.  When it returns, the records of the operation are the
    committed ones, by one commit. *)
Theorem transact_typed {A} (op : Tx W A) s :
  match transact op s with
  | (Ok a, s') => (exists w w', op (disk s, w) = (Ok a, (disk s', w')))
                  /\ commits s' = commits s ++ [disk s']
  | (Err e, s') => disk s' = disk s /\ commits s' = commits s
                   /\ (e <> ErrPersistence -> exists w rw, op (disk s, w) = (Err e, rw))
  end.
Proof.
  destruct (transact op s) as [[a|e] s'] eqn:E.
  - apply transact_ok in E as (w & w' & E & Hc). eauto.
  - apply transact_err in E as (Hd & Hc & [->|Hr]); by split_and!.
Qed.
End transactions.

(** ** Lemmas: the profile's own keys *)

Definition cli_key (k : jstr) : bool := starts_with (js "cli:") k.
(** Everything the Signal client writes when it is opened and when it rotates. *)
Definition client_key (k : jstr) : bool := create_key k || rotate_key k.

Lemma cli_prefix p t : starts_with (js "cli:") p = true -> cli_key (p ++ t) = true.
Proof.
  unfold cli_key. rewrite !starts_with_iff. intros [u ->]. exists (u ++ t). by rewrite app_assoc.
Qed.
Lemma cli_not_client k : cli_key k = true -> client_key k = false.
Proof.
  unfold cli_key. rewrite starts_with_iff. intros [t ->]. unfold client_key, create_key, rotate_key.
  assert (forall q, clash (js "cli:") q = true -> eqb (js "cli:" ++ t) q = false) as Hq.
  { intros q Hq. apply eqb_neq. rewrite <- (app_nil_r q). by apply clash_ne. }
  rewrite !Hq by (vm_compute; reflexivity). rewrite not_native_key by (vm_compute; reflexivity).
  by rewrite clash_starts_with by (vm_compute; reflexivity).
Qed.
Lemma cli_not_trust k a : cli_key k = true -> trust_key a <> k.
Proof.
  unfold cli_key. rewrite starts_with_iff. intros [t ->]. unfold trust_key.
  apply clash_ne. vm_compute. reflexivity.
Qed.
Lemma publication_key_cli slot : cli_key (publicationSlotKey slot) = true.
Proof. destruct slot; [vm_compute; reflexivity|]. by apply cli_prefix. Qed.
Lemma contact_key_cli i : cli_key (contact_key i) = true.
Proof. by apply cli_prefix. Qed.
Lemma publicationSlotKey_inj i j : publicationSlotKey i = publicationSlotKey j -> i = j.
Proof.
  destruct i, j; cbn [publicationSlotKey]; [done| | |].
  - intros E. apply (f_equal length) in E. rewrite !length_app in E. change (length (js ":")) with 1%nat in E. lia.
  - intros E. apply (f_equal length) in E. rewrite !length_app in E. change (length (js ":")) with 1%nat in E. lia.
  - intros E%app_inv_head%app_inv_head. apply show_Z_inj in E. lia.
Qed.

(** ** Lemmas: the publication pool *)

Section pool.
Context {W : Type} `{Zod} `{World W} `{Native W} `{Crypto}.

(** The member a stored record stands for. *)
Definition slot_value (stored : option bytes) : res err (option json) :=
  match stored with
  | None => Ok None
  | Some bs => res_bind (of_option (ErrOther (js "SyntaxError")) (json_decode bs)) (fun j =>
               res_map (fun p => Some (sub_field (js "bundle") p)) (zod_parse publicationSchema j))
  end.
Lemma read_slot_run slot (s : records * W) :
  readPublicationSlot slot s = (slot_value (get (publicationSlotKey slot) s.1), s).
Proof.
  unfold readPublicationSlot, bind, tx_get, gets, slot_value.
  destruct (get _ _) as [bs|]; [|done]. unfold decode, from_option, of_option.
  destruct (json_decode bs) as [j|]; [|done]. cbn [res_bind]. unfold ret, lift.
  destruct (zod_parse _ j); done.
Qed.
Lemma slot_value_present bs m : slot_value (Some bs) = Ok m -> m <> None.
Proof.
  unfold slot_value. destruct (json_decode bs); [|done]. cbn. destruct (zod_parse _ _); [|done].
  by intros [= <-].
Qed.
Lemma slot_value_empty stored m : slot_value stored = Ok m -> (m = None <-> stored = None).
Proof.
  destruct stored as [bs|]; [|by intros [= <-]]. intros E%slot_value_present. by split.
Qed.

Definition publication (bundle : json) : json :=
  JObj [(js "version", JNum 1); (js "bundle", bundle)].
Lemma publicationSchema_ok bundle p :
  publicationSchema (publication bundle) = Some p ->
  p = publication bundle /\ publicationSchema p = Some p /\ sub_field (js "bundle") p = bundle.
Proof.
  intros E.
  assert (publicationSchema (publication bundle) = if accepts SignalPreKeyBundleV2Schema bundle
            then Some (publication bundle) else None) as Hs.
  { unfold publicationSchema, publication, z_strict.
    cbn [forallb known existsb req fst snd]. eval_keys. cbn [orb andb].
    unfold z_object. cbn [parse_properties req]. eval_object.
    unfold z_literal. rewrite eqb_refl. unfold z_custom.
    by destruct (accepts SignalPreKeyBundleV2Schema bundle). }
  rewrite Hs in E. destruct (accepts _ bundle); [|done]. injection E as <-.
  split; [done|]. split; [done|]. unfold sub_field, publication. eval_object. done.
Qed.
(** What is stored for a member reads back as that member. *)
Lemma slot_value_publication bundle :
  is_Some (publicationSchema (publication bundle)) -> json_ok bundle = true ->
  slot_value (Some (json_encode (publication bundle))) = Ok (Some bundle).
Proof.
  intros [p Hp] Hb. destruct (publicationSchema_ok _ _ Hp) as (-> & Hp' & Hf).
  unfold slot_value. rewrite json_decode_encode.
  - cbn [of_option res_bind]. unfold zod_parse. rewrite Hp'. cbn [of_option res_map]. by rewrite Hf.
  - unfold publication. change (json_ok (JObj ?l)) with (keys_ok l && forallb (fun kv => json_ok kv.2) l).
    cbn [forallb snd json_ok]. rewrite Hb. vm_compute. reflexivity.
Qed.

(** What allocating a member may write. *)
Definition mint_key (slot : nat) (k : jstr) : bool := client_key k || eqb (publicationSlotKey slot) k.

Lemma preserves_readMetadata P : preserves (same_outside P) (readMetadata (W := W)).
Proof. unfold readMetadata. solve_preserves. Qed.
Lemma preserves_address_of P r : preserves (same_outside P) (address_of (W := W) r).
Proof. unfold address_of. solve_preserves. Qed.
Lemma create_client P a :
  (forall k, create_key k = true -> P k = true) -> preserves (same_outside P) (create (W := W) a).
Proof. intros HP. eapply same_outside_weaken; [exact HP|apply preserves_create]. Qed.
#[local] Hint Resolve preserves_readMetadata preserves_address_of preserves_export : echolet.

Lemma preserves_signBundle P :
  (forall k, create_key k = true -> P k = true) -> preserves (same_outside P) (signBundle (W := W)).
Proof.
  intros HP. unfold signBundle. solve_preserves_with ltac:(fun _ => lazymatch goal with
    | |- preserves _ (create _) => apply create_client, HP end).
Qed.
Lemma preserves_mint slot rotate :
  preserves (same_outside (mint_key slot)) (mintPublicationSlot (W := W) slot rotate).
Proof.
  assert (forall k, create_key k = true -> mint_key slot k = true) as HP
    by (intros k Hk; unfold mint_key, client_key; by rewrite Hk).
  assert (preserves (same_outside (mint_key slot)) (rotateOneTimePreKey (W := W))) as Hrot.
  { eapply same_outside_weaken; [|apply preserves_rotate]. intros k Hk. unfold mint_key, client_key.
    by rewrite Hk, orb_true_r. }
  unfold mintPublicationSlot. solve_preserves_with ltac:(fun _ => lazymatch goal with
    | |- preserves _ (create _) => apply create_client, HP
    | |- preserves _ rotateOneTimePreKey => exact Hrot
    | |- preserves _ signBundle => apply preserves_signBundle, HP
    | |- preserves _ (tx_set _ _) => apply preserves_tx_set; unfold mint_key; by rewrite eqb_refl, orb_true_r
    end).
Qed.
Lemma mint_ok slot rotate (s : records * W) b s' :
  mintPublicationSlot slot rotate s = (Ok b, s') ->
  get (publicationSlotKey slot) s'.1 = Some (json_encode (publication b))
  /\ is_Some (publicationSchema (publication b))
  /\ forall k, cli_key k = true -> k <> publicationSlotKey slot -> get k s'.1 = get k s.1.
Proof.
  intros Hr. pose proof (preserves_mint slot rotate s) as Hp. rewrite Hr in Hp. cbn [snd] in Hp.
  unfold mintPublicationSlot in Hr. apply bind_ok in Hr as (u & s1 & _ & Hr).
  apply bind_ok in Hr as (b' & s2 & _ & Hr). apply bind_ok in Hr as (p & s3 & Hz & Hr).
  apply bind_ok in Hr as (v & s4 & Hset & Hr). apply tx_set_ok in Hset as ->.
  apply ret_ok in Hr as [<- ->]. unfold lift in Hz. injection Hz as Hz _.
  apply of_option_ok in Hz. change (JObj _) with (publication b') in Hz.
  destruct (publicationSchema_ok _ _ Hz) as (-> & _ & _).
  split; [cbn [fst]; apply get_set_eq|]. split; [by eexists|]. intros k Hk Hne. apply Hp.
  unfold mint_key. rewrite cli_not_client by done. cbn [orb]. apply eqb_neq. congruence.
Qed.
End pool.

Section fill.
Context {W : Type} `{Zod} `{World W} `{Native W} `{Crypto}.

Definition empty_slot (members : list (option json)) (slot : nat) : bool :=
  match members !! slot with Some None => true | _ => false end.

(** What filling the given slots establishes. *)
Record filled (slots : list nat) (members members' : list (option json)) (r r' : records)
  (minted minted' : Z) : Prop := {
  f_length : length members' = length members;
  f_minted : minted' = minted + Z.of_nat (length (List.filter (empty_slot members) slots));
  f_kept : forall slot, slot ∉ slots \/ empty_slot members slot = false ->
    members' !! slot = members !! slot
    /\ get (publicationSlotKey slot) r' = get (publicationSlotKey slot) r;
  f_fresh : forall slot, slot ∈ slots -> empty_slot members slot = true ->
    exists b, members' !! slot = Some (Some b) /\ is_Some (publicationSchema (publication b))
              /\ get (publicationSlotKey slot) r' = Some (json_encode (publication b));
  f_frame : forall k, cli_key k = true -> (forall slot, k <> publicationSlotKey slot) -> get k r' = get k r;
}.

Lemma filter_ext_in' {A} (f g : A -> bool) l :
  (forall x, x ∈ l -> f x = g x) -> List.filter f l = List.filter g l.
Proof.
  induction l as [|x l IH]; intros Hfg; [done|]. cbn. rewrite (Hfg x) by left.
  rewrite IH; [done|]. intros y Hy. apply Hfg. by right.
Qed.

Lemma fill_slots_ok slots members minted (s : records * W) members' minted' s' :
  NoDup slots -> (forall slot, slot ∈ slots -> (slot < length members)%nat) ->
  fill_slots slots members minted s = (Ok (members', minted'), s') ->
  filled slots members members' s.1 s'.1 minted minted'.
Proof.
  intros Hnd. revert members minted s. induction Hnd as [|slot slots Hslot Hnd IH];
    intros members minted s Hlt Hr; cbn [fill_slots] in Hr.
  { apply ret_ok in Hr as [Hm ->]. injection Hm as <- <-. constructor; cbn; [done|lia|done| |done].
    intros slot Hs. by apply not_elem_of_nil in Hs. }
  assert (forall n, n ∈ slots -> (n < length members)%nat) as Hlt'.
  { intros n Hn. apply Hlt. by right. }
  destruct (lookup_lt_is_Some_2 members slot) as [m Hm]; [apply Hlt; left|]. rewrite Hm in Hr.
  destruct m as [b|].
  - specialize (IH _ _ _ Hlt' Hr). destruct IH as [I1 I2 I3 I4 I5].
    assert (empty_slot members slot = false) as He by (unfold empty_slot; by rewrite Hm).
    constructor; [done|cbn; by rewrite He| | |done].
    + intros n [Hn|Hn]; apply I3; [|by right]. left. intros ?. apply Hn. by right.
    + intros n [->|Hn]%elem_of_cons Hen; [congruence|]. by apply I4.
  - apply bind_ok in Hr as (b & s1 & Hmint & Hr). apply mint_ok in Hmint as (Hb & Hp & Hframe).
    specialize (IH (<[slot:=Some b]> members) _ _ ltac:(by rewrite length_insert) Hr).
    destruct IH as [I1 I2 I3 I4 I5].
    assert (forall n, n <> slot -> empty_slot (<[slot:=Some b]> members) n = empty_slot members n) as He.
    { intros n Hn. unfold empty_slot. by rewrite list_lookup_insert_ne. }
    assert (empty_slot members slot = true) as He0 by (unfold empty_slot; by rewrite Hm).
    assert (forall n, n <> slot -> get (publicationSlotKey n) s1.1 = get (publicationSlotKey n) s.1) as Hs1.
    { intros n Hn. apply Hframe; [apply publication_key_cli|]. by intros ?%publicationSlotKey_inj. }
    destruct (I3 slot (or_introl Hslot)) as [Hm1 Hk1]. rewrite list_lookup_insert_eq in Hm1 by (apply Hlt; left).
    constructor.
    + by rewrite I1, length_insert.
    + cbn [List.filter]. rewrite He0, I2. cbn [length].
      rewrite (filter_ext_in' _ (empty_slot members)); [lia|]. intros n Hn. apply He. by intros ->.
    + intros n Hn. assert (n <> slot) as Hne.
      { intros ->. destruct Hn as [Hn|Hn]; [apply Hn; left|congruence]. }
      destruct (I3 n) as [E1 E2].
      * destruct Hn as [Hn|Hn]; [left|right; by rewrite He]. intros ?. apply Hn. by right.
      * rewrite E1, E2, list_lookup_insert_ne, Hs1 by done. done.
    + intros n [->|Hn]%elem_of_cons Hen; [exists b; by rewrite Hk1|].
      apply I4; [done|]. rewrite He; [done|]. by intros ->.
    + intros k Hk Hne. rewrite I5 by done. apply Hframe; [done|apply Hne].
Qed.

(** Reading the slots touches nothing. *)
Lemma read_slots_ok slots (s : records * W) members s' :
  mapM readPublicationSlot slots s = (Ok members, s') ->
  s' = s /\ Forall2 (fun slot m => slot_value (get (publicationSlotKey slot) s.1) = Ok m) slots members.
Proof.
  revert members. induction slots as [|slot slots IH]; intros members Hr; cbn [mapM] in Hr.
  { apply ret_ok in Hr as [<- ->]. auto. }
  apply bind_ok in Hr as (m & s1 & Hm & Hr). rewrite read_slot_run in Hm. injection Hm as Hm <-.
  apply bind_ok in Hr as (ms & s2 & Hms & Hr). apply ret_ok in Hr as [<- ->].
  destruct (IH _ Hms) as [-> IHs]. auto.
Qed.
Lemma read_slots_run slots (s : records * W) members :
  Forall2 (fun slot m => slot_value (get (publicationSlotKey slot) s.1) = Ok m) slots members ->
  mapM readPublicationSlot slots s = (Ok members, s).
Proof.
  intros Hm. apply mapM_read. eapply Forall2_impl; [exact Hm|]. intros slot m E.
  cbn beta in *. by rewrite read_slot_run, E.
Qed.
Lemma fill_nothing slots members minted (s : records * W) :
  (forall slot, slot ∈ slots -> exists b, members !! slot = Some (Some b)) ->
  fill_slots slots members minted s = (Ok (members, minted), s).
Proof.
  induction slots as [|slot slots IH]; intros Hall; cbn [fill_slots]; [done|].
  destruct (Hall slot) as [b ->]; [left|]. apply IH. intros n Hn. apply Hall. by right.
Qed.

Definition pool_slots : list nat := seq 0 poolTarget.
Definition vacant (r : records) (slot : nat) : bool :=
  match get (publicationSlotKey slot) r with None => true | Some _ => false end.

(** What a completed pool is, relative to the records it was completed from. *)
Record pool_restored (r r' : records) (members : list json) (minted : Z) : Prop := {
  p_length : length members = poolTarget;
  p_minted : minted = Z.of_nat (length (List.filter (vacant r) pool_slots));
  p_kept : forall slot bs, get (publicationSlotKey slot) r = Some bs -> get (publicationSlotKey slot) r' = Some bs;
  p_stored : forall slot b, members !! slot = Some b ->
    if vacant r slot then get (publicationSlotKey slot) r' = Some (json_encode (publication b))
    else slot_value (get (publicationSlotKey slot) r') = Ok (Some b);
  p_schema : forall slot b, members !! slot = Some b -> vacant r slot = true ->
    is_Some (publicationSchema (publication b));
  p_frame : forall k, cli_key k = true -> (forall slot, k <> publicationSlotKey slot) -> get k r' = get k r;
}.

Lemma omap_id_lookup (l : list (option json)) n :
  (forall i m, l !! i = Some m -> m <> None) ->
  omap id l !! n = match l !! n with Some m => m | None => None end.
Proof.
  revert n. induction l as [|m l IH]; intros n Hall; [by rewrite !lookup_nil|].
  destruct m as [b|]; [|by destruct (Hall 0%nat None eq_refl)].
  destruct n as [|n]; [done|]. apply IH. intros i m Hi. by apply (Hall (S i)).
Qed.
Lemma omap_id_length (l : list (option json)) :
  (forall i m, l !! i = Some m -> m <> None) -> length (omap id l) = length l.
Proof.
  induction l as [|m l IH]; intros Hall; [done|].
  destruct m as [b|]; [|by destruct (Hall 0%nat None eq_refl)].
  cbn. rewrite <- IH; [done|]. intros i m Hi. by apply (Hall (S i)).
Qed.

Lemma restore_pool_ok (s : records * W) pool s' :
  restore_pool s = (Ok pool, s') ->
  pool_restored s.1 s'.1 (omap id pool.1) pool.2
  /\ (forall i m, pool.1 !! i = Some m -> m <> None).
Proof.
  unfold restore_pool. intros Hr. apply bind_ok in Hr as (read & s1 & Hread & Hr).
  apply read_slots_ok in Hread as [-> Hread]. destruct pool as [members minted].
  pose proof (Forall2_length _ _ _ Hread) as Hlen. rewrite length_seq in Hlen.
  assert (forall slot m, read !! slot = Some m ->
    (slot < poolTarget)%nat /\ slot_value (get (publicationSlotKey slot) s.1) = Ok m) as Hval.
  { intros slot m Hm. destruct (Forall2_lookup_r _ _ _ _ _ Hread Hm) as (j & Hj & E).
    apply lookup_seq in Hj as [-> Hlt]. done. }
  assert (forall slot, empty_slot read slot = true <-> (slot < poolTarget)%nat /\ vacant s.1 slot = true) as Hvac.
  { intros slot. unfold empty_slot, vacant. destruct (read !! slot) as [m|] eqn:Em.
    - destruct (Hval _ _ Em) as [Hlt E]. pose proof (slot_value_empty _ _ E) as He.
      destruct m as [b|], (get (publicationSlotKey slot) s.1) as [bs|].
      + split; [done|]. by intros [].
      + discriminate (proj2 He eq_refl).
      + discriminate (proj1 He eq_refl).
      + by split.
    - apply lookup_ge_None in Em. split; [done|]. lia. }
  apply fill_slots_ok in Hr; [|apply NoDup_ListNoDup, List.NoDup_rev, seq_NoDup|]; cycle 1.
  { intros slot Hs. apply list_elem_of_In, in_rev, in_seq in Hs. lia. }
  assert (forall slot, slot ∈ rev (seq 0 poolTarget) <-> (slot < poolTarget)%nat) as Hin.
  { intros slot. rewrite list_elem_of_In, <- in_rev, in_seq. lia. }
  destruct Hr as [F1 F2 F3 F4 F5]. cbn [fst snd].
  assert (forall i m, members !! i = Some m -> m <> None) as Hfull.
  { intros i m Hm. pose proof (lookup_lt_Some _ _ _ Hm). destruct (empty_slot read i) eqn:Ee.
    - destruct (F4 i) as (b & Hb & _); [apply Hin; lia|done|]. congruence.
    - destruct (F3 i) as [E _]; [by right|]. rewrite Hm in E. symmetry in E. intros ->.
      unfold empty_slot in Ee. by rewrite E in Ee. }
  split; [|done]. constructor.
  - rewrite omap_id_length by done. lia.
  - rewrite F2, filter_rev, length_rev, Z.add_0_l. do 2 f_equal. apply filter_ext_in'.
    intros slot Hs. apply list_elem_of_In, in_seq in Hs. apply eq_true_iff_eq. rewrite Hvac.
    split; [by intros []|]. intros Hv. split; [lia|done].
  - intros slot bs Hg. destruct (F3 slot) as [_ E]; [|by rewrite E].
    right. apply not_true_is_false. rewrite Hvac. unfold vacant. rewrite Hg. by intros [].
  - intros slot b Hb. rewrite omap_id_lookup in Hb by done.
    destruct (members !! slot) as [m|] eqn:Em; [|done]. subst m.
    pose proof (lookup_lt_Some _ _ _ Em). destruct (vacant s.1 slot) eqn:Ev.
    + destruct (F4 slot) as (b' & Hb' & _ & Hg); [apply Hin; lia|apply Hvac; split; [lia|done]|].
      rewrite Em in Hb'. by injection Hb' as <-.
    + destruct (F3 slot) as [E1 E2]; [right; apply not_true_is_false; rewrite Hvac; by intros [_ ?]; congruence|].
      rewrite E2. rewrite Em in E1. symmetry in E1. by apply Hval in E1 as [_ ?].
  - intros slot b Hb Hv. rewrite omap_id_lookup in Hb by done.
    destruct (members !! slot) as [m|] eqn:Em; [|done]. subst m.
    pose proof (lookup_lt_Some _ _ _ Em).
    destruct (F4 slot) as (b' & Hb' & ? & _); [apply Hin; lia|apply Hvac; split; [lia|done]|].
    rewrite Em in Hb'. by injection Hb' as <-.
  - exact F5.
Qed.

(** Completing a complete pool reads it. *)
Lemma restore_pool_again (r : records) members :
  Forall2 (fun slot b => slot_value (get (publicationSlotKey slot) r) = Ok (Some b)) pool_slots members ->
  forall w : W, restore_pool (r, w) = (Ok (map Some members, 0), (r, w)).
Proof.
  intros Hm w. unfold restore_pool, bind. rewrite (read_slots_run _ (r, w) (map Some members)).
  - apply fill_nothing. intros slot Hs. apply list_elem_of_In, in_rev, in_seq in Hs.
    pose proof (Forall2_length _ _ _ Hm) as Hl. unfold pool_slots in Hl. rewrite length_seq in Hl.
    destruct (lookup_lt_is_Some_2 members slot) as [b Hb]; [lia|]. exists b.
    by rewrite list_lookup_fmap, Hb.
  - apply Forall2_fmap_r. exact Hm.
Qed.

(** The pool of published bundles is completed and then stands.  After
    [restorePublicationPool] answers: there are [PREKEY_MIN_COUNT] members, one per
    slot; exactly the vacant slots were minted; a slot that held a publication
    holds the byte-identical one and its member is the stored one; a minted slot
    durably holds the very bundle that is answered; no other client record is
    touched; and asking again answers the same members, mints none and changes no
    record. *)
Theorem pool_stands (s : env W) members minted s' :
  restorePublicationPool s = (Ok (members, minted), s') ->
  pool_restored (disk s) (disk s') members minted
  /\ (Forall (fun b => json_ok b = true) members ->
      forall s2, disk s2 = disk s' ->
      match restorePublicationPool s2 with
      | (Ok (members2, minted2), s3) => members2 = members /\ minted2 = 0 /\ disk s3 = disk s'
      | (Err e, s3) => e = ErrPersistence /\ disk s3 = disk s'
      end).
Proof.
  unfold restorePublicationPool. intros Hr. apply transact_ok in Hr as (w & w' & Hr & _).
  apply bind_ok in Hr as (pool & s1 & Hp & Hr). apply ret_ok in Hr as [Hm <-].
  apply restore_pool_ok in Hp as [Hp Hfull]. injection Hm as Hm1 Hm2. rewrite Hm1, Hm2 in Hp. cbn [fst] in Hp.
  split; [done|]. intros Hok s2 Hs2. destruct Hp as [P1 P2 P3 P4 P5 P6].
  assert (Forall2 (fun slot b => slot_value (get (publicationSlotKey slot) (disk s')) = Ok (Some b))
            pool_slots members) as Hall.
  { apply Forall2_same_length_lookup_2; [unfold pool_slots; by rewrite length_seq|].
    intros i slot b Hi Hb. apply lookup_seq in Hi as [-> _]. cbn [Nat.add].
    pose proof (P4 _ _ Hb) as Hst. destruct (vacant (disk s) i) eqn:Ev; [|done].
    rewrite Hst. apply slot_value_publication; [by eapply P5|].
    by eapply (Forall_lookup_1 _ _ _ _ Hok Hb). }
  destruct (transact _ s2) as [[[m2 n2]|e] s3] eqn:E.
  - apply transact_ok in E as (w2 & w3 & E & _). rewrite Hs2 in E.
    apply bind_ok in E as (pool2 & s4 & E & Hr). rewrite (restore_pool_again _ _ Hall) in E.
    injection E as <- <-. apply ret_ok in Hr as [Hm Hd]. injection Hm as <- <-. injection Hd as -> _.
    cbn [fst]. split_and!; [|done|done]. clear. induction members as [|b l IH]; [done|]. cbn. f_equal. exact IH.
  - apply transact_err in E as (Hd & _ & He). split; [|congruence].
    destruct He as [?|(w2 & rw & E)]; [done|]. rewrite Hs2 in E. unfold bind in E.
    rewrite (restore_pool_again _ _ Hall) in E. done.
Qed.
End fill.

(** ** Lemmas: contacts *)

Section contacts.
Context {W : Type} `{Zod} `{World W} `{Native W} `{Crypto} `{!NativeLaws}.

(** Approving: the trust record is the key, and was no other key before. *)
Lemma approve_ok a b (s s' : records * W) u :
  approveRemote a b s = (Ok u, s') ->
  exists key, pk_deserialize b = Some key /\ s' = (set (trust_key a) key s.1, s.2)
              /\ (get (trust_key a) s.1 = None \/ trusted_as s a = Some key).
Proof.
  intros Hr. destruct (approve_cases a b s) as [E|[[e E]|(key & Hk & Ho & E)]];
    rewrite E in Hr; [done|done|]. injection Hr as _ <-. eauto.
Qed.

Lemma pin_contact_ok identifiers a key (s s' : records * W) b :
  let k := contact_key (str_field (js "identity_id") identifiers) in
  pin_contact identifiers a key s = (Ok b, s') ->
  b = true
  /\ get k s'.1 = Some (json_encode identifiers)
  /\ (forall bs, get k s.1 = Some bs -> exists j old,
        json_decode bs = Some j /\ contactSchema j = Some old /\ stringify old = stringify identifiers)
  /\ (exists canonical, pk_deserialize key = Some canonical /\ get (trust_key a) s'.1 = Some canonical
        /\ (get (trust_key a) s.1 = None \/ trusted_as s a = Some canonical))
  /\ (forall k', cli_key k' = true -> k' <> k -> get k' s'.1 = get k' s.1)
  /\ (forall a', trust_key a' <> trust_key a -> get (trust_key a') s'.1 = get (trust_key a') s.1).
Proof.
  intros k Hr. unfold pin_contact in Hr. fold k in Hr.
  apply bind_ok in Hr as (previous & s1 & Hg & Hr). apply tx_get_ok in Hg as [-> ->].
  apply bind_ok in Hr as (u & s1 & Hold & Hr).
  assert (s1 = s /\ forall bs, get k s.1 = Some bs -> exists j old,
    json_decode bs = Some j /\ contactSchema j = Some old /\ stringify old = stringify identifiers) as [-> Hprev].
  { destruct (get k s.1) as [bs|] eqn:Eg; [|apply ret_ok in Hold as [_ ->]; done].
    apply bind_ok in Hold as (j & s2 & Hd & Hold). apply from_option_ok in Hd as [Hd ->].
    apply bind_ok in Hold as (old & s2 & Hz & Hold). unfold lift in Hz. injection Hz as Hz <-.
    apply of_option_ok in Hz. destruct (eqb _ _) eqn:E; [|done].
    apply ret_ok in Hold as [_ ->]. split; [done|]. intros bs' [= <-]. rewrite eqb_eq in E. eauto. }
  apply bind_ok in Hr as (metadata & s1 & Hmd & Hr).
  assert (s1 = s) as ->.
  { unfold readMetadata in Hmd. apply bind_ok in Hmd as (v & s2 & Hv & Hmd). apply tx_get_ok in Hv as [-> ->].
    destruct (get metadataKey s.1); [|done]. apply bind_ok in Hmd as (j & s2 & Hj & Hmd).
    apply from_option_ok in Hj as [_ ->]. by injection Hmd. }
  apply bind_ok in Hr as (local & s1 & Hl & Hr). apply from_option_ok in Hl as [_ ->].
  apply bind_ok in Hr as (u2 & s1 & Hc & Hr).
  pose proof (preserves_create local s) as Hcreate. rewrite Hc in Hcreate. cbn [snd] in Hcreate.
  apply bind_ok in Hr as (u3 & s2 & Ha & Hr). apply approve_ok in Ha as (canonical & Hk & -> & Ho).
  apply bind_ok in Hr as (u4 & s3 & Hset & Hr). apply tx_set_ok in Hset as ->.
  apply ret_ok in Hr as [<- ->]. cbn [fst snd].
  assert (forall k', cli_key k' = true -> get k' s1.1 = get k' s.1) as Hcli.
  { intros k' Hk'. apply Hcreate. pose proof (cli_not_client k' Hk') as E. unfold client_key in E.
    by apply orb_false_iff in E as [-> _]. }
  assert (forall a', get (trust_key a') s1.1 = get (trust_key a') s.1) as Htrust.
  { intros a'. apply Hcreate, create_not_trust. }
  assert (forall a', trust_key a' <> k) as Hne by (intros a'; apply cli_not_trust, contact_key_cli).
  split; [done|]. split; [apply get_set_eq|]. split; [exact Hprev|]. split; [|split].
  - exists canonical. split; [done|]. split.
    + rewrite get_set_ne by (apply not_eq_sym, Hne). apply get_set_eq.
    + unfold trusted_as in *. by rewrite Htrust in Ho.
  - intros k' Hk' Hk'ne. rewrite get_set_ne, get_set_ne by (first [done | by apply cli_not_trust | congruence]).
    by apply Hcli.
  - intros a' Ha'. rewrite get_set_ne by (apply not_eq_sym, Hne). rewrite get_set_ne by congruence. apply Htrust.
Qed.

(** What an import comes down to: the card's bundle was verified at the instant the clock showed, the operator was asked, and
    the contact was pinned, in one transaction, when the operator agreed. *)
Lemma import_runs input confirm (s : env W) r s' :
  importContact input confirm s = (r, s') ->
  disk s' = disk s /\ r <> Ok true /\
    (r = Ok false -> exists ask identifiers w0 w1, confirm = Some ask /\ ask identifiers w0 = (false, w1))
  \/ exists ask wire now a bundle w0 w1,
      (exists copied card, copyJson input = Ok copied /\ zod_parse cardSchema copied = Ok card /\ wire = sub_field (js "signal_bundle") card)
      /\ now = (date_now (world s)).1
      /\ confirm = Some ask /\ ask (contact_identifiers wire) w0 = (true, w1)
      /\ importVerifiedSignalBundleV2 wire (str_field (js "identity_id") (sub_field (js "device_record") wire))
           (str_field (js "device_id") (sub_field (js "device_record") wire)) now = Ok (a, bundle)
      /\ transact (pin_contact (contact_identifiers wire) a (pb_identity bundle)) (Env (disk s) w1 (commits s)) = (r, s').
Proof.
  unfold importContact, bind at 1, lift. intros Hr.
  destruct (copyJson input) as [copied|e] eqn:Ec; [|by injection Hr as <- <-; left].
  unfold bind at 1 in Hr. destruct (zod_parse cardSchema copied) as [card|e] eqn:Ed; [|by injection Hr as <- <-; left].
  set (wire := sub_field (js "signal_bundle") card) in *. cbv zeta in Hr.
  unfold bind at 1, outside in Hr. destruct (date_now (world s)) as [now w0]. unfold bind at 1 in Hr.
  destruct (importVerifiedSignalBundleV2 _ _ _ _) as [[a bundle]|e] eqn:Ei; [|by injection Hr as <- <-; left].
  destruct confirm as [ask|]; [|by injection Hr as <- <-; left].
  unfold bind at 1, outside in Hr. cbn [world disk commits] in Hr.
  destruct (ask (contact_identifiers wire) w0) as [[] w1] eqn:Ea.
  2:{ injection Hr as <- <-. left. split; [done|]. split; [done|]. intros _. by exists ask, (contact_identifiers wire), w0, w1. }
  right. exists ask, wire, now, a, bundle, w0, w1. split; [exists copied, card; by split_and!|]. by split_and!.
Qed.

(** C10: a contact is pinned once, to what the operator confirmed.  [importContact]
    changes the store only when it answers true; then the card's bundle passed the
    verified import, the operator confirmed exactly the identifiers that are now
    stored, the Signal key of that bundle is the one trusted for its address and no
    other key was trusted before, a contact already pinned under that identity has
    the same identifiers, and no other contact, client record or trusted key
    changed. *)
Theorem contact_pinned input confirm (s : env W) r s' :
  importContact input confirm s = (r, s') ->
  (r <> Ok true -> disk s' = disk s)
  /\ (r = Ok true -> exists ask wire now a bundle w1 w2,
      let identifiers := contact_identifiers wire in
      let k := contact_key (str_field (js "identity_id") identifiers) in
      confirm = Some ask /\ ask identifiers w1 = (true, w2)
      /\ importVerifiedSignalBundleV2 wire (str_field (js "identity_id") (sub_field (js "device_record") wire))
           (str_field (js "device_id") (sub_field (js "device_record") wire)) now = Ok (a, bundle)
      /\ get k (disk s') = Some (json_encode identifiers)
      /\ get (trust_key a) (disk s') = Some (pb_identity bundle)
      /\ (get (trust_key a) (disk s) = None \/ trusted_as (disk s, world s) a = Some (pb_identity bundle))
      /\ (forall bs, get k (disk s) = Some bs -> exists j old,
            json_decode bs = Some j /\ contactSchema j = Some old /\ stringify old = stringify identifiers)
      /\ (forall k', cli_key k' = true -> k' <> k -> get k' (disk s') = get k' (disk s))
      /\ (forall a', trust_key a' <> trust_key a -> get (trust_key a') (disk s') = get (trust_key a') (disk s))).
Proof.
  intros Hr. destruct (import_runs _ _ _ _ _ Hr) as [(Hd & Hn & _)|(ask & wire & now & a & bundle & w0 & w1 & _ & _ & -> & Ha & Ei & Ht)]; [by split|].
  destruct r as [b|e].
  - apply transact_ok in Ht as (w & w' & Hp & _).
    apply pin_contact_ok in Hp as (-> & Hg & Hprev & (canonical & Hk & Ht & Ho) & Hf1 & Hf2). split; [done|]. intros _.
    destruct (import_ok _ _ _ _ _ _ Ei) as (_ & wi & wi2 & _ & _ & Hv).
    destruct (v_native_signatures _ _ _ _ _ Hv) as (idb & ? & ? & _ & Hpk & _).
    rewrite (pk_canonical _ _ Hpk) in Hk. injection Hk as <-.
    exists ask, wire, now, a, bundle, w0, w1. split; [done|]. split; [done|]. split; [done|].
    split; [exact Hg|]. split; [exact Ht|]. split; [exact Ho|]. split; [exact Hprev|]. by split.
  - apply transact_err in Ht as (Hd & _ & _). split; [done|]. done.
Qed.
End contacts.

(** ** Witnesses *)
Module ProfileSample.
Definition profile_id : jstr := js "110a486a-e330-43dd-8383-b1aa8b1cc353".
Definition opened : res err unit * env Toy.world :=
  openProfile_transaction (H := zod_example) (H0 := Toy.world_ops) (H1 := ToyNative.native)
    (H2 := Toy.crypto) profile_id true (Env [] 0 []).
(** A profile whose pool has one vacant slot, the last. *)
Definition one_vacant : env Toy.world :=
  Env (fold_left (fun r slot => set (publicationSlotKey slot) (json_encode (publication Sample.signed)) r)
         (seq 0 19) (disk opened.2)) 7 [].
Definition pool_run : res err (list json * Z) * env Toy.world :=
  restorePublicationPool (H := zod_example) (H0 := Toy.world_ops) (H1 := ToyNative.native)
    (H2 := Toy.crypto) one_vacant.
Definition pool : list json * Z := ok_or ([], 0) pool_run.1.
Definition card : json := JObj [ (js "type", JStr (js "echolet_contact_card")); (js "version", JNum 1);
  (js "signal_bundle", Sample.signed) ].
Definition confirm (identifiers : json) (w : Toy.world) : bool * Toy.world := (true, w + 1).
Definition import_run : res err bool * env Toy.world :=
  importContact (H := zod_example) (H0 := Toy.world_ops) (H1 := ToyNative.native)
    (H2 := Toy.crypto) card (Some confirm) opened.2.
End ProfileSample.

Lemma pool_stands_witness : ProfileSample.pool.2 = 1 /\ length ProfileSample.pool.1 = 20%nat.
Proof.
  destruct (pool_stands (H := zod_example) (H0 := Toy.world_ops) (H1 := ToyNative.native) (H2 := Toy.crypto)
    ProfileSample.one_vacant ProfileSample.pool.1 ProfileSample.pool.2 ProfileSample.pool_run.2) as [Hp _];
    [vm_compute; reflexivity|].
  split; [vm_compute; reflexivity|exact (p_length _ _ _ _ Hp)].
Defined.
Lemma contact_pinned_witness : exists identifiers,
  get (contact_key (str_field (js "identity_id") identifiers)) (disk ProfileSample.import_run.2)
  = Some (json_encode identifiers).
Proof.
  destruct (contact_pinned (H := zod_example) (H0 := Toy.world_ops) (H1 := ToyNative.native) (H2 := Toy.crypto)
    (H3 := ToyNative.laws) ProfileSample.card (Some ProfileSample.confirm) ProfileSample.opened.2
    (Ok true) ProfileSample.import_run.2) as [_ Hp]; [vm_compute; reflexivity|].
  destruct (Hp eq_refl) as (ask & wire & now & a & bundle & w1 & w2 & _ & _ & _ & Hg & _).
  exists (contact_identifiers wire). exact Hg.
Defined.
