(* ===== verification/Config.v ===== *)
(** * The client configuration: [apps/cli/src/runtime/config.ts], [transport/loopback.ts]

    Parsing [config.json], the rule of what plain HTTP may reach, and the store key
    of the environment.  The WHATWG URL parser is the platform's: a parameter. *)

From S2P Require Import Prelude JsString Json Zod Base64Url Protocol Effects Store Wire.

(** What the code reads of a parsed [URL]. *)
Record url := Url {
  u_protocol : jstr; u_username : jstr; u_password : jstr; u_hostname : jstr;
  u_hash : jstr; u_search : jstr; u_pathname : jstr; u_origin : jstr }.
(** [new URL(s)]; [None] stands for its [TypeError]. *)
Class UrlParser := { new_URL : jstr -> option url }.

(** ** transport/loopback.ts *)

(** [/^127\.(?:\d{1,3}\.){2}\d{1,3}$/] between the dots. *)
Definition decimal_component (s : jstr) : bool := length_between 1 3 s && forallb is_digit s.
Definition isLoopbackHostname (hostname : jstr) : bool :=
  eqb hostname (js "localhost") || eqb hostname (js "[::1]")
  || match split_on 46 hostname with
     | [a; b; c; d] => eqb a (js "127") && forallb decimal_component [b; c; d]
     | _ => false
     end.

Section config.
Context `{Zod} `{UrlParser}.

Definition env_unit (u : Z) : bool := between 65 90 u || is_digit u || (u =? 95).
Definition env_name (s : jstr) : bool :=
  match s with u :: s' => between 65 90 u && forallb env_unit s' | [] => false end.
Definition configSchema : schema := z_strict
  [ req (js "profile_version") (z_literal (JNum 1));
    req (js "profile_id") (z_string (fun s => zod_uuid s && negb (eqb s []) && forallb hex_or_dash s));
    req (js "relay_url") (z_string zod_url);
    req (js "database_path") (z_string nonempty);
    req (js "store_key_env") (z_string env_name);
    req (js "request_timeout_ms") (z_number (between 100 60000));
    req (js "poll_batch_size") (z_number (between 1 100)) ].

Definition isRelayOrigin (u : url) : bool := eqb (u_search u) [] && eqb (u_pathname u) (js "/").
Definition https_or_loopback (u : url) : bool :=
  eqb (u_protocol u) (js "https:") || (eqb (u_protocol u) (js "http:") && isLoopbackHostname (u_hostname u)).
Definition no_credentials (u : url) : bool :=
  eqb (u_username u) [] && eqb (u_password u) [] && eqb (u_hash u) [].

Definition parseClientConfig (input : json) : res err json :=
  match configSchema input with
  | None => Err (ErrConfiguration (js "Invalid client configuration"))
  | Some data =>
      match new_URL (str_field (js "relay_url") data) with
      | None => Err (ErrOther (js "TypeError"))
      | Some u =>
          if negb (no_credentials u) || negb (https_or_loopback u)
          then Err (ErrConfiguration (js "Relay URL requires HTTPS or loopback HTTP without credentials"))
          else if negb (isRelayOrigin u)
          then Err (ErrConfiguration (js "Relay URL must be an origin, without a path or a query"))
          else Ok data
      end
  end.

Definition bad_store_key : err :=
  ErrConfiguration (js "Store key must be canonical base64url encoding of 32 bytes").
(** [environment] is read under a name of capital letters, so nothing inherited answers. *)
Definition readStoreKey (store_key_env : jstr) (environment : jstr -> option jstr) : res err bytes :=
  match environment store_key_env with
  | None => Err bad_store_key
  | Some value =>
      if Nat.eqb (length value) 43 && forallb url_unit value then
        let key := buffer_from_base64 value in
        if Nat.eqb (length key) 32 && eqb (encodeBase64Url key) value then Ok key else Err bad_store_key
      else Err bad_store_key
  end.
End config.

(** ** Lemmas *)

Lemma loopback_numeric h :
  isLoopbackHostname h = true ->
  h = js "localhost" \/ h = js "[::1]"
  \/ exists b c d, h = js "127" ++ 46 :: b ++ 46 :: c ++ 46 :: d
       /\ forallb decimal_component [b; c; d] = true.
Proof.
  unfold isLoopbackHostname. rewrite !orb_true_iff, !eqb_eq. intros [[->| ->]|Hs]; [auto|auto|].
  right. right. pose proof (join_split 46 h) as Hj.
  destruct (split_on 46 h) as [|a [|b [|c [|d [|]]]]]; try done.
  apply andb_true_iff in Hs as [Ha Hd]. rewrite eqb_eq in Ha. subst a.
  exists b, c, d. split; [|done]. rewrite <- Hj. cbn [join]. done.
Qed.

Section facts.
Context `{Zod} `{UrlParser}.

Lemma parseClientConfig_ok input data :
  parseClientConfig input = Ok data ->
  configSchema input = Some data
  /\ exists u, new_URL (str_field (js "relay_url") data) = Some u
       /\ no_credentials u = true /\ https_or_loopback u = true /\ isRelayOrigin u = true.
Proof.
  unfold parseClientConfig. destruct (configSchema input) as [d|]; [|done].
  destruct (new_URL _) as [u|] eqn:E; [|done].
  destruct (no_credentials u) eqn:E1; [|done]. destruct (https_or_loopback u) eqn:E2; [|done].
  cbn [negb orb]. destruct (isRelayOrigin u) eqn:E3; [|done]. intros [= ->]. split; [done|].
  exists u. by split_and!.
Qed.

(** [Buffer.from(value, "base64url")] undoes the canonical encoding and always
    gives bytes. *)
Lemma buffer_from_url bs : Forall byte_range bs -> buffer_from_base64 (encodeBase64Url bs) = bs.
Proof.
  intros Hb. rewrite encode_chars by done. unfold buffer_from_base64.
  pose proof (sextets_ok _ Hb) as Hs. rewrite <- (unsextets_sextets bs Hb) at 2. f_equal.
  induction Hs as [|v vs Hv Hvs IH]; [done|]. cbn [map].
  change (omap ?f (?x :: ?l)) with (match f x with Some y => y :: omap f l | None => omap f l end).
  cbn beta. by rewrite from_url_char, std_value_char, IH.
Qed.
Lemma unsextets_bytes vs : Forall sextet_ok vs -> Forall byte_range (unsextets vs).
Proof.
  unfold sextet_ok. induction vs using unsextets_ind; rewrite ?Forall_cons; intros Hv; cbn [unsextets app];
    repeat (apply Forall_cons_2; [unfold byte_range; lia|]); first [apply List.Forall_nil | tauto].
Qed.

(** The store key is the 32 bytes whose canonical base64url the environment
    holds: [readStoreKey] answers a key exactly when the variable is the encoding of
    it, and every other value, missing, padded, non-canonical or of another length,
    is refused as a configuration error. *)
Theorem readStoreKey_exact name environment :
  (forall key, readStoreKey name environment = Ok key
    <-> environment name = Some (encodeBase64Url key) /\ length key = 32%nat /\ Forall byte_range key)
  /\ (forall e, readStoreKey name environment = Err e -> e = bad_store_key).
Proof.
  assert (forall value key, Nat.eqb (length value) 43 && forallb url_unit value = true ->
    buffer_from_base64 value = key -> Forall byte_range key) as Hbytes.
  { intros value key Hv <-. apply andb_true_iff in Hv as [_ Hv]. apply url_units_chars in Hv as (vs & Hs & ->).
    apply unsextets_bytes. clear -Hs. unfold buffer_from_base64.
    induction Hs as [|v vs Hv Hvs IH]; [done|]. cbn [map].
    change (omap ?f (?x :: ?l)) with (match f x with Some y => y :: omap f l | None => omap f l end).
    cbn beta. rewrite from_url_char, std_value_char by done. by apply Forall_cons_2. }
  unfold readStoreKey. split.
  - intros key. split.
    + destruct (environment name) as [value|]; [|done]. destruct (_ && _) eqn:Ev; [|done].
      cbv zeta. destruct (_ && eqb _ _) eqn:Ek; [|done]. intros [= <-].
      apply andb_true_iff in Ek as [El Ek]. apply Nat.eqb_eq in El. rewrite eqb_eq in Ek.
      split; [by rewrite Ek|]. split; [done|]. by eapply Hbytes.
    + intros (-> & Hl & Hb). pose proof (length_sextets key) as Hs.
      assert (Nat.eqb (length (encodeBase64Url key)) 43 && forallb url_unit (encodeBase64Url key) = true) as ->.
      { rewrite encode_chars by done. apply andb_true_iff. rewrite length_map. split.
        - apply Nat.eqb_eq. lia.
        - apply forallb_Forall', Forall_map. eapply Forall_impl; [by apply sextets_ok|]. apply url_char_facts. }
      cbv zeta. by rewrite buffer_from_url, Hl, eqb_refl by done.
  - intros e. destruct (environment name) as [value|]; [|by intros [= <-]].
    destruct (_ && _); [|by intros [= <-]]. cbv zeta. destruct (_ && _); by intros [= <-].
Qed.
End facts.
