(* ===== verification/RelayClient.v ===== *)
(** * The relay: the interface its clients use and [apps/cli/src/transport/relayClient.ts]

    [Relay] is what the messengers use of the relay, [RelayLaws] what they may rely
    on; [RelayClient] implements it over one [fetch] of the platform. *)

From S2P Require Import Prelude JsString Json JsMap Zod Base64Url Protocol Platform.
From S2P Require Import Transcripts WellFormed Effects Store Signal Wire Profile Config.

(** ** The interface *)

Record challenge := Challenge { challenge_id : jstr; nonce : jstr; challenge_expires : Z }.
Record mailbox_page := Page { envelopes : list json; next_cursor : option jstr }.
Record publish_answer := PublishAnswer { pa_bundleId : jstr; pa_claimable : bool }.

Class Relay (W : Type) := {
  createChallenge : authorization -> M W challenge;
  pollMailbox : authorization -> jstr -> Z -> option jstr -> option jstr -> M W mailbox_page;
  ackMailbox : authorization -> list jstr -> M W unit;
  publishBundle : json -> M W publish_answer;
  claimBundle : jstr -> jstr -> option jstr -> M W json;
  sendEnvelope : json -> M W unit;
}.
(** A method of the relay fails with a relay error and nothing else. *)
Definition relay_only {W A} (m : M W A) : Prop :=
  forall w e w', m w = (Err e, w') -> exists re, e = ErrRelay re.
(** What the messengers may rely on: a method given well-formed values fails with a
    relay error and nothing else, and a page holds at most a hundred envelopes,
    each well-formed and accepted by the envelope schema. *)
Definition authorization_ok (a : authorization) : bool :=
  forallb (forallb unit_ok) [recipient_mailbox_id a; auth_device_id a; auth_signature a].
Definition option_units (o : option jstr) : bool :=
  match o with Some s => forallb unit_ok s | None => true end.
Class RelayLaws (W : Type) `{Zod} `{Relay W} := {
  createChallenge_errors : forall a, authorization_ok a = true -> relay_only (createChallenge a);
  pollMailbox_errors : forall a c b cu r, authorization_ok a = true -> forallb unit_ok c = true ->
    option_units cu = true -> option_units r = true -> relay_only (pollMailbox a c b cu r);
  ackMailbox_errors : forall a ids, authorization_ok a = true -> forallb (forallb unit_ok) ids = true ->
    relay_only (ackMailbox a ids);
  publishBundle_errors : forall b, json_ok b = true -> relay_only (publishBundle b);
  claimBundle_errors : forall c i d, forallb (forallb unit_ok) [c; i] = true -> option_units d = true ->
    relay_only (claimBundle c i d);
  sendEnvelope_errors : forall e, json_ok e = true -> relay_only (sendEnvelope e);
  pollMailbox_page : forall a c b cu r w page w', pollMailbox a c b cu r w = (Ok page, w') ->
    (length (envelopes page) <= 100)%nat
    /\ Forall (fun e => json_ok e = true /\ exists raw, StrictMailboxEnvelope raw = Some e) (envelopes page)
    /\ option_units (next_cursor page) = true;
}.
(** A relay call from a messenger. *)
Definition relay_call {W A} (m : M W A) : Rt (W := W) A :=
  fun s => let '(r, w) := m (world s) in (r, Env (disk s) w (commits s)).

(** ** The platform's [fetch] *)

Inductive stream_end : Type := StreamDone | StreamThrew (abort : bool).
Inductive fetch_result : Type :=
  | Responded (status : Z) (chunks : list bytes) (ending : stream_end)
  | Threw (abort : bool)   (** the fetch rejected, [abort] when with an [AbortError] *)
  | DeadlineFirst.         (** the deadline's timer won the race *)
Class Fetch (W : Type) := { fetcher : jstr -> jstr -> W -> fetch_result * W }.
(** The body's chunks are bytes. *)
Class FetchLaws (W : Type) `{Fetch W} := {
  fetch_bytes : forall path body w status chunks ending w',
    fetcher path body w = (Responded status chunks ending, w') -> Forall (Forall byte_range) chunks;
}.

(** ** The constructor *)

Record relay_client := MkRelayClient { baseUrl : jstr; maxMessageBytes : Z; responseByteBound : Z }.
Definition relay_fault (code : jstr) (retryable : bool) : err := ErrRelay (RelayError code retryable None None).
Definition invalid : err := relay_fault (js "INVALID_RELAY_RESPONSE") false.
Definition oversizedEnvelope : err := relay_fault (js "ENVELOPE_TOO_LARGE") false.
Definition relay_timeout : err := relay_fault (js "RELAY_TIMEOUT") true.
Definition relay_unavailable : err := relay_fault (js "RELAY_UNAVAILABLE") true.
Definition invalid_configuration : err := relay_fault (js "INVALID_RELAY_CONFIGURATION") false.

Definition pollResponseWrapperBytes : Z := 64 * 1024.
Definition pollResponseEnvelopeBudgetFactor : Z := 4.
Definition responseByteBoundFor (maxMessageBytes : Z) : Z :=
  Z.max (pollResponseEnvelopeBudgetFactor * maxMessageBytes) (maxMessageBytes + pollResponseWrapperBytes).

Definition new_RelayClient `{UrlParser} (base : jstr) (timeoutMs : Z) : res err relay_client :=
  match new_URL base with
  | None => Err invalid_configuration
  | Some u =>
      let loopback := isLoopbackHostname (u_hostname u) in
      if negb (eqb (u_username u) []) || negb (eqb (u_password u) []) || negb (eqb (u_hash u) [])
         || negb (eqb (u_search u) []) || negb (eqb (u_pathname u) (js "/"))
         || negb (eqb (u_protocol u) (js "https:") || (eqb (u_protocol u) (js "http:") && loopback))
         || negb (between 1 60000 timeoutMs)
      then Err invalid_configuration
      else Ok (MkRelayClient (u_origin u) MAX_MESSAGE_BYTES (responseByteBoundFor MAX_MESSAGE_BYTES))
  end.

(** ** Schemas *)

Definition remoteCodes : list jstr :=
  [ js "BUNDLE_ID_CONFLICT"; js "BUNDLE_EXPIRED"; js "CLAIM_ID_CONFLICT"; js "PREKEY_BUNDLE_UNAVAILABLE";
    js "UNAUTHORIZED_MAILBOX_ACCESS"; js "SENDER_QUOTA_EXCEEDED"; js "NOT_FOUND"; js "INVALID_REQUEST";
    js "UNAUTHORIZED"; js "ENVELOPE_ID_CONFLICT"; js "RATE_LIMITED" ].

Section client.
Context {W : Type} `{Zod} `{Fetch W}.
Context (client : relay_client).

Definition success (data : schema) : schema := z_strict
  [ req (js "ok") (z_literal (JBool true)); req (js "data") data ].
Definition failureSchema : schema := z_strict
  [ req (js "ok") (z_literal (JBool false));
    req (js "error") (z_strict [ req (js "code") any_string; req (js "message") any_string ]) ].
Definition authorization_properties : list Zod.property :=
  [ req (js "recipient_mailbox_id") (z_string nonempty); req (js "device_id") z_uuid;
    req (js "signature") (z_string nonempty) ].
Definition token : schema := z_string (length_between 1 256).
Definition nextCursorSchema : schema := z_nullable token.
Definition pollRequestSchema : schema := z_strict (authorization_properties ++
  [ req (js "challenge_id") z_uuid; req (js "batch_size") (z_number (between 1 100));
    opt (js "cursor") token; opt (js "read_through") token ]).

(** ** [validate], [request] *)

Definition validate (s : schema) (input : json) : res err json :=
  match s input with None => Err invalid | Some v => copyJson v end.

(** The reader's loop: stops as soon as the bound is passed. *)
Fixpoint read_body (bound size : Z) (chunks : list bytes) (body : bytes) : option bytes :=
  match chunks with
  | [] => Some body
  | value :: chunks =>
      let size := size + Z.of_nat (length value) in
      if bound <? size then None else read_body bound size chunks (body ++ value)
  end.

Definition http_error (status : Z) (value : json) : err :=
  let code := match failureSchema value with
              | Some parsed => let c := str_field (js "code") (sub_field (js "error") parsed) in
                               if existsb (eqb c) remoteCodes then Some c else None
              | None => None
              end in
  ErrRelay (RelayError (js "RELAY_HTTP_ERROR") ((status =? 429) || (500 <=? status)) (Some status) code).
Definition thrown (abort : bool) : err := if abort then relay_timeout else relay_unavailable.

Definition answer (s : schema) (status : Z) (body : bytes) : res err json :=
  match parse (utf8_to_string body) with
  | None => Err invalid
  | Some value =>
      if negb (between 200 299 status) then Err (http_error status value)
      else res_map (sub_field (js "data")) (validate (success s) value)
  end.
Definition judge (s : schema) (result : fetch_result) : res err json :=
  match result with
  | DeadlineFirst => Err relay_timeout
  | Threw abort => Err (thrown abort)
  | Responded status chunks ending =>
      match read_body (responseByteBound client) 0 chunks [] with
      | None => Err invalid
      | Some body =>
          match ending with
          | StreamThrew abort => Err (thrown abort)
          | StreamDone => answer s status body
          end
      end
  end.
(** The [catch]: what is not a [RelayError] becomes one. *)
Definition as_relay_error {A} (r : res err A) : res err A :=
  match r with
  | Err (ErrRelay e) => Err (ErrRelay e)
  | Err _ => Err relay_unavailable
  | Ok a => Ok a
  end.
Definition request (path : jstr) (body : json) (s : schema) : M W json := fun w =>
  let '(result, w) := fetcher (baseUrl client ++ path) (stringify body) w in
  (as_relay_error (judge s result), w).

(** ** The methods *)

Definition authorization_members (a : authorization) : list (jstr * json) :=
  [ (js "recipient_mailbox_id", JStr (recipient_mailbox_id a));
    (js "device_id", JStr (auth_device_id a)); (js "signature", JStr (auth_signature a)) ].
Definition optional_member (k : String.string) (v : option jstr) : list (jstr * json) :=
  match v with Some s => [(js k, JStr s)] | None => [] end.

Definition client_publishBundle (input : json) : M W publish_answer :=
  bundle <- lift (validate SignalPreKeyBundleV2Schema input);
  data <- request (js "/v2/prekeys/publish") (JObj [(js "bundle", bundle)]) (z_strict
    [ req (js "stored") (z_literal (JBool true));
      req (js "bundle_id") (z_literal (sub_field (js "bundle_id") bundle));
      req (js "claimable") z_boolean ]);
  ret (PublishAnswer (str_field (js "bundle_id") data) (eqb (sub_field (js "claimable") data) (JBool true))).
Definition client_claimBundle (claimId identityId : jstr) (device : option jstr) : M W json :=
  body <- lift (validate (z_strict
      [ req (js "claim_id") z_uuid; req (js "identity_id") (z_string nonempty);
        req (js "device_id") (z_nullable z_uuid) ])
    (JObj [ (js "claim_id", JStr claimId); (js "identity_id", JStr identityId);
            (js "device_id", match device with Some d => JStr d | None => JNull end) ]));
  data <- request (js "/v2/prekeys/claim") body (z_strict [ req (js "bundle") SignalPreKeyBundleV2Schema ]);
  ret (sub_field (js "bundle") data).
Definition client_sendEnvelope (input : json) : M W unit :=
  envelope <- lift (validate StrictMailboxEnvelope input);
  if (maxMessageBytes client <? utf8_length (str_field (js "ciphertext") envelope))
     || (maxMessageBytes client <? num_field (js "size_bytes") envelope)
  then throw oversizedEnvelope
  else request (js "/v1/messages/send") (JObj [(js "envelope", envelope)]) (z_strict
         [ req (js "accepted") (z_literal (JBool true));
           req (js "envelope_id") (z_literal (sub_field (js "envelope_id") envelope));
           req (js "status") (z_literal (JStr (js "relayed"))) ]);;
       ret tt.
Definition client_createChallenge (a : authorization) : M W challenge :=
  body <- lift (validate (z_strict authorization_properties) (JObj (authorization_members a)));
  data <- request (js "/v1/mailbox/challenge") body (z_strict
    [ req (js "challenge_id") z_uuid; req (js "nonce") (z_string (length_between 1 256));
      req (js "expires_at_ms") timestamp ]);
  ret (Challenge (str_field (js "challenge_id") data) (str_field (js "nonce") data)
         (num_field (js "expires_at_ms") data)).
Definition client_pollMailbox (a : authorization) (challengeId : jstr) (batch_size : Z)
    (cursor readThrough : option jstr) : M W mailbox_page :=
  body <- lift (validate pollRequestSchema (JObj (authorization_members a ++
    [ (js "challenge_id", JStr challengeId); (js "batch_size", JNum batch_size) ]
    ++ optional_member "cursor" cursor ++ optional_member "read_through" readThrough)));
  data <- request (js "/v1/mailbox/poll") body (z_strict
    [ req (js "envelopes") (z_array StrictMailboxEnvelope (fun n => n <=? 100));
      req (js "next_cursor") nextCursorSchema ]);
  ret (Page (arr_field (js "envelopes") data)
         (match sub_field (js "next_cursor") data with JStr s => Some s | _ => None end)).
Definition client_ackMailbox (a : authorization) (envelope_ids : list jstr) : M W unit :=
  body <- lift (validate (z_strict (authorization_properties ++
      [ req (js "envelope_ids") (z_array z_uuid (between 1 100)) ]))
    (JObj (authorization_members a ++ [ (js "envelope_ids", JArr (map JStr envelope_ids)) ])));
  request (js "/v1/mailbox/ack") body (z_strict
    [ req (js "acked") (z_literal (JNum (Z.of_nat (length (arr_field (js "envelope_ids") body))))) ]);;
  ret tt.

#[export] Instance client_relay : Relay W := {|
  createChallenge := client_createChallenge; pollMailbox := client_pollMailbox;
  ackMailbox := client_ackMailbox; publishBundle := client_publishBundle;
  claimBundle := client_claimBundle; sendEnvelope := client_sendEnvelope;
|}.
End client.

(** ** Lemmas: the request *)

Section facts.
Context {W : Type} `{Zod} `{Fetch W}.
Context (client : relay_client).

(** The codes of the client's own errors. *)
Definition fault_codes : list jstr :=
  [ js "INVALID_RELAY_RESPONSE"; js "ENVELOPE_TOO_LARGE"; js "RELAY_TIMEOUT"; js "RELAY_UNAVAILABLE" ].
(** What an operator may be told of a failed relay call. *)
Definition reported (e : relay_error) : Prop :=
  (re_code e = js "RELAY_HTTP_ERROR"
     /\ (exists status, re_httpStatus e = Some status /\ re_retryable e = ((status =? 429) || (500 <=? status)))
     /\ (forall code, re_remoteCode e = Some code -> code ∈ remoteCodes))
  \/ (re_code e ∈ fault_codes /\ re_httpStatus e = None /\ re_remoteCode e = None
     /\ (re_retryable e = true <-> re_code e = js "RELAY_TIMEOUT" \/ re_code e = js "RELAY_UNAVAILABLE")).

Lemma fault_reported code retryable :
  code ∈ fault_codes -> (retryable = true <-> code = js "RELAY_TIMEOUT" \/ code = js "RELAY_UNAVAILABLE") ->
  exists re, relay_fault code retryable = ErrRelay re /\ reported re.
Proof. intros Hc Hr. eexists. split; [done|]. right. split; [exact Hc|]. split; [reflexivity|]. split; [reflexivity|]. exact Hr. Qed.
Lemma invalid_reported : exists re, invalid = ErrRelay re /\ reported re.
Proof.
  apply fault_reported; [apply (list_elem_of_lookup_2 _ 0%nat); reflexivity|]. split; [done|].
  intros [E|E]; apply (f_equal (fun s => length s)) in E; vm_compute in E; done.
Qed.
Lemma oversized_reported : exists re, oversizedEnvelope = ErrRelay re /\ reported re.
Proof.
  apply fault_reported; [apply (list_elem_of_lookup_2 _ 1%nat); reflexivity|]. split; [done|].
  intros [E|E]; apply (f_equal (fun s => s !! 0%nat)) in E; vm_compute in E; done.
Qed.
Lemma timeout_reported : exists re, relay_timeout = ErrRelay re /\ reported re.
Proof. apply fault_reported; [apply (list_elem_of_lookup_2 _ 2%nat); reflexivity|]. split; [by left|done]. Qed.
Lemma unavailable_reported : exists re, relay_unavailable = ErrRelay re /\ reported re.
Proof. apply fault_reported; [apply (list_elem_of_lookup_2 _ 3%nat); reflexivity|]. split; [by right|done]. Qed.
Lemma http_error_reported status value : exists re, http_error status value = ErrRelay re /\ reported re.
Proof.
  eexists. split; [done|]. left. split; [done|]. split; [by eexists|]. intros code. cbn [re_remoteCode].
  destruct (failureSchema value) as [parsed|]; [|done]. destruct (existsb _ remoteCodes) eqn:E; [|done].
  intros [= <-]. apply existsb_exists in E as (c & Hc & E). rewrite eqb_eq in E. rewrite E. by apply list_elem_of_In.
Qed.

Lemma validate_ok P `{!Closed P} s input v :
  schema_ok P s -> P input = true -> s input = Some v -> validate s input = Ok v.
Proof.
  intros Hs Hi Hv. unfold validate, copyJson. rewrite Hv. by rewrite parse_stringify by by eapply Hs.
Qed.
Lemma validate_cases P `{!Closed P} s input :
  schema_ok P s -> P input = true ->
  validate s input = Err invalid \/ exists v, s input = Some v /\ json_ok v = true /\ validate s input = Ok v.
Proof.
  intros Hs Hi. destruct (s input) as [v|] eqn:E; [|left; unfold validate; by rewrite E].
  right. exists v. split; [done|]. split; [by eapply Hs|]. by eapply validate_ok.
Qed.

(** The reader keeps what it read, up to the bound. *)
Lemma read_body_ok bound size chunks body r :
  read_body bound size chunks body = Some r ->
  r = body ++ concat chunks /\ (chunks <> [] -> size + Z.of_nat (length (concat chunks)) <= bound).
Proof.
  revert size body. induction chunks as [|c chunks IH]; intros size body; cbn [read_body].
  - intros [= <-]. cbn. by rewrite app_nil_r.
  - destruct (bound <? size + Z.of_nat (length c)) eqn:E; [done|]. apply Z.ltb_ge in E. intros Hr.
    apply IH in Hr as [-> Hb]. cbn [concat]. split; [by rewrite app_assoc|]. intros _.
    rewrite length_app. destruct chunks as [|c' chunks']; [cbn; lia|]. specialize (Hb ltac:(done)). lia.
Qed.

Lemma request_err path body s w e w' :
  request client path body s w = (Err e, w') -> exists re, e = ErrRelay re /\ reported re.
Proof.
  unfold request. destruct (fetcher _ _ _) as [result w1]. intros [= E _]. revert E.
  assert (forall e, (exists re, e = ErrRelay re /\ reported re) -> forall e',
    as_relay_error (A := json) (Err e) = Err e' -> exists re, e' = ErrRelay re /\ reported re) as Has.
  { intros e0 (re & -> & Hr) e' [= <-]. eauto. }
  assert (forall abort, exists re, thrown abort = ErrRelay re /\ reported re) as Hthrown.
  { intros []; [apply timeout_reported|apply unavailable_reported]. }
  unfold judge, answer. destruct result as [status chunks ending|abort|].
  - destruct (read_body _ _ _ _) as [b|]; [|apply Has, invalid_reported].
    destruct ending as [|abort]; [|apply Has, Hthrown].
    destruct (parse _) as [value|]; [|apply Has, invalid_reported].
    destruct (negb _); [apply Has, http_error_reported|]. unfold validate.
    destruct (success s value) as [v|]; [|apply Has, invalid_reported]. unfold copyJson.
    destruct (parse (stringify v)); [done|]. intros [= <-]. apply unavailable_reported.
  - apply Has, Hthrown.
  - apply Has, timeout_reported.
Qed.

Lemma success_ok P `{!Closed P} s : schema_ok P s -> schema_ok P (success s).
Proof. intros Hs. unfold success. solve_schema_ok. done. Qed.
Lemma success_data s value v :
  success s value = Some v -> exists raw, s raw = Some (sub_field (js "data") v).
Proof.
  unfold success, z_strict. destruct value as [| | | | |l]; try done. destruct (forallb _ l); [|done].
  unfold z_object. destruct (parse_properties _ l) as [ws|] eqn:E; [|done]. intros [= <-].
  destruct (parse_properties_get _ _ _ (js "data") s E) as (raw & w & _ & Hs & Hg).
  - apply (list_elem_of_lookup_2 _ 1%nat). reflexivity.
  - unfold req. apply NoDup_cons; split; [|apply NoDup_singleton]. rewrite list_elem_of_singleton.
    intros E'. apply (f_equal (fun s => length s)) in E'. vm_compute in E'. done.
  - exists raw. unfold sub_field, field. by rewrite Hg.
Qed.

(** An answered request was answered by the relay, within the bounds, with a
    well-formed value its schema accepts. *)
Lemma request_ok `{!FetchLaws W} path body s w data w' :
  schema_ok units_ok s -> request client path body s w = (Ok data, w') ->
  json_ok data = true /\ (exists raw, s raw = Some data)
  /\ exists status chunks, fetcher (baseUrl client ++ path) (stringify body) w = (Responded status chunks StreamDone, w')
      /\ 200 <= status <= 299
      /\ (chunks <> [] -> Z.of_nat (length (concat chunks)) <= responseByteBound client).
Proof.
  intros Hs. unfold request. destruct (fetcher _ _ _) as [result w1] eqn:Ef. intros [= E <-].
  unfold judge, answer in E. destruct result as [status chunks ending|abort|]; [|by destruct abort|done].
  destruct (read_body _ _ _ _) as [b|] eqn:Eb; [|done]. destruct ending as [|[]]; [|done..].
  destruct (parse _) as [value|] eqn:Ep; [|done]. destruct (between 200 299 status) eqn:Est; [|by destruct (http_error status value)].
  cbn [negb] in E. apply read_body_ok in Eb as [-> Hbound]. cbn [app] in *.
  assert (units_ok value = true) as Hu.
  { eapply parse_units; [|exact Ep]. apply utf8_to_string_units. pose proof (fetch_bytes _ _ _ _ _ _ _ Ef) as Hb.
    clear -Hb. induction Hb; cbn; [apply List.Forall_nil|]. by apply Forall_app. }
  destruct (validate_cases units_ok (success s) value (success_ok _ _ Hs) Hu) as [Hv|(v & Hv & Hok & Hval)];
    [by rewrite Hv in E|]. rewrite Hval in E. cbn [res_map as_relay_error] in E. injection E as <-.
  split; [by apply sub_field_json_ok|]. split; [by eapply success_data|].
  exists status, chunks. split; [done|]. unfold between in Est. bool_to_prop. split; [lia|done].
Qed.

(** ** Lemmas: the methods *)

Definition fails_reported {A} (m : M W A) : Prop :=
  forall w e w', m w = (Err e, w') -> exists re, e = ErrRelay re /\ reported re.

Lemma fails_request path body s : fails_reported (request client path body s).
Proof. intros w e w'. apply request_err. Qed.
Lemma fails_ret {A} (a : A) : fails_reported (ret a).
Proof. done. Qed.
Lemma fails_bind {A B} (m : M W A) (f : A -> M W B) :
  fails_reported m -> (forall a, fails_reported (f a)) -> fails_reported (bind m f).
Proof.
  intros Hm Hf w e w'. unfold bind. destruct (m w) as [[a|e0] w1] eqn:E; [apply Hf|].
  intros [= <- <-]. by eapply Hm.
Qed.
Lemma fails_validate {A} s input (f : json -> M W A) :
  schema_ok json_ok s -> json_ok input = true -> (forall v, json_ok v = true -> fails_reported (f v)) ->
  fails_reported (bind (lift (validate s input)) f).
Proof.
  intros Hs Hi Hf w e w'. unfold bind, lift.
  destruct (validate_cases json_ok s input Hs Hi) as [->|(v & _ & Hv & ->)]; [|by apply Hf].
  intros [= <- _]. apply invalid_reported.
Qed.

Lemma z_uuid_ok P `{!Closed P} : schema_ok P z_uuid.
Proof. by apply z_string_ok. Qed.
Lemma bundle_schema_ok : schema_ok json_ok SignalPreKeyBundleV2Schema.
Proof. unfold SignalPreKeyBundleV2Schema, bundle_properties. solve_schema_ok. Qed.
Lemma envelope_schema_ok P `{!Closed P} : schema_ok P StrictMailboxEnvelope.
Proof. unfold StrictMailboxEnvelope, MailboxEnvelope_properties. solve_schema_ok. Qed.
Lemma poll_schema_ok : schema_ok json_ok pollRequestSchema.
Proof. unfold pollRequestSchema, authorization_properties, app. solve_schema_ok. Qed.

Lemma keys_members_ok l :
  keys_ok l = true -> forallb (fun kv => json_ok kv.2) l = true -> json_ok (JObj l) = true.
Proof. intros H1 H2. change (keys_ok l && forallb (fun kv => json_ok kv.2) l = true). by rewrite H1, H2. Qed.
Lemma authorization_members_ok a l :
  authorization_ok a = true -> keys_ok (authorization_members a ++ l) = true ->
  forallb (fun kv => json_ok kv.2) l = true -> json_ok (JObj (authorization_members a ++ l)) = true.
Proof.
  intros Ha Hk Hl. apply keys_members_ok; [done|]. rewrite forallb_app, Hl.
  unfold authorization_ok in Ha. cbn [forallb] in Ha. rewrite !andb_true_iff in Ha. destruct Ha as (H1 & H2 & H3 & _).
  unfold authorization_members. cbn [forallb snd json_ok]. by rewrite H1, H2, H3.
Qed.

Lemma createChallenge_fails a : authorization_ok a = true -> fails_reported (client_createChallenge client a).
Proof.
  intros Ha. apply fails_validate.
  - unfold authorization_properties. solve_schema_ok.
  - rewrite <- (app_nil_r (authorization_members a)). apply authorization_members_ok; [done|vm_compute; reflexivity|done].
  - intros v _. apply fails_bind; [apply fails_request|intros ?; apply fails_ret].
Qed.
Lemma pollMailbox_fails a c b cu r :
  authorization_ok a = true -> forallb unit_ok c = true -> option_units cu = true -> option_units r = true ->
  fails_reported (client_pollMailbox client a c b cu r).
Proof.
  intros Ha Hc Hcu Hr. apply fails_validate; [apply poll_schema_ok| |].
  - apply authorization_members_ok; [done|by destruct cu, r; vm_compute|].
    destruct cu, r; cbn [option_units optional_member app forallb snd json_ok] in *; by rewrite ?Hc, ?Hcu, ?Hr.
  - intros v _. apply fails_bind; [apply fails_request|intros ?; apply fails_ret].
Qed.
Lemma ackMailbox_fails a ids :
  authorization_ok a = true -> forallb (forallb unit_ok) ids = true -> fails_reported (client_ackMailbox client a ids).
Proof.
  intros Ha Hi. apply fails_validate.
  - unfold authorization_properties, app. solve_schema_ok.
  - apply authorization_members_ok; [done|vm_compute; reflexivity|]. cbn [forallb snd json_ok]. rewrite andb_true_r.
    induction ids as [|i ids IH]; [done|]. cbn [map forallb json_ok] in *. apply andb_true_iff in Hi as [-> Hi]. auto.
  - intros v _. apply fails_bind; [apply fails_request|intros ?; apply fails_ret].
Qed.
Lemma publishBundle_fails b : json_ok b = true -> fails_reported (client_publishBundle client b).
Proof.
  intros Hb. apply fails_validate; [apply bundle_schema_ok|done|].
  intros v _. apply fails_bind; [apply fails_request|intros ?; apply fails_ret].
Qed.
Lemma claimBundle_fails c i d :
  forallb (forallb unit_ok) [c; i] = true -> option_units d = true -> fails_reported (client_claimBundle client c i d).
Proof.
  intros Hc Hd. apply fails_validate.
  - solve_schema_ok.
  - apply keys_members_ok; [vm_compute; reflexivity|]. cbn [forallb snd json_ok] in *.
    rewrite !andb_true_iff in Hc. destruct Hc as (-> & -> & _). destruct d; cbn [json_ok option_units] in *; by rewrite ?Hd.
  - intros v _. apply fails_bind; [apply fails_request|intros ?; apply fails_ret].
Qed.
Lemma sendEnvelope_fails e : json_ok e = true -> fails_reported (client_sendEnvelope client e).
Proof.
  intros He. apply fails_validate; [apply envelope_schema_ok, _|done|].
  intros v _. destruct (_ || _); [|apply fails_bind; [apply fails_request|intros ?; apply fails_ret]].
  intros w e' w' [= <- _]. apply oversized_reported.
Qed.
Lemma fails_relay_only {A} (m : M W A) : fails_reported m -> relay_only m.
Proof. intros Hm w e w' E. destruct (Hm _ _ _ E) as (re & -> & _). eauto. Qed.

Lemma page_parts raw data :
  z_strict [ req (js "envelopes") (z_array StrictMailboxEnvelope (fun n => n <=? 100));
             req (js "next_cursor") nextCursorSchema ] raw = Some data ->
  exists raws es, field (js "envelopes") data = Some (JArr es) /\ parse_all StrictMailboxEnvelope raws = Some es
    /\ (length es <= 100)%nat.
Proof.
  unfold z_strict. destruct raw as [| | | | |l]; try done. destruct (forallb _ l); [|done].
  unfold z_object. destruct (parse_properties _ l) as [ws|] eqn:E; [|done]. intros [= <-].
  eapply (parse_properties_get _ _ _ (js "envelopes")) in E as (v & w & _ & Hs & Hg); cycle 1.
  - apply (list_elem_of_lookup_2 _ 0%nat). reflexivity.
  - unfold req. apply NoDup_cons; split; [|apply NoDup_singleton]. rewrite list_elem_of_singleton.
    intros E'. apply (f_equal (fun s => length s)) in E'. vm_compute in E'. done.
  - unfold z_array in Hs. destruct v as [| | | |raws|]; try done.
    destruct (Z.of_nat (length raws) <=? 100) eqn:El; [|done].
    destruct (parse_all _ raws) as [es|] eqn:Ep; [|done]. injection Hs as <-. exists raws, es.
    split; [exact Hg|]. split; [done|]. rewrite (parse_all_length _ _ _ Ep). apply Z.leb_le in El. lia.
Qed.
Lemma parse_all_each s l ws : parse_all s l = Some ws -> Forall (fun w => exists raw, s raw = Some w) ws.
Proof.
  revert ws. induction l as [|v l IH]; intros ws; cbn; [intros [= <-]; apply List.Forall_nil|].
  destruct (s v) as [w|] eqn:E; [|done]. destruct (parse_all s l) as [ws'|]; [|done]. intros [= <-].
  apply Forall_cons_2; [by exists v|]. by apply IH.
Qed.

#[export] Instance client_relay_laws `{!FetchLaws W} : RelayLaws W (H0 := client_relay client).
Proof.
  split.
  - intros. by apply fails_relay_only, createChallenge_fails.
  - intros. by apply fails_relay_only, pollMailbox_fails.
  - intros. by apply fails_relay_only, ackMailbox_fails.
  - intros. by apply fails_relay_only, publishBundle_fails.
  - intros. by apply fails_relay_only, claimBundle_fails.
  - intros. by apply fails_relay_only, sendEnvelope_fails.
  - intros a c b cu r w page w' Hr. change (client_pollMailbox client a c b cu r w = (Ok page, w')) in Hr.
    unfold client_pollMailbox in Hr.
    apply bind_ok in Hr as (body & w1 & _ & Hr). apply bind_ok in Hr as (data & w2 & Hreq & Hr).
    apply ret_ok in Hr as [<- _]. cbn [envelopes next_cursor].
    apply request_ok in Hreq as (Hok & (raw & Hraw) & _); cycle 1.
    { unfold nextCursorSchema. solve_schema_ok. }
    destruct (page_parts _ _ Hraw) as (raws & es & Hf & Hp & Hl). unfold arr_field. rewrite Hf.
    split; [done|]. split.
    + apply Forall_and. split; [|by eapply parse_all_each]. apply (sub_field_json_ok (js "envelopes")) in Hok.
      unfold sub_field in Hok. rewrite Hf in Hok. apply forallb_Forall'. exact Hok.
    + apply (sub_field_json_ok (js "next_cursor")) in Hok. by destruct (sub_field _ data).
Qed.

(** ** The properties *)

(** A call of the relay, whichever method. *)
Inductive relay_op : Type :=
  | CallChallenge (a : authorization)
  | CallPoll (a : authorization) (challengeId : jstr) (batch : Z) (cursor readThrough : option jstr)
  | CallAck (a : authorization) (ids : list jstr)
  | CallPublish (bundle : json)
  | CallClaim (claimId identityId : jstr) (device : option jstr)
  | CallSend (envelope : json).
Definition op_ok (o : relay_op) : bool :=
  match o with
  | CallChallenge a => authorization_ok a
  | CallPoll a c _ cu r => authorization_ok a && forallb unit_ok c && option_units cu && option_units r
  | CallAck a ids => authorization_ok a && forallb (forallb unit_ok) ids
  | CallPublish b => json_ok b
  | CallClaim c i d => forallb (forallb unit_ok) [c; i] && option_units d
  | CallSend e => json_ok e
  end.
Definition call_error (o : relay_op) (w : W) : option err * W :=
  let outcome {A} (r : res err A * W) := (match r.1 with Ok _ => None | Err e => Some e end, r.2) in
  match o with
  | CallChallenge a => outcome (client_createChallenge client a w)
  | CallPoll a c b cu r => outcome (client_pollMailbox client a c b cu r w)
  | CallAck a ids => outcome (client_ackMailbox client a ids w)
  | CallPublish b => outcome (client_publishBundle client b w)
  | CallClaim c i d => outcome (client_claimBundle client c i d w)
  | CallSend e => outcome (client_sendEnvelope client e w)
  end.

(** C33: what a relay call can fail with is closed.  Whatever the network answers,
    a method of [RelayClient] throws nothing but a [RelayError], whose code is one
    of five; it is retryable exactly for a timeout, an unreachable relay, a 429 or a
    5xx; and the relay's own code is carried only from an HTTP error and only if it
    is one of the allow-list. *)
Theorem relay_failures_closed o w e w' :
  op_ok o = true -> call_error o w = (Some e, w') -> exists re, e = ErrRelay re /\ reported re.
Proof.
  assert (forall A (m : M W A), fails_reported m ->
    (match (m w).1 with Ok _ => None | Err e => Some e end, (m w).2) = (Some e, w') ->
    exists re, e = ErrRelay re /\ reported re) as Hm.
  { intros A m Hf. destruct (m w) as [[a|e0] w1] eqn:E; cbn [fst snd]; [done|]. intros [= -> ->].
    by eapply Hf. }
  intros Ho. destruct o; cbn [op_ok call_error] in *; apply Hm.
  - by apply createChallenge_fails.
  - rewrite !andb_true_iff in Ho. destruct Ho as (((? & ?) & ?) & ?). by apply pollMailbox_fails.
  - apply andb_true_iff in Ho as [? ?]. by apply ackMailbox_fails.
  - by apply publishBundle_fails.
  - apply andb_true_iff in Ho as [? ?]. by apply claimBundle_fails.
  - by apply sendEnvelope_fails.
Qed.

(** An envelope too large for a recipient is never sent.  [sendEnvelope] refuses
    an invalid envelope, and one whose ciphertext or declared size is above the
    limit, without any request; every other one it sends, unchanged, in exactly one
    request, and its ciphertext is small enough that the relay's poll budget for it
    is within the bound this client reads. *)
Theorem send_within_bound input w :
  json_ok input = true -> maxMessageBytes client = MAX_MESSAGE_BYTES ->
  responseByteBound client = responseByteBoundFor MAX_MESSAGE_BYTES ->
  match StrictMailboxEnvelope input with
  | None => client_sendEnvelope client input w = (Err invalid, w)
  | Some envelope =>
      let size := utf8_length (str_field (js "ciphertext") envelope) in
      if (MAX_MESSAGE_BYTES <? size) || (MAX_MESSAGE_BYTES <? num_field (js "size_bytes") envelope)
      then client_sendEnvelope client input w = (Err oversizedEnvelope, w)
      else (client_sendEnvelope client input w).2
           = (fetcher (baseUrl client ++ js "/v1/messages/send")
                (stringify (JObj [(js "envelope", envelope)])) w).2
           /\ 4 * size <= responseByteBound client
           /\ size + pollResponseWrapperBytes <= responseByteBound client
  end.
Proof.
  intros Hi Hmax Hbound. unfold client_sendEnvelope, bind, lift.
  destruct (StrictMailboxEnvelope input) as [envelope|] eqn:E; [|unfold validate; by rewrite E].
  rewrite (validate_ok json_ok _ _ _ (envelope_schema_ok _) Hi E). cbv zeta. rewrite Hmax.
  destruct (_ || _) eqn:Eb; [done|]. apply orb_false_iff in Eb as [Eb _]. apply Z.ltb_ge in Eb.
  split.
  - unfold request. destruct (fetcher _ _ _) as [result w1]. by destruct (as_relay_error _).
  - rewrite Hbound. unfold responseByteBoundFor, pollResponseEnvelopeBudgetFactor. lia.
Qed.

(** What the client is told of an answered poll is what the relay sent.  A page
    answered by [pollMailbox] came in one successful response within the byte
    bound, holds at most a hundred envelopes, each accepted by the strict envelope
    schema, and its cursor is null or a token of at most 256 units. *)
Theorem poll_answer_checked `{!FetchLaws W} a c b cu r w page w' :
  client_pollMailbox client a c b cu r w = (Ok page, w') ->
  (length (envelopes page) <= 100)%nat
  /\ Forall (fun e => json_ok e = true /\ exists raw, StrictMailboxEnvelope raw = Some e) (envelopes page)
  /\ exists body status chunks,
       fetcher (baseUrl client ++ js "/v1/mailbox/poll") body w = (Responded status chunks StreamDone, w')
       /\ 200 <= status <= 299
       /\ (chunks <> [] -> Z.of_nat (length (concat chunks)) <= responseByteBound client).
Proof.
  intros Hr. pose proof (pollMailbox_page (RelayLaws := client_relay_laws) _ _ _ _ _ _ _ _ Hr) as (H1 & H2 & _).
  split; [done|]. split; [done|]. unfold client_pollMailbox in Hr.
  apply bind_ok in Hr as (body & w1 & Hb & Hr). assert (w1 = w) as -> by (unfold lift in Hb; congruence).
  apply bind_ok in Hr as (data & w2 & Hreq & Hr). apply ret_ok in Hr as [_ ->].
  apply request_ok in Hreq as (_ & _ & status & chunks & Hf & Hs & Hn);
    [|unfold nextCursorSchema; solve_schema_ok].
  by exists (stringify body), status, chunks.
Qed.
End facts.

(** A profile's configuration always opens a relay client, and neither ever
    speaks plain HTTP to a remote host.  Every relay URL [parseClientConfig] accepts
    is one [RelayClient] accepts, with the shared size limit; and a base URL the
    constructor accepts is HTTPS, or plain HTTP to [localhost], to [[::1]] or to an
    address of four decimal components whose first is 127. *)
Theorem configuration_agrees `{Zod} `{UrlParser} :
  (forall input data, parseClientConfig input = Ok data ->
     exists c, new_RelayClient (str_field (js "relay_url") data) (num_field (js "request_timeout_ms") data) = Ok c
       /\ maxMessageBytes c = MAX_MESSAGE_BYTES /\ responseByteBound c = responseByteBoundFor MAX_MESSAGE_BYTES)
  /\ (forall base timeout c, new_RelayClient base timeout = Ok c ->
     exists u, new_URL base = Some u /\ baseUrl c = u_origin u
       /\ (u_protocol u = js "https:" \/ u_protocol u = js "http:"
           /\ (u_hostname u = js "localhost" \/ u_hostname u = js "[::1]"
               \/ exists b c d, u_hostname u = js "127" ++ 46 :: b ++ 46 :: c ++ 46 :: d
                    /\ forallb decimal_component [b; c; d] = true))).
Proof.
  split.
  - intros input data (Hs & u & Hu & Hc & Hp & Ho)%parseClientConfig_ok.
    exists (MkRelayClient (u_origin u) MAX_MESSAGE_BYTES (responseByteBoundFor MAX_MESSAGE_BYTES)).
    split; [|done]. unfold new_RelayClient. rewrite Hu.
    unfold no_credentials in Hc. unfold https_or_loopback in Hp. unfold isRelayOrigin in Ho.
    rewrite !andb_true_iff in Hc. destruct Hc as ((H1 & H2) & H3). apply andb_true_iff in Ho as [H4 H5].
    assert (between 1 60000 (num_field (js "request_timeout_ms") data) = true) as Ht.
    { unfold configSchema, z_strict in Hs. destruct input as [| | | | |l]; try done. destruct (forallb _ l); [|done].
      unfold z_object in Hs. destruct (parse_properties _ l) as [ws|] eqn:E; [|done]. injection Hs as <-.
      eapply (parse_properties_get _ _ _ (js "request_timeout_ms")) in E as (v & w & _ & Hs & Hg); cycle 1.
      - apply (list_elem_of_lookup_2 _ 5%nat). reflexivity.
      - apply (bool_decide_eq_true_1 _). vm_compute. reflexivity.
      - unfold z_number in Hs. destruct v as [| |z| | |]; try done. destruct (between 100 60000 z) eqn:Eb; [|done].
        injection Hs as <-. unfold num_field, field. rewrite Hg. unfold between in *. bool_to_prop. by decide_bool. }
    cbv zeta. rewrite H1, H2, H3, H4, H5, Hp, Ht. done.
  - intros base timeout c. unfold new_RelayClient. destruct (new_URL base) as [u|]; [|done]. cbv zeta.
    destruct (_ || _) eqn:E; [done|]. intros [= <-]. exists u. split; [done|]. split; [done|].
    rewrite !orb_false_iff, !negb_false_iff in E. destruct E as ((_ & E) & _). apply orb_true_iff in E as [E|E].
    + left. by rewrite eqb_eq in E.
    + right. apply andb_true_iff in E as [E1 E2]. rewrite eqb_eq in E1. split; [done|]. by apply loopback_numeric.
Qed.

(** ** Witnesses *)
Module ToyRelay.
Definition page_body : bytes := jsq "{'ok':true,'data':{'envelopes':[],'next_cursor':'7'}}".
Definition limited_body : bytes := jsq "{'ok':false,'error':{'code':'RATE_LIMITED','message':'slow down'}}".
(** Even moments answer an empty page in two chunks, odd ones refuse. *)
#[export] Instance fetch : Fetch Toy.world := {|
  fetcher path body w :=
    ((if Z.even w then Responded 200 [take 10 page_body; drop 10 page_body] StreamDone
      else Responded 429 [limited_body] StreamDone), w + 1) |}.
Lemma bytes_ok (l : bytes) : forallb byte_ok l = true -> Forall byte_range l.
Proof. intros Hl. apply forallb_Forall' in Hl. eapply Forall_impl; [exact Hl|]. intros b Hb. by apply byte_range_ok. Qed.
#[export] Instance fetch_laws : FetchLaws Toy.world.
Proof.
  split. intros path body w status chunks ending w'. cbn [fetcher fetch].
  destruct (Z.even w); intros [= _ <- _ _].
  - apply Forall_cons_2; [apply bytes_ok; vm_compute; reflexivity|].
    apply Forall_cons_2; [apply bytes_ok; vm_compute; reflexivity|apply List.Forall_nil].
  - apply Forall_cons_2; [apply bytes_ok; vm_compute; reflexivity|apply List.Forall_nil].
Qed.
Definition client : relay_client :=
  MkRelayClient (js "https://relay.example.com") MAX_MESSAGE_BYTES (responseByteBoundFor MAX_MESSAGE_BYTES).
Definition auth : authorization :=
  Authorization (js "box") (js "110a486a-e330-43dd-8383-b1aa8b1cc353") (js "sig").
Definition id : jstr := js "00000000-0000-4000-8000-000000000000".
Definition poll_op : relay_op := CallPoll auth id 10 None None.
Definition error_at (w : Toy.world) : option err * Toy.world :=
  call_error (H := zod_example) (H0 := fetch) client poll_op w.
Definition poll_at (w : Toy.world) : res err mailbox_page * Toy.world :=
  client_pollMailbox (H := zod_example) (H0 := fetch) client auth id 10 None None w.
Definition page : mailbox_page := ok_or (Page [] None) (poll_at 0).1.
Definition large : json :=
  JObj [ (js "type", JStr (js "mailbox_envelope")); (js "version", JNum 1); (js "envelope_id", JStr id);
         (js "message_id", JStr id); (js "sender_identity_id", JStr (js "a")); (js "sender_device_id", JStr id);
         (js "recipient_identity_id", JStr (js "b")); (js "recipient_device_id", JStr id);
         (js "recipient_mailbox_id", JStr (js "box")); (js "payload_type", JStr (js "ciphertext_message"));
         (js "ciphertext", JStr (js "AAAA")); (js "created_at_ms", JNum 1); (js "expires_at_ms", JNum 2);
         (js "size_bytes", JNum 262145); (js "sender_signature", JStr (js "s")) ].
End ToyRelay.

Lemma relay_failures_closed_witness : exists re, ErrRelay re = ErrRelay re /\ reported re.
Proof.
  destruct (relay_failures_closed (H := zod_example) (H0 := ToyRelay.fetch) ToyRelay.client ToyRelay.poll_op 1
    (ErrRelay (RelayError (js "RELAY_HTTP_ERROR") true (Some 429) (Some (js "RATE_LIMITED")))) 2)
    as (re & _ & Hr); [vm_compute; reflexivity|vm_compute; reflexivity|]. exists re. split; [reflexivity|exact Hr].
Defined.
Lemma poll_answer_checked_witness : (length (envelopes ToyRelay.page) <= 100)%nat.
Proof.
  destruct (poll_answer_checked (H := zod_example) (H0 := ToyRelay.fetch) (FetchLaws0 := ToyRelay.fetch_laws)
    ToyRelay.client ToyRelay.auth ToyRelay.id 10 None None 0 ToyRelay.page 1) as [Hl _];
    [vm_compute; reflexivity|exact Hl].
Defined.
Lemma send_within_bound_witness :
  client_sendEnvelope (H := zod_example) (H0 := ToyRelay.fetch) ToyRelay.client ToyRelay.large 0
  = (Err oversizedEnvelope, 0).
Proof.
  pose proof (send_within_bound (H := zod_example) (H0 := ToyRelay.fetch) ToyRelay.client ToyRelay.large 0) as Hs.
  assert (StrictMailboxEnvelope (H := zod_example) ToyRelay.large = Some ToyRelay.large) as E
    by (vm_compute; reflexivity).
  rewrite E in Hs. cbv zeta in Hs.
  assert ((MAX_MESSAGE_BYTES <? utf8_length (str_field (js "ciphertext") ToyRelay.large))
    || (MAX_MESSAGE_BYTES <? num_field (js "size_bytes") ToyRelay.large) = true) as Hc by (vm_compute; reflexivity).
  rewrite Hc in Hs. apply Hs; vm_compute; reflexivity.
Defined.
