(* ===== verification/Inbound.v ===== *)
(** * Receiving: [apps/cli/src/runtime/inbound.ts]

    [poll] walks the relay's pages, admits every envelope in a transaction of its
    own, carries an unfinished re-walk forward page by page, and acknowledges what
    was admitted.  The relay is its interface ([Relay]); time is [Date.now]. *)

From S2P Require Import Prelude JsString Json JsMap Zod Base64Url Protocol Platform.
From S2P Require Import Transcripts WellFormed Effects Store Signal Wire History Profile.
From S2P Require Import RelayClient.

Section inbound.
Context {W : Type} `{Zod} `{World W} `{Native W} `{Crypto} `{Relay W}.
(** [Profile.pollBatchSize]. *)
Context (pollBatchSize : Z).

(** ** Rejections *)

Record RejectedEnvelope := Rejected { rj_envelopeId : jstr; rj_code : jstr }.
Record PollResult := { pr_received : Z; pr_more : bool; pr_rejected : list RejectedEnvelope }.

Definition isNotAnEnvelopeVerdict (e : err) : bool :=
  match e with ErrPersistence | ErrRelay _ | ErrProfile _ => true | _ => false end.
Definition rejection_code (e : err) : jstr :=
  match e with ErrInbound code => code | _ => js "INBOUND_REJECTED" end.

(** [serial]: what reaches the caller. *)
Definition serial {A} (operation : Rt (W := W) A) : Rt A :=
  catch operation (fun e =>
    match e with
    | ErrInbound _ | ErrRelay _ | ErrPersistence => throw e
    | _ => throw (ErrInbound (js "INBOUND_REJECTED"))
    end).

(** ** Schemas and keys *)

Definition base64 : schema := z_string (fun s =>
  length_between 1 (1024 * 1024) s && forallb url_unit s && eqb (encodeBase64Url (buffer_from_base64 s)) s).
Definition wrapperSchema : schema := z_strict
  [ req (js "version") (z_literal (JNum 1));
    req (js "type") (z_union (z_literal (JNum 2)) (z_literal (JNum 3)));
    req (js "body") base64 ].
Definition ack_prefix : jstr := js "cli:pending-ack:".
Definition ackKey (id : jstr) : jstr := ack_prefix ++ id.
Definition inbox_record_key (remote : DeviceAddress) (message_id : jstr) : jstr :=
  js "cli:inbox:" ++ addressKey remote ++ js ":" ++ message_id.
Definition maxPollPagesPerPoll : nat := 16.

(** ** [acceptOne] *)

Definition invalid_envelope (envelope local : json) (now : Z) : bool :=
  let created := num_field (js "created_at_ms") envelope in
  let expires := num_field (js "expires_at_ms") envelope in
  let safe z := between (- max_safe_integer) max_safe_integer z in
  negb (eqb (str_field (js "recipient_identity_id") envelope) (str_field (js "identity_id") local))
  || negb (eqb (str_field (js "recipient_device_id") envelope) (str_field (js "device_id") local))
  || negb (eqb (str_field (js "recipient_mailbox_id") envelope) (deriveMailboxId (str_field (js "identity_id") local)))
  || negb (num_field (js "size_bytes") envelope =? utf8_length (str_field (js "ciphertext") envelope))
  || negb (safe created) || negb (safe expires)
  || (created <? 0) || (now <? created) || (expires <=? now) || (expires <=? created).

(** The contact the sender is pinned as, and its Signal address. *)
Definition pinned_sender (envelope : json) : Tx W (json * DeviceAddress) :=
  let sender := str_field (js "sender_identity_id") envelope in
  contactBytes <- tx_get (contact_key sender);
  match contactBytes with
  | None => throw (ErrInbound (js "CONTACT_NOT_TRUSTED"))
  | Some bs =>
      contact <- decode bs;
      identity_id <- property (js "identity_id") contact;
      device_id <- property (js "device_id") contact;
      if negb (bool_decide (identity_id = Some (JStr sender)))
         || negb (bool_decide (device_id = Some (JStr (str_field (js "sender_device_id") envelope))))
      then throw (ErrInbound (js "CONTACT_PIN_MISMATCH"))
      else
        remote <- from_option (js "ZodError")
          (signalAddressForDevice (str_field (js "identity_id") contact) (str_field (js "device_id") contact));
        trusted <- tx_get (trust_key remote);
        match trusted with
        | None => throw (ErrInbound (js "CONTACT_PIN_MISMATCH"))
        | Some key =>
            if bool_decide (field (js "signal_identity_key") contact = Some (JStr (encodeBase64Url key)))
            then ret (contact, remote)
            else throw (ErrInbound (js "CONTACT_PIN_MISMATCH"))
        end
  end.
(** The ciphertext's wrapper: the type and the body of the Signal message. *)
Definition unwrap (ciphertext : jstr) : res err (Z * bytes) :=
  res_bind (zod_parse base64 (JStr ciphertext)) (fun _ =>
  res_bind (of_option (ErrOther (js "TypeError")) (text_decode_fatal (buffer_from_base64 ciphertext))) (fun text =>
  res_bind (of_option (ErrOther (js "SyntaxError")) (parse text)) (fun value =>
  res_bind (zod_parse wrapperSchema value) (fun wrapper =>
  Ok (num_field (js "type") wrapper, buffer_from_base64 (str_field (js "body") wrapper)))))).

Definition admit_envelope (envelope : json) (now : Z) (local : json) (address : DeviceAddress) : Tx W unit :=
  if invalid_envelope envelope local now then throw (ErrInbound (js "INVALID_ENVELOPE"))
  else
    '(contact, remote) <- pinned_sender envelope;
    let ciphertext := str_field (js "ciphertext") envelope in
    let message_id := str_field (js "message_id") envelope in
    '(type, body) <- lift (unwrap ciphertext);
    let hash := hex (sha256 (utf8_encode ciphertext)) in
    let inboxKey := inbox_record_key remote message_id in
    previous <- tx_get inboxKey;
    match previous with
    | Some bs =>
        j <- decode bs;
        if bool_decide (j = JStr hash) then ret tt else throw (ErrInbound (js "MESSAGE_ID_CONFLICT"))
    | None =>
        plaintext <- decrypt address remote {| c_messageId := message_id; c_type := type; c_body := body |};
        tx_set inboxKey (json_encode (JStr hash));;
        appendHistory {| h_contactIdentityId := str_field (js "identity_id") contact; h_messageId := message_id;
                         h_direction := js "inbound"; h_plaintext := plaintext;
                         h_createdAtMs := num_field (js "created_at_ms") envelope |}
    end;;
    let key := ackKey (str_field (js "envelope_id") envelope) in
    pending <- tx_get key;
    match pending with
    | None => ret tt
    | Some bs =>
        j <- decode bs;
        if bool_decide (j = JStr inboxKey) then ret tt else throw (ErrInbound (js "INVALID_ENVELOPE"))
    end;;
    tx_set key (json_encode (JStr inboxKey)).

Definition acceptOne (envelope : json) : Rt unit :=
  withRuntime (fun local address =>
    now <- world_call date_now;
    admit_envelope envelope now local address).

(** ** [accept]: every envelope on its own *)

Record accepted := Accepted {
  a_received : Z; a_rejected : list RejectedEnvelope; a_firstRejection : option err }.
(** The outcome of a computation, as a value. *)
Definition attempt {S A} (m : M S A) : M S (res err A) := fun s => let '(r, s') := m s in (Ok r, s').

Fixpoint accept_from (envelopes : list json) (a : accepted) : Rt accepted :=
  match envelopes with
  | [] => ret a
  | envelope :: rest =>
      verdict <- attempt (acceptOne envelope);
      match verdict with
      | Ok _ => accept_from rest (Accepted (a_received a + 1) (a_rejected a) (a_firstRejection a))
      | Err e =>
          if isNotAnEnvelopeVerdict e then throw e
          else
            let code := rejection_code e in
            accept_from rest (Accepted (a_received a)
              (a_rejected a ++ [Rejected (str_field (js "envelope_id") envelope) code])
              (match a_firstRejection a with None => Some (ErrInbound code) | first => first end))
      end
  end.
Definition accept (envelopes : list json) : Rt accepted := accept_from envelopes (Accepted 0 [] None).

(** ** [page] *)
Definition fetch_page (cursor readThrough : option jstr) : Rt mailbox_page :=
  auth <- mailboxAuthorization MailboxChallenge;
  challenge <- relay_call (createChallenge auth);
  now <- outside date_now;
  if challenge_expires challenge <=? now then throw (ErrInbound (js "CHALLENGE_EXPIRED"))
  else
    auth <- mailboxAuthorization (MailboxPoll (challenge_id challenge) (nonce challenge) readThrough);
    relay_call (pollMailbox auth (challenge_id challenge) pollBatchSize cursor readThrough).

(** ** [poll]: the walk *)

Record walk_state := Walk {
  w_received : Z; w_more : bool; w_rejected : list RejectedEnvelope; w_firstRejection : option err }.
Definition walk_start : walk_state := Walk 0 false [] None.
Definition is_some {A} (o : option A) : bool := match o with Some _ => true | None => false end.

(** The durable position after a page has been judged. *)
Definition advance_rewalk (rewalk next : option jstr) : Rt (option jstr) :=
  match rewalk with
  | None => ret None
  | Some _ =>
      match next with
      | None => finishMailboxRewalk;; ret None
      | Some position => keepMailboxRewalk position;; ret (Some position)
      end
  end.
(** [pages] pages are left of the valve. *)
Fixpoint walk (pages : nat) (rewalk cursor readThrough : option jstr) (st : walk_state) : Rt walk_state :=
  match pages with
  | O => ret st
  | S pages =>
      batch <- fetch_page cursor readThrough;
      a <- accept (envelopes batch);
      let st := Walk (w_received st + a_received a) (is_some (next_cursor batch))
                     (w_rejected st ++ a_rejected a)
                     (match w_firstRejection st with None => a_firstRejection a | first => first end) in
      rewalk <- advance_rewalk rewalk (next_cursor batch);
      if (0 <? a_received a) || negb (w_more st) then ret st
      else walk pages rewalk (next_cursor batch) (next_cursor batch) st
  end.

(** ** [ackPending] *)

Definition pending_ids : Tx W (list jstr) :=
  keys <- tx_keys ack_prefix; ret (map (drop (length ack_prefix)) (jsort keys)).
Definition ack_batch (ids : list jstr) : Rt unit :=
  auth <- mailboxAuthorization (MailboxAck ids);
  relay_call (ackMailbox auth ids);;
  withRuntime (fun _ _ => forM ids (fun id => tx_delete (ackKey id))).
(** Batches of a hundred; every step takes at least one id, so the number of ids is
    enough fuel. *)
Fixpoint ack_batches (fuel : nat) (ids : list jstr) : Rt unit :=
  match ids with
  | [] => ret tt
  | _ => match fuel with
         | O => ret tt
         | S fuel => ack_batch (take 100 ids);; ack_batches fuel (drop 100 ids)
         end
  end.
Definition ackPending : Rt Z :=
  ids <- withRuntime (fun _ _ => pending_ids);
  ack_batches (length ids) ids;;
  ret (Z.of_nat (length ids)).

Definition poll_walk : Rt walk_state :=
  rewalk <- pendingMailboxRewalk;
  walk maxPollPagesPerPoll rewalk rewalk None walk_start.
Definition poll : Rt PollResult := serial (
  st <- poll_walk;
  match w_firstRejection st with
  | Some e => if w_received st =? 0 then throw e else ret tt
  | None => ret tt
  end;;
  ackPending;;
  ret {| pr_received := w_received st; pr_more := w_more st; pr_rejected := w_rejected st |}).
Definition retryPendingAcks : Rt Z := serial ackPending.
Definition history (contactIdentityId : jstr) : Rt (list json) :=
  serial (withRuntime (fun _ _ => readHistory contactIdentityId)).
End inbound.

(** ** Lemmas: what a step of the client leaves on disk, at every commit *)

Section keeps.
Context {W : Type} `{World W}.

(** [keeps P m]: if the records satisfy [P], they still do after [m], and so did the
    records of every commit [m] made on the way: what a crash inside [m] leaves. *)
Definition keeps (P : records -> Prop) {A} (m : Rt (W := W) A) : Prop := forall s,
  P (disk s) -> P (disk (m s).2) /\ exists new, commits (m s).2 = commits s ++ new /\ Forall P new.

Lemma keeps_ret P {A} (a : A) : keeps P (ret a).
Proof. intros s Hs. split; [done|]. exists []. by rewrite app_nil_r. Qed.
Lemma keeps_throw P {A} e : keeps P (throw (A := A) e).
Proof. intros s Hs. split; [done|]. exists []. by rewrite app_nil_r. Qed.
Lemma keeps_outside P {A} (f : W -> A * W) : keeps P (outside f).
Proof.
  intros s Hs. unfold outside. destruct (f (world s)) as [a w]. cbn. split; [done|]. exists []. by rewrite app_nil_r.
Qed.
Lemma keeps_relay_call P {A} (m : M W A) : keeps P (relay_call m).
Proof.
  intros s Hs. unfold relay_call. destruct (m (world s)) as [r w]. cbn. split; [done|]. exists []. by rewrite app_nil_r.
Qed.
Lemma keeps_bind P {A B} (m : Rt (W := W) A) (f : A -> Rt B) :
  keeps P m -> (forall a, keeps P (f a)) -> keeps P (bind m f).
Proof.
  intros Hm Hf s Hs. unfold bind. destruct (Hm s Hs) as (H1 & n1 & Hn1 & Hp1).
  destruct (m s) as [[a|e] s1]; cbn [snd] in *; [|eauto].
  destruct (Hf a s1 H1) as (H2 & n2 & Hn2 & Hp2). split; [done|]. exists (n1 ++ n2).
  rewrite Hn2, Hn1, app_assoc. split; [done|]. by apply Forall_app.
Qed.
Lemma keeps_catch P {A} (m : Rt (W := W) A) h :
  keeps P m -> (forall e, keeps P (h e)) -> keeps P (catch m h).
Proof.
  intros Hm Hf s Hs. unfold catch. destruct (Hm s Hs) as (H1 & n1 & Hn1 & Hp1).
  destruct (m s) as [[a|e] s1]; cbn [snd] in *; [eauto|].
  destruct (Hf e s1 H1) as (H2 & n2 & Hn2 & Hp2). split; [done|]. exists (n1 ++ n2).
  rewrite Hn2, Hn1, app_assoc. split; [done|]. by apply Forall_app.
Qed.
Lemma keeps_attempt P {A} (m : Rt (W := W) A) : keeps P m -> keeps P (attempt m).
Proof. intros Hm s Hs. unfold attempt. destruct (Hm s Hs) as [? ?]. by destruct (m s) as [r s1]. Qed.
Lemma keeps_transact (P : records -> Prop) {A} (op : Tx W A) :
  (forall r w a r' w', P r -> op (r, w) = (Ok a, (r', w')) -> P r') -> keeps P (transact op).
Proof.
  intros Hop s Hs. destruct (transact op s) as [[a|e] s'] eqn:E; cbn [snd].
  - apply transact_ok in E as (w & w' & E & Hc). assert (P (disk s')) by by eapply Hop.
    split; [done|]. exists [disk s']. split; [done|]. by constructor.
  - apply transact_err in E as (Hd & Hc & _). rewrite Hd, Hc. split; [done|]. exists []. by rewrite app_nil_r.
Qed.
(** An operation that leaves the records of some keys alone. *)
Lemma keeps_frame (P : records -> Prop) (Q : jstr -> bool) {A} (op : Tx W A) :
  (forall r r', (forall k, Q k = false -> get k r' = get k r) -> P r -> P r') ->
  preserves (same_outside Q) op -> keeps P (transact op).
Proof.
  intros HP Hop. apply keeps_transact. intros r w a r' w' Hr E. apply (HP r); [|done].
  intros k Hk. specialize (Hop (r, w) k Hk). by rewrite E in Hop.
Qed.
End keeps.

(** ** Lemmas: what receiving writes *)

Section frames.
Context {W : Type} `{Zod} `{World W} `{Native W} `{Crypto} `{Relay W}.

Definition not_key (k k' : jstr) : bool := negb (eqb k' k).
Lemma not_key_ne k k' : k' <> k -> not_key k k' = true.
Proof. intros Hne. unfold not_key. by rewrite (proj2 (eqb_neq _ _) Hne). Qed.

Lemma preserves_authorize P op : preserves (same_outside P) (authorize (W := W) op).
Proof.
  unfold authorize, device_secret, readMetadata. solve_preserves.
Qed.
Lemma authorize_reads op (s : records * W) : (authorize op s).2.1 = s.1.
Proof.
  assert (preserves (fun s s' : records * W => s'.1 = s.1) (authorize op)) as Hp; [|apply Hp].
  assert (PreOrder (fun s s' : records * W => s'.1 = s.1)) by (split; [by intros ?|intros ? ? ? H5 H6; congruence]).
  unfold authorize, device_secret, readMetadata, decode. solve_preserves_with ltac:(fun _ => lazymatch goal with
    | |- preserves _ (tx_get _) => intros ?; reflexivity end).
Qed.

Lemma preserves_appendHistory P e :
  P sequence_key = true -> (forall n, P (history_key n) = true) -> preserves (same_outside P) (appendHistory (W := W) e).
Proof.
  intros H1' H2'. unfold appendHistory, next_sequence. solve_preserves_with ltac:(fun _ => lazymatch goal with
    | |- preserves _ (tx_set _ _) => apply preserves_tx_set; auto end).
Qed.
Lemma preserves_pinned_sender P e : preserves (same_outside P) (pinned_sender (W := W) e).
Proof. unfold pinned_sender. solve_preserves. Qed.

(** Admitting an envelope writes protocol state, the message's two inbox records,
    the history and the pending acknowledgement. *)
Definition admit_key (k : jstr) : bool :=
  client_key k || starts_with (js "inbox:") k || starts_with (js "cli:inbox:") k
  || eqb k sequence_key || starts_with history_prefix k || starts_with ack_prefix k.
Lemma or6 (a b c d e f : bool) :
  a = true \/ b = true \/ c = true \/ d = true \/ e = true \/ f = true -> a || b || c || d || e || f = true.
Proof. destruct a, b, c, d, e, f; naive_solver. Qed.
Lemma admit_cases k :
  client_key k = true \/ starts_with (js "inbox:") k = true \/ starts_with (js "cli:inbox:") k = true
  \/ k = sequence_key \/ starts_with history_prefix k = true \/ starts_with ack_prefix k = true ->
  admit_key k = true.
Proof.
  intros Hk. unfold admit_key. apply or6. rewrite eqb_eq. exact Hk.
Qed.
Lemma preserves_admit e now l a : preserves (same_outside admit_key) (admit_envelope (W := W) e now l a).
Proof.
  assert (forall r m, preserves (same_outside admit_key) (decrypt (W := W) a r m)) as Hdec.
  { intros r m. eapply same_outside_weaken; [|apply preserves_decrypt]. intros k E. apply admit_cases.
    apply orb_true_iff in E as [E|E].
    - left. unfold client_key, create_key. rewrite E. by rewrite (orb_true_r (_ || _)).
    - right. left. rewrite eqb_eq in E. subst k. exact (starts_with_app (js "inbox:") _). }
  assert (forall t, preserves (same_outside admit_key) (appendHistory (W := W) t)) as Happ.
  { intros t. apply preserves_appendHistory.
    - apply admit_cases. right. right. right. by left.
    - intros n. apply admit_cases. do 4 right. left. exact (starts_with_app history_prefix _). }
  unfold admit_envelope. solve_preserves_with ltac:(fun _ => lazymatch goal with
    | |- preserves _ (decrypt _ _ _) => apply Hdec
    | |- preserves _ (appendHistory _) => apply Happ
    | |- preserves _ (pinned_sender _) => apply preserves_pinned_sender
    | |- preserves _ (tx_set (inbox_record_key _ _) _) =>
        apply preserves_tx_set, admit_cases; right; right; left; exact (starts_with_app (js "cli:inbox:") _)
    | |- preserves _ (tx_set (ackKey _) _) =>
        apply preserves_tx_set, admit_cases; do 5 right; exact (starts_with_app ack_prefix _)
    end).
Qed.
Lemma create_admit k : create_key k = true -> admit_key k = true.
Proof. intros Hk. unfold admit_key, client_key. by rewrite Hk. Qed.
Lemma preserves_runtime {A} P (f : json -> DeviceAddress -> Tx W A) :
  (forall k, create_key k = true -> P k = true) -> (forall l a, preserves (same_outside P) (f l a)) ->
  preserves (same_outside P) (runtime_tx f).
Proof.
  intros HP Hf. unfold runtime_tx, readMetadata, address_of. solve_preserves_with ltac:(fun _ => lazymatch goal with
    | |- preserves _ (create _) => apply create_client, HP
    | |- preserves _ (f _ _) => apply Hf end).
Qed.
Lemma preserves_acceptOne_tx envelope :
  preserves (same_outside admit_key)
    (runtime_tx (W := W) (fun local address => now <- world_call date_now; admit_envelope envelope now local address)).
Proof.
  apply preserves_runtime; [apply create_admit|]. intros l a. solve_preserves_with ltac:(fun _ => lazymatch goal with
    | |- preserves _ (admit_envelope _ _ _ _) => apply preserves_admit end).
Qed.
Lemma rewalk_not_admit : admit_key mailboxRewalkKey = false.
Proof. vm_compute. reflexivity. Qed.

(** ** Lemmas: the re-walk position *)

Definition position_kept (r : records) : Prop := get mailboxRewalkKey r <> None.

Lemma position_frame Q : Q mailboxRewalkKey = false ->
  forall r r', (forall k, Q k = false -> get k r' = get k r) -> position_kept r -> position_kept r'.
Proof. intros HQ r r' Hf Hp. unfold position_kept. by rewrite Hf. Qed.
Lemma keeps_position_accept es a : keeps position_kept (accept_from (W := W) es a).
Proof.
  revert a. induction es as [|e es IH]; intros a; cbn [accept_from]; [apply keeps_ret|].
  apply keeps_bind.
  - apply keeps_attempt. eapply keeps_frame; [apply position_frame, rewalk_not_admit|]. apply preserves_acceptOne_tx.
  - intros [u|err]; [apply IH|]. destruct (isNotAnEnvelopeVerdict err); [apply keeps_throw|apply IH].
Qed.
Lemma keeps_authorization P op : keeps P (mailboxAuthorization (W := W) op).
Proof.
  apply keeps_transact. intros r w a r' w' Hr E. pose proof (authorize_reads op (r, w)) as Hd.
  rewrite E in Hd. cbn in Hd. by subst r'.
Qed.
Lemma keeps_page P b c rt : keeps P (fetch_page (W := W) b c rt).
Proof.
  unfold fetch_page. apply keeps_bind; [apply keeps_authorization|]. intros au.
  apply keeps_bind; [apply keeps_relay_call|]. intros ch. apply keeps_bind; [apply keeps_outside|]. intros now.
  destruct (_ <=? _); [apply keeps_throw|]. apply keeps_bind; [apply keeps_authorization|]. intros au2.
  apply keeps_relay_call.
Qed.
Lemma keeps_keep p : keeps position_kept (keepMailboxRewalk (W := W) p).
Proof.
  apply keeps_transact. intros r w a r' w' Hr [= _ <- _]. unfold position_kept. by rewrite get_set_eq.
Qed.
Lemma finish_cases (s : env W) :
  match finishMailboxRewalk s with
  | (Ok _, s') => disk s' = delete mailboxRewalkKey (disk s) /\ commits s' = commits s ++ [disk s']
  | (Err _, s') => disk s' = disk s /\ commits s' = commits s
  end.
Proof.
  unfold finishMailboxRewalk. destruct (transact _ s) as [[u|e] s'] eqn:E.
  - apply transact_ok in E as (w & w' & E & Hc). injection E as _ E _. split; [by rewrite <- E|exact Hc].
  - apply transact_err in E as (? & ? & _). done.
Qed.

(** How a walk that carries a position ends: the position is there, now and at every
    commit; or the relay reported the end of the mailbox, the walk answered so, and
    only its very last commit is without the position. *)
Definition position_outcome (s : env W) (r : res err walk_state) (s' : env W) : Prop :=
  (position_kept (disk s') /\ exists new, commits s' = commits s ++ new /\ Forall position_kept new)
  \/ (exists st before, r = Ok st /\ w_more st = false /\ get mailboxRewalkKey (disk s') = None
        /\ commits s' = commits s ++ before ++ [disk s'] /\ Forall position_kept before).

Lemma position_outcome_trans (s s1 : env W) r s' new :
  commits s1 = commits s ++ new -> Forall position_kept new ->
  position_outcome s1 r s' -> position_outcome s r s'.
Proof.
  intros Hc Hn [(Hp & new' & Hc' & Hn')|(st & before & Hr & Hm & Hg & Hc' & Hb)].
  - left. split; [done|]. exists (new ++ new'). split; [by rewrite Hc', Hc, app_assoc|]. by apply Forall_app.
  - right. exists st, (new ++ before). split; [done|]. split; [done|]. split; [done|].
    split; [by rewrite Hc', Hc, !app_assoc|]. by apply Forall_app.
Qed.
Lemma keeps_outcome {A} (m : Rt (W := W) A) (f : A -> Rt walk_state) (s : env W) :
  keeps position_kept m -> position_kept (disk s) ->
  (forall a s1, m s = (Ok a, s1) -> position_kept (disk s1) -> position_outcome s1 (f a s1).1 (f a s1).2) ->
  position_outcome s (bind m f s).1 (bind m f s).2.
Proof.
  intros Hm Hs Hf. unfold bind. destruct (Hm s Hs) as (H1' & new & Hn & Hp).
  destruct (m s) as [[a|e] s1]; cbn [fst snd] in *.
  - eapply position_outcome_trans; [exact Hn|exact Hp|]. by apply Hf.
  - left. eauto.
Qed.

Lemma walk_outcome b pages p cursor rt st (s : env W) :
  position_kept (disk s) ->
  position_outcome s (walk b pages (Some p) cursor rt st s).1 (walk b pages (Some p) cursor rt st s).2.
Proof.
  revert p cursor rt st s. induction pages as [|pages IH]; intros p cursor rt st s Hs; cbn [walk].
  { left. split; [done|]. exists []. by rewrite app_nil_r. }
  apply keeps_outcome; [apply keeps_page|done|]. intros batch s1 _ Hs1. cbv zeta.
  apply keeps_outcome; [apply keeps_position_accept|done|]. intros a s2 _ Hs2. cbv zeta.
  unfold advance_rewalk. destruct (next_cursor batch) as [position|] eqn:En.
  - apply keeps_outcome; [|done|].
    { apply keeps_bind; [apply keeps_keep|]. intros u. apply keeps_ret. }
    intros rewalk' s3 Hr Hs3. apply bind_ok in Hr as (u & s4 & _ & Hr). apply ret_ok in Hr as [<- ->].
    cbn [w_more is_some negb]. rewrite orb_false_r. destruct (0 <? a_received a); [|by apply IH].
    left. split; [done|]. exists []. by rewrite app_nil_r.
  - pose proof (finish_cases s2) as Hf. unfold bind. destruct (finishMailboxRewalk s2) as [[u|e] s3].
    + destruct Hf as [Hd Hc]. cbn [w_more is_some negb]. rewrite orb_true_r. right.
      eexists _, []. split; [done|]. split; [done|]. split; [|by split].
      change (get mailboxRewalkKey (disk s3) = None). rewrite Hd. apply get_delete_eq.
    + destruct Hf as [Hd Hc]. left. cbn [snd]. rewrite Hd, Hc. split; [done|]. exists []. by rewrite app_nil_r.
Qed.

(** C12: an unfinished re-walk of the mailbox is never lost.  When a poll starts with
    a re-walk position on disk, then however its walk ends, by an error, at the
    page valve, on an accepted envelope or by a crash after any of its commits, the
    position is on disk; it is gone only after the walk answered that the relay
    reported the end of the mailbox, and then only from the walk's last commit on. *)
Theorem rewalk_survives b (s : env W) r s' :
  get mailboxRewalkKey (disk s) <> None -> poll_walk b s = (r, s') -> position_outcome s r s'.
Proof.
  intros Hs Hr. change r with ((r, s').1). change s' with ((r, s').2) at 2. rewrite <- Hr.
  unfold poll_walk. apply keeps_outcome; [|exact Hs|].
  - apply keeps_transact. intros rr w a r' w' Hp E. unfold bind, tx_get, gets in E. by injection E as _ <- _.
  - intros rewalk s1 Hp Hs1. assert (exists p, rewalk = Some p) as [p ->]; [|by apply walk_outcome].
    unfold pendingMailboxRewalk in Hp. apply transact_ok in Hp as (w & w' & Hp & _).
    apply bind_ok in Hp as (stored & s2 & Hg & Hp). apply tx_get_ok in Hg as [-> ->].
    apply ret_ok in Hp as [<- _]. cbn [fst]. destruct (get mailboxRewalkKey (disk s)) as [bs|]; [by eexists|done].
Qed.
End frames.

(** ** Lemmas: judging the envelopes of a page *)

Section judging.
Context {W : Type} `{Zod} `{World W} `{Native W} `{Crypto} `{Relay W}.

(** The specification of [accept]: each envelope is judged in turn on the state the
    previous one left; a rejected one leaves the records and commits untouched. *)
Inductive judged : list json -> env W -> list (option jstr) -> env W -> Prop :=
  | judged_nil s : judged [] s [] s
  | judged_accepted e es s s1 vs s2 :
      acceptOne e s = (Ok tt, s1) -> judged es s1 vs s2 -> judged (e :: es) s (None :: vs) s2
  | judged_rejected e es s s1 err vs s2 :
      acceptOne e s = (Err err, s1) -> isNotAnEnvelopeVerdict err = false ->
      disk s1 = disk s -> commits s1 = commits s ->
      judged es s1 vs s2 -> judged (e :: es) s (Some (rejection_code err) :: vs) s2.

Definition accepted_count (vs : list (option jstr)) : Z := Z.of_nat (length (List.filter (fun v => negb (is_some v)) vs)).
Definition rejections (es : list json) (vs : list (option jstr)) : list RejectedEnvelope :=
  omap (fun ev => match ev.2 with
                  | Some code => Some (Rejected (str_field (js "envelope_id") ev.1) code)
                  | None => None end) (zip es vs).
Fixpoint first_some (vs : list (option jstr)) : option err :=
  match vs with
  | [] => None
  | Some code :: _ => Some (ErrInbound code)
  | None :: vs => first_some vs
  end.

Lemma accept_from_spec es (a : accepted) (s : env W) :
  match accept_from es a s with
  | (Ok a', s') => exists vs, judged es s vs s' /\ a_received a' = a_received a + accepted_count vs
      /\ a_rejected a' = a_rejected a ++ rejections es vs
      /\ a_firstRejection a' = match a_firstRejection a with None => first_some vs | first => first end
  | (Err e, s') => isNotAnEnvelopeVerdict e = true
      /\ exists before x rest vs s1, es = before ++ x :: rest /\ judged before s vs s1
           /\ acceptOne x s1 = (Err e, s') /\ disk s' = disk s1 /\ commits s' = commits s1
  end.
Proof.
  revert a s. induction es as [|e es IH]; intros a s; cbn [accept_from].
  { exists []. split; [constructor|]. cbn. rewrite app_nil_r. split; [unfold accepted_count; cbn; lia|].
    split; [done|]. by destruct (a_firstRejection a). }
  unfold bind, attempt. destruct (acceptOne e s) as [[[]|err] s1] eqn:E.
  - specialize (IH (Accepted (a_received a + 1) (a_rejected a) (a_firstRejection a)) s1).
    destruct (accept_from es _ s1) as [[a'|e'] s2].
    + destruct IH as (vs & Hj & Hr & Hrej & Hf). exists (None :: vs). split; [by eapply judged_accepted|].
      cbn [a_received a_rejected a_firstRejection] in *. split; [|done].
      rewrite Hr. unfold accepted_count. cbn [List.filter is_some negb length]. lia.
    + destruct IH as (Hv & before & x & rest & vs & s3 & -> & Hj & Hx & Hd). split; [done|].
      exists (e :: before), x, rest, (None :: vs), s3. split; [done|]. split; [by eapply judged_accepted|]. done.
  - pose proof E as E'. apply transact_err in E' as (Hd & Hc & _).
    destruct (isNotAnEnvelopeVerdict err) eqn:Ev.
    { split; [done|]. exists [], e, es, [], s. split; [done|]. split; [constructor|]. done. }
    specialize (IH (Accepted (a_received a)
      (a_rejected a ++ [Rejected (str_field (js "envelope_id") e) (rejection_code err)])
      (match a_firstRejection a with None => Some (ErrInbound (rejection_code err)) | first => first end)) s1).
    cbv zeta. destruct (accept_from es _ s1) as [[a'|e'] s2].
    + destruct IH as (vs & Hj & Hr & Hrej & Hf). exists (Some (rejection_code err) :: vs).
      split; [by eapply judged_rejected|]. cbn [a_received a_rejected a_firstRejection] in *.
      split; [done|]. split; [rewrite Hrej, <- app_assoc; done|]. rewrite Hf. by destruct (a_firstRejection a).
    + destruct IH as (Hv & before & x & rest & vs & s3 & -> & Hj & Hx & Hd'). split; [done|].
      exists (e :: before), x, rest, (Some (rejection_code err) :: vs), s3. split; [done|].
      split; [by eapply judged_rejected|]. done.
Qed.

(** One unacceptable envelope never affects another.  [accept] judges every
    envelope of a page in order, each in its own transaction; a rejected one changes
    no record and is reported with its id and its code, in order; the answer counts
    the accepted ones.  Only a failure that is no verdict on an envelope, local
    persistence, the relay or the profile itself, stops the page, at that envelope
    and with nothing of it written. *)
Theorem accept_isolates es (s : env W) :
  match accept es s with
  | (Ok a, s') => exists vs, judged es s vs s' /\ a_received a = accepted_count vs
      /\ a_rejected a = rejections es vs /\ a_firstRejection a = first_some vs
      /\ a_received a + Z.of_nat (length (a_rejected a)) = Z.of_nat (length es)
  | (Err e, s') => isNotAnEnvelopeVerdict e = true
      /\ exists before x rest vs s1, es = before ++ x :: rest /\ judged before s vs s1
           /\ acceptOne x s1 = (Err e, s') /\ disk s' = disk s1 /\ commits s' = commits s1
  end.
Proof.
  pose proof (accept_from_spec es (Accepted 0 [] None) s) as Hs. unfold accept.
  destruct (accept_from es _ s) as [[a|e] s']; [|done].
  destruct Hs as (vs & Hj & Hr & Hrej & Hf). cbn in Hr, Hrej, Hf. exists vs.
  split; [done|]. split; [done|]. split; [done|]. split; [done|]. rewrite Hr, Hrej. clear -Hj.
  unfold accepted_count, rejections. induction Hj; [done| |]; cbn; lia.
Qed.

(** What was judged and accepted nothing changed nothing. *)
Lemma judged_nothing es (s : env W) vs s' :
  judged es s vs s' -> accepted_count vs = 0 -> disk s' = disk s /\ commits s' = commits s.
Proof.
  unfold accepted_count. induction 1 as [|e es s s1 vs s2 Ha Hj IH|e es s s1 err vs s2 Ha Hv Hd Hc Hj IH]; [done| |].
  - cbn. lia.
  - cbn [List.filter is_some negb]. intros Hz. destruct (IH Hz) as [-> ->]. done.
Qed.

(** Reads only: the records stay, at every commit. *)
Definition stays (r : records) (s s' : env W) : Prop :=
  disk s' = r /\ exists new, commits s' = commits s ++ new /\ Forall (eq r) new.
Lemma keeps_stays {A} (m : Rt A) (s : env W) a s' :
  keeps (eq (disk s)) m -> m s = (a, s') -> stays (disk s) s s'.
Proof. intros Hm E. destruct (Hm s eq_refl) as [H1' H2']. rewrite E in H1', H2'. by split. Qed.
Lemma stays_trans r (s s1 s2 : env W) : disk s1 = r -> stays r s s1 -> stays r s1 s2 -> stays r s s2.
Proof.
  intros _ (_ & n1 & H1' & F1) (Hd & n2 & H2' & F2). split; [done|]. exists (n1 ++ n2).
  rewrite H2', H1', app_assoc. split; [done|]. by apply Forall_app.
Qed.

Lemma accept_nonneg vs : 0 <= accepted_count vs.
Proof. unfold accepted_count. lia. Qed.
Lemma walk_none_stays b pages cursor rt st (s : env W) st' s' :
  walk b pages None cursor rt st s = (Ok st', s') ->
  w_received st <= w_received st' /\ (w_received st' = w_received st -> stays (disk s) s s').
Proof.
  revert cursor rt st s. induction pages as [|pages IH]; intros cursor rt st s Hr; cbn [walk] in Hr.
  { apply ret_ok in Hr as [<- ->]. split; [lia|]. intros _. split; [done|]. exists []. by rewrite app_nil_r. }
  apply bind_ok in Hr as (batch & s1 & Hp & Hr).
  pose proof (keeps_stays _ _ _ _ (keeps_page _ _ _ _) Hp) as Hst. pose proof Hst as [Hd1 _].
  apply bind_ok in Hr as (a & s2 & Ha & Hr). pose proof (accept_isolates (envelopes batch) s1) as Hacc.
  rewrite Ha in Hacc. destruct Hacc as (vs & Hj & Hrec & _). pose proof (accept_nonneg vs).
  cbv zeta in Hr. apply bind_ok in Hr as (rw & s3 & Hrw & Hr). apply ret_ok in Hrw as [<- ->].
  assert (accepted_count vs = 0 -> stays (disk s) s s2) as Hs2.
  { intros Hz. destruct (judged_nothing _ _ _ _ Hj Hz) as [Hd2 Hc2]. destruct Hst as (_ & new & Hn & Hf).
    split; [congruence|]. exists new. by rewrite Hc2. }
  destruct (_ || _).
  - apply ret_ok in Hr as [<- ->]. cbn [w_received]. split; [lia|]. intros Hz. apply Hs2. lia.
  - destruct (IH _ _ _ _ Hr) as [Hle Heq]. cbn [w_received] in *. split; [lia|]. intros Hz.
    specialize (Hs2 ltac:(lia)). pose proof Hs2 as [Hd2 _].
    eapply stays_trans; [exact Hd2|exact Hs2|]. rewrite <- Hd2. apply Heq. lia.
Qed.

(** A poll that accepts nothing leaves the store as it was.  With no re-walk
    pending, a walk that answers without having accepted an envelope has changed no
    record, not even for a moment; and when it judged any envelope, [poll] then
    throws the first rejection and ends there: nothing is acknowledged, no further
    request is made. *)
Theorem rejected_poll_changes_nothing b (s : env W) st s' :
  get mailboxRewalkKey (disk s) = None -> poll_walk b s = (Ok st, s') -> w_received st = 0 ->
  disk s' = disk s
  /\ (exists new, commits s' = commits s ++ new /\ Forall (eq (disk s)) new)
  /\ (forall e, w_firstRejection st = Some e -> (exists code, e = ErrInbound code) -> poll b s = (Err e, s')).
Proof.
  intros Hs Hr Hz. assert (stays (disk s) s s') as Hst.
  { unfold poll_walk in Hr. apply bind_ok in Hr as (rewalk & s1 & Hp & Hr).
    assert (keeps (eq (disk s)) pendingMailboxRewalk) as Hk.
    { apply keeps_transact. intros r w a r' w' Hp' E. unfold bind, tx_get, gets in E. by injection E as _ <- _. }
    pose proof (keeps_stays _ _ _ _ Hk Hp) as Hst. pose proof Hst as [Hd _].
    assert (rewalk = None) as ->.
    { unfold pendingMailboxRewalk in Hp. apply transact_ok in Hp as (w & w' & Hp & _).
      apply bind_ok in Hp as (stored & s2 & Hg & Hp). apply tx_get_ok in Hg as [-> ->].
      apply ret_ok in Hp as [<- _]. cbn [fst]. by rewrite Hs. }
    destruct (walk_none_stays _ _ _ _ _ _ _ _ Hr) as [_ Hw]. eapply stays_trans; [exact Hd|exact Hst|].
    rewrite <- Hd. by apply Hw. }
  destruct Hst as [Hd Hc]. split; [done|]. split; [done|]. intros e He (code & ->).
  unfold poll, serial, catch, bind. rewrite Hr, He, Hz. done.
Qed.
End judging.

(** ** Lemmas: admitting one envelope *)

Section admitting.
Context {W : Type} `{Zod} `{World W} `{Native W} `{Crypto} `{Relay W}.

(** Reading the records only, whatever the answer. *)
Definition reads (s s' : records * W) : Prop := s'.1 = s.1.
#[local] Instance reads_preorder : PreOrder reads.
Proof. split; [by intros ?|]. intros s1 s2 s3 E1 E2. unfold reads in *. congruence. Qed.
Lemma reads_tx_get k : preserves reads (tx_get (W := W) k).
Proof. by intros s. Qed.
Lemma reads_world_call {A} (f : W -> A * W) : preserves reads (world_call f).
Proof. intros s. unfold world_call. by destruct (f s.2). Qed.
#[local] Hint Extern 1 (preserves reads _) => (first [ apply reads_tx_get | apply reads_world_call ]) : echolet.

(** A store that holds any record is not written by opening its client. *)
Lemma create_reads a (s : records * W) : s.1 <> [] -> (create a s).2.1 = s.1.
Proof.
  intros Hne. unfold create, bind at 1, assertAddress. destruct (address_ok a); [|done].
  unfold ret at 1, bind at 1, tx_get at 1, gets at 1. destruct (get (js "device") s.1) as [bs|].
  - apply (fun H0 : preserves reads _ => H0 s). unfold decode, storedAddressKey, requireRecord. solve_preserves.
  - unfold bind at 1, tx_keys, gets. destruct s as [[|[k v] r] w]; [done|]. done.
Qed.
(** The device the records say this profile is, with its Signal address. *)
Definition own_device (r : records) (local : json) (address : DeviceAddress) : Prop := exists bs j metadata,
  get metadataKey r = Some bs /\ json_decode bs = Some j /\ metadataSchema j = Some metadata
  /\ local = device_of metadata
  /\ signalAddressForDevice (str_field (js "identity_id") local) (str_field (js "device_id") local) = Some address.
Lemma runtime_opens {A} (f : json -> DeviceAddress -> Tx W A) (s : records * W) a s' :
  runtime_tx f s = (Ok a, s') ->
  exists local address w, own_device s.1 local address /\ f local address (s.1, w) = (Ok a, s').
Proof.
  unfold runtime_tx, readMetadata. intros Hr. apply bind_ok in Hr as (metadata & s1 & Hm & Hr).
  apply bind_ok in Hm as (v & s2 & Hv & Hm). apply tx_get_ok in Hv as [-> ->].
  destruct (get metadataKey s.1) as [bs|] eqn:Eg; [|done].
  apply bind_ok in Hm as (j & s2 & Hj & Hm). apply from_option_ok in Hj as [Hj ->].
  unfold lift in Hm. injection Hm as Hz <-. apply of_option_ok in Hz.
  apply bind_ok in Hr as (address & s2 & Ha & Hr). apply from_option_ok in Ha as [Ha ->].
  apply bind_ok in Hr as (u & s2 & Hc & Hr). assert (s2.1 = s.1) as E.
  { rewrite <- (create_reads address s); [by rewrite Hc|]. intros E. by rewrite E in Eg. }
  exists (device_of metadata), address, s2.2. split; [by exists bs, j, metadata|].
  rewrite <- E. by destruct s2.
Qed.
Lemma runtime_ok {A} (f : json -> DeviceAddress -> Tx W A) (s : records * W) a s' :
  runtime_tx f s = (Ok a, s') ->
  exists local address w, f local address (s.1, w) = (Ok a, s').
Proof. intros Hr. apply runtime_opens in Hr as (local & address & w & _ & Hr). eauto. Qed.

(** What the sender of an admitted envelope is pinned as. *)
Record pinned (r : records) (envelope contact : json) (remote : DeviceAddress) : Prop := {
  pin_contact_record : exists bs, get (contact_key (str_field (js "sender_identity_id") envelope)) r = Some bs
    /\ json_decode bs = Some contact;
  pin_identity : field (js "identity_id") contact = Some (JStr (str_field (js "sender_identity_id") envelope));
  pin_device : field (js "device_id") contact = Some (JStr (str_field (js "sender_device_id") envelope));
  pin_address : signalAddressForDevice (str_field (js "sender_identity_id") envelope)
    (str_field (js "sender_device_id") envelope) = Some remote;
  pin_key : exists key, get (trust_key remote) r = Some key
    /\ field (js "signal_identity_key") contact = Some (JStr (encodeBase64Url key));
}.
Lemma pinned_sender_ok envelope (s : records * W) contact remote s' :
  pinned_sender envelope s = (Ok (contact, remote), s') -> s' = s /\ pinned s.1 envelope contact remote.
Proof.
  unfold pinned_sender. cbv zeta. intros Hr. apply bind_ok in Hr as (v & s1 & Hg & Hr). apply tx_get_ok in Hg as [-> ->].
  destruct (get _ s.1) as [bs|] eqn:Eg; [|done].
  apply bind_ok in Hr as (c & s1 & Hd & Hr). apply from_option_ok in Hd as [Hd ->].
  assert (forall k (s0 : records * W) o s1, property k c s0 = (Ok o, s1) -> s1 = s0 /\ o = field k c) as Hprop.
  { intros k s0 o s1 E. unfold property in E. destruct c; [done| | | | |]; apply ret_ok in E as [<- ->]; done. }
  apply bind_ok in Hr as (i & s1 & Hi & Hr). apply Hprop in Hi as [-> ->].
  apply bind_ok in Hr as (d & s1 & Hdv & Hr). apply Hprop in Hdv as [-> ->].
  destruct (_ || _) eqn:E; [done|]. apply orb_false_iff in E as [E1 E2]. apply negb_false_iff in E1, E2.
  apply bool_decide_eq_true in E1, E2.
  apply bind_ok in Hr as (r & s1 & Ha & Hr). apply from_option_ok in Ha as [Ha ->].
  apply bind_ok in Hr as (t & s1 & Ht & Hr). apply tx_get_ok in Ht as [-> ->].
  destruct (get (trust_key r) s.1) as [key|] eqn:Et; [|done].
  destruct (bool_decide _) eqn:Ek; [|done]. apply bool_decide_eq_true in Ek.
  apply ret_ok in Hr as [Hr ->]. injection Hr as <- <-. split; [done|].
  assert (forall k x, field k c = Some (JStr x) -> str_field k c = x) as Hf
    by (intros k x E; unfold str_field; by rewrite E).
  rewrite (Hf _ _ E1), (Hf _ _ E2) in Ha.
  constructor; [by exists bs|exact E1|exact E2|exact Ha|by exists key].
Qed.

Lemma append_ok e (s : records * W) u s' :
  appendHistory e s = (Ok u, s') ->
  exists n, 1 <= n /\ (get sequence_key s.1 = None -> n = 1)
    /\ get (history_key n) s'.1 = Some (json_encode (stored_entry n e))
    /\ forall k, k <> history_key n -> k <> sequence_key -> get k s'.1 = get k s.1.
Proof.
  unfold appendHistory. intros Hr. apply bind_ok in Hr as (previous & s1 & Hg & Hr). apply tx_get_ok in Hg as [-> ->].
  apply bind_ok in Hr as (n & s1 & Hn & Hr).
  assert (s1 = s /\ 1 <= n /\ (get sequence_key s.1 = None -> n = 1)) as (-> & Hn1 & Hn0).
  { unfold next_sequence in Hn. destruct (get sequence_key s.1) as [bs|]; [|apply ret_ok in Hn as [<- ->]; done].
    apply bind_ok in Hn as (v & s2 & Hd & Hn). apply from_option_ok in Hd as [_ ->].
    apply bind_ok in Hn as (m & s2 & Hz & Hn). unfold lift in Hz. injection Hz as Hz <-. apply of_option_ok in Hz.
    destruct m as [| |z| | |]; try done. apply ret_ok in Hn as [<- ->]. split; [done|]. split; [|done].
    unfold z_int, z_number in Hz. destruct v as [| |z'| | |]; try done. destruct (_ && _) eqn:E; [|done].
    injection Hz as ->. apply andb_true_iff in E as [_ E]. apply Z.leb_le in E. lia. }
  destruct (max_safe_integer <? n); [done|].
  apply bind_ok in Hr as (record & s1 & Hz & Hr). unfold lift in Hz. injection Hz as Hz <-. apply of_option_ok in Hz.
  apply bind_ok in Hr as (v & s2 & Hset & Hr). apply tx_set_ok in Hset as ->. apply tx_set_ok in Hr as ->. cbn [fst snd].
  exists n. split; [done|]. split; [done|]. split.
  - rewrite get_set_ne by (apply not_eq_sym, sequence_key_not_history). rewrite get_set_eq. do 2 f_equal.
    by apply entrySchema_inv.
  - intros k H1' H2'. by rewrite !get_set_ne by congruence.
Qed.

(** The records after an envelope was admitted by the device [local] with address [own], the
    clock being read in world [w].  Of a message not seen before, the entry's text is what
    [decrypt] answered for the envelope's unwrapped ciphertext on the records as they were,
    and every record but the four that are written is as [decrypt] left it. *)
Record admission (local : json) (own : DeviceAddress) (w : W) (r r' : records) (envelope : json) : Prop := {
  ad_valid : invalid_envelope envelope local (date_now w).1 = false;
  ad_sender : exists contact remote hash, pinned r envelope contact remote
    /\ let messageId := str_field (js "message_id") envelope in
       let inboxKey := inbox_record_key remote messageId in
       let key := ackKey (str_field (js "envelope_id") envelope) in
       hash = hex (sha256 (utf8_encode (str_field (js "ciphertext") envelope)))
       /\ get key r' = Some (json_encode (JStr inboxKey))
       /\ match get inboxKey r with
          | Some bs => json_decode bs = Some (JStr hash)
              /\ forall k, k <> key -> get k r' = get k r
          | None => get inboxKey r' = Some (json_encode (JStr hash))
              /\ exists type body plaintext rd n,
                 unwrap (str_field (js "ciphertext") envelope) = Ok (type, body)
                 /\ decrypt own remote {| c_messageId := messageId; c_type := type; c_body := body |}
                      (r, (date_now w).2) = (Ok plaintext, rd)
                 /\ get (history_key n) r' = Some (json_encode (stored_entry n
                   {| h_contactIdentityId := str_field (js "sender_identity_id") envelope;
                      h_messageId := messageId; h_direction := js "inbound";
                      h_plaintext := plaintext; h_createdAtMs := num_field (js "created_at_ms") envelope |}))
                 /\ (forall k, k <> key -> k <> inboxKey -> k <> sequence_key ->
                       k <> history_key n -> get k r' = get k rd.1)
                 /\ (forall k, cli_key k = true -> k <> key -> k <> inboxKey -> k <> sequence_key ->
                       k <> history_key n -> get k r' = get k r)
          end;
}.
Lemma inbox_record_cli remote m : cli_key (inbox_record_key remote m) = true.
Proof. apply cli_prefix. vm_compute. reflexivity. Qed.
Lemma inbox_not_cli remote m k : cli_key k = true -> inbox_key remote m <> k.
Proof.
  unfold cli_key. rewrite starts_with_iff. intros [t ->]. apply clash_ne. vm_compute. reflexivity.
Qed.
Lemma decrypt_cli a remote m (s : records * W) p s' k :
  decrypt a remote m s = (Ok p, s') -> cli_key k = true -> get k s'.1 = get k s.1.
Proof.
  intros Hr Hk. pose proof (preserves_decrypt a remote m s k) as Hp. rewrite Hr in Hp. apply Hp.
  apply orb_false_iff. split.
  - pose proof (cli_not_client k Hk) as E. unfold client_key, create_key in E.
    apply orb_false_iff in E as [E _]. by apply orb_false_iff in E as [_ E].
  - apply eqb_neq. by apply inbox_not_cli.
Qed.
Lemma keys_apart remote m envelope_id n :
  ackKey envelope_id <> inbox_record_key remote m /\ history_key n <> inbox_record_key remote m
  /\ sequence_key <> inbox_record_key remote m /\ history_key n <> ackKey envelope_id
  /\ sequence_key <> ackKey envelope_id.
Proof.
  unfold ackKey, inbox_record_key, history_key.
  split_and!; try (rewrite <- (app_nil_r sequence_key)); apply clash_ne; vm_compute; reflexivity.
Qed.

Lemma ack_checked key inboxKey (s : records * W) u s' :
  (pending <- tx_get key;
   match pending with
   | None => ret tt
   | Some bs => j <- decode bs;
                if bool_decide (j = JStr inboxKey) then ret tt else throw (ErrInbound (js "INVALID_ENVELOPE"))
   end;;
   tx_set key (json_encode (JStr inboxKey))) s = (Ok u, s') ->
  s' = (set key (json_encode (JStr inboxKey)) s.1, s.2).
Proof.
  intros Hr. apply bind_ok in Hr as (v & s1 & Hg & Hr). apply tx_get_ok in Hg as [-> ->].
  apply bind_ok in Hr as (w & s1 & Hc & Hr). apply tx_set_ok in Hr as ->.
  assert (s1 = s) as ->; [|done]. destruct (get key s.1) as [bs|]; [|by apply ret_ok in Hc as [_ ->]].
  apply bind_ok in Hc as (j & s2 & Hd & Hc). apply from_option_ok in Hd as [_ ->].
  destruct (bool_decide _); [by apply ret_ok in Hc as [_ ->]|done].
Qed.

Lemma admit_ok envelope w0 local address (r : records) u s' :
  admit_envelope envelope (date_now w0).1 local address (r, (date_now w0).2) = (Ok u, s') ->
  admission local address w0 r s'.1 envelope.
Proof.
  unfold admit_envelope. destruct (invalid_envelope _ _ _) eqn:Einv; [done|]. intros Hr.
  apply bind_ok in Hr as (cr & s1 & Hp & Hr). destruct cr as [contact remote].
  apply pinned_sender_ok in Hp as [-> Hpin]. cbv zeta in Hr. cbn [fst] in Hpin.
  apply bind_ok in Hr as (tb & s1 & Hu & Hr). destruct tb as [type body]. unfold lift in Hu. injection Hu as Hu <-.
  set (mid := str_field (js "message_id") envelope) in *. set (eid := str_field (js "envelope_id") envelope) in *.
  set (hash := hex (sha256 (utf8_encode (str_field (js "ciphertext") envelope)))) in *.
  apply bind_ok in Hr as (previous & s1 & Hg & Hr). apply tx_get_ok in Hg as [-> ->]. cbn [fst] in Hr.
  apply bind_ok in Hr as (v & s2 & Hm & Hr). apply ack_checked in Hr as ->. cbn [fst].
  assert (forall n, ackKey eid <> inbox_record_key remote mid /\ history_key n <> inbox_record_key remote mid
    /\ sequence_key <> inbox_record_key remote mid /\ history_key n <> ackKey eid /\ sequence_key <> ackKey eid) as Hne
    by (intros n; apply keys_apart).
  constructor; [exact Einv|]. exists contact, remote, hash. split; [exact Hpin|]. cbv zeta. fold mid eid hash. split; [done|].
  split; [apply get_set_eq|]. destruct (get (inbox_record_key remote mid) r) as [bs|] eqn:Eg.
  - apply bind_ok in Hm as (j & s3 & Hd & Hm). apply from_option_ok in Hd as [Hd ->].
    destruct (bool_decide _) eqn:Ej; [|done]. apply bool_decide_eq_true in Ej. apply ret_ok in Hm as [_ ->].
    split; [by subst j|]. intros k Hk. by rewrite get_set_ne by congruence.
  - apply bind_ok in Hm as (plaintext & s3 & Hdec & Hm).
    apply bind_ok in Hm as (w & s4 & Hset & Hm). apply tx_set_ok in Hset as ->.
    apply append_ok in Hm as (n & Hn & _ & Hh & Hf). cbn [fst] in *.
    destruct (Hne n) as (N1 & N2 & N3 & N4 & N5).
    split; [rewrite get_set_ne, Hf, get_set_eq by congruence; done|].
    exists type, body, plaintext, s3, n. split; [exact Hu|]. split; [exact Hdec|].
    assert (forall k, k <> ackKey eid -> k <> inbox_record_key remote mid -> k <> sequence_key ->
              k <> history_key n -> get k (set (ackKey eid) (json_encode (JStr (inbox_record_key remote mid))) s2.1) = get k s3.1) as Hd.
    { intros k K1 K2 K3 K4. rewrite get_set_ne by congruence. rewrite Hf by done. by rewrite get_set_ne by congruence. }
    split; [|split; [exact Hd|]].
    + rewrite get_set_ne by congruence. rewrite Hh. do 3 f_equal.
      assert (str_field (js "identity_id") contact = str_field (js "sender_identity_id") envelope) as ->; [|done].
      unfold str_field at 1. by rewrite (pin_identity _ _ _ _ Hpin).
    + intros k Hcli K1 K2 K3 K4. rewrite Hd by done. exact (decrypt_cli _ _ _ _ _ _ _ Hdec Hcli).
Qed.

(** C11: an envelope is admitted once, from a pinned sender, with all its traces.  When
    [acceptOne] accepts an envelope, it is one [invalid_envelope] lets through for this
    profile's own device at the instant the clock shows, its sender is a contact
    pinned with that device and with the very key the session trusts, and its
    acknowledgement is recorded.  A message id seen before must carry the same
    ciphertext and then nothing but the acknowledgement is written: no second
    decryption, no second history entry.  Otherwise exactly one history entry is
    appended, in the same transaction as the message's inbox record: its text is what
    [decrypt] answers, at the device's own address, for the type and the body the
    envelope's ciphertext unwraps to, on the records as they were.  Beside these four
    records everything is as that one decryption left it, and no other client record
    changes. *)
Theorem admitted_once envelope (s : env W) s' :
  acceptOne envelope s = (Ok tt, s') -> exists local own w,
    own_device (disk s) local own /\ admission local own w (disk s) (disk s') envelope.
Proof.
  unfold acceptOne, withRuntime. intros Hr. apply transact_ok in Hr as (w & w' & Hr & _).
  apply runtime_opens in Hr as (local & address & w1 & Hown & Hr). exists local, address, w1. split; [exact Hown|].
  apply bind_ok in Hr as (now & s1 & Hn & Hr). unfold world_call in Hn. cbn [fst snd] in Hn, Hr.
  pose proof (admit_ok envelope w1 local address (disk s) tt (disk s', w')) as Ha.
  destruct (date_now w1) as [now' w2]. injection Hn as <- <-. exact (Ha Hr).
Qed.

(** ** Lemmas: acknowledging *)

Definition is_ack (k : jstr) : bool := starts_with ack_prefix k.
(** The record of an acknowledged message is gone, every other one stays. *)
Definition acked (ids : list jstr) (r r' : records) : Prop :=
  forall k, get k r' = if existsb (fun id => eqb (ackKey id) k) ids then None else get k r.

Lemma delete_acks_ok ids (s : records * W) u s' :
  forM ids (fun id => tx_delete (ackKey id)) s = (Ok u, s') -> acked ids s.1 s'.1.
Proof.
  revert s. induction ids as [|id ids IH]; intros s Hr; cbn [forM] in Hr.
  { apply ret_ok in Hr as [_ ->]. by intros k. }
  apply bind_ok in Hr as (v & s1 & Hd & Hr). injection Hd as _ <-.
  intros k. rewrite (IH _ Hr k). cbn [fst existsb]. destruct (existsb _ ids); [by rewrite orb_true_r|].
  rewrite orb_false_r. apply get_delete.
Qed.
Lemma acked_app a b r r' r'' : acked a r r' -> acked b r' r'' -> acked (a ++ b) r r''.
Proof.
  intros Ha Hb k. rewrite (Hb k), (Ha k), existsb_app. by destruct (existsb _ a), (existsb _ b).
Qed.
Lemma disk_call {A} (m : M W A) (s : env W) : disk (relay_call m s).2 = disk s.
Proof. unfold relay_call. by destruct (m (world s)). Qed.
Lemma disk_authorization op (s : env W) : disk (mailboxAuthorization op s).2 = disk s.
Proof. by destruct (keeps_authorization (eq (disk s)) op s eq_refl) as [<- _]. Qed.
Lemma runtime_disk {A} (f : json -> DeviceAddress -> Tx W A) (s : env W) a s' :
  withRuntime f s = (Ok a, s') -> exists l ad w w', f l ad (disk s, w) = (Ok a, (disk s', w')).
Proof.
  intros Hr. apply transact_ok in Hr as (w & w' & Hr & _). apply runtime_ok in Hr as (l & ad & w1 & Hr). eauto.
Qed.

Lemma ack_batch_cases ids (s : env W) :
  match ack_batch ids s with
  | (Ok _, s') => acked ids (disk s) (disk s')
  | (Err _, s') => disk s' = disk s
  end.
Proof.
  unfold ack_batch, bind. pose proof (disk_authorization (MailboxAck ids) s) as H1'.
  destruct (mailboxAuthorization _ s) as [[au|e] s1]; cbn [snd] in H1'; [|done].
  pose proof (disk_call (ackMailbox au ids) s1) as H2'.
  destruct (relay_call _ s1) as [[v|e] s2]; cbn [snd] in H2'; [|congruence].
  destruct (withRuntime _ s2) as [[v'|e] s3] eqn:E.
  - apply runtime_disk in E as (l & ad & w & w' & E). apply delete_acks_ok in E. cbn [fst] in E.
    by rewrite <- H1', <- H2'.
  - apply transact_err in E as (Hd & _). congruence.
Qed.
Lemma ack_batches_cases fuel ids (s : env W) :
  (length ids <= fuel)%nat ->
  match ack_batches fuel ids s with
  | (Ok _, s') => acked ids (disk s) (disk s')
  | (Err _, s') => exists n, acked (take (100 * n) ids) (disk s) (disk s') /\ (100 * n < length ids)%nat
  end.
Proof.
  revert ids s. induction fuel as [|fuel IH]; intros ids s Hf.
  { destruct ids; [|cbn in Hf; lia]. by intros k. }
  destruct ids as [|id ids'] eqn:Eids; [by intros k|]. rewrite <- Eids in *. 
  replace (ack_batches (S fuel) ids s) with ((ack_batch (take 100 ids);; ack_batches fuel (drop 100 ids)) s)
    by by rewrite Eids.
  assert (1 <= length ids)%nat as Hlen by (rewrite Eids; cbn; lia). clear Eids id ids'.
  unfold bind. pose proof (ack_batch_cases (take 100 ids) s) as Hb.
  destruct (ack_batch _ s) as [[u|e] s1].
  - specialize (IH (drop 100 ids) s1). rewrite length_drop in IH. specialize (IH ltac:(lia)).
    destruct (ack_batches fuel _ s1) as [[v|e] s2].
    + rewrite <- (take_drop 100 ids) at 1. by eapply acked_app.
    + destruct IH as (n & Hn & Hl). exists (S n). split; [|lia].
      replace (100 * S n)%nat with (100 + 100 * n)%nat by lia.
      rewrite <- take_take_drop. by eapply acked_app.
  - exists 0%nat. split; [intros k; by rewrite Hb|lia].
Qed.

(** Acknowledgements are sent in order, and forgotten only once the relay took
    them.  [ackPending] offers exactly the pending ids, sorted, in batches of at most
    a hundred; when it succeeds none of them is pending any more; when it fails, the
    ones forgotten are those of the batches before the failing one, and all others
    are still pending.  Nothing else in the store changes. *)
Theorem acks_drain (s : env W) :
  let ids := map (drop (length ack_prefix)) (jsort (keys_with ack_prefix (disk s))) in
  match ackPending s with
  | (Ok n, s') => n = Z.of_nat (length ids) /\ acked ids (disk s) (disk s')
      /\ forall id, get (ackKey id) (disk s') = None
  | (Err _, s') => exists n, acked (take (100 * n) ids) (disk s) (disk s')
  end.
Proof.
  intros ids. unfold ackPending, bind. destruct (withRuntime _ s) as [[l|e] s1] eqn:E.
  - apply runtime_disk in E as (l0 & ad & w & w' & E). unfold pending_ids, bind, tx_keys, gets, ret in E.
    injection E as <- Ed _. cbn [fst] in *. fold ids.
    pose proof (ack_batches_cases (length ids) ids s1 (Nat.le_refl _)) as Hb.
    destruct (ack_batches _ ids s1) as [[u|e] s2].
    + rewrite Ed. split; [done|]. split; [done|]. intros id. rewrite (Hb (ackKey id)).
      destruct (existsb _ ids) eqn:Ex; [done|]. rewrite <- Ed.
      destruct (get (ackKey id) (disk s)) as [v|] eqn:Eg; [|done]. exfalso. apply not_true_iff_false in Ex. apply Ex.
      apply existsb_exists. exists id. split; [|apply eqb_refl]. apply in_map_iff. exists (ackKey id).
      split; [apply drop_app_length|]. apply list_elem_of_In. rewrite jsort_perm. apply elem_of_keys_with.
      split; [apply starts_with_app|]. apply get_Some. by eexists.
    + rewrite Ed. destruct Hb as (n & Hn & _). eauto.
  - exists 0%nat. apply transact_err in E as (Hd & _). intros k. by rewrite Hd.
Qed.
End admitting.

(** ** The valve *)

Section bounds.
Context {W : Type} `{Zod} `{World W} `{Native W} `{Crypto} `{Relay W} `{!RelayLaws W}.

Lemma page_bound b c rt (s : env W) batch s' :
  fetch_page b c rt s = (Ok batch, s') -> (length (envelopes batch) <= 100)%nat.
Proof.
  unfold fetch_page. intros Hr. apply bind_ok in Hr as (au & s1 & _ & Hr).
  apply bind_ok in Hr as (ch & s2 & _ & Hr). apply bind_ok in Hr as (now & s3 & _ & Hr).
  destruct (_ <=? _); [done|]. apply bind_ok in Hr as (au2 & s4 & _ & Hr).
  unfold relay_call in Hr. destruct (pollMailbox _ _ _ _ _ _) as [r w] eqn:E. injection Hr as -> _.
  by destruct (pollMailbox_page _ _ _ _ _ _ _ _ E).
Qed.
Definition judged_count (st : walk_state) : Z := w_received st + Z.of_nat (length (w_rejected st)).
Lemma walk_bound b pages rw c rt st (s : env W) st' s' :
  walk b pages rw c rt st s = (Ok st', s') ->
  0 <= w_received st -> judged_count st' <= judged_count st + 100 * Z.of_nat pages.
Proof.
  revert rw c rt st s. induction pages as [|pages IH]; intros rw c rt st s Hr H0r; cbn [walk] in Hr.
  { apply ret_ok in Hr as [<- _]. lia. }
  apply bind_ok in Hr as (batch & s1 & Hp & Hr). apply page_bound in Hp.
  apply bind_ok in Hr as (a & s2 & Ha & Hr). pose proof (accept_isolates (envelopes batch) s1) as Hacc.
  rewrite Ha in Hacc. destruct Hacc as (vs & _ & Hrec & _ & _ & Hsum). pose proof (accept_nonneg vs).
  cbv zeta in Hr. apply bind_ok in Hr as (rw' & s3 & _ & Hr).
  assert (forall f, judged_count (Walk (w_received st + a_received a) (is_some (next_cursor batch))
    (w_rejected st ++ a_rejected a) f) <= judged_count st + 100) as Hj.
  { intros f. unfold judged_count. cbn [w_received w_rejected]. rewrite length_app. lia. }
  destruct (_ || _).
  - apply ret_ok in Hr as [<- _]. etrans; [apply Hj|]. lia.
  - apply IH in Hr; [|cbn; lia]. etrans; [exact Hr|]. etrans; [apply Z.add_le_mono_r, Hj|]. lia.
Qed.

(** One poll is bounded work with a closed set of failures.  Whatever the mailbox
    holds, a poll judges at most [maxPollPagesPerPoll] pages of a hundred envelopes;
    its result counts every envelope it judged as received or rejected; and all it
    can throw is an inbound rejection, a relay failure or the persistence error. *)
Theorem poll_bounded b (s : env W) :
  match poll b s with
  | (Ok r, _) => pr_received r + Z.of_nat (length (pr_rejected r)) <= 1600
  | (Err e, _) => match e with ErrInbound _ | ErrRelay _ | ErrPersistence => True | _ => False end
  end.
Proof.
  unfold poll, serial, catch.
  match goal with |- context [bind ?m ?f s] => set (body := bind m f) end.
  destruct (body s) as [[r|e] s'] eqn:E; [|by destruct e].
  subst body. apply bind_ok in E as (st & s1 & Hw & E). apply bind_ok in E as (u & s2 & _ & E).
  apply bind_ok in E as (n & s3 & _ & E). apply ret_ok in E as [<- _]. cbn [pr_received pr_rejected].
  unfold poll_walk in Hw. apply bind_ok in Hw as (rw & s4 & _ & Hw).
  apply walk_bound in Hw; [|done]. unfold judged_count, walk_start, maxPollPagesPerPoll in Hw. cbn in Hw. lia.
Qed.
End bounds.

(** ** Witnesses *)
Module InboundSample.
#[local] Existing Instances zod_example Toy.world_ops ToyNative.native Toy.crypto.
(** The profile after it imported the sender's card. *)
Definition ready : env Toy.world := ProfileSample.import_run.2.
Definition metadata : json := ok_or JNull (readMetadata (disk ready, 0)).1.
Definition local : json := device_of metadata.
Definition id (n : Z) : jstr := Toy.uuid n.
Definition text (s : jstr) : jstr := encodeBase64Url (utf8_encode s).
Definition ciphertext : jstr := text (stringify (JObj [ (js "version", JNum 1); (js "type", JNum 2);
  (js "body", JStr (encodeBase64Url (message_payload (id 1) (js "hello")))) ])).
(** An envelope of the sender with the declared size. *)
Definition envelope (size : Z) : json :=
  JObj [ (js "type", JStr (js "mailbox_envelope")); (js "version", JNum 1); (js "envelope_id", JStr (id 2));
         (js "message_id", JStr (id 1)); (js "sender_identity_id", JStr Sample.identity_id);
         (js "sender_device_id", JStr Sample.device_id);
         (js "recipient_identity_id", sub_field (js "identity_id") local);
         (js "recipient_device_id", sub_field (js "device_id") local);
         (js "recipient_mailbox_id", JStr (deriveMailboxId (str_field (js "identity_id") local)));
         (js "payload_type", JStr (js "ciphertext_message"));
         (js "ciphertext", JStr ciphertext); (js "created_at_ms", JNum 1400); (js "expires_at_ms", JNum 9000);
         (js "size_bytes", JNum size); (js "sender_signature", JStr (js "s")) ].
Definition good : json := envelope (utf8_length ciphertext).
Definition accepted_run : res err unit * env Toy.world := acceptOne good ready.
(** A relay whose mailbox holds one envelope that declares a wrong size. *)
Definition relay : Relay Toy.world := {|
  createChallenge _ w := (Ok (Challenge (id 3) (js "n") 9999), w);
  pollMailbox _ _ _ _ _ w := (Ok (Page [envelope 0] None), w + 1);
  ackMailbox _ _ w := (Ok tt, w);
  publishBundle _ w := (Err relay_timeout, w);
  claimBundle _ _ _ w := (Err relay_timeout, w);
  sendEnvelope _ w := (Err relay_timeout, w);
|}.
Definition walk_run (s : env Toy.world) : res err walk_state * env Toy.world := poll_walk (H3 := relay) 10 s.
Definition walk_end : walk_state := ok_or walk_start (walk_run ready).1.
(** The same profile with a re-walk to do. *)
Definition rewalking : env Toy.world := Env (set mailboxRewalkKey [48] (disk ready)) 0 [].
End InboundSample.

Lemma admitted_once_witness : exists local own w,
  own_device (H := zod_example) (disk InboundSample.ready) local own
  /\ admission (H := zod_example) (H0 := Toy.world_ops) (H1 := ToyNative.native) (H2 := Toy.crypto) local own w
       (disk InboundSample.ready) (disk InboundSample.accepted_run.2) InboundSample.good.
Proof.
  refine (admitted_once (H := zod_example) (H0 := Toy.world_ops) (H1 := ToyNative.native) (H2 := Toy.crypto)
    InboundSample.good InboundSample.ready InboundSample.accepted_run.2 _). vm_compute. reflexivity.
Defined.
Lemma rejected_poll_changes_nothing_witness :
  disk (InboundSample.walk_run InboundSample.ready).2 = disk InboundSample.ready.
Proof.
  destruct (rejected_poll_changes_nothing (H := zod_example) (H0 := Toy.world_ops) (H1 := ToyNative.native)
    (H2 := Toy.crypto) (H3 := InboundSample.relay) 10 InboundSample.ready InboundSample.walk_end
    (InboundSample.walk_run InboundSample.ready).2) as [Hd _];
    [vm_compute; reflexivity|vm_compute; reflexivity|vm_compute; reflexivity|exact Hd].
Defined.
Lemma rewalk_survives_witness :
  position_outcome InboundSample.rewalking (InboundSample.walk_run InboundSample.rewalking).1
    (InboundSample.walk_run InboundSample.rewalking).2.
Proof.
  refine (rewalk_survives (H := zod_example) (H0 := Toy.world_ops) (H1 := ToyNative.native)
    (H2 := Toy.crypto) (H3 := InboundSample.relay) 10 InboundSample.rewalking _ _ _ _).
  - vm_compute. intros E. discriminate E.
  - unfold InboundSample.walk_run. destruct (poll_walk _ _) as [r s']. reflexivity.
Defined.
Lemma poll_bounded_witness :
  match poll (H := zod_example) (H0 := Toy.world_ops) (H1 := ToyNative.native) (H2 := Toy.crypto)
          (H3 := client_relay (H := zod_example) (H0 := ToyRelay.fetch) ToyRelay.client) 10 InboundSample.ready with
  | (Ok r, _) => pr_received r + Z.of_nat (length (pr_rejected r)) <= 1600
  | (Err e, _) => match e with ErrInbound _ | ErrRelay _ | ErrPersistence => True | _ => False end
  end.
Proof.
  exact (poll_bounded (H := zod_example) (H0 := Toy.world_ops) (H1 := ToyNative.native) (H2 := Toy.crypto)
    (H3 := client_relay (H := zod_example) (H0 := ToyRelay.fetch) ToyRelay.client)
    (RelayLaws0 := client_relay_laws (H := zod_example) (H0 := ToyRelay.fetch) (FetchLaws0 := ToyRelay.fetch_laws) ToyRelay.client)
    10 InboundSample.ready).
Defined.
