(* ===== verification/Outbound.v ===== *)
(** * Sending: [apps/cli/src/runtime/outbound.ts]

    [publish] brings the published pool back up to its target, [send] claims a
    first-contact bundle when there is no session yet, encrypts once, records the
    envelope with the history in one transaction and delivers the recorded one;
    [retryPending] delivers what is still pending.  A stored claim identifier that is not
    a string fails in [reserve_claim], where the code fails in the schema of the claim
    request, with the same error and before any request. *)

From S2P Require Import Prelude JsString Json JsMap Zod Base64Url Protocol Platform.
From S2P Require Import Transcripts WellFormed Effects Store Signal Wire History Profile.
From S2P Require Import RelayClient Inbound.

(** [limits.ts]. *)
Definition MAX_PLAINTEXT_BYTES : Z := 65536.

Section outbound.
Context {W : Type} `{Zod} `{World W} `{Native W} `{Crypto} `{Relay W}.

Definition outbound_error (code : jstr) : err := ErrOutbound code code.
(** [serial]: what reaches the caller. *)
Definition serial {A} (operation : Rt (W := W) A) : Rt A :=
  catch operation (fun e =>
    match e with
    | ErrRelay _ | ErrOutbound _ _ | ErrPersistence => throw e
    | _ => throw (outbound_error (js "OUTBOUND_REJECTED"))
    end).

Record SendInput := { si_recipientIdentityId : jstr; si_messageId : jstr; si_plaintext : jstr }.
Definition inputSchema (i : SendInput) : bool :=
  nonempty (si_recipientIdentityId i) && zod_uuid (si_messageId i) && (len (si_plaintext i) <=? MAX_PLAINTEXT_BYTES).
Definition outbox_prefix : jstr := js "cli:outbox:".
Definition keyFor (id : jstr) : jstr := outbox_prefix ++ id.
Definition pending_status : jstr := js "pending".
Definition delivered_status : jstr := js "delivered".
(** An outbox record; it is read back as it was written, without a schema. *)
Definition outbox (contentHash : jstr) (envelope : json) (status : jstr) : json :=
  JObj [ (js "contentHash", JStr contentHash); (js "envelope", envelope); (js "status", JStr status) ].
Definition with_status (status : jstr) (record : json) : json :=
  match record with JObj l => JObj (obj_set (js "status") (JStr status) l) | _ => record end.

Record receipt := Receipt { rc_messageId : jstr; rc_envelopeId : jstr; rc_claimReplaced : bool }.
Definition receipt_of (record : json) : receipt :=
  let envelope := sub_field (js "envelope") record in
  Receipt (str_field (js "message_id") envelope) (str_field (js "envelope_id") envelope) false.

(** ** [publish] *)

Definition expiredPublication (e : err) : bool :=
  match e with ErrRelay re => bool_decide (re_remoteCode re = Some (js "BUNDLE_EXPIRED")) | _ => false end.

Record pool_report := PoolReport { pl_target : Z; pl_claimable : Z; pl_minted : Z }.
Record publish_result := PublishResult { pb_bundleId : jstr; pb_anyClaimable : bool; pb_pool : pool_report }.

(** Re-submitting every stored member: how many are claimable, which slots are dead. *)
Fixpoint resubmit (slot : nat) (members : list json) (claimable : Z) (dead : list nat) : Rt (Z * list nat) :=
  match members with
  | [] => ret (claimable, dead)
  | member :: members =>
      answer <- attempt (relay_call (publishBundle member));
      match answer with
      | Err e => if negb (expiredPublication e) then throw e
                 else resubmit (S slot) members claimable (dead ++ [slot])
      | Ok a => if pa_claimable a then resubmit (S slot) members (claimable + 1) dead
                else resubmit (S slot) members claimable (dead ++ [slot])
      end
  end.
(** Replacing the dead slots. *)
Fixpoint replace_dead (dead : list nat) (members : list json) (minted claimable : Z)
  : Rt (list json * Z * Z) :=
  match dead with
  | [] => ret (members, minted, claimable)
  | slot :: dead =>
      replacement <- replacePublicationSlot slot;
      a <- relay_call (publishBundle replacement);
      replace_dead dead (<[slot := replacement]> members) (minted + 1)
        (if pa_claimable a then claimable + 1 else claimable)
  end.
Definition publish_pool : Rt publish_result :=
  restored <- restorePublicationPool;
  '(claimable, dead) <- resubmit 0 restored.1 0 [];
  '(members, minted, claimable) <- replace_dead (rev dead) restored.1 restored.2 claimable;
  ret (PublishResult (str_field (js "bundle_id") (default_to JNull (members !! 0%nat)))
         (0 <? claimable) (PoolReport (Z.of_nat (length members)) claimable minted)).
Definition publish : Rt publish_result := serial publish_pool.
Definition rotateBundle : Rt unit := serial (rotatePublicationBundle;; ret tt).

(** ** [deliver] and [settle] *)

(** The ciphertext of an envelope: the wrapper of the Signal message. *)
Definition wrapped (m : Outgoing) : jstr :=
  encodeBase64Url (utf8_encode (stringify
    (JObj [ (js "version", JNum 1); (js "type", o_type m); (js "body", JStr (encodeBase64Url (o_body m))) ]))).

Definition deliver (record : json) : Rt receipt :=
  if bool_decide (field (js "status") record = Some (JStr delivered_status)) then ret (receipt_of record)
  else
    let envelope := sub_field (js "envelope") record in
    withRuntime (fun _ _ =>
      remote <- from_option (js "ZodError")
        (signalAddressForDevice (str_field (js "recipient_identity_id") envelope)
           (str_field (js "recipient_device_id") envelope));
      persisted <- retry remote (str_field (js "message_id") envelope);
      if eqb (str_field (js "ciphertext") envelope) (wrapped persisted) then ret tt
      else throw (outbound_error (js "OUTBOUND_REJECTED")));;
    relay_call (sendEnvelope envelope);;
    withRuntime (fun _ _ => tx_set (keyFor (str_field (js "message_id") envelope))
                              (json_encode (with_status delivered_status record)));;
    ret (receipt_of record).
Definition settle (record : json) (contentHash : jstr) : Rt receipt :=
  if bool_decide (field (js "contentHash") record = Some (JStr contentHash)) then deliver record
  else throw (outbound_error (js "MESSAGE_ID_CONFLICT")).

(** ** [claimFirstContact] *)

Definition contact_id (contact : json) : jstr := str_field (js "identity_id") contact.
Definition contact_device (contact : json) : jstr := str_field (js "device_id") contact.
Definition claim_key (contact : json) : jstr := js "cli:claim:" ++ contact_id contact.
(** A fresh claim id, durable before it is used. *)
Definition new_claim (contact : json) : Tx W jstr :=
  id <- world_call randomUUID;
  if zod_uuid id then tx_set (claim_key contact) (json_encode (JStr id));; ret id
  else fail (js "ZodError").

Definition mismatched (contact bundle : json) : bool :=
  let record := sub_field (js "device_record") bundle in
  eqb (sub_field (js "one_time_prekey") bundle) JNull
  || negb (eqb (sub_field (js "identity_id") record) (sub_field (js "identity_id") contact))
  || negb (eqb (sub_field (js "device_id") record) (sub_field (js "device_id") contact))
  || negb (eqb (sub_field (js "device_pubkey") record) (sub_field (js "device_pubkey") contact))
  || negb (eqb (sub_field (js "signal_identity_key") bundle) (sub_field (js "signal_identity_key") contact)).
Definition outside_window (bundle : json) (at_ms : Z) : bool :=
  (at_ms <? num_field (js "created_at_ms") bundle) || (num_field (js "expires_at_ms") bundle <=? at_ms).

Record first_contact := FirstContact { fc_bundle : prekey_bundle; fc_replaced : bool }.
(** [replacements] is how many dead claims may still be released. *)
Fixpoint claim_from (replacements : nat) (contact : json) (identifier : jstr) : Rt first_contact :=
  bundle <- relay_call (claimBundle identifier (contact_id contact) (Some (contact_device contact)));
  at_ms <- outside date_now;
  if mismatched contact bundle then throw (outbound_error (js "CONTACT_PIN_MISMATCH"))
  else if outside_window bundle at_ms then
    match replacements with
    | O => throw (outbound_error (js "PREKEY_BUNDLE_EXPIRED"))
    | S replacements =>
        id <- withRuntime (fun _ _ => new_claim contact);
        claim_from replacements contact id
    end
  else
    match importVerifiedSignalBundleV2 bundle (contact_id contact) (contact_device contact) at_ms with
    | Ok verified => ret (FirstContact verified.2 (Nat.eqb replacements 0))
    | Err _ => throw (outbound_error (js "CONTACT_PIN_MISMATCH"))
    end.
Definition claimFirstContact (contact : json) (claimId : jstr) : Rt first_contact :=
  claim_from 1 contact claimId.

(** ** [send] *)

(** What JavaScript takes for true. *)
Definition truthy (v : json) : bool :=
  match v with
  | JNull => false
  | JBool b => b
  | JNum z => negb (z =? 0)
  | JStr s => negb (eqb s [])
  | _ => true
  end.
Definition content_digest (i : SendInput) : jstr :=
  hex (sha256 (utf8_encode (stringify
    (JArr [ JStr (si_recipientIdentityId i); JStr (si_messageId i); JStr (si_plaintext i) ])))).
Definition read_outbox (id : jstr) : Tx W json :=
  value <- tx_get (keyFor id);
  match value with None => ret JNull | Some bs => decode bs end.
(** The claim to use: none when there is a session, the stored one, or a new one. *)
Definition reserve_claim (contact : json) (address : DeviceAddress) : Tx W (option jstr) :=
  session <- tx_get (session_key address);
  match session with
  | Some _ => ret None
  | None =>
      previous <- tx_get (claim_key contact);
      match previous with
      | Some bs => j <- decode bs;
                   match j with
                   | JNull => ret None
                   | JStr id => ret (Some id)
                   | _ => throw invalid
                   end
      | None => id <- new_claim contact; ret (Some id)
      end
  end.
(** The transaction that encrypts the message and records it. *)
Definition record_message (i : SendInput) (contact : json) (address : DeviceAddress)
    (verified : option prekey_bundle) (local : json) (own : DeviceAddress) : Tx W (json * bool) :=
  committed <- tx_get (keyFor (si_messageId i));
  match committed with
  | Some bs => record <- decode bs; ret (record, true)
  | None =>
      pinned <- tx_get (contact_key (contact_id contact));
      match pinned with
      | None => throw (outbound_error (js "CONTACT_PIN_MISMATCH"))
      | Some bs => j <- decode bs;
                   if eqb (stringify j) (stringify contact) then ret tt
                   else throw (outbound_error (js "CONTACT_PIN_MISMATCH"))
      end;;
      match verified with Some bundle => establish own address bundle | None => ret tt end;;
      message <- encrypt own address (si_messageId i) (si_plaintext i);
      let ciphertext := wrapped message in
      created <- world_call date_now;
      envelopeId <- world_call randomUUID;
      let mailbox := deriveMailboxId (contact_id contact) in
      let expires := created + 86400000 in
      signature <- signEnvelopeBinding
        {| b_recipientMailboxId := mailbox; b_envelopeId := envelopeId;
           b_senderIdentityId := str_field (js "identity_id") local;
           b_senderDeviceId := str_field (js "device_id") local;
           b_ciphertext := ciphertext; b_createdAtMs := created; b_expiresAtMs := expires |};
      envelope <- lift (zod_parse StrictMailboxEnvelope (JObj
        [ (js "type", JStr (js "mailbox_envelope")); (js "version", JNum 1);
          (js "envelope_id", JStr envelopeId); (js "message_id", JStr (si_messageId i));
          (js "sender_identity_id", sub_field (js "identity_id") local);
          (js "sender_device_id", sub_field (js "device_id") local);
          (js "recipient_identity_id", sub_field (js "identity_id") contact);
          (js "recipient_device_id", sub_field (js "device_id") contact);
          (js "recipient_mailbox_id", JStr mailbox);
          (js "payload_type", JStr (js "ciphertext_message")); (js "ciphertext", JStr ciphertext);
          (js "created_at_ms", JNum created); (js "expires_at_ms", JNum expires);
          (js "size_bytes", JNum (utf8_length ciphertext)); (js "sender_signature", JStr signature) ]));
      let record := outbox (content_digest i) envelope pending_status in
      tx_set (keyFor (si_messageId i)) (json_encode record);;
      appendHistory {| h_contactIdentityId := contact_id contact; h_messageId := si_messageId i;
                       h_direction := js "outbound"; h_plaintext := si_plaintext i; h_createdAtMs := created |};;
      tx_delete (claim_key contact);;
      ret (record, false)
  end.

Definition not_published : err := ErrOutbound (js "SENDER_NOT_PUBLISHED")
  (js "This profile has never published its device record, so the relay cannot accept its messages; run `relay publish` for this profile, then send again.").
Definition sendOwned (i : SendInput) : Rt receipt :=
  let contentHash := content_digest i in
  prior <- withRuntime (fun _ _ => read_outbox (si_messageId i));
  if truthy prior then settle prior contentHash
  else
    contacts <- listContacts;
    match List.find (fun c => eqb (contact_id c) (si_recipientIdentityId i)) contacts with
    | None => throw (outbound_error (js "CONTACT_NOT_TRUSTED"))
    | Some contact =>
        published <- hasPublication;
        if negb published then throw not_published
        else
          address <- from_option (js "ZodError") (signalAddressForDevice (contact_id contact) (contact_device contact));
          claimId <- withRuntime (fun _ _ => reserve_claim contact address);
          claimed <- match claimId with
                     | None => ret None
                     | Some id => c <- claimFirstContact contact id; ret (Some c)
                     end;
          '(record, existed) <- withRuntime (record_message i contact address (option_map fc_bundle claimed));
          delivered <- (if existed then settle record contentHash else deliver record);
          ret (match claimed with
               | Some c => Receipt (rc_messageId delivered) (rc_envelopeId delivered) (fc_replaced c)
               | None => delivered
               end)
    end.
Definition send (i : SendInput) : Rt receipt :=
  if negb (inputSchema i) || (MAX_PLAINTEXT_BYTES <? utf8_length (si_plaintext i))
  then throw (outbound_error (js "INVALID_MESSAGE"))
  else serial (sendOwned i).

(** ** [retryPending] *)

Definition pending_records : Tx W (list json) :=
  keys <- tx_keys outbox_prefix;
  records <- mapM (fun key =>
    v <- tx_get key; bs <- from_option (js "TypeError") v; record <- decode bs;
    status <- property (js "status") record;
    ret (record, bool_decide (status = Some (JStr pending_status)))) (jsort keys);
  ret (map fst (List.filter snd records)).
Fixpoint deliver_all (records : list json) : Rt (list receipt) :=
  match records with
  | [] => ret []
  | record :: records => r <- deliver record; rs <- deliver_all records; ret (r :: rs)
  end.
Definition retryPending : Rt (list receipt) := serial (
  pending <- withRuntime (fun _ _ => pending_records);
  deliver_all pending).
End outbound.

(** ** Lemmas: the record of a message *)

Definition status_key : jstr := js "status".
Lemma status_not_index : is_index (js "status") = false.
Proof. vm_compute. reflexivity. Qed.
Lemma with_status_field status record k :
  k <> js "status" -> field k (with_status status record) = field k record.
Proof.
  intros Hk. destruct record as [| | | | |l]; try done. cbn [with_status field].
  by apply obj_get_set_ne; [apply status_not_index|].
Qed.
Lemma with_status_again status record : with_status status (with_status status record) = with_status status record.
Proof.
  destruct record as [| | | | |l]; try done. cbn [with_status]. f_equal. apply obj_set_again, status_not_index.
Qed.

(** The message a record was made for. *)
Definition record_id (record : json) : jstr := str_field (js "message_id") (sub_field (js "envelope") record).
(** A record filed under its own message. *)
Definition filed (id : jstr) (record : json) : Prop :=
  json_ok record = true /\ truthy record = true /\ record_id record = id.
Definition outbox_wf (r : records) : Prop := forall id bs,
  get (keyFor id) r = Some bs -> exists record, bs = json_encode record /\ filed id record.

Lemma with_status_truthy status record : truthy (with_status status record) = truthy record.
Proof. by destruct record. Qed.
Lemma filed_status id status record :
  forallb unit_ok status = true -> filed id record -> filed id (with_status status record).
Proof.
  intros Hs (Hj & Ht & Hi). split; [|split].
  - destruct record as [| | | | |l]; try done. cbn [with_status].
    apply obj_set_json_ok; [apply status_not_index|vm_compute; reflexivity|exact Hs|exact Hj].
  - by rewrite with_status_truthy.
  - unfold record_id, sub_field. rewrite with_status_field; [exact Hi|]. intros E.
    apply (f_equal (fun s => length s)) in E. vm_compute in E. discriminate E.
Qed.

(** [frozen r0 r]: every message [r0] records is still recorded in [r], with the same
    content and envelope; at most it is now marked delivered. *)
Definition frozen (r0 r : records) : Prop := forall id record,
  get (keyFor id) r0 = Some (json_encode record) -> filed id record ->
  get (keyFor id) r = Some (json_encode record)
  \/ get (keyFor id) r = Some (json_encode (with_status delivered_status record)).
Definition same_outbox (r0 r : records) : Prop := forall id, get (keyFor id) r = get (keyFor id) r0.

Lemma frozen_refl r : frozen r r.
Proof. by left. Qed.
Lemma same_outbox_frozen r0 r : same_outbox r0 r -> frozen r0 r.
Proof. intros Hs id record Hg _. left. by rewrite Hs. Qed.
Lemma delivered_units : forallb unit_ok delivered_status = true.
Proof. vm_compute. reflexivity. Qed.
Lemma frozen_trans r0 r1 r2 : frozen r0 r1 -> frozen r1 r2 -> frozen r0 r2.
Proof.
  intros H1 H2 id record Hg Hf. destruct (H1 id record Hg Hf) as [Hg1|Hg1].
  - exact (H2 id record Hg1 Hf).
  - right. destruct (H2 id _ Hg1 (filed_status _ _ _ delivered_units Hf)) as [Hg2|Hg2]; [done|].
    by rewrite with_status_again in Hg2.
Qed.

(** ** Lemmas: what is on disk at every commit, from a given state *)

Section from.
Context {W : Type} `{World W}.

Definition holds_from (P : records -> Prop) {A} (m : Rt (W := W) A) (s : env W) : Prop :=
  P (disk (m s).2) /\ exists new, commits (m s).2 = commits s ++ new /\ Forall P new.

Lemma holds_keeps P {A} (m : Rt (W := W) A) s : keeps P m -> P (disk s) -> holds_from P m s.
Proof. intros Hm Hs. exact (Hm s Hs). Qed.
Lemma holds_weaken (P P' : records -> Prop) {A} (m : Rt (W := W) A) s :
  (forall r, P r -> P' r) -> holds_from P m s -> holds_from P' m s.
Proof.
  intros HP [Hd (new & Hc & Hn)]. split; [by apply HP|]. exists new. split; [done|]. by eapply Forall_impl.
Qed.
Lemma holds_bind P {A B} (m : Rt (W := W) A) (f : A -> Rt B) s :
  holds_from P m s ->
  (forall a s1, m s = (Ok a, s1) -> P (disk s1) -> holds_from P (f a) s1) -> holds_from P (bind m f) s.
Proof.
  intros [Hd (n1 & Hc & Hn)] Hf. unfold holds_from, bind. destruct (m s) as [[a|e] s1]; cbn [fst snd] in *; [|eauto].
  destruct (Hf a s1 eq_refl Hd) as [Hd2 (n2 & Hc2 & Hn2)]. split; [done|]. exists (n1 ++ n2).
  rewrite Hc2, Hc, app_assoc. split; [done|]. by apply Forall_app.
Qed.
(** A first part that stays within a smaller invariant. *)
Lemma holds_step (P0 P : records -> Prop) {A B} (m : Rt (W := W) A) (f : A -> Rt B) s :
  (forall r, P0 r -> P r) -> keeps P0 m -> P0 (disk s) ->
  (forall a s1, m s = (Ok a, s1) -> P0 (disk s1) -> holds_from P (f a) s1) -> holds_from P (bind m f) s.
Proof.
  intros HP Hm Hs Hf. apply holds_bind; [by eapply holds_weaken, holds_keeps|].
  intros a s1 E _. apply Hf; [done|]. destruct (Hm s Hs) as [Hd _]. by rewrite E in Hd.
Qed.
Lemma holds_throw (P : records -> Prop) {A} e (s : env W) : P (disk s) -> holds_from P (throw (A := A) e) s.
Proof. apply (holds_keeps P), keeps_throw. Qed.
Lemma holds_ret (P : records -> Prop) {A} (a : A) (s : env W) : P (disk s) -> holds_from P (ret a) s.
Proof. apply (holds_keeps P), keeps_ret. Qed.
Lemma holds_transact (P : records -> Prop) {A} (op : Tx W A) (s : env W) :
  P (disk s) -> (forall w a r' w', op (disk s, w) = (Ok a, (r', w')) -> P r') -> holds_from P (transact op) s.
Proof.
  intros Hs Hop. unfold holds_from. destruct (transact op s) as [[a|e] s'] eqn:E; cbn [snd].
  - apply transact_ok in E as (w & w' & E & Hc). assert (P (disk s')) by by eapply Hop.
    split; [done|]. exists [disk s']. split; [done|]. by constructor.
  - apply transact_err in E as (Hd & Hc & _). rewrite Hd, Hc. split; [done|]. exists []. by rewrite app_nil_r.
Qed.
Lemma serial_state {A} (m : Rt (W := W) A) s : (serial m s).2 = (m s).2.
Proof. unfold serial, catch. destruct (m s) as [[a|e] s']; [done|]. by destruct e. Qed.
Lemma holds_serial P {A} (m : Rt (W := W) A) s : holds_from P m s -> holds_from P (serial m) s.
Proof. unfold holds_from. by rewrite serial_state. Qed.
End from.

(** ** Lemmas: what sending writes *)

Section frames.
Context {W : Type} `{Zod} `{World W} `{Native W} `{Crypto} `{Relay W}.

(** Every key but those of the recorded messages. *)
Definition no_record_key (k : jstr) : bool := negb (starts_with outbox_prefix k).
Lemma keyFor_prefix id : starts_with outbox_prefix (keyFor id) = true.
Proof. exact (starts_with_app outbox_prefix id). Qed.
Lemma keyFor_cli id : cli_key (keyFor id) = true.
Proof. apply cli_prefix. vm_compute. reflexivity. Qed.
Lemma keyFor_inj i j : keyFor i = keyFor j -> i = j.
Proof. apply app_inv_head. Qed.
Lemma no_record_other k p : clash outbox_prefix p = true -> no_record_key (p ++ k) = true.
Proof. intros Hc. unfold no_record_key. by rewrite clash_starts_with. Qed.
Lemma no_record_client k : client_key k = true -> no_record_key k = true.
Proof.
  intros Hk. unfold no_record_key. destruct (starts_with outbox_prefix k) eqn:E; [|done].
  apply starts_with_iff in E as [t ->]. pose proof (keyFor_cli t) as Hc. apply cli_not_client in Hc.
  unfold keyFor in Hc. by rewrite Hk in Hc.
Qed.
Lemma no_record_create k : create_key k = true -> no_record_key k = true.
Proof. intros Hk. apply no_record_client. unfold client_key. by rewrite Hk. Qed.
Lemma no_record_native k : native_key k = true -> no_record_key k = true.
Proof.
  intros Hk. apply no_record_create. unfold create_key. rewrite Hk. by rewrite orb_true_r.
Qed.

Lemma frame_same_outbox {A} (op : Tx W A) r0 :
  preserves (same_outside no_record_key) op -> keeps (same_outbox r0) (transact op).
Proof.
  apply keeps_frame. intros r r' Hf Hr id. rewrite Hf; [apply Hr|]. unfold no_record_key. by rewrite keyFor_prefix.
Qed.
Lemma frame_frozen {A} (op : Tx W A) r0 :
  preserves (same_outside no_record_key) op -> keeps (frozen r0) (transact op).
Proof.
  intros Hop. apply (keeps_frame _ no_record_key); [|exact Hop]. intros r r' Hf Hr id record Hg Hi.
  rewrite !Hf by (unfold no_record_key; by rewrite keyFor_prefix). by apply Hr.
Qed.
Lemma frame_runtime {A} (f : json -> DeviceAddress -> Tx W A) :
  (forall l a, preserves (same_outside no_record_key) (f l a)) ->
  preserves (same_outside no_record_key) (runtime_tx f).
Proof. apply preserves_runtime, no_record_create. Qed.

(** Delivering a record that is the stored one, or its delivered copy. *)
Lemma keeps_deliver r0 record :
  (forall record0, get (keyFor (record_id record)) r0 = Some (json_encode record0) ->
     filed (record_id record) record0 -> record = record0 \/ record = with_status delivered_status record0) ->
  keeps (frozen r0) (deliver (W := W) record).
Proof.
  intros Hrec. unfold deliver. destruct (bool_decide _); [apply keeps_ret|]. cbv zeta.
  apply keeps_bind; [|intros u1; apply keeps_bind; [apply keeps_relay_call|intros u2]].
  { apply frame_frozen, frame_runtime. intros l a. solve_preserves_with ltac:(fun _ => lazymatch goal with
      | |- preserves _ (retry _ _) => eapply same_outside_weaken; [|apply preserves_retry]; intros k Hk; discriminate Hk
      end). }
  apply keeps_bind; [|intros u3; apply keeps_ret]. apply keeps_transact. intros r w a r' w' Hr E.
  fold (record_id record) in E. apply runtime_ok in E as (l & ad & w1 & E). apply tx_set_ok in E. cbn [fst snd] in E.
  injection E as -> _. intros id record0 Hg Hf. destruct (decide (id = record_id record)) as [->|Hne].
  - right. rewrite get_set_eq. do 2 f_equal. destruct (Hrec record0 Hg Hf) as [->| ->]; [done|apply with_status_again].
  - rewrite get_set_ne by (intros E; by apply keyFor_inj in E). by apply Hr.
Qed.

Lemma frame_new_claim contact : preserves (same_outside no_record_key) (new_claim (W := W) contact).
Proof.
  unfold new_claim. solve_preserves_with ltac:(fun _ => lazymatch goal with
    | |- preserves _ (tx_set (claim_key _) _) =>
        apply preserves_tx_set; exact (no_record_other _ (js "cli:claim:") eq_refl) end).
Qed.
Lemma frame_reserve_claim contact address :
  preserves (same_outside no_record_key) (reserve_claim (W := W) contact address).
Proof.
  unfold reserve_claim. solve_preserves_with ltac:(fun _ => lazymatch goal with
    | |- preserves _ (new_claim _) => apply frame_new_claim end).
Qed.
Lemma frame_list_contacts : preserves (same_outside no_record_key) (list_contacts (W := W)).
Proof. unfold list_contacts, read_contact. solve_preserves. Qed.
Lemma keeps_claim_from r0 n contact id : keeps (same_outbox r0) (claim_from (W := W) n contact id).
Proof.
  revert id. induction n as [|n IH]; intros id; cbn [claim_from];
    (apply keeps_bind; [apply keeps_relay_call|intros bundle]); (apply keeps_bind; [apply keeps_outside|intros at_ms]);
    (destruct (mismatched _ _); [apply keeps_throw|]); destruct (outside_window _ _).
  - apply keeps_throw.
  - destruct (importVerifiedSignalBundleV2 _ _ _ _); [apply keeps_ret|apply keeps_throw].
  - apply keeps_bind; [|intros id'; apply IH]. apply frame_same_outbox, frame_runtime. intros l a. apply frame_new_claim.
  - destruct (importVerifiedSignalBundleV2 _ _ _ _); [apply keeps_ret|apply keeps_throw].
Qed.
Lemma frame_append e : preserves (same_outside no_record_key) (appendHistory (W := W) e).
Proof.
  apply preserves_appendHistory; [vm_compute; reflexivity|].
  intros n. exact (no_record_other _ history_prefix eq_refl).
Qed.
Lemma frame_sign b : preserves (same_outside no_record_key) (signEnvelopeBinding (W := W) b).
Proof. unfold signEnvelopeBinding, device_secret, readMetadata. solve_preserves. Qed.
Lemma outbox_key_no_record r i : no_record_key (outbox_key r i) = true.
Proof. exact (no_record_other _ (js "outbox:") eq_refl). Qed.
Lemma frame_encrypt l r i p : preserves (same_outside no_record_key) (encrypt (W := W) l r i p).
Proof.
  eapply same_outside_weaken; [|apply preserves_encrypt]. intros k [Hk|Hk]%orb_true_iff; [by apply no_record_native|].
  rewrite eqb_eq in Hk. subst k. apply outbox_key_no_record.
Qed.
Lemma frame_establish l r b : preserves (same_outside no_record_key) (establish (W := W) l r b).
Proof. eapply same_outside_weaken; [|apply preserves_establish]. exact no_record_native. Qed.

(** The one key [record_message] may add. *)
Definition adds_record (id k : jstr) : bool := no_record_key k || eqb k (keyFor id).
Lemma frame_record_message i contact address verified local own :
  preserves (same_outside (adds_record (si_messageId i)))
    (record_message (W := W) i contact address verified local own).
Proof.
  assert (forall A (m : Tx W A), preserves (same_outside no_record_key) m ->
    preserves (same_outside (adds_record (si_messageId i))) m) as Hw.
  { intros A m. apply same_outside_weaken. unfold adds_record. by intros k ->. }
  unfold record_message. solve_preserves_with ltac:(fun _ => lazymatch goal with
    | |- preserves _ (encrypt _ _ _ _) => apply Hw, frame_encrypt
    | |- preserves _ (establish _ _ _) => apply Hw, frame_establish
    | |- preserves _ (signEnvelopeBinding _) => apply Hw, frame_sign
    | |- preserves _ (appendHistory _) => apply Hw, frame_append
    | |- preserves _ (tx_set (keyFor _) _) => apply preserves_tx_set; unfold adds_record;
        rewrite (eqb_refl (keyFor (si_messageId i))); apply orb_true_r
    | |- preserves _ (tx_delete (claim_key _)) => apply preserves_tx_delete; unfold adds_record;
        apply orb_true_iff; left; exact (no_record_other _ (js "cli:claim:") eq_refl) end).
Qed.

(** *** What [record_message] answers *)
Lemma envelope_message_id l envelope id :
  StrictMailboxEnvelope (JObj l) = Some envelope -> obj_get (js "message_id") l = Some (JStr id) ->
  str_field (js "message_id") envelope = id.
Proof.
  unfold StrictMailboxEnvelope, z_strict. destruct (forallb _ l); [|done]. unfold z_object.
  destruct (parse_properties _ l) as [ws|] eqn:E; [|done]. intros [= <-] Hg.
  eapply (parse_properties_get _ _ _ (js "message_id") z_uuid) in E as (v & w & Hv & Hs & Hw); cycle 1.
  - apply (list_elem_of_lookup_2 _ 3%nat). reflexivity.
  - refine (bool_decide_eq_true_1 _ _). vm_compute. reflexivity.
  - rewrite Hg in Hv. injection Hv as <-. unfold z_uuid, z_string in Hs. destruct (zod_uuid id); [|done].
    injection Hs as <-. unfold str_field, field. by rewrite Hw.
Qed.
Lemma record_message_ok i contact address verified local own (s : records * W) record existed s' :
  record_message i contact address verified local own s = (Ok (record, existed), s') ->
  if existed then s' = s /\ exists bs, get (keyFor (si_messageId i)) s.1 = Some bs /\ json_decode bs = Some record
  else get (keyFor (si_messageId i)) s.1 = None /\ record_id record = si_messageId i.
Proof.
  unfold record_message. intros Hr. apply bind_ok in Hr as (v & s1 & Hg & Hr). apply tx_get_ok in Hg as [-> ->].
  destruct (get _ s.1) as [bs|] eqn:Eg.
  - apply bind_ok in Hr as (j & s1 & Hd & Hr). apply from_option_ok in Hd as [Hd ->].
    apply ret_ok in Hr as [Hr ->]. injection Hr as <- <-. eauto.
  - do 3 apply bind_ok in Hr as (? & ? & _ & Hr). apply bind_ok in Hr as (message & ? & _ & Hr). cbv zeta in Hr.
    do 3 apply bind_ok in Hr as (? & ? & _ & Hr). apply bind_ok in Hr as (envelope & ? & He & Hr).
    do 3 apply bind_ok in Hr as (? & ? & _ & Hr). apply ret_ok in Hr as [Hr _]. injection Hr as <- <-.
    split; [done|]. unfold lift in He. injection He as He _. apply of_option_ok in He.
    unfold record_id, outbox, sub_field. cbn [field]. eval_object. cbn [default_to].
    eapply envelope_message_id; [exact He|]. eval_object. reflexivity.
Qed.
End frames.

(** ** Lemmas: the recorded messages through every operation *)

Section recorded.
Context {W : Type} `{Zod} `{World W} `{Native W} `{Crypto} `{Relay W}.

Lemma read_outbox_ok id (s : records * W) prior s' :
  read_outbox id s = (Ok prior, s') ->
  s' = s /\ match get (keyFor id) s.1 with Some bs => json_decode bs = Some prior | None => prior = JNull end.
Proof.
  unfold read_outbox. intros Hr. apply bind_ok in Hr as (v & s1 & Hg & Hr). apply tx_get_ok in Hg as [-> ->].
  destruct (get _ s.1) as [bs|].
  - by apply from_option_ok in Hr as [Hr ->].
  - by apply ret_ok in Hr as [<- ->].
Qed.
Lemma frame_read_outbox id : preserves (same_outside no_record_key) (read_outbox (W := W) id).
Proof. unfold read_outbox. solve_preserves. Qed.

(** A stored record, delivered from the store it was read from. *)
Lemma keeps_deliver_stored r0 id record :
  get (keyFor id) r0 = Some (json_encode record) -> filed id record ->
  keeps (frozen r0) (deliver (W := W) record).
Proof.
  intros Hg Hf. pose proof Hf as (Hj & _ & Hi). apply keeps_deliver. rewrite Hi. intros record0 Hg0 (Hj0 & _).
  left. rewrite Hg in Hg0. injection Hg0 as E. by apply json_encode_inj.
Qed.
Lemma wf_decoded r id bs record :
  outbox_wf r -> get (keyFor id) r = Some bs -> json_decode bs = Some record ->
  bs = json_encode record /\ filed id record.
Proof.
  intros Hwf Hg Hd. destruct (Hwf _ _ Hg) as (record' & -> & Hf). pose proof Hf as (Hj & _).
  rewrite (json_decode_encode _ Hj) in Hd. injection Hd as ->. done.
Qed.

Lemma frozen_sendOwned i (s : env W) :
  outbox_wf (disk s) -> holds_from (frozen (disk s)) (sendOwned i) s.
Proof.
  intros Hwf. set (r0 := disk s). assert (same_outbox r0 (disk s)) as Hs0 by done.
  assert (frozen r0 (disk s)) as Hf0 by apply frozen_refl. unfold sendOwned. cbv zeta.
  eapply (holds_step (same_outbox r0)); [apply same_outbox_frozen| |exact Hs0|].
  { apply frame_same_outbox, frame_runtime. intros l a. apply frame_read_outbox. }
  intros prior s1 E Hs1. apply runtime_disk in E as (l & ad & w & w' & E).
  apply read_outbox_ok in E as [_ E]. cbn [fst] in E. fold r0 in E. clear w w' l ad.
  destruct (truthy prior) eqn:Ht.
  { destruct (get (keyFor (si_messageId i)) r0) as [bs|] eqn:Eg; [|by subst prior].
    destruct (wf_decoded _ _ _ _ Hwf Eg E) as [-> Hfi]. apply holds_keeps; [|by apply same_outbox_frozen].
    unfold settle. destruct (bool_decide _); [|apply keeps_throw]. by eapply keeps_deliver_stored. }
  assert (get (keyFor (si_messageId i)) r0 = None) as Hnone.
  { destruct (get (keyFor (si_messageId i)) r0) as [bs|] eqn:Eg; [|done].
    destruct (wf_decoded _ _ _ _ Hwf Eg E) as (_ & _ & Ht' & _). congruence. }
  eapply (holds_step (same_outbox r0)); [apply same_outbox_frozen|apply frame_same_outbox, frame_list_contacts|exact Hs1|].
  intros contacts s2 _ Hs2. destruct (List.find _ contacts) as [contact|]; [|by apply holds_throw, same_outbox_frozen].
  eapply (holds_step (same_outbox r0)); [apply same_outbox_frozen| |exact Hs2|].
  { unfold hasPublication. apply frame_same_outbox. solve_preserves. }
  intros published s3 _ Hs3. destruct (negb published); [by apply holds_throw, same_outbox_frozen|].
  eapply (holds_step (same_outbox r0)); [apply same_outbox_frozen| |exact Hs3|].
  { destruct (signalAddressForDevice _ _); [apply keeps_ret|apply keeps_throw]. }
  intros address s4 _ Hs4.
  eapply (holds_step (same_outbox r0)); [apply same_outbox_frozen| |exact Hs4|].
  { apply frame_same_outbox, frame_runtime. intros l a. apply frame_reserve_claim. }
  intros claimId s5 _ Hs5.
  eapply (holds_step (same_outbox r0)); [apply same_outbox_frozen| |exact Hs5|].
  { destruct claimId; [|apply keeps_ret]. apply keeps_bind; [apply keeps_claim_from|intros c; apply keeps_ret]. }
  intros claimed s6 _ Hs6. apply holds_bind.
  { apply holds_transact; [by apply same_outbox_frozen|]. intros w1 a r' w1' E' id record Hg Hfi. left. rewrite <- Hg.
    assert (preserves (same_outside (adds_record (si_messageId i)))
      (runtime_tx (record_message (W := W) i contact address (option_map fc_bundle claimed)))) as Hp.
    { apply preserves_runtime; [|intros l0 a0; apply frame_record_message].
      intros k Hk. unfold adds_record. by rewrite (no_record_create _ Hk). }
    specialize (Hp (disk s6, w1) (keyFor id)). rewrite E' in Hp. cbn [fst snd] in Hp. rewrite Hp; [apply Hs6|].
    unfold adds_record, no_record_key. rewrite keyFor_prefix. apply eqb_neq. intros Hk. apply keyFor_inj in Hk. congruence. }
  intros [record existed] s7 E' Hs7. apply holds_bind; [|intros d s8 _ Hs8; by apply holds_ret].
  apply runtime_disk in E' as (l & ad & w1 & w1' & E'). apply record_message_ok in E'. destruct existed.
  { destruct E' as (_ & bs & Hg & _). cbn [fst] in Hg. rewrite Hs6 in Hg. congruence. }
  destruct E' as [_ Hid]. apply holds_keeps; [|done]. apply keeps_deliver. rewrite Hid. intros record0 Hg _. congruence.
Qed.

(** Reading a list of keys, element by element. *)
Lemma mapM_each {S A B} (f : A -> M S B) (Q : S -> A -> B -> Prop) l s ys s' :
  (forall x s y s', f x s = (Ok y, s') -> s' = s /\ Q s x y) ->
  mapM f l s = (Ok ys, s') -> s' = s /\ Forall2 (Q s) l ys.
Proof.
  intros Hf. revert ys s'. induction l as [|x l IH]; intros ys s' Hr; cbn [mapM] in Hr.
  { apply ret_ok in Hr as [<- ->]. split; [done|constructor]. }
  apply bind_ok in Hr as (y & s1 & Hy & Hr). apply Hf in Hy as [-> Hq].
  apply bind_ok in Hr as (ys' & s1 & Hys & Hr). apply IH in Hys as [-> Hqs].
  apply ret_ok in Hr as [<- ->]. split; [done|by constructor].
Qed.
Lemma pending_records_ok (s : records * W) pending s' :
  pending_records s = (Ok pending, s') ->
  Forall (fun record => exists id bs, get (keyFor id) s.1 = Some bs /\ json_decode bs = Some record) pending.
Proof.
  unfold pending_records. intros Hr. apply bind_ok in Hr as (ks & s1 & Hk & Hr). unfold tx_keys, gets in Hk.
  injection Hk as <- <-. apply bind_ok in Hr as (rs & s1 & Hm & Hr). apply ret_ok in Hr as [<- _].
  eapply (mapM_each _ (fun s key p => exists bs, get key s.1 = Some bs /\ json_decode bs = Some p.1)) in Hm as [_ Hm].
  - apply Forall_fmap, Forall_forall. intros [record b] Hin. apply list_elem_of_In, filter_In in Hin as [Hin _].
    apply list_elem_of_In, list_elem_of_lookup in Hin as [n Hn].
    destruct (Forall2_lookup_r _ _ _ _ _ Hm Hn) as (key & Hkey & bs & Hg & Hd). cbn [fst] in *.
    assert (key ∈ keys_with outbox_prefix s.1) as Hin by (rewrite <- jsort_perm; by eapply list_elem_of_lookup_2).
    apply elem_of_keys_with in Hin as [Hst _]. apply starts_with_iff in Hst as [id ->]. by exists id, bs.
  - intros key s0 p s1' Hr. apply bind_ok in Hr as (v & s2 & Hg & Hr). apply tx_get_ok in Hg as [-> ->].
    apply bind_ok in Hr as (bs & s2 & Hv & Hr). apply from_option_ok in Hv as [Hv ->].
    apply bind_ok in Hr as (record & s2 & Hd & Hr). apply from_option_ok in Hd as [Hd ->].
    apply bind_ok in Hr as (status & s2 & Hp & Hr). apply ret_ok in Hr as [<- ->].
    split; [|by exists bs]. unfold property in Hp. destruct record; [done| | | | |]; by apply ret_ok in Hp as [_ ->].
Qed.
Lemma frozen_deliver_all r0 l (s : env W) :
  Forall (fun record => exists id, get (keyFor id) r0 = Some (json_encode record) /\ filed id record) l ->
  frozen r0 (disk s) -> holds_from (frozen r0) (deliver_all l) s.
Proof.
  revert s. induction l as [|record l IH]; intros s Hl Hs; cbn [deliver_all]; [by apply holds_ret|].
  apply Forall_cons in Hl as [(id & Hg & Hf) Hl].
  apply holds_bind; [apply holds_keeps; [by eapply keeps_deliver_stored|done]|]. intros rc s1 _ Hs1.
  apply holds_bind; [by apply IH|]. intros rcs s2 _ Hs2. by apply holds_ret.
Qed.
Lemma frozen_retryPending (s : env W) : outbox_wf (disk s) -> holds_from (frozen (disk s)) retryPending s.
Proof.
  intros Hwf. apply holds_serial. set (r0 := disk s). eapply (holds_step (same_outbox r0)); [apply same_outbox_frozen| |done|].
  { apply frame_same_outbox, frame_runtime. intros l a. unfold pending_records. solve_preserves. }
  intros pending s1 E Hs1. apply frozen_deliver_all; [|by apply same_outbox_frozen].
  apply runtime_disk in E as (l & ad & w & w' & E). apply pending_records_ok in E. cbn [fst] in E. fold r0 in E.
  eapply Forall_impl; [exact E|]. intros record (id & bs & Hg & Hd). exists id.
  destruct (wf_decoded _ _ _ _ Hwf Hg Hd) as [-> Hf]. done.
Qed.

(** Publishing writes the client's own records and the publication slots. *)
Lemma publication_no_record slot : no_record_key (publicationSlotKey slot) = true.
Proof.
  destruct slot; [vm_compute; reflexivity|]. cbn [publicationSlotKey].
  apply no_record_other. vm_compute. reflexivity.
Qed.
Lemma frame_mint slot rotate : preserves (same_outside no_record_key) (mintPublicationSlot (W := W) slot rotate).
Proof.
  eapply same_outside_weaken; [|apply preserves_mint]. unfold mint_key. intros k [Hk|Hk]%orb_true_iff.
  - by apply no_record_client.
  - rewrite eqb_eq in Hk. subst k. apply publication_no_record.
Qed.
Lemma frame_fill slots members minted :
  preserves (same_outside no_record_key) (fill_slots (W := W) slots members minted).
Proof.
  revert members minted. induction slots as [|slot slots IH]; intros members minted; cbn [fill_slots].
  { apply preserves_ret, _. }
  destruct (members !! slot) as [[m|]|]; [apply IH| |];
    (apply preserves_bind; [apply _|apply frame_mint|intros m; apply IH]).
Qed.
Lemma frame_restore : preserves (same_outside no_record_key) (restore_pool (W := W)).
Proof.
  unfold restore_pool. apply preserves_bind; [apply _| |intros members; apply frame_fill].
  apply preserves_mapM; [apply _|]. intros slot. unfold readPublicationSlot. solve_preserves.
Qed.
Lemma keeps_publish r0 : keeps (same_outbox r0) (publish_pool (W := W)).
Proof.
  assert (forall slot members claimable dead,
    keeps (same_outbox r0) (resubmit (W := W) slot members claimable dead)) as Hre.
  { intros slot members. revert slot. induction members as [|m ms IH]; intros slot claimable dead; cbn [resubmit];
      [apply keeps_ret|].
    apply keeps_bind; [apply keeps_attempt, keeps_relay_call|]. intros [a|e].
    - destruct (pa_claimable a); apply IH.
    - destruct (negb _); [apply keeps_throw|apply IH]. }
  assert (forall dead members minted claimable,
    keeps (same_outbox r0) (replace_dead (W := W) dead members minted claimable)) as Hdead.
  { induction dead as [|slot dead IH]; intros members minted claimable; cbn [replace_dead]; [apply keeps_ret|].
    apply keeps_bind; [|intros m; apply keeps_bind; [apply keeps_relay_call|intros a; apply IH]].
    unfold replacePublicationSlot. destruct (slot <? poolTarget)%nat; [|apply keeps_throw].
    apply frame_same_outbox, frame_mint. }
  unfold publish_pool. apply keeps_bind.
  { unfold restorePublicationPool. apply frame_same_outbox.
    apply preserves_bind; [apply _|apply frame_restore|intros p; apply preserves_ret, _]. }
  intros restored. apply keeps_bind; [apply Hre|]. intros [claimable dead].
  apply keeps_bind; [apply Hdead|]. intros [[members minted] claimable']. apply keeps_ret.
Qed.

(** The operations of the messenger. *)
Inductive outbound_operation : Type :=
  | OpSend (i : SendInput) | OpRetryPending | OpPublish | OpRotateBundle.
Definition run_outbound (op : outbound_operation) : Rt (W := W) unit :=
  match op with
  | OpSend i => send i;; ret tt
  | OpRetryPending => retryPending;; ret tt
  | OpPublish => publish;; ret tt
  | OpRotateBundle => rotateBundle
  end.

(** C5: a recorded message never changes.  From a store whose message records are filed
    under their own message, no operation of the messenger, whatever the relay and
    the native code answer and whether it succeeds or fails, ever loses a recorded
    message or changes its content hash or its envelope: at the end and at every
    commit on the way, what a crash would leave, each record is there, as it was or
    marked as delivered. *)
Theorem recorded_message_fixed op (s : env W) :
  outbox_wf (disk s) ->
  frozen (disk s) (disk (run_outbound op s).2)
  /\ exists new, commits (run_outbound op s).2 = commits s ++ new /\ Forall (frozen (disk s)) new.
Proof.
  intros Hwf. change (holds_from (frozen (disk s)) (run_outbound op) s).
  assert (forall A (m : Rt (W := W) A), holds_from (frozen (disk s)) m s ->
    holds_from (frozen (disk s)) (m;; ret tt) s) as Hret.
  { intros A m Hm. apply holds_bind; [done|]. intros a s1 _ Hs1. by apply holds_ret. }
  assert (frozen (disk s) (disk s)) as Hs by apply frozen_refl.
  assert (forall A (m : Rt (W := W) A), keeps (same_outbox (disk s)) m -> holds_from (frozen (disk s)) m s) as Hk.
  { intros A m Hm. eapply holds_weaken; [apply same_outbox_frozen|]. by apply holds_keeps. }
  destruct op as [i| | |]; cbn [run_outbound].
  - apply Hret. unfold send. destruct (_ || _); [by apply holds_throw|]. by apply holds_serial, frozen_sendOwned.
  - by apply Hret, frozen_retryPending.
  - apply Hret, holds_serial, Hk, keeps_publish.
  - apply holds_serial, Hret, Hk. unfold rotatePublicationBundle. apply frame_same_outbox, frame_mint.
Qed.
End recorded.

(** ** Lemmas: sending again *)

Section again.
Context {W : Type} `{Zod} `{World W} `{Native W} `{Crypto} `{Relay W}.

(** Only the record of one message may differ. *)
Definition only_record (id : jstr) (r r' : records) : Prop := forall k, k <> keyFor id -> get k r' = get k r.
Lemma only_record_same id r r' : (forall k, get k r' = get k r) -> only_record id r r'.
Proof. by intros Hs k _. Qed.

Lemma deliver_cases record (s : env W) :
  match deliver record s with
  | (Ok rc, s') => rc = receipt_of record /\ only_record (record_id record) (disk s) (disk s')
      /\ (get (keyFor (record_id record)) (disk s') = Some (json_encode (with_status delivered_status record))
          \/ field (js "status") record = Some (JStr delivered_status) /\ disk s' = disk s)
  | (Err _, s') => forall k, get k (disk s') = get k (disk s)
  end.
Proof.
  unfold deliver. destruct (bool_decide _) eqn:Ed.
  { apply bool_decide_eq_true in Ed. cbn. split; [done|]. split; [by intros ? ?|]. by right. }
  cbv zeta. fold (record_id record). unfold bind at 1.
  destruct (withRuntime _ s) as [[u|e] s1] eqn:E1; [|by apply transact_err in E1 as (-> & _)].
  assert (forall k, get k (disk s1) = get k (disk s)) as Hd1.
  { apply runtime_disk in E1 as (l & ad & w & w' & E1). intros k.
    apply bind_ok in E1 as (remote & s2 & Ha & E1). apply from_option_ok in Ha as [_ ->].
    apply bind_ok in E1 as (persisted & s2 & Hp & E1).
    pose proof (preserves_retry remote (record_id record) (disk s, w) k eq_refl) as Hp'. rewrite Hp in Hp'.
    destruct (eqb _ _); [|done]. by apply ret_ok in E1 as [_ <-]. }
  unfold bind at 1. pose proof (disk_call (sendEnvelope (sub_field (js "envelope") record)) s1) as Hd2.
  destruct (relay_call _ s1) as [[v|e] s2]; cbn [snd] in Hd2; [|intros k; by rewrite Hd2].
  unfold bind. destruct (withRuntime _ s2) as [[v'|e] s3] eqn:E3.
  - apply runtime_disk in E3 as (l & ad & w & w' & E3). apply tx_set_ok in E3. cbn [fst snd] in E3.
    injection E3 as E3 _. cbn [ret]. rewrite E3. split; [done|]. split.
    + intros k Hk. rewrite get_set_ne by congruence. by rewrite Hd2.
    + left. apply get_set_eq.
  - apply transact_err in E3 as (-> & _). intros k. by rewrite Hd2.
Qed.

(** A message id sent again is the recorded message or a conflict, never a second
    message.  When the store holds a record for the message id, [send] writes no
    record other than that message's: nothing is encrypted, claimed or added to the
    history again.  A record of other content makes it fail with the store
    unchanged; an answer is the receipt of the recorded envelope, and the record is
    then marked delivered. *)
Theorem resend_is_delivery i bs record (s : env W) :
  get (keyFor (si_messageId i)) (disk s) = Some bs -> json_decode bs = Some record -> truthy record = true ->
  match send i s with
  | (Ok rc, s') => rc = receipt_of record /\ only_record (record_id record) (disk s) (disk s')
      /\ field (js "contentHash") record = Some (JStr (content_digest i))
      /\ (get (keyFor (record_id record)) (disk s') = Some (json_encode (with_status delivered_status record))
          \/ field (js "status") record = Some (JStr delivered_status) /\ disk s' = disk s)
  | (Err e, s') => (forall k, get k (disk s') = get k (disk s))
  end.
Proof.
  intros Hg Hd Ht. unfold send. destruct (_ || _); [by intros k|].
  assert (match sendOwned i s with
    | (Ok rc, s') => rc = receipt_of record /\ only_record (record_id record) (disk s) (disk s')
        /\ field (js "contentHash") record = Some (JStr (content_digest i))
        /\ (get (keyFor (record_id record)) (disk s') = Some (json_encode (with_status delivered_status record))
            \/ field (js "status") record = Some (JStr delivered_status) /\ disk s' = disk s)
    | (Err e, s') => (forall k, get k (disk s') = get k (disk s)) end) as Hs.
  2:{ unfold serial, catch. destruct (sendOwned i s) as [[rc|e] s']; [done|]. by destruct e. }
  unfold sendOwned. cbv zeta. unfold bind at 1.
  destruct (withRuntime _ s) as [[prior|e] s1] eqn:E; [|by apply transact_err in E as (-> & _)].
  apply runtime_disk in E as (l & ad & w & w' & E). apply read_outbox_ok in E as [E Hp]. cbn [fst] in Hp.
  injection E as Hd1 _. rewrite Hg in Hp. assert (prior = record) as -> by congruence. rewrite Ht. unfold settle.
  destruct (bool_decide _) eqn:Ec; [|intros k; cbn; by rewrite Hd1]. apply bool_decide_eq_true in Ec.
  pose proof (deliver_cases record s1) as Hc. rewrite Hd1 in Hc.
  destruct (deliver record s1) as [[rc|e] s']; [|done]. by destruct Hc as (? & ? & ?).
Qed.
End again.

(** ** Lemmas: refusing before any request *)

Section local_refusal.
Context {W : Type} `{Zod} `{World W} `{Native W} `{Crypto}.

Lemma keeps_read_outbox r0 id : keeps (eq r0) (withRuntime (W := W) (fun _ _ => read_outbox id)).
Proof.
  apply keeps_transact. intros r w a r' w' <- E. apply runtime_ok in E as (l & ad & w1 & E).
  apply read_outbox_ok in E as [E _]. by injection E.
Qed.
Lemma keeps_listContacts r0 : keeps (eq r0) (listContacts (W := W)).
Proof.
  apply keeps_transact. intros r w a r' w' <- E. unfold list_contacts in E.
  apply bind_ok in E as (ks & s1 & Hk & E). unfold tx_keys, gets in Hk. injection Hk as <- <-.
  eapply (mapM_each _ (fun _ _ _ => True)) in E as [E _]; [by injection E|].
  intros key s y s' Hr. split; [|done]. unfold read_contact in Hr. apply bind_ok in Hr as (v & s2 & Hg & Hr).
  apply tx_get_ok in Hg as [-> ->]. apply bind_ok in Hr as (bs & s2 & Hv & Hr). apply from_option_ok in Hv as [_ ->].
  apply bind_ok in Hr as (j & s2 & Hd & Hr). apply from_option_ok in Hd as [_ ->].
  unfold lift in Hr. by injection Hr as _ <-.
Qed.
Lemma hasPublication_ok (s : env W) b s' :
  hasPublication s = (Ok b, s') -> disk s' = disk s /\ b = is_some (get publicationKey (disk s)).
Proof.
  unfold hasPublication. intros Hr. apply transact_ok in Hr as (w & w' & Hr & _).
  apply bind_ok in Hr as (v & s1 & Hg & Hr). apply tx_get_ok in Hg as [-> ->]. apply ret_ok in Hr as [<- E].
  injection E as <- _. split; [done|]. by destruct (get publicationKey (disk s)).
Qed.
Lemma keeps_hasPublication r0 : keeps (eq r0) (hasPublication (W := W)).
Proof.
  apply keeps_transact. intros r w a r' w' <- E. unfold bind, tx_get, gets in E. by injection E as _ <- _.
Qed.

(** A profile that never published spends nothing of its correspondent.  Without a
    record of the message and without a publication, [send] makes no request: with
    any two relays it behaves the same, it fails, and no record changes, not even for
    a moment; in particular no one-time prekey of the recipient is claimed. *)
Theorem unpublished_send_stays_local (R1 R2 : Relay W) i (s : env W) :
  get (keyFor (si_messageId i)) (disk s) = None -> get publicationKey (disk s) = None ->
  send (H3 := R1) i s = send (H3 := R2) i s
  /\ exists e s', send (H3 := R1) i s = (Err e, s') /\ stays (disk s) s s'.
Proof.
  intros Hg Hp. unfold send. destruct (_ || _).
  { split; [done|]. eexists _, _. split; [done|]. split; [done|]. exists []. by rewrite app_nil_r. }
  assert (sendOwned (H3 := R1) i s = sendOwned (H3 := R2) i s
    /\ exists e s', sendOwned (H3 := R1) i s = (Err e, s') /\ stays (disk s) s s') as [He (e & s' & Hr & Hs)].
  2:{ split; [unfold serial, catch; by rewrite He|]. unfold serial, catch. rewrite Hr.
      destruct e; eexists _, _; (split; [reflexivity|exact Hs]). }
  unfold sendOwned, bind. cbv zeta.
  destruct (withRuntime _ s) as [[prior|e] s1] eqn:E1;
    pose proof (keeps_stays _ _ _ _ (keeps_read_outbox _ _) E1) as H1'; pose proof H1' as [D1 _]; [|eauto 6].
  assert (prior = JNull) as ->.
  { apply runtime_disk in E1 as (l & ad & w & w' & E1). apply read_outbox_ok in E1 as [_ E1]. cbn [fst] in E1.
    by rewrite Hg in E1. }
  cbn [truthy].
  destruct (listContacts s1) as [[contacts|e] s2] eqn:E2;
    pose proof (keeps_stays _ _ _ _ (keeps_listContacts _) E2) as H2'; rewrite D1 in H2';
    pose proof (stays_trans _ _ _ _ D1 H1' H2') as H2''; pose proof H2' as [D2 _]; [|eauto 6].
  destruct (List.find _ contacts) as [contact|]; [|split; [done|]; eexists _, _; split; [reflexivity|exact H2'']].
  destruct (hasPublication s2) as [[b|e] s3] eqn:E3;
    pose proof (keeps_stays _ _ _ _ (keeps_hasPublication _) E3) as H3'; rewrite D2 in H3';
    pose proof (stays_trans _ _ _ _ D2 H2'' H3') as H3''; [|eauto 6].
  apply hasPublication_ok in E3 as [_ ->]. rewrite D2, Hp. cbn [is_some negb].
  split; [done|]. eexists _, _. split; [reflexivity|exact H3''].
Qed.
End local_refusal.

(** ** Lemmas: the first contact *)

Section first.
Context {W : Type} `{Zod} `{World W} `{Native W} `{Crypto} `{Relay W}.

(** The relay's answer for the claim [id] asked for in state [s], and the instant read right
    after it, which is the instant the bundle is judged at. *)
Definition answered_claim (contact : json) (id : jstr) (s : env W) (bundle : json) (at_ms : Z) (s' : env W) : Prop :=
  exists s1, relay_call (claimBundle id (contact_id contact) (Some (contact_device contact))) s = (Ok bundle, s1)
    /\ outside date_now s1 = (Ok at_ms, s').
(** The bundle has a one-time prekey and names what the contact is pinned as. *)
Definition matches_pin (contact bundle : json) : Prop :=
  let record := sub_field (js "device_record") bundle in
  sub_field (js "one_time_prekey") bundle <> JNull
  /\ sub_field (js "identity_id") record = sub_field (js "identity_id") contact
  /\ sub_field (js "device_id") record = sub_field (js "device_id") contact
  /\ sub_field (js "device_pubkey") record = sub_field (js "device_pubkey") contact
  /\ sub_field (js "signal_identity_key") bundle = sub_field (js "signal_identity_key") contact.
Definition inside_window (bundle : json) (at_ms : Z) : Prop :=
  num_field (js "created_at_ms") bundle <= at_ms < num_field (js "expires_at_ms") bundle.

(** The claim [id] asked for in [s] was answered with a bundle that matches the pin and was
    verified, inside its window, at the instant of the answer; [b] is what it decodes to. *)
Definition verified_claim (contact : json) (id : jstr) (s : env W) (b : prekey_bundle) (s' : env W) : Prop :=
  exists bundle at_ms address, answered_claim contact id s bundle at_ms s'
    /\ matches_pin contact bundle /\ inside_window bundle at_ms
    /\ importVerifiedSignalBundleV2 (W := W) bundle (contact_id contact) (contact_device contact) at_ms = Ok (address, b)
    /\ disk s' = disk s /\ commits s' = commits s.
(** The claim [id] was answered with a matching bundle outside its window; then the id [id'] was
    drawn and stored, in one commit, the only record changed. *)
Definition dead_claim (contact : json) (id : jstr) (s : env W) (id' : jstr) (s' : env W) : Prop :=
  exists bundle at_ms s1, answered_claim contact id s bundle at_ms s1
    /\ matches_pin contact bundle /\ ~ inside_window bundle at_ms
    /\ withRuntime (fun _ _ => new_claim contact) s1 = (Ok id', s')
    /\ zod_uuid id' = true
    /\ disk s' = set (claim_key contact) (json_encode (JStr id')) (disk s)
    /\ commits s' = commits s ++ [disk s'].

Lemma mismatched_false contact bundle : mismatched contact bundle = false -> matches_pin contact bundle.
Proof.
  unfold mismatched, matches_pin. cbv zeta. rewrite !orb_false_iff, !negb_false_iff, !eqb_eq, eqb_neq. tauto.
Qed.
Lemma outside_window_iff bundle at_ms : outside_window bundle at_ms = false <-> inside_window bundle at_ms.
Proof. unfold outside_window, inside_window. rewrite orb_false_iff, Z.ltb_ge, Z.leb_gt. done. Qed.
Lemma answered_still contact id (s : env W) bundle at_ms s' :
  answered_claim contact id s bundle at_ms s' -> disk s' = disk s /\ commits s' = commits s.
Proof.
  intros (s1 & Hc & Ho). unfold relay_call in Hc. destruct (claimBundle _ _ _ (world s)). injection Hc as _ <-.
  unfold outside in Ho. destruct (date_now _). by injection Ho as _ <-.
Qed.
Lemma new_claim_stored contact (s : env W) id s' :
  withRuntime (fun _ _ => new_claim contact) s = (Ok id, s') ->
  zod_uuid id = true /\ disk s' = set (claim_key contact) (json_encode (JStr id)) (disk s)
  /\ commits s' = commits s ++ [disk s'].
Proof.
  intros Hr. pose proof Hr as Hn. unfold withRuntime in Hr. apply transact_ok in Hr as (_ & _ & _ & Hc).
  apply runtime_disk in Hn as (l & ad & w & w' & Hn). unfold new_claim in Hn.
  apply bind_ok in Hn as (u & s4 & Hu & Hn). unfold world_call in Hu. cbn [fst snd] in Hu.
  destruct (randomUUID w). injection Hu as -> <-. destruct (zod_uuid u) eqn:Ez; [|done].
  apply bind_ok in Hn as (v & s5 & Hset & Hn). apply tx_set_ok in Hset as ->. apply ret_ok in Hn as [<- Hn].
  cbn [fst snd] in Hn. injection Hn as Hn _. split; [exact Ez|]. split; [by rewrite Hn|exact Hc].
Qed.

Lemma claim_once n contact id (s : env W) fc s' :
  claim_from n contact id s = (Ok fc, s') ->
  (fc_replaced fc = Nat.eqb n 0 /\ verified_claim contact id s (fc_bundle fc) s')
  \/ (exists m id' s1, n = S m /\ dead_claim contact id s id' s1 /\ claim_from m contact id' s1 = (Ok fc, s')).
Proof.
  intros Hr. assert (claim_from n contact id s =
    (bundle <- relay_call (claimBundle id (contact_id contact) (Some (contact_device contact)));
     at_ms <- outside date_now;
     if mismatched contact bundle then throw (outbound_error (js "CONTACT_PIN_MISMATCH"))
     else if outside_window bundle at_ms then
       match n with
       | O => throw (outbound_error (js "PREKEY_BUNDLE_EXPIRED"))
       | S m => id' <- withRuntime (fun _ _ => new_claim contact); claim_from m contact id'
       end
     else match importVerifiedSignalBundleV2 (W := W) bundle (contact_id contact) (contact_device contact) at_ms with
          | Ok verified => ret (FirstContact verified.2 (Nat.eqb n 0))
          | Err _ => throw (outbound_error (js "CONTACT_PIN_MISMATCH"))
          end) s) as E by by destruct n.
  rewrite E in Hr. clear E. apply bind_ok in Hr as (bundle & s1 & Hc & Hr).
  apply bind_ok in Hr as (at_ms & s2 & Ho & Hr).
  assert (answered_claim contact id s bundle at_ms s2) as Ha by (exists s1; exact (conj Hc Ho)).
  pose proof (answered_still _ _ _ _ _ _ Ha) as [Hd Hcm].
  destruct (mismatched contact bundle) eqn:Em; [done|]. apply mismatched_false in Em.
  destruct (outside_window bundle at_ms) eqn:Ew.
  - destruct n as [|m]; [done|]. right. apply bind_ok in Hr as (id' & s3 & Hn & Hr).
    exists m, id', s3. split; [done|]. split; [|exact Hr]. exists bundle, at_ms, s2.
    rewrite <- outside_window_iff, Ew, <- Hd, <- Hcm. split; [exact Ha|]. split; [exact Em|]. split; [done|].
    split; [exact Hn|]. exact (new_claim_stored _ _ _ _ Hn).
  - destruct (importVerifiedSignalBundleV2 _ _ _ _) as [[address b]|] eqn:Ei; [|done].
    apply ret_ok in Hr as [<- ->]. left. split; [done|]. exists bundle, at_ms, address.
    apply outside_window_iff in Ew. done.
Qed.

(** C25: a first contact is established with the bundle the relay answered for the
    claim that is on record, verified for the pinned device, and a dead claim is
    replaced once.  Without replacement, the relay answered the given claim id with a
    bundle that has a one-time prekey, names the pinned identity, device and keys, is
    inside its window at the instant of the answer and passed the verified import at
    that instant; what is answered is what that bundle decodes to, and nothing is
    written.  With it, the bundle answered for the given id matched the pin but was
    outside its window; then a fresh id was drawn and stored, as the only record
    changed and committed before anything else was asked; the second claim was made
    under that new id in the state after the commit, and its answer was matched and
    verified the same way.  There is never a third. *)
Theorem first_contact_verified contact id (s : env W) fc s' :
  claimFirstContact contact id s = (Ok fc, s') ->
  if fc_replaced fc
  then exists id' s2, dead_claim contact id s id' s2 /\ verified_claim contact id' s2 (fc_bundle fc) s'
  else verified_claim contact id s (fc_bundle fc) s'.
Proof.
  unfold claimFirstContact. intros Hr. apply claim_once in Hr as [(-> & Hv)|(m & id' & s1 & [= <-] & Hdead & Hr)].
  - exact Hv.
  - apply claim_once in Hr as [(-> & Hv)|(m & id2 & s2 & E & _)]; [|discriminate E].
    exists id', s1. exact (conj Hdead Hv).
Qed.
End first.

(** ** Witnesses *)

(** A check of [outbox_wf]. *)
Definition record_check (k : jstr) (r : records) : bool :=
  match get k r with
  | Some bs => match json_decode bs with
               | Some record => eqb (json_encode record) bs && json_ok record && truthy record
                                && eqb (keyFor (record_id record)) k
               | None => false
               end
  | None => true
  end.
Definition outbox_check (r : records) : bool := forallb (fun k => record_check k r) (keys_with outbox_prefix r).
Lemma outbox_check_wf r : outbox_check r = true -> outbox_wf r.
Proof.
  unfold outbox_check. intros Hc%forallb_Forall' id bs Hg. rewrite Forall_forall in Hc.
  assert (record_check (keyFor id) r = true) as Hk.
  { apply Hc, elem_of_keys_with. split; [apply keyFor_prefix|]. apply get_Some. by eexists. }
  unfold record_check in Hk. rewrite Hg in Hk. destruct (json_decode bs) as [record|]; [|done].
  rewrite !andb_true_iff, !eqb_eq in Hk. destruct Hk as [[[He Hj] Ht] Hi]. exists record.
  split; [done|]. split; [done|]. split; [done|]. by apply keyFor_inj in Hi.
Qed.

(** ** Witnesses *)
Module OutboundSample.
#[local] Existing Instances zod_example Toy.world_ops ToyNative.native Toy.crypto.
(** A profile with one contact, that has published. *)
Definition published : env Toy.world := Env (set publicationKey (json_encode JNull) (disk InboundSample.ready)) 50 [].
Definition relay : Relay Toy.world := {|
  createChallenge _ w := (Err relay_timeout, w);
  pollMailbox _ _ _ _ _ w := (Err relay_timeout, w);
  ackMailbox _ _ w := (Err relay_timeout, w);
  publishBundle _ w := (Err relay_timeout, w);
  claimBundle _ _ _ w := (Ok Sample.signed, w);
  sendEnvelope _ w := (Err relay_timeout, w);
|}.
Definition input (text : jstr) : SendInput := {| si_recipientIdentityId := Sample.identity_id;
  si_messageId := InboundSample.id 7; si_plaintext := text |}.
Definition sent : res err receipt * env Toy.world := send (H3 := relay) (input (js "hello")) published.
Definition contact : json := ok_or JNull (res_map (fun l => default_to JNull (l !! 0%nat)) (listContacts published).1).
Definition claimed : res err first_contact * env Toy.world := claimFirstContact (H3 := relay) contact (InboundSample.id 8) published.
Definition first : first_contact := ok_or (FirstContact (PreKeyBundle 0 0 None 0 [] [] [] 0 [] []) false) claimed.1.
End OutboundSample.

Lemma recorded_message_fixed_witness :
  frozen (disk OutboundSample.sent.2) (disk (run_outbound (H := zod_example) (H0 := Toy.world_ops)
    (H1 := ToyNative.native) (H2 := Toy.crypto) (H3 := OutboundSample.relay)
    (OpSend (OutboundSample.input (js "other"))) OutboundSample.sent.2).2).
Proof.
  refine (proj1 (recorded_message_fixed (H := zod_example) (H0 := Toy.world_ops) (H1 := ToyNative.native)
    (H2 := Toy.crypto) (H3 := OutboundSample.relay) (OpSend (OutboundSample.input (js "other"))) OutboundSample.sent.2 _)).
  apply outbox_check_wf. vm_compute. reflexivity.
Defined.
Lemma resend_is_delivery_witness : exists bs record,
  get (keyFor (InboundSample.id 7)) (disk OutboundSample.sent.2) = Some bs /\ json_decode bs = Some record
  /\ match send (H := zod_example) (H0 := Toy.world_ops) (H1 := ToyNative.native) (H2 := Toy.crypto)
             (H3 := OutboundSample.relay) (OutboundSample.input (js "other")) OutboundSample.sent.2 with
     | (Ok rc, s') => rc = receipt_of record
     | (Err e, s') => forall k, get k (disk s') = get k (disk OutboundSample.sent.2)
     end.
Proof.
  exists (default_to [] (get (keyFor (InboundSample.id 7)) (disk OutboundSample.sent.2))).
  exists (default_to JNull (json_decode (default_to [] (get (keyFor (InboundSample.id 7)) (disk OutboundSample.sent.2))))).
  split; [vm_compute; reflexivity|]. split; [vm_compute; reflexivity|].
  pose proof (resend_is_delivery (H := zod_example) (H0 := Toy.world_ops) (H1 := ToyNative.native) (H2 := Toy.crypto)
    (H3 := OutboundSample.relay) (OutboundSample.input (js "other"))
    (default_to [] (get (keyFor (InboundSample.id 7)) (disk OutboundSample.sent.2)))
    (default_to JNull (json_decode (default_to [] (get (keyFor (InboundSample.id 7)) (disk OutboundSample.sent.2)))))
    OutboundSample.sent.2 ltac:(vm_compute; reflexivity) ltac:(vm_compute; reflexivity) ltac:(vm_compute; reflexivity)) as Hr.
  destruct (send _ _) as [[rc|e] s']; [exact (proj1 Hr)|exact Hr].
Defined.
Lemma unpublished_send_stays_local_witness : exists e s',
  send (H := zod_example) (H0 := Toy.world_ops) (H1 := ToyNative.native) (H2 := Toy.crypto)
    (H3 := OutboundSample.relay) (OutboundSample.input (js "hello")) InboundSample.ready = (Err e, s').
Proof.
  destruct (unpublished_send_stays_local (H := zod_example) (H0 := Toy.world_ops) (H1 := ToyNative.native)
    (H2 := Toy.crypto) OutboundSample.relay InboundSample.relay (OutboundSample.input (js "hello")) InboundSample.ready)
    as [_ (e & s' & Hr & _)]; [vm_compute; reflexivity|vm_compute; reflexivity|].
  exists e, s'. exact Hr.
Defined.
Lemma first_contact_verified_witness :
  if fc_replaced OutboundSample.first
  then exists id' s2,
    dead_claim (H := zod_example) (H0 := Toy.world_ops) (H1 := ToyNative.native)
      (H3 := OutboundSample.relay) OutboundSample.contact (InboundSample.id 8) OutboundSample.published id' s2
    /\ verified_claim (H := zod_example) (H0 := Toy.world_ops) (H1 := ToyNative.native) (H2 := Toy.crypto)
         (H3 := OutboundSample.relay) OutboundSample.contact id' s2 (fc_bundle OutboundSample.first) OutboundSample.claimed.2
  else verified_claim (H := zod_example) (H0 := Toy.world_ops) (H1 := ToyNative.native) (H2 := Toy.crypto)
    (H3 := OutboundSample.relay) OutboundSample.contact (InboundSample.id 8) OutboundSample.published
    (fc_bundle OutboundSample.first) OutboundSample.claimed.2.
Proof.
  refine (first_contact_verified (H := zod_example) (H0 := Toy.world_ops) (H1 := ToyNative.native)
    (H2 := Toy.crypto) (H3 := OutboundSample.relay) OutboundSample.contact (InboundSample.id 8) OutboundSample.published
    OutboundSample.first OutboundSample.claimed.2 _). vm_compute. reflexivity.
Defined.
