(* ===== verification/Session.v ===== *)
(** * The bootstrap sessions: [packages/crypto-core/src/session] and [client-core/src/{sessions,messages}]

    Two devices derive mirrored chain keys from an X25519 agreement; every message
    is sealed under a key of its own, derived from the sending chain and the
    counter, and both chains advance.  Sessions are serialized as JSON and kept in
    a repository. *)

From stdpp Require Import relations.
From S2P Require Import Prelude JsString Json JsMap Zod Base64Url Platform WellFormed Effects.
From S2P Require Import Signal.

(** The part of tweetnacl the sessions use. *)
Class SessionCrypto := {
  scalarMult : bytes -> bytes -> bytes;
  secretbox : bytes -> bytes -> bytes -> bytes;
  secretbox_open : bytes -> bytes -> bytes -> option bytes;
}.
(** As documented: HMAC-SHA-256 answers 32 bytes; X25519 agrees, on keys of 32 bytes;
    a box opens under the nonce and key it was sealed with. *)
Class SessionLaws `{Crypto} `{SessionCrypto} := {
  hmac_bytes : forall k d, Forall byte_range (hmac_sha256 k d) /\ length (hmac_sha256 k d) = 32%nat;
  box_key_length : forall s public secret, box_keyPair_fromSecretKey s = Some (public, secret) ->
    length public = 32%nat /\ length secret = 32%nat;
  scalarMult_agrees : forall s t publicA secretA publicB secretB,
    box_keyPair_fromSecretKey s = Some (publicA, secretA) -> box_keyPair_fromSecretKey t = Some (publicB, secretB) ->
    scalarMult secretA publicB = scalarMult secretB publicA;
  secretbox_bytes : forall m n k, Forall byte_range m -> Forall byte_range (secretbox m n k);
  secretbox_opens : forall m n k, Forall byte_range m -> secretbox_open (secretbox m n k) n k = Some m;
}.

Section session.
Context `{Crypto} `{SessionCrypto}.

(** ** [session.ts]: key derivation *)

(** The rounds of [hkdf]; [i] wraps as an element of a [Uint8Array] does. *)
Fixpoint hkdf_rounds (fuel : nat) (wanted : nat) (prk info okm t : bytes) (i : Z) : bytes :=
  match fuel with
  | O => okm
  | S fuel =>
      if (length okm <? wanted)%nat then
        let i := i + 1 in
        let t := hmac_sha256 prk (t ++ info ++ [i mod 256]) in
        hkdf_rounds fuel wanted prk info (okm ++ t) t i
      else okm
  end.
Definition hkdf (input salt info : bytes) (wanted : nat) : bytes :=
  let prk := hmac_sha256 salt input in
  take wanted (hkdf_rounds wanted wanted prk info [] [] 0).
Definition zero_salt : bytes := replicate 32 0.
Definition assertKeyLength (key : bytes) (label : jstr) : res err unit :=
  if (length key =? 32)%nat then Ok tt
  else Err (ErrOther (label ++ js " must be 32 bytes for X25519 session bootstrap")).
Definition deriveRootKey (sharedSecret : bytes) : bytes :=
  hkdf sharedSecret zero_salt (utf8_encode (js "Echolet_Root")) 32.
Definition initiator_to_recipient : jstr := js "initiator->recipient".
Definition recipient_to_initiator : jstr := js "recipient->initiator".
Definition deriveDirectionalChainKey (rootKey : bytes) (direction : jstr) : bytes :=
  hkdf rootKey zero_salt (utf8_encode (js "Echolet_Chain:" ++ direction)) 32.
Definition deriveMessageKeyMaterial (chainKey : bytes) (counter : Z) : bytes * bytes :=
  let material := hkdf chainKey zero_salt (utf8_encode (js "Echolet_Message:" ++ show_Z counter)) 56 in
  (take 32 material, take 24 (drop 32 material)).
Definition rotateChainKey (chainKey : bytes) : bytes :=
  hkdf chainKey zero_salt (utf8_encode (js "Echolet_Chain:next")) 32.

(** ** [sessionKeys.ts]: the state of a session *)

Record SessionState := {
  sessionId : jstr; localIdentityId : jstr; localDeviceId : jstr;
  remoteIdentityId : jstr; remoteDeviceId : jstr;
  sendingChainKey : jstr; receivingChainKey : option jstr; rootKey : jstr; counter : Z;
}.
Definition session_json (s : SessionState) : json :=
  JObj ([ (js "sessionId", JStr (sessionId s)); (js "localIdentityId", JStr (localIdentityId s));
          (js "localDeviceId", JStr (localDeviceId s)); (js "remoteIdentityId", JStr (remoteIdentityId s));
          (js "remoteDeviceId", JStr (remoteDeviceId s)); (js "sendingChainKey", JStr (sendingChainKey s)) ]
        ++ match receivingChainKey s with Some k => [(js "receivingChainKey", JStr k)] | None => [] end
        ++ [ (js "rootKey", JStr (rootKey s)); (js "counter", JNum (counter s)) ]).
Definition serializeSessionState (s : SessionState) : jstr := stringify (session_json s).
(** The parsed value seen as a session: the code casts it, without a check. *)
Definition session_of (v : json) : SessionState := {|
  sessionId := str_field (js "sessionId") v; localIdentityId := str_field (js "localIdentityId") v;
  localDeviceId := str_field (js "localDeviceId") v; remoteIdentityId := str_field (js "remoteIdentityId") v;
  remoteDeviceId := str_field (js "remoteDeviceId") v; sendingChainKey := str_field (js "sendingChainKey") v;
  receivingChainKey := match field (js "receivingChainKey") v with Some (JStr k) => Some k | _ => None end;
  rootKey := str_field (js "rootKey") v; counter := num_field (js "counter") v |}.
Definition deserializeSessionState (serialized : jstr) : res err SessionState :=
  res_map session_of (of_option (ErrOther (js "SyntaxError")) (parse serialized)).
Definition serializeSession : SessionState -> jstr := serializeSessionState.
Definition deserializeSession : jstr -> res err SessionState := deserializeSessionState.

(** ** [session.ts]: opening a session, at the instant [now] *)

Definition createOutboundSession (local_identity local_device remote_identity remote_device : jstr)
    (remotePreKey localIdentityKey : bytes) (now : Z) : res err (SessionState * jstr) :=
  res_bind (assertKeyLength remotePreKey (js "remotePreKey")) (fun _ =>
  res_bind (assertKeyLength localIdentityKey (js "localIdentityKey")) (fun _ =>
  let rootKeyMaterial := deriveRootKey (scalarMult localIdentityKey remotePreKey) in
  Ok ({| sessionId := local_device ++ js ":" ++ remote_device ++ js ":" ++ show_Z now;
         localIdentityId := local_identity; localDeviceId := local_device;
         remoteIdentityId := remote_identity; remoteDeviceId := remote_device;
         sendingChainKey := encodeBase64Url (deriveDirectionalChainKey rootKeyMaterial initiator_to_recipient);
         receivingChainKey := Some (encodeBase64Url (deriveDirectionalChainKey rootKeyMaterial recipient_to_initiator));
         rootKey := encodeBase64Url rootKeyMaterial; counter := 0 |}, []))).
Definition createInboundSession (local_identity local_device remote_identity remote_device : jstr)
    (localPreKey remoteIdentityKey : bytes) (now : Z) : res err SessionState :=
  res_bind (assertKeyLength localPreKey (js "localPreKey")) (fun _ =>
  res_bind (assertKeyLength remoteIdentityKey (js "remoteIdentityKey")) (fun _ =>
  let rootKeyMaterial := deriveRootKey (scalarMult localPreKey remoteIdentityKey) in
  Ok {| sessionId := remote_device ++ js ":" ++ local_device ++ js ":" ++ show_Z now;
        localIdentityId := local_identity; localDeviceId := local_device;
        remoteIdentityId := remote_identity; remoteDeviceId := remote_device;
        sendingChainKey := encodeBase64Url (deriveDirectionalChainKey rootKeyMaterial recipient_to_initiator);
        receivingChainKey := Some (encodeBase64Url (deriveDirectionalChainKey rootKeyMaterial initiator_to_recipient));
        rootKey := encodeBase64Url rootKeyMaterial; counter := 0 |})).

(** ** [session.ts]: messages *)

Definition EncryptedPayload (counter : Z) (ciphertext : jstr) : json :=
  JObj [ (js "v", JNum 1); (js "counter", JNum counter); (js "ciphertext", JStr ciphertext) ].
Definition after_sending (s : SessionState) (chainKey : bytes) : SessionState := {|
  sessionId := sessionId s; localIdentityId := localIdentityId s; localDeviceId := localDeviceId s;
  remoteIdentityId := remoteIdentityId s; remoteDeviceId := remoteDeviceId s;
  sendingChainKey := encodeBase64Url (rotateChainKey chainKey);
  receivingChainKey := receivingChainKey s; rootKey := rootKey s; counter := counter s + 1 |}.
Definition after_receiving (s : SessionState) (chainKey : bytes) : SessionState := {|
  sessionId := sessionId s; localIdentityId := localIdentityId s; localDeviceId := localDeviceId s;
  remoteIdentityId := remoteIdentityId s; remoteDeviceId := remoteDeviceId s;
  sendingChainKey := sendingChainKey s;
  receivingChainKey := Some (encodeBase64Url (rotateChainKey chainKey));
  rootKey := rootKey s; counter := counter s + 1 |}.

Definition invalid_base64 : err := ErrOther (js "InvalidCharacterError").
Definition encryptMessage (s : SessionState) (plaintext : jstr) : res err (jstr * SessionState) :=
  res_bind (of_option invalid_base64 (decodeBase64Url (sendingChainKey s))) (fun currentChainKey =>
  let '(messageKey, nonce) := deriveMessageKeyMaterial currentChainKey (counter s) in
  let ciphertextBytes := secretbox (utf8_encode plaintext) nonce messageKey in
  Ok (stringify (EncryptedPayload (counter s) (encodeBase64Url ciphertextBytes)), after_sending s currentChainKey)).
Definition decryptMessage (s : SessionState) (ciphertext : jstr) : res err (jstr * SessionState) :=
  res_bind (of_option (ErrOther (js "SyntaxError")) (parse ciphertext)) (fun payload =>
  if eqb payload JNull then Err (ErrOther (js "TypeError"))
  else if negb (bool_decide (field (js "v") payload = Some (JNum 1)))
  then Err (ErrOther (js "unsupported ciphertext version"))
  else
  res_bind (of_option invalid_base64
    (decodeBase64Url (default_to (sendingChainKey s) (receivingChainKey s)))) (fun currentChainKey =>
  if negb (bool_decide (field (js "counter") payload = Some (JNum (counter s))))
  then Err (ErrOther (js "unexpected message counter"))
  else
  let '(messageKey, nonce) := deriveMessageKeyMaterial currentChainKey (counter s) in
  res_bind (match field (js "ciphertext") payload with
            | Some (JStr c) => of_option invalid_base64 (decodeBase64Url c)
            | _ => Err (ErrOther (js "TypeError"))
            end) (fun sealed =>
  match secretbox_open sealed nonce messageKey with
  | None => Err (ErrOther (js "failed to decrypt message"))
  | Some plaintextBytes => Ok (text_decode plaintextBytes, after_receiving s currentChainKey)
  end))).

(** ** [client-core/src/messages/encryption.ts] *)

Definition encryptOutgoingMessage (s : SessionState) (message : json) : res err (jstr * SessionState) :=
  encryptMessage s (stringify message).
Definition decryptIncomingEnvelope (s : SessionState) (ciphertext : jstr) : res err (json * SessionState) :=
  res_bind (decryptMessage s ciphertext) (fun r =>
  res_bind (of_option (ErrOther (js "SyntaxError")) (parse r.1)) (fun message => Ok (message, r.2))).
End session.

(** ** [client-core/src/sessions/sessions.ts]: the sessions in their repository

    The repository is an interface; [W] is the state of its implementation. *)
Class SessionsRepository (W : Type) := {
  getByDevicePair : jstr -> jstr -> M W (option SessionState);
  insert : SessionState -> M W unit;
  update : SessionState -> M W unit;
}.
Section repository.
Context {W : Type} `{Crypto} `{SessionCrypto} `{World W} `{SessionsRepository W}.

Definition date : M W Z := fun w => let '(now, w) := date_now w in (Ok now, w).
Definition openOutboundSession (local_identity local_device remote_identity remote_device : jstr)
    (remotePreKey localIdentityKey : bytes) : M W SessionState :=
  now <- date;
  created <- lift (createOutboundSession local_identity local_device remote_identity remote_device
                     remotePreKey localIdentityKey now);
  insert created.1;;
  ret created.1.
Definition openInboundSession (local_identity local_device remote_identity remote_device : jstr)
    (localPreKey remoteIdentityKey : bytes) : M W SessionState :=
  now <- date;
  created <- lift (createInboundSession local_identity local_device remote_identity remote_device
                     localPreKey remoteIdentityKey now);
  insert created;;
  ret created.
Definition loadSession (local_device remote_device : jstr) : M W (option SessionState) :=
  getByDevicePair local_device remote_device.
Definition saveSession (s : SessionState) : M W unit := update s.
End repository.

(** ** Lemmas: key derivation *)

Section derivation.
Context `{SessionLaws}.

Lemma hkdf_rounds_enough fuel wanted prk info okm t i :
  (wanted <= length okm + 32 * fuel)%nat -> Forall byte_range okm ->
  (wanted <= length (hkdf_rounds fuel wanted prk info okm t i))%nat
  /\ Forall byte_range (hkdf_rounds fuel wanted prk info okm t i).
Proof.
  revert okm t i. induction fuel as [|fuel IH]; intros okm t i Hf Hb; cbn [hkdf_rounds]; [split; [lia|done]|].
  destruct (length okm <? wanted)%nat eqn:E; [|apply Nat.ltb_ge in E; done]. cbv zeta.
  destruct (hmac_bytes prk (t ++ info ++ [(i + 1) mod 256])) as [Hh Hl]. apply IH.
  - rewrite length_app, Hl. lia.
  - by apply Forall_app.
Qed.
(** Once enough bytes are there, more fuel changes nothing. *)
Lemma hkdf_rounds_fuel fuel fuel' wanted prk info okm t i :
  (wanted <= length okm + 32 * fuel)%nat -> (fuel <= fuel')%nat ->
  hkdf_rounds fuel' wanted prk info okm t i = hkdf_rounds fuel wanted prk info okm t i.
Proof.
  revert fuel' okm t i. induction fuel as [|fuel IH]; intros fuel' okm t i Hf Hle.
  - destruct fuel' as [|fuel']; [done|]. cbn [hkdf_rounds].
    destruct (length okm <? wanted)%nat eqn:E; [apply Nat.ltb_lt in E; lia|done].
  - destruct fuel' as [|fuel']; [lia|]. cbn [hkdf_rounds]. destruct (length okm <? wanted)%nat; [|done]. cbv zeta.
    apply IH; [|lia]. destruct (hmac_bytes prk (t ++ info ++ [(i + 1) mod 256])) as [_ Hl].
    rewrite length_app, Hl. lia.
Qed.

(** Key derivation ends and answers exactly the bytes asked for.  The loop of
    [hkdf] is over after one round for every 32 bytes wanted, so any greater number
    of rounds allowed gives the same result, and that is a string of [wanted] bytes. *)
Theorem hkdf_total input salt info wanted :
  length (hkdf input salt info wanted) = wanted /\ Forall byte_range (hkdf input salt info wanted)
  /\ forall fuel, (wanted <= 32 * fuel)%nat ->
       take wanted (hkdf_rounds fuel wanted (hmac_sha256 salt input) info [] [] 0) = hkdf input salt info wanted.
Proof.
  unfold hkdf. cbv zeta.
  destruct (hkdf_rounds_enough wanted wanted (hmac_sha256 salt input) info [] [] 0) as [Hl Hb];
    [cbn; lia|apply List.Forall_nil|].
  split; [rewrite length_take; lia|]. split; [by apply Forall_take|]. intros fuel Hf. f_equal.
  destruct (Nat.le_ge_cases fuel wanted) as [Hle|Hge].
  - symmetry. by apply hkdf_rounds_fuel; [cbn; lia|].
  - by apply hkdf_rounds_fuel; [cbn; lia|].
Qed.
Lemma hkdf_bytes input salt info wanted : Forall byte_range (hkdf input salt info wanted).
Proof.
  unfold hkdf. cbv zeta. apply Forall_take.
  destruct (hkdf_rounds_enough wanted wanted (hmac_sha256 salt input) info [] [] 0) as [_ Hb];
    [cbn; lia|apply List.Forall_nil|done].
Qed.
End derivation.

(** ** Lemmas: text through the decoder *)

(** What [TextDecoder] gives back unchanged: it drops a leading byte-order mark. *)
Definition readable (t : jstr) : bool := well_formed t && match t with u :: _ => negb (u =? 0xFEFF) | [] => true end.
Lemma text_decode_readable t : readable t = true -> text_decode (utf8_encode t) = t.
Proof.
  intros [Hw Hb]%andb_true_iff. pose proof (utf8_to_string_encode t Hw) as Ht. unfold text_decode, strip_bom.
  destruct (utf8_encode t) as [|b0 [|b1 [|b2 r]]] eqn:E; [done..|].
  destruct (_ && _) eqn:Eb; [exfalso|by rewrite <- E in Ht |- *]. bool_to_prop. subst b0 b1 b2.
  assert (utf8_to_string (239 :: 187 :: 191 :: r) = 65279 :: utf8_to_string r) as E' by reflexivity.
  rewrite <- Ht, E' in Hb. discriminate Hb.
Qed.
Lemma point_scalar p : point_ok p -> scalar_ok (if is_lone p then 0xFFFD else point_value p) = true.
Proof.
  intros [(u & -> & Hu)|(u & v & -> & Hs & Hu & Hv)].
  - cbn [is_lone point_value]. destruct (is_surrogate u) eqn:E; [reflexivity|]. unfold scalar_ok. rewrite E.
    unfold unit_ok in Hu. rewrite !andb_true_iff, !Z.leb_le in Hu. rewrite !andb_true_iff, !Z.leb_le. lia.
  - cbn [is_lone point_value]. unfold is_high, is_low, unit_ok in *. rewrite !andb_true_iff, !Z.leb_le in *.
    unfold scalar_ok, is_surrogate. rewrite !andb_true_iff, negb_true_iff, andb_false_iff, !Z.leb_le, !Z.leb_gt. lia.
Qed.
Lemma utf8_encode_bytes t : forallb unit_ok t = true -> Forall byte_range (utf8_encode t).
Proof.
  intros Ht%code_points_ok. unfold utf8_encode. induction Ht as [|p ps Hp Hps IH]; [apply List.Forall_nil|].
  cbn [flat_map]. apply Forall_app. split; [|done].
  pose proof (utf8_scalar_bytes _ (point_scalar p Hp)) as Hb. apply forallb_Forall' in Hb.
  eapply Forall_impl; [exact Hb|]. intros b. unfold byte_ok, byte_range. intros; bool_to_prop; lia.
Qed.

(** ** Lemmas: two ends of one direction *)

Section conversation.
Context `{SessionLaws}.

(** What one end sends the other can read next: the same chain key at the same count. *)
Definition in_step (x y : SessionState) : Prop := exists k, Forall byte_range k
  /\ sendingChainKey x = encodeBase64Url k /\ receivingChainKey y = Some (encodeBase64Url k)
  /\ counter x = counter y.

Lemma encode_units bs : Forall byte_range bs -> forallb unit_ok (encodeBase64Url bs) = true.
Proof.
  intros Hb. rewrite encode_chars by done. apply forallb_Forall', Forall_map.
  eapply Forall_impl; [by apply sextets_ok|]. intros v Hv. apply url_char_facts in Hv as (_ & _ & _ & Hu & _).
  unfold url_unit in Hu. unfold unit_ok. rewrite !orb_true_iff, !andb_true_iff, !Z.leb_le, !Z.eqb_eq in *. lia.
Qed.
Lemma payload_ok c t : forallb unit_ok t = true -> json_ok (EncryptedPayload c t) = true.
Proof.
  intros Ht. unfold EncryptedPayload. apply (proj2 (andb_true_iff _ _)).
  split; [vm_compute; reflexivity|]. cbn [forallb snd json_ok]. by rewrite Ht.
Qed.
Lemma one_message x y t :
  in_step x y -> readable t = true -> exists c x' y',
    encryptMessage x t = Ok (c, x') /\ decryptMessage y c = Ok (t, y') /\ in_step x' y'
    /\ x' = after_sending x (default_to [] (decodeBase64Url (sendingChainKey x)))
    /\ counter y' = counter y + 1.
Proof.
  intros (k & Hk & Hx & Hy & Hc) Ht. unfold encryptMessage. rewrite Hx, decode_encode by done. cbn [of_option res_bind].
  destruct (deriveMessageKeyMaterial k (counter x)) as [key nonce] eqn:Em.
  set (sealed := secretbox (utf8_encode t) nonce key).
  assert (Forall byte_range (utf8_encode t)) as Hu.
  { apply utf8_encode_bytes, well_formed_units. by apply andb_true_iff in Ht as [? _]. }
  assert (Forall byte_range sealed) as Hs by (by apply secretbox_bytes).
  eexists _, _, (after_receiving y k). split; [reflexivity|]. split; [|split; [|by split]].
  - unfold decryptMessage. rewrite parse_stringify by (by apply payload_ok, encode_units). cbn [of_option res_bind].
    change (eqb (EncryptedPayload (counter x) (encodeBase64Url sealed)) JNull) with false. cbv iota.
    unfold EncryptedPayload. eval_object. rewrite bool_decide_eq_true_2 by done. cbn [negb].
    rewrite Hy. cbn [default_to]. rewrite decode_encode by done. cbn [of_option res_bind].
    rewrite Hc, bool_decide_eq_true_2 by done. cbn [negb]. rewrite <- Hc, Em, decode_encode by done.
    cbn [of_option res_bind]. unfold sealed. rewrite secretbox_opens by done.
    by rewrite text_decode_readable.
  - exists (rotateChainKey k). split; [apply hkdf_bytes|]. split; [done|]. split; [done|]. cbn. by rewrite Hc.
Qed.

(** *** Sessions as they are stored *)
Definition session_texts (s : SessionState) : list jstr :=
  [ sessionId s; localIdentityId s; localDeviceId s; remoteIdentityId s; remoteDeviceId s; sendingChainKey s;
    default_to [] (receivingChainKey s); rootKey s ].
Definition session_ok (s : SessionState) : Prop := Forall (fun t => forallb unit_ok t = true) (session_texts s).
Lemma session_json_ok s : session_ok s -> json_ok (session_json s) = true.
Proof.
  unfold session_ok, session_texts. rewrite !Forall_cons. intros (H1' & H2' & H3' & H4' & H5' & H6' & H7' & H8' & _).
  unfold session_json. destruct (receivingChainKey s) as [k|]; cbn [app default_to] in *;
    (apply (proj2 (andb_true_iff _ _)); split; [vm_compute; reflexivity|]); cbn [forallb snd json_ok];
    by rewrite ?H1', ?H2', ?H3', ?H4', ?H5', ?H6', ?H7', ?H8'.
Qed.
Lemma session_restored s : session_ok s -> deserializeSession (serializeSession s) = Ok s.
Proof.
  intros Hs. unfold deserializeSession, deserializeSessionState, serializeSession, serializeSessionState.
  rewrite parse_stringify by by apply session_json_ok. cbn [of_option res_map].
  unfold session_json, session_of, str_field, num_field. f_equal.
  destruct s as [? ? ? ? ? ? [k|] ? ?]; cbn [sessionId localIdentityId localDeviceId remoteIdentityId remoteDeviceId
    sendingChainKey receivingChainKey rootKey counter app]; eval_object; reflexivity.
Qed.

(** *** A conversation: each message is read before the next is sent

    [true] is a message from the first end to the second.  After every message both
    ends store their session and load it again. *)
Definition one_turn (x y : SessionState) (t : jstr) : res err (jstr * (SessionState * SessionState)) :=
  res_bind (encryptMessage x t) (fun sent =>
  res_bind (deserializeSession (serializeSession sent.2)) (fun x' =>
  res_bind (decryptMessage y sent.1) (fun read =>
  res_bind (deserializeSession (serializeSession read.2)) (fun y' => Ok (read.1, (x', y')))))).
Fixpoint converse (x y : SessionState) (turns : list (bool * jstr)) : res err (list jstr * (SessionState * SessionState)) :=
  match turns with
  | [] => Ok ([], (x, y))
  | (true, t) :: turns => res_bind (one_turn x y t) (fun r =>
      res_bind (converse r.2.1 r.2.2 turns) (fun rest => Ok (r.1 :: rest.1, rest.2)))
  | (false, t) :: turns => res_bind (one_turn y x t) (fun r =>
      res_bind (converse r.2.2 r.2.1 turns) (fun rest => Ok (r.1 :: rest.1, rest.2)))
  end.
Definition paired (x y : SessionState) : Prop := in_step x y /\ in_step y x /\ session_ok x /\ session_ok y.

Lemma session_ok_chain s s' k : session_ok s -> Forall byte_range k ->
  session_texts s' = <[5%nat := encodeBase64Url k]> (session_texts s)
  \/ session_texts s' = <[6%nat := encodeBase64Url k]> (session_texts s) -> session_ok s'.
Proof.
  intros Hs Hk [E|E]; unfold session_ok; rewrite E; (apply Forall_insert; [exact Hs|by apply encode_units]).
Qed.
Lemma paired_turn x y t :
  paired x y -> readable t = true -> exists x' y', one_turn x y t = Ok (t, (x', y')) /\ paired x' y'.
Proof.
  intros (Hxy & Hyx & Hx & Hy) Ht. pose proof Hxy as (k & Hk & Ek & Er & Ec).
  assert (exists c, encryptMessage x t = Ok (c, after_sending x k) /\ decryptMessage y c = Ok (t, after_receiving y k))
    as (c & He & Hd).
  { destruct (one_message x y t Hxy Ht) as (c & x1 & y1 & He & Hd & _ & -> & _). exists c.
    rewrite Ek, decode_encode in He by done. split; [done|]. rewrite Hd. do 2 f_equal.
    unfold decryptMessage in Hd. destruct (parse c) as [p|]; [|done]. cbn [of_option res_bind] in Hd.
    destruct (eqb p JNull); [done|]. destruct (negb _); [done|]. rewrite Er in Hd. cbn [default_to] in Hd.
    rewrite decode_encode in Hd by done. cbn [of_option res_bind] in Hd. destruct (negb _); [done|].
    destruct (deriveMessageKeyMaterial k (counter y)) as [key nonce]. destruct (match field (js "ciphertext") p with Some (JStr _) => _ | _ => _ end) as [sealed|];
      [|done]. cbn [res_bind] in Hd. destruct (secretbox_open sealed nonce key); [|done]. by injection Hd as _ <-. }
  assert (session_ok (after_sending x k)) as Hx'.
  { apply (session_ok_chain x _ (rotateChainKey k) Hx); [apply hkdf_bytes|]. by left. }
  assert (session_ok (after_receiving y k)) as Hy'.
  { apply (session_ok_chain y _ (rotateChainKey k) Hy); [apply hkdf_bytes|]. by right. }
  exists (after_sending x k), (after_receiving y k). split.
  - unfold one_turn. rewrite He. cbn [res_bind fst snd]. rewrite session_restored by done. cbn [res_bind].
    rewrite Hd. cbn [res_bind fst snd]. by rewrite session_restored.
  - split; [|split; [|by split]].
    + exists (rotateChainKey k). split; [apply hkdf_bytes|]. split; [done|]. split; [done|]. cbn. by rewrite Ec.
    + destruct Hyx as (k' & Hk' & E1 & E2 & E3). exists k'. split; [done|]. split; [exact E1|]. split; [exact E2|].
      cbn. by rewrite E3.
Qed.
Lemma paired_sym x y : paired x y -> paired y x.
Proof. unfold paired. tauto. Qed.
Lemma paired_converse turns x y :
  paired x y -> Forall (fun t => readable t.2 = true) turns ->
  exists x' y', converse x y turns = Ok (turns.*2, (x', y')) /\ paired x' y'.
Proof.
  revert x y. induction turns as [|[d t] turns IH]; intros x y Hp Ht; [by exists x, y|].
  apply Forall_cons in Ht as [Ht Hts]. cbn [snd] in Ht. destruct d; cbn [converse].
  - destruct (paired_turn x y t Hp Ht) as (x1 & y1 & E & Hp1). rewrite E. cbn [res_bind fst snd].
    destruct (IH x1 y1 Hp1 Hts) as (x' & y' & E' & Hp'). rewrite E'. by exists x', y'.
  - destruct (paired_turn y x t (paired_sym _ _ Hp) Ht) as (y1 & x1 & E & Hp1). rewrite E. cbn [res_bind fst snd].
    destruct (IH x1 y1 (paired_sym _ _ Hp1) Hts) as (x' & y' & E' & Hp'). rewrite E'. by exists x', y'.
Qed.

(** What the two constructors make of one agreement. *)
Lemma fresh_paired li ld ri rd A a B b x y now now' seedA seedB c :
  box_keyPair_fromSecretKey seedA = Some (A, a) -> box_keyPair_fromSecretKey seedB = Some (B, b) ->
  Forall (fun t => forallb unit_ok t = true) [li; ld; ri; rd] ->
  createOutboundSession li ld ri rd B a now = Ok (x, c) -> createInboundSession ri rd li ld b A now' = Ok y ->
  paired x y.
Proof.
  intros HA HB. rewrite !Forall_cons. intros (H1' & H2' & H3' & H4' & _).
  unfold createOutboundSession, createInboundSession.
  destruct (box_key_length _ _ _ HA) as [LA La], (box_key_length _ _ _ HB) as [LB Lb].
  unfold assertKeyLength. rewrite LA, La, LB, Lb. cbn [Nat.eqb res_bind]. rewrite (scalarMult_agrees _ _ _ _ _ _ HA HB).
  intros [= <- _] [= <-]. set (root := deriveRootKey _).
  assert (forall z, forallb unit_ok (show_Z z) = true) as Hz by (intros z; apply well_formed_units, show_Z_well_formed).
  assert (forall p q z, forallb unit_ok p = true -> forallb unit_ok q = true ->
    forallb unit_ok (p ++ js ":" ++ q ++ js ":" ++ show_Z z) = true) as Hid.
  { intros p q z Hp Hq. rewrite !forallb_app, Hp, Hq, Hz. vm_compute. reflexivity. }
  assert (forall d, Forall byte_range (deriveDirectionalChainKey root d)) as Hd by (intros d; apply hkdf_bytes).
  assert (Forall byte_range root) as Hr by apply hkdf_bytes.
  split; [|split; [|split]].
  - exists (deriveDirectionalChainKey root initiator_to_recipient). split; [exact (Hd _)|].
    cbn [sendingChainKey receivingChainKey counter]. exact (conj eq_refl (conj eq_refl eq_refl)).
  - exists (deriveDirectionalChainKey root recipient_to_initiator). split; [exact (Hd _)|].
    cbn [sendingChainKey receivingChainKey counter]. exact (conj eq_refl (conj eq_refl eq_refl)).
  - unfold session_ok, session_texts.
    exact (Forall_cons_2 _ _ _ (Hid ld rd _ H2' H4')
      (Forall_cons_2 _ _ _ H1' (Forall_cons_2 _ _ _ H2' (Forall_cons_2 _ _ _ H3' (Forall_cons_2 _ _ _ H4'
      (Forall_cons_2 _ _ _ (encode_units _ (Hd _)) (Forall_cons_2 _ _ _ (encode_units _ (Hd _))
      (Forall_cons_2 _ _ _ (encode_units _ Hr) (List.Forall_nil _))))))))).
  - unfold session_ok, session_texts.
    exact (Forall_cons_2 _ _ _ (Hid ld rd _ H2' H4')
      (Forall_cons_2 _ _ _ H3' (Forall_cons_2 _ _ _ H4' (Forall_cons_2 _ _ _ H1' (Forall_cons_2 _ _ _ H2'
      (Forall_cons_2 _ _ _ (encode_units _ (Hd _)) (Forall_cons_2 _ _ _ (encode_units _ (Hd _))
      (Forall_cons_2 _ _ _ (encode_units _ Hr) (List.Forall_nil _))))))))).
Qed.

(** C18: two devices can talk.  When one opens an outbound session with the other's
    prekey and the other an inbound one with the first's identity key, every
    conversation in which each message is read before the next one is sent, in
    either direction and for any readable texts, delivers exactly the texts sent,
    although both ends serialize their session and load it back after every message. *)
Theorem session_conversation li ld ri rd A a B b x y now now' seedA seedB c turns :
  box_keyPair_fromSecretKey seedA = Some (A, a) -> box_keyPair_fromSecretKey seedB = Some (B, b) ->
  Forall (fun t => forallb unit_ok t = true) [li; ld; ri; rd] ->
  createOutboundSession li ld ri rd B a now = Ok (x, c) -> createInboundSession ri rd li ld b A now' = Ok y ->
  Forall (fun t => readable t.2 = true) turns ->
  exists x' y', converse x y turns = Ok (turns.*2, (x', y')).
Proof.
  intros HA HB Hu Hx Hy Ht. destruct (paired_converse turns x y) as (x' & y' & E & _); [|exact Ht|by exists x', y'].
  exact (fresh_paired _ _ _ _ _ _ _ _ _ _ _ _ _ _ _ HA HB Hu Hx Hy).
Qed.

(** What an answered decryption says of the message and of the session. *)
Lemma decrypt_count s c t s' :
  decryptMessage s c = Ok (t, s') -> exists payload, parse c = Some payload
    /\ field (js "counter") payload = Some (JNum (counter s)) /\ counter s' = counter s + 1.
Proof.
  unfold decryptMessage. destruct (parse c) as [p|]; [|done]. cbn [of_option res_bind].
  destruct (eqb p JNull); [done|]. destruct (negb _); [done|]. destruct (decodeBase64Url _) as [k|]; [|done].
  cbn [of_option res_bind]. destruct (bool_decide _) eqn:Ec; [|done]. cbn [negb]. apply bool_decide_eq_true in Ec.
  destruct (deriveMessageKeyMaterial k (counter s)) as [key nonce].
  destruct (match field (js "ciphertext") p with Some (JStr _) => _ | _ => _ end) as [sealed|]; [|done].
  cbn [res_bind]. destruct (secretbox_open _ _ _); [|done]. intros [= _ <-]. by exists p.
Qed.

(** One use of a session: it reads or it sends. *)
Definition session_step (p q : SessionState) : Prop :=
  (exists c t, decryptMessage p c = Ok (t, q)) \/ (exists t c, encryptMessage p t = Ok (c, q)).
Lemma step_count p q : session_step p q -> counter q = counter p + 1.
Proof.
  intros [(c & t & E)|(t & c & E)]; [by apply decrypt_count in E as (? & _ & _ & E)|].
  unfold encryptMessage in E. destruct (decodeBase64Url _) as [k|]; [|done]. cbn [of_option res_bind] in E.
  destruct (deriveMessageKeyMaterial _ _) as [key nonce]. assert (q = after_sending p k) as -> by congruence. reflexivity.
Qed.

(** A message is read at most once, and only in its turn.  A decryption that answers
    read the message numbered with the session's own count; and no message a session
    has read is ever readable again, in the session it left or in any session that
    comes of it by reading and sending further messages. *)
Theorem message_read_once s c t s1 s2 :
  decryptMessage s c = Ok (t, s1) -> rtc session_step s1 s2 ->
  (exists payload, parse c = Some payload /\ field (js "counter") payload = Some (JNum (counter s)))
  /\ forall u s3, decryptMessage s2 c <> Ok (u, s3).
Proof.
  intros Hr Hl. apply decrypt_count in Hr as (p & Hp & Hc & Hs1). split; [by exists p|]. intros u s3 Hu.
  apply decrypt_count in Hu as (p' & Hp' & Hc' & _). rewrite Hp in Hp'. injection Hp' as <-.
  rewrite Hc in Hc'. injection Hc' as Hc'.
  assert (counter s1 <= counter s2); [|lia]. clear - Hl. induction Hl as [x|x y z Hxy Hyz IH]; [lia|].
  apply step_count in Hxy. lia.
Qed.

Lemma encrypt_count s t c s' :
  encryptMessage s t = Ok (c, s') -> forallb unit_ok t = true -> counter s' = counter s + 1
  /\ exists payload, parse c = Some payload /\ field (js "counter") payload = Some (JNum (counter s)).
Proof.
  unfold encryptMessage. intros E Ht. destruct (decodeBase64Url _) as [k|]; [|done]. cbn [of_option res_bind] in E.
  destruct (deriveMessageKeyMaterial _ _) as [key nonce]. 
  set (payload := EncryptedPayload _ _) in E. assert (s' = after_sending s k) as -> by congruence.
  assert (c = stringify payload) as -> by congruence. clear E. split; [reflexivity|].
  exists payload. split; [apply parse_stringify; by apply payload_ok, encode_units, secretbox_bytes, utf8_encode_bytes|].
  unfold payload, EncryptedPayload. eval_object. reflexivity.
Qed.
(** Two messages that cross: both ends count what they sent and what they read with one
    number, so neither message can be read. *)
Lemma crossing_messages_unreadable x y t u c x1 d y1 :
  paired x y -> forallb unit_ok t = true -> forallb unit_ok u = true ->
  encryptMessage x t = Ok (c, x1) -> encryptMessage y u = Ok (d, y1) ->
  forall r, decryptMessage x1 d <> Ok r /\ decryptMessage y1 c <> Ok r.
Proof.
  intros (Hxy & _ & _ & _) Ht Hu Hx Hy [w z]. destruct Hxy as (k & _ & _ & _ & Hn).
  apply encrypt_count in Hx as (Hx1 & p & Hp & Hpc); [|done]. apply encrypt_count in Hy as (Hy1 & q & Hq & Hqc); [|done].
  split; intros E; apply decrypt_count in E as (p' & Hp' & Hc' & _).
  - rewrite Hq in Hp'. injection Hp' as <-. rewrite Hqc in Hc'. injection Hc' as Hc'. lia.
  - rewrite Hp in Hp'. injection Hp' as <-. rewrite Hpc in Hc'. injection Hc' as Hc'. lia.
Qed.
End conversation.

(** ** Witnesses *)
Module SessionSample.
(** A toy suite: agreement is addition, a box names its key. *)
#[export] Instance crypto : Crypto := {|
  sha256 := Toy.pad 32;
  hmac_sha256 k d := Toy.pad 32 (rev d ++ k);
  mnemonicToSeedSync s := s;
  sign_detached m sk := Some (Toy.pad 64 (sk ++ m));
  sign_detached_verify m sig pk := Some (eqb sig (Toy.pad 64 (pk ++ m)));
  sign_keyPair_fromSeed s := Some (Toy.pad 32 s, Toy.pad 32 s);
  box_keyPair_fromSecretKey s := Some (Toy.pad 32 s, Toy.pad 32 s);
  uuidv5_URL _ := js "110a486a-e330-43dd-8383-b1aa8b1cc353";
|}.
#[export] Instance suite : SessionCrypto := {|
  scalarMult a b := zip_with Z.add a b;
  secretbox m n k := m ++ map Toy.byte k;
  secretbox_open c n k := let m := take (length c - length k) c in if eqb c (m ++ map Toy.byte k) then Some m else None;
|}.
#[export] Instance laws : SessionLaws.
Proof.
  split.
  - intros k d. split; [apply Toy.pad_bytes|apply Toy.pad_length].
  - intros s public secret [= <- <-]. split; apply Toy.pad_length.
  - intros s t A a B b [= <- <-] [= <- <-]. cbn [scalarMult suite]. generalize (Toy.pad 32 s), (Toy.pad 32 t).
    induction l as [|x l IH]; intros [|y l']; try reflexivity. cbn [zip_with]. by rewrite IH, Z.add_comm.
  - intros m n k Hm. apply Forall_app. split; [exact Hm|apply Toy.byte_bytes].
  - intros m n k _. cbn [secretbox secretbox_open suite]. cbv zeta.
    rewrite length_app, length_map, Nat.add_sub, take_app_length. by rewrite eqb_refl.
Qed.
Definition keys_of (seed : bytes) : bytes := Toy.pad 32 seed.
Definition outbound : SessionState * jstr := ok_or (session_of JNull, [])
  (createOutboundSession (js "alice") (js "a1") (js "bob") (js "b1") (keys_of [7]) (keys_of [5]) 1500).
Definition inbound : SessionState := ok_or (session_of JNull)
  (createInboundSession (js "bob") (js "b1") (js "alice") (js "a1") (keys_of [7]) (keys_of [5]) 1600).
Definition turns : list (bool * jstr) := [(true, js "hello"); (true, js "again"); (false, js "hi")].
Definition sealed : jstr := (ok_or ([], outbound.1) (encryptMessage outbound.1 (js "hello"))).1.
Definition opened : jstr * SessionState := ok_or ([], inbound) (decryptMessage inbound sealed).
End SessionSample.

Lemma hkdf_total_witness : length (hkdf (H := SessionSample.crypto) [1] [2] [3] 56) = 56%nat.
Proof.
  destruct (hkdf_total (H1 := SessionSample.laws) [1] [2] [3] 56) as [Hl _]. exact Hl.
Defined.
Lemma session_conversation_witness : exists x' y',
  converse (H := SessionSample.crypto) (H0 := SessionSample.suite)
    SessionSample.outbound.1 SessionSample.inbound SessionSample.turns = Ok (SessionSample.turns.*2, (x', y')).
Proof.
  refine (session_conversation (H1 := SessionSample.laws) (js "alice") (js "a1") (js "bob") (js "b1")
    (SessionSample.keys_of [5]) (SessionSample.keys_of [5]) (SessionSample.keys_of [7]) (SessionSample.keys_of [7])
    SessionSample.outbound.1 SessionSample.inbound 1500 1600 [5] [7] [] SessionSample.turns _ _ _ _ _ _).
  - reflexivity.
  - reflexivity.
  - refine (proj1 (forallb_Forall' (fun t => forallb unit_ok t) _) _). vm_compute. reflexivity.
  - vm_compute. reflexivity.
  - vm_compute. reflexivity.
  - refine (proj1 (forallb_Forall' (fun t : bool * jstr => readable t.2) _) _). vm_compute. reflexivity.
Defined.
Lemma message_read_once_witness : exists payload,
  parse SessionSample.sealed = Some payload /\ field (js "counter") payload = Some (JNum (counter SessionSample.inbound)).
Proof.
  destruct (message_read_once (H := SessionSample.crypto) (H0 := SessionSample.suite) SessionSample.inbound SessionSample.sealed
    SessionSample.opened.1 SessionSample.opened.2 SessionSample.opened.2) as [Hp _];
    [vm_compute; reflexivity|apply rtc_refl|exact Hp].
Defined.
