(* ===== verification/Args.v ===== *)
(** * The command line: the parser half of [apps/cli/src/commands/cli.ts]

    From the process arguments to a command and its option values: the rewriting of
    [--option value], Node's strict [parseArgs] over the options the program
    declares, the per-command option lists and the required values. *)

From S2P Require Import Prelude JsString JsMap Zod Effects.

(** ** Failures *)

(** [CliFailure]; the exit code is 2, 3, 4 or 5. *)
Definition inputFailureWith (code : jstr) : err := ErrCli code 2.
Definition inputFailure : err := inputFailureWith (js "INVALID_ARGUMENTS").
Definition trustFailure (code : jstr) : err := ErrCli code 3.
Definition persistenceFailure : err := ErrCli (js "PERSISTENCE_FAILURE") 5.

(** ** The declared options *)

Inductive option_type := TString | TBoolean.
Definition cliOptions : list (jstr * option_type) :=
  [ (js "profile", TString); (js "json", TBoolean); (js "relay-url", TString); (js "store-key-env", TString);
    (js "out", TString); (js "from", TString); (js "yes", TBoolean); (js "to", TString); (js "text", TString);
    (js "message-id", TString); (js "with", TString) ].
Definition commandOptions : list (jstr * list jstr) :=
  [ (js "init", [js "profile"; js "json"; js "relay-url"; js "store-key-env"]);
    (js "contact export", [js "profile"; js "json"; js "out"]);
    (js "contact import", [js "profile"; js "json"; js "from"; js "yes"]);
    (js "relay publish", [js "profile"; js "json"]);
    (js "send", [js "profile"; js "json"; js "to"; js "text"; js "message-id"]);
    (js "poll", [js "profile"; js "json"]);
    (js "history", [js "profile"; js "json"; js "with"]);
    (js "doctor", [js "profile"; js "json"]) ].
Definition option_of (name : jstr) : option option_type := get name cliOptions.
Definition is_string (t : option option_type) : bool := match t with Some TString => true | _ => false end.
Definition stringOptions : list jstr :=
  map fst (List.filter (fun o => is_string (Some o.2)) cliOptions).
Definition optionSeparator : jstr := js "--".

(** ** [inlineStringOptionValues] *)

Definition includes (u : Z) (s : jstr) : bool := existsb (Z.eqb u) s.
Definition member (name : jstr) (l : list jstr) : bool := existsb (eqb name) l.
Definition isRewritable (arg value : jstr) : bool :=
  starts_with (js "--") arg && negb (includes 61 arg) && member (drop 2 arg) stringOptions
  && negb (eqb value optionSeparator).
Fixpoint inlineStringOptionValues (args : list jstr) : list jstr :=
  match args with
  | [] => []
  | arg :: rest =>
      if eqb arg optionSeparator then args
      else match rest with
           | [] => [arg]
           | value :: rest' =>
               if isRewritable arg value then (arg ++ 61 :: value) :: inlineStringOptionValues rest'
               else arg :: inlineStringOptionValues rest
           end
  end.

(** ** [parseArgs] of [node:util], in strict mode with positionals and tokens *)

Inductive token :=
  | TokenOption (name : jstr) (value : option jstr) (inlineValue : bool)
  | TokenPositional (value : jstr)
  | TokenTerminator.

(** [indexOf("=")]: what is before it and what is after. *)
Fixpoint split_eq (s : jstr) : jstr * jstr :=
  match s with
  | [] => ([], [])
  | u :: s => if u =? 61 then ([], s) else let '(a, b) := split_eq s in (u :: a, b)
  end.
(** No option has a short name, so the first letter of [-x] or of a group [-xyz] names
    an option that is not declared, and strict mode refuses it; what the rest of a group
    expands to is never looked at. *)
Definition short_option (arg : jstr) : bool :=
  match arg with u :: v :: _ => (u =? 45) && negb (v =? 45) | _ => false end.
Fixpoint tokenize (args : list jstr) : list token :=
  match args with
  | [] => []
  | arg :: rest =>
      if eqb arg optionSeparator then TokenTerminator :: map TokenPositional rest
      else if short_option arg then TokenOption (take 1 (drop 1 arg)) None false :: tokenize rest
      else if starts_with (js "--") arg then
        if includes 61 (drop 3 arg) then
          let '(name, value) := split_eq (drop 2 arg) in TokenOption name (Some value) true :: tokenize rest
        else
          let name := drop 2 arg in
          match is_string (option_of name), rest with
          | true, value :: rest' => TokenOption name (Some value) false :: tokenize rest'
          | _, _ => TokenOption name None false :: tokenize rest
          end
      else TokenPositional arg :: tokenize rest
  end.

Definition isOptionLikeValue (value : jstr) : bool :=
  (1 <? len value) && starts_with (js "-") value.
(** [checkOptionUsage] and [checkOptionLikeValue]; [false] stands for their exceptions. *)
Definition token_ok (t : token) : bool :=
  match t with
  | TokenOption name value inlineValue =>
      match option_of name, value with
      | Some TString, Some v => inlineValue || negb (isOptionLikeValue v)
      | Some TBoolean, None => true
      | _, _ => false
      end
  | _ => true
  end.
(** The value of an option: a text, or [true] for a flag. *)
Inductive cli_value := VText (s : jstr) | VTrue.
Definition CliValues : Type := list (jstr * cli_value).
Definition value_of (v : option jstr) : cli_value := match v with Some s => VText s | None => VTrue end.
Definition store_option (values : CliValues) (t : token) : CliValues :=
  match t with TokenOption name value _ => set name (value_of value) values | _ => values end.
Definition positionals (tokens : list token) : list jstr :=
  flat_map (fun t => match t with TokenPositional s => [s] | _ => [] end) tokens.
Record parsed_args := { p_values : CliValues; p_positionals : list jstr; p_tokens : list token }.
Definition parseArgs (args : list jstr) : option parsed_args :=
  let tokens := tokenize args in
  if forallb token_ok tokens
  then Some {| p_values := fold_left store_option tokens []; p_positionals := positionals tokens; p_tokens := tokens |}
  else None.

(** ** [parseCommand] *)

(** What [Object.prototype] gives every object literal; each is an object or a function. *)
Definition inherited_names : list jstr :=
  [ js "__proto__"; js "__defineGetter__"; js "__defineSetter__"; js "__lookupGetter__"; js "__lookupSetter__";
    js "constructor"; js "hasOwnProperty"; js "isPrototypeOf"; js "propertyIsEnumerable"; js "toLocaleString";
    js "toString"; js "valueOf" ].
(** [commandOptions[command]]: a list of names, or [None] for an inherited value, which has no
    [includes]. *)
Definition allowed_options (command : jstr) : option (option (list jstr)) :=
  match get command commandOptions with
  | Some names => Some (Some names)
  | None => if member command inherited_names then Some None else None
  end.
Fixpoint check_tokens (allowed : option (list jstr)) (tokens : list token) (seen : list jstr) : res err unit :=
  match tokens with
  | [] => Ok tt
  | TokenOption name _ _ :: tokens =>
      if member name seen then Err inputFailure
      else match allowed with
           | None => Err (ErrOther (js "TypeError"))
           | Some names => if member name names then check_tokens allowed tokens (name :: seen) else Err inputFailure
           end
  | _ :: tokens => check_tokens allowed tokens seen
  end.
Definition text_value (name : jstr) (values : CliValues) : option jstr :=
  match get name values with Some (VText s) => Some s | _ => None end.
Definition parseCommand (rawArgs : list jstr) : res err (jstr * CliValues) :=
  match parseArgs (inlineStringOptionValues rawArgs) with
  | None => Err inputFailure
  | Some parsed =>
      let command := join (js " ") (p_positionals parsed) in
      match allowed_options command with
      | None => Err inputFailure
      | Some allowed =>
          res_bind (check_tokens allowed (p_tokens parsed) []) (fun _ =>
          match text_value (js "profile") (p_values parsed) with
          | Some p => if eqb (trim p) [] then Err inputFailure else Ok (command, p_values parsed)
          | None => Err inputFailure
          end)
      end
  end.

(** ** Required values *)

Definition required (values : CliValues) (key : jstr) : res err jstr :=
  match text_value key values with
  | Some (u :: s) => Ok (u :: s)
  | _ => Err inputFailure
  end.
Definition requiredByCommand : list (jstr * list jstr) :=
  [ (js "init", [js "relay-url"; js "store-key-env"]); (js "contact export", [js "out"]);
    (js "contact import", [js "from"]); (js "relay publish", []); (js "send", [js "to"]);
    (js "poll", []); (js "history", [js "with"]); (js "doctor", []) ].
Fixpoint require_all (values : CliValues) (keys : list jstr) : res err unit :=
  match keys with
  | [] => Ok tt
  | key :: keys => res_bind (required values key) (fun _ => require_all values keys)
  end.
Definition rejectUnexpectedMissing (command : jstr) (values : CliValues) : res err unit :=
  require_all values (default_to [] (get command requiredByCommand)).

(** ** [classify]: the exit code of a failure *)

Definition reportedRelayCodes : list jstr :=
  [js "PREKEY_BUNDLE_UNAVAILABLE"; js "UNAUTHORIZED_MAILBOX_ACCESS"; js "SENDER_QUOTA_EXCEEDED"].
Record CliFailure := Failure { f_code : jstr; f_exitCode : Z }.
Definition classify (e : err) : CliFailure :=
  match e with
  | ErrCli code exit => Failure code exit
  | ErrPersistence => Failure (js "PERSISTENCE_FAILURE") 5
  | ErrConfiguration _ => Failure (js "INVALID_CONFIGURATION") 2
  | ErrRelay re =>
      if re_retryable re then Failure (js "RELAY_UNAVAILABLE") 4
      else match re_remoteCode re with
           | Some remote => Failure (if member remote reportedRelayCodes then remote else js "PROTOCOL_REJECTED") 3
           | None => Failure (js "PROTOCOL_REJECTED") 3
           end
  | ErrOutbound code _ => Failure code (if eqb code (js "INVALID_MESSAGE") then 2 else 3)
  | ErrInbound code => Failure code 3
  | ErrProfile _ => Failure (js "PROFILE_REJECTED") 3
  | ErrOther _ => Failure (js "PERSISTENCE_FAILURE") 5
  end.

(** ** Lemmas: a command line written out *)

(** One option on the command line: [--name value], [--name=value] or [--name]. *)
Inductive arg_item := Spaced (name value : jstr) | Inlined (name value : jstr) | Flag (name : jstr).
Definition item_name (i : arg_item) : jstr := match i with Spaced n _ | Inlined n _ | Flag n => n end.
Definition item_value (i : arg_item) : option jstr := match i with Spaced _ v | Inlined _ v => Some v | Flag _ => None end.
Definition render (i : arg_item) : list jstr :=
  match i with
  | Spaced n v => [js "--" ++ n; v]
  | Inlined n v => [js "--" ++ n ++ 61 :: v]
  | Flag n => [js "--" ++ n]
  end.
Definition item_ok (i : arg_item) : bool :=
  match i with
  | Spaced n v => is_string (option_of n) && negb (eqb v optionSeparator)
  | Inlined n _ => is_string (option_of n)
  | Flag n => match option_of n with Some TBoolean => true | _ => false end
  end.
Definition item_entry (i : arg_item) : jstr * cli_value := (item_name i, value_of (item_value i)).
Definition word_ok (w : jstr) : bool := match w with u :: _ => negb (u =? 45) | [] => true end.

Lemma dashes : js "--" = [45; 45].
Proof. vm_compute. reflexivity. Qed.

(** What holds of every declared name. *)
Definition declared_ok (o : jstr * option_type) : bool :=
  negb (includes 61 o.1) && negb (eqb o.1 []) && Bool.eqb (member o.1 stringOptions) (is_string (Some o.2)).
Lemma declared name t : option_of name = Some t -> declared_ok (name, t) = true.
Proof.
  assert (forallb declared_ok cliOptions = true) as Hall by (vm_compute; reflexivity).
  unfold option_of. revert Hall. generalize cliOptions as l. induction l as [|[n t'] l IH]; [done|].
  cbn [forallb get]. intros [Hn Hl]%andb_true_iff. destruct (eqb n name) eqn:E; [|by apply IH].
  rewrite eqb_eq in E. subst n. by intros [= <-].
Qed.
Lemma string_declared name :
  is_string (option_of name) = true ->
  includes 61 name = false /\ name <> [] /\ member name stringOptions = true /\ option_of name = Some TString.
Proof.
  destruct (option_of name) as [[]|] eqn:E; try done. intros _. apply declared in E as Hd. unfold declared_ok in Hd.
  cbn [fst snd is_string] in Hd. rewrite !andb_true_iff, !negb_true_iff, eqb_neq, Bool.eqb_true_iff in Hd. tauto.
Qed.
Lemma flag_declared name :
  option_of name = Some TBoolean -> includes 61 name = false /\ name <> [] /\ member name stringOptions = false.
Proof.
  intros E%declared. unfold declared_ok in E. cbn [fst snd is_string] in E.
  rewrite !andb_true_iff, !negb_true_iff, eqb_neq, Bool.eqb_true_iff in E. tauto.
Qed.

(** *** The rewriting leaves only inline values *)
Definition inlined (i : arg_item) : jstr :=
  match i with Spaced n v | Inlined n v => js "--" ++ n ++ 61 :: v | Flag n => js "--" ++ n end.
Lemma long_not_separator n : n <> [] -> eqb (js "--" ++ n) optionSeparator = false.
Proof.
  intros Hn. apply eqb_neq. unfold optionSeparator. rewrite dashes. intros E. apply Hn. by injection E.
Qed.
Lemma drop_dashes n : drop 2 (js "--" ++ n) = n.
Proof. by rewrite dashes. Qed.
Lemma includes_app u a b : includes u (a ++ b) = includes u a || includes u b.
Proof. apply existsb_app. Qed.
Lemma includes_dashes n : includes 61 (js "--" ++ n) = includes 61 n.
Proof. by rewrite dashes. Qed.
Lemma word_not_long w : word_ok w = true -> starts_with (js "--") w = false.
Proof.
  intros Hw. apply not_true_iff_false. rewrite starts_with_iff, dashes. intros [t ->]. done.
Qed.
Lemma inline_keep arg rest :
  eqb arg optionSeparator = false -> (forall value, isRewritable arg value = false) ->
  inlineStringOptionValues (arg :: rest) = arg :: inlineStringOptionValues rest.
Proof. intros He Hr. cbn [inlineStringOptionValues]. rewrite He. destruct rest; [done|]. by rewrite Hr. Qed.
Lemma inline_words words rest :
  forallb word_ok words = true -> inlineStringOptionValues (words ++ rest) = words ++ inlineStringOptionValues rest.
Proof.
  induction words as [|w words IH]; [done|]. cbn [forallb app]. intros [Hw Hs]%andb_true_iff.
  rewrite inline_keep, IH; [done|done| |].
  - apply eqb_neq. unfold optionSeparator. rewrite dashes. intros ->. done.
  - intros value. unfold isRewritable. by rewrite word_not_long.
Qed.
Lemma inline_items items :
  forallb item_ok items = true -> inlineStringOptionValues (flat_map render items) = map inlined items.
Proof.
  induction items as [|i items IH]; [done|]. cbn [forallb flat_map map]. intros [Hi Hs]%andb_true_iff.
  specialize (IH Hs). destruct i as [n v|n v|n]; cbn [item_ok render inlined app] in *.
  - apply andb_true_iff in Hi as [Hn Hv]. apply string_declared in Hn as (He & Hne & Hm & _).
    cbn [inlineStringOptionValues]. rewrite long_not_separator by done. unfold isRewritable.
    rewrite (starts_with_app (js "--") n), includes_dashes, He, drop_dashes, Hm, Hv. cbn [negb andb].
    rewrite IH, <- app_assoc. reflexivity.
  - apply string_declared in Hi as (He & Hne & Hm & _). rewrite inline_keep, IH; [done| |].
    + apply long_not_separator. by destruct n.
    + intros value. unfold isRewritable. rewrite includes_dashes, includes_app.
      change (includes 61 (61 :: v)) with true. rewrite (orb_true_r (includes 61 n)). cbn [negb].
      by rewrite (andb_false_r (starts_with _ _)).
  - destruct (option_of n) as [[]|] eqn:E; try done. apply flag_declared in E as (He & Hne & Hm).
    rewrite inline_keep, IH; [done|by apply long_not_separator|]. intros value. unfold isRewritable.
    rewrite drop_dashes, Hm. by rewrite (andb_false_r (_ && _)).
Qed.

(** *** The tokens of what it leaves *)
Definition item_token (i : arg_item) : token :=
  match i with Spaced n v | Inlined n v => TokenOption n (Some v) true | Flag n => TokenOption n None false end.
Lemma split_eq_name n v : includes 61 n = false -> split_eq (n ++ 61 :: v) = (n, v).
Proof.
  induction n as [|u n IH]; [done|]. unfold includes. cbn [existsb app split_eq].
  intros [Hu Hn]%orb_false_iff. rewrite Z.eqb_sym, Hu. by rewrite IH.
Qed.
Lemma drop_three n s : n <> [] -> drop 3 (js "--" ++ n ++ s) = drop 1 n ++ s.
Proof. rewrite dashes. by destruct n. Qed.
Lemma dashes_not_short n : short_option (js "--" ++ n) = false.
Proof. by rewrite dashes. Qed.
Lemma tokenize_valued n v rest :
  includes 61 n = false -> n <> [] ->
  tokenize ((js "--" ++ n ++ 61 :: v) :: rest) = TokenOption n (Some v) true :: tokenize rest.
Proof.
  intros He Hn. cbn [tokenize]. rewrite long_not_separator, dashes_not_short by by destruct n.
  rewrite (starts_with_app (js "--") (n ++ 61 :: v)), drop_three, includes_app by done.
  change (includes 61 (61 :: v)) with true. rewrite (orb_true_r (includes 61 (drop 1 n))), drop_dashes.
  by rewrite split_eq_name.
Qed.
Lemma includes_tail n : includes 61 n = false -> includes 61 (drop 1 n) = false.
Proof. destruct n as [|u n]; [done|]. unfold includes. cbn [existsb drop]. by intros [_ ?]%orb_false_iff. Qed.
Lemma tokenize_flag n rest :
  includes 61 n = false -> n <> [] -> option_of n = Some TBoolean ->
  tokenize ((js "--" ++ n) :: rest) = TokenOption n None false :: tokenize rest.
Proof.
  intros He Hn Ho. cbn [tokenize]. rewrite long_not_separator, dashes_not_short by done.
  rewrite (starts_with_app (js "--") n). pose proof (drop_three n [] Hn) as Hd. rewrite !app_nil_r in Hd.
  rewrite Hd, includes_tail by done. cbv zeta. rewrite drop_dashes, Ho. done.
Qed.
Lemma tokenize_items items :
  forallb item_ok items = true -> tokenize (map inlined items) = map item_token items.
Proof.
  induction items as [|i items IH]; [done|]. cbn [forallb map]. intros [Hi Hs]%andb_true_iff. specialize (IH Hs).
  destruct i as [n v|n v|n]; cbn [item_ok inlined item_token] in *.
  - apply andb_true_iff in Hi as [Hn _]. apply string_declared in Hn as (He & Hne & _). by rewrite tokenize_valued, IH.
  - apply string_declared in Hi as (He & Hne & _). by rewrite tokenize_valued, IH.
  - destruct (option_of n) as [[]|] eqn:E; try done. pose proof (flag_declared n E) as (He & Hne & _).
    by rewrite tokenize_flag, IH.
Qed.
Lemma tokenize_words words rest :
  forallb word_ok words = true -> tokenize (words ++ rest) = map TokenPositional words ++ tokenize rest.
Proof.
  induction words as [|w words IH]; [done|]. cbn [forallb app map]. intros [Hw Hs]%andb_true_iff. specialize (IH Hs).
  cbn [tokenize]. assert (eqb w optionSeparator = false) as ->.
  { apply eqb_neq. unfold optionSeparator. rewrite dashes. intros ->. done. }
  assert (short_option w = false) as ->.
  { destruct w as [|u [|v w]]; [done|done|]. cbn [word_ok short_option] in *. apply negb_true_iff in Hw. by rewrite Hw. }
  rewrite (word_not_long w Hw). by rewrite IH.
Qed.

(** *** What the parser makes of the tokens *)
Lemma tokens_ok words items :
  forallb item_ok items = true -> forallb token_ok (map TokenPositional words ++ map item_token items) = true.
Proof.
  intros Hi. rewrite forallb_app. apply andb_true_iff. split; [by induction words|].
  induction items as [|i items IH]; [done|]. cbn [forallb map] in *. apply andb_true_iff in Hi as [Hi Hs].
  rewrite (IH Hs). destruct i as [n v|n v|n]; cbn [item_ok item_token token_ok] in *.
  - apply andb_true_iff in Hi as [Hn _]. by apply string_declared in Hn as (_ & _ & _ & ->).
  - by apply string_declared in Hi as (_ & _ & _ & ->).
  - by destruct (option_of n) as [[]|].
Qed.
Lemma positionals_items words items : positionals (map TokenPositional words ++ map item_token items) = words.
Proof.
  unfold positionals. rewrite flat_map_app. replace (flat_map _ (map item_token items)) with (@nil jstr).
  - rewrite app_nil_r. induction words as [|w words IH]; [done|]. cbn [map flat_map app]. by rewrite IH.
  - induction items as [|i items IH]; [done|]. cbn [map flat_map]. rewrite <- IH. by destruct i.
Qed.
Lemma value_fresh {V} k (v : V) m : k ∉ keys m -> set k v m = m ++ [(k, v)].
Proof.
  unfold keys. induction m as [|[k' v'] m IH]; [done|]. cbn [set app]. intros Hk. apply not_elem_of_cons in Hk as [Hne Hk].
  rewrite (proj2 (eqb_neq k' k)) by done. by rewrite IH.
Qed.
Lemma store_items words items :
  NoDup (map item_name items) ->
  fold_left store_option (map TokenPositional words ++ map item_token items) [] = map item_entry items.
Proof.
  intros Hn. rewrite fold_left_app. replace (fold_left store_option (map TokenPositional words) []) with (@nil (jstr * cli_value))
    by by induction words.
  enough (forall acc, NoDup (keys acc ++ map item_name items) ->
    fold_left store_option (map item_token items) acc = acc ++ map item_entry items) as He by by apply He.
  clear. induction items as [|i items IH]; intros acc Hn; cbn [map fold_left]; [by rewrite app_nil_r|].
  cbn [map] in Hn. assert (item_name i ∉ keys acc) as Hf.
  { apply NoDup_app in Hn as (_ & Hd & _). intros Hin. apply (Hd _ Hin). by left. }
  replace (store_option acc (item_token i)) with (acc ++ [item_entry i]).
  - rewrite IH; [by rewrite <- app_assoc|]. unfold keys. rewrite fmap_app, <- app_assoc. exact Hn.
  - unfold item_entry. destruct i; cbn [item_token store_option item_name item_value] in *; symmetry; by apply value_fresh.
Qed.
Lemma member_In name l : member name l = true <-> name ∈ l.
Proof.
  unfold member. rewrite existsb_exists. split.
  - intros (x & Hin & E). rewrite eqb_eq in E. subst x. by apply list_elem_of_In.
  - intros Hin. exists name. split; [by apply list_elem_of_In|apply eqb_refl].
Qed.
Lemma check_items names words items seen :
  NoDup (map item_name items) -> forallb (fun i => member (item_name i) names) items = true ->
  (forall i, i ∈ items -> item_name i ∉ seen) ->
  check_tokens (Some names) (map TokenPositional words ++ map item_token items) seen = Ok tt.
Proof.
  intros Hn Ha Hs. induction words as [|w words IHw]; [|exact IHw]. cbn [map app].
  revert seen Hs. induction items as [|i items IH]; intros seen Hs; [done|]. cbn [map forallb] in *.
  apply NoDup_cons in Hn as [Hf Hn]. apply andb_true_iff in Ha as [Hi Ha].
  assert (member (item_name i) seen = false) as Hm.
  { apply not_true_iff_false. rewrite member_In. apply Hs. by left. }
  assert (check_tokens (Some names) (map item_token items) (item_name i :: seen) = Ok tt) as E.
  { apply IH; [done|done|]. intros j Hj Hin. apply elem_of_cons in Hin as [E|Hin].
    - apply Hf. rewrite <- E. apply list_elem_of_In, in_map, list_elem_of_In, Hj.
    - apply (Hs j); [by right|done]. }
  destruct i; cbn [item_token check_tokens item_name] in *; by rewrite Hm, Hi.
Qed.

(** *** A command line written out, read *)
Section written.
Context (words : list jstr) (items : list arg_item).
Context (Hw : forallb word_ok words = true) (Hi : forallb item_ok items = true) (Hn : NoDup (map item_name items)).
Lemma parseArgs_items :
  parseArgs (inlineStringOptionValues (words ++ flat_map render items)) =
  Some {| p_values := map item_entry items; p_positionals := words;
          p_tokens := map TokenPositional words ++ map item_token items |}.
Proof.
  unfold parseArgs. rewrite inline_words, inline_items, tokenize_words, tokenize_items, tokens_ok by done.
  by rewrite positionals_items, store_items.
Qed.
Lemma parseCommand_items command names p :
  join (js " ") words = command -> get command commandOptions = Some names ->
  forallb (fun i => member (item_name i) names) items = true ->
  text_value (js "profile") (map item_entry items) = Some p -> eqb (trim p) [] = false ->
  parseCommand (words ++ flat_map render items) = Ok (command, map item_entry items).
Proof.
  intros Hc Hg Ha Hp Ht. unfold parseCommand. rewrite parseArgs_items. cbv zeta. cbn [p_positionals p_tokens p_values].
  rewrite Hc. unfold allowed_options. rewrite Hg.
  rewrite check_items; [|done|done|by intros i _ Hin; apply not_elem_of_nil in Hin]. cbn [res_bind]. by rewrite Hp, Ht.
Qed.
End written.

(** C23: a command line says what it spells.  The words of a command followed by any of
    its options, each given once, as [--name value], [--name=value] or as a flag, are
    read as that command with exactly those values, whatever the values look like: a
    value that begins with a dash, that contains an equals sign or that spells an
    option is the value, unless it is the separator [--] itself. *)
Theorem command_line_read command words items names p :
  join (js " ") words = command -> get command commandOptions = Some names -> forallb word_ok words = true ->
  forallb item_ok items = true -> NoDup (map item_name items) ->
  forallb (fun i => member (item_name i) names) items = true ->
  text_value (js "profile") (map item_entry items) = Some p -> eqb (trim p) [] = false ->
  parseCommand (words ++ flat_map render items) = Ok (command, map item_entry items).
Proof.
  intros Hc Hg Hw Hi Hn Ha Hp Ht. by eapply parseCommand_items.
Qed.

(** A command that happens to be the name of something every object has is not refused
    as an unknown one: it fails on the missing list of options instead, and is reported
    as a storage failure with exit code 5. *)
Lemma inherited_command_fails_otherwise :
  map (fun name => match parseCommand [name; js "--profile"; js "p"] with
                   | Err e => f_exitCode (classify e) | Ok _ => 0 end) (js "unknown" :: inherited_names)
  = 2 :: replicate 12 5.
Proof. vm_compute. reflexivity. Qed.

(** ** Witnesses *)
Module ArgsSample.
Definition items : list arg_item :=
  [ Spaced (js "profile") (js "/tmp/p"); Flag (js "json"); Spaced (js "to") (js "-dash_first");
    Inlined (js "text") (js "--json=not an option") ].
End ArgsSample.

Lemma command_line_read_witness :
  parseCommand ([js "send"] ++ flat_map render ArgsSample.items) = Ok (js "send", map item_entry ArgsSample.items).
Proof.
  refine (command_line_read (js "send") [js "send"] ArgsSample.items
    [js "profile"; js "json"; js "to"; js "text"; js "message-id"] (js "/tmp/p") _ _ _ _ _ _ _ _);
    try (vm_compute; reflexivity).
  refine (bool_decide_eq_true_1 _ _). vm_compute. reflexivity.
Defined.
