(* ===== verification/Cli.v ===== *)
(** * Running a command: [apps/cli/src/commands/cli.ts] and [openProfile]

    What the process does with a parsed command line: the body of a message, the
    operator's confirmation, opening the profile, the eight commands, the report and
    the exit code.  Closing a profile is taken not to fail. *)

From S2P Require Import Prelude JsString Json JsMap Zod Base64Url Protocol Platform.
From S2P Require Import Transcripts WellFormed Effects Store Signal Wire History Profile.
From S2P Require Import Config RelayClient Inbound Outbound Args.

(** The process: its directories, environment, files and standard streams.  A [false]
    or [None] stands for a thrown error.  [store_opens] is whether the constructor of
    the encrypted store ([Store.open_store]) accepts the file under the key. *)
Class Shell (W : Type) := {
  resolve : jstr -> jstr -> jstr;
  dirname : jstr -> jstr;
  environment : jstr -> option jstr;
  existsSync : jstr -> W -> bool * W;
  readFile : jstr -> W -> option jstr * W;
  mkdirSync : jstr -> W -> bool * W;
  writeNewFile : jstr -> jstr -> W -> bool * W;
  linkSync : jstr -> jstr -> W -> bool * W;
  unlinkSync : jstr -> W -> bool * W;
  store_opens : jstr -> bytes -> W -> bool * W;
  write_stderr : jstr -> W -> W;
  stdin_isTTY : bool;
  stdin_body : W -> list bytes * W;
  stdin_answer : W -> list jstr * W;
}.

(** ** The body of a message *)

(** [chunks] are read one by one; the bound is checked before a chunk is kept. *)
Fixpoint read_chunks (chunks : list bytes) (kept : bytes) : res err bytes :=
  match chunks with
  | [] => Ok kept
  | chunk :: chunks =>
      if MAX_PLAINTEXT_BYTES <? Z.of_nat (length kept + length chunk) then Err (inputFailureWith (js "INVALID_MESSAGE"))
      else read_chunks chunks (kept ++ chunk)
  end.
Definition readStdinBody (chunks : list bytes) : res err jstr := res_map utf8_to_string (read_chunks chunks []).

(** ** The operator's confirmation *)

Definition lower (u : Z) : Z := if between 65 90 u then u + 32 else u.
Definition affirmative (answer : jstr) : bool :=
  let t := map lower (trim answer) in eqb t (js "y") || eqb t (js "yes").
Definition answerLimit : nat := 16.
Definition line_end (u : Z) : bool := (u =? 13) || (u =? 10).
(** Up to the first line terminator: [None] when there is none. *)
Fixpoint first_line (s : jstr) : option jstr :=
  match s with
  | [] => None
  | u :: s => if line_end u then Some [] else match first_line s with Some l => Some (u :: l) | None => None end
  end.
(** The data arrives in chunks; then the stream ends or fails. *)
Fixpoint confirm_chunks (answer : jstr) (chunks : list jstr) : bool :=
  match chunks with
  | [] => if (answerLimit <? length answer)%nat then false else affirmative answer
  | chunk :: chunks =>
      let answer := answer ++ chunk in
      match first_line answer with
      | Some l => affirmative l
      | None => if (answerLimit <? length answer)%nat then false else confirm_chunks answer chunks
      end
  end.

Section cli.
Context {W : Type} `{Zod} `{World W} `{Native W} `{Crypto} `{Fetch W} `{UrlParser} `{Shell W}.

Definition readConfirmation (w : W) : bool * W :=
  let w := write_stderr (js "Trust these contact identifiers? [y/N] ") w in
  let '(chunks, w) := stdin_answer w in (confirm_chunks [] chunks, w).
Definition printIdentifiers (identifiers : json) (w : W) : W :=
  write_stderr (stringify (JObj
    [ (js "identity_id", sub_field (js "identity_id") identifiers);
      (js "device_id", sub_field (js "device_id") identifiers);
      (js "device_pubkey", sub_field (js "device_pubkey") identifiers);
      (js "signal_identity_key", sub_field (js "signal_identity_key") identifiers) ]) ++ [10]) w.
Definition confirm_import (yes : bool) (identifiers : json) (w : W) : bool * W :=
  let w := printIdentifiers identifiers w in
  if yes then (true, w) else readConfirmation w.

Definition resolveSendBody (values : CliValues) : Rt (W := W) jstr :=
  match text_value (js "text") values with
  | Some body => if eqb body [] then throw inputFailure else ret body
  | None =>
      if stdin_isTTY then throw inputFailure
      else chunks <- outside stdin_body;
           body <- lift (readStdinBody chunks);
           if eqb body [] then throw inputFailure else ret body
  end.

(** ** [openProfile] *)

(** [JSON.stringify(config, null, 2)]: the members of a configuration are scalars. *)
Definition pretty (v : json) : jstr :=
  match v with
  | JObj (m :: l) => js "{" ++ 10 :: join (js "," ++ [10]) (map (fun kv => js "  " ++ quote kv.1 ++ js ": " ++ stringify kv.2) (m :: l)) ++ 10 :: js "}"
  | _ => stringify v
  end.
Definition io_failed {A} : Rt (W := W) A := throw (ErrOther (js "Error")).
Definition need (ok : W -> bool * W) : Rt unit := b <- outside ok; if b then ret tt else io_failed.
Definition write_config (configPath : jstr) (config : json) : Rt unit :=
  need (mkdirSync (dirname configPath));;
  id <- outside randomUUID;
  let temporary := configPath ++ js "." ++ id ++ js ".tmp" in
  need (writeNewFile temporary (pretty config));;
  linked <- outside (linkSync temporary configPath);
  need (unlinkSync temporary);;
  if linked then ret tt else io_failed.
Definition read_json (path : jstr) : Rt json :=
  raw <- outside (readFile path); text <- from_option (js "Error") raw; from_option (js "SyntaxError") (parse text).
Definition missing_configuration : err := ErrConfiguration (js "Profile initialization requires configuration").
Definition openProfile (profileDir : jstr) (config : option json) (initialize : bool) : Rt json :=
  let configPath := resolve profileDir (js "config.json") in
  hasConfig <- outside (existsSync configPath);
  if negb hasConfig && (negb initialize || negb (is_some config)) then throw missing_configuration
  else
    input <- (if hasConfig then read_json configPath else ret (default_to JNull config));
    parsed <- lift (parseClientConfig input);
    (match hasConfig, config with
     | true, Some given =>
         other <- lift (parseClientConfig given);
         if eqb (stringify other) (stringify parsed) then ret tt
         else throw (ErrConfiguration (js "Existing profile configuration cannot be replaced"))
     | _, _ => ret tt
     end);;
    key <- lift (readStoreKey (str_field (js "store_key_env") parsed) environment);
    let databasePath := resolve profileDir (str_field (js "database_path") parsed) in
    hasDatabase <- outside (existsSync databasePath);
    if negb hasDatabase && (hasConfig || negb initialize)
    then throw (ErrProfile (js "Profile database is missing; refusing replacement"))
    else
      need (mkdirSync (dirname databasePath));;
      need (store_opens databasePath key);;
      openProfile_transaction (str_field (js "profile_id") parsed) initialize;;
      when (negb hasConfig) (write_config configPath parsed);;
      ret parsed.

(** ** Opening for a command *)

Definition unless_configuration {A} (e' : err) (m : Rt (W := W) A) : Rt A :=
  catch m (fun e => match e with ErrConfiguration _ => throw e | _ => throw e' end).
Definition invalid_configuration_file : err := inputFailureWith (js "INVALID_CONFIGURATION").
Definition loadConfig (profileDir : jstr) : Rt json :=
  unless_configuration invalid_configuration_file (
    j <- read_json (resolve profileDir (js "config.json")); lift (parseClientConfig j)).
Definition openExistingProfile (profileDir : jstr) : Rt json :=
  loadConfig profileDir;;
  unless_configuration persistenceFailure (openProfile profileDir None false).
Definition relayFor (config : json) : res err relay_client :=
  match new_RelayClient (str_field (js "relay_url") config) (num_field (js "request_timeout_ms") config) with
  | Ok client => Ok client
  | Err _ => Err invalid_configuration_file
  end.
(** [openOutboundMessenger] and [openInboundMessenger] of the existing profile. *)
Definition open_messenger (profileDir : jstr) : Rt (json * relay_client) :=
  config <- loadConfig profileDir;
  unless_configuration persistenceFailure (
    relay <- lift (relayFor config);
    profile <- openProfile profileDir None false;
    ret (profile, relay)).

Definition contact_card_refused : err := inputFailureWith (js "INVALID_CONTACT_CARD").
Definition readContactFile (path : jstr) : Rt json :=
  catch (raw <- outside (readFile path);
         text <- from_option (js "Error") raw;
         if 1024 * 1024 <? utf8_length text then throw contact_card_refused
         else from_option (js "SyntaxError") (parse text))
    (fun e => match e with ErrCli _ _ => throw e | _ => throw contact_card_refused end).

(** ** [execute] *)

Definition report_publish (p : publish_result) : json :=
  JObj [ (js "stored", JBool true); (js "bundleId", JStr (pb_bundleId p)); (js "claimable", JBool (pb_anyClaimable p));
         (js "pool", JObj [ (js "target", JNum (pl_target (pb_pool p))); (js "claimable", JNum (pl_claimable (pb_pool p)));
                            (js "minted", JNum (pl_minted (pb_pool p))) ]) ].
Definition report_receipt (r : receipt) : json :=
  JObj ([ (js "messageId", JStr (rc_messageId r)); (js "envelopeId", JStr (rc_envelopeId r));
          (js "status", JStr (js "delivered")) ]
        ++ if rc_claimReplaced r then [(js "claimReplaced", JBool true)] else []).
Definition report_poll (p : PollResult) : json :=
  JObj [ (js "received", JNum (pr_received p)); (js "more", JBool (pr_more p));
         (js "rejected", JArr (map (fun r => JObj [ (js "envelopeId", JStr (rj_envelopeId r)); (js "code", JStr (rj_code r)) ])
            (pr_rejected p))) ].

Definition execute_init (profileDir : jstr) (values : CliValues) : Rt json :=
  profile_id <- outside randomUUID;
  relay_url <- lift (required values (js "relay-url"));
  store_key_env <- lift (required values (js "store-key-env"));
  config <- lift (parseClientConfig (JObj
    [ (js "profile_version", JNum 1); (js "profile_id", JStr profile_id); (js "relay_url", JStr relay_url);
      (js "database_path", JStr (js "client.sqlite")); (js "store_key_env", JStr store_key_env);
      (js "request_timeout_ms", JNum 5000); (js "poll_batch_size", JNum 50) ]));
  opened <- unless_configuration persistenceFailure (openProfile profileDir (Some config) true);
  summary (str_field (js "profile_id") opened).
Definition execute_export (profileDir : jstr) (values : CliValues) : Rt json :=
  openExistingProfile profileDir;;
  card <- exportContact;
  catch (out <- lift (required values (js "out")); need (writeNewFile out (stringify card ++ [10]))) (fun _ => throw persistenceFailure);;
  ret (JObj [(js "exported", JBool true)]).
Definition execute_import (profileDir : jstr) (values : CliValues) : Rt json :=
  from <- lift (required values (js "from"));
  card <- readContactFile from;
  openExistingProfile profileDir;;
  let yes := match get (js "yes") values with Some VTrue => true | _ => false end in
  imported <- catch (importContact card (Some (confirm_import yes)))
    (fun e => match e with ErrPersistence => throw persistenceFailure | _ => throw (trustFailure (js "INVALID_CONTACT_CARD")) end);
  if negb imported then throw (trustFailure (js "CONTACT_NOT_CONFIRMED"))
  else requestMailboxRewalk;; ret (JObj [(js "trusted", JBool true)]).
Definition execute_publish (profileDir : jstr) : Rt json :=
  '(profile, client) <- open_messenger profileDir;
  p <- publish (H3 := client_relay client);
  ret (report_publish p).
(** [/^[0-9a-f]{8}-...-[0-9a-f]{12}$/i]. *)
Definition message_id_ok (s : jstr) : bool := uuid_shape s.
Definition execute_send (profileDir : jstr) (values : CliValues) : Rt json :=
  messageId <- match text_value (js "message-id") values with Some id => ret id | None => outside randomUUID end;
  if negb (message_id_ok messageId) then throw (inputFailureWith (js "INVALID_MESSAGE_ID"))
  else
    '(profile, client) <- open_messenger profileDir;
    to <- lift (required values (js "to"));
    text <- lift (required values (js "text"));
    r <- send (H3 := client_relay client)
           {| si_recipientIdentityId := to; si_messageId := messageId; si_plaintext := text |};
    ret (report_receipt r).
Definition execute_poll (profileDir : jstr) : Rt json :=
  '(profile, client) <- open_messenger profileDir;
  p <- poll (H3 := client_relay client) (num_field (js "poll_batch_size") profile);
  ret (report_poll p).
Definition execute_history (profileDir : jstr) (values : CliValues) : Rt json :=
  '(profile, client) <- open_messenger profileDir;
  contact <- lift (required values (js "with"));
  entries <- history contact;
  ret (JObj [(js "entries", JArr entries)]).
Definition execute_doctor (profileDir : jstr) : Rt json :=
  profile <- openExistingProfile profileDir;
  diagnostics (str_field (js "profile_id") profile).
Definition execute (command : jstr) (values : CliValues) : Rt json :=
  profileDir <- lift (required values (js "profile"));
  if eqb command (js "init") then execute_init profileDir values
  else if eqb command (js "contact export") then execute_export profileDir values
  else if eqb command (js "contact import") then execute_import profileDir values
  else if eqb command (js "relay publish") then execute_publish profileDir
  else if eqb command (js "send") then execute_send profileDir values
  else if eqb command (js "poll") then execute_poll profileDir
  else if eqb command (js "history") then execute_history profileDir values
  else if eqb command (js "doctor") then execute_doctor profileDir
  else throw inputFailure.

(** ** [main] *)

Inductive dispatched :=
  | Version | Help | Station (args : list jstr) | Repeater (args : list jstr)
  | ProfileCommand (args : list jstr) | ContactCommand (args : list jstr) | Console (args : list jstr)
  | Protocol.
Definition dispatch (rawArgs : list jstr) : dispatched :=
  match rawArgs with
  | [] => Help
  | first :: rest =>
      if member first [js "--version"; js "-v"; js "version"] then Version
      else if eqb first [] || member first [js "--help"; js "-h"; js "help"] then Help
      else if eqb first (js "station") then Station rest
      else if eqb first (js "repeater") then Repeater rest
      else if eqb first (js "profile") then ProfileCommand rest
      else if eqb first (js "contact") && negb (match rest with second :: _ => member second [js "export"; js "import"] | [] => false end)
      then ContactCommand rest
      else if member first [js "radio"; js "tui"] then Console rest
      else Protocol
  end.
Definition protocol_command (rawArgs : list jstr) : Rt json :=
  '(command, values) <- lift (parseCommand rawArgs);
  lift (rejectUnexpectedMissing command values);;
  values <- (if eqb command (js "send")
             then body <- resolveSendBody values; ret (set (js "text") (VText body) values)
             else ret values);
  execute command values.
Definition success_report (data : json) : json := JObj [(js "ok", JBool true); (js "data", data)].
Definition failure_report (code : jstr) : json :=
  JObj [(js "ok", JBool false); (js "error", JObj [(js "code", JStr code)])].
(** The line written on standard output and the exit code. *)
Definition run_protocol (rawArgs : list jstr) (s : env W) : (json * Z) * env W :=
  match protocol_command rawArgs s with
  | (Ok data, s') => ((success_report data, 0), s')
  | (Err e, s') => let failure := classify e in ((failure_report (f_code failure), f_exitCode failure), s')
  end.
End cli.

(** ** Lemmas: the operator's answer *)

(** The first line of everything that arrives: up to a terminator or to the end. *)
Definition answer_line (t : jstr) : jstr := default_to t (first_line t).
Lemma first_line_app a b :
  first_line (a ++ b) = match first_line a with
                        | Some l => Some l
                        | None => match first_line b with Some l => Some (a ++ l) | None => None end
                        end.
Proof.
  induction a as [|u a IH]; cbn [app first_line]; [by destruct (first_line b)|].
  destruct (line_end u); [done|]. rewrite IH. destruct (first_line a); [done|]. by destruct (first_line b).
Qed.
Lemma answer_line_open a b : first_line a = None -> answer_line (a ++ b) = a ++ answer_line b.
Proof. intros Ha. unfold answer_line. rewrite first_line_app, Ha. by destruct (first_line b). Qed.

Lemma confirm_chunks_line chunks acc :
  first_line acc = None ->
  (confirm_chunks acc chunks = true -> affirmative (answer_line (acc ++ concat chunks)) = true)
  /\ ((length (answer_line (acc ++ concat chunks)) <= answerLimit)%nat ->
      confirm_chunks acc chunks = affirmative (answer_line (acc ++ concat chunks))).
Proof.
  revert acc. induction chunks as [|chunk chunks IH]; intros acc Ha; cbn [confirm_chunks concat].
  - rewrite answer_line_open by done. change (answer_line []) with (@nil Z). rewrite app_nil_r.
    destruct (answerLimit <? length acc)%nat eqn:E; [|done]. apply Nat.ltb_lt in E. split; [done|lia].
  - rewrite app_assoc. destruct (first_line (acc ++ chunk)) as [l|] eqn:E.
    + unfold answer_line. rewrite first_line_app, E. done.
    + destruct (answerLimit <? length (acc ++ chunk))%nat eqn:El; [|by apply IH].
      apply Nat.ltb_lt in El. split; [done|]. rewrite answer_line_open by done. rewrite length_app. lia.
Qed.

(** The prompt asks for the first line, however it arrives.  If [readConfirmation]
    answers yes, then the first line of the input, up to a line terminator or to its
    end, is [y] or [yes] but for case and surrounding space; and for a line of at
    most sixteen units the answer is exactly that test, for every way the input is
    cut into chunks, also inside the line or behind it. *)
Theorem confirmation_is_first_line chunks :
  (confirm_chunks [] chunks = true -> affirmative (answer_line (concat chunks)) = true)
  /\ ((length (answer_line (concat chunks)) <= answerLimit)%nat ->
      confirm_chunks [] chunks = affirmative (answer_line (concat chunks))).
Proof. by apply (confirm_chunks_line chunks []). Qed.

(** ** Lemmas: the body of a message *)

Lemma read_chunks_spec chunks kept :
  (Z.of_nat (length kept) <= MAX_PLAINTEXT_BYTES) ->
  read_chunks chunks kept =
    if Z.of_nat (length kept + length (concat chunks)) <=? MAX_PLAINTEXT_BYTES then Ok (kept ++ concat chunks)
    else Err (inputFailureWith (js "INVALID_MESSAGE")).
Proof.
  revert kept. induction chunks as [|chunk chunks IH]; intros kept Hk; cbn [read_chunks concat].
  - rewrite Nat.add_0_r, app_nil_r, (proj2 (Z.leb_le _ _)) by done. done.
  - rewrite length_app, Nat.add_assoc. destruct (MAX_PLAINTEXT_BYTES <? Z.of_nat (length kept + length chunk)) eqn:E.
    + apply Z.ltb_lt in E. rewrite (proj2 (Z.leb_gt _ _)) by lia. done.
    + apply Z.ltb_ge in E. rewrite IH by (rewrite length_app; lia). by rewrite length_app, <- app_assoc.
Qed.

(** ** Lemmas: opening an existing profile changes nothing *)

Section existing.
Context {W : Type} `{Zod} `{World W} `{Native W} `{Crypto} `{Fetch W} `{UrlParser} `{Shell W}.

Lemma keeps_lift P {A} (r : res err A) : keeps P (lift (S := env W) r).
Proof. destruct r; [apply keeps_ret|apply keeps_throw]. Qed.
Lemma keeps_from_option P {A} m (o : option A) : keeps P (from_option (S := env W) m o).
Proof. destruct o; [apply keeps_ret|apply keeps_throw]. Qed.
Lemma keeps_need P (f : W -> bool * W) : keeps P (need f).
Proof. apply keeps_bind; [apply keeps_outside|]. intros []; [apply keeps_ret|apply keeps_throw]. Qed.
Lemma keeps_read_json P path : keeps P (read_json path).
Proof.
  apply keeps_bind; [apply keeps_outside|]. intros raw. apply keeps_bind; [apply keeps_from_option|]. intros t.
  apply keeps_from_option.
Qed.
Lemma keeps_unless P {A} e (m : Rt (W := W) A) : keeps P m -> keeps P (unless_configuration e m).
Proof. intros Hm. apply keeps_catch; [done|]. intros []; apply keeps_throw. Qed.
Lemma keeps_load P dir : keeps P (loadConfig dir).
Proof. apply keeps_unless, keeps_bind; [apply keeps_read_json|]. intros j. apply keeps_lift. Qed.

(** Opening a store that holds a profile. *)
Definition has_profile (r : records) : Prop := get metadataKey r <> None.
Lemma open_existing pid r w a r' w' :
  has_profile r -> open_tx pid false (r, w) = (Ok a, (r', w')) -> r' = r.
Proof.
  intros Hp E. unfold open_tx, readMetadata in E. apply bind_ok in E as (existing & s1 & Hg & E).
  apply tx_get_ok in Hg as [-> ->]. cbn [fst] in E. unfold has_profile in Hp.
  destruct (get metadataKey r) as [bs|] eqn:Eg; [|done].
  apply bind_ok in E as (u & s1 & Hr & E). apply ret_ok in Hr as [_ ->].
  apply bind_ok in E as (metadata & s1 & Hm & E). apply bind_ok in Hm as (v & s2 & Hv & Hm).
  apply tx_get_ok in Hv as [-> ->]. cbn [fst] in Hm. rewrite Eg in Hm.
  apply bind_ok in Hm as (j & s2 & Hj & Hm). apply from_option_ok in Hj as [_ ->].
  assert (s1 = (r, w)) as -> by by injection Hm. destruct (negb _); [done|].
  apply bind_ok in E as (address & s2 & Ha & E). apply from_option_ok in Ha as [_ ->].
  assert (r <> []) as Hne by (intros ->; done). pose proof (create_reads address (r, w) Hne) as Hc.
  rewrite E in Hc. exact Hc.
Qed.
Lemma keeps_open r0 pid : has_profile r0 -> keeps (eq r0) (openProfile_transaction (W := W) pid false).
Proof.
  intros Hp. assert (keeps (eq r0) (transact (W := W) (open_tx pid false))) as Hk.
  { apply keeps_transact. intros r w a r' w' <- E. symmetry. by eapply open_existing. }
  intros s Hs. specialize (Hk s Hs). unfold transact in Hk. unfold openProfile_transaction.
  by destruct (atomic _ s) as [o s'].
Qed.
Lemma keeps_openProfile r0 dir : has_profile r0 -> keeps (eq r0) (openProfile dir None false).
Proof.
  intros Hp. unfold openProfile. cbv zeta. apply keeps_bind; [apply keeps_outside|]. intros [].
  2:{ apply keeps_throw. }
  cbn [negb andb orb]. apply keeps_bind; [apply keeps_read_json|]. intros input.
  apply keeps_bind; [apply keeps_lift|]. intros parsed. apply keeps_bind; [apply keeps_ret|]. intros u.
  apply keeps_bind; [apply keeps_lift|]. intros key. apply keeps_bind; [apply keeps_outside|]. intros db.
  destruct (negb db && true); [apply keeps_throw|].
  apply keeps_bind; [apply keeps_need|]. intros u1. apply keeps_bind; [apply keeps_need|]. intros u2.
  apply keeps_bind; [by apply keeps_open|]. intros u3. apply keeps_bind; [apply keeps_ret|]. intros u4. apply keeps_ret.
Qed.
Lemma keeps_existing r0 dir : has_profile r0 -> keeps (eq r0) (openExistingProfile dir).
Proof.
  intros Hp. apply keeps_bind; [apply keeps_load|]. intros c. by apply keeps_unless, keeps_openProfile.
Qed.
Lemma keeps_readContactFile P path : keeps P (readContactFile path).
Proof.
  apply keeps_catch; [|intros []; apply keeps_throw]. apply keeps_bind; [apply keeps_outside|]. intros raw.
  apply keeps_bind; [apply keeps_from_option|]. intros t. destruct (_ <? _); [apply keeps_throw|apply keeps_from_option].
Qed.
(** A card whose import the operator does not confirm. *)
Lemma import_unconfirmed card ask (s : env W) r s' :
  (forall ids w, (ask ids w).1 = false) -> importContact card (Some ask) s = (r, s') ->
  (forall b, r = Ok b -> b = false) /\ stays (disk s) s s'.
Proof.
  intros Hask Hr. assert (keeps (eq (disk s)) (importContact card (Some ask))
    /\ forall s0 b s1, importContact card (Some ask) s0 = (Ok b, s1) -> b = false) as [Hk Hb].
  2:{ split; [intros b ->; by eapply Hb|]. by eapply keeps_stays. }
  assert (forall ids (s0 : env W) c s1, outside (ask ids) s0 = (Ok c, s1) -> c = false) as Hc.
  { intros ids s0 c s1 E. unfold outside in E. specialize (Hask ids (world s0)). destruct (ask ids (world s0)).
    injection E as <- _. exact Hask. }
  unfold importContact. cbv zeta. split.
  - apply keeps_bind; [apply keeps_lift|]. intros copied. apply keeps_bind; [apply keeps_lift|]. intros parsed.
    apply keeps_bind; [apply keeps_outside|]. intros now. apply keeps_bind; [apply keeps_lift|]. intros [address bundle].
    set (ids := contact_identifiers _). intros s0 Hs0. unfold bind.
    pose proof (Hc ids s0) as Hc'. pose proof (keeps_outside (eq (disk s)) (ask ids) s0 Hs0) as Ho.
    destruct (outside (ask ids) s0) as [[c|e] s1]; [|exact Ho]. by rewrite (Hc' c s1 eq_refl).
  - intros s0 b s1 E. do 3 (apply bind_ok in E as (? & ? & _ & E)). apply bind_ok in E as ([address bundle] & ? & _ & E).
    apply bind_ok in E as (c & ? & Ho & E). rewrite (Hc _ _ _ _ Ho) in E. by apply ret_ok in E as [<- _].
Qed.
End existing.

Section unconfirmed.
Context {W : Type} `{Zod} `{World W} `{Native W} `{Crypto} `{Fetch W} `{UrlParser} `{Shell W}.

(** The operator gives no confirmation: no [--yes], and no affirmative first line. *)
Definition not_confirmed (values : CliValues) : Prop :=
  get (js "yes") values <> Some VTrue
  /\ forall w : W, affirmative (answer_line (concat (stdin_answer w).1)) = false.

Lemma confirm_refused values ids (w : W) :
  not_confirmed values ->
  (confirm_import (match get (js "yes") values with Some VTrue => true | _ => false end) ids w).1 = false.
Proof.
  intros [Hy Ha]. unfold confirm_import. destruct (get (js "yes") values) as [[t|]|]; [| by destruct Hy|];
    (unfold readConfirmation; set (w' := write_stderr _ _); specialize (Ha w');
     destruct (stdin_answer w') as [chunks w'']; cbn [fst] in *; apply not_true_iff_false; intros Hc;
     apply (confirm_chunks_line chunks []) in Hc; [|done]; cbn [app] in Hc; congruence).
Qed.

Lemma bind_ext {S A B} (m : M S A) (f g : A -> M S B) s :
  (forall a s', f a s' = g a s') -> bind m f s = bind m g s.
Proof. intros Hf. unfold bind. by destruct (m s) as [[a|e] s']. Qed.
Lemma import_command rawArgs values (s : env W) :
  parseCommand rawArgs = Ok (js "contact import", values) ->
  protocol_command rawArgs s = (lift (rejectUnexpectedMissing (js "contact import") values);;
    profileDir <- lift (required values (js "profile")); execute_import profileDir values) s.
Proof.
  intros Hp. unfold protocol_command. rewrite Hp. unfold bind at 1, lift at 1. apply bind_ext. intros u s1.
  unfold execute. eval_keys. reflexivity.
Qed.
Lemma import_fails dir values r0 :
  not_confirmed values -> has_profile r0 ->
  keeps (eq r0) (execute_import dir values) /\ forall s b s1, execute_import dir values s <> (Ok b, s1).
Proof.
  intros Hn Hm. set (yes := match get (js "yes") values with Some VTrue => true | _ => false end).
  assert (forall ids w, (confirm_import yes ids w).1 = false) as Hask by (intros ids w; by apply confirm_refused).
  unfold execute_import. cbv zeta. fold yes. split.
  - apply keeps_bind; [apply keeps_lift|]. intros from. apply keeps_bind; [apply keeps_readContactFile|]. intros card.
    apply keeps_bind; [by apply keeps_existing|]. intros u s0 Hs0. unfold bind, catch.
    destruct (importContact card _ s0) as [[b|e] s1] eqn:E;
      destruct (import_unconfirmed _ _ _ _ _ Hask E) as [Hb (Hd & new & Hc & Hf)]; rewrite <- Hs0 in *.
    + rewrite (Hb b eq_refl). cbn [negb throw snd]. split; [by symmetry|eauto].
    + destruct e; cbn [throw snd]; (split; [by symmetry|eauto]).
  - intros s b s1 E. apply bind_ok in E as (from & s2 & _ & E). apply bind_ok in E as (card & s3 & _ & E).
    apply bind_ok in E as (u & s4 & _ & E). apply bind_ok in E as (imported & s5 & Hi & E).
    unfold catch in Hi. destruct (importContact card _ s4) as [[c|e] s6] eqn:Ei; [|by destruct e].
    destruct (import_unconfirmed _ _ _ _ _ Hask Ei) as [Hb _]. injection Hi as <- _.
    by rewrite (Hb c eq_refl) in E.
Qed.

(** No trust without a yes.  When [contact import] is run on an existing profile
    without [--yes] and the operator's answer is not an affirmative first line, the
    command fails, whatever the card, the relay's configuration and the files are: no
    record of the store changes, not even for a moment, so no contact is pinned and
    no identity is approved. *)
Theorem unconfirmed_import_fails rawArgs values (s : env W) :
  parseCommand rawArgs = Ok (js "contact import", values) -> not_confirmed values -> has_profile (disk s) ->
  exists e s', run_protocol rawArgs s = ((failure_report (f_code (classify e)), f_exitCode (classify e)), s')
    /\ stays (disk s) s s'.
Proof.
  intros Hp Hn Hm. unfold run_protocol. rewrite (import_command _ _ _ Hp).
  set (run := bind _ _). assert (keeps (eq (disk s)) run /\ forall s0 b s1, run s0 <> (Ok b, s1)) as [Hk Hne].
  { subst run. split.
    - apply keeps_bind; [apply keeps_lift|]. intros u. apply keeps_bind; [apply keeps_lift|]. intros dir.
      by apply import_fails.
    - intros s0 b s1 E. apply bind_ok in E as (u & s2 & _ & E). apply bind_ok in E as (dir & s3 & _ & E).
      by apply (import_fails dir values (disk s)) in E. }
  destruct (run s) as [[b|e] s'] eqn:E; [by destruct (Hne s b s')|]. exists e, s'. split; [done|]. by eapply keeps_stays.
Qed.
End unconfirmed.

(** ** Witnesses *)
Module CliSample.
Definition parser : UrlParser := {| new_URL s := Some (Url (js "https:") [] [] (js "relay.example") [] [] (js "/") s) |}.
Definition config : json := JObj
  [ (js "profile_version", JNum 1); (js "profile_id", JStr ProfileSample.profile_id);
    (js "relay_url", JStr (js "https://relay.example")); (js "database_path", JStr (js "client.sqlite"));
    (js "store_key_env", JStr (js "KEY")); (js "request_timeout_ms", JNum 5000); (js "poll_batch_size", JNum 50) ].
(** A process whose profile is complete and whose operator types [no]. *)
Definition shell : Shell Toy.world := {|
  resolve d n := d ++ js "/" ++ n;
  dirname d := d;
  environment name := Some (replicate 43 65);
  existsSync _ w := (true, w);
  readFile path w := (Some (stringify (if eqb path (js "card.json") then ProfileSample.card else config)), w);
  mkdirSync _ w := (true, w);
  writeNewFile _ _ w := (true, w);
  linkSync _ _ w := (true, w);
  unlinkSync _ w := (true, w);
  store_opens _ _ w := (true, w);
  write_stderr _ w := w;
  stdin_isTTY := false;
  stdin_body w := ([], w);
  stdin_answer w := ([js "n"; js "o" ++ [10]], w);
|}.
Definition arguments : list jstr := [js "contact"; js "import"; js "--profile"; js "p"; js "--from"; js "card.json"].
Definition values : CliValues := match parseCommand arguments with Ok (_, v) => v | Err _ => [] end.
Definition run : (json * Z) * env Toy.world :=
  run_protocol (H := zod_example) (H0 := Toy.world_ops) (H1 := ToyNative.native) (H2 := Toy.crypto)
    (H3 := ToyRelay.fetch) (H4 := parser) (H5 := shell) arguments ProfileSample.opened.2.
End CliSample.
Lemma unconfirmed_import_fails_witness : exists e s',
  CliSample.run = ((failure_report (f_code (classify e)), f_exitCode (classify e)), s').
Proof.
  destruct (unconfirmed_import_fails (H := zod_example) (H0 := Toy.world_ops) (H1 := ToyNative.native) (H2 := Toy.crypto)
    (H3 := ToyRelay.fetch) (H4 := CliSample.parser) (H5 := CliSample.shell) CliSample.arguments CliSample.values
    ProfileSample.opened.2) as (e & s' & Hr & _).
  - vm_compute. reflexivity.
  - split; [vm_compute; discriminate|]. intros w. vm_compute. reflexivity.
  - vm_compute. discriminate.
  - exists e, s'. exact Hr.
Defined.
