(* ===== verification/Text.v ===== *)
(** * The console's text primitives: [tui/text.ts] and [tui/pane-fit.ts]

    Widths are code points.  A terminal's columns and rows are integers, so
    [Math.floor] of a width is the width; a pane's limit is an integer or
    [Infinity] ([None]).  Theorems: what [paintable] removes, exact widths, and what
    a truncated pane shows. *)

From S2P Require Import Prelude JsString Effects.

(** ** [text.ts] *)

Definition codePoints (text : jstr) : list jstr := code_points text.
Definition columns (text : jstr) : Z := Z.of_nat (length (codePoints text)).
Definition utf8Bytes (text : jstr) : Z := utf8_length text.
Definition slice {A} (n : Z) (l : list A) : list A := take (Z.to_nat n) l.
Definition clipLine (text : jstr) (width : Z) : jstr :=
  let limit := Z.max 0 width in
  let points := codePoints text in
  if Z.of_nat (length points) <=? limit then text else concat (slice limit points).
Definition padOrClip (text : jstr) (width : Z) : jstr :=
  let limit := Z.max 0 width in
  let points := codePoints text in
  if limit <=? Z.of_nat (length points) then concat (slice limit points)
  else text ++ repeat_str [32] (limit - Z.of_nat (length points)).
(** Every call leaves the gutter at its default, 16. *)
Definition labelled (label value : jstr) : jstr := padOrClip label 16 ++ value.

Definition steersTheDisplay (point : jstr) : bool :=
  let code := point_value point in
  if (code <=? 0x1f) || (code =? 0x7f) || ((0x80 <=? code) && (code <=? 0x9f)) then true
  else if (code =? 0x200e) || (code =? 0x200f) then true
  else if (0x202a <=? code) && (code <=? 0x202e) then true
  else if (0x2066 <=? code) && (code <=? 0x2069) then true
  else (code =? 0x2028) || (code =? 0x2029) || (code =? 0xfeff).
Definition paintable (text : jstr) : jstr :=
  concat (List.filter (fun point => negb (steersTheDisplay point)) (code_points text)).

(** *** Dates: [new Date(ms).toISOString()]

    The civil date of a count of days since 1970, and its text; a time value outside
    8.64e15 milliseconds is a [RangeError]. *)
Definition civil_of_days (days : Z) : Z * Z * Z :=
  let z := days + 719468 in
  let era := z / 146097 in
  let doe := z mod 146097 in
  let yoe := (doe - doe / 1460 + doe / 36524 - doe / 146096) / 365 in
  let doy := doe - (365 * yoe + yoe / 4 - yoe / 100) in
  let mp := (5 * doy + 2) / 153 in
  let month := if mp <? 10 then mp + 3 else mp - 9 in
  (yoe + era * 400 + (if month <=? 2 then 1 else 0), month, doy - (153 * mp + 2) / 5 + 1).
Definition digits (width n : Z) : jstr := pad_start width 48 (show_Z n).
Definition year_text (y : Z) : jstr :=
  if (0 <=? y) && (y <=? 9999) then digits 4 y
  else if y <? 0 then 45 :: digits 6 (- y) else 43 :: digits 6 y.
Definition valid_time (ms : Z) : bool := Z.abs ms <=? 8640000000000000.
Definition iso_text (ms : Z) : jstr :=
  let '(y, m, d) := civil_of_days (ms / 86400000) in
  let t := ms mod 86400000 in
  year_text y ++ js "-" ++ digits 2 m ++ js "-" ++ digits 2 d ++ js "T" ++ digits 2 (t / 3600000) ++ js ":"
  ++ digits 2 (t / 60000 mod 60) ++ js ":" ++ digits 2 (t / 1000 mod 60) ++ js "." ++ digits 3 (t mod 1000) ++ js "Z".
Definition toISOString (ms : Z) : res err jstr :=
  if valid_time ms then Ok (iso_text ms) else Err (ErrOther (js "RangeError")).

(** [replace("T", " ")]: the first one. *)
Fixpoint replace_first (u v : Z) (s : jstr) : jstr :=
  match s with [] => [] | x :: s => if x =? u then v :: s else x :: replace_first u v s end.
Definition formatInstant (atMs : option Z) : res err jstr :=
  match atMs with
  | None => Ok (js "never")
  | Some ms => res_map (fun iso => replace_first 84 32 (take 19 iso) ++ js "Z") (toISOString ms)
  end.

(** ** [pane-fit.ts] *)

Inductive KeepEnd := KeepHead | KeepTail.
Inductive PaneRow := Line (line : jstr) | Lines (lines : list jstr).
Definition rowLines (row : PaneRow) : list jstr := match row with Line line => [line] | Lines lines => lines end.
Record PaneRegions := Regions { head : list jstr; rows : list PaneRow; tail : list jstr; keep : KeepEnd }.
Definition truncationMarker (hidden : Z) : jstr := js "… " ++ show_Z hidden ++ js " more not shown".

Definition height (row : PaneRow) : Z := Z.of_nat (length (rowLines row)).
(** The loop of [keepItems], after [n] items of [used] lines. *)
Fixpoint keepLoop (budget : Z) (ordered : list PaneRow) (kept : list PaneRow) (used : Z) : list PaneRow * Z :=
  match ordered with
  | [] => (kept, used)
  | row :: ordered =>
      if (0 <? Z.of_nat (length kept)) && (budget <? used + height row) then (kept, used)
      else
        let kept := kept ++ [row] in
        let used := used + height row in
        if budget <=? used then (kept, used) else keepLoop budget ordered kept used
  end.
Definition keepItems (rows : list PaneRow) (keep : KeepEnd) (room budget : Z) : list PaneRow * Z :=
  if room <=? 0 then ([], 0)
  else match keep with
       | KeepTail => let '(kept, used) := keepLoop budget (rev rows) [] 0 in (rev kept, used)
       | KeepHead => keepLoop budget rows [] 0
       end.

Definition count {A} (l : list A) : Z := Z.of_nat (length l).
Definition fitPane (regions : PaneRegions) (limit : option Z) (width : Z) : list jstr :=
  let clip line := clipLine line width in
  let all := head regions ++ flat_map rowLines (rows regions) ++ tail regions in
  match limit with
  | None => map clip all
  | Some limit =>
      let cap := Z.max 0 limit in
      if count all <=? cap then map clip all
      else match rows regions with
      | [] => map clip (slice cap all)
      | _ :: _ =>
          let room := Z.max 0 (cap - 1) in
          let wanted := count (head regions) + count (tail regions) in
          let '(kept, used) := keepItems (rows regions) (keep regions) room (room - wanted) in
          let fixed := Z.max 0 (Z.min wanted (room - used)) in
          let headRoom := Z.min (count (head regions)) fixed in
          let tailRoom := Z.max 0 (fixed - headRoom) in
          map clip (slice cap
            (slice headRoom (head regions) ++ flat_map rowLines kept
             ++ [truncationMarker (count (rows regions) - count kept)]
             ++ drop (Z.to_nat (count (tail regions) - tailRoom)) (tail regions)))
      end
  end.

(** ** Lemmas: what is painted *)

Definition steers (u : Z) : bool := steersTheDisplay [u].
(** A text with no steering point in it. *)
Definition clean (s : jstr) : bool := forallb (fun u => negb (steers u)) s.

Lemma pair_paints u v : is_high u && is_low v = true -> steersTheDisplay [u; v] = false.
Proof.
  unfold is_high, is_low. intros H. bool_to_prop. unfold steersTheDisplay, point_value. by decide_bool.
Qed.
Lemma surrogate_paints u : is_surrogate u = true -> steers u = false.
Proof. unfold is_surrogate. intros H. bool_to_prop. unfold steers, steersTheDisplay, point_value. by decide_bool. Qed.
Lemma high_surrogate u : is_high u = true -> is_surrogate u = true.
Proof. unfold is_high, is_surrogate. intros H. bool_to_prop. by decide_bool. Qed.
Lemma low_surrogate u : is_low u = true -> is_surrogate u = true.
Proof. unfold is_low, is_surrogate. intros H. bool_to_prop. by decide_bool. Qed.
Lemma not_low u : is_surrogate u = false -> is_low u = false.
Proof. intros H. destruct (is_low u) eqn:E; [|done]. apply low_surrogate in E. congruence. Qed.
Lemma not_high u : is_surrogate u = false -> is_high u = false.
Proof. intros H. destruct (is_high u) eqn:E; [|done]. apply high_surrogate in E. congruence. Qed.

(** [paintable] works unit by unit: no surrogate steers, and no pair does. *)
Lemma paintable_units s : paintable s = List.filter (fun u => negb (steers u)) s.
Proof.
  unfold paintable. induction s using code_points_ind; [done|cbn [code_points List.filter]; unfold steers; by destruct (steersTheDisplay [u])| |].
  - rewrite code_points_pair by done. cbn [List.filter]. rewrite pair_paints by done. cbn [negb concat].
    rewrite IHs. apply andb_true_iff in H as [Hu Hv]. apply high_surrogate in Hu. apply low_surrogate in Hv.
    by rewrite !surrogate_paints.
  - rewrite code_points_single by done. cbn [List.filter]. fold (steers u).
    destruct (negb (steers u)); cbn [concat]; by rewrite IHs.
Qed.
Lemma paintable_clean s : clean (paintable s) = true.
Proof. rewrite paintable_units. apply forallb_forall. intros u [_ H]%List.filter_In. done. Qed.
Lemma paintable_id s : clean s = true -> paintable s = s.
Proof.
  rewrite paintable_units. induction s as [|u s IH]; [done|]. cbn [clean forallb List.filter].
  intros [-> H]%andb_true_iff. by rewrite IH.
Qed.
Lemma clean_app a b : clean (a ++ b) = clean a && clean b.
Proof. apply forallb_app. Qed.
Lemma clean_concat l : forallb clean l = true -> clean (concat l) = true.
Proof. induction l; [done|]. cbn [forallb concat]. rewrite clean_app. intros [-> ?]%andb_true_iff. auto. Qed.
(** The points of a clean text paint. *)
Lemma clean_points s : clean s = true -> forallb clean (code_points s) = true.
Proof.
  intros H. rewrite <- (code_points_concat s) in H. unfold clean in H. revert H.
  generalize (code_points s). induction l; [done|]. cbn [concat forallb]. rewrite forallb_app.
  intros [? ?]%andb_true_iff. apply andb_true_iff. auto.
Qed.
Lemma clean_steersTheDisplay s :
  clean s = true -> forallb (fun point => negb (steersTheDisplay point)) (code_points s) = true.
Proof.
  unfold clean. induction s using code_points_ind; cbn [forallb]; intros Hc; [done|exact Hc| |].
  - rewrite code_points_pair by done. cbn [forallb]. rewrite pair_paints by done. apply IHs.
    rewrite !andb_true_iff in Hc. tauto.
  - rewrite code_points_single by done. cbn [forallb]. apply andb_true_iff in Hc as [Hu Hc].
    apply andb_true_iff. split; [exact Hu|by apply IHs].
Qed.
Lemma forallb_slice {A} (p : A -> bool) n l : forallb p l = true -> forallb p (slice n l) = true.
Proof. unfold slice. rewrite <- (take_drop (Z.to_nat n) l) at 1. by rewrite forallb_app; intros [? _]%andb_true_iff. Qed.
Lemma clipLine_clean s n : clean s = true -> clean (clipLine s n) = true.
Proof.
  intros H. unfold clipLine. case_match; [done|]. apply clean_concat, forallb_slice. by apply clean_points.
Qed.

(** ** Lemmas: widths *)

Lemma length_slice {A} n (l : list A) : 0 <= n -> count (slice n l) = Z.min n (count l).
Proof. intros H. unfold count, slice. rewrite length_take. lia. Qed.
Lemma columns_slice n s : 0 <= n -> columns (concat (slice n (code_points s))) = Z.min n (columns s).
Proof. intros H. unfold columns, codePoints, slice. rewrite code_points_take, length_take. lia. Qed.
Lemma clipLine_columns s n : columns (clipLine s n) = Z.min (Z.max 0 n) (columns s).
Proof.
  unfold clipLine. fold (columns s). destruct (_ <=? _) eqn:E; bool_to_prop; [lia|].
  unfold codePoints. rewrite columns_slice; lia.
Qed.
(** Appending a text that does not start with a low surrogate keeps the points apart. *)
Lemma code_points_snoc s u t :
  is_low u = false -> code_points (s ++ u :: t) = code_points s ++ code_points (u :: t).
Proof.
  intros Hu. induction s using code_points_ind; [done| | |].
  - cbn [app]. rewrite code_points_single; [done|]. rewrite Hu. by rewrite andb_false_r.
  - cbn [app]. rewrite !code_points_pair by done. cbn [app]. by rewrite IHs.
  - cbn [app]. rewrite !code_points_single by done. cbn [app] in IHs |- *. by rewrite IHs.
Qed.
Lemma repeat_str_cons u n : 0 < n -> repeat_str [u] n = u :: repeat_str [u] (n - 1).
Proof.
  intros H. unfold repeat_str. replace (Z.to_nat n) with (S (Z.to_nat (n - 1))) by lia. reflexivity.
Qed.
Lemma code_points_repeat u n : is_surrogate u = false -> code_points (repeat_str [u] n) = replicate (Z.to_nat n) [u].
Proof.
  intros Hu. unfold repeat_str. induction (Z.to_nat n) as [|m IH]; [done|].
  change (concat (replicate (S m) [u])) with (u :: concat (replicate m [u])). rewrite code_points_cons_bmp.
  - by rewrite IH.
  - destruct (is_high u) eqn:E; [|done]. apply high_surrogate in E. congruence.
Qed.
Lemma columns_repeat u n : is_surrogate u = false -> columns (repeat_str [u] n) = Z.max 0 n.
Proof. intros Hu. unfold columns, codePoints. rewrite code_points_repeat, length_replicate by done. lia. Qed.
Lemma padOrClip_columns s n : columns (padOrClip s n) = Z.max 0 n.
Proof.
  unfold padOrClip. fold (columns s). destruct (_ <=? _) eqn:E; bool_to_prop.
  - unfold codePoints. rewrite columns_slice; lia.
  - rewrite repeat_str_cons by lia. unfold columns at 1, codePoints. rewrite code_points_snoc by done.
    rewrite <- repeat_str_cons by lia. rewrite length_app, Nat2Z.inj_add.
    change (columns s + columns (repeat_str [32] (Z.max 0 n - columns s)) = Z.max 0 n).
    rewrite columns_repeat by done. lia.
Qed.
(** A text that fits is only padded. *)
Lemma padOrClip_prefix s n : columns s <= n -> exists pad, padOrClip s n = s ++ pad.
Proof.
  intros H. unfold padOrClip. fold (columns s). destruct (_ <=? _) eqn:E; bool_to_prop; [|by eexists].
  exists []. unfold slice. rewrite take_ge; [by rewrite code_points_concat, app_nil_r|].
  unfold columns in *. lia.
Qed.
Lemma clipLine_id s n : columns s <= n -> clipLine s n = s.
Proof.
  intros H. unfold clipLine. fold (columns s). destruct (_ <=? _) eqn:E; [done|]. bool_to_prop.
  unfold columns in *. lia.
Qed.

(** ** Lemmas: panes *)

Definition lineCount (rows : list PaneRow) : Z := count (flat_map rowLines rows).
Lemma count_app {A} (a b : list A) : count (a ++ b) = count a + count b.
Proof. unfold count. rewrite length_app. lia. Qed.
Lemma count_cons {A} (x : A) l : count (x :: l) = 1 + count l.
Proof. unfold count. cbn [length]. lia. Qed.
Lemma count_nonneg {A} (l : list A) : 0 <= count l.
Proof. unfold count. lia. Qed.
Lemma count_map {A B} (f : A -> B) l : count (map f l) = count l.
Proof. unfold count. by rewrite length_map. Qed.
Lemma lineCount_app a b : lineCount (a ++ b) = lineCount a + lineCount b.
Proof. unfold lineCount. by rewrite flat_map_app, count_app. Qed.
Lemma lineCount_one row : lineCount [row] = height row.
Proof. unfold lineCount. cbn [flat_map]. by rewrite app_nil_r. Qed.
Lemma lineCount_cons row rows : lineCount (row :: rows) = height row + lineCount rows.
Proof. rewrite <- (lineCount_one row). apply (lineCount_app [row]). Qed.
Lemma lineCount_nil : lineCount [] = 0.
Proof. reflexivity. Qed.
Lemma lineCount_rev rows : lineCount (rev rows) = lineCount rows.
Proof.
  induction rows as [|row rows IH]; [done|]. cbn [rev]. rewrite lineCount_app, IH, lineCount_one, lineCount_cons. lia.
Qed.

(** The loop keeps a prefix, counts its lines, and past the first item stays in the budget. *)
Lemma keepLoop_spec budget ordered kept used bound :
  used <= bound -> budget <= bound -> (kept = [] -> Forall (fun row => used + height row <= bound) (take 1 ordered)) ->
  exists more rest, ordered = more ++ rest /\
    keepLoop budget ordered kept used = (kept ++ more, used + lineCount more) /\
    used + lineCount more <= bound /\ (kept = [] -> ordered <> [] -> more <> []).
Proof.
  revert kept used. induction ordered as [|row ordered IH]; intros kept used Hu Hb Hf.
  { exists [], []. rewrite !app_nil_r, lineCount_nil, Z.add_0_r. split_and!; done. }
  cbn [keepLoop]. destruct ((0 <? Z.of_nat (length kept)) && (budget <? used + height row)) eqn:E.
  { exists [], (row :: ordered). rewrite !app_nil_r, lineCount_nil, Z.add_0_r. split_and!; [done|done|done|].
    intros ->. cbn in E. done. }
  assert (used + height row <= bound) as Hr.
  { apply andb_false_iff in E as [E|E]; bool_to_prop; [|lia].
    destruct kept; [|cbn [length] in E; lia]. specialize (Hf eq_refl). by apply Forall_inv in Hf. }
  destruct (budget <=? used + height row).
  { exists [row], ordered. rewrite lineCount_one. done. }
  destruct (IH (kept ++ [row]) (used + height row)) as (more & rest & -> & Heq & Hl & _);
    [done|done|by destruct kept|].
  exists (row :: more), rest. rewrite Heq, lineCount_cons, <- app_assoc.
  split_and!; [done|cbn [app]; by rewrite Z.add_assoc|lia|done].
Qed.

Definition at_end (keep : KeepEnd) (kept hidden rows : list PaneRow) : Prop :=
  match keep with KeepHead => rows = kept ++ hidden | KeepTail => rows = hidden ++ kept end.
Lemma keepItems_spec rows keep room budget :
  0 < room -> budget <= room -> Forall (fun row => height row <= room) rows ->
  exists kept hidden, at_end keep kept hidden rows /\ keepItems rows keep room budget = (kept, lineCount kept) /\
    lineCount kept <= room /\ (rows <> [] -> kept <> []).
Proof.
  intros Hr Hb Hall. unfold keepItems. decide_bool. destruct keep.
  - destruct (keepLoop_spec budget rows [] 0 room) as (kept & hidden & He & -> & Hl & Hne); [lia|done| |].
    { intros _. by apply Forall_take. }
    exists kept, hidden. cbn [app]. split_and!; [done|f_equal|done|]. auto.
  - destruct (keepLoop_spec budget (rev rows) [] 0 room) as (kept & hidden & He & -> & Hl & Hne); [lia|done| |].
    { intros _. apply Forall_take. by apply Forall_rev. }
    exists (rev kept), (rev hidden). cbn [app]. rewrite lineCount_rev. split_and!; [|done|done|].
    + cbn. by rewrite <- rev_app_distr, <- He, rev_involutive.
    + intros Hn Hk. apply Hne; [done| |].
      * intros Hrev. apply Hn. by rewrite <- (rev_involutive rows), Hrev.
      * by rewrite <- (rev_involutive kept), Hk.
Qed.

Definition allLines (r : PaneRegions) : list jstr := head r ++ flat_map rowLines (rows r) ++ tail r.
Lemma fitPane_bounded r limit width : count (fitPane r (Some limit) width) <= Z.max 0 limit.
Proof.
  unfold fitPane. destruct (_ <=? _) eqn:E; bool_to_prop; [by rewrite count_map|].
  destruct (rows r); [rewrite count_map, length_slice; lia|].
  destruct (keepItems _ _ _ _). rewrite count_map, length_slice; lia.
Qed.
Lemma Forall_map_clip width l : Forall (fun line => columns line <= Z.max 0 width) (map (fun line => clipLine line width) l).
Proof. apply Forall_map, Forall_true. intros line. cbn. rewrite clipLine_columns. lia. Qed.
Lemma fitPane_width r limit width : Forall (fun line => columns line <= Z.max 0 width) (fitPane r limit width).
Proof.
  unfold fitPane. destruct limit as [limit|]; [|apply Forall_map_clip].
  destruct (_ <=? _); [apply Forall_map_clip|]. destruct (rows r); [apply Forall_map_clip|].
  destruct (keepItems _ _ _ _). apply Forall_map_clip.
Qed.
Lemma fitPane_whole r limit width :
  count (allLines r) <= limit -> fitPane r (Some limit) width = map (fun line => clipLine line width) (allLines r).
Proof. intros H. pose proof (count_nonneg (allLines r)). unfold fitPane. fold (allLines r). by decide_bool. Qed.

(** A pane that is cut keeps items at the end it promises, at least one, each whole, and says how
    many it left out. *)
Lemma fitPane_cut r limit width :
  rows r <> [] -> limit < count (allLines r) -> 2 <= limit -> Forall (fun row => height row <= limit - 1) (rows r) ->
  exists kept hidden above below,
    at_end (keep r) kept hidden (rows r) /\ kept <> [] /\
    fitPane r (Some limit) width = map (fun line => clipLine line width)
      (slice above (head r) ++ flat_map rowLines kept ++ [truncationMarker (count hidden)] ++ drop below (tail r)).
Proof.
  intros Hne Hcut Hlim Hall.
  destruct (keepItems_spec (rows r) (keep r) (limit - 1) (limit - 1 - (count (head r) + count (tail r))))
    as (kept & hidden & He & Hk & Hl & Hkn); [lia| |done|].
  { pose proof (count_nonneg (head r)). pose proof (count_nonneg (tail r)). lia. }
  exists kept, hidden. eexists _, _. split; [exact He|]. split; [auto|].
  unfold fitPane. fold (allLines r). replace (Z.max 0 limit) with limit by lia.
  destruct (_ <=? _) eqn:E; bool_to_prop; [lia|]. clear E. replace (Z.max 0 (limit - 1)) with (limit - 1) by lia.
  destruct (rows r) as [|row rs] eqn:Er; [done|]. rewrite <- Er in *. clear Er. rewrite Hk.
  assert (count (rows r) - count kept = count hidden) as ->.
  { destruct (keep r); cbn in He; rewrite He, count_app; lia. }
  unfold slice at 1. rewrite take_ge; [reflexivity|]. rewrite !length_app. cbn [length].
  fold (slice (Z.min (count (head r)) (Z.max 0 (Z.min (count (head r) + count (tail r)) (limit - 1 - lineCount kept)))) (head r)).
  pose proof (count_nonneg (head r)). pose proof (count_nonneg (tail r)).
  unfold slice. rewrite length_take, length_drop. unfold lineCount, count in *. lia.
Qed.

(** *** Cleanness of what is laid out *)

Lemma padOrClip_clean s n : clean s = true -> clean (padOrClip s n) = true.
Proof.
  intros H. unfold padOrClip. destruct (_ <=? _); [apply clean_concat, forallb_slice; by apply clean_points|].
  rewrite clean_app, H. unfold repeat_str. by induction (Z.to_nat _).
Qed.
Lemma digit_clean u : is_digit u = true -> negb (steers u) = true.
Proof. unfold is_digit. intros H. bool_to_prop. unfold steers, steersTheDisplay, point_value. by decide_bool. Qed.
Lemma show_Z_clean z : clean (show_Z z) = true.
Proof.
  assert (forall u, clean (uint_units u) = true) as Hu.
  { intros u. pose proof (uint_units_digits u) as D. unfold clean. rewrite forallb_forall in *. intros x Hx.
    by apply digit_clean, D. }
  unfold show_Z. destruct (Z.to_int z); [apply Hu|]. exact (Hu _).
Qed.
Lemma join_clean sep l : clean sep = true -> forallb clean l = true -> clean (join sep l) = true.
Proof.
  intros Hs. induction l as [|x [|y l] IH]; [done|cbn; by rewrite andb_true_r|].
  intros [Hx Hl]%andb_true_iff. change (clean (x ++ sep ++ join sep (y :: l)) = true). by rewrite !clean_app, Hx, Hs, IH.
Qed.
Lemma labelled_clean label value : clean label = true -> clean value = true -> clean (labelled label value) = true.
Proof. intros Hl Hv. unfold labelled. by rewrite clean_app, padOrClip_clean, Hv. Qed.
Lemma marker_clean n : clean (truncationMarker n) = true.
Proof.
  unfold truncationMarker. rewrite !clean_app, show_Z_clean.
  assert (clean (js "… ") = true) as -> by (vm_compute; reflexivity). vm_compute. reflexivity.
Qed.
Lemma iso_clean ms : clean (iso_text ms) = true.
Proof.
  assert (forall w n, clean (digits w n) = true) as Hd.
  { intros w n. unfold digits, pad_start. rewrite clean_app, show_Z_clean. rewrite andb_true_r.
    by induction (Z.to_nat w - length (show_Z n))%nat. }
  assert (clean (js "-") && clean (js "T") && clean (js ":") && clean (js ".") && clean (js "Z") = true) as Hl
    by (vm_compute; reflexivity).
  rewrite !andb_true_iff in Hl. destruct Hl as [[[[H1 H2] H3] H4] H5].
  assert (forall y, clean (year_text y) = true) as Hy.
  { intros y. unfold year_text. destruct (_ && _); [apply Hd|]. destruct (y <? 0); exact (Hd _ _). }
  unfold iso_text. destruct (civil_of_days _) as [[y m] d]. by rewrite !clean_app, !Hd, Hy, H1, H2, H3, H4, H5.
Qed.
Lemma replace_first_clean u v s : negb (steers v) = true -> clean s = true -> clean (replace_first u v s) = true.
Proof.
  intros Hv. induction s as [|x s IH]; [done|]. cbn [clean forallb replace_first]. intros [Hx Hs]%andb_true_iff.
  destruct (x =? u); cbn [clean forallb]; [by rewrite Hv, Hs|]. unfold clean in IH. by rewrite Hx, IH.
Qed.
Lemma formatInstant_clean ms s : formatInstant ms = Ok s -> clean s = true.
Proof.
  destruct ms as [ms|]; cbn [formatInstant]; [|intros [= <-]; vm_compute; reflexivity].
  unfold toISOString. destruct (valid_time ms); [|done]. cbn [res_map]. intros [= <-]. rewrite clean_app.
  assert (clean (js "Z") = true) as -> by (vm_compute; reflexivity). rewrite andb_true_r.
  apply replace_first_clean; [done|]. apply (forallb_slice _ 19). apply iso_clean.
Qed.
Lemma formatInstant_ok ms : match ms with Some ms => valid_time ms | None => true end = true -> exists s, formatInstant ms = Ok s.
Proof. destruct ms as [ms|]; cbn [formatInstant]; [|eauto]. intros H. unfold toISOString. rewrite H. cbn. eauto. Qed.

Lemma keepLoop_prefix budget ordered kept used :
  exists more rest, ordered = more ++ rest /\ (keepLoop budget ordered kept used).1 = kept ++ more.
Proof.
  revert kept used. induction ordered as [|row ordered IH]; intros kept used; cbn [keepLoop].
  { exists [], []. cbn [fst]. rewrite (app_nil_r kept). done. }
  destruct (_ && _); [exists [], (row :: ordered); cbn [fst]; rewrite (app_nil_r kept); done|].
  destruct (_ <=? _); [exists [row], ordered; done|].
  destruct (IH (kept ++ [row]) (used + height row)) as (more & rest & -> & ->).
  exists (row :: more), rest. by rewrite <- app_assoc.
Qed.
Definition lines_clean (rows : list PaneRow) : bool := forallb clean (flat_map rowLines rows).
Lemma lines_clean_app a b : lines_clean (a ++ b) = lines_clean a && lines_clean b.
Proof. unfold lines_clean. by rewrite flat_map_app, forallb_app. Qed.
Lemma lines_clean_rev rows : lines_clean (rev rows) = lines_clean rows.
Proof.
  induction rows as [|row rows IH]; [done|]. cbn [rev]. rewrite lines_clean_app, IH, andb_comm.
  by rewrite <- (lines_clean_app [row] rows).
Qed.
Lemma keepItems_clean rows keep room budget : lines_clean rows = true -> lines_clean (keepItems rows keep room budget).1 = true.
Proof.
  intros H. unfold keepItems. destruct (room <=? 0); [done|]. destruct keep.
  - destruct (keepLoop_prefix budget rows [] 0) as (more & rest & E & ->). rewrite E, lines_clean_app in H.
    by apply andb_true_iff in H as [? _].
  - destruct (keepLoop_prefix budget (rev rows) [] 0) as (more & rest & E & Hk).
    destruct (keepLoop budget (rev rows) [] 0) as [kept used]. cbn [fst] in *. subst kept.
    rewrite lines_clean_rev. rewrite <- lines_clean_rev, E, lines_clean_app in H. by apply andb_true_iff in H as [? _].
Qed.
Lemma map_clip_clean width l : forallb clean l = true -> forallb clean (map (fun line => clipLine line width) l) = true.
Proof. rewrite !forallb_forall. intros H x (y & <- & Hy)%in_map_iff. by apply clipLine_clean, H. Qed.
Lemma fitPane_clean r limit width :
  forallb clean (head r) = true -> lines_clean (rows r) = true -> forallb clean (tail r) = true ->
  forallb clean (fitPane r limit width) = true.
Proof.
  intros Hh Hr Ht. assert (forallb clean (allLines r) = true) as Hall.
  { unfold allLines. rewrite !forallb_app. fold (lines_clean (rows r)). by rewrite Hh, Hr, Ht. }
  unfold fitPane. destruct limit as [limit|]; [|by apply map_clip_clean]. fold (allLines r).
  destruct (_ <=? _); [by apply map_clip_clean|].
  destruct (rows r) as [|row rs] eqn:E; [by apply map_clip_clean, forallb_slice|]. rewrite <- E in *.
  pose proof (keepItems_clean (rows r) (keep r) (Z.max 0 (Z.max 0 limit - 1))
    (Z.max 0 (Z.max 0 limit - 1) - (count (head r) + count (tail r))) Hr) as Hk.
  destruct (keepItems _ _ _ _) as [kept used]. cbn [fst] in Hk. apply map_clip_clean, forallb_slice.
  rewrite !forallb_app. fold (lines_clean kept). rewrite forallb_slice, Hk, forallb_drop by done. cbn [forallb].
  by rewrite marker_clean.
Qed.

(** An item taller than the room is kept whole, and the cut that follows takes the marker: the pane
    does not say that it is short. *)
Lemma tall_item_loses_marker :
  fitPane (Regions [] [Lines [js "a"; js "b"; js "c"]; Line (js "d")] [] KeepHead) (Some 2) 10 = [js "a"; js "b"].
Proof. vm_compute. reflexivity. Qed.
