(* ===== verification/Console.v ===== *)
(** * The operator console's data: [tui/state.ts], [tui/intents.ts], [tui/cli-bridge.ts],
      [tui/modal-host.ts] (the decisions) and [tui/failure-text.ts]

    What the console holds, what a keystroke may ask for, the argument vector of a
    command, the reading of a command's answer, and the words for a failure.
    Theorems: the argument vectors are read back by the command line's own parser,
    the CLI's reports are read back verbatim, and the words never steer a terminal. *)

From S2P Require Import Prelude JsString Json JsMap Zod Protocol Platform Effects.
From S2P Require Import Store Signal Profile Config RelayClient Outbound Args Cli Text.

(** ** [state.ts] *)

Record Viewport := MkViewport { cols : Z; screenRows : Z }.
Inductive PaneId := PaneProfiles | PaneMailbox | PaneHistory | PaneRejections | PaneHealth.
Definition PANE_IDS : list PaneId := [PaneProfiles; PaneMailbox; PaneHistory; PaneRejections; PaneHealth].
#[export] Instance pane_eq_dec : EqDecision PaneId.
Proof. solve_decision. Defined.
Record KeyEvent := Key { k_name : jstr; k_ctrl : bool; k_sequence : jstr }.
Inductive ProfileState := StateUnknown | StateAbsent | StateReady.
Inductive StepOutcome := Pending | StepOk | Failed (failed : jstr) (exitCode : Z).
Definition SETUP_STEPS : nat := 6.
Definition PENDING_SETUP : list StepOutcome := replicate 6 Pending.

(** An optional field is an [option]; [storeKeyPresent] is only ever compared with [true], so an
    absent one is [false]. *)
Record ProfileView := MkProfile {
  pv_label : jstr; pv_profileDir : jstr; pv_relayUrl : jstr; pv_storeKeyEnv : jstr; pv_identityId : jstr;
  pv_deviceId : jstr; pv_contactCount : Z; pv_published : bool; pv_state : option ProfileState;
  pv_storeKeyPresent : bool; pv_setup : option (list StepOutcome); pv_contactCardPath : option jstr }.
Record ContactView := MkContact {
  cv_identityId : jstr; cv_deviceId : jstr; cv_devicePubkey : jstr; cv_signalIdentityKey : jstr }.
Record MailboxView := MkMailbox {
  mb_outboxPending : option Z; mb_inboxReceived : option Z; mb_more : bool; mb_lastPolledAtMs : option Z }.
Record RejectionView := MkRejection { rj_envelopeId : jstr; rj_code : jstr }.
Inductive direction := Inbound | Outbound.
Record HistoryEntryView := MkEntry {
  he_sequence : Z; he_contactIdentityId : jstr; he_messageId : jstr; he_direction : direction; he_plaintext : jstr;
  he_createdAtMs : Z }.
Inductive RelayStatus := Healthy | Unreachable | StatusUnknown.
Record RelayHealthView := MkHealth {
  rh_relayUrl : jstr; rh_status : RelayStatus; rh_uptimeMs : option Z; rh_checkedAtMs : option Z }.
Record TrustIdentifiers := MkIdentifiers {
  ti_identity_id : option jstr; ti_device_id : option jstr; ti_device_pubkey : option jstr;
  ti_signal_identity_key : option jstr }.
Record TrustModal := MkModal {
  tm_cardPath : jstr; tm_profileLabel : jstr; tm_identifiers : TrustIdentifiers; tm_renderedAt : option Z }.
Inductive InputField :=
  | FieldRelayUrl | FieldProfileDir | FieldStoreKeyEnv | FieldExportPath | FieldCardPath | FieldMessage
  | FieldContactName.
Record InputState := MkInput { in_field : InputField; in_buffer : jstr; in_renderedAt : option Z; in_maxBytes : Z }.
Definition PATH_MAX_BYTES : Z := 1024.
Definition NAME_MAX_BYTES : Z := 128.
Definition inputMaxBytes (field : InputField) : Z :=
  match field with
  | FieldMessage => MAX_PLAINTEXT_BYTES
  | FieldContactName | FieldStoreKeyEnv => NAME_MAX_BYTES
  | _ => PATH_MAX_BYTES
  end.

Definition is_ok_step (o : option StepOutcome) : bool := match o with Some StepOk => true | _ => false end.
(** The first of the steps from [step] on, [n] of them, that is not ["ok"]. *)
Fixpoint first_open (setup : list StepOutcome) (step n : nat) : option nat :=
  match n with
  | O => None
  | S n => if is_ok_step (setup !! step) then first_open setup (S step) n else Some step
  end.
Definition setupIsComplete (profile : ProfileView) : bool :=
  match pv_setup profile with
  | Some setup =>
      pv_storeKeyPresent profile && match first_open setup 1 (SETUP_STEPS - 1) with None => true | Some _ => false end
  | None => false
  end.
Definition profileIsInSetup (profile : ProfileView) : bool :=
  match pv_setup profile with Some _ => negb (setupIsComplete profile) | None => false end.
Definition nextSetupStep (profile : ProfileView) : option nat :=
  match pv_setup profile with
  | Some setup => if pv_storeKeyPresent profile then first_open setup 1 (SETUP_STEPS - 1) else None
  | None => None
  end.

Record ActivityLine := MkActivity { al_at : Z; al_text : jstr }.
Record OperatorState := MkState {
  os_profiles : list ProfileView; os_activeProfile : Z; os_contacts : list ContactView;
  os_selectedContactId : option jstr; os_mailbox : MailboxView; os_rejections : list RejectionView;
  os_history : list HistoryEntryView; os_health : RelayHealthView; os_pane : PaneId; os_modal : option TrustModal;
  os_activity : list ActivityLine; os_busy : bool; os_help : bool; os_input : option InputState;
  os_observedAtMs : option Z }.
(** [profiles[index]] *)
Definition nth_opt {A} (l : list A) (index : Z) : option A := if index <? 0 then None else l !! Z.to_nat index.
Definition activeProfile (s : OperatorState) : option ProfileView := nth_opt (os_profiles s) (os_activeProfile s).
Definition createInitialState (profiles : list ProfileView) : OperatorState := {|
  os_profiles := profiles; os_activeProfile := 0; os_contacts := []; os_selectedContactId := None;
  os_mailbox := MkMailbox None None false None; os_rejections := []; os_history := [];
  os_health := MkHealth (match profiles with first :: _ => pv_relayUrl first | [] => [] end) StatusUnknown None None;
  os_pane := PaneProfiles; os_modal := None; os_activity := []; os_busy := false; os_help := false; os_input := None;
  os_observedAtMs := None |}.

(** [{ ...state, field }] *)
Definition with_profiles v s := MkState v (os_activeProfile s) (os_contacts s) (os_selectedContactId s) (os_mailbox s) (os_rejections s) (os_history s) (os_health s) (os_pane s) (os_modal s) (os_activity s) (os_busy s) (os_help s) (os_input s) (os_observedAtMs s).
Definition with_activeProfile v s := MkState (os_profiles s) v (os_contacts s) (os_selectedContactId s) (os_mailbox s) (os_rejections s) (os_history s) (os_health s) (os_pane s) (os_modal s) (os_activity s) (os_busy s) (os_help s) (os_input s) (os_observedAtMs s).
Definition with_contacts v s := MkState (os_profiles s) (os_activeProfile s) v (os_selectedContactId s) (os_mailbox s) (os_rejections s) (os_history s) (os_health s) (os_pane s) (os_modal s) (os_activity s) (os_busy s) (os_help s) (os_input s) (os_observedAtMs s).
Definition with_selected v s := MkState (os_profiles s) (os_activeProfile s) (os_contacts s) v (os_mailbox s) (os_rejections s) (os_history s) (os_health s) (os_pane s) (os_modal s) (os_activity s) (os_busy s) (os_help s) (os_input s) (os_observedAtMs s).
Definition with_mailbox v s := MkState (os_profiles s) (os_activeProfile s) (os_contacts s) (os_selectedContactId s) v (os_rejections s) (os_history s) (os_health s) (os_pane s) (os_modal s) (os_activity s) (os_busy s) (os_help s) (os_input s) (os_observedAtMs s).
Definition with_rejections v s := MkState (os_profiles s) (os_activeProfile s) (os_contacts s) (os_selectedContactId s) (os_mailbox s) v (os_history s) (os_health s) (os_pane s) (os_modal s) (os_activity s) (os_busy s) (os_help s) (os_input s) (os_observedAtMs s).
Definition with_history v s := MkState (os_profiles s) (os_activeProfile s) (os_contacts s) (os_selectedContactId s) (os_mailbox s) (os_rejections s) v (os_health s) (os_pane s) (os_modal s) (os_activity s) (os_busy s) (os_help s) (os_input s) (os_observedAtMs s).
Definition with_health v s := MkState (os_profiles s) (os_activeProfile s) (os_contacts s) (os_selectedContactId s) (os_mailbox s) (os_rejections s) (os_history s) v (os_pane s) (os_modal s) (os_activity s) (os_busy s) (os_help s) (os_input s) (os_observedAtMs s).
Definition with_pane v s := MkState (os_profiles s) (os_activeProfile s) (os_contacts s) (os_selectedContactId s) (os_mailbox s) (os_rejections s) (os_history s) (os_health s) v (os_modal s) (os_activity s) (os_busy s) (os_help s) (os_input s) (os_observedAtMs s).
Definition with_modal v s := MkState (os_profiles s) (os_activeProfile s) (os_contacts s) (os_selectedContactId s) (os_mailbox s) (os_rejections s) (os_history s) (os_health s) (os_pane s) v (os_activity s) (os_busy s) (os_help s) (os_input s) (os_observedAtMs s).
Definition with_activity v s := MkState (os_profiles s) (os_activeProfile s) (os_contacts s) (os_selectedContactId s) (os_mailbox s) (os_rejections s) (os_history s) (os_health s) (os_pane s) (os_modal s) v (os_busy s) (os_help s) (os_input s) (os_observedAtMs s).
Definition with_busy v s := MkState (os_profiles s) (os_activeProfile s) (os_contacts s) (os_selectedContactId s) (os_mailbox s) (os_rejections s) (os_history s) (os_health s) (os_pane s) (os_modal s) (os_activity s) v (os_help s) (os_input s) (os_observedAtMs s).
Definition with_help v s := MkState (os_profiles s) (os_activeProfile s) (os_contacts s) (os_selectedContactId s) (os_mailbox s) (os_rejections s) (os_history s) (os_health s) (os_pane s) (os_modal s) (os_activity s) (os_busy s) v (os_input s) (os_observedAtMs s).
Definition with_input v s := MkState (os_profiles s) (os_activeProfile s) (os_contacts s) (os_selectedContactId s) (os_mailbox s) (os_rejections s) (os_history s) (os_health s) (os_pane s) (os_modal s) (os_activity s) (os_busy s) (os_help s) v (os_observedAtMs s).
Definition with_observed v s := MkState (os_profiles s) (os_activeProfile s) (os_contacts s) (os_selectedContactId s) (os_mailbox s) (os_rejections s) (os_history s) (os_health s) (os_pane s) (os_modal s) (os_activity s) (os_busy s) (os_help s) (os_input s) v.

(** ** [cli-bridge.ts] *)

Inductive CliCommand :=
  | CmdInit | CmdContactExport | CmdContactImport | CmdRelayPublish | CmdSend | CmdPoll | CmdHistory | CmdDoctor.
#[export] Instance command_eq_dec : EqDecision CliCommand.
Proof. solve_decision. Defined.
Definition CLI_COMMANDS : list CliCommand :=
  [CmdInit; CmdContactExport; CmdContactImport; CmdRelayPublish; CmdSend; CmdPoll; CmdHistory; CmdDoctor].
Definition command_text (c : CliCommand) : jstr :=
  match c with
  | CmdInit => js "init" | CmdContactExport => js "contact export" | CmdContactImport => js "contact import"
  | CmdRelayPublish => js "relay publish" | CmdSend => js "send" | CmdPoll => js "poll" | CmdHistory => js "history"
  | CmdDoctor => js "doctor"
  end.
Inductive CliRequest :=
  | ReqInit (profileDir relayUrl storeKeyEnv : jstr)
  | ReqContactExport (profileDir out : jstr)
  | ReqContactImport (profileDir from : jstr)
  | ReqRelayPublish (profileDir : jstr)
  | ReqSend (profileDir to text : jstr) (messageId : option jstr)
  | ReqPoll (profileDir : jstr)
  | ReqHistory (profileDir contactIdentityId : jstr)
  | ReqDoctor (profileDir : jstr).
Definition req_command (r : CliRequest) : CliCommand :=
  match r with
  | ReqInit _ _ _ => CmdInit | ReqContactExport _ _ => CmdContactExport | ReqContactImport _ _ => CmdContactImport
  | ReqRelayPublish _ => CmdRelayPublish | ReqSend _ _ _ _ => CmdSend | ReqPoll _ => CmdPoll
  | ReqHistory _ _ => CmdHistory | ReqDoctor _ => CmdDoctor
  end.
Definition req_profileDir (r : CliRequest) : jstr :=
  match r with
  | ReqInit d _ _ | ReqContactExport d _ | ReqContactImport d _ | ReqRelayPublish d | ReqSend d _ _ _ | ReqPoll d
  | ReqHistory d _ | ReqDoctor d => d
  end.
Record CliOutcome := MkOutcome { co_ok : bool; co_code : jstr; co_exitCode : Z; co_data : json }.
Definition UNREADABLE_CLI_OUTPUT : jstr := js "UNREADABLE_CLI_OUTPUT".

(** The union leaves no ninth command to refuse. *)
Definition buildArgv (request : CliRequest) : list jstr :=
  match request with
  | ReqInit profileDir relayUrl storeKeyEnv =>
      [js "init"; js "--relay-url"; relayUrl; js "--store-key-env"; storeKeyEnv; js "--profile"; profileDir; js "--json"]
  | ReqContactExport profileDir out =>
      [js "contact"; js "export"; js "--out"; out; js "--profile"; profileDir; js "--json"]
  | ReqContactImport profileDir from =>
      [js "contact"; js "import"; js "--from"; from; js "--profile"; profileDir; js "--json"]
  | ReqRelayPublish profileDir => [js "relay"; js "publish"; js "--profile"; profileDir; js "--json"]
  | ReqSend profileDir to _ messageId =>
      [js "send"; js "--to"; to] ++ match messageId with Some id => [js "--message-id"; id] | None => [] end
      ++ [js "--profile"; profileDir; js "--json"]
  | ReqPoll profileDir => [js "poll"; js "--profile"; profileDir; js "--json"]
  | ReqHistory profileDir contact =>
      [js "history"; js "--with"; contact; js "--profile"; profileDir; js "--json"]
  | ReqDoctor profileDir => [js "doctor"; js "--profile"; profileDir; js "--json"]
  end.

(** [v ?? null] *)
Definition or_null (v : option json) : json := match v with Some v => v | None => JNull end.
(** What is made of the parsed text. *)
Definition outcome_of (parsed : json) (exitCode : Z) : CliOutcome :=
  match parsed with
  | JObj members =>
      match obj_get (js "ok") members with
      | Some (JBool true) => MkOutcome true (js "ok") exitCode (or_null (obj_get (js "data") members))
      | _ =>
          let code := match obj_get (js "error") members with
                      | Some error => match field (js "code") error with
                                      | Some (JStr (u :: code)) => u :: code
                                      | _ => UNREADABLE_CLI_OUTPUT
                                      end
                      | None => UNREADABLE_CLI_OUTPUT
                      end in
          MkOutcome false code exitCode (or_null (obj_get (js "data") members))
      end
  | _ => MkOutcome false UNREADABLE_CLI_OUTPUT exitCode JNull
  end.
Definition parseCliOutcome (stdout : jstr) (exitCode : Z) : CliOutcome :=
  match parse stdout with
  | Some parsed => outcome_of parsed exitCode
  | None => MkOutcome false UNREADABLE_CLI_OUTPUT exitCode JNull
  end.

(** ** [intents.ts] *)

Inductive Intent :=
  | SelectPane (pane : PaneId)
  | SelectProfile (index : Z)
  | SelectContact (identityId : jstr)
  | Run (request : CliRequest)
  | ToggleHelp
  | TrustConfirm
  | TrustCancel
  | InputOpen (field : InputField)
  | InputInsert (text : jstr)
  | InputBackspace
  | InputCancel
  | InputSubmit
  | Quit.
Inductive Effect := RunCli (request : CliRequest) | AnswerTrustPrompt (answer : bool) | EffectQuit.
Definition Step : Type := OperatorState * list Effect.

(** ** [modal-host.ts]: the decisions *)

Definition TRUST_IDENTIFIER_FIELDS : list (jstr * (TrustIdentifiers -> option jstr)) :=
  [ (js "identity_id", ti_identity_id); (js "device_id", ti_device_id); (js "device_pubkey", ti_device_pubkey);
    (js "signal_identity_key", ti_signal_identity_key) ].
(** [typeof value === "string" && value.length > 0] *)
Definition present (value : option jstr) : bool := match value with Some (_ :: _) => true | _ => false end.
Definition trustModalIsComplete (modal : TrustModal) : bool :=
  forallb (fun field => present (field.2 (tm_identifiers modal))) TRUST_IDENTIFIER_FIELDS.
Definition modalIntent (key : KeyEvent) : option Intent :=
  if k_ctrl key then None
  else if eqb (k_name key) (js "y") then Some TrustConfirm
  else if eqb (k_name key) (js "n") then Some TrustCancel
  else if eqb (k_name key) (js "escape") then Some TrustCancel
  else None.

(** [shell-chrome.ts] *)
Definition MIN_VIEWPORT : Viewport := MkViewport 72 16.
Definition isBelowMinViewport (v : Viewport) : bool :=
  (cols v <? cols MIN_VIEWPORT) || (screenRows v <? screenRows MIN_VIEWPORT).

(** ** [failure-text.ts] *)

Record Words := MkWords { w_sentence : jstr; w_action : jstr }.
Record FailureText := MkFailureText {
  ft_command : CliCommand; ft_code : jstr; ft_exitCode : Z; ft_sentence : jstr; ft_action : jstr }.
Definition CLASSES : list Z := [2; 3; 4; 5].
Definition isClass (exitCode : Z) : bool := existsb (Z.eqb exitCode) CLASSES.
(** [template.split("{code}").join(code)]; [skip] units of a match are still to be passed over. *)
Definition placeholder : jstr := js "{code}".
Fixpoint fill_from (skip : nat) (code template : jstr) : jstr :=
  match template, skip with
  | [], _ => []
  | _ :: template, S skip => fill_from skip code template
  | u :: rest, O => if starts_with placeholder template then code ++ fill_from 5 code rest else u :: fill_from 0 code rest
  end.
Definition fill (template code : jstr) : jstr := fill_from 0 code template.
Definition ENTRIES : list (jstr * Words) := [
  (js "INVALID_ARGUMENTS@2", MkWords (js "{code} — the console built this command wrongly. Nothing was read or written.")
    (js "Report it — no keystroke here should be able to produce it."));
  (js "INVALID_CONFIGURATION@2", MkWords (js "{code} — one code for six causes; the console cannot say which.")
    (js "Check steps 0 and 1 on the profiles pane; the rest are on disk."));
  (js "INVALID_CONTACT_CARD@2", MkWords (js "{code} — that file is not a contact card the CLI can read, or it is too big.")
    (js "Check the path, and that the file is the card they sent."));
  (js "INVALID_MESSAGE_ID@2", MkWords (js "{code} — the message id used here is not a UUID.")
    (js "Report it: the console names no id of its own, so the CLI minted this one."));
  (js "INVALID_MESSAGE@2", MkWords (js "{code} — the body is longer than the CLI accepts; nothing was encrypted.")
    (js "Shorten it; the compose row counts bytes once you are past half."));
  (js "TRUST_REJECTED@3", MkWords (js "{code} — refused on trust grounds; no pin and no session changed.")
    (js "Check the contact is pinned and the card you imported is the one they sent."));
  (js "CONTACT_NOT_CONFIRMED@3", MkWords (js "{code} — the import was answered with no, so nothing was pinned.")
    (js "Press i again and answer y once all four identifiers match."));
  (js "INVALID_CONTACT_CARD@3", MkWords (js "{code} — the card read cleanly but failed validation; it may have expired.")
    (js "Ask them to run contact export again and send you the new card."));
  (js "PROTOCOL_REJECTED@3", MkWords (js "{code} — the relay refused this, and will refuse the same request again.")
    (js "Check both sides run the same build against the same relay."));
  (js "PREKEY_BUNDLE_UNAVAILABLE@3", MkWords (js "{code} — their side has no claimable prekey bundle. Not a trust failure.")
    (js "Ask them to run relay publish, then try again."));
  (js "UNAUTHORIZED_MAILBOX_ACCESS@3", MkWords (js "{code} — the relay would not accept this profile as the sender.")
    (js "Run step 2 (r) to publish this profile, then try again."));
  (js "SENDER_QUOTA_EXCEEDED@3", MkWords (js "{code} — your unacked allowance in their mailbox is full. Temporary.")
    (js "It clears when they poll, or when the envelopes expire."));
  (js "CONTACT_NOT_TRUSTED@3", MkWords (js "{code} — that correspondent is not pinned in this profile.")
    (js "Import their card first: profiles pane, i."));
  (js "CONTACT_PIN_MISMATCH@3", MkWords (js "{code} — the bundle the relay served is not the one you pinned. Stop.")
    (js "Do not re-import a card sent the same way; check out of band."));
  (js "PREKEY_BUNDLE_EXPIRED@3", MkWords (js "{code} — the bundle pinned for them has expired.")
    (js "Ask them to run relay publish, then try again."));
  (js "MESSAGE_ID_CONFLICT@3", MkWords (js "{code} — that message id was already used for different text.")
    (js "Send again; each send takes a fresh id from the CLI."));
  (js "OUTBOUND_REJECTED@3", MkWords (js "{code} — the relay refused the envelope; nothing was delivered.")
    (js "Check they are still published, then send again."));
  (js "SENDER_NOT_PUBLISHED@3", MkWords (js "{code} — this profile has never published, so this was refused locally.")
    (js "Run step 2 (r) to publish, then send again."));
  (js "INBOUND_REJECTED@3", MkWords (js "{code} — the relay refused this profile's authentication; the poll stopped.")
    (js "Check this profile is published to that relay, then poll again."));
  (js "CHALLENGE_EXPIRED@3", MkWords (js "{code} — the relay's challenge expired before the poll could use it.")
    (js "Poll again; a slow or loaded relay is the usual cause."));
  (js "PROFILE_REJECTED@3", MkWords (js "{code} — the relay refused this profile's own record.")
    (js "Re-run steps 1 and 2, and check the relay URL on the profiles pane."));
  (js "RELAY_UNAVAILABLE@4", MkWords (js "{code} — the relay did not answer, so nothing was committed anywhere.")
    (js "Check it is up at the URL on the profiles pane; retrying is safe."));
  (js "PERSISTENCE_FAILURE@5", MkWords (js "{code} — the encrypted store could not be read or written.")
    (js "Do not retry blindly: check the profile directory and its store-key variable.")) ].
Definition BY_COMMAND : list (jstr * list (CliCommand * Words)) := [
  (js "PERSISTENCE_FAILURE@5",
    [(CmdContactExport, MkWords (js "{code} — one cause is that the path already exists; export never overwrites.")
      (js "Export to a new path; a real storage failure looks the same."))]) ].
Definition GENERIC : list (Z * Words) := [
  (2, MkWords (js "{code} — the CLI refused the command as it was built, not the state of the world.")
    (js "Correct the operand this command used and run it again."));
  (3, MkWords (js "{code} — a trust or protocol refusal; no pin, session or trust state changed.")
    (js "Read the code before retrying: repeated unchanged, it will be refused again."));
  (4, MkWords (js "{code} — a relay or network failure; nothing was committed anywhere.")
    (js "Check the relay at the URL on the profiles pane; retrying is safe."));
  (5, MkWords (js "{code} — a persistence failure; the encrypted store could not be read or written.")
    (js "Do not retry blindly — the store may be locked, or opened with a different key.")) ].
Definition UNCLASSED : Words :=
  MkWords (js "{code} — the CLI exited with a status this console has no class for.")
    (js "Quote the code and the status exactly if you report this.").
Definition UNREADABLE : Words :=
  MkWords (js "{code} — the CLI printed nothing the console could read, so it knows nothing more.")
    (js "Run the same command in a terminal and read its output there.").
Fixpoint assoc {K V} `{EqDecision K} (k : K) (l : list (K * V)) : option V :=
  match l with [] => None | (k', v) :: l => if eqb k' k then Some v else assoc k l end.
Definition wordsFor (command : CliCommand) (code : jstr) (exitCode : Z) : Words :=
  if eqb code UNREADABLE_CLI_OUTPUT then UNREADABLE
  else
    let key := code ++ js "@" ++ show_Z exitCode in
    match match assoc key BY_COMMAND with Some by_command => assoc command by_command | None => None end with
    | Some override => override
    | None =>
        match assoc key ENTRIES with
        | Some entry => entry
        | None => if isClass exitCode then default_to UNCLASSED (assoc exitCode GENERIC) else UNCLASSED
        end
    end.
Definition explain (command : CliCommand) (code : jstr) (exitCode : Z) : FailureText :=
  let words := wordsFor command code exitCode in
  let shown := paintable code in
  MkFailureText command code exitCode (fill (w_sentence words) shown) (fill (w_action words) shown).

(** ** The console and the command line *)

(** The values the command line reads from a request's arguments. *)
Definition request_items (request : CliRequest) : list arg_item :=
  match request with
  | ReqInit profileDir relayUrl storeKeyEnv =>
      [Spaced (js "relay-url") relayUrl; Spaced (js "store-key-env") storeKeyEnv; Spaced (js "profile") profileDir; Flag (js "json")]
  | ReqContactExport profileDir out => [Spaced (js "out") out; Spaced (js "profile") profileDir; Flag (js "json")]
  | ReqContactImport profileDir from => [Spaced (js "from") from; Spaced (js "profile") profileDir; Flag (js "json")]
  | ReqSend profileDir to _ messageId =>
      Spaced (js "to") to :: match messageId with Some id => [Spaced (js "message-id") id] | None => [] end
      ++ [Spaced (js "profile") profileDir; Flag (js "json")]
  | ReqHistory profileDir contact => [Spaced (js "with") contact; Spaced (js "profile") profileDir; Flag (js "json")]
  | ReqRelayPublish profileDir | ReqPoll profileDir | ReqDoctor profileDir =>
      [Spaced (js "profile") profileDir; Flag (js "json")]
  end.
Definition command_words (c : CliCommand) : list jstr :=
  match c with
  | CmdInit => [js "init"] | CmdContactExport => [js "contact"; js "export"]
  | CmdContactImport => [js "contact"; js "import"] | CmdRelayPublish => [js "relay"; js "publish"] | CmdSend => [js "send"]
  | CmdPoll => [js "poll"] | CmdHistory => [js "history"] | CmdDoctor => [js "doctor"]
  end.
(** The operands of a request; the message is not one. *)
Definition operands (request : CliRequest) : list jstr :=
  flat_map (fun i => match i with Spaced _ v => [v] | _ => [] end) (request_items request).
(** No operand is empty or the separator [--], and the directory is not blank. *)
Definition operand_ok (v : jstr) : bool := negb (eqb v []) && negb (eqb v optionSeparator).
Definition request_ok (request : CliRequest) : bool :=
  forallb operand_ok (operands request) && negb (eqb (trim (req_profileDir request)) []).

(** Each literal of [buildArgv] is a declared name after two dashes. *)
Ltac long_name name full :=
  assert (js full = js "--" ++ js name) as -> by (vm_compute; reflexivity).
Lemma buildArgv_render request :
  buildArgv request = command_words (req_command request) ++ flat_map render (request_items request).
Proof.
  destruct request as [| | | |d t m [id|]| | |];
    cbn [buildArgv request_items flat_map render req_command command_words app];
    try long_name "relay-url" "--relay-url"; try long_name "store-key-env" "--store-key-env";
    try long_name "out" "--out"; try long_name "from" "--from"; try long_name "to" "--to";
    try long_name "message-id" "--message-id"; try long_name "with" "--with";
    try long_name "profile" "--profile"; try long_name "json" "--json"; reflexivity.
Qed.
Lemma command_words_text c : join (js " ") (command_words c) = command_text c.
Proof. destruct c; vm_compute; reflexivity. Qed.
Lemma command_words_ok c : forallb word_ok (command_words c) = true.
Proof. destruct c; vm_compute; reflexivity. Qed.
Definition item_names (request : CliRequest) : list jstr := map item_name (request_items request).
Lemma item_names_ok request : bool_decide (NoDup (item_names request)) = true.
Proof. destruct request as [| | | |d t m [id|]| | |]; vm_compute; reflexivity. Qed.
Lemma items_allowed request :
  exists names, get (command_text (req_command request)) commandOptions = Some names /\
    forallb (fun i => member (item_name i) names) (request_items request) = true.
Proof.
  destruct request as [| | | |d t m [id|]| | |]; eexists; (split; [vm_compute; reflexivity|vm_compute; reflexivity]).
Qed.
Definition item_declared (i : arg_item) : bool :=
  match i with
  | Spaced n _ | Inlined n _ => is_string (option_of n)
  | Flag n => match option_of n with Some TBoolean => true | _ => false end
  end.
Lemma items_declared request : forallb item_declared (request_items request) = true.
Proof. destruct request as [| | | |d t m [id|]| | |]; vm_compute; reflexivity. Qed.
Lemma request_profile request : text_value (js "profile") (map item_entry (request_items request)) = Some (req_profileDir request).
Proof. destruct request as [| | | |d t m [id|]| | |]; vm_compute; reflexivity. Qed.
Lemma items_ok items :
  forallb item_declared items = true ->
  forallb operand_ok (flat_map (fun i => match i with Spaced _ v => [v] | _ => [] end) items) = true ->
  forallb item_ok items = true.
Proof.
  induction items as [|i items IH]; [done|]. cbn [forallb flat_map]. rewrite forallb_app, !andb_true_iff.
  intros [Hd Hds] [Ho Hos]. split; [|auto]. destruct i as [n v|n v|n]; cbn [item_declared item_ok forallb] in *; [|done|done].
  apply andb_true_iff in Ho as [[_ Ho]%andb_true_iff _]. by rewrite Hd, Ho.
Qed.
Lemma operand_nonempty v : operand_ok v = true -> exists u t, v = u :: t.
Proof. destruct v as [|u t]; [intros H; vm_compute in H; done|eauto]. Qed.
Lemma required_present request :
  forallb operand_ok (operands request) = true ->
  rejectUnexpectedMissing (command_text (req_command request)) (map item_entry (request_items request)) = Ok tt.
Proof.
  intros H. unfold operands in H.
  destruct request as [d u e|d o|d f|d|d t m [id|]|d|d c|d]; cbn [request_items flat_map app forallb] in H;
    rewrite ?andb_true_iff in H; repeat match goal with
    | H : _ /\ _ |- _ => destruct H
    | H : operand_ok ?v = true |- _ => apply operand_nonempty in H as (? & ? & ->)
    end; vm_compute; reflexivity.
Qed.
Lemma to_protocol request : dispatch (buildArgv request) = Protocol.
Proof. destruct request as [| | | |d t m [id|]| | |]; vm_compute; reflexivity. Qed.

(** The console's argument vectors say what the console meant.  For every request
    whose operands are neither empty nor the separator, the vector [buildArgv] makes
    goes to the protocol commands, is read there as that command with exactly those
    operands, whatever they look like, and misses nothing the command requires; it never
    carries [--yes], so an import asks, and it does not depend on the message. *)
Theorem console_argv_read request :
  request_ok request = true ->
  let values := map item_entry (request_items request) in
  dispatch (buildArgv request) = Protocol /\
  parseCommand (buildArgv request) = Ok (command_text (req_command request), values) /\
  rejectUnexpectedMissing (command_text (req_command request)) values = Ok tt /\
  get (js "yes") values = None /\
  (forall d to text text' id, request = ReqSend d to text id -> buildArgv (ReqSend d to text' id) = buildArgv request).
Proof.
  intros [Ho Hp]%andb_true_iff values. split_and!.
  - apply to_protocol.
  - destruct (items_allowed request) as (names & Hn & Ha). rewrite buildArgv_render.
    eapply parseCommand_items; [apply command_words_ok|apply items_ok; [apply items_declared|exact Ho]| |apply command_words_text
      |exact Hn|exact Ha|apply request_profile|by apply negb_true_iff].
    apply (bool_decide_eq_true_1 _ (item_names_ok request)).
  - by apply required_present.
  - subst values. clear. destruct request as [| | | |d t m [id|]| | |]; vm_compute; reflexivity.
  - by intros d to text text' id ->.
Qed.

(** ** The command line's report, read by the console *)

Lemma success_outcome data exit :
  outcome_of (success_report data) exit = MkOutcome true (js "ok") exit data.
Proof.
  unfold outcome_of, success_report. assert (obj_get (js "ok") [(js "ok", JBool true); (js "data", data)] = Some (JBool true)) as ->
    by (vm_compute; reflexivity).
  assert (obj_get (js "data") [(js "ok", JBool true); (js "data", data)] = Some data) as -> by (vm_compute; reflexivity).
  done.
Qed.
Lemma failure_outcome code exit :
  code <> [] -> outcome_of (failure_report code) exit = MkOutcome false code exit JNull.
Proof.
  intros Hc. destruct code as [|u code]; [done|]. vm_compute. reflexivity.
Qed.

(** What the command line reports is what the console reads.  The line a run of the
    command line prints is parsed into its outcome: a success with the command's data, a
    failure with the typed code and the exit code the failure was classified with,
    unchanged, whatever the arguments and the state it ran in. *)
Theorem report_read_back {W : Type} `{Zod} `{World W} `{Native W} `{Crypto} `{Fetch W} `{UrlParser} `{Shell W}
    rawArgs (s : env W) report exit s' :
  run_protocol rawArgs s = ((report, exit), s') -> json_ok report = true ->
  (forall e, (protocol_command rawArgs s).1 = Err e -> f_code (classify e) <> []) ->
  parseCliOutcome (stringify report ++ [10]) exit =
  match (protocol_command rawArgs s).1 with
  | Ok data => MkOutcome true (js "ok") 0 data
  | Err e => MkOutcome false (f_code (classify e)) (f_exitCode (classify e)) JNull
  end.
Proof.
  unfold run_protocol. destruct (protocol_command rawArgs s) as [[data|e] s1]; cbn [fst]; intros [= <- <- <-] Hok Hne;
    unfold parseCliOutcome; rewrite (parse_stringify_line _ Hok).
  - apply success_outcome.
  - apply failure_outcome. by apply Hne.
Qed.

Lemma forallb_nth_opt {A} (p : A -> bool) l i x : forallb p l = true -> nth_opt l i = Some x -> p x = true.
Proof. intros H. unfold nth_opt. destruct (i <? 0); [done|]. intros E. by eapply forallb_lookup. Qed.

(** ** The words for a failure *)

Definition all_words : list Words :=
  map snd ENTRIES ++ flat_map (fun e => map snd e.2) BY_COMMAND ++ map snd GENERIC ++ [UNCLASSED; UNREADABLE].
Definition brace_free (s : jstr) : bool := forallb (fun u => negb (u =? 123)) s.
Definition words_ok (w : Words) : bool :=
  starts_with placeholder (w_sentence w) && brace_free (drop 6 (w_sentence w)) && clean (drop 6 (w_sentence w))
  && brace_free (w_action w) && clean (w_action w).
Lemma all_words_ok : forallb words_ok all_words = true.
Proof. vm_compute. reflexivity. Qed.
Lemma assoc_In {K V} `{EqDecision K} k (l : list (K * V)) v : assoc k l = Some v -> In v (map snd l).
Proof.
  induction l as [|[k' v'] l IH]; [done|]. cbn [assoc map]. destruct (eqb k' k); [|intros Ha; right; exact (IH Ha)].
  intros [= ->]. by left.
Qed.
Lemma wordsFor_In command code exitCode : In (wordsFor command code exitCode) all_words.
Proof.
  unfold wordsFor, all_words. rewrite !in_app_iff. destruct (eqb code _); [right; right; right; right; by left|].
  destruct (assoc _ BY_COMMAND) as [by_command|] eqn:Eb; [destruct (assoc command by_command) eqn:Ec|].
  { right. left. apply in_flat_map. apply assoc_In in Eb. apply in_map_iff in Eb as (e & <- & Hin).
    exists e. split; [done|]. by eapply assoc_In. }
  all: destruct (assoc _ ENTRIES) eqn:Ee; [left; by eapply assoc_In|]; right; right.
  all: destruct (isClass exitCode); [|right; by left].
  all: unfold default_to; destruct (assoc exitCode GENERIC) eqn:Eg; [left; by eapply assoc_In|right; by left].
Qed.
Lemma placeholder_units : placeholder = [123; 99; 111; 100; 101; 125].
Proof. vm_compute. reflexivity. Qed.
Lemma fill_plain code s : brace_free s = true -> fill s code = s.
Proof.
  unfold fill. induction s as [|u s IH]; [done|]. cbn [brace_free forallb fill_from]. intros [Hu Hs]%andb_true_iff.
  destruct (starts_with placeholder (u :: s)) eqn:E; [|by rewrite IH].
  apply starts_with_iff in E as [t E]. rewrite placeholder_units in E. injection E as -> _. done.
Qed.
Lemma fill_placeholder code s : brace_free s = true -> fill (placeholder ++ s) code = code ++ s.
Proof.
  intros Hs. rewrite placeholder_units. transitivity (code ++ fill s code); [|by rewrite fill_plain]. unfold fill. cbn [fill_from app].
  rewrite placeholder_units. reflexivity.
Qed.
(** A failure's sentence is the code, filtered, and words that do not steer; so is the action. *)
Lemma explain_clean command code exitCode :
  let text := explain command code exitCode in
  (exists words, ft_sentence text = paintable code ++ words /\ clean words = true) /\ clean (ft_action text) = true.
Proof.
  intros text. pose proof all_words_ok as Hall. rewrite forallb_forall in Hall.
  specialize (Hall _ (wordsFor_In command code exitCode)). unfold words_ok in Hall. rewrite !andb_true_iff in Hall.
  destruct Hall as [[[[Hs Hb] Hc] Hab] Hac]. subst text. unfold explain. cbn [ft_sentence ft_action].
  apply starts_with_iff in Hs as [t Ht]. rewrite Ht in *.
  assert (drop 6 (placeholder ++ t) = t) as Hd by (rewrite placeholder_units; reflexivity).
  rewrite Hd in *. rewrite fill_placeholder by done. rewrite fill_plain by done. eauto.
Qed.

(** ** What a console may hold

    No text of the state has a steering point in it, and the clock readings are ones
    a clock can give. *)

Definition clean_opt (o : option jstr) : bool := match o with Some s => clean s | None => true end.
Definition step_clean (o : StepOutcome) : bool := match o with Failed failed _ => clean failed | _ => true end.
Definition profile_clean (p : ProfileView) : bool :=
  clean (pv_label p) && clean (pv_profileDir p) && clean (pv_relayUrl p) && clean (pv_storeKeyEnv p)
  && clean (pv_identityId p) && clean (pv_deviceId p) && forallb step_clean (default_to [] (pv_setup p))
  && clean_opt (pv_contactCardPath p).
Definition contact_clean (c : ContactView) : bool :=
  clean (cv_identityId c) && clean (cv_deviceId c) && clean (cv_devicePubkey c) && clean (cv_signalIdentityKey c).
Definition rejection_clean (r : RejectionView) : bool := clean (rj_envelopeId r) && clean (rj_code r).
Definition entry_clean (e : HistoryEntryView) : bool :=
  clean (he_contactIdentityId e) && clean (he_messageId e) && clean (he_plaintext e).
Definition identifiers_clean (i : TrustIdentifiers) : bool :=
  clean_opt (ti_identity_id i) && clean_opt (ti_device_id i) && clean_opt (ti_device_pubkey i)
  && clean_opt (ti_signal_identity_key i).
Definition modal_clean (m : TrustModal) : bool :=
  clean (tm_cardPath m) && clean (tm_profileLabel m) && identifiers_clean (tm_identifiers m).
Definition forall_opt {A} (p : A -> bool) (o : option A) : bool := match o with Some x => p x | None => true end.
Record state_clean (s : OperatorState) : Prop := {
  sc_profiles : forallb profile_clean (os_profiles s) = true;
  sc_contacts : forallb contact_clean (os_contacts s) = true;
  sc_selected : clean_opt (os_selectedContactId s) = true;
  sc_rejections : forallb rejection_clean (os_rejections s) = true;
  sc_history : forallb entry_clean (os_history s) = true;
  sc_health : clean (rh_relayUrl (os_health s)) = true;
  sc_modal : forall_opt modal_clean (os_modal s) = true;
  sc_activity : forallb (fun a => clean (al_text a)) (os_activity s) = true;
  sc_input : forall_opt (fun i => clean (in_buffer i)) (os_input s) = true }.
Definition request_clean (r : CliRequest) : bool :=
  match r with
  | ReqInit d u e => clean d && clean u && clean e
  | ReqContactExport d o => clean d && clean o
  | ReqContactImport d f => clean d && clean f
  | ReqRelayPublish d | ReqPoll d | ReqDoctor d => clean d
  | ReqSend d to text id => clean d && clean to && clean text && clean_opt id
  | ReqHistory d c => clean d && clean c
  end.
Record instants_ok (s : OperatorState) : Prop := {
  io_polled : forall_opt valid_time (mb_lastPolledAtMs (os_mailbox s)) = true;
  io_checked : forall_opt valid_time (rh_checkedAtMs (os_health s)) = true;
  io_observed : forall_opt valid_time (os_observedAtMs s) = true }.

(** ** Witnesses *)
Module ConsoleSample.
Definition request : CliRequest := ReqSend (js "/tmp/p") (js "-dash") (js "--text") None.
End ConsoleSample.
Lemma console_argv_read_witness :
  parseCommand (buildArgv ConsoleSample.request) = Ok (js "send", map item_entry (request_items ConsoleSample.request)).
Proof.
  refine (proj1 (proj2 (console_argv_read ConsoleSample.request _))). vm_compute. reflexivity.
Defined.
Lemma report_read_back_witness :
  parseCliOutcome (stringify CliSample.run.1.1 ++ [10]) CliSample.run.1.2
  = MkOutcome false (js "CONTACT_NOT_CONFIRMED") 3 JNull.
Proof.
  set (read := report_read_back (H := zod_example) (H0 := Toy.world_ops) (H1 := ToyNative.native) (H2 := Toy.crypto)
    (H3 := ToyRelay.fetch) (H4 := CliSample.parser) (H5 := CliSample.shell) CliSample.arguments ProfileSample.opened.2
    CliSample.run.1.1 CliSample.run.1.2 CliSample.run.2).
  rewrite read.
  - vm_compute. reflexivity.
  - exact (eq_trans (surjective_pairing CliSample.run) (f_equal (fun p => (p, CliSample.run.2)) (surjective_pairing CliSample.run.1))).
  - vm_compute. reflexivity.
  - intros e. vm_compute. intros [= <-]. discriminate.
Defined.
