(* ===== verification/Frame.v ===== *)
(** * The frame: [tui/shell-chrome.ts], the panes and the panel of [tui/modal-host.ts]

    [renderFrame]: from the console's state and the terminal's size to the lines that are
    painted.  The one way it can fail is [toISOString] on an instant no clock reads.
    Theorems: the frame is exactly as large as the terminal, it never steers it, and an
    open trust panel shows the identifiers in full. *)

From S2P Require Import Prelude JsString JsMap Effects Text Console.

(** ** [history-pane.ts] *)

Record HistoryLine := MkHistoryLine { hl_meta : jstr; hl_body : jstr }.
Record HistorySnapshot := MkHistorySnapshot {
  hs_contactIdentityId : option jstr; hs_lines : list HistoryLine; hs_withheldCount : Z }.
Definition BODY_INDENT : jstr := replicate 4 32.
Definition MAX_BODY_ROWS : nat := 4.
Definition ELLIPSIS : jstr := js "…".
(** [for (at = 0; at < points.length; at += room) push(points.slice(at, at + room).join(""))]; a
    cut takes at least one point, so as many cuts as there are points are enough. *)
Fixpoint cut_points (fuel room : nat) (points : list jstr) : list jstr :=
  match fuel, points with
  | S fuel, _ :: _ => concat (take room points) :: cut_points fuel room (drop room points)
  | _, _ => []
  end.
Definition cut (room : Z) (points : list jstr) : list jstr := cut_points (length points) (Z.to_nat room) points.
Definition bodyRows (body : jstr) (width : Z) : list jstr :=
  let room := Z.max 1 (width - columns BODY_INDENT) in
  let wrapped := cut room (codePoints body) in
  if (length wrapped <=? MAX_BODY_ROWS)%nat then map (app BODY_INDENT) wrapped
  else
    let kept := take MAX_BODY_ROWS wrapped in
    let last := codePoints (default_to [] (kept !! (MAX_BODY_ROWS - 1)%nat)) in
    map (app BODY_INDENT) (<[(MAX_BODY_ROWS - 1)%nat := concat (slice (Z.max 0 (room - 1)) last) ++ ELLIPSIS]> kept).
Definition direction_text (d : direction) : jstr := match d with Inbound => js "inbound" | Outbound => js "outbound" end.
Definition buildHistorySnapshot (entries : list HistoryEntryView) (selectedContactId : option jstr) : HistorySnapshot :=
  match selectedContactId with
  | None => MkHistorySnapshot None [] (count entries)
  | Some contact =>
      let selected := List.filter (fun entry => eqb (he_contactIdentityId entry) contact) entries in
      MkHistorySnapshot (Some contact)
        (map (fun e => MkHistoryLine
                (show_Z (he_sequence e) ++ js "  " ++ direction_text (he_direction e) ++ js "  " ++ he_messageId e)
                (he_plaintext e)) selected)
        (count entries - count selected)
  end.
Definition formatHistoryLines (snapshot : HistorySnapshot) (width : Z) (limit : option Z) : list jstr :=
  let '(head, rows) :=
    match hs_contactIdentityId snapshot with
    | None => ([js "no contact selected — history is shown only on an explicit request"], [])
    | Some contact =>
        match hs_lines snapshot with
        | [] => ([js "history with " ++ contact; js "  no entries for this contact"], [])
        | lines => ([js "history with " ++ contact],
                    map (fun e => Lines ((js "  " ++ hl_meta e) :: bodyRows (hl_body e) width)) lines)
        end
    end in
  let tail := if 0 <? hs_withheldCount snapshot
              then [[]; show_Z (hs_withheldCount snapshot) ++ js " entries withheld (other contacts)"] else [] in
  fitPane (Regions head rows tail KeepTail) limit width.

(** ** [mailbox-pane.ts] *)

(** A row of a pane: its label and its value. *)
Definition PaneEntry : Type := jstr * jstr.
Definition labelled_row (row : PaneEntry) : jstr := labelled row.1 row.2.
Record MailboxSnapshot := MkMailboxSnapshot {
  ms_rows : list PaneEntry; ms_rejectionLines : list jstr; ms_rejectionCount : Z }.
Definition countedValue (n : option Z) (unit absent : jstr) : jstr :=
  match n with None => absent | Some n => show_Z n ++ js " " ++ unit end.
Definition formatRejectionLine (rejection : RejectionView) : jstr := rj_envelopeId rejection ++ js "  " ++ rj_code rejection.
Definition buildMailboxSnapshot (mailbox : MailboxView) (rejections : list RejectionView) : res err MailboxSnapshot :=
  res_map (fun polled =>
    MkMailboxSnapshot
      [ (js "outbox", countedValue (mb_outboxPending mailbox) (js "pending") (js "no command reports an outbox count"));
        (js "inbox", countedValue (mb_inboxReceived mailbox) (js "received by the last poll") (js "no poll has reported yet"));
        (js "more", if mb_more mailbox then js "yes — poll again" else js "no");
        (js "last poll", polled) ]
      (map formatRejectionLine rejections) (count rejections))
    (formatInstant (mb_lastPolledAtMs mailbox)).
Definition formatMailboxLines (snapshot : MailboxSnapshot) (width : Z) (limit : option Z) : list jstr :=
  let head := map labelled_row (ms_rows snapshot)
    ++ (if 0 <? ms_rejectionCount snapshot
        then [[]; labelled (js "rejected") (show_Z (ms_rejectionCount snapshot) ++ js " permanently unacceptable")] else []) in
  fitPane (Regions head (map (fun r => Line (js "  " ++ r)) (ms_rejectionLines snapshot)) [] KeepTail) limit width.

(** ** [profiles-pane.ts] *)

Record ProfilesSnapshot := MkProfilesSnapshot {
  ps_rows : list PaneEntry; ps_contactLines : list jstr; ps_rosterDiscrepancy : option jstr; ps_healthLine : jstr;
  ps_setupLines : option (list jstr) }.
Definition SETUP_TITLES : list (jstr * jstr) :=
  [ (js "store key", []); (js "create profile", js "init"); (js "publish", js "relay publish");
    (js "export card", js "contact export"); (js "import card", js "contact import"); (js "confirm", js "doctor") ].
Definition STEP_GUTTER : jstr := replicate 8 32.
Definition TITLE_WIDTH : Z := 16.
Definition COMMAND_WIDTH : Z := 16.
(** The recipe's double quotes. *)
Definition QUOTE : jstr := [34].
Definition storeKeyRecipe (storeKeyEnv : jstr) : jstr :=
  js "export " ++ storeKeyEnv ++ js "=" ++ QUOTE
  ++ js "$(head -c 32 /dev/urandom | base64 | tr '+/' '-_' | tr -d '=')" ++ QUOTE.
Definition stepStatus (outcome : option StepOutcome) : jstr :=
  match outcome with
  | None | Some Pending => js "pending"
  | Some StepOk => js "ok"
  | Some (Failed failed exitCode) => failed ++ js " (exit " ++ show_Z exitCode ++ js ")"
  end.
Definition stepHint (step : nat) (outcome : option StepOutcome) : option jstr :=
  match outcome with
  | Some (Failed _ exitCode) =>
      if negb (step =? 3)%nat || negb (exitCode =? 5) then None
      else Some (js "a file at that path already exists — `contact export` never overwrites one")
  | _ => None
  end.
Definition setup_step_lines (profile : ProfileView) (step : nat) (titles : jstr * jstr) : list jstr :=
  let setup := default_to [] (pv_setup profile) in
  let gutter := STEP_GUTTER ++ padOrClip [] TITLE_WIDTH in
  let prefix := js "step " ++ show_Z (Z.of_nat step) ++ js "  " ++ padOrClip titles.1 TITLE_WIDTH in
  match step with
  | O =>
      if pv_storeKeyPresent profile then [prefix ++ padOrClip [] COMMAND_WIDTH ++ js "ok"]
      else [ prefix ++ pv_storeKeyEnv profile ++ js " is not set in this console's environment";
             gutter ++ js "run this in your shell, then restart the console:";
             gutter ++ js "  " ++ storeKeyRecipe (pv_storeKeyEnv profile) ]
  | S _ =>
      (prefix ++ padOrClip titles.2 COMMAND_WIDTH ++ stepStatus (setup !! step))
      :: match stepHint step (setup !! step) with Some hint => [gutter ++ hint] | None => [] end
  end.
Definition buildSetupLines (profile : ProfileView) : list jstr :=
  js "registration — [enter] starts the next step" :: concat (imap (setup_step_lines profile) SETUP_TITLES).
Definition formatHealthLine (health : RelayHealthView) : res err jstr :=
  match rh_status health with
  | Healthy =>
      res_map (fun checked =>
        js "relay " ++ rh_relayUrl health ++ js " healthy ("
        ++ match rh_uptimeMs health with None => [] | Some ms => js "uptime " ++ show_Z ms ++ js " ms, " end
        ++ js "checked " ++ checked ++ js ")") (formatInstant (rh_checkedAtMs health))
  | Unreachable =>
      res_map (fun checked => js "relay " ++ rh_relayUrl health ++ js " unreachable (checked " ++ checked ++ js ")")
        (formatInstant (rh_checkedAtMs health))
  | StatusUnknown => Ok (js "relay " ++ rh_relayUrl health ++ js " not yet checked")
  end.
Definition buildProfilesSnapshot (profile : ProfileView) (contacts : list ContactView) (health : RelayHealthView)
    : res err ProfilesSnapshot :=
  let unseen := pv_contactCount profile - count contacts in
  res_map (fun healthLine =>
    MkProfilesSnapshot
      [ (js "profile", pv_label profile); (js "relay", pv_relayUrl profile); (js "store-key-env", pv_storeKeyEnv profile);
        (js "identity", pv_identityId profile); (js "device", pv_deviceId profile);
        (js "published", if pv_published profile then js "yes, by this session" else js "not observed by this session");
        (js "directory", pv_profileDir profile) ]
      (map (fun c => cv_identityId c ++ js "  " ++ cv_deviceId c) contacts)
      (if 0 <? unseen
       then Some (js "+" ++ show_Z unseen ++ js " pinned by doctor but not seen by this session (no CLI command lists contacts)")
       else None)
      healthLine (if profileIsInSetup profile then Some (buildSetupLines profile) else None))
    (formatHealthLine health).
Definition formatProfilesLines (snapshot : ProfilesSnapshot) (width : Z) (limit : option Z) : list jstr :=
  match ps_setupLines snapshot with
  | Some lines => fitPane (Regions lines [] [[]; ps_healthLine snapshot] KeepHead) limit width
  | None =>
      let head := map labelled_row (ps_rows snapshot)
        ++ [[]; labelled (js "contacts") (show_Z (count (ps_contactLines snapshot)) ++ js " observed this session")]
        ++ match ps_rosterDiscrepancy snapshot with Some line => [line] | None => [] end in
      fitPane (Regions head (map (fun c => Line (js "  " ++ c)) (ps_contactLines snapshot)) [[]; ps_healthLine snapshot] KeepHead)
        limit width
  end.

(** ** [modal-host.ts]: the panel *)

Definition TRUST_MODAL_FOOTER : list (jstr * jstr) := [(js "y", js "trust"); (js "n", js "reject"); (js "esc", js "cancel")].
Definition MODAL_PANEL_CHROME_X : Z := 4.
Definition MODAL_PANEL_MIN_WIDTH : Z := 56.
Definition MODAL_PANEL_MIN_HEIGHT : Z := 14.
Definition MODAL_CHROME_ROWS : Z := 4.
Definition MODAL_PANEL_MAX_WIDTH : Z := 80.
Definition MODAL_PANEL_MAX_HEIGHT : Z := 20.
Definition MODAL_PANEL_MARGIN : Z := 4.
Definition available (span low high : Z) : Z := Z.max low (Z.min (Z.max 0 (span - MODAL_PANEL_MARGIN)) high).
(** The panel's width and height. *)
Definition resolveModalPanelSize (columns rows : Z) : Z * Z :=
  (available columns MODAL_PANEL_MIN_WIDTH MODAL_PANEL_MAX_WIDTH, available rows MODAL_PANEL_MIN_HEIGHT MODAL_PANEL_MAX_HEIGHT).
Definition modalBodyRows (panelHeight : Z) : Z := Z.max 1 (panelHeight - MODAL_CHROME_ROWS).
Definition resolveModalInnerWidth (availableWidth : Z) : Z := Z.max 1 (availableWidth - MODAL_PANEL_CHROME_X).
Definition formatModalFooter (actions : list (jstr * jstr)) : jstr :=
  join (js "  ") (map (fun a => js "[" ++ a.1 ++ js "] " ++ a.2) actions).
Definition boxed (inner : Z) (text : jstr) : jstr := js "│ " ++ padOrClip (clipLine text inner) inner ++ js " │".
Definition identifier_lines (identifiers : TrustIdentifiers) (field : jstr * (TrustIdentifiers -> option jstr)) : list jstr :=
  [ field.1 ++ js ":";
    match field.2 identifiers with Some (u :: value) => js "  " ++ (u :: value) | _ => js "  (missing)" end ].
Definition modal_body (modal : TrustModal) : list jstr :=
  [js "profile: " ++ tm_profileLabel modal; js "card: " ++ tm_cardPath modal]
  ++ flat_map (identifier_lines (tm_identifiers modal)) TRUST_IDENTIFIER_FIELDS.
(** [while (lines.length < n) lines.push(line)] *)
Definition fill_to (n : Z) (line : jstr) (lines : list jstr) : list jstr := lines ++ replicate (Z.to_nat n - length lines) line.
Definition renderModal (modal : TrustModal) (viewport : Viewport) : list jstr :=
  let '(width, height) := resolveModalPanelSize (cols viewport) (screenRows viewport) in
  let inner := resolveModalInnerWidth width in
  let rule := repeat_str (js "─") (Z.max 0 (width - 2)) in
  let rows := modalBodyRows height in
  let painted := fill_to rows [] (slice rows (modal_body modal)) in
  let lines := [js "╭" ++ rule ++ js "╮"; boxed inner (js "Trust these contact identifiers?")] ++ map (boxed inner) painted
    ++ [boxed inner (formatModalFooter TRUST_MODAL_FOOTER); js "╰" ++ rule ++ js "╯"] in
  map (fun line => padOrClip line width) (slice height (fill_to height (boxed inner []) lines)).

(** ** [shell-chrome.ts] *)

Definition UNAUDITED_NOTICE : jstr := js "UNAUDITED PROTOTYPE — not suitable for sensitive communication".
Definition fitLine (text : jstr) (columns : Z) : jstr := padOrClip text columns.
Definition FIRST_OVERLAY_ROW : Z := 1.
Definition HEAD_ROWS : Z := 3.
Definition TAIL_ROWS : Z := 2.
Definition pane_text (p : PaneId) : jstr :=
  match p with
  | PaneProfiles => js "profiles" | PaneMailbox => js "mailbox" | PaneHistory => js "history"
  | PaneRejections => js "rejections" | PaneHealth => js "health"
  end.
Definition tab (current : PaneId) (index : nat) (pane : PaneId) : jstr :=
  let name := show_Z (Z.of_nat index + 1) ++ js " " ++ pane_text pane in
  if eqb pane current then js "[" ++ name ++ js "]" else js " " ++ name ++ js " ".
Definition headerLine (state : OperatorState) : jstr :=
  js "echolet operator · " ++ match activeProfile state with Some p => pv_label p | None => js "no profile" end ++ js " ·"
  ++ concat (imap (tab (os_pane state)) PANE_IDS).
(** A footer key: its label and its rank. *)
Definition FooterKey : Type := jstr * Z.
Definition FOOTER_KEYS : list FooterKey :=
  [ (js "[1-5] pane", 3); (js "[p] poll", 4); (js "[d] doctor", 5); (js "[r] publish", 6); (js "[h] history", 7);
    (js "[i] import", 8); (js "[c] contact", 9); (js "[t] profile", 10); (js "[?] help", 2); (js "[q] quit", 1) ].
Definition FOOTER_KEYS_HELP_OPEN : list FooterKey :=
  map (fun entry => if eqb entry.1 (js "[?] help") then (js "[?] close", entry.2) else entry) FOOTER_KEYS.
Definition FOOTER_SEPARATOR : jstr := js "  ".
Section footer.
Context (entries : list FooterKey).
Definition rank_of (index : nat) : Z := match entries !! index with Some e => e.2 | None => 0 end.
Definition ranked (l r : nat) : Prop := rank_of l <= rank_of r.
#[local] Instance ranked_dec : RelDecision ranked.
Proof. intros l r. unfold ranked. apply _. Defined.
Definition byRank : list nat := merge_sort ranked (seq 0 (length entries)).
Definition paint_footer (chosen : list nat) : jstr :=
  join FOOTER_SEPARATOR
    (map (fun index => match entries !! index with Some e => e.1 | None => [] end) (merge_sort Nat.le chosen)).
Fixpoint choose (width : Z) (indices chosen : list nat) : list nat :=
  match indices with
  | [] => chosen
  | index :: indices =>
      if Z.max 0 width <? columns (paint_footer (chosen ++ [index])) then chosen
      else choose width indices (chosen ++ [index])
  end.
Definition fitFooter (width : Z) : jstr := paint_footer (choose width byRank []).
End footer.
Definition submitLabel (input : InputState) : jstr :=
  match in_field input with
  | FieldMessage => js "[enter] send  "
  | FieldRelayUrl | FieldExportPath | FieldCardPath => js "[enter] run  "
  | _ => []
  end.
Definition footerLine (state : OperatorState) (width : Z) : jstr :=
  match os_modal state, os_input state with
  | Some _, _ => js "[y] trust  [n] reject  [esc] cancel  [ctrl-c] quit"
  | None, Some input => submitLabel input ++ js "[esc] cancel  [ctrl-c] quit"
  | None, None => fitFooter (if os_help state then FOOTER_KEYS_HELP_OPEN else FOOTER_KEYS) width
  end.
Definition field_text (f : InputField) : jstr :=
  match f with
  | FieldRelayUrl => js "relay-url" | FieldProfileDir => js "profile-dir" | FieldStoreKeyEnv => js "store-key-env"
  | FieldExportPath => js "export-path" | FieldCardPath => js "card-path" | FieldMessage => js "message"
  | FieldContactName => js "contact-name"
  end.
Definition composeLine (input : InputState) (width : Z) : jstr :=
  let label := field_text (in_field input) ++ js " ▸ " in
  let used := utf8Bytes (in_buffer input) in
  let counter := if in_maxBytes input <? used * 2
                 then js "  " ++ show_Z used ++ js "/" ++ show_Z (in_maxBytes input) ++ js " bytes" else [] in
  let room := Z.max 0 (width - columns label - columns counter) in
  let points := codePoints (in_buffer input) in
  let shown := if count points <=? room then in_buffer input else concat (drop (Z.to_nat (count points - room)) points) in
  label ++ shown ++ counter.
Definition activityLine (state : OperatorState) : jstr :=
  let text := match last (os_activity state) with Some latest => al_text latest | None => js "no activity yet" end in
  if os_busy state then js "running… (busy — a command key starts nothing) " ++ text else text.
Definition HELP_LINES_HEAD : list jstr :=
  [ js "key bindings";
    js "  1-5        select pane";
    js "  enter      start the next registration step (profiles pane, while one is left)";
    js "  p          poll";
    js "  d          doctor";
    js "  r          relay publish";
    js "  h          history for the selected contact";
    js "  w          write a message (history pane, with a contact selected)";
    js "  i          import the contact card named at startup";
    js "  c          next contact";
    js "  t          next profile";
    js "  ?          close this list" ].
Definition is_open {A} (o : option A) : bool := match o with Some _ => true | None => false end.
Definition helpQuitLine (state : OperatorState) : jstr :=
  if is_open (os_modal state) || is_open (os_input state) then js "  ctrl-c     quit"
  else js "  q          quit (ctrl-c also quits)".
Definition helpLines (state : OperatorState) : list jstr := HELP_LINES_HEAD ++ [helpQuitLine state].
Definition status_text (s : RelayStatus) : jstr :=
  match s with Healthy => js "healthy" | Unreachable => js "unreachable" | StatusUnknown => js "unknown" end.
Definition no_profile (relayUrl : jstr) : ProfileView :=
  MkProfile (js "-") (js "-") relayUrl (js "-") (js "-") (js "-") 0 false None false None None.
Definition paneLines (state : OperatorState) (pane : PaneId) (width bodyRows : Z) : res err (list jstr) :=
  if os_help state then
    Ok (fitPane (Regions (take 1 (helpLines state)) (map Line (drop 1 (helpLines state))) [] KeepHead) (Some bodyRows) width)
  else match pane with
  | PaneProfiles =>
      match activeProfile state with
      | None => Ok [clipLine (js "no profile configured — run init first") width]
      | Some profile =>
          res_map (fun snapshot => formatProfilesLines snapshot width (Some bodyRows))
            (buildProfilesSnapshot profile (os_contacts state) (os_health state))
      end
  | PaneMailbox =>
      res_map (fun snapshot => formatMailboxLines snapshot width (Some bodyRows))
        (buildMailboxSnapshot (os_mailbox state) (os_rejections state))
  | PaneHistory =>
      Ok (formatHistoryLines (buildHistorySnapshot (os_history state) (os_selectedContactId state)) width (Some bodyRows))
  | PaneRejections =>
      res_map (fun snapshot =>
        if ms_rejectionCount snapshot =? 0 then [clipLine (js "no permanently rejected envelopes in the last poll") width]
        else fitPane (Regions [show_Z (ms_rejectionCount snapshot) ++ js " rejected by the last poll"]
                        (map (fun line => Line (js "  " ++ line)) (ms_rejectionLines snapshot)) [] KeepTail) (Some bodyRows) width)
        (buildMailboxSnapshot (os_mailbox state) (os_rejections state))
  | PaneHealth =>
      let profile := default_to (no_profile (rh_relayUrl (os_health state))) (activeProfile state) in
      res_map (fun snapshot =>
        [clipLine (ps_healthLine snapshot) width; []; clipLine (js "status  " ++ status_text (rh_status (os_health state))) width])
        (buildProfilesSnapshot profile (os_contacts state) (os_health state))
  end.
Definition wrapToWidth (text : jstr) (width : Z) : list jstr :=
  match codePoints text with [] => [[]] | points => cut width points end.
Definition tooSmallFrame (state : OperatorState) (width rows : Z) : list jstr :=
  let composing := is_open (os_input state) in
  let ctrlCOnly := is_open (os_modal state) || composing in
  wrapToWidth UNAUDITED_NOTICE width ++ [[]]
  ++ wrapToWidth (show_Z width ++ js "x" ++ show_Z rows ++ js " — this console needs " ++ show_Z (cols MIN_VIEWPORT) ++ js "x"
                  ++ show_Z (screenRows MIN_VIEWPORT)) width
  ++ wrapToWidth (if ctrlCOnly then js "resize, or press ctrl-c to quit" else js "resize, or press q to quit") width
  ++ (if is_open (os_modal state) then [] :: wrapToWidth (js "a trust decision is waiting — resize to answer it") width else [])
  ++ (if composing then [] :: wrapToWidth (js "a message is being composed — resize to see and send it") width else []).
(** [cells[column] = cell] for each cell of the panel's line that is inside. *)
Fixpoint put_cells (column : nat) (panel cells : list jstr) : list jstr :=
  match panel with [] => cells | cell :: panel => put_cells (S column) panel (<[column := cell]> cells) end.
Fixpoint put_lines (row left : nat) (panel painted : list jstr) : list jstr :=
  match panel with
  | [] => painted
  | line :: panel =>
      put_lines (S row) left panel
        (match painted !! row with
         | Some base => <[row := concat (put_cells left (codePoints line) (codePoints base))]> painted
         | None => painted
         end)
  end.
Definition overlayModal (frame : list jstr) (modal : TrustModal) (viewport : Viewport) : list jstr :=
  let '(width, height) := resolveModalPanelSize (cols viewport) (screenRows viewport) in
  let top := Z.min (Z.max FIRST_OVERLAY_ROW ((screenRows viewport - height) / 2))
                   (Z.max FIRST_OVERLAY_ROW (screenRows viewport - height)) in
  let left := Z.max 0 ((cols viewport - width) / 2) in
  put_lines (Z.to_nat top) (Z.to_nat left) (renderModal modal viewport) frame.
(** The defined frame: the head, the pane and the compose row, the tail. *)
Definition frame_head (state : OperatorState) (width rows : Z) : list jstr :=
  slice (Z.min HEAD_ROWS rows) [UNAUDITED_NOTICE; headerLine state; repeat_str (js "─") width].
Definition frame_tail (state : OperatorState) (width rows : Z) : list jstr :=
  slice (Z.max 0 (Z.min TAIL_ROWS (rows - count (frame_head state width rows)))) [activityLine state; footerLine state width].
Definition body_rows (state : OperatorState) (width rows : Z) : Z :=
  Z.max 0 (rows - count (frame_head state width rows) - count (frame_tail state width rows)).
Definition composeRows (state : OperatorState) (width rows : Z) : Z :=
  if is_open (os_input state) && (0 <? body_rows state width rows) then 1 else 0.
Definition paneRows (state : OperatorState) (width rows : Z) : Z := body_rows state width rows - composeRows state width rows.
Definition frame_lines (state : OperatorState) (width rows : Z) (pane : list jstr) : list jstr :=
  let body := fill_to (paneRows state width rows) [] (slice (paneRows state width rows) pane)
    ++ match os_input state with
       | Some input => if composeRows state width rows =? 1 then [composeLine input width] else []
       | None => []
       end in
  map (fun line => fitLine line width) (frame_head state width rows ++ body ++ frame_tail state width rows).
Definition renderFrame (state : OperatorState) (viewport : Viewport) : res err (list jstr) :=
  let width := Z.max 1 (cols viewport) in
  let rows := Z.max 1 (screenRows viewport) in
  if isBelowMinViewport (MkViewport width rows) then
    Ok (fill_to rows (fitLine [] width) (map (fun line => fitLine line width) (slice rows (tooSmallFrame state width rows))))
  else
    res_map (fun pane =>
      let frame := frame_lines state width rows pane in
      match os_modal state with
      | None => frame
      | Some modal => overlayModal frame modal (MkViewport width rows)
      end)
      (paneLines state (os_pane state) width (paneRows state width rows)).

(** [line.includes(part)] *)
Fixpoint includes_text (part line : jstr) : bool :=
  starts_with part line || match line with [] => false | _ :: line => includes_text part line end.
Definition BOLD : jstr := [27] ++ js "[1m".
Definition DIM : jstr := [27] ++ js "[2m".
Definition RESET : jstr := [27] ++ js "[0m".
Definition style_line (index : nat) (line : jstr) : jstr :=
  if includes_text UNAUDITED_NOTICE line then BOLD ++ line ++ RESET
  else if (index =? 1)%nat then BOLD ++ line ++ RESET
  else if starts_with (js "─") line then DIM ++ line ++ RESET else line.
Definition styleFrame (frame : list jstr) : list jstr := imap style_line frame.

(** ** Lemmas: sizes *)

Definition fits (width : Z) (line : jstr) : Prop := columns line = width.
Lemma fill_to_count n line lines : count lines <= n -> count (fill_to n line lines) = n.
Proof. unfold count, fill_to. intros H. rewrite length_app, length_replicate. lia. Qed.
Lemma slice_count {A} n (l : list A) : 0 <= n -> count (slice n l) <= n.
Proof. intros H. rewrite length_slice by done. lia. Qed.
Lemma fitLine_fits width line : 0 <= width -> fits width (fitLine line width).
Proof. intros H. unfold fits, fitLine. rewrite padOrClip_columns. lia. Qed.
Lemma map_fits width lines : 0 <= width -> Forall (fits width) (map (fun line => fitLine line width) lines).
Proof. intros H. apply Forall_map, Forall_true. intros line. by apply fitLine_fits. Qed.
Lemma insert_length {A} i (x : A) l : length (<[i := x]> l) = length l.
Proof. apply length_insert. Qed.
Lemma put_cells_length column panel cells : length (put_cells column panel cells) = length cells.
Proof. revert column cells. induction panel as [|c panel IH]; intros; [done|]. cbn [put_cells]. by rewrite IH, insert_length. Qed.
Lemma put_lines_length row left panel painted : length (put_lines row left panel painted) = length painted.
Proof.
  revert row painted. induction panel as [|l panel IH]; intros; [done|]. cbn [put_lines]. rewrite IH.
  destruct (painted !! row); [apply insert_length|done].
Qed.

(** Cells written inside a row replace that stretch of it. *)
Lemma put_cells_app panel a b :
  (length panel <= length b)%nat -> put_cells (length a) panel (a ++ b) = a ++ panel ++ drop (length panel) b.
Proof.
  revert a b. induction panel as [|c panel IH]; intros a b H; [done|]. destruct b as [|x b]; cbn [length] in H; [lia|].
  cbn [put_cells length app drop]. rewrite insert_app_r_alt, Nat.sub_diag by lia. cbn [list_insert].
  specialize (IH (a ++ [c]) b). rewrite length_app, Nat.add_1_r, <- !app_assoc in IH. apply IH. lia.
Qed.
Lemma put_cells_inside panel left cells :
  (left + length panel <= length cells)%nat ->
  put_cells left panel cells = take left cells ++ panel ++ drop (left + length panel) cells.
Proof.
  intros H. rewrite <- (take_drop left cells) at 1. rewrite <- (length_take_le cells left) at 1 by lia.
  rewrite put_cells_app by (rewrite length_drop; lia). by rewrite drop_drop.
Qed.

(** *** Cutting and joining at the edges of the panel *)
Lemma code_points_drop n s : code_points (concat (drop n (code_points s))) = drop n (code_points s).
Proof.
  revert n. induction s using code_points_ind; intros n; [by destruct n|by destruct n as [|[|n]]| |].
  - rewrite code_points_pair by done. destruct n as [|n]; cbn [drop]; [|done].
    cbn [concat]. rewrite code_points_concat. by rewrite <- code_points_pair.
  - rewrite code_points_single by done. destruct n as [|n]; cbn [drop]; [|done].
    cbn [concat]. rewrite code_points_concat. by rewrite <- code_points_single.
Qed.
(** A line between two characters that are no surrogates. *)
Definition framed (line : jstr) : Prop :=
  exists a mid b, line = a :: mid ++ [b] /\ is_surrogate a = false /\ is_surrogate b = false.
Lemma code_points_framed line a b :
  framed line -> code_points (a ++ line ++ b) = code_points a ++ code_points line ++ code_points b.
Proof.
  intros (x & mid & y & -> & Hx & Hy).
  replace (a ++ (x :: mid ++ [y]) ++ b) with (a ++ x :: mid ++ y :: b) by (by rewrite <- app_comm_cons, <- app_assoc).
  rewrite code_points_snoc by by apply not_low. change (x :: mid ++ y :: b) with ((x :: mid) ++ y :: b).
  rewrite code_points_snoc by by apply not_low. rewrite (code_points_cons_bmp y) by by apply not_high.
  change (x :: mid ++ [y]) with ((x :: mid) ++ [y]). rewrite code_points_snoc by by apply not_low.
  by rewrite <- app_assoc.
Qed.
Lemma overlaid_fits width left base line :
  fits width base -> framed line -> Z.of_nat left + columns line <= width ->
  concat (put_cells left (codePoints line) (codePoints base)) =
    concat (take left (code_points base)) ++ line ++ concat (drop (left + length (code_points line)) (code_points base)) /\
  fits width (concat (put_cells left (codePoints line) (codePoints base))).
Proof.
  intros Hb Hf Hw. unfold fits, columns, codePoints in *.
  assert (concat (put_cells left (code_points line) (code_points base)) =
    concat (take left (code_points base)) ++ line ++ concat (drop (left + length (code_points line)) (code_points base))) as E.
  { rewrite put_cells_inside by lia. by rewrite !concat_app, code_points_concat. }
  split; [done|]. rewrite E, code_points_framed by done. rewrite code_points_take, code_points_drop.
  rewrite !length_app, length_take, length_drop. lia.
Qed.
(** The frame under a panel that is inside it. *)
Lemma put_lines_fits width left panel row painted :
  Forall (fits width) painted -> Forall (fun line => framed line /\ Z.of_nat left + columns line <= width) panel ->
  Forall (fits width) (put_lines row left panel painted).
Proof.
  revert row painted. induction panel as [|line panel IH]; intros row painted Hp Hl; [done|]. cbn [put_lines].
  apply Forall_cons in Hl as [[Hf Hw] Hl]. apply IH; [|done]. destruct (painted !! row) as [base|] eqn:E; [|done].
  apply Forall_insert; [done|]. apply overlaid_fits; [|done|done]. by eapply Forall_lookup_1 in E.
Qed.
Lemma put_lines_at left panel row painted i line base :
  panel !! i = Some line -> painted !! (row + i)%nat = Some base ->
  put_lines row left panel painted !! (row + i)%nat = Some (concat (put_cells left (codePoints line) (codePoints base))).
Proof.
  revert row painted i. induction panel as [|l panel IH]; intros row painted i Hi Hb; [done|].
  destruct i as [|i]; cbn [put_lines].
  - cbn in Hi. injection Hi as ->. rewrite Nat.add_0_r in *. rewrite Hb. clear IH.
    assert (forall r p, (row < r)%nat -> put_lines r left panel p !! row = p !! row) as Hk.
    { clear. induction panel as [|x panel IH]; intros r p Hr; [done|]. cbn [put_lines]. rewrite IH by lia.
      destruct (p !! r); [by rewrite list_lookup_insert_ne by lia|done]. }
    rewrite Hk by lia. apply list_lookup_insert_eq. by apply lookup_lt_Some in Hb.
  - replace (row + S i)%nat with (S row + i)%nat in * by lia. apply IH; [done|].
    destruct (painted !! row); [by rewrite list_lookup_insert_ne by lia|done].
Qed.

(** *** The panel *)
Lemma box_units :
  js "│ " = [9474; 32] /\ js " │" = [32; 9474] /\ js "╭" = [9581] /\ js "╮" = [9582] /\ js "╰" = [9584] /\ js "╯" = [9583]
  /\ js "─" = [9472].
Proof. vm_compute. exact (conj eq_refl (conj eq_refl (conj eq_refl (conj eq_refl (conj eq_refl (conj eq_refl eq_refl)))))). Qed.
Lemma boxed_units inner text : boxed inner text = [9474; 32] ++ padOrClip (clipLine text inner) inner ++ [32; 9474].
Proof. unfold boxed. destruct box_units as (-> & -> & _). reflexivity. Qed.
Lemma columns_between a b text :
  is_surrogate a = false -> is_surrogate b = false -> columns (a :: text ++ [b]) = columns text + 2.
Proof.
  intros Ha Hb. unfold columns, codePoints. rewrite code_points_cons_bmp by by apply not_high.
  rewrite code_points_snoc by by apply not_low. cbn [length]. rewrite length_app. cbn [code_points length]. lia.
Qed.
Definition panel_line (width : Z) (line : jstr) : Prop := framed line /\ columns line = width.
Lemma boxed_panel inner text : 0 <= inner -> panel_line (inner + 4) (boxed inner text).
Proof.
  intros Hi. rewrite boxed_units. split.
  - exists 9474, (32 :: padOrClip (clipLine text inner) inner ++ [32]), 9474. split; [|done].
    cbn [app]. by rewrite <- app_assoc.
  - change ([9474; 32] ++ ?x ++ [32; 9474]) with (9474 :: 32 :: x ++ [32; 9474]).
    replace (32 :: padOrClip (clipLine text inner) inner ++ [32; 9474])
      with ((32 :: padOrClip (clipLine text inner) inner ++ [32]) ++ [9474]) by (cbn [app]; by rewrite <- app_assoc).
    rewrite !columns_between, padOrClip_columns by done. lia.
Qed.
Lemma rule_panel a b width :
  is_surrogate a = false -> is_surrogate b = false -> 2 <= width ->
  panel_line width ([a] ++ repeat_str [9472] (Z.max 0 (width - 2)) ++ [b]).
Proof.
  intros Ha Hb Hw. split; [by exists a, (repeat_str [9472] (Z.max 0 (width - 2))), b|].
  change ([a] ++ ?x) with (a :: x). rewrite columns_between, columns_repeat by done. lia.
Qed.
Lemma padOrClip_exact text width : columns text = width -> padOrClip text width = text.
Proof.
  intros H. destruct (padOrClip_prefix text width) as [pad E]; [lia|].
  unfold padOrClip in *. fold (columns text) in *. rewrite H in *.
  assert (0 <= width) by (unfold columns in H; lia). revert E. decide_bool. intros _.
  unfold slice. rewrite take_ge; [apply code_points_concat|]. unfold columns, codePoints in *. lia.
Qed.
Definition modal_painted (modal : TrustModal) (rows : Z) : list jstr := fill_to rows [] (slice rows (modal_body modal)).
Lemma panel_size columns_ rows_ :
  let '(width, height) := resolveModalPanelSize columns_ rows_ in 56 <= width <= 80 /\ 14 <= height <= 20.
Proof.
  cbn. unfold available, MODAL_PANEL_MIN_WIDTH, MODAL_PANEL_MAX_WIDTH, MODAL_PANEL_MIN_HEIGHT, MODAL_PANEL_MAX_HEIGHT,
    MODAL_PANEL_MARGIN. lia.
Qed.
Lemma renderModal_lines modal viewport :
  let '(width, height) := resolveModalPanelSize (cols viewport) (screenRows viewport) in
  exists above below, length above = 2%nat /\
    renderModal modal viewport = above ++ map (boxed (width - 4)) (modal_painted modal (height - 4)) ++ below /\
    count (renderModal modal viewport) = height /\ Forall (panel_line width) (renderModal modal viewport).
Proof.
  pose proof (panel_size (cols viewport) (screenRows viewport)) as Hs. unfold renderModal.
  destruct (resolveModalPanelSize _ _) as [width height]. destruct Hs as [Hw Hh].
  replace (resolveModalInnerWidth width) with (width - 4) by (unfold resolveModalInnerWidth, MODAL_PANEL_CHROME_X; lia).
  replace (modalBodyRows height) with (height - 4) by (unfold modalBodyRows, MODAL_CHROME_ROWS; lia).
  fold (modal_painted modal (height - 4)). destruct box_units as (_ & _ & -> & -> & -> & -> & ->).
  set (lines := [_; _] ++ map _ _ ++ [_; _]).
  assert (Forall (panel_line width) lines) as Hall.
  { assert (forall t, panel_line width (boxed (width - 4) t)) as Hb.
    { intros t. pose proof (boxed_panel (width - 4) t) as Hp. replace (width - 4 + 4) with width in Hp by lia. apply Hp. lia. }
    subst lines. apply Forall_app. split.
    { apply Forall_cons. split; [apply rule_panel; [done|done|lia]|apply Forall_singleton, Hb]. }
    apply Forall_app. split; [by apply Forall_map, Forall_true|].
    apply Forall_cons. split; [apply Hb|apply Forall_singleton, rule_panel; [done|done|lia]]. }
  assert (count lines = height) as Hc.
  { subst lines. rewrite !count_app, count_map. unfold modal_painted. rewrite fill_to_count by (apply slice_count; lia).
    rewrite !count_cons. change (count (@nil jstr)) with 0. lia. }
  assert (map (fun line => padOrClip line width) (slice height (fill_to height (boxed (width - 4) []) lines)) = lines) as ->.
  { unfold fill_to, slice. unfold count in Hc. rewrite take_app_le, take_ge by lia.
    clearbody lines. clear Hc. induction Hall as [|line lines [_ Hl] Hall IH]; [done|]. cbn [map].
    by rewrite padOrClip_exact, IH. }
  eexists [_; _], [_; _]. split; [done|]. split; [subst lines; reflexivity|done].
Qed.

(** What the operator reads: the name of a field on one line, and on the next its value. *)
Definition shows_field (frame : list jstr) (name value : jstr) : Prop :=
  exists i a b c d, frame !! i = Some (a ++ name ++ js ":" ++ b) /\ frame !! S i = Some (c ++ js "  " ++ value ++ d).
Lemma modal_body_rows modal n : 10 <= n -> slice n (modal_body modal) = modal_body modal.
Proof. intros H. unfold slice. apply take_ge. cbn [length modal_body app flat_map identifier_lines TRUST_IDENTIFIER_FIELDS]. lia. Qed.
Lemma field_in_body modal name get_ v :
  In (name, get_) TRUST_IDENTIFIER_FIELDS -> get_ (tm_identifiers modal) = Some v -> v <> [] ->
  exists i, modal_body modal !! i = Some (name ++ js ":") /\ modal_body modal !! S i = Some (js "  " ++ v).
Proof.
  intros Hin Hv Hne. unfold modal_body.
  assert (exists i, flat_map (identifier_lines (tm_identifiers modal)) TRUST_IDENTIFIER_FIELDS !! i = Some (name ++ js ":") /\
    flat_map (identifier_lines (tm_identifiers modal)) TRUST_IDENTIFIER_FIELDS !! S i = Some (js "  " ++ v)) as (i & H1 & H2).
  { destruct v as [|u v]; [done|]. revert Hin. generalize TRUST_IDENTIFIER_FIELDS as fields.
    induction fields as [|[n g] fields IH]; [done|]. intros [E|Hin]; cbn [flat_map identifier_lines fst snd app].
    - injection E as -> ->. exists 0%nat. rewrite Hv. split; reflexivity.
    - destruct (IH Hin) as (i & H1 & H2). exists (S (S i)). split; [exact H1|exact H2]. }
  exists (S (S i)). split; [exact H1|exact H2].
Qed.
Lemma boxed_fits inner text : columns text <= inner -> exists post, boxed inner text = js "│ " ++ text ++ post.
Proof.
  intros H. unfold boxed. rewrite clipLine_id by done. destruct (padOrClip_prefix text inner H) as [pad ->].
  exists (pad ++ js " │"). by rewrite <- app_assoc.
Qed.
Lemma field_in_panel modal viewport name get_ v :
  In (name, get_) TRUST_IDENTIFIER_FIELDS -> get_ (tm_identifiers modal) = Some v -> v <> [] ->
  columns (js "  " ++ v) <= (resolveModalPanelSize (cols viewport) (screenRows viewport)).1 - 4 ->
  shows_field (renderModal modal viewport) name v.
Proof.
  intros Hin Hv Hne Hfit. destruct (field_in_body modal name get_ v Hin Hv Hne) as (i & H1 & H2).
  pose proof (renderModal_lines modal viewport) as Hr. pose proof (panel_size (cols viewport) (screenRows viewport)) as Hs.
  destruct (resolveModalPanelSize _ _) as [width height]. cbn [fst] in Hfit. destruct Hs as [Hw Hh].
  destruct Hr as (above & below & Ha & -> & _).
  assert (modal_painted modal (height - 4) = modal_body modal ++ replicate (Z.to_nat (height - 4) - 10) []) as ->.
  { unfold modal_painted. rewrite modal_body_rows by lia. reflexivity. }
  rewrite map_app, <- app_assoc.
  assert (forall j t, modal_body modal !! j = Some t ->
    (above ++ map (boxed (width - 4)) (modal_body modal) ++ map (boxed (width - 4)) (replicate (Z.to_nat (height - 4) - 10) []) ++ below)
      !! (2 + j)%nat = Some (boxed (width - 4) t)) as Hat.
  { intros j t Hj. rewrite lookup_app_r by lia. replace (2 + j - length above)%nat with j by lia.
    rewrite lookup_app_l; [|rewrite length_map; by apply lookup_lt_Some in Hj].
    change (map ?f ?l) with (f <$> l). by rewrite list_lookup_fmap, Hj. }
  destruct (boxed_fits (width - 4) (name ++ js ":")) as [p1 E1].
  { assert (Forall (fun f => columns (f.1 ++ js ":") <= 52) TRUST_IDENTIFIER_FIELDS) as Hn.
    { apply Forall_of_forallb with (p := fun f => columns (f.1 ++ js ":") <=? 52); [intros x; apply Z.leb_le|]. vm_compute. reflexivity. }
    rewrite List.Forall_forall in Hn. specialize (Hn _ Hin). cbn [fst] in Hn. lia. }
  destruct (boxed_fits (width - 4) (js "  " ++ v) Hfit) as [p2 E2].
  exists (2 + i)%nat, (js "│ "), p1, (js "│ "), p2. split.
  - rewrite (Hat _ _ H1), E1. by rewrite <- app_assoc.
  - change (S (2 + i)) with (2 + S i)%nat. rewrite (Hat _ _ H2), E2. by rewrite <- app_assoc.
Qed.

(** ** The frame *)

Lemma big_viewport width rows :
  isBelowMinViewport (MkViewport width rows) = false -> 72 <= width /\ 16 <= rows.
Proof. unfold isBelowMinViewport. cbn [cols screenRows MIN_VIEWPORT]. intros H. bool_to_prop. lia. Qed.
Lemma frame_parts state width rows :
  16 <= rows -> count (frame_head state width rows) = 3 /\ count (frame_tail state width rows) = 2 /\
    body_rows state width rows = rows - 5.
Proof.
  intros H. assert (count (frame_head state width rows) = 3) as Hh.
  { unfold frame_head. rewrite length_slice by (unfold HEAD_ROWS; lia). unfold HEAD_ROWS. cbn [count length]. unfold count. cbn. lia. }
  assert (count (frame_tail state width rows) = 2) as Ht.
  { unfold frame_tail. rewrite Hh, length_slice by lia. unfold TAIL_ROWS, count. cbn [length]. lia. }
  unfold body_rows. rewrite Hh, Ht. split_and!; [done|done|lia].
Qed.
Lemma frame_lines_exact state width rows pane :
  0 <= width -> 16 <= rows -> count (frame_lines state width rows pane) = rows /\ Forall (fits width) (frame_lines state width rows pane).
Proof.
  intros Hw Hr. destruct (frame_parts state width rows Hr) as (Hh & Ht & Hb). split; [|by apply map_fits].
  unfold frame_lines. rewrite count_map, !count_app, Hh, Ht. unfold paneRows, composeRows. rewrite Hb.
  assert ((0 <? rows - 5) = true) as -> by (apply Z.ltb_lt; lia). rewrite andb_true_r.
  rewrite fill_to_count; [|apply slice_count; destruct (is_open _); lia].
  destruct (os_input state); cbn [is_open Z.eqb Pos.eqb]; rewrite ?count_cons; change (count (@nil jstr)) with 0; lia.
Qed.
(** The panel lies inside the frame. *)
Lemma panel_inside width rows :
  72 <= width -> 16 <= rows ->
  let '(w, h) := resolveModalPanelSize width rows in
  let top := Z.min (Z.max FIRST_OVERLAY_ROW ((rows - h) / 2)) (Z.max FIRST_OVERLAY_ROW (rows - h)) in
  let left := Z.max 0 ((width - w) / 2) in
  68 <= w /\ 14 <= h /\ 0 <= left /\ left + w <= width /\ 1 <= top /\ top + h <= rows.
Proof.
  intros Hw Hr. cbn. unfold available, MODAL_PANEL_MIN_WIDTH, MODAL_PANEL_MAX_WIDTH, MODAL_PANEL_MIN_HEIGHT,
    MODAL_PANEL_MAX_HEIGHT, MODAL_PANEL_MARGIN, FIRST_OVERLAY_ROW. lia.
Qed.
Lemma overlay_exact frame modal width rows :
  72 <= width -> 16 <= rows -> count frame = rows -> Forall (fits width) frame ->
  count (overlayModal frame modal (MkViewport width rows)) = rows /\
  Forall (fits width) (overlayModal frame modal (MkViewport width rows)).
Proof.
  intros Hw Hr Hc Hf. unfold overlayModal. cbn [cols screenRows].
  pose proof (renderModal_lines modal (MkViewport width rows)) as Hm. pose proof (panel_inside width rows Hw Hr) as Hi.
  cbn [cols screenRows] in Hm. destruct (resolveModalPanelSize width rows) as [w h]. cbv zeta in Hi.
  destruct Hm as (_ & _ & _ & _ & _ & Hp). split; [unfold count; by rewrite put_lines_length|].
  apply put_lines_fits; [done|]. eapply Forall_impl; [exact Hp|]. intros line [Hfr Hcol]. split; [done|]. lia.
Qed.
Lemma paneLines_ok state pane width n :
  instants_ok state -> exists lines, paneLines state pane width n = Ok lines.
Proof.
  intros [Hp Hc _]. unfold paneLines. destruct (os_help state); [eauto|].
  destruct (formatInstant_ok (mb_lastPolledAtMs (os_mailbox state)) Hp) as [polled Hpolled].
  assert (exists line, formatHealthLine (os_health state) = Ok line) as [line Hline].
  { destruct (formatInstant_ok (rh_checkedAtMs (os_health state)) Hc) as [checked Hchecked].
    unfold formatHealthLine. rewrite Hchecked. destruct (rh_status _); cbn [res_map]; eauto. }
  assert (forall p cs, exists snap, buildProfilesSnapshot p cs (os_health state) = Ok snap) as Hs.
  { intros p cs. unfold buildProfilesSnapshot. rewrite Hline. cbn [res_map]. eauto. }
  assert (exists snap, buildMailboxSnapshot (os_mailbox state) (os_rejections state) = Ok snap) as [mb Hmb].
  { unfold buildMailboxSnapshot. rewrite Hpolled. cbn [res_map]. eauto. }
  destruct pane; [|rewrite Hmb; cbn; eauto|eauto|rewrite Hmb; cbn; eauto|].
  - destruct (activeProfile state) as [p|]; [|eauto]. destruct (Hs p (os_contacts state)) as [snap ->]. cbn. eauto.
  - destruct (Hs (default_to (no_profile (rh_relayUrl (os_health state))) (activeProfile state)) (os_contacts state)) as [snap ->].
    cbn. eauto.
Qed.
Lemma renderFrame_exact state viewport :
  instants_ok state ->
  exists frame, renderFrame state viewport = Ok frame /\ count frame = Z.max 1 (screenRows viewport) /\
    Forall (fits (Z.max 1 (cols viewport))) frame.
Proof.
  intros Hi. unfold renderFrame. set (width := Z.max 1 (cols viewport)). set (rows := Z.max 1 (screenRows viewport)).
  destruct (isBelowMinViewport _) eqn:Hb.
  - eexists. split; [reflexivity|]. split.
    + apply fill_to_count. rewrite count_map. apply slice_count. lia.
    + unfold fill_to. apply Forall_app. split; [apply map_fits; lia|]. apply Forall_replicate, fitLine_fits. lia.
  - apply big_viewport in Hb as [Hw Hr]. destruct (paneLines_ok state (os_pane state) width (paneRows state width rows) Hi) as [pane ->].
    cbn [res_map]. destruct (frame_lines_exact state width rows pane) as [Hc Hf]; [lia|done|].
    destruct (os_modal state) as [modal|]; eexists; (split; [reflexivity|]); [by apply overlay_exact|done].
Qed.

(** *** What an open panel shows *)
Lemma shows_field_overlay frame modal width rows name v :
  72 <= width -> 16 <= rows -> count frame = rows -> Forall (fits width) frame ->
  shows_field (renderModal modal (MkViewport width rows)) name v ->
  shows_field (overlayModal frame modal (MkViewport width rows)) name v.
Proof.
  intros Hw Hr Hc Hf (i & a & b & c & d & H1 & H2). unfold overlayModal. cbn [cols screenRows].
  pose proof (renderModal_lines modal (MkViewport width rows)) as Hm. pose proof (panel_inside width rows Hw Hr) as Hi.
  cbn [cols screenRows] in Hm. destruct (resolveModalPanelSize width rows) as [w h]. cbv zeta in Hi.
  destruct Hm as (_ & _ & _ & _ & Hch & Hp).
  set (top := Z.to_nat _). set (left := Z.to_nat (Z.max 0 ((width - w) / 2))).
  assert (forall j line, renderModal modal (MkViewport width rows) !! j = Some line -> exists pre post,
    put_lines top left (renderModal modal (MkViewport width rows)) frame !! (top + j)%nat = Some (pre ++ line ++ post)) as Hat.
  { intros j line Hj. assert (exists base, frame !! (top + j)%nat = Some base) as [base Hb].
    { apply lookup_lt_is_Some. apply lookup_lt_Some in Hj. unfold count in *. lia. }
    rewrite (put_lines_at left _ top frame j line base Hj Hb).
    destruct (Forall_lookup_1 _ _ _ _ Hp Hj) as [Hfr Hcol]. pose proof (Forall_lookup_1 _ _ _ _ Hf Hb) as Hbase.
    destruct (overlaid_fits width left base line Hbase Hfr) as [-> _]; [lia|]. eauto. }
  destruct (Hat _ _ H1) as (p1 & q1 & E1). destruct (Hat _ _ H2) as (p2 & q2 & E2).
  exists (top + i)%nat, (p1 ++ a), (b ++ q1), (p2 ++ c), (d ++ q2). split.
  - rewrite E1. by rewrite <- !app_assoc.
  - replace (S (top + i)) with (top + S i)%nat by lia. rewrite E2. by rewrite <- !app_assoc.
Qed.
Lemma renderFrame_shows state viewport frame modal name get_ v :
  renderFrame state viewport = Ok frame -> isBelowMinViewport viewport = false -> os_modal state = Some modal ->
  In (name, get_) TRUST_IDENTIFIER_FIELDS -> get_ (tm_identifiers modal) = Some v -> v <> [] -> columns v <= 62 ->
  shows_field frame name v.
Proof.
  destruct viewport as [w r]. intros Hf Hb Hm Hin Hv Hne Hcol. apply big_viewport in Hb as Hwr.
  unfold renderFrame in Hf. cbn [cols screenRows] in Hf.
  replace (Z.max 1 w) with w in Hf by lia. replace (Z.max 1 r) with r in Hf by lia. rewrite Hb, Hm in Hf.
  destruct (paneLines _ _ _ _) as [pane|]; [|done]. cbn [res_map] in Hf. injection Hf as <-.
  destruct (frame_lines_exact state w r pane) as [Hc Hfit]; [lia|lia|].
  apply shows_field_overlay; [lia|lia|done|done|].
  eapply field_in_panel; [exact Hin|exact Hv|exact Hne|]. cbn [cols screenRows].
  destruct Hwr as [Hw Hr]. pose proof (panel_inside w r Hw Hr) as Hi. destruct (resolveModalPanelSize w r) as [pw ph]. cbn [fst].
  unfold columns, codePoints. rewrite code_points_app_bmp by (vm_compute; reflexivity).
  rewrite length_app, length_map. assert (length (js "  ") = 2%nat) as -> by (vm_compute; reflexivity).
  unfold columns, codePoints in Hcol. cbv zeta in Hi. lia.
Qed.

(** ** Nothing on the frame steers the terminal *)

Ltac literal_clean := lazymatch goal with |- clean (js _) = true => vm_compute; reflexivity end.
Ltac solve_clean :=
  repeat first
    [ literal_clean
    | match goal with
      | |- clean (_ ++ _) = true => rewrite clean_app; apply andb_true_iff; split
      | |- clean (show_Z _) = true => apply show_Z_clean
      | |- clean (padOrClip _ _) = true => apply padOrClip_clean
      | |- clean (clipLine _ _) = true => apply clipLine_clean
      | |- clean (labelled _ _) = true => apply labelled_clean
      | |- clean [] = true => reflexivity
      | H : clean ?s = true |- clean ?s = true => exact H
      | |- forallb clean [] = true => reflexivity
      | |- true = true => reflexivity
      | |- _ && _ = true => apply andb_true_iff; split
      | |- forallb clean (_ :: _) = true => apply andb_true_iff; split
      | |- forallb clean (_ ++ _) = true => rewrite forallb_app; apply andb_true_iff; split
      | |- clean (match ?x with _ => _ end) = true => destruct x
      | |- forallb clean (match ?x with _ => _ end) = true => destruct x
      end ].
Lemma lines_clean_map {A} (f : A -> jstr) l : (forall x, In x l -> clean (f x) = true) -> lines_clean (map (fun x => Line (f x)) l) = true.
Proof.
  intros H. unfold lines_clean. apply forallb_forall. intros y (r & (x & <- & Hx)%in_map_iff & Hy)%in_flat_map.
  destruct Hy as [<-|[]]. by apply H.
Qed.
Lemma cut_points_clean fuel room points : forallb clean points = true -> forallb clean (cut_points fuel room points) = true.
Proof.
  revert points. induction fuel as [|fuel IH]; intros points H; [done|]. destruct points as [|p points]; [done|].
  cbn [cut_points forallb]. apply andb_true_iff. split.
  - apply clean_concat. rewrite <- (take_drop room (p :: points)), forallb_app in H. by apply andb_true_iff in H as [? _].
  - apply IH. by apply forallb_drop.
Qed.
Lemma cut_clean room s : clean s = true -> forallb clean (cut room (codePoints s)) = true.
Proof. intros H. apply cut_points_clean. by apply clean_points. Qed.
Lemma bodyRows_clean body width : clean body = true -> forallb clean (bodyRows body width) = true.
Proof.
  intros H. unfold bodyRows. set (room := Z.max 1 _). pose proof (cut_clean room body H) as Hc.
  destruct (_ <=? _)%nat; apply forallb_map; intros row Hrow; rewrite clean_app; change (clean BODY_INDENT) with true; cbn [andb].
  - rewrite forallb_forall in Hc. by apply Hc.
  - revert row Hrow. apply forallb_forall. apply forallb_insert; [by apply forallb_take|].
    rewrite clean_app. apply andb_true_iff. split; [|vm_compute; reflexivity].
    apply clean_concat, forallb_slice, clean_points. unfold default_to.
    destruct (_ !! _) as [last|] eqn:E; [|done]. eapply forallb_lookup; [|exact E]. by apply forallb_take.
Qed.


Section panes.
Context (state : OperatorState) (Hs : state_clean state).

Lemma history_clean width limit :
  forallb clean (formatHistoryLines (buildHistorySnapshot (os_history state) (os_selectedContactId state)) width limit) = true.
Proof.
  pose proof (sc_history _ Hs) as Hh. pose proof (sc_selected _ Hs) as Hsel. unfold buildHistorySnapshot.
  assert (forall w, forallb clean (if 0 <? w then [[]; show_Z w ++ js " entries withheld (other contacts)"] else []) = true) as Ht.
  { intros w. destruct (0 <? w); solve_clean. }
  destruct (os_selectedContactId state) as [contact|]; unfold formatHistoryLines; cbn [hs_contactIdentityId hs_lines hs_withheldCount].
  - set (selected := List.filter _ _).
    assert (forallb entry_clean selected = true) as Hse.
    { apply forallb_forall. intros e He. apply List.filter_In in He as [He _]. by eapply forallb_In. }
    destruct (map _ selected) as [|l ls] eqn:E; [apply fitPane_clean; cbn [head rows tail]; [|done|apply Ht]; cbn [clean_opt] in Hsel; solve_clean|].
    rewrite <- E. clear E l ls. apply fitPane_clean; cbn [head rows tail]; [cbn [clean_opt] in Hsel; solve_clean| |apply Ht].
    unfold lines_clean. apply forallb_forall. intros line Hline. apply in_flat_map in Hline as (row & Hrow & Hl).
    rewrite map_map in Hrow. apply in_map_iff in Hrow as (e & <- & He). cbn [rowLines hl_meta hl_body] in Hl.
    pose proof (forallb_In _ _ _ Hse He) as Hc. unfold entry_clean in Hc. rewrite !andb_true_iff in Hc.
    destruct Hc as [[_ Hid] Hbody]. destruct Hl as [<-|Hl].
    + destruct (he_direction e); cbn [direction_text]; solve_clean.
    + pose proof (bodyRows_clean _ width Hbody) as Hr. by eapply forallb_In.
  - apply fitPane_clean; cbn [head rows tail]; [solve_clean|done|apply Ht].
Qed.
Lemma rejection_lines_clean : forall r, In r (map formatRejectionLine (os_rejections state)) -> clean (js "  " ++ r) = true.
Proof.
  intros r (x & <- & Hx)%in_map_iff. pose proof (forallb_In _ _ _ (sc_rejections _ Hs) Hx) as Hc.
  apply andb_true_iff in Hc as [? ?]. unfold formatRejectionLine. solve_clean.
Qed.
Lemma mailbox_clean snapshot width limit :
  buildMailboxSnapshot (os_mailbox state) (os_rejections state) = Ok snapshot ->
  forallb clean (formatMailboxLines snapshot width limit) = true /\
  (forall r, In r (ms_rejectionLines snapshot) -> clean (js "  " ++ r) = true).
Proof.
  unfold buildMailboxSnapshot. destruct (formatInstant _) as [polled|] eqn:E; [|done]. apply formatInstant_clean in E.
  cbn [res_map]. intros [= <-]. split; [|apply rejection_lines_clean]. unfold formatMailboxLines. cbn [ms_rows ms_rejectionCount ms_rejectionLines].
  apply fitPane_clean; cbn [head rows tail]; [|apply lines_clean_map, rejection_lines_clean|done].
  rewrite forallb_app. apply andb_true_iff. split; [|destruct (0 <? _); solve_clean].
  unfold countedValue. unfold labelled_row; cbn [map fst snd].
  destruct (mb_outboxPending _), (mb_inboxReceived _), (mb_more _); solve_clean.
Qed.
Lemma health_clean line : formatHealthLine (os_health state) = Ok line -> clean line = true.
Proof.
  pose proof (sc_health _ Hs) as Hr. unfold formatHealthLine.
  destruct (rh_status _); [| |intros [= <-]; solve_clean].
  all: destruct (formatInstant _) as [checked|] eqn:E; [|done]; apply formatInstant_clean in E; cbn [res_map]; intros [= <-]; solve_clean.
Qed.
Lemma setup_clean profile : profile_clean profile = true -> forallb clean (buildSetupLines profile) = true.
Proof.
  unfold profile_clean. rewrite !andb_true_iff. intros [[[[[[[Hl Hd] Hu] He] Hi] Hdv] Hst] Hc].
  assert (forall step titles, clean titles.1 = true -> clean titles.2 = true -> forallb clean (setup_step_lines profile step titles) = true) as Hstep.
  { intros step titles H1 H2. unfold setup_step_lines. assert (clean STEP_GUTTER = true) as Hg by reflexivity.
    assert (clean QUOTE = true) as Hq by reflexivity. destruct step as [|step].
    - destruct (pv_storeKeyPresent profile); unfold storeKeyRecipe; solve_clean.
    - assert (clean (stepStatus (default_to [] (pv_setup profile) !! S step)) = true) as Hss.
      { destruct (_ !! S step) as [[| |failed code]|] eqn:E; cbn [stepStatus]; try literal_clean.
        pose proof (forallb_lookup _ _ _ _ Hst E) as Hf. cbn [step_clean] in Hf. solve_clean. }
      apply andb_true_iff. split; [solve_clean|]. unfold stepHint. destruct (_ !! S step) as [[| |failed code]|]; try done.
      destruct (_ || _); solve_clean. }
  unfold buildSetupLines. cbn [forallb]. apply andb_true_iff. split; [literal_clean|].
  unfold SETUP_TITLES. cbn [imap concat]. rewrite !forallb_app.
  unfold compose. rewrite !Hstep by (cbn [fst snd]; first [literal_clean | reflexivity]). reflexivity.
Qed.
Lemma profiles_clean profile contacts snapshot width limit :
  profile_clean profile = true -> forallb contact_clean contacts = true ->
  buildProfilesSnapshot profile contacts (os_health state) = Ok snapshot ->
  forallb clean (formatProfilesLines snapshot width limit) = true /\ clean (ps_healthLine snapshot) = true.
Proof.
  intros Hp Hc. unfold buildProfilesSnapshot. destruct (formatHealthLine _) as [line|] eqn:E; [|done]. apply health_clean in E.
  cbn [res_map]. intros [= <-]. split; [|done]. unfold formatProfilesLines. cbn [ps_setupLines ps_healthLine ps_rows ps_contactLines ps_rosterDiscrepancy].
  destruct (profileIsInSetup profile).
  { apply fitPane_clean; cbn [head rows tail]; [by apply setup_clean|done|solve_clean]. }
  pose proof Hp as Hp'. unfold profile_clean in Hp'. rewrite !andb_true_iff in Hp'. destruct Hp' as [[[[[[[? ?] ?] ?] ?] ?] _] _].
  apply fitPane_clean; cbn [head rows tail]; [| |solve_clean].
  - rewrite !forallb_app, !andb_true_iff. split_and!.
    + unfold labelled_row; cbn [map fst snd]. destruct (pv_published profile); solve_clean.
    + solve_clean.
    + destruct (0 <? _); solve_clean.
  - apply lines_clean_map. intros r (c & <- & Hin)%in_map_iff. pose proof (forallb_In _ _ _ Hc Hin) as Hcc.
    unfold contact_clean in Hcc. rewrite !andb_true_iff in Hcc. destruct Hcc as [[[? ?] _] _]. solve_clean.
Qed.
Lemma helpLines_clean : forallb clean (helpLines state) = true.
Proof.
  unfold helpLines. rewrite forallb_app. apply andb_true_iff. split; [vm_compute; reflexivity|].
  unfold helpQuitLine. destruct (_ || _); solve_clean.
Qed.
Lemma paneLines_clean pane width n lines : paneLines state pane width n = Ok lines -> forallb clean lines = true.
Proof.
  unfold paneLines. destruct (os_help state).
  { pose proof helpLines_clean as H. revert H. generalize (helpLines state) as l. intros l H <-%Ok_inj.
    apply fitPane_clean; cbn [head rows tail]; [by apply forallb_take| |done].
    apply (lines_clean_map (fun x => x)). intros x. apply forallb_In. by apply forallb_drop. }
  pose proof (sc_contacts _ Hs) as Hcs.
  destruct pane.
  - destruct (activeProfile state) as [p|] eqn:Ep; [|intros <-%Ok_inj; solve_clean].
    destruct (buildProfilesSnapshot _ _ _) as [snap|] eqn:E; [|done]. cbn [res_map]. intros <-%Ok_inj.
    eapply profiles_clean; [|exact Hcs|exact E]. eapply forallb_nth_opt; [apply (sc_profiles _ Hs)|exact Ep].
  - destruct (buildMailboxSnapshot _ _) as [snap|] eqn:E; [|done]. cbn [res_map]. intros <-%Ok_inj. by apply mailbox_clean.
  - intros <-%Ok_inj. apply history_clean.
  - destruct (buildMailboxSnapshot _ _) as [snap|] eqn:E; [|done]. cbn [res_map]. intros <-%Ok_inj.
    destruct (mailbox_clean snap width None E) as [_ Hr]. destruct (_ =? 0); [solve_clean|].
    apply fitPane_clean; cbn [head rows tail]; [solve_clean|by apply lines_clean_map|done].
  - destruct (buildProfilesSnapshot _ _ _) as [snap|] eqn:E; [|done]. cbn [res_map]. intros <-%Ok_inj.
    assert (clean (ps_healthLine snap) = true) as Hh.
    { unfold buildProfilesSnapshot in E. destruct (formatHealthLine _) as [line|] eqn:El; [|done]. cbn [res_map] in E.
      apply Ok_inj in E as <-. by apply health_clean. }
    destruct (rh_status _); cbn [status_text]; solve_clean.
Qed.
End panes.

(** *** The chrome, the panel and the whole frame *)
Lemma fitFooter_clean (entries : list FooterKey) width : forallb (fun e : FooterKey => clean e.1) entries = true -> clean (fitFooter entries width) = true.
Proof.
  intros H. unfold fitFooter, paint_footer. apply join_clean; [vm_compute; reflexivity|].
  apply forallb_map. intros index _. destruct (entries !! index) as [e|] eqn:E; [|reflexivity].
  exact (forallb_lookup _ _ _ _ H E).
Qed.
Lemma imap_clean {A} (f : nat -> A -> jstr) l : (forall i x, In x l -> clean (f i x) = true) -> forallb clean (imap f l) = true.
Proof.
  revert f. induction l as [|x l IH]; intros f H; [done|]. cbn [imap forallb]. apply andb_true_iff. split.
  - apply H. by left.
  - apply IH. intros i y Hy. apply H. by right.
Qed.
Lemma rule_clean n : clean (repeat_str (js "─") n) = true.
Proof.
  destruct box_units as (_ & _ & _ & _ & _ & _ & ->). unfold repeat_str. induction (Z.to_nat n) as [|m IH]; [done|exact IH].
Qed.
Lemma put_cells_clean column panel cells :
  forallb clean panel = true -> forallb clean cells = true -> forallb clean (put_cells column panel cells) = true.
Proof.
  revert column cells. induction panel as [|c panel IH]; intros column cells Hp Hc; [done|].
  cbn [forallb put_cells] in *. apply andb_true_iff in Hp as [Hx Hp]. apply IH; [done|]. by apply forallb_insert.
Qed.
Lemma put_lines_clean row left panel painted :
  forallb clean panel = true -> forallb clean painted = true -> forallb clean (put_lines row left panel painted) = true.
Proof.
  revert row painted. induction panel as [|l panel IH]; intros row painted Hp Hf; [done|].
  cbn [forallb put_lines] in *. apply andb_true_iff in Hp as [Hl Hp]. apply IH; [done|].
  destruct (painted !! row) as [base|] eqn:E; [|done]. apply forallb_insert; [done|].
  pose proof (forallb_lookup _ _ _ _ Hf E). apply clean_concat, put_cells_clean; by apply clean_points.
Qed.
Lemma boxed_clean inner text : clean text = true -> clean (boxed inner text) = true.
Proof. intros H. unfold boxed. solve_clean. Qed.
Lemma fill_to_clean n line lines : clean line = true -> forallb clean lines = true -> forallb clean (fill_to n line lines) = true.
Proof.
  intros Hl H. unfold fill_to. rewrite forallb_app, H. cbn [andb].
  induction (Z.to_nat n - length lines)%nat as [|m IH]; [done|]. cbn [replicate forallb]. by rewrite Hl.
Qed.
Lemma modal_body_clean modal : modal_clean modal = true -> forallb clean (modal_body modal) = true.
Proof.
  unfold modal_clean, identifiers_clean. rewrite !andb_true_iff. intros [[Hc Hp] [[[H1 H2] H3] H4]].
  unfold modal_body, TRUST_IDENTIFIER_FIELDS, identifier_lines. cbn [flat_map fst snd app].
  destruct (ti_identity_id _) as [[|]|], (ti_device_id _) as [[|]|], (ti_device_pubkey _) as [[|]|], (ti_signal_identity_key _) as [[|]|];
    cbn [clean_opt] in *; solve_clean.
Qed.
Lemma renderModal_clean modal viewport : modal_clean modal = true -> forallb clean (renderModal modal viewport) = true.
Proof.
  intros H%modal_body_clean. unfold renderModal. destruct (resolveModalPanelSize _ _) as [width height].
  assert (forall i t, clean t = true -> clean (boxed i t) = true) as Hb by (intros; by apply boxed_clean).
  apply forallb_map. intros line Hline. apply padOrClip_clean. revert line Hline. apply forallb_forall, forallb_slice.
  apply fill_to_clean; [by apply Hb|]. rewrite !forallb_app. apply andb_true_iff. split; [|apply andb_true_iff; split].
  - pose proof (rule_clean (Z.max 0 (width - 2))). apply andb_true_iff. split; [solve_clean|].
    apply andb_true_iff. split; [apply Hb; literal_clean|done].
  - apply forallb_map. intros t Ht. apply Hb. revert t Ht. apply forallb_forall, fill_to_clean; [done|]. by apply forallb_slice.
  - pose proof (rule_clean (Z.max 0 (width - 2))). apply andb_true_iff. split; [apply Hb; vm_compute; reflexivity|solve_clean].
Qed.
Section chrome.
Context (state : OperatorState) (Hs : state_clean state).
Lemma active_label_clean : clean match activeProfile state with Some p => pv_label p | None => js "no profile" end = true.
Proof.
  destruct (activeProfile state) as [p|] eqn:E; [|literal_clean].
  pose proof (forallb_nth_opt _ _ _ _ (sc_profiles _ Hs) E) as H. unfold profile_clean in H. rewrite !andb_true_iff in H. tauto.
Qed.
Lemma headerLine_clean : clean (headerLine state) = true.
Proof.
  unfold headerLine. pose proof active_label_clean as H. rewrite !clean_app, H.
  assert (clean (concat (imap (tab (os_pane state)) PANE_IDS)) = true) as ->.
  { apply clean_concat, imap_clean. intros i p _. unfold tab. destruct (eqb p _); destruct p; cbn [pane_text]; solve_clean. }
  vm_compute. reflexivity.
Qed.
Lemma activityLine_clean : clean (activityLine state) = true.
Proof.
  assert (clean match last (os_activity state) with Some latest => al_text latest | None => js "no activity yet" end = true) as H.
  { destruct (last _) as [a|] eqn:E; [|literal_clean]. apply last_Some in E as [l E].
    pose proof (sc_activity _ Hs) as Ha. rewrite E, forallb_app in Ha. cbn [forallb] in Ha. rewrite !andb_true_iff in Ha. tauto. }
  unfold activityLine. destruct (os_busy state); solve_clean.
Qed.
Lemma footerLine_clean width : clean (footerLine state width) = true.
Proof.
  unfold footerLine. destruct (os_modal state); [literal_clean|]. destruct (os_input state) as [i|].
  - unfold submitLabel. destruct (in_field i); solve_clean.
  - apply fitFooter_clean. destruct (os_help state); vm_compute; reflexivity.
Qed.
Lemma composeLine_clean input width : clean (in_buffer input) = true -> clean (composeLine input width) = true.
Proof.
  intros H. assert (clean (field_text (in_field input)) = true) as Hf by (destruct (in_field input); cbn [field_text]; literal_clean).
  assert (forall room, clean (if count (codePoints (in_buffer input)) <=? room then in_buffer input
    else concat (drop (Z.to_nat (count (codePoints (in_buffer input)) - room)) (codePoints (in_buffer input)))) = true) as Hshown.
  { intros room. destruct (_ <=? room); [done|]. apply clean_concat, forallb_drop. by apply clean_points. }
  unfold composeLine. cbv zeta. rewrite !clean_app, Hshown, Hf. apply andb_true_iff. split; [apply andb_true_iff; split; [done|literal_clean]|].
  cbn [andb]. destruct (_ <? _); solve_clean.
Qed.
Lemma wrapToWidth_clean text width : clean text = true -> forallb clean (wrapToWidth text width) = true.
Proof.
  intros H. unfold wrapToWidth. pose proof (cut_clean width text H) as Hc. by destruct (codePoints text).
Qed.
Lemma tooSmallFrame_clean width rows : forallb clean (tooSmallFrame state width rows) = true.
Proof.
  unfold tooSmallFrame. rewrite !forallb_app.
  rewrite !andb_true_iff. split_and!.
  - apply wrapToWidth_clean. vm_compute. reflexivity.
  - reflexivity.
  - apply wrapToWidth_clean. solve_clean.
  - apply wrapToWidth_clean. destruct (_ || _); literal_clean.
  - destruct (is_open (os_modal state)); [|reflexivity]. apply andb_true_iff. split; [reflexivity|].
    apply wrapToWidth_clean. literal_clean.
  - destruct (is_open (os_input state)); [|reflexivity]. apply andb_true_iff. split; [reflexivity|].
    apply wrapToWidth_clean. literal_clean.
Qed.
Lemma frame_lines_clean width rows pane : forallb clean pane = true -> forallb clean (frame_lines state width rows pane) = true.
Proof.
  intros Hp. unfold frame_lines. apply forallb_map. intros line Hline. apply padOrClip_clean. revert line Hline.
  apply forallb_forall. rewrite !forallb_app.
  assert (forallb clean (frame_head state width rows) = true) as ->.
  { apply forallb_slice. cbn [forallb]. rewrite headerLine_clean, rule_clean. vm_compute. reflexivity. }
  assert (forallb clean (frame_tail state width rows) = true) as ->.
  { apply forallb_slice. cbn [forallb]. by rewrite activityLine_clean, footerLine_clean. }
  rewrite fill_to_clean by (first [done | by apply forallb_slice]). cbn [andb]. rewrite andb_true_r.
  pose proof (sc_input _ Hs) as Hi. destruct (os_input state) as [input|]; [|done]. cbn [forall_opt] in Hi.
  destruct (_ =? 1); [|done]. cbn [forallb]. by rewrite composeLine_clean.
Qed.
Lemma renderFrame_clean viewport frame : renderFrame state viewport = Ok frame -> forallb clean frame = true.
Proof.
  unfold renderFrame. destruct (isBelowMinViewport _).
  - intros <-%Ok_inj. apply fill_to_clean; [by apply padOrClip_clean|]. apply forallb_map. intros line Hline.
    apply padOrClip_clean. revert line Hline. apply forallb_forall, forallb_slice, tooSmallFrame_clean.
  - destruct (paneLines _ _ _ _) as [pane|] eqn:E; [|done]. apply (paneLines_clean state Hs) in E. cbn [res_map].
    intros <-%Ok_inj. pose proof (frame_lines_clean (Z.max 1 (cols viewport)) (Z.max 1 (screenRows viewport)) pane E) as Hf.
    pose proof (sc_modal _ Hs) as Hm. destruct (os_modal state) as [modal|]; [|done]. cbn [forall_opt] in Hm.
    unfold overlayModal. destruct (resolveModalPanelSize _ _). apply put_lines_clean; [by apply renderModal_clean|done].
Qed.
End chrome.

(** C17: the frame fits the terminal and never steers it.  For every state whose texts were
    filtered where they entered it and every size the terminal reports, [renderFrame]
    gives exactly as many lines as the terminal has rows, each exactly as many code
    points as it has columns, and not one of them carries a control character or a point
    that reorders or breaks a line, with the trust panel open or not. *)
Theorem frame_exact_and_clean state viewport :
  state_clean state -> instants_ok state ->
  exists frame, renderFrame state viewport = Ok frame /\
    Z.of_nat (length frame) = Z.max 1 (screenRows viewport) /\
    Forall (fun line => Z.of_nat (length (code_points line)) = Z.max 1 (cols viewport) /\
              forallb (fun point => negb (steersTheDisplay point)) (code_points line) = true) frame.
Proof.
  intros Hs Hi. destruct (renderFrame_exact state viewport Hi) as (frame & E & Hc & Hf). exists frame.
  split; [done|]. split; [done|]. pose proof (renderFrame_clean state Hs viewport frame E) as Hcl.
  rewrite forallb_Forall' in Hcl. eapply Forall_impl; [apply Forall_and; exact (conj Hf Hcl)|].
  intros line [Hw Hl]. split; [exact Hw|]. by apply clean_steersTheDisplay.
Qed.

(** ** Witnesses *)
Module FrameSample.
Definition profile : ProfileView :=
  MkProfile (js "alice") (js "/tmp/alice") (js "https://relay.example") (js "KEY") (js "(run doctor)") (js "(run doctor)") 0 false
    (Some StateUnknown) true (Some PENDING_SETUP) (Some (js "card.json")).
Definition identifiers : TrustIdentifiers :=
  MkIdentifiers (Some (replicate 43 65)) (Some (replicate 36 66)) (Some (replicate 43 67)) (Some (replicate 44 68)).
Definition modal : TrustModal := MkModal (js "card.json") (js "alice") identifiers None.
Definition state : OperatorState := with_modal (Some modal) (createInitialState [profile]).
Lemma state_ok : state_clean state.
Proof. constructor; vm_compute; reflexivity. Qed.
Lemma instants : instants_ok state.
Proof. constructor; vm_compute; reflexivity. Qed.
End FrameSample.
Lemma frame_exact_and_clean_witness : exists frame,
  renderFrame FrameSample.state (MkViewport 80 24) = Ok frame /\ Z.of_nat (length frame) = 24.
Proof.
  destruct (frame_exact_and_clean FrameSample.state (MkViewport 80 24) FrameSample.state_ok FrameSample.instants) as (frame & E & Hc & _).
  exists frame. exact (conj E Hc).
Defined.
