(* ===== verification/Reducer.v ===== *)
(** * The console's decisions: the pure half of [tui/tui-shell.ts]

    A chunk of keystrokes to keys, a key to an intent ([mapKey]), an intent to the next
    state and the effects it asks for ([reduce]), and a command's outcome folded into the
    state ([applyOutcome]).  [toLowerCase] is ASCII lower-casing: the one other point
    that lowers to an ASCII letter is the Kelvin sign, to a letter no key is bound to. *)

From S2P Require Import Prelude JsString Json JsMap Effects Outbound Text Console.

(** ** Keys *)

Definition ESC : jstr := [27].
Definition CTRL_C : jstr := [3].
Definition DEL : jstr := [127].
Definition CR : jstr := [13].
Definition LF : jstr := [10].
Definition decodeKey (sequence : jstr) : KeyEvent :=
  if eqb sequence CTRL_C then Key (js "c") true sequence
  else if eqb sequence ESC then Key (js "escape") false sequence
  else if eqb sequence CR || eqb sequence LF then Key (js "return") false sequence
  else
    let first := match code_points sequence with p :: _ => p | [] => [] end in
    match first with
    | code :: _ => if (0 <? code) && (code <? 27) then Key [code + 96] true sequence else Key (lower first) false sequence
    | [] => Key [] false sequence
    end.
(** From ESC on, the rest of the chunk is one keystroke. *)
Fixpoint split_points (points : list jstr) : list jstr :=
  match points with
  | [] => []
  | point :: rest => if eqb point ESC then [concat points] else point :: split_points rest
  end.
Definition splitKeystrokes (chunk : jstr) : list jstr := split_points (code_points chunk).

(** ** A key's meaning *)

Definition ctrl_intent (key : KeyEvent) : option Intent := if eqb (lower (k_name key)) (js "c") then Some Quit else None.
Definition inputKey (key : KeyEvent) : option Intent :=
  if k_ctrl key then ctrl_intent key
  else if starts_with ESC (k_sequence key) then (if eqb (k_sequence key) ESC then Some InputCancel else None)
  else if eqb (k_sequence key) CR || eqb (k_sequence key) LF then Some InputSubmit
  else if eqb (k_sequence key) DEL then Some InputBackspace
  else if eqb (k_sequence key) [] then None
  else Some (InputInsert (k_sequence key)).
Definition setupStepIntent (profile : ProfileView) : option Intent :=
  let profileDir := pv_profileDir profile in
  match nextSetupStep profile with
  | Some 1%nat =>
      if eqb (pv_relayUrl profile) [] then Some (InputOpen FieldRelayUrl)
      else Some (Run (ReqInit profileDir (pv_relayUrl profile) (pv_storeKeyEnv profile)))
  | Some 2%nat => Some (Run (ReqRelayPublish profileDir))
  | Some 3%nat => Some (InputOpen FieldExportPath)
  | Some 4%nat => Some (InputOpen FieldCardPath)
  | Some 5%nat => Some (Run (ReqDoctor profileDir))
  | _ => None
  end.
Definition is_history (p : PaneId) : bool := match p with PaneHistory => true | _ => false end.
Definition is_profiles (p : PaneId) : bool := match p with PaneProfiles => true | _ => false end.
(** [findIndex(...)]: -1 when there is none. *)
Fixpoint find_index {A} (p : A -> bool) (l : list A) (at_ : Z) : Z :=
  match l with [] => -1 | x :: l => if p x then at_ else find_index p l (at_ + 1) end.
Definition is_selected (selected : option jstr) (c : ContactView) : bool := eqb (Some (cv_identityId c)) selected.
Definition next_contact (state : OperatorState) : option ContactView :=
  let at_ := find_index (is_selected (os_selectedContactId state)) (os_contacts state) 0 in
  nth_opt (os_contacts state) ((at_ + 1) mod Z.max 1 (count (os_contacts state))).
Definition paneKeyIntent (key : KeyEvent) (state : OperatorState) : option Intent :=
  match activeProfile state with
  | None => None
  | Some profile =>
      let profileDir := pv_profileDir profile in
      let named (name : String.string) := eqb (k_name key) (js name) in
      if named "p" then Some (Run (ReqPoll profileDir))
      else if named "d" then Some (Run (ReqDoctor profileDir))
      else if named "r" then Some (Run (ReqRelayPublish profileDir))
      else if named "h" then
        match os_selectedContactId state with Some contact => Some (Run (ReqHistory profileDir contact)) | None => None end
      else if named "i" then
        match pv_contactCardPath profile with Some from => Some (Run (ReqContactImport profileDir from)) | None => None end
      else if named "w" then
        match os_selectedContactId state with
        | None => None
        | Some _ =>
            if negb (is_history (os_pane state)) || os_busy state || negb (pv_published profile) then None
            else Some (InputOpen FieldMessage)
        end
      else if named "return" then
        if negb (is_profiles (os_pane state)) || os_busy state then None else setupStepIntent profile
      else if named "c" then
        match next_contact state with Some next => Some (SelectContact (cv_identityId next)) | None => None end
      else if named "t" then
        if count (os_profiles state) <? 2 then None
        else Some (SelectProfile ((os_activeProfile state + 1) mod count (os_profiles state)))
      else None
  end.
Definition is_run (intent : option Intent) : bool := match intent with Some (Run _) => true | _ => false end.
(** [/^[1-9]$/]: the pane a digit selects. *)
Definition ordinal (name : jstr) : Z :=
  match name with [u] => if (49 <=? u) && (u <=? 57) then u - 48 else 0 | _ => 0 end.
Definition mapKey (key : KeyEvent) (state : OperatorState) : option Intent :=
  match os_modal state with
  | Some _ => if k_ctrl key then ctrl_intent key else modalIntent key
  | None =>
      match os_input state with
      | Some _ => inputKey key
      | None =>
          if k_ctrl key then ctrl_intent key
          else if eqb (k_name key) (js "q") then Some Quit
          else if eqb (k_name key) (js "?") then Some ToggleHelp
          else match nth_opt PANE_IDS (ordinal (k_name key) - 1) with
               | Some pane => Some (SelectPane pane)
               | None =>
                   let intent := paneKeyIntent key state in
                   if os_busy state && is_run intent then None else intent
               end
      end
  end.

(** ** [reduce] *)

Definition date_mark (u : Z) : bool := (u =? 45) || (u =? 58) || (u =? 46).
(** The exception is [toISOString]'s. *)
Definition cardInstant (atMs : Z) : res err jstr :=
  res_map (List.filter (fun u => negb (date_mark u))) (toISOString atMs).
Definition initialBuffer (state : OperatorState) (field : InputField) : res err jstr :=
  match activeProfile state with
  | None => Ok []
  | Some profile =>
      match field with
      | FieldExportPath =>
          res_map (fun instant => pv_profileDir profile ++ js "/card-" ++ instant ++ js ".json")
            (cardInstant (default_to 0 (os_observedAtMs state)))
      | FieldCardPath => Ok (default_to [] (pv_contactCardPath profile))
      | _ => Ok []
      end
  end.
Definition submitRequest (state : OperatorState) (input : InputState) : option CliRequest :=
  match activeProfile state with
  | None => None
  | Some profile =>
      let value := in_buffer input in
      let profileDir := pv_profileDir profile in
      match in_field input with
      | FieldMessage =>
          match os_selectedContactId state with
          | None => None
          | Some to => if eqb value [] || negb (pv_published profile) then None else Some (ReqSend profileDir to value None)
          end
      | FieldRelayUrl =>
          if eqb value [] || negb (pv_storeKeyPresent profile) then None
          else Some (ReqInit profileDir value (pv_storeKeyEnv profile))
      | FieldExportPath => if eqb value [] then None else Some (ReqContactExport profileDir value)
      | FieldCardPath => if eqb value [] then None else Some (ReqContactImport profileDir value)
      | _ => None
      end
  end.
Definition with_relayUrl (url : jstr) (p : ProfileView) : ProfileView :=
  MkProfile (pv_label p) (pv_profileDir p) url (pv_storeKeyEnv p) (pv_identityId p) (pv_deviceId p) (pv_contactCount p)
    (pv_published p) (pv_state p) (pv_storeKeyPresent p) (pv_setup p) (pv_contactCardPath p).
(** [profiles.map((profile, index) => index === active ? f(profile) : profile)] *)
Fixpoint map_at {A} (f : A -> A) (at_ : Z) (l : list A) : list A :=
  match l with [] => [] | x :: l => (if at_ =? 0 then f x else x) :: map_at f (at_ - 1) l end.
Definition map_active (f : ProfileView -> ProfileView) (state : OperatorState) : list ProfileView :=
  map_at f (os_activeProfile state) (os_profiles state).
Definition with_buffer (buffer : jstr) (i : InputState) : InputState :=
  MkInput (in_field i) buffer (in_renderedAt i) (in_maxBytes i).
Definition is_some {A} (o : option A) : bool := match o with Some _ => true | None => false end.
(** [points.pop()] and [join("")] *)
Definition drop_last_point (s : jstr) : jstr := concat (removelast (code_points s)).

Definition reduce (state : OperatorState) (intent : Intent) : res err Step :=
  match intent with
  | SelectPane pane => Ok (with_pane pane state, [])
  | SelectProfile index =>
      let index := if (0 <=? index) && (index <? count (os_profiles state)) then index else os_activeProfile state in
      Ok (with_activeProfile index state, [])
  | SelectContact identityId => Ok (with_selected (Some identityId) state, [])
  | ToggleHelp => Ok (with_help (negb (os_help state)) state, [])
  | Run request => if os_busy state then Ok (state, []) else Ok (with_busy true state, [RunCli request])
  | TrustConfirm =>
      match os_modal state with
      | Some modal =>
          if negb (is_some (tm_renderedAt modal)) || negb (trustModalIsComplete modal) then Ok (state, [])
          else Ok (with_modal None state, [AnswerTrustPrompt true])
      | None => Ok (state, [])
      end
  | TrustCancel =>
      match os_modal state with
      | Some _ => Ok (with_modal None state, [AnswerTrustPrompt false])
      | None => Ok (state, [])
      end
  | InputOpen field =>
      if is_some (os_modal state) || os_busy state then Ok (state, [])
      else res_map (fun buffer => (with_input (Some (MkInput field buffer None (inputMaxBytes field))) state, []))
             (initialBuffer state field)
  | InputInsert text =>
      match os_input state with
      | Some input =>
          if is_some (os_modal state) then Ok (state, [])
          else
            let text := paintable text in
            if eqb text [] then Ok (state, [])
            else
              let buffer := in_buffer input ++ text in
              if in_maxBytes input <? utf8Bytes buffer then Ok (state, [])
              else Ok (with_input (Some (with_buffer buffer input)) state, [])
      | None => Ok (state, [])
      end
  | InputBackspace =>
      match os_input state with
      | Some input =>
          if is_some (os_modal state) then Ok (state, [])
          else Ok (with_input (Some (with_buffer (drop_last_point (in_buffer input)) input)) state, [])
      | None => Ok (state, [])
      end
  | InputCancel => match os_input state with Some _ => Ok (with_input None state, []) | None => Ok (state, []) end
  | InputSubmit =>
      match os_input state with
      | Some input =>
          if is_some (os_modal state) || os_busy state || negb (is_some (in_renderedAt input)) then Ok (state, [])
          else match submitRequest state input with
               | None => Ok (state, [])
               | Some request =>
                   let profiles := match request with
                                   | ReqInit _ relayUrl _ => map_active (with_relayUrl relayUrl) state
                                   | _ => os_profiles state
                                   end in
                   Ok (with_busy true (with_input None (with_profiles profiles state)), [RunCli request])
               end
      | None => Ok (state, [])
      end
  | Quit => Ok (state, [EffectQuit])
  end.

(** ** A command's outcome *)

Definition paintableIdentifiers (i : TrustIdentifiers) : TrustIdentifiers :=
  MkIdentifiers (option_map paintable (ti_identity_id i)) (option_map paintable (ti_device_id i))
    (option_map paintable (ti_device_pubkey i)) (option_map paintable (ti_signal_identity_key i)).
Definition asNumber (value : option json) (fallback : Z) : Z := match value with Some (JNum n) => n | _ => fallback end.
Definition readRejections (value : option json) : list RejectionView :=
  match value with
  | Some (JArr entries) =>
      flat_map (fun entry =>
        match entry with
        | JObj members =>
            match obj_get (js "envelopeId") members, obj_get (js "code") members with
            | Some (JStr envelopeId), Some (JStr code) => [MkRejection (paintable envelopeId) (paintable code)]
            | _, _ => []
            end
        | _ => []
        end) entries
  | _ => []
  end.
Definition read_direction (value : option json) : option direction :=
  match value with
  | Some (JStr s) => if eqb s (js "inbound") then Some Inbound else if eqb s (js "outbound") then Some Outbound else None
  | _ => None
  end.
Definition read_entry (entry : json) : list HistoryEntryView :=
  match entry with
  | JObj m =>
      match obj_get (js "contactIdentityId") m, obj_get (js "messageId") m, obj_get (js "plaintext") m,
            read_direction (obj_get (js "direction") m) with
      | Some (JStr contactIdentityId), Some (JStr messageId), Some (JStr plaintext), Some direction =>
          [MkEntry (asNumber (obj_get (js "sequence") m) 0) (paintable contactIdentityId) (paintable messageId) direction
             (paintable plaintext) (asNumber (obj_get (js "createdAtMs") m) 0)]
      | _, _, _, _ => []
      end
  | _ => []
  end.
Definition readHistoryEntries (value : json) : list HistoryEntryView :=
  match value with
  | JObj members => match obj_get (js "entries") members with Some (JArr entries) => flat_map read_entry entries | _ => [] end
  | _ => []
  end.
Definition SETUP_STEP_OF (command : CliCommand) : option nat :=
  match command with
  | CmdInit => Some 1%nat | CmdRelayPublish => Some 2%nat | CmdContactExport => Some 3%nat
  | CmdContactImport => Some 4%nat | CmdDoctor => Some 5%nat | _ => None
  end.
Definition member_of (value : json) (name : jstr) : option json := field name value.
Definition is_object (value : json) : bool := match value with JObj _ => true | _ => false end.
Definition stepSucceeded (request : CliRequest) (outcome : CliOutcome) : bool :=
  match req_command request with
  | CmdDoctor => is_object (co_data outcome) && (0 <? asNumber (member_of (co_data outcome) (js "contact_count")) 0)
  | _ => true
  end.
Definition reportedIdentity (request : CliRequest) (outcome : CliOutcome) : option jstr :=
  match req_command request with
  | CmdInit | CmdDoctor =>
      if co_ok outcome then match member_of (co_data outcome) (js "identity_id") with Some (JStr s) => Some s | _ => None end
      else None
  | _ => None
  end.
Definition with_setup (state : option ProfileState) (setup : option (list StepOutcome)) (p : ProfileView) : ProfileView :=
  MkProfile (pv_label p) (pv_profileDir p) (pv_relayUrl p) (pv_storeKeyEnv p) (pv_identityId p) (pv_deviceId p)
    (pv_contactCount p) (pv_published p) state (pv_storeKeyPresent p) setup (pv_contactCardPath p).
Definition fold_step (step : nat) (value : StepOutcome) (setup : list StepOutcome) : list StepOutcome :=
  imap (fun at_ previous => if (at_ =? step)%nat then value else if (step <? at_)%nat then Pending else previous) setup.
Definition foldProfile (request : CliRequest) (outcome : CliOutcome) (profile : ProfileView) : ProfileView :=
  match pv_setup profile with
  | None => profile
  | Some setup =>
      let absent := negb (co_ok outcome) && eqb (co_code outcome) (js "INVALID_CONFIGURATION") && (co_exitCode outcome =? 2) in
      let profileState := if absent then Some StateAbsent
                          else if is_some (reportedIdentity request outcome) then Some StateReady else pv_state profile in
      match SETUP_STEP_OF (req_command request) with
      | None => with_setup profileState (Some setup) profile
      | Some step =>
          let value := if co_ok outcome then (if stepSucceeded request outcome then StepOk else Pending)
                       else Failed (paintable (co_code outcome)) (co_exitCode outcome) in
          with_setup profileState (Some (fold_step step value setup)) profile
      end
  end.
Definition foldSetup (state : OperatorState) (request : CliRequest) (outcome : CliOutcome) : list ProfileView :=
  map_active (foldProfile request outcome) state.
Definition reportedCount (value : option json) (previous : option Z) : option Z :=
  match value with Some (JNum n) => Some n | _ => previous end.
Definition touchedRelay (request : CliRequest) : bool :=
  match req_command request with CmdPoll | CmdRelayPublish | CmdSend => true | _ => false end.
Definition with_summary (data : json) (p : ProfileView) : ProfileView :=
  MkProfile (pv_label p) (pv_profileDir p) (pv_relayUrl p) (pv_storeKeyEnv p)
    (match member_of data (js "identity_id") with Some (JStr s) => paintable s | _ => pv_identityId p end)
    (match member_of data (js "device_id") with Some (JStr s) => paintable s | _ => pv_deviceId p end)
    (asNumber (member_of data (js "contact_count")) (pv_contactCount p)) (pv_published p) (pv_state p)
    (pv_storeKeyPresent p) (pv_setup p) (pv_contactCardPath p).
Definition as_published (p : ProfileView) : ProfileView :=
  MkProfile (pv_label p) (pv_profileDir p) (pv_relayUrl p) (pv_storeKeyEnv p) (pv_identityId p) (pv_deviceId p)
    (pv_contactCount p) true (pv_state p) (pv_storeKeyPresent p) (pv_setup p) (pv_contactCardPath p).
Definition is_true_json (value : option json) : bool := match value with Some (JBool true) => true | _ => false end.
Definition health_after (outcome : CliOutcome) (atMs : Z) (h : RelayHealthView) : RelayHealthView :=
  if co_ok outcome then MkHealth (rh_relayUrl h) Healthy (rh_uptimeMs h) (Some atMs)
  else if co_exitCode outcome =? 4 then MkHealth (rh_relayUrl h) Unreachable (rh_uptimeMs h) (Some atMs)
  else h.
Definition no_outbox (m : MailboxView) : MailboxView :=
  MkMailbox None (mb_inboxReceived m) (mb_more m) (mb_lastPolledAtMs m).
Definition applyOutcome (state : OperatorState) (request : CliRequest) (outcome : CliOutcome) (atMs : Z) : OperatorState :=
  let health := if touchedRelay request then health_after outcome atMs (os_health state) else os_health state in
  let next := with_mailbox (no_outbox (os_mailbox state)) (with_profiles (foldSetup state request outcome) (with_health health state)) in
  if negb (co_ok outcome) then next
  else
    let data := co_data outcome in
    match req_command request with
    | CmdInit | CmdDoctor => if is_object data then with_profiles (map_active (with_summary data) next) next else next
    | CmdPoll =>
        if is_object data then
          with_rejections (readRejections (member_of data (js "rejected")))
            (with_mailbox (MkMailbox (mb_outboxPending (os_mailbox next))
                             (reportedCount (member_of data (js "received")) (mb_inboxReceived (os_mailbox next)))
                             (is_true_json (member_of data (js "more"))) (Some atMs)) next)
        else next
    | CmdRelayPublish => with_profiles (map_active as_published next) next
    | CmdHistory => with_history (readHistoryEntries data) next
    | _ => next
    end.
Definition outcomeLine (command : CliCommand) (outcome : CliOutcome) : jstr :=
  let head := command_text command ++ js " → " ++ co_code outcome ++ js " (exit " ++ show_Z (co_exitCode outcome) ++ js ")" in
  if co_ok outcome then head
  else let text := explain command (co_code outcome) (co_exitCode outcome) in
       head ++ js "  " ++ ft_sentence text ++ js " " ++ ft_action text.

(** ** What a step may do *)

(** The row holds what may be sent: a message is text, within the bound. *)
Definition message_ok (text : jstr) : Prop := well_formed text = true /\ utf8Bytes text <= MAX_PLAINTEXT_BYTES.
Definition draft_ok (i : InputState) : Prop :=
  in_maxBytes i = inputMaxBytes (in_field i) /\ (in_field i = FieldMessage -> message_ok (in_buffer i)).
(** The compose row and the trust panel are never open together, and nothing is composed while
    a command runs. *)
Definition exclusive (s : OperatorState) : Prop := os_input s <> None -> os_modal s = None /\ os_busy s = false.
Record state_ok (s : OperatorState) : Prop := {
  so_clean : state_clean s;
  so_instants : instants_ok s;
  so_exclusive : exclusive s;
  so_draft : forall i, os_input s = Some i -> draft_ok i }.
(** A request the console may make: a message is not empty and may be sent. *)
Definition request_good (r : CliRequest) : Prop :=
  request_clean r = true /\ match r with ReqSend _ _ text _ => text <> [] /\ message_ok text | _ => True end.
(** What [mapKey] gives. *)
Definition intent_ok (s : OperatorState) (i : Intent) : Prop :=
  match i with
  | SelectContact identityId => clean identityId = true
  | Run request => os_input s = None /\ request_good request
  | InputInsert text => well_formed text = true
  | _ => True
  end.
Inductive stepped (s : OperatorState) : OperatorState -> list Effect -> Prop :=
  | stepped_quiet s' : os_busy s' = os_busy s -> os_modal s' = os_modal s -> stepped s s' []
  | stepped_run s' r : os_busy s = false -> os_busy s' = true -> os_modal s' = os_modal s -> request_good r -> stepped s s' [RunCli r]
  | stepped_answer s' m (b : bool) :
      os_modal s = Some m -> os_modal s' = None -> os_busy s' = os_busy s ->
      (b = true -> tm_renderedAt m <> None /\ trustModalIsComplete m = true) -> stepped s s' [AnswerTrustPrompt b]
  | stepped_quit : stepped s s [EffectQuit].

(** *** Lemmas: the draft *)
Lemma well_formed_points s :
  well_formed s = true <-> Forall (fun p => is_lone p = false /\ forallb unit_ok p = true) (code_points s).
Proof.
  unfold well_formed. rewrite andb_true_iff.
  assert (forallb unit_ok s = forallb (forallb unit_ok) (code_points s)) as ->.
  { rewrite <- (code_points_concat s) at 1. induction (code_points s) as [|p l IH]; [done|]. cbn [concat forallb]. by rewrite forallb_app, IH. }
  rewrite !forallb_Forall'. rewrite <- Forall_and. split; intros H; eapply Forall_impl; try exact H; cbn; intros p; rewrite ?negb_true_iff; tauto.
Qed.
Lemma points_well_formed s : well_formed s = true -> forallb well_formed (code_points s) = true.
Proof.
  induction s using code_points_ind; intros Hw; [done|by cbn [code_points forallb]; rewrite Hw| |].
  - rewrite code_points_pair by done. rewrite well_formed_pair in Hw by done. rewrite !andb_true_iff in Hw. destruct Hw as [[Hu Hv] Hw].
    cbn [forallb]. apply andb_true_iff. split; [|by apply IHs]. rewrite well_formed_pair by done. by rewrite Hu, Hv.
  - rewrite code_points_single by done. rewrite well_formed_single in Hw by done. rewrite !andb_true_iff in Hw. destruct Hw as [[Hu Hs] Hw].
    cbn [forallb]. apply andb_true_iff. split; [|by apply IHs]. apply well_formed_plain. cbn [forallb]. unfold plain_unit. by rewrite Hu, Hs.
Qed.
Lemma well_formed_take n s : well_formed s = true -> well_formed (concat (take n (code_points s))) = true.
Proof. rewrite !well_formed_points, code_points_take. apply Forall_take. Qed.
Lemma paintable_points s : well_formed s = true ->
  code_points (paintable s) = List.filter (fun p => negb (steersTheDisplay p)) (code_points s).
Proof.
  unfold paintable. induction s using code_points_ind; intros Hw; [done| | |].
  - cbn [code_points List.filter]. by destruct (negb _).
  - rewrite well_formed_pair in Hw by done. rewrite !andb_true_iff in Hw. destruct Hw as [_ Hw].
    rewrite code_points_pair by done. cbn [List.filter]. rewrite pair_paints by done. cbn [negb concat].
    change ([u; v] ++ ?x) with (u :: v :: x). rewrite code_points_pair by done. by rewrite IHs.
  - rewrite well_formed_single in Hw by done. rewrite !andb_true_iff in Hw. destruct Hw as [[Hu Hl] Hw].
    rewrite code_points_single by done. cbn [List.filter]. destruct (negb (steersTheDisplay [u])) eqn:E; [|by apply IHs].
    cbn [concat]. change ([u] ++ ?x) with (u :: x). rewrite code_points_cons_bmp; [by rewrite IHs|].
    apply not_high. by apply negb_true_iff.
Qed.
Lemma paintable_well_formed s : well_formed s = true -> well_formed (paintable s) = true.
Proof.
  intros H. rewrite well_formed_points, paintable_points by done. apply well_formed_points in H.
  rewrite List.Forall_forall in *. intros p [Hp _]%List.filter_In. by apply H.
Qed.
Lemma drop_last_take s : drop_last_point s = concat (take (length (code_points s) - 1) (code_points s)).
Proof. unfold drop_last_point. by rewrite removelast_firstn_len, Nat.sub_1_r. Qed.
Lemma utf8_take n s : utf8_length (concat (take n (code_points s))) <= utf8_length s.
Proof.
  unfold utf8_length, utf8_encode. rewrite code_points_take.
  rewrite <- (take_drop n (code_points s)) at 2. rewrite flat_map_app, length_app. lia.
Qed.
Lemma drop_last_ok s : message_ok s -> message_ok (drop_last_point s).
Proof.
  intros [Hw Hb]. rewrite drop_last_take. split; [by apply well_formed_take|].
  pose proof (utf8_take (length (code_points s) - 1) s). unfold utf8Bytes in *. lia.
Qed.
Lemma drop_last_clean s : clean s = true -> clean (drop_last_point s) = true.
Proof. intros H. rewrite drop_last_take. apply clean_concat, forallb_take. by apply clean_points. Qed.

(** *** Lemmas: intents *)
Lemma active_clean s p : state_clean s -> activeProfile s = Some p -> profile_clean p = true.
Proof. intros H E. eapply forallb_nth_opt; [apply (sc_profiles _ H)|exact E]. Qed.
Lemma profile_parts p : profile_clean p = true ->
  clean (pv_label p) = true /\ clean (pv_profileDir p) = true /\ clean (pv_relayUrl p) = true /\ clean (pv_storeKeyEnv p) = true
  /\ clean (pv_identityId p) = true /\ clean (pv_deviceId p) = true /\ forallb step_clean (default_to [] (pv_setup p)) = true
  /\ clean_opt (pv_contactCardPath p) = true.
Proof. unfold profile_clean. rewrite !andb_true_iff. tauto. Qed.
Lemma setupStepIntent_ok s p i :
  os_input s = None -> profile_clean p = true -> setupStepIntent p = Some i -> intent_ok s i.
Proof.
  intros Hi Hp. apply profile_parts in Hp as (_ & Hd & Hu & He & _). unfold setupStepIntent.
  destruct (nextSetupStep p) as [[|[|[|[|[|[|n]]]]]]|]; try done; try (intros [= <-]; done).
  destruct (eqb _ _); intros [= <-]; [done|]. split; [done|]. split; [|done]. cbn [request_clean]. by rewrite Hd, Hu, He.
Qed.
Lemma paneKeyIntent_ok k s i : state_clean s -> os_input s = None -> paneKeyIntent k s = Some i -> intent_ok s i.
Proof.
  intros Hs Hi. unfold paneKeyIntent. destruct (activeProfile s) as [p|] eqn:Ep; [|done].
  pose proof (active_clean s p Hs Ep) as Hp. apply profile_parts in Hp as Hparts. destruct Hparts as (_ & Hd & Hu & He & _ & _ & _ & Hc).
  pose proof (sc_selected _ Hs) as Hsel.
  destruct (eqb _ (js "p")); [intros [= <-]; by split|]. destruct (eqb _ (js "d")); [intros [= <-]; by split|].
  destruct (eqb _ (js "r")); [intros [= <-]; by split|]. destruct (eqb _ (js "h")).
  { destruct (os_selectedContactId s); [|done]. intros [= <-]. split; [done|]. split; [|done]. cbn [request_clean clean_opt] in *. by rewrite Hd. }
  destruct (eqb _ (js "i")).
  { destruct (pv_contactCardPath p); [|done]. intros [= <-]. split; [done|]. split; [|done]. cbn [request_clean clean_opt] in *. by rewrite Hd. }
  destruct (eqb _ (js "w")).
  { destruct (os_selectedContactId s); [|done]. destruct (_ || _); [done|]. by intros [= <-]. }
  destruct (eqb _ (js "return")); [destruct (_ || _); [done|]; by apply setupStepIntent_ok|].
  destruct (eqb _ (js "c")).
  { unfold next_contact. destruct (nth_opt _ _) as [c|] eqn:Ec; [|done]. intros [= <-].
    pose proof (forallb_nth_opt _ _ _ _ (sc_contacts _ Hs) Ec) as Hcc. unfold contact_clean in Hcc.
    rewrite !andb_true_iff in Hcc. cbn [intent_ok]. tauto. }
  destruct (eqb _ (js "t")); [|done]. destruct (_ <? 2); [done|]. by intros [= <-].
Qed.
Lemma ctrl_intent_ok k s i : ctrl_intent k = Some i -> intent_ok s i.
Proof. unfold ctrl_intent. destruct (eqb _ _); [|done]. by intros [= <-]. Qed.
Lemma mapKey_ok k s i :
  state_clean s -> well_formed (k_sequence k) = true -> mapKey k s = Some i -> intent_ok s i.
Proof.
  intros Hs Hw. unfold mapKey. destruct (os_modal s).
  { destruct (k_ctrl k) eqn:Ek; [apply ctrl_intent_ok|]. unfold modalIntent. rewrite Ek.
    destruct (eqb _ (js "y")); [by intros [= <-]|]. destruct (eqb _ (js "n")); [by intros [= <-]|].
    destruct (eqb _ (js "escape")); [by intros [= <-]|done]. }
  destruct (os_input s) eqn:Ei.
  { unfold inputKey. destruct (k_ctrl k); [apply ctrl_intent_ok|].
    destruct (starts_with _ _); [destruct (eqb _ _); [by intros [= <-]|done]|].
    destruct (_ || _); [by intros [= <-]|]. destruct (eqb _ DEL); [by intros [= <-]|]. destruct (eqb _ []); [done|].
    intros [= <-]. exact Hw. }
  destruct (k_ctrl k); [apply ctrl_intent_ok|]. destruct (eqb _ (js "q")); [by intros [= <-]|].
  destruct (eqb _ (js "?")); [by intros [= <-]|]. destruct (nth_opt PANE_IDS _); [by intros [= <-]|].
  cbv zeta. destruct (os_busy s && _); [done|]. by apply paneKeyIntent_ok.
Qed.

(** *** Lemmas: steps *)
Lemma map_at_clean f at_ l :
  (forall p, profile_clean p = true -> profile_clean (f p) = true) -> forallb profile_clean l = true ->
  forallb profile_clean (map_at f at_ l) = true.
Proof.
  intros Hf. revert at_. induction l as [|p l IH]; intros at_; [done|]. cbn [map_at forallb]. intros [Hp Hl]%andb_true_iff.
  apply andb_true_iff. split; [|by apply IH]. destruct (at_ =? 0); auto.
Qed.
Lemma cardInstant_clean ms s : cardInstant ms = Ok s -> clean s = true.
Proof.
  unfold cardInstant, toISOString. destruct (valid_time ms); [|done]. cbn [res_map]. intros <-%Ok_inj.
  pose proof (iso_clean ms) as H. unfold clean in *. rewrite forallb_forall in *. intros u [Hu _]%List.filter_In. by apply H.
Qed.
Lemma initialBuffer_ok s field :
  state_clean s -> instants_ok s -> exists buffer, initialBuffer s field = Ok buffer /\ clean buffer = true /\ (field = FieldMessage -> buffer = []).
Proof.
  intros Hs Hi. unfold initialBuffer. destruct (activeProfile s) as [p|] eqn:Ep; [|by exists []].
  pose proof (active_clean s p Hs Ep) as Hp. apply profile_parts in Hp as (_ & Hd & _ & _ & _ & _ & _ & Hc).
  destruct field; try (by exists []).
  - destruct (cardInstant (default_to 0 (os_observedAtMs s))) as [t|] eqn:Et.
    + pose proof (cardInstant_clean _ _ Et) as Ht. cbn [res_map]. eexists. split; [reflexivity|]. split; [|done].
      rewrite !clean_app, Hd, Ht. vm_compute. reflexivity.
    + exfalso. revert Et. unfold cardInstant, toISOString. pose proof (io_observed _ Hi) as Ho.
      destruct (os_observedAtMs s) as [ms|]; cbn [default_to forall_opt] in *; [by rewrite Ho|done].
  - exists (default_to [] (pv_contactCardPath p)). split; [done|]. split; [|done].
    by destruct (pv_contactCardPath p).
Qed.
Ltac keep_state :=
  match goal with
  | H : state_ok ?s |- state_ok _ =>
      let Hc := fresh in let Hi := fresh in destruct H as [Hc Hi ? ?]; destruct Hc; destruct Hi;
      constructor; [constructor; first [assumption | reflexivity]|constructor; assumption|try assumption|try assumption]
  end.
Lemma submitRequest_ok s i r :
  state_ok s -> os_input s = Some i -> submitRequest s i = Some r -> request_good r.
Proof.
  intros Hs Hi. unfold submitRequest. destruct (activeProfile s) as [p|] eqn:Ep; [|done].
  pose proof (active_clean s p (so_clean _ Hs) Ep) as Hp. apply profile_parts in Hp as (_ & Hd & _ & He & _).
  pose proof (sc_input _ (so_clean _ Hs)) as Hb. rewrite Hi in Hb. cbn [forall_opt] in Hb.
  pose proof (sc_selected _ (so_clean _ Hs)) as Hsel. destruct (so_draft _ Hs i Hi) as [_ Hm].
  destruct (in_field i); try done.
  - destruct (_ || _); [done|]. intros [= <-]. split; [|done]. cbn [request_clean]. by rewrite Hd, Hb, He.
  - destruct (eqb _ _); [done|]. intros [= <-]. split; [|done]. cbn [request_clean]. by rewrite Hd, Hb.
  - destruct (eqb _ _); [done|]. intros [= <-]. split; [|done]. cbn [request_clean]. by rewrite Hd, Hb.
  - destruct (os_selectedContactId s) as [to|]; [|done]. destruct (_ || _) eqn:Eo; [done|]. intros [= <-].
    apply orb_false_iff in Eo as [Eo _]. apply eqb_neq in Eo. split; [|by auto]. cbn [request_clean clean_opt] in *. by rewrite Hd, Hb, Hsel.
Qed.
Lemma with_relayUrl_clean url p : clean url = true -> profile_clean p = true -> profile_clean (with_relayUrl url p) = true.
Proof.
  intros Hu Hp. apply profile_parts in Hp as (H1 & H2 & _ & H4 & H5 & H6 & H7 & H8). unfold profile_clean, with_relayUrl. cbn [pv_label pv_profileDir pv_relayUrl pv_storeKeyEnv pv_identityId pv_deviceId pv_setup pv_contactCardPath].
  by rewrite H1, H2, Hu, H4, H5, H6, H7, H8.
Qed.

Lemma reduce_ok s i :
  state_ok s -> intent_ok s i -> exists s' effects, reduce s i = Ok (s', effects) /\ stepped s s' effects /\ state_ok s'.
Proof.
  intros Hs Hi. assert (stepped s s []) as Hq by by constructor.
  destruct i as [pane|index|id|request| | | |field|text| | | |]; cbn [reduce intent_ok] in *.
  - eexists _, _. split; [reflexivity|]. split; [by constructor|keep_state].
  - eexists _, _. split; [reflexivity|]. split; [by constructor|keep_state].
  - eexists _, _. split; [reflexivity|]. split; [by constructor|keep_state].
  - destruct Hi as [Hin Hr]. destruct (os_busy s) eqn:Eb; [eauto|]. eexists _, _. split; [reflexivity|].
    split; [by constructor|]. keep_state; unfold exclusive; intros; cbn in *; congruence.
  - eexists _, _. split; [reflexivity|]. split; [by constructor|keep_state].
  - destruct (os_modal s) as [m|] eqn:Em; [|eauto]. destruct (_ || _) eqn:Ec; [eauto|].
    apply orb_false_iff in Ec as [E1 E2]. apply negb_false_iff in E1, E2. eexists _, _. split; [reflexivity|].
    split; [eapply stepped_answer; [exact Em|done|done|]; intros _; split; [by destruct (tm_renderedAt m)|done]|].
    keep_state. intros H. cbn in *. split; [done|]. by apply so_exclusive0.
  - destruct (os_modal s) as [m|] eqn:Em; [|eauto]. eexists _, _. split; [reflexivity|].
    split; [by eapply stepped_answer|]. keep_state. intros H. cbn in *. split; [done|]. by apply so_exclusive0.
  - destruct (_ || _) eqn:Ec; [eauto|]. apply orb_false_iff in Ec as [E1 E2].
    destruct (initialBuffer_ok s field (so_clean _ Hs) (so_instants _ Hs)) as (buffer & -> & Hb & Hm). cbn [res_map].
    eexists _, _. split; [reflexivity|]. split; [by constructor|]. keep_state.
    + intros _. cbn. split; [by destruct (os_modal s)|done].
    + intros i [= <-]. split; [done|]. cbn. intros E. rewrite (Hm E). vm_compute. split; congruence.
  - destruct (os_input s) as [input|] eqn:Ei; [|eauto]. destruct (is_some _) eqn:Em; [eauto|]. cbv zeta.
    destruct (eqb _ []); [eauto|]. destruct (_ <? _) eqn:El; [eauto|]. bool_to_prop. eexists _, _. split; [reflexivity|].
    split; [by constructor|]. pose proof (sc_input _ (so_clean _ Hs)) as Hb. rewrite Ei in Hb. cbn [forall_opt] in Hb.
    destruct (so_draft _ Hs input Ei) as [Hmax Hmsg]. destruct Hs as [[] [] Hex Hdr].
    constructor; [constructor; try assumption|constructor; assumption| |].
    + cbn. by rewrite clean_app, Hb, paintable_clean.
    + intros _. apply Hex. congruence.
    + intros i [= <-]. split; [done|]. cbn. intros E. destruct (Hmsg E) as [Hw _]. split.
      * apply well_formed_app; [done|]. by apply paintable_well_formed.
      * rewrite Hmax, E in El. exact El.
  - destruct (os_input s) as [input|] eqn:Ei; [|eauto]. destruct (is_some _) eqn:Em; [eauto|]. eexists _, _. split; [reflexivity|].
    split; [by constructor|]. pose proof (sc_input _ (so_clean _ Hs)) as Hb. rewrite Ei in Hb. cbn [forall_opt] in Hb.
    destruct (so_draft _ Hs input Ei) as [Hmax Hmsg]. destruct Hs as [[] [] Hex Hdr].
    constructor; [constructor; try assumption|constructor; assumption| |].
    + cbn. by apply drop_last_clean.
    + intros _. apply Hex. congruence.
    + intros i [= <-]. split; [done|]. cbn. intros E. apply drop_last_ok. by apply Hmsg.
  - destruct (os_input s) as [input|] eqn:Ei; [|eauto]. eexists _, _. split; [reflexivity|].
    split; [by constructor|]. keep_state; unfold exclusive; intros; cbn in *; congruence.
  - destruct (os_input s) as [input|] eqn:Ei; [|eauto]. destruct (_ || _) eqn:Eg; [eauto|].
    destruct (submitRequest s input) as [r|] eqn:Er; [|eauto]. rewrite !orb_false_iff in Eg. destruct Eg as [[Em Eb] _].
    pose proof (submitRequest_ok s input r Hs Ei Er) as Hr. eexists _, _. split; [reflexivity|].
    split; [by constructor|]. destruct Hs as [[] [] Hex Hdr].
    constructor; [constructor; try first [assumption | reflexivity]|constructor; assumption|by intros H|done].
    cbn. destruct r; try assumption. apply map_at_clean; [|assumption]. intros p Hp. apply with_relayUrl_clean; [|done].
    destruct Hr as [Hr _]. cbn [request_clean] in Hr. rewrite !andb_true_iff in Hr. tauto.
  - eexists _, _. split; [reflexivity|]. split; [constructor|done].
Qed.

(** *** Lemmas: outcomes *)
Lemma foldProfile_clean request outcome p : profile_clean p = true -> profile_clean (foldProfile request outcome p) = true.
Proof.
  intros Hp. unfold foldProfile. destruct (pv_setup p) as [setup|] eqn:Es; [|done].
  apply profile_parts in Hp as (H1 & H2 & H3 & H4 & H5 & H6 & H7 & H8). rewrite Es in H7. cbn [default_to] in H7.
  assert (forall st su, forallb step_clean su = true -> profile_clean (with_setup st (Some su) p) = true) as Hw.
  { intros st su Hsu. unfold profile_clean, with_setup.
    cbn [pv_label pv_profileDir pv_relayUrl pv_storeKeyEnv pv_identityId pv_deviceId pv_setup pv_contactCardPath default_to].
    by rewrite H1, H2, H3, H4, H5, H6, Hsu, H8. }
  destruct (SETUP_STEP_OF _) as [step|]; apply Hw; [|done]. unfold fold_step.
  set (value := if co_ok outcome then _ else _). assert (step_clean value = true) as Hv.
  { subst value. destruct (co_ok outcome); [by destruct (stepSucceeded _ _)|]. apply paintable_clean. }
  rewrite forallb_Forall' in *. apply Forall_lookup. intros i x. rewrite list_lookup_imap.
  destruct (setup !! i) as [y|] eqn:Ey; [|done]. cbn [fmap option_fmap option_map]. intros [= <-].
  pose proof (Forall_lookup_1 _ _ _ _ H7 Ey). by destruct (i =? step)%nat, (step <? i)%nat.
Qed.
Lemma with_summary_clean data p : profile_clean p = true -> profile_clean (with_summary data p) = true.
Proof.
  intros (H1 & H2 & H3 & H4 & H5 & H6 & H7 & H8)%profile_parts. unfold profile_clean, with_summary.
  cbn [pv_label pv_profileDir pv_relayUrl pv_storeKeyEnv pv_identityId pv_deviceId pv_setup pv_contactCardPath].
  assert (forall o d, clean d = true -> clean (match o with Some (JStr s) => paintable s | _ => d end) = true) as Hm.
  { intros [[]|] d Hd; try done. apply paintable_clean. }
  by rewrite H1, H2, H3, H4, !Hm, H7, H8.
Qed.
Lemma as_published_clean p : profile_clean p = true -> profile_clean (as_published p) = true.
Proof. done. Qed.
Lemma readRejections_clean v : forallb rejection_clean (readRejections v) = true.
Proof.
  destruct v as [[]|]; try done. cbn [readRejections]. apply forallb_forall. intros r (e & _ & Hr)%in_flat_map.
  destruct e as [| | | | |m]; try done. destruct (obj_get (js "envelopeId") m) as [[]|]; try done.
  destruct (obj_get (js "code") m) as [[]|]; try done. destruct Hr as [<-|[]]. unfold rejection_clean. cbn [rj_envelopeId rj_code]. by rewrite !paintable_clean.
Qed.
Lemma readHistoryEntries_clean v : forallb entry_clean (readHistoryEntries v) = true.
Proof.
  unfold readHistoryEntries. destruct v as [| | | | |m]; try done. destruct (obj_get _ m) as [[]|]; try done.
  apply forallb_forall. intros r (e & _ & Hr)%in_flat_map. unfold read_entry in Hr. destruct e as [| | | | |e]; try done.
  destruct (obj_get (js "contactIdentityId") e) as [[]|]; try done. destruct (obj_get (js "messageId") e) as [[]|]; try done.
  destruct (obj_get (js "plaintext") e) as [[]|]; try done. destruct (read_direction _); [|done].
  destruct Hr as [<-|[]]. unfold entry_clean. cbn [he_contactIdentityId he_messageId he_plaintext]. by rewrite !paintable_clean.
Qed.
Lemma applyOutcome_ok s request outcome at_ :
  state_ok s -> valid_time at_ = true ->
  state_ok (applyOutcome s request outcome at_) /\ os_modal (applyOutcome s request outcome at_) = os_modal s.
Proof.
  intros [[] [] Hex Hdr] Ht.
  assert (forallb profile_clean (foldSetup s request outcome) = true) as Hf.
  { apply map_at_clean; [intros p; apply foldProfile_clean|done]. }
  assert (forall p, profile_clean p = true -> profile_clean (with_summary (co_data outcome) p) = true) as Hsum by (intros p; apply with_summary_clean).
  assert (forall h, h = (if touchedRelay request then health_after outcome at_ (os_health s) else os_health s) ->
    clean (rh_relayUrl h) = true /\ forall_opt valid_time (rh_checkedAtMs h) = true) as Hh.
  { intros h ->. unfold health_after. destruct (touchedRelay request), (co_ok outcome), (co_exitCode outcome =? 4); cbn; auto. }
  destruct (Hh _ eq_refl) as [Hr Hc]. unfold applyOutcome. cbv zeta.
  set (next := with_mailbox _ _). assert (state_ok next /\ os_modal next = os_modal s) as [Hn Hm].
  { subst next. split; [|done]. constructor; [constructor; assumption|constructor; assumption|assumption|assumption]. }
  destruct (co_ok outcome); cbn [negb]; [|done].
  assert (forall f, (forall p, profile_clean p = true -> profile_clean (f p) = true) -> state_ok (with_profiles (map_active f next) next)) as Hmap.
  { intros f Hff. destruct Hn as [[] [] Hex' Hdr']. constructor; [constructor; try assumption|constructor; assumption|assumption|assumption].
    by apply map_at_clean. }
  destruct (req_command request); try done.
  - destruct (is_object _); [|done]. split; [by apply Hmap|done].
  - split; [apply Hmap; intros p; apply as_published_clean|done].
  - destruct (is_object _); [|done]. split; [|done]. destruct Hn as [[] [] Hex' Hdr'].
    constructor; [constructor; try assumption|constructor; try assumption|assumption|assumption]. apply readRejections_clean.
  - split; [|done]. destruct Hn as [[] [] Hex' Hdr'].
    constructor; [constructor; try assumption|constructor; try assumption|assumption|assumption]. apply readHistoryEntries_clean.
  - destruct (is_object _); [|done]. split; [by apply Hmap|done].
Qed.
