(* ===== verification/TuiShell.v ===== *)
(** * The console's event loop: [runTuiShell] of [tui/tui-shell.ts] and its driver, [tui/main.ts]

    The shell owns the screen, the keyboard and the state; the driver owns the one child
    process a command runs in.  Each callback the program registers is a function on the
    state of both: a chunk of keystrokes, a chunk of the child's output or error output,
    the child's end.  What the console does to the world, and what its driver tells it,
    is recorded in a trace, newest first.  A run is any sequence of these events.  A child
    that cannot be started ends with 5, one that a signal ends with 1; the terminal's size
    is a pair of integers, read anew at every look; a step of the reducer has at most one
    effect, and [chain] handles that one. *)

From S2P Require Import Prelude JsString Json JsMap Effects Outbound Cli Text Console Frame Reducer.

(** ** The state *)

(** The process a command runs in; [ch_startup] tells the command the console runs unasked. *)
Record child := MkChild {
  ch_request : CliRequest; ch_stdout : jstr; ch_stderr : jstr; ch_announced : bool; ch_startup : bool }.
Inductive entry :=
  | Wrote (text : jstr)
  | SetRawMode (mode : bool) | Resumed | Paused | Finished (code : Z)
  | Spawned (request : CliRequest) (argv : list jstr) | Ended (exitCode : Z) | StdinEnd (text : jstr) | StdinWrite (text : jstr)
  | Heard (identifiers : TrustIdentifiers).
Record shell := MkShell {
  sh_current : OperatorState; sh_running : bool; sh_finished : bool; sh_confirmed : option TrustModal;
  sh_inFlightCommand : option CliCommand; sh_child : option child; sh_awaitingTrust : bool;
  (** how often the clock and the terminal's size were read *)
  sh_clock : nat; sh_looks : nat;
  (** the continuations that wait for the callback to return *)
  sh_pending : nat;
  sh_trace : list entry }.
Definition on_current f s := MkShell (f (sh_current s)) (sh_running s) (sh_finished s) (sh_confirmed s) (sh_inFlightCommand s) (sh_child s) (sh_awaitingTrust s) (sh_clock s) (sh_looks s) (sh_pending s) (sh_trace s).
Definition set_running v s := MkShell (sh_current s) v (sh_finished s) (sh_confirmed s) (sh_inFlightCommand s) (sh_child s) (sh_awaitingTrust s) (sh_clock s) (sh_looks s) (sh_pending s) (sh_trace s).
Definition set_finished v s := MkShell (sh_current s) (sh_running s) v (sh_confirmed s) (sh_inFlightCommand s) (sh_child s) (sh_awaitingTrust s) (sh_clock s) (sh_looks s) (sh_pending s) (sh_trace s).
Definition set_confirmed v s := MkShell (sh_current s) (sh_running s) (sh_finished s) v (sh_inFlightCommand s) (sh_child s) (sh_awaitingTrust s) (sh_clock s) (sh_looks s) (sh_pending s) (sh_trace s).
Definition set_inFlight v s := MkShell (sh_current s) (sh_running s) (sh_finished s) (sh_confirmed s) v (sh_child s) (sh_awaitingTrust s) (sh_clock s) (sh_looks s) (sh_pending s) (sh_trace s).
Definition set_child v s := MkShell (sh_current s) (sh_running s) (sh_finished s) (sh_confirmed s) (sh_inFlightCommand s) v (sh_awaitingTrust s) (sh_clock s) (sh_looks s) (sh_pending s) (sh_trace s).
Definition set_awaiting v s := MkShell (sh_current s) (sh_running s) (sh_finished s) (sh_confirmed s) (sh_inFlightCommand s) (sh_child s) v (sh_clock s) (sh_looks s) (sh_pending s) (sh_trace s).
Definition tick_clock s := MkShell (sh_current s) (sh_running s) (sh_finished s) (sh_confirmed s) (sh_inFlightCommand s) (sh_child s) (sh_awaitingTrust s) (S (sh_clock s)) (sh_looks s) (sh_pending s) (sh_trace s).
Definition tick_looks s := MkShell (sh_current s) (sh_running s) (sh_finished s) (sh_confirmed s) (sh_inFlightCommand s) (sh_child s) (sh_awaitingTrust s) (sh_clock s) (S (sh_looks s)) (sh_pending s) (sh_trace s).
Definition set_pending v s := MkShell (sh_current s) (sh_running s) (sh_finished s) (sh_confirmed s) (sh_inFlightCommand s) (sh_child s) (sh_awaitingTrust s) (sh_clock s) (sh_looks s) v (sh_trace s).
Definition log e s := MkShell (sh_current s) (sh_running s) (sh_finished s) (sh_confirmed s) (sh_inFlightCommand s) (sh_child s) (sh_awaitingTrust s) (sh_clock s) (sh_looks s) (sh_pending s) (e :: sh_trace s).
Definition Sh (A : Type) : Type := M shell A.

(** ** [main.ts]: reading what the child prints *)

Definition string_member (members : list (jstr * json)) (name : jstr) : option jstr :=
  match obj_get name members with Some (JStr s) => Some s | _ => None end.
Definition line_identifiers (line : jstr) : option TrustIdentifiers :=
  let trimmed := trim line in
  if starts_with (js "{") trimmed then
    match parse trimmed with
    | Some (JObj record) =>
        match obj_get (js "identity_id") record with
        | Some (JStr identity_id) =>
            Some (MkIdentifiers (Some identity_id) (string_member record (js "device_id"))
                    (string_member record (js "device_pubkey")) (string_member record (js "signal_identity_key")))
        | _ => None
        end
    | _ => None
    end
  else None.
Fixpoint first_identifiers (lines : list jstr) : option TrustIdentifiers :=
  match lines with
  | [] => None
  | line :: lines => match line_identifiers line with Some i => Some i | None => first_identifiers lines end
  end.
Definition readIdentifiers (text : jstr) : option TrustIdentifiers := first_identifiers (split_on 10 text).

(** ** The shell *)

Definition ALTERNATE_SCREEN_ON : jstr := ESC ++ js "[?1049h" ++ ESC ++ js "[?25l".
Definition ALTERNATE_SCREEN_OFF : jstr := ESC ++ js "[?25h" ++ ESC ++ js "[?1049l".
Definition HOME : jstr := ESC ++ js "[H" ++ ESC ++ js "[2J".
Definition frame_text (frame : list jstr) : jstr := HOME ++ join [13; 10] (styleFrame frame).
(** [list.slice(-n)] *)
Definition keep_last {A} (n : nat) (l : list A) : list A := drop (length l - n) l.
Definition is_import (r : CliRequest) : bool := match req_command r with CmdContactImport => true | _ => false end.
Definition stamp_modal (t : Z) (m : TrustModal) : TrustModal :=
  MkModal (tm_cardPath m) (tm_profileLabel m) (tm_identifiers m) (Some t).
Definition stamp_input (t : Z) (i : InputState) : InputState :=
  MkInput (in_field i) (in_buffer i) (Some t) (in_maxBytes i).
Definition confirms (effects : list Effect) : bool :=
  existsb (fun e => match e with AnswerTrustPrompt answer => answer | _ => false end) effects.

Section shell.
(** The clock's n-th reading; the terminal's columns and rows at the n-th look, if it reports
    any; the profiles the console was started with. *)
Context (now : nat -> Z) (size : nat -> option Z * option Z) (launched : list ProfileView).

Definition read_clock : Sh Z := n <- gets sh_clock; modify tick_clock;; ret (now n).
Definition viewport : Sh Viewport :=
  n <- gets sh_looks; modify tick_looks;;
  ret (MkViewport (Z.max 1 (default_to (cols MIN_VIEWPORT) (size n).1)) (Z.max 1 (default_to (screenRows MIN_VIEWPORT) (size n).2))).
Definition write (text : jstr) : Sh unit := modify (log (Wrote text)).
Definition get_state : Sh OperatorState := gets sh_current.
Definition put_state (s : OperatorState) : Sh unit := modify (on_current (fun _ => s)).

Definition paint : Sh unit :=
  painted <- viewport;
  state <- get_state;
  frame <- lift (renderFrame state painted);
  write (frame_text frame);;
  (match os_modal state with
   | Some modal =>
       if is_some (tm_renderedAt modal) || isBelowMinViewport painted then ret tt
       else t <- read_clock; modify (on_current (with_modal (Some (stamp_modal t modal))))
   | None => ret tt
   end);;
  match os_input state with
  | Some input =>
      if is_some (in_renderedAt input) || isBelowMinViewport painted then ret tt
      else t <- read_clock; modify (on_current (with_input (Some (stamp_input t input))))
  | None => ret tt
  end.
Definition note (text : jstr) : Sh unit :=
  at_ <- read_clock;
  modify (on_current (fun s => with_activity (keep_last 64 (os_activity s ++ [MkActivity at_ (paintable text)])) s)).
Definition observeContact (modal : TrustModal) (s : OperatorState) : OperatorState :=
  let i := tm_identifiers modal in
  match ti_identity_id i, ti_device_id i, ti_device_pubkey i, ti_signal_identity_key i with
  | Some identityId, Some deviceId, Some devicePubkey, Some signalIdentityKey =>
      if existsb (fun c => eqb (cv_identityId c) identityId) (os_contacts s) then s
      else with_contacts (os_contacts s ++ [MkContact identityId deviceId devicePubkey signalIdentityKey]) s
  | _, _, _, _ => s
  end.
Definition finish : Sh unit :=
  finished <- gets sh_finished;
  if finished then ret tt
  else
    modify (set_finished true);;
    modify (log (SetRawMode false));; modify (log Paused);;
    write ALTERNATE_SCREEN_OFF;;
    command <- gets sh_inFlightCommand;
    (match command with
     | Some command => v <- viewport; write (clipLine (command_text command ++ js " is still running") (cols v))
     | None => ret tt
     end);;
    modify (log (Finished 0)).
(** What a key's chain does after its effects; the startup chain only paints. *)
Definition tail_of (startup : bool) : Sh unit :=
  running <- gets sh_running;
  if running then paint else if startup then ret tt else finish.

(** [runCli]: the child is spawned and its input is closed, unless it is to be answered. *)
Definition runCli (startup : bool) (request : CliRequest) : Sh unit :=
  modify (log (Spawned request (buildArgv request)));;
  modify (set_child (Some (MkChild request [] [] false startup)));;
  match request with
  | ReqSend _ _ text _ => modify (log (StdinEnd text))
  | _ => if is_import request then ret tt else modify (log (StdinEnd []))
  end.
Definition answerTrustPrompt (answer : bool) : Sh unit :=
  awaiting <- gets sh_awaitingTrust;
  when awaiting (modify (log (StdinWrite (if answer then js "y" ++ [10] else js "n" ++ [10])))).
(** The effects of a step, of which there is at most one: a child's continuation runs when
    the child ends, any other one when the callback has returned. *)
Definition chain (startup : bool) (effects : list Effect) : Sh unit :=
  match effects with
  | [] => tail_of startup
  | RunCli request :: _ => modify (set_inFlight (Some (req_command request)));; runCli startup request
  | AnswerTrustPrompt answer :: _ =>
      answerTrustPrompt answer;;
      note (if answer then js "contact import → confirmed by operator" else js "contact import → declined by operator");;
      n <- gets sh_pending; modify (set_pending (S n))
  | EffectQuit :: _ => modify (set_running false);; n <- gets sh_pending; modify (set_pending (S n))
  end.
(** The rest of [apply] for a command, once its outcome is there. *)
Definition settled (c : child) (outcome : CliOutcome) : Sh unit :=
  let request := ch_request c in
  modify (set_inFlight None);;
  note (outcomeLine (req_command request) outcome);;
  state <- get_state;
  applied_at <- read_clock;
  observed_at <- read_clock;
  put_state (with_observed (Some observed_at) (with_busy false (applyOutcome state request outcome applied_at)));;
  (if is_import request then
     confirmed <- gets sh_confirmed;
     (match confirmed with
      | Some modal => when (co_ok outcome) (modify (on_current (observeContact modal)))
      | None => ret tt
      end);;
     modify (set_confirmed None)
   else ret tt);;
  tail_of (ch_startup c).
Definition handleKey (sequence : jstr) : Sh unit :=
  state <- get_state;
  match mapKey (decodeKey sequence) state with
  | None => ret tt
  | Some intent =>
      '(next, effects) <- lift (reduce state intent);
      (match os_modal state with
       | Some open => when (confirms effects) (modify (set_confirmed (Some open)))
       | None => ret tt
       end);;
      put_state next;;
      paint;;
      chain false effects
  end.
(** The keys of a chunk, while the console runs. *)
Fixpoint handleKeys (keys : list jstr) : Sh unit :=
  match keys with
  | [] => ret tt
  | key :: keys => running <- gets sh_running; if running then handleKey key;; handleKeys keys else ret tt
  end.
(** The continuations that waited. *)
Fixpoint drain (n : nat) : Sh unit := match n with O => ret tt | S n => tail_of false;; drain n end.
Definition settle_pending : Sh unit := n <- gets sh_pending; modify (set_pending 0);; drain n.

(** *** The callbacks *)

Definition on_data (chunk : bytes) : Sh unit :=
  running <- gets sh_running;
  if running then
    let text := utf8_to_string chunk in
    state <- get_state;
    handleKeys (match os_input state with None => splitKeystrokes text | Some _ => [text] end);;
    settle_pending
  else ret tt.
(** The trust listener. *)
Definition hear (cardPath profileLabel : jstr) (identifiers : TrustIdentifiers) : Sh unit :=
  modify (log (Heard identifiers));;
  modify (on_current (with_modal (Some (MkModal cardPath profileLabel (paintableIdentifiers identifiers) None))));;
  paint.
Definition on_stdout (chunk : bytes) : Sh unit :=
  c <- gets sh_child;
  match c with
  | Some c => modify (set_child (Some (MkChild (ch_request c) (ch_stdout c ++ utf8_to_string chunk) (ch_stderr c) (ch_announced c) (ch_startup c))))
  | None => ret tt
  end.
Definition label_of (profileDir : jstr) : jstr :=
  match List.find (fun p => eqb (pv_profileDir p) profileDir) launched with Some p => pv_label p | None => profileDir end.
Definition on_stderr (chunk : bytes) : Sh unit :=
  c <- gets sh_child;
  match c with
  | Some c =>
      let stderr := ch_stderr c ++ utf8_to_string chunk in
      modify (set_child (Some (MkChild (ch_request c) (ch_stdout c) stderr (ch_announced c) (ch_startup c))));;
      match ch_announced c, ch_request c with
      | false, ReqContactImport profileDir from =>
          match readIdentifiers stderr with
          | Some identifiers =>
              modify (set_child (Some (MkChild (ch_request c) (ch_stdout c) stderr true (ch_startup c))));;
              modify (set_awaiting true);;
              hear from (label_of profileDir) identifiers
          | None => ret tt
          end
      | _, _ => ret tt
      end
  | None => ret tt
  end.
(** The child's end: its exit code, 1 when a signal ended it, 5 when it could not be started. *)
Definition on_close (exitCode : Z) : Sh unit :=
  c <- gets sh_child;
  match c with
  | Some c =>
      modify (set_awaiting false);; modify (set_child None);; modify (log (Ended exitCode));;
      settled c (parseCliOutcome (ch_stdout c) exitCode)
  | None => ret tt
  end.

(** *** The start *)

Definition is_unknown (s : option ProfileState) : bool := match s with Some StateUnknown => true | _ => false end.
Definition askWhatIsThere : Sh unit :=
  state <- get_state;
  match activeProfile state with
  | Some profile =>
      if is_unknown (pv_state profile) then
        '(next, effects) <- lift (reduce state (Run (ReqDoctor (pv_profileDir profile))));
        put_state next;; paint;; chain true effects
      else ret tt
  | None => ret tt
  end.
Definition start : Sh unit :=
  state <- get_state;
  (match os_observedAtMs state with
   | Some _ => ret tt
   | None => t <- read_clock; put_state (with_observed (Some t) state)
   end);;
  modify (log (SetRawMode true));; modify (log Resumed);; write ALTERNATE_SCREEN_ON;;
  paint;; askWhatIsThere.
Definition shell_of (state : OperatorState) : shell := MkShell state true false None None None false 0 0 0 [].

(** *** Runs *)

Inductive event := Data (chunk : bytes) | ChildStdout (chunk : bytes) | ChildStderr (chunk : bytes) | ChildEnds (exitCode : Z).
Definition handle (e : event) : Sh unit :=
  match e with
  | Data chunk => on_data chunk
  | ChildStdout chunk => on_stdout chunk
  | ChildStderr chunk => on_stderr chunk
  | ChildEnds exitCode => on_close exitCode
  end.
(** What arrives is bytes. *)
Definition event_ok (e : event) : Prop :=
  match e with Data chunk | ChildStdout chunk | ChildStderr chunk => forallb byte_ok chunk = true | ChildEnds _ => True end.
(** The states between callbacks. *)
Inductive reachable (state : OperatorState) : shell -> Prop :=
  | reach_start s : start (shell_of state) = (Ok tt, s) -> reachable state s
  | reach_event e s s' : reachable state s -> event_ok e -> handle e s = (Ok tt, s') -> reachable state s'.
End shell.

(** ** What holds of a trace *)

Definition YES : jstr := js "y" ++ [10].
(** One child at a time: whether a child lives after a trace, if no two ever did. *)
Fixpoint serial (trace : list entry) : option bool :=
  match trace with
  | [] => Some false
  | Spawned _ _ :: older => match serial older with Some false => Some true | _ => None end
  | Ended _ :: older => match serial older with Some true => Some false | _ => None end
  | _ :: older => serial older
  end.
Definition quiet (e : entry) : bool :=
  match e with Heard _ | Spawned _ _ | Ended _ | StdinWrite _ => false | _ => true end.
(** The identifiers a frame shows, each under its name; 62 columns is what the panel has for a
    value in the smallest terminal that shows one. *)
Definition shows_all (frame : list jstr) (i : TrustIdentifiers) : Prop :=
  forall name get_ v, In (name, get_) TRUST_IDENTIFIER_FIELDS -> get_ i = Some v -> v <> [] -> columns v <= 62 ->
  shows_field frame name v.
Definition complete (i : TrustIdentifiers) : Prop :=
  forall name get_, In (name, get_) TRUST_IDENTIFIER_FIELDS -> exists v, get_ i = Some v /\ v <> [].
(** The last thing the child said was four identifiers, and since then a frame was written
    that shows them. *)
Definition shown (trace : list entry) : Prop :=
  exists newer heard older frame,
    trace = newer ++ Heard heard :: older /\ forallb quiet newer = true /\ In (Wrote (frame_text frame)) newer /\
    complete (paintableIdentifiers heard) /\ shows_all frame (paintableIdentifiers heard).
Definition body_of (r : CliRequest) : jstr := match r with ReqSend _ _ text _ => text | _ => [] end.
Definition entry_ok (e : entry) (older : list entry) : Prop :=
  match e with
  | Wrote text => (exists frame, text = frame_text frame /\ forallb clean frame = true)
                  \/ text = ALTERNATE_SCREEN_ON \/ text = ALTERNATE_SCREEN_OFF \/ clean text = true
  | Spawned r argv => argv = buildArgv r /\ request_good r /\ serial older = Some false
  | Ended _ => serial older = Some true
  | StdinEnd text => exists r older', older = Spawned r (buildArgv r) :: older' /\ text = body_of r /\ request_good r
  | StdinWrite text => text = YES -> shown older
  | _ => True
  end.
Fixpoint trace_ok (trace : list entry) : Prop :=
  match trace with [] => True | e :: older => entry_ok e older /\ trace_ok older end.
Lemma trace_ok_at newer e older : trace_ok (newer ++ e :: older) -> entry_ok e older.
Proof. induction newer as [|x newer IH]; cbn [app trace_ok]; [by intros [? _]|by intros [_ ?%IH]]. Qed.

(** ** The invariant *)

(** What the open panel is: the identifiers the waiting child said, painted if it is stamped. *)
Definition panel (trace : list entry) (m : TrustModal) : Prop :=
  exists newer heard older, trace = newer ++ Heard heard :: older /\ forallb quiet newer = true /\
    tm_identifiers m = paintableIdentifiers heard /\
    (tm_renderedAt m <> None -> exists frame, In (Wrote (frame_text frame)) newer /\ shows_all frame (tm_identifiers m)).
Record base (s : shell) : Prop := {
  b_state : state_ok (sh_current s);
  b_trace : trace_ok (sh_trace s);
  b_serial : serial (sh_trace s) = Some (is_some (sh_child s));
  b_confirmed : forall_opt modal_clean (sh_confirmed s) = true;
  b_child : forall c, sh_child s = Some c -> request_clean (ch_request c) = true;
  b_await : sh_awaitingTrust s = true -> is_some (sh_child s) = true;
  b_panel : sh_awaitingTrust s = true -> forall m, os_modal (sh_current s) = Some m -> panel (sh_trace s) m }.
(** Between callbacks: busy exactly while a child lives, and no continuation waits. *)
Record inv (s : shell) : Prop := {
  i_base : base s;
  i_busy : os_busy (sh_current s) = is_some (sh_child s);
  i_pending : sh_pending s = 0%nat }.

(** A program that ends without an exception, in a state where [Q] holds. *)
Definition runs {A} (m : Sh A) (s : shell) (Q : A -> shell -> Prop) : Prop :=
  match m s with (Ok a, s') => Q a s' | (Err _, _) => False end.
Lemma runs_bind {A B} (m : Sh A) (f : A -> Sh B) s Q : runs m s (fun a s' => runs (f a) s' Q) -> runs (bind m f) s Q.
Proof. unfold runs, bind. by destruct (m s) as [[a|e] s']. Qed.
Lemma runs_mono {A} (m : Sh A) s (Q Q' : A -> shell -> Prop) : runs m s Q -> (forall a s', Q a s' -> Q' a s') -> runs m s Q'.
Proof. unfold runs. destruct (m s) as [[a|e] s']; [auto|done]. Qed.
Lemma runs_ret {A} (a : A) s (Q : A -> shell -> Prop) : Q a s -> runs (ret a) s Q.
Proof. done. Qed.
Lemma runs_modify f s (Q : unit -> shell -> Prop) : Q tt (f s) -> runs (modify f) s Q.
Proof. done. Qed.
Lemma runs_gets {A} (f : shell -> A) s (Q : A -> shell -> Prop) : Q (f s) s -> runs (gets f) s Q.
Proof. done. Qed.
Lemma runs_lift {A} (a : A) s (Q : A -> shell -> Prop) : Q a s -> runs (lift (Ok a)) s Q.
Proof. done. Qed.

(** What painting and noting leave alone. *)
Record kept (s s' : shell) : Prop := {
  k_busy : os_busy (sh_current s') = os_busy (sh_current s);
  k_running : sh_running s' = sh_running s;
  k_confirmed : sh_confirmed s' = sh_confirmed s;
  k_child : sh_child s' = sh_child s;
  k_awaiting : sh_awaitingTrust s' = sh_awaitingTrust s;
  k_pending : sh_pending s' = sh_pending s;
  k_modal : os_modal (sh_current s) = None -> os_modal (sh_current s') = None;
  k_input : os_input (sh_current s) = None -> os_input (sh_current s') = None;
  k_trace : exists newer, sh_trace s' = newer ++ sh_trace s /\ forallb quiet newer = true }.
#[export] Instance kept_preorder : PreOrder kept.
Proof.
  split; [intros s; constructor; try done; by exists []|].
  intros s1 s2 s3 [? ? ? ? ? ? ? ? (n1 & E1 & Q1)] [? ? ? ? ? ? ? ? (n2 & E2 & Q2)].
  constructor; try (etrans; eassumption); [auto|auto|]. exists (n2 ++ n1). by rewrite E2, E1, app_assoc, forallb_app, Q1, Q2.
Qed.
(** A change [kept] allows by computation. *)
Ltac by_kept := constructor; [reflexivity..|done|done|by eexists []].
Lemma kept_log e s : quiet e = true -> kept s (log e s).
Proof. intros H. constructor; try done. exists [e]. split; [done|]. cbn [forallb]. by rewrite H. Qed.

Lemma serial_quiet e t : quiet e = true -> serial (e :: t) = serial t.
Proof. by destruct e. Qed.
Lemma panel_quiet e t m : quiet e = true -> panel t m -> panel (e :: t) m.
Proof.
  intros Hq (newer & heard & older & -> & Hn & Hi & Hp). exists (e :: newer), heard, older. split; [done|].
  split; [cbn [forallb]; by rewrite Hq|]. split; [done|]. intros H. destruct (Hp H) as (frame & Hin & Hs).
  exists frame. split; [by right|done].
Qed.
(** An entry that is neither the child's nor an answer. *)
Lemma base_log e s : base s -> quiet e = true -> entry_ok e (sh_trace s) -> base (log e s).
Proof.
  intros [] Hq He. constructor; cbn [log sh_current sh_trace sh_child sh_confirmed sh_awaitingTrust]; try assumption.
  - by split.
  - by rewrite serial_quiet.
  - intros Ha m Hm. apply panel_quiet; auto.
Qed.
(** A change of the state that leaves the panel alone. *)
Lemma base_current f s :
  base s -> state_ok (f (sh_current s)) -> os_modal (f (sh_current s)) = os_modal (sh_current s) -> base (on_current f s).
Proof.
  intros [] Hs Hm. constructor; cbn [on_current sh_current sh_trace sh_child sh_confirmed sh_awaitingTrust]; try assumption.
  intros Ha m Hm'. apply b_panel0; [done|]. by rewrite <- Hm.
Qed.
Lemma base_ext s s' :
  base s -> sh_current s' = sh_current s -> sh_trace s' = sh_trace s -> sh_child s' = sh_child s ->
  sh_confirmed s' = sh_confirmed s -> sh_awaitingTrust s' = sh_awaitingTrust s -> base s'.
Proof. intros [] H1 H2 H3 H4 H5. constructor; rewrite ?H1, ?H2, ?H3, ?H4, ?H5; assumption. Qed.
Lemma state_ok_modal m s :
  state_ok s -> modal_clean m = true -> os_modal s <> None \/ (os_busy s = true) -> state_ok (with_modal (Some m) s).
Proof.
  intros [[] [] Hex Hdr] Hm Hb. constructor; [constructor; assumption|constructor; assumption| |assumption].
  intros Hi. destruct (Hex Hi) as [? ?]. destruct Hb as [Hb|Hb]; congruence.
Qed.
Lemma state_ok_input i s : state_ok s -> os_input s = Some i -> forall t, state_ok (with_input (Some (stamp_input t i)) s).
Proof.
  intros [[] [] Hex Hdr] Hi t. rewrite Hi in *. constructor; [constructor; assumption|constructor; assumption| |].
  - intros _. cbn. apply Hex. congruence.
  - intros j [= <-]. exact (Hdr i eq_refl).
Qed.

Section painting.
Context (now : nat -> Z) (size : nat -> option Z * option Z).
Context (Hclock : forall n, valid_time (now n) = true).

Lemma runs_clock s (Q : Z -> shell -> Prop) :
  base s -> (forall t s', valid_time t = true -> base s' -> kept s s' -> sh_current s' = sh_current s -> sh_trace s' = sh_trace s -> Q t s') ->
  runs (read_clock now) s Q.
Proof. intros Hs HQ. apply HQ; [apply Hclock|by apply (base_ext s)|by_kept|done|done]. Qed.

Lemma runs_viewport s (Q : Viewport -> shell -> Prop) : (forall v, Q v (tick_looks s)) -> runs (viewport size) s Q.
Proof. intros H. apply H. Qed.
Lemma base_painted s painted frame :
  base s -> renderFrame (sh_current s) painted = Ok frame -> base (log (Wrote (frame_text frame)) s).
Proof.
  intros Hs Hf. apply base_log; [done|done|]. left. exists frame. split; [done|].
  by apply (renderFrame_clean (sh_current s) (so_clean _ (b_state _ Hs)) painted).
Qed.
(** The stamp says that the frame on top of the trace shows the panel. *)
Lemma base_stamp_modal s painted frame m t rest :
  base s -> renderFrame (sh_current s) painted = Ok frame -> isBelowMinViewport painted = false ->
  os_modal (sh_current s) = Some m -> sh_trace s = Wrote (frame_text frame) :: rest ->
  base (on_current (with_modal (Some (stamp_modal t m))) s).
Proof.
  intros Hs Hf Hb Hm Ht. pose proof Hs as Hbase. destruct Hs.
  assert (modal_clean m = true) as Hmc.
  { pose proof (sc_modal _ (so_clean _ b_state0)) as H. by rewrite Hm in H. }
  constructor; cbn [on_current sh_current sh_trace sh_child sh_confirmed sh_awaitingTrust]; try assumption.
  - apply state_ok_modal; [done|done|]. left. congruence.
  - intros Ha m' [= <-]. destruct (b_panel0 Ha m Hm) as (newer & heard & older & E & Hq & Hi & _).
    exists newer, heard, older. split_and!; [done|done|done|]. intros _. exists frame. split.
    + destruct newer as [|e newer]; [cbn in E; congruence|]. left. cbn in E. congruence.
    + intros name get_ v Hin Hv Hne Hc. by eapply renderFrame_shows.
Qed.
Lemma runs_paint s (Q : unit -> shell -> Prop) :
  base s -> (forall s', base s' -> kept s s' -> Q tt s') -> runs (paint now size) s Q.
Proof.
  intros Hs HQ. unfold paint. apply runs_bind, runs_viewport. intros painted. assert (base (tick_looks s)) as H1 by (by apply (base_ext s)).
  assert (kept s (tick_looks s)) as K1 by by_kept. revert H1 K1. generalize (tick_looks s) as s1. intros s1 H1 K1.
  apply runs_bind, runs_gets, runs_bind.
  destruct (renderFrame_exact (sh_current s1) painted (so_instants _ (b_state _ H1))) as (frame & Hf & _). rewrite Hf.
  apply runs_lift, runs_bind, runs_modify. set (s2 := log _ s1).
  assert (base s2) as H2 by (by apply (base_painted s1 painted)). assert (kept s s2) as K2 by (etrans; [exact K1|by apply kept_log]).
  assert (sh_current s2 = sh_current s1) as E2 by done. assert (sh_trace s2 = Wrote (frame_text frame) :: sh_trace s1) as T2 by done.
  rewrite <- E2 in Hf. rewrite <- E2. clearbody s2. apply runs_bind.
  assert (forall s3, base s3 -> kept s s3 -> os_input (sh_current s3) = os_input (sh_current s2) ->
    runs match os_input (sh_current s2) with
         | Some input => if is_some (in_renderedAt input) || isBelowMinViewport painted then ret tt
                         else t <- read_clock now; modify (on_current (with_input (Some (stamp_input t input))))
         | None => ret tt end s3 Q) as Hinput.
  { intros s3 H3 K3 E3. destruct (os_input (sh_current s2)) as [input|]; [|by apply HQ].
    destruct (_ || _); [by apply HQ|]. apply runs_bind, runs_clock; [done|]. intros t s4 _ H4 K4 E4 _. apply runs_modify, HQ.
    - apply base_current; [done| |done]. rewrite E4. apply state_ok_input; [apply H3|done].
    - etrans; [exact K3|]. etrans; [exact K4|]. constructor; [reflexivity..|done| |by eexists []]. by rewrite E4, E3. }
  destruct (os_modal (sh_current s2)) as [m|] eqn:Em; [|by apply Hinput].
  destruct (is_some (tm_renderedAt m)); [by apply Hinput|]. cbn [orb].
  destruct (isBelowMinViewport painted) eqn:Eb; [by apply Hinput|].
  apply runs_bind, runs_clock; [done|]. intros t s3 _ H3 K3 E3 T3. apply runs_modify, Hinput.
  - eapply base_stamp_modal; [done|rewrite E3; exact Hf|exact Eb|by rewrite E3|rewrite T3; exact T2].
  - etrans; [exact K2|]. etrans; [exact K3|]. constructor; [reflexivity..| | |by eexists []]; rewrite E3; cbn; congruence.
  - cbn. by rewrite E3.
Qed.
Lemma runs_note text s (Q : unit -> shell -> Prop) :
  base s -> (forall s', base s' -> kept s s' -> sh_trace s' = sh_trace s -> os_modal (sh_current s') = os_modal (sh_current s) -> Q tt s') ->
  runs (note now text) s Q.
Proof.
  intros Hs HQ. unfold note. apply runs_bind, runs_clock; [done|]. intros t s1 _ H1 K1 E1 T1. apply runs_modify, HQ.
  - apply base_current; [done| |done]. destruct (b_state _ H1) as [[] [] Hex Hdr].
    constructor; [constructor; try assumption|constructor; assumption|assumption|assumption].
    unfold keep_last. apply forallb_drop. rewrite forallb_app, sc_activity. cbn [forallb al_text]. by rewrite paintable_clean.
  - etrans; [exact K1|]. by_kept.
  - done.
  - cbn. by rewrite E1.
Qed.
End painting.

(** ** The callbacks keep the invariant *)

Definition linked (s : shell) : Prop := os_busy (sh_current s) = is_some (sh_child s).
Lemma kept_linked s s' : kept s s' -> linked s -> linked s'.
Proof. intros []. unfold linked. congruence. Qed.
Lemma shown_quiet newer t : forallb quiet newer = true -> shown t -> shown (newer ++ t).
Proof.
  intros Hq (n & heard & older & frame & -> & Hn & Hin & Hc & Hs). exists (newer ++ n), heard, older, frame.
  rewrite app_assoc, forallb_app, Hq, Hn. split_and!; try done. apply in_app_iff. by right.
Qed.
(** A complete panel that was painted was shown. *)
Lemma panel_shown t m :
  panel t m -> tm_renderedAt m <> None -> trustModalIsComplete m = true -> shown t.
Proof.
  intros (newer & heard & older & -> & Hn & Hi & Hp) Hr Hc. destruct (Hp Hr) as (frame & Hin & Hs). rewrite Hi in Hs.
  exists newer, heard, older, frame. split_and!; try done. rewrite <- Hi.
  unfold trustModalIsComplete in Hc. rewrite forallb_forall in Hc. intros name get_ Hf. specialize (Hc _ Hf). cbn [snd] in Hc.
  destruct (get_ (tm_identifiers m)) as [[|u v]|]; try done. by exists (u :: v).
Qed.
Lemma no_is_not_yes : js "n" ++ [10] <> YES.
Proof. vm_compute. congruence. Qed.
Lemma command_clean c : clean (command_text c) = true.
Proof. destruct c; vm_compute; reflexivity. Qed.

Section callbacks.
Context (now : nat -> Z) (size : nat -> option Z * option Z) (launched : list ProfileView).
Context (Hclock : forall n, valid_time (now n) = true) (Hlaunched : forallb profile_clean launched = true).

Lemma runs_log e s (Q : unit -> shell -> Prop) :
  base s -> quiet e = true -> entry_ok e (sh_trace s) -> (base (log e s) -> kept s (log e s) -> Q tt (log e s)) ->
  runs (modify (log e)) s Q.
Proof. intros Hs Hq He HQ. apply runs_modify, HQ; [by apply base_log|by apply kept_log]. Qed.
Lemma runs_finish s (Q : unit -> shell -> Prop) :
  base s -> (forall s', base s' -> kept s s' -> Q tt s') -> runs (finish size) s Q.
Proof.
  intros Hs HQ. unfold finish. apply runs_bind, runs_gets. destruct (sh_finished s); [by apply HQ|].
  apply runs_bind, runs_modify. assert (base (set_finished true s)) as H0 by by apply (base_ext s).
  assert (kept s (set_finished true s)) as K0 by by_kept. revert H0 K0. generalize (set_finished true s) as s0. intros s0 H0 K0.
  apply runs_bind, runs_log; [done|done|done|]. intros H1 K1. apply runs_bind, runs_log; [done|done|done|]. intros H2 K2.
  apply runs_bind. unfold write. apply runs_log; [done|done|by right; right; left|]. intros H3 K3.
  apply runs_bind, runs_gets. pose proof (transitivity K0 (transitivity K1 (transitivity K2 K3))) as K. clear K0 K1 K2 K3.
  revert H3 K. generalize (log (Wrote ALTERNATE_SCREEN_OFF) (log Paused (log (SetRawMode false) s0))) as s3. intros s3 H3 K. clear H0 H1 H2 s0.
  assert (forall s4, base s4 -> kept s s4 -> runs (modify (log (Finished 0))) s4 Q) as Hend.
  { intros s4 H4 K4. apply runs_log; [done|done|done|]. intros H5 K5. apply HQ; [done|]. by etrans. }
  apply runs_bind. destruct (sh_inFlightCommand s3) as [c|]; [|by apply Hend].
  apply runs_bind, runs_viewport. intros v. assert (base (tick_looks s3)) as H4 by by apply (base_ext s3).
  assert (kept s (tick_looks s3)) as K4 by (etrans; [exact K|by_kept]).
  apply runs_log; [done|done| |].
  - right; right; right. apply clipLine_clean. rewrite clean_app, command_clean. vm_compute. reflexivity.
  - intros H5 K5. apply Hend; [done|]. by etrans.
Qed.
Lemma runs_tail startup s (Q : unit -> shell -> Prop) :
  base s -> (forall s', base s' -> kept s s' -> Q tt s') -> runs (tail_of now size startup) s Q.
Proof.
  intros Hs HQ. unfold tail_of. apply runs_bind, runs_gets. destruct (sh_running s); [by apply runs_paint|].
  destruct startup; [by apply HQ|]. by apply runs_finish.
Qed.
Lemma runs_drain n s (Q : unit -> shell -> Prop) :
  base s -> (forall s', base s' -> kept s s' -> Q tt s') -> runs (drain now size n) s Q.
Proof.
  revert s. induction n as [|n IH]; intros s Hs HQ; [by apply HQ|]. cbn [drain]. apply runs_bind, runs_tail; [done|].
  intros s1 H1 K1. apply IH; [done|]. intros s2 H2 K2. apply HQ; [done|]. by etrans.
Qed.
Lemma base_spawn startup r s :
  base s -> sh_child s = None -> request_good r ->
  base (set_child (Some (MkChild r [] [] false startup)) (log (Spawned r (buildArgv r)) s)).
Proof.
  intros [] Hc Hr. rewrite Hc in *.
  constructor; cbn [set_child log sh_current sh_trace sh_child sh_confirmed sh_awaitingTrust serial is_some]; try assumption.
  - by split.
  - by rewrite b_serial0.
  - intros c [= <-]. apply Hr.
  - done.
  - intros Ha. by specialize (b_await0 Ha).
Qed.
Lemma runs_runCli startup r s (Q : unit -> shell -> Prop) :
  base s -> sh_child s = None -> os_busy (sh_current s) = true -> request_good r ->
  (forall s', base s' -> linked s' -> sh_pending s' = sh_pending s -> Q tt s') -> runs (runCli startup r) s Q.
Proof.
  intros Hs Hc Hb Hr HQ. unfold runCli. apply runs_bind, runs_modify, runs_bind, runs_modify.
  pose proof (base_spawn startup r s Hs Hc Hr) as H1. set (s1 := set_child _ _) in *. assert (linked s1) as L1 by done.
  assert (forall text, text = body_of r -> runs (modify (log (StdinEnd text))) s1 Q) as Hend.
  { intros text Ht. apply runs_log; [done|done| |].
    - exists r, (sh_trace s). by split.
    - intros H2 K2. apply HQ; [done|by eapply kept_linked|]. exact (k_pending _ _ K2). }
  destruct r; try (by apply Hend). by apply HQ.
Qed.
(** What the effects of a step need. *)
Definition chain_ready (effects : list Effect) (s : shell) : Prop :=
  match effects with
  | [] | [EffectQuit] => linked s
  | [RunCli r] => sh_child s = None /\ os_busy (sh_current s) = true /\ request_good r
  | [AnswerTrustPrompt b] =>
      linked s /\ os_modal (sh_current s) = None /\ (b = true -> sh_awaitingTrust s = true -> shown (sh_trace s))
  | _ => False
  end.
Lemma runs_chain startup effects s (Q : unit -> shell -> Prop) :
  base s -> chain_ready effects s -> (forall s', base s' -> linked s' -> Q tt s') -> runs (chain now size startup effects) s Q.
Proof.
  intros Hs Hr HQ. destruct effects as [|e [|e' effects]]; [|destruct e as [r|b|]|by destruct e]; cbn [chain chain_ready] in *.
  - apply runs_tail; [done|]. intros s1 H1 K1. apply HQ; [done|]. by eapply kept_linked.
  - destruct Hr as (Hc & Hb & Hr). apply runs_bind, runs_modify. apply runs_runCli; [by apply (base_ext s)|done|done|done|]. auto.
  - destruct Hr as (Hl & Hm & Hsh). apply runs_bind. unfold answerTrustPrompt. apply runs_bind, runs_gets.
    assert (forall s1, base s1 -> linked s1 -> runs (note now (if b then js "contact import → confirmed by operator" else js "contact import → declined by operator");;
      n <- gets sh_pending; modify (set_pending (S n))) s1 Q) as Hrest.
    { intros s1 H1 L1. apply runs_bind, runs_note; [done|done|]. intros s2 H2 K2 _ _. apply runs_bind, runs_gets, runs_modify, HQ.
      - by apply (base_ext s2).
      - exact (kept_linked s1 s2 K2 L1). }
    destruct (sh_awaitingTrust s) eqn:Ea; cbn [when]; [|by apply Hrest]. apply runs_modify, Hrest; [|exact Hl].
    destruct Hs. constructor; cbn [log sh_current sh_trace sh_child sh_confirmed sh_awaitingTrust]; try assumption.
    + split; [|done]. cbn [entry_ok]. destruct b; intros E; [by apply Hsh|by destruct no_is_not_yes].
    + intros _ m Hm'. congruence.
  - apply runs_bind, runs_modify, runs_bind, runs_gets, runs_modify, HQ; [by apply (base_ext s)|exact Hr].
Qed.

(** *** A command's end *)
Lemma observeContact_ok m st :
  state_ok st -> modal_clean m = true -> state_ok (observeContact m st) /\ os_modal (observeContact m st) = os_modal st
    /\ os_busy (observeContact m st) = os_busy st.
Proof.
  intros Hst Hm. unfold modal_clean, identifiers_clean in Hm. rewrite !andb_true_iff in Hm. destruct Hm as [_ [[[H1 H2] H3] H4]].
  unfold observeContact. destruct (ti_identity_id _), (ti_device_id _), (ti_device_pubkey _), (ti_signal_identity_key _); try done.
  destruct (existsb _ _); [done|]. split; [|done]. destruct Hst as [[] [] Hex Hdr].
  constructor; [constructor; try assumption|constructor; assumption|assumption|assumption].
  cbn [with_contacts os_contacts]. rewrite forallb_app, sc_contacts. unfold contact_clean.
  cbn [forallb clean_opt cv_identityId cv_deviceId cv_devicePubkey cv_signalIdentityKey andb] in *. by rewrite H1, H2, H3, H4.
Qed.
Lemma settled_state_ok st t : state_ok st -> valid_time t = true -> state_ok (with_observed (Some t) (with_busy false st)).
Proof.
  intros [[] [] Hex Hdr] Ht. constructor; [constructor; assumption|constructor; assumption| |assumption].
  intros Hi. by destruct (Hex Hi).
Qed.
Lemma runs_settled c outcome s (Q : unit -> shell -> Prop) :
  base s -> sh_child s = None -> (forall s', base s' -> linked s' -> sh_pending s' = sh_pending s -> Q tt s') ->
  runs (settled now size c outcome) s Q.
Proof.
  intros Hs Hc HQ. unfold settled. cbv zeta. apply runs_bind, runs_modify, runs_bind, runs_note; [done|by apply (base_ext s)|].
  intros s1 H1 K1 _ _. apply runs_bind, runs_gets, runs_bind, runs_clock; [done|done|]. intros t1 s2 V1 H2 K2 E2 _.
  apply runs_bind, runs_clock; [done|done|]. intros t2 s3 V2 H3 K3 E3 _. apply runs_bind, runs_modify.
  destruct (applyOutcome_ok (sh_current s1) (ch_request c) outcome t1) as [Ho Hm]; [apply H1|done|].
  set (s4 := on_current _ s3). assert (base s4) as H4.
  { apply (base_current (fun _ => _)); [done| |cbn; rewrite Hm, E3, E2; done]. by apply settled_state_ok. }
  assert (linked s4) as L4.
  { assert (sh_child s3 = None) as C3 by (rewrite (k_child _ _ K3), (k_child _ _ K2), (k_child _ _ K1); exact Hc).
    unfold linked, s4. cbn. by rewrite C3. }
  assert (sh_pending s4 = sh_pending s) as P4 by exact (eq_trans (k_pending _ _ K3) (eq_trans (k_pending _ _ K2) (k_pending _ _ K1))).
  clearbody s4. apply runs_bind.
  assert (forall s5, base s5 -> linked s5 -> sh_pending s5 = sh_pending s -> runs (tail_of now size (ch_startup c)) s5 Q) as Htail.
  { intros s5 H5 L5 P5. apply runs_tail; [done|]. intros s6 H6 K6. apply HQ; [done|by eapply kept_linked|].
    by rewrite (k_pending _ _ K6). }
  destruct (is_import (ch_request c)); [|by apply Htail]. apply runs_bind, runs_gets, runs_bind.
  assert (forall s5, base s5 -> linked s5 -> sh_pending s5 = sh_pending s ->
    runs (modify (set_confirmed None)) s5 (fun _ s' => runs (tail_of now size (ch_startup c)) s' Q)) as Hclear.
  { intros s5 H5 L5 P5. apply runs_modify, Htail; [|exact L5|exact P5]. destruct H5. by constructor. }
  pose proof (b_confirmed _ H4) as Hcf. destruct (sh_confirmed s4) as [m|]; [|by apply Hclear].
  destruct (co_ok outcome); cbn [when]; [|by apply Hclear]. apply runs_modify.
  destruct (observeContact_ok m (sh_current s4) (b_state _ H4) Hcf) as (Ho4 & Hm4 & Hb4).
  apply Hclear; [by apply base_current| |exact P4]. unfold linked in *. cbn. by rewrite Hb4.
Qed.

(** *** Keys *)
Lemma base_step s st' effects :
  base s -> stepped (sh_current s) st' effects -> state_ok st' -> base (on_current (fun _ => st') s).
Proof.
  intros [] Hst Hok. constructor; cbn [on_current sh_current sh_trace sh_child sh_confirmed sh_awaitingTrust]; try assumption.
  intros Ha m Hm. apply b_panel0; [done|]. inversion Hst; congruence.
Qed.
Lemma ready_step s s' st' effects :
  base s -> linked s -> stepped (sh_current s) st' effects -> kept (on_current (fun _ => st') s) s' -> chain_ready effects s'.
Proof.
  intros Hs Hl Hst [Kb Kr Kcf Kc Ka Kp Km _ (newer & Kt & Kq)]. cbn in *. unfold linked in Hl.
  inversion Hst as [st1 Hb Hm|st1 r Hb Hb' Hm Hr|st1 m b Hm Hm' Hb Hy|]; subst; cbn [chain_ready].
  - unfold linked. congruence.
  - split_and!; [|congruence|done]. rewrite Kc. rewrite Hb in Hl. by destruct (sh_child s).
  - split_and!; [unfold linked; congruence|auto|]. intros Hyes Ha. rewrite Ka in Ha. destruct (Hy Hyes) as [Hr Hc].
    rewrite Kt. apply shown_quiet; [done|]. eapply panel_shown; [by apply (b_panel _ Hs Ha)|done|done].
  - unfold linked. congruence.
Qed.
Lemma decodeKey_sequence key : k_sequence (decodeKey key) = key.
Proof.
  unfold decodeKey. repeat (destruct (eqb key _); [done|]). destruct (_ || _); [done|].
  destruct (match code_points key with p :: _ => p | [] => [] end); [done|]. by destruct (_ && _).
Qed.
Lemma runs_handleKey key s (Q : unit -> shell -> Prop) :
  base s -> linked s -> well_formed key = true -> (forall s', base s' -> linked s' -> Q tt s') -> runs (handleKey now size key) s Q.
Proof.
  intros Hs Hl Hw HQ. unfold handleKey. apply runs_bind, runs_gets.
  destruct (mapKey (decodeKey key) (sh_current s)) as [i|] eqn:Ei; [|by apply HQ].
  pose proof (mapKey_ok (decodeKey key) (sh_current s) i (so_clean _ (b_state _ Hs))) as Hi. rewrite decodeKey_sequence in Hi.
  destruct (reduce_ok (sh_current s) i (b_state _ Hs)) as (st' & effects & Hr & Hst & Hok); [by apply Hi|].
  rewrite Hr. apply runs_bind, runs_lift, runs_bind.
  assert (forall s1, base s1 -> linked s1 -> sh_current s1 = sh_current s -> sh_child s1 = sh_child s ->
    runs (put_state st';; paint now size;; chain now size false effects) s1 Q) as Hrest.
  { intros s1 H1 L1 E1 C1. rewrite <- E1 in Hst. apply runs_bind, runs_modify, runs_bind, runs_paint; [done|by eapply base_step|].
    intros s2 H2 K2. apply runs_chain; [done| |done]. exact (ready_step s1 s2 st' effects H1 L1 Hst K2). }
  destruct (os_modal (sh_current s)) as [m|] eqn:Em; [|by apply Hrest].
  destruct (confirms effects); cbn [when]; [|by apply Hrest]. apply runs_modify, Hrest; [|exact Hl|done|done].
  pose proof (sc_modal _ (so_clean _ (b_state _ Hs))) as Hmc. rewrite Em in Hmc. destruct Hs. by constructor.
Qed.
Lemma runs_handleKeys keys s (Q : unit -> shell -> Prop) :
  base s -> linked s -> forallb well_formed keys = true -> (forall s', base s' -> linked s' -> Q tt s') ->
  runs (handleKeys now size keys) s Q.
Proof.
  revert s. induction keys as [|key keys IH]; intros s Hs Hl; [intros _ HQ; by apply HQ|]. cbn [forallb handleKeys].
  intros [Hk Hks]%andb_true_iff HQ. apply runs_bind, runs_gets. destruct (sh_running s); [|by apply HQ].
  apply runs_bind, runs_handleKey; [done..|]. intros s1 H1 L1. by apply IH.
Qed.
Lemma splitKeystrokes_well_formed s : well_formed s = true -> forallb well_formed (splitKeystrokes s) = true.
Proof.
  intros Hw%points_well_formed. unfold splitKeystrokes. induction (code_points s) as [|p points IH]; [done|]. cbn [split_points].
  destruct (eqb p ESC).
  - cbn [forallb]. rewrite andb_true_r. by apply well_formed_concat.
  - cbn [forallb] in *. apply andb_true_iff in Hw as [-> Hw]. by apply IH.
Qed.

(** *** The four callbacks and the start *)
Definition to_inv {A} (m : Sh A) (s : shell) : Prop := runs m s (fun _ s' => inv s').
Lemma kept_inv s s' : inv s -> base s' -> kept s s' -> inv s'.
Proof. intros [Hb Hl Hp] Hs' K. constructor; [done|exact (kept_linked s s' K Hl)|]. by rewrite (k_pending _ _ K). Qed.
Lemma runs_settle_pending s : base s -> linked s -> to_inv (settle_pending now size) s.
Proof.
  intros Hs Hl. apply runs_bind, runs_gets, runs_bind, runs_modify, runs_drain; [by apply (base_ext s)|].
  intros s' H' K'. apply (kept_inv (set_pending 0 s)); [|done|done]. constructor; [by apply (base_ext s)|exact Hl|done].
Qed.
Lemma on_data_inv chunk s : inv s -> forallb byte_ok chunk = true -> to_inv (on_data now size chunk) s.
Proof.
  intros Hi Hc. pose proof Hi as [Hs Hl _]. apply runs_bind, runs_gets. destruct (sh_running s); [|exact Hi].
  pose proof (utf8_to_string_well_formed chunk Hc) as Hw. apply runs_bind, runs_gets, runs_bind.
  apply runs_handleKeys; [done|done| |apply runs_settle_pending].
  destruct (os_input (sh_current s)); [cbn [forallb]; by rewrite Hw|by apply splitKeystrokes_well_formed].
Qed.
Lemma base_child s c c' : base s -> sh_child s = Some c -> ch_request c' = ch_request c -> base (set_child (Some c') s).
Proof.
  intros [] Hc Hr. rewrite Hc in *. constructor; cbn [set_child sh_current sh_trace sh_child sh_confirmed sh_awaitingTrust]; try assumption.
  intros c2 [= <-]. rewrite Hr. by apply b_child0.
Qed.
Lemma inv_child s c c' : inv s -> sh_child s = Some c -> ch_request c' = ch_request c -> inv (set_child (Some c') s).
Proof.
  intros [Hb Hl Hp] Hc Hr. constructor; [by eapply base_child| |done]. rewrite Hc in Hl. exact Hl.
Qed.
Lemma on_stdout_inv chunk s : inv s -> to_inv (on_stdout chunk) s.
Proof.
  intros Hi. apply runs_bind, runs_gets. destruct (sh_child s) as [c|] eqn:Ec; [|exact Hi].
  apply runs_modify. by eapply inv_child.
Qed.
Lemma label_clean dir : clean dir = true -> clean (label_of launched dir) = true.
Proof.
  intros Hd. unfold label_of. destruct (List.find _ launched) as [p|] eqn:E; [|done].
  apply List.find_some in E as [Hin _]. pose proof (forallb_In _ _ _ Hlaunched Hin) as Hp. by apply profile_parts in Hp as [? _].
Qed.
Lemma paintableIdentifiers_clean i : identifiers_clean (paintableIdentifiers i) = true.
Proof.
  unfold identifiers_clean, paintableIdentifiers. cbn [ti_identity_id ti_device_id ti_device_pubkey ti_signal_identity_key].
  destruct (ti_identity_id i), (ti_device_id i), (ti_device_pubkey i), (ti_signal_identity_key i);
    cbn [option_map clean_opt]; by rewrite ?paintable_clean.
Qed.
(** The listener, called for a child that waits: the panel is what the child just said. *)
Lemma base_heard from label identifiers s :
  base s -> is_some (sh_child s) = true -> os_busy (sh_current s) = true -> clean from = true -> clean label = true ->
  base (on_current (with_modal (Some (MkModal from label (paintableIdentifiers identifiers) None)))
          (log (Heard identifiers) (set_awaiting true s))).
Proof.
  intros [] Hc Hb Hf Hl. constructor; cbn [on_current log set_awaiting sh_current sh_trace sh_child sh_confirmed sh_awaitingTrust]; try assumption.
  - apply state_ok_modal; [done| |by right]. unfold modal_clean. cbn [tm_cardPath tm_profileLabel tm_identifiers].
    by rewrite Hf, Hl, paintableIdentifiers_clean.
  - by split.
  - done.
  - intros _ m [= <-]. exists [], identifiers, (sh_trace s). by split_and!.
Qed.
Lemma on_stderr_inv chunk s : inv s -> to_inv (on_stderr now size launched chunk) s.
Proof.
  intros Hi. apply runs_bind, runs_gets. destruct (sh_child s) as [c|] eqn:Ec; [|exact Hi].
  apply runs_bind, runs_modify. set (c1 := MkChild _ _ _ (ch_announced c) _). assert (inv (set_child (Some c1) s)) as H1 by by eapply inv_child.
  assert (sh_child (set_child (Some c1) s) = Some c1) as C1 by done. assert (ch_request c1 = ch_request c) as R1 by done.
  clearbody c1. revert H1 C1. generalize (set_child (Some c1) s) as s1. intros s1 H1 C1.
  destruct (ch_announced c); [exact H1|]. destruct (ch_request c) as [| |dir from| | | | |] eqn:Er; try exact H1.
  destruct (readIdentifiers _) as [identifiers|]; [|exact H1]. apply runs_bind, runs_modify, runs_bind, runs_modify.
  set (c2 := MkChild _ _ _ true _). assert (inv (set_child (Some c2) s1)) as H2 by (eapply inv_child; [exact H1|exact C1|by rewrite R1]).
  pose proof H2 as [Hb2 Hl2 Hp2]. pose proof (b_child _ Hb2 c2 eq_refl) as Hrc. cbn [c2 ch_request request_clean] in Hrc.
  apply andb_true_iff in Hrc as [Hd Hf]. apply runs_bind, runs_modify, runs_bind, runs_modify.
  pose proof (base_heard from (label_of launched dir) identifiers _ Hb2 eq_refl Hl2 Hf (label_clean dir Hd)) as Hheard.
  apply runs_paint; [done|exact Hheard|]. intros s3 H3 K3. eapply kept_inv; [|exact H3|exact K3].
  constructor; [exact Hheard|exact Hl2|exact Hp2].
Qed.
Lemma on_close_inv exitCode s : inv s -> to_inv (on_close now size exitCode) s.
Proof.
  intros Hi. pose proof Hi as [Hb Hl Hp]. apply runs_bind, runs_gets. destruct (sh_child s) as [c|] eqn:Ec; [|exact Hi].
  apply runs_bind, runs_modify, runs_bind, runs_modify, runs_bind, runs_modify.
  set (s1 := log _ _). assert (base s1) as H1.
  { destruct Hb. rewrite Ec in *. constructor; cbn [s1 log set_child set_awaiting sh_current sh_trace sh_child sh_confirmed sh_awaitingTrust serial]; try assumption.
    - by split.
    - by rewrite b_serial0.
    - done.
    - done.
    - done. }
  apply runs_settled; [exact H1|done|]. intros s2 H2 L2 P2. constructor; [done|done|]. by rewrite P2.
Qed.
Lemma handle_inv e s : inv s -> event_ok e -> to_inv (handle now size launched e) s.
Proof.
  intros Hi He. destruct e; cbn [handle event_ok] in *.
  - by apply on_data_inv.
  - by apply on_stdout_inv.
  - by apply on_stderr_inv.
  - by apply on_close_inv.
Qed.
Lemma start_inv state :
  state_ok state -> os_busy state = false -> os_modal state = None -> os_input state = None ->
  to_inv (start now size) (shell_of state).
Proof.
  intros Hst Hb Hm Hin. assert (inv (shell_of state)) as H0.
  { constructor; [|exact Hb|done]. constructor; try done. }
  unfold start. apply runs_bind, runs_gets, runs_bind.
  assert (forall s, inv s -> os_input (sh_current s) = None -> runs (modify (log (SetRawMode true));; modify (log Resumed);;
    write ALTERNATE_SCREEN_ON;; paint now size;; askWhatIsThere now size) s (fun _ s' => inv s')) as Hrest.
  { intros s Hi Hin'. pose proof Hi as [Hbs Hl Hp]. apply runs_bind, runs_log; [done|done|done|]. intros H1 K1.
    apply runs_bind, runs_log; [done|done|done|]. intros H2 K2.
    apply runs_bind. unfold write. apply runs_log; [done|done|by right; left|]. intros H3 K3.
    pose proof (transitivity K1 (transitivity K2 K3)) as K. apply runs_bind, runs_paint; [done|done|]. intros s4 H4 K4.
    pose proof (transitivity K K4) as K'. pose proof (kept_inv s s4 Hi H4 K') as I4. clear K1 K2 K3 H1 H2 H3 K K4.
    unfold askWhatIsThere. apply runs_bind, runs_gets. destruct (activeProfile (sh_current s4)) as [p|] eqn:Ep; [|exact I4].
    destruct (is_unknown (pv_state p)); [|exact I4].
    pose proof (active_clean _ _ (so_clean _ (b_state _ H4)) Ep) as Hpc. apply profile_parts in Hpc as (_ & Hd & _).
    destruct (reduce_ok (sh_current s4) (Run (ReqDoctor (pv_profileDir p))) (b_state _ H4)) as (st' & effects & Hr & Hstep & Hok).
    { split; [apply (k_input _ _ K'); exact Hin'|]. by split. }
    rewrite Hr. apply runs_bind, runs_lift, runs_bind, runs_modify, runs_bind, runs_paint; [done|by eapply base_step|].
    intros s5 H5 K5. pose proof (ready_step s4 s5 st' effects H4 (i_busy _ I4) Hstep K5) as Hready.
    assert (sh_pending s5 = 0%nat) as P5 by (rewrite (k_pending _ _ K5); exact (i_pending _ I4)).
    cbn [reduce] in Hr. destruct (os_busy (sh_current s4)); apply Ok_inj in Hr; injection Hr as _ <-.
    - cbn [chain]. apply runs_tail; [done|]. intros s6 H6 K6. constructor; [done|by eapply kept_linked|]. by rewrite (k_pending _ _ K6).
    - cbn [chain chain_ready] in *. destruct Hready as (Hc & Hbusy & Hg). apply runs_bind, runs_modify.
      apply runs_runCli; [by apply (base_ext s5)|done|done|done|]. intros s6 H6 L6 P6. constructor; [done|done|].
      rewrite P6. exact P5. }
  change (sh_current (shell_of state)) with state. destruct (os_observedAtMs state) eqn:Eo; [by apply Hrest|]. apply runs_bind, runs_clock; [done|apply H0|].
  intros t s1 Ht H1 K1 E1 _. apply runs_modify, Hrest.
  - destruct (kept_inv (shell_of state) s1 H0 H1 K1) as [Hb1 Hl1 Hp1]. constructor; [|cbn; rewrite (k_child _ _ K1); exact Hb|exact Hp1].
    apply (base_current (fun _ => with_observed (Some t) state)); [done| |by rewrite E1].
    destruct Hst as [[] [] Hex Hdr]. constructor; [constructor; assumption|constructor; assumption|assumption|assumption].
  - exact Hin.
Qed.
End callbacks.

(** ** What the console promises *)

(** The state a console starts with. *)
Record fresh (state : OperatorState) : Prop := {
  fr_ok : state_ok state; fr_busy : os_busy state = false; fr_modal : os_modal state = None; fr_input : os_input state = None }.
Section promises.
Context (now : nat -> Z) (size : nat -> option Z * option Z) (launched : list ProfileView) (state : OperatorState).
Context (Hclock : forall n, valid_time (now n) = true) (Hlaunched : forallb profile_clean launched = true) (Hfresh : fresh state).

Lemma runs_ok {A} (m : Sh A) s a s' Q : runs m s Q -> m s = (Ok a, s') -> Q a s'.
Proof. unfold runs. intros H E. rewrite E in H. exact H. Qed.
Lemma runs_total (m : Sh unit) s Q : runs m s Q -> exists s', m s = (Ok tt, s') /\ Q tt s'.
Proof. unfold runs. destruct (m s) as [[[]|e] s']; [eauto|done]. Qed.
Lemma reachable_inv s : reachable now size launched state s -> inv s.
Proof.
  destruct Hfresh. induction 1 as [s Hs|e s s' _ IH He Hh].
  - exact (runs_ok _ _ _ _ _ (start_inv now size Hclock state fr_ok0 fr_busy0 fr_modal0 fr_input0) Hs).
  - exact (runs_ok _ _ _ _ _ (handle_inv now size launched Hclock Hlaunched e s IH He) Hh).
Qed.
Lemma reachable_entry s newer e older :
  reachable now size launched state s -> sh_trace s = newer ++ e :: older -> entry_ok e older.
Proof. intros Hr E. apply reachable_inv in Hr as [[_ Ht _ _ _ _ _] _ _]. rewrite E in Ht. by apply trace_ok_at in Ht. Qed.

(** C2: trust is never recorded from a panel the operator did not see.  In every run of the
    console, whatever is typed, whatever size the terminal has and whatever the child
    prints, an answer [y] is written to the child only after that child printed its
    identifiers, with all four of them there, and after a frame was written since that
    shows each of them, filtered, in full under its name (62 columns at least; the child
    prints 36 to 44); and no other child was started and nothing else answered between. *)
Theorem trust_answer_was_shown s newer older :
  reachable now size launched state s -> sh_trace s = newer ++ StdinWrite YES :: older ->
  exists since heard before frame,
    older = since ++ Heard heard :: before /\ forallb quiet since = true /\ In (Wrote (frame_text frame)) since /\
    complete (paintableIdentifiers heard) /\ shows_all frame (paintableIdentifiers heard).
Proof. intros Hr E. exact (reachable_entry s newer _ older Hr E eq_refl). Qed.

(** C8: one command at a time.  In every run of the console a child is started only when the
    one before it has ended, from the keyboard or at the start, and with the arguments of
    one request; while one lives the console is busy and no row is open to compose in, and
    the row and the trust panel are never open together. *)
Theorem one_command_at_a_time s :
  reachable now size launched state s ->
  (forall newer request argv older, sh_trace s = newer ++ Spawned request argv :: older ->
     serial older = Some false /\ argv = buildArgv request) /\
  os_busy (sh_current s) = is_some (sh_child s) /\
  (os_input (sh_current s) <> None -> os_modal (sh_current s) = None /\ sh_child s = None).
Proof.
  intros Hr. pose proof (reachable_inv s Hr) as [Hb Hl _]. split_and!; [|done|].
  - intros newer request argv older E. destruct (reachable_entry s newer _ older Hr E) as (Ha & _ & Hs). done.
  - intros Hi. destruct (so_exclusive _ (b_state _ Hb) Hi) as [Hm Hbusy]. split; [done|].
    rewrite Hbusy in Hl. by destruct (sh_child s).
Qed.

(** C15: nothing that comes from outside steers the terminal.  In every run, whatever bytes are
    typed and whatever bytes the child prints, the console's state holds no control character
    and no point that reorders or breaks a line, and everything it writes is a frame without
    one, its own two screen sequences, or a plain line. *)
Theorem nothing_steers s :
  reachable now size launched state s ->
  state_clean (sh_current s) /\
  (forall text, In (Wrote text) (sh_trace s) ->
     (exists frame, text = frame_text frame /\ forallb clean frame = true)
     \/ text = ALTERNATE_SCREEN_ON \/ text = ALTERNATE_SCREEN_OFF \/ clean text = true).
Proof.
  intros Hr. split; [apply so_clean, b_state, i_base; by apply reachable_inv|].
  intros text (newer & older & E)%in_split. exact (reachable_entry s newer _ older Hr E).
Qed.

(** What a child is given to read is the body of the request it was started for, and
    [readStdinBody] returns it, however the pipe cuts the bytes. *)
Lemma body_read s newer text older :
  reachable now size launched state s -> sh_trace s = newer ++ StdinEnd text :: older -> text <> [] ->
  utf8_length text <= MAX_PLAINTEXT_BYTES /\ forall chunks, concat chunks = utf8_encode text -> readStdinBody chunks = Ok text.
Proof.
  intros Hr E Hne. destruct (reachable_entry s newer _ older Hr E) as (r & before & -> & -> & Hg).
  destruct r as [| | | |d to text id| | |]; try done.
  destruct Hg as (_ & _ & Hw & Hb). cbn [body_of] in *. split; [done|]. intros chunks Hc. unfold readStdinBody.
  rewrite read_chunks_spec by (cbn; unfold MAX_PLAINTEXT_BYTES; lia). rewrite Hc. cbn [length Nat.add app].
  unfold utf8Bytes, utf8_length in Hb. rewrite (proj2 (Z.leb_le _ _) Hb). cbn [res_map]. by rewrite utf8_to_string_encode.
Qed.

(** C28: the console never fails.  It starts, and in every state it can reach every chunk of
    keystrokes, every chunk of output and every end of a child is handled to its end, without
    an exception, whatever they contain and whatever size the terminal has. *)
Theorem console_never_fails :
  (exists s, start now size (shell_of state) = (Ok tt, s)) /\
  (forall s e, reachable now size launched state s -> event_ok e -> exists s', handle now size launched e s = (Ok tt, s')).
Proof.
  destruct Hfresh. split.
  - destruct (runs_total _ _ _ (start_inv now size Hclock state fr_ok0 fr_busy0 fr_modal0 fr_input0)) as (s & E & _). eauto.
  - intros s e Hr He. destruct (runs_total _ _ _ (handle_inv now size launched Hclock Hlaunched e s (reachable_inv s Hr) He)) as (s' & E & _).
    eauto.
Qed.
End promises.

(** ** Runs on concrete input *)
Module TuiSample.
Definition now (n : nat) : Z := 1700000000000.
Definition size (n : nat) : option Z * option Z := (Some 80, Some 24).
Definition profile : ProfileView :=
  MkProfile (js "alice") (js "/tmp/alice") (js "https://relay.example") (js "KEY") (js "identity") (js "device") 0 true
    (Some StateReady) true None (Some (js "/tmp/bob-card.json")).
Definition launched : list ProfileView := [profile].
Definition state : OperatorState :=
  with_selected (Some (js "bob")) (with_pane PaneHistory (createInitialState launched)).
Lemma fresh_state : fresh state.
Proof.
  constructor; [|done..]. constructor; [constructor; vm_compute; reflexivity|constructor; vm_compute; reflexivity|done|done].
Qed.
Lemma clock n : valid_time (now n) = true.
Proof. reflexivity. Qed.
Definition keys (text : String.string) : event := Data (js text).
Definition identifiers_line : bytes := stringify (JObj
  [ (js "identity_id", JStr (replicate 43 65)); (js "device_id", JStr (replicate 36 66));
    (js "device_pubkey", JStr (replicate 43 67)); (js "signal_identity_key", JStr (replicate 44 68)) ]) ++ [10].
Definition after (e : event) (s : shell) : shell := (handle now size launched e s).2.
Definition begun : shell := (start now size (shell_of state)).2.
Lemma launched_clean : forallb profile_clean launched = true.
Proof. vm_compute. reflexivity. Qed.
Definition succeeded (m : res err unit * shell) : bool := match m.1 with Ok _ => true | Err _ => false end.
Lemma reach_begun : succeeded (start now size (shell_of state)) = true -> reachable now size launched state begun.
Proof.
  intros H. apply reach_start. unfold begun. destruct (start now size (shell_of state)) as [[[]|e] s]; [reflexivity|discriminate].
Qed.
Lemma reach_after e s :
  reachable now size launched state s -> event_ok e -> succeeded (handle now size launched e s) = true ->
  reachable now size launched state (after e s).
Proof.
  intros Hs He H. eapply (reach_event _ _ _ _ e s); [exact Hs|exact He|]. unfold after.
  destruct (handle now size launched e s) as [[[]|x] s']; [reflexivity|discriminate].
Qed.
(** The operator imports a card, is shown the identifiers and confirms. *)
Definition imported : shell := after (keys "y") (after (ChildStderr identifiers_line) (after (keys "i") begun)).
(** The operator composes a message and sends it. *)
Definition sent : shell := after (Data [13]) (after (keys "hello") (after (keys "w") begun)).
Lemma reach_imported : reachable now size launched state imported.
Proof.
  repeat (apply reach_after; [|vm_compute; reflexivity|vm_compute; reflexivity]).
  apply reach_begun. vm_compute. reflexivity.
Qed.
Lemma reach_sent : reachable now size launched state sent.
Proof.
  repeat (apply reach_after; [|vm_compute; reflexivity|vm_compute; reflexivity]).
  apply reach_begun. vm_compute. reflexivity.
Qed.
End TuiSample.

Lemma trust_answer_was_shown_witness :
  let trace := sh_trace TuiSample.imported in
  trace = take 1 trace ++ StdinWrite YES :: drop 2 trace /\
  exists since heard before frame,
    drop 2 trace = since ++ Heard heard :: before /\ forallb quiet since = true /\ In (Wrote (frame_text frame)) since /\
    complete (paintableIdentifiers heard) /\ shows_all frame (paintableIdentifiers heard).
Proof.
  intros trace.
  assert (E : trace = take 1 trace ++ StdinWrite YES :: drop 2 trace) by (vm_compute; reflexivity).
  split; [exact E|].
  exact (trust_answer_was_shown TuiSample.now TuiSample.size TuiSample.launched TuiSample.state TuiSample.clock
           TuiSample.launched_clean TuiSample.fresh_state TuiSample.imported (take 1 trace) (drop 2 trace) TuiSample.reach_imported E).
Defined.

Lemma one_command_at_a_time_witness :
  let s := TuiSample.imported in
  is_some (sh_child s) = true /\ os_busy (sh_current s) = is_some (sh_child s).
Proof.
  destruct (one_command_at_a_time TuiSample.now TuiSample.size TuiSample.launched TuiSample.state TuiSample.clock
           TuiSample.launched_clean TuiSample.fresh_state TuiSample.imported TuiSample.reach_imported) as (_ & Hb & _).
  split; [vm_compute; reflexivity|exact Hb].
Defined.

Lemma nothing_steers_witness :
  state_clean (sh_current TuiSample.imported) /\ sh_trace TuiSample.imported <> [].
Proof.
  split; [|vm_compute; discriminate].
  exact (proj1 (nothing_steers TuiSample.now TuiSample.size TuiSample.launched TuiSample.state TuiSample.clock
           TuiSample.launched_clean TuiSample.fresh_state TuiSample.imported TuiSample.reach_imported)).
Defined.

Lemma console_never_fails_witness :
  reachable TuiSample.now TuiSample.size TuiSample.launched TuiSample.state TuiSample.imported /\
  exists s', handle TuiSample.now TuiSample.size TuiSample.launched (ChildStdout [255; 10]) TuiSample.imported = (Ok tt, s').
Proof.
  split; [exact TuiSample.reach_imported|].
  apply (proj2 (console_never_fails TuiSample.now TuiSample.size TuiSample.launched TuiSample.state TuiSample.clock
           TuiSample.launched_clean TuiSample.fresh_state) TuiSample.imported (ChildStdout [255; 10]) TuiSample.reach_imported).
  vm_compute. reflexivity.
Defined.

(** ** Where the code falls short of what it says *)

(** The trust listener does not ask whether the console still runs: identifiers that arrive after
    the operator has quit are painted over the screen the console has given back. *)
Lemma prompt_after_quit_paints :
  let s := TuiSample.after (ChildStderr TuiSample.identifiers_line)
             (TuiSample.after (TuiSample.keys "q") (TuiSample.after (TuiSample.keys "i") TuiSample.begun)) in
  sh_finished s = true /\
  match sh_trace s with Wrote text :: Heard _ :: _ => starts_with HOME text | _ => false end = true.
Proof. split; vm_compute; reflexivity. Qed.
(** A chunk is decoded by itself: a character whose bytes arrive in two chunks is lost. *)
Lemma split_character_is_lost :
  let s := TuiSample.after (ChildStdout [169]) (TuiSample.after (ChildStdout [195]) (TuiSample.after (TuiSample.keys "p") TuiSample.begun)) in
  option_map ch_stdout (sh_child s) = Some [65533; 65533] /\ utf8_to_string [195; 169] = [233].
Proof. split; vm_compute; reflexivity. Qed.
(** A panel outlives the child it belongs to: its answer goes nowhere, and the activity line says
    it was confirmed. *)
Lemma stale_panel_confirms :
  let s := TuiSample.after (TuiSample.keys "y")
             (TuiSample.after (ChildEnds 1) (TuiSample.after (ChildStderr TuiSample.identifiers_line)
               (TuiSample.after (TuiSample.keys "i") TuiSample.begun))) in
  option_map al_text (List.last (map Some (os_activity (sh_current s))) None) = Some (js "contact import → confirmed by operator") /\
  existsb (fun e => match e with StdinWrite _ => true | _ => false end) (sh_trace s) = false.
Proof. split; vm_compute; reflexivity. Qed.
