(* ===== verification/Composing.v ===== *)
(** * Composing a message: the row of [tui-reducer.ts], from the first key to the child's input

    A message is typed into a row of the console of [TuiShell], one key or one pasted chunk at a
    time, and sent with Enter.  [spelled] says what a sequence of keys spells; [typed_since]
    follows the keys of a run from the one that opened the row.  Theorem: what a child is given
    to read is what the keys spelled, and the arguments do not depend on it. *)

From S2P Require Import Prelude JsString Json JsMap Effects Outbound Cli Text Console Frame Reducer TuiShell.

(** ** What keys spell *)

(** A chunk that is neither a control key nor an escape sequence. *)
Definition types (key : jstr) : bool := match key with u :: _ => negb ((0 <? u) && (u <? 28)) | [] => false end.
(** What one key makes of the row's text: it takes the last point away, or is appended, without
    the points that steer a display, where the whole stays within the bound; a control key or
    an escape sequence changes nothing. *)
Definition edited (buffer key : jstr) : jstr :=
  if negb (types key) then buffer
  else if eqb key DEL then drop_last_point buffer
  else let text := buffer ++ paintable key in if MAX_PLAINTEXT_BYTES <? utf8Bytes text then buffer else text.
(** The text of a row that opened empty and was given these keys. *)
Definition spelled (keys : list jstr) : jstr := fold_left edited keys [].

(** The row that is open: what it asks for, and its text. *)
Definition row_of (state : OperatorState) : option (InputField * jstr) :=
  option_map (fun i => (in_field i, in_buffer i)) (os_input state).

Lemma first_unit u key : exists p points, code_points (u :: key) = (u :: p) :: points.
Proof. cbn [code_points]. repeat case_match; eauto. Qed.
Lemma ctrl_key key : k_ctrl (decodeKey key) = true -> types key = false.
Proof.
  unfold decodeKey. destruct (eqb key CTRL_C) eqn:E1; [apply (proj1 (eqb_eq _ _)) in E1; by subst|].
  destruct (eqb key ESC); [done|]. destruct (_ || _); [done|]. destruct key as [|u key]; [done|].
  destruct (first_unit u key) as (p & points & ->). destruct ((0 <? u) && (u <? 27)) eqn:E; [|done]. intros _.
  apply andb_true_iff in E as [E1' E2']. unfold types. rewrite E1'. cbn [andb]. apply negb_false_iff. lia.
Qed.
Lemma escape_key key : starts_with ESC key = true -> types key = false.
Proof. intros [t ->]%starts_with_iff. done. Qed.
Lemma text_key key :
  k_ctrl (decodeKey key) = false -> starts_with ESC key = false -> eqb key CR || eqb key LF = false -> key <> [] ->
  types key = true.
Proof.
  intros Hc He Hr Hn. destruct key as [|u key]; [done|]. unfold types. apply negb_true_iff, not_true_iff_false.
  intros [Hu1 Hu2]%andb_true_iff. unfold decodeKey in Hc.
  destruct (eqb (u :: key) CTRL_C); [done|]. destruct (eqb (u :: key) ESC) eqn:E2.
  { apply (proj1 (eqb_eq _ _)) in E2. rewrite E2 in He. vm_compute in He. discriminate. }
  rewrite Hr in Hc. destruct (first_unit u key) as (p & points & E). rewrite E in Hc. rewrite Hu1 in Hc. cbn [andb] in Hc.
  destruct (u <? 27) eqn:E3; [done|]. assert (u = 27) as -> by lia. apply not_true_iff_false in He. apply He.
  apply starts_with_iff. by exists key.
Qed.

(** What a key does to an open row. *)
Lemma key_edits state key b :
  state_ok state -> row_of state = Some (FieldMessage, b) ->
  match mapKey (decodeKey key) state with
  | None => edited b key = b
  | Some intent => forall next effects, reduce state intent = Ok (next, effects) ->
      row_of next = None \/ row_of next = Some (FieldMessage, edited b key)
  end.
Proof.
  intros Hok Hrow. unfold row_of in Hrow. destruct (os_input state) as [input|] eqn:Ei; [|done].
  injection Hrow as Hf Hb. destruct (so_exclusive _ Hok) as [Hm Hbusy]; [by rewrite Ei|].
  destruct (so_draft _ Hok input Ei) as [Hmax _]. rewrite Hf in Hmax.
  unfold mapKey. rewrite Hm, Ei. unfold inputKey. rewrite decodeKey_sequence.
  assert (types key = false -> edited b key = b) as Hstill by (intros E; unfold edited; by rewrite E).
  assert (row_of state = Some (FieldMessage, b)) as Hrow by (unfold row_of; rewrite Ei; cbn; by rewrite Hf, Hb).
  destruct (k_ctrl _) eqn:Ec.
  { apply ctrl_key, Hstill in Ec. unfold ctrl_intent. destruct (eqb _ _); [|exact Ec]. intros next effects [= <- _]. right. by rewrite Ec. }
  destruct (starts_with ESC key) eqn:Ee.
  { apply escape_key, Hstill in Ee. destruct (eqb key ESC); [|exact Ee]. intros next effects. cbn [reduce]. rewrite Ei. intros [= <- _]. by left. }
  destruct (eqb key CR || eqb key LF) eqn:Er.
  { assert (edited b key = b) as E.
    { apply Hstill. apply orb_true_iff in Er as [E|E]; apply (proj1 (eqb_eq _ _)) in E; by subst. }
    intros next effects. cbn [reduce]. rewrite Ei. destruct (is_some (os_modal state) || _ || _); [intros [= <- _]; right; by rewrite E|].
    destruct (submitRequest state input); intros [= <- _]; [by left|right; by rewrite E]. }
  destruct (eqb key DEL) eqn:Ed.
  { intros next effects. cbn [reduce]. rewrite Ei, Hm. cbn [is_some]. intros [= <- _]. right. unfold row_of, edited. cbn.
    rewrite Ed, Hf, Hb. by apply (proj1 (eqb_eq _ _)) in Ed as ->. }
  destruct (eqb key []) eqn:En; [apply (proj1 (eqb_eq _ _)) in En; apply Hstill; by subst|]. apply eqb_neq in En.
  pose proof (text_key key Ec Ee Er En) as Ht. intros next effects. cbn [reduce]. rewrite Ei, Hm. cbn [is_some]. cbv zeta.
  assert (edited b key = let text := b ++ paintable key in if MAX_PLAINTEXT_BYTES <? utf8Bytes text then b else text) as Hed
    by (unfold edited; by rewrite Ht, Ed).
  destruct (eqb (paintable key) []) eqn:Ep.
  { intros [= <- _]. right. rewrite Hrow, Hed. apply (proj1 (eqb_eq _ _)) in Ep. rewrite Ep, app_nil_r. cbv zeta. by destruct (_ <? _). }
  rewrite Hmax, Hb. change (inputMaxBytes FieldMessage) with MAX_PLAINTEXT_BYTES. rewrite Hed. cbv zeta.
  destruct (_ <? _); intros [= <- _]; right; [exact Hrow|]. unfold row_of. cbn. by rewrite Hf.
Qed.
(** A row for a message opens empty. *)
Lemma row_opens state intent next effects b :
  row_of state = None -> reduce state intent = Ok (next, effects) -> row_of next = Some (FieldMessage, b) -> b = [].
Proof.
  unfold row_of. destruct (os_input state) as [input|] eqn:Ei; [done|]. intros _ Hr Hn.
  assert (os_input next = None -> b = []) as Hnone by (intros E; by rewrite E in Hn).
  destruct intent as [pane|index|id|request| | | |field|text| | | |]; cbn [reduce] in Hr; rewrite ?Ei in Hr;
    repeat match type of Hr with
    | context [match ?x with _ => _ end] => lazymatch x with initialBuffer _ _ => fail | _ => destruct x eqn:? end
    end;
    try (injection Hr as <- _; apply Hnone; exact Ei).
  unfold initialBuffer in Hr. destruct (activeProfile state) as [profile|].
  - destruct field; cbn [res_map] in Hr.
    all: try (injection Hr as <- _; injection Hn as ?; by subst); try (injection Hr as <- _; by injection Hn).
    destruct (cardInstant _); [|discriminate Hr]. injection Hr as <- _. by injection Hn.
  - injection Hr as <- _. by injection Hn.
Qed.

Ltac split_hypothesis E :=
  repeat match type of E with
  | context [match ?x with _ => _ end] => lazymatch x with context [match _ with _ => _ end] => fail | _ => destruct x end
  end.
(** A row keeps what it asks for. *)
Lemma row_field_kept st key intent next effects f b f' b' :
  state_ok st -> row_of st = Some (f, b) -> mapKey (decodeKey key) st = Some intent ->
  reduce st intent = Ok (next, effects) -> row_of next = Some (f', b') -> f = f'.
Proof.
  unfold row_of. destruct (os_input st) as [input|] eqn:Ei; [|done]. intros Hok Hst Hk Hr Hn. injection Hst as <- _.
  destruct (so_exclusive _ Hok) as [Hm _]; [by rewrite Ei|]. unfold mapKey in Hk. rewrite Hm, Ei in Hk.
  unfold inputKey, ctrl_intent in Hk. assert (os_input next = Some input -> in_field input = f') as Hsame by (intros E; rewrite E in Hn; by injection Hn).
  split_hypothesis Hk; try discriminate Hk; injection Hk as <-; cbn [reduce] in Hr; rewrite ?Ei, ?Hm in Hr; cbv zeta in Hr;
    split_hypothesis Hr; try discriminate Hr; injection Hr as <- _;
    try (exact (Hsame Ei)); try discriminate Hn; cbn in Hn; by injection Hn.
Qed.

(** Where a message comes from: no key of a pane runs [send]; only Enter in an open row of a
    message does, and it sends the row's text to the selected contact. *)
Definition is_send (r : CliRequest) : bool := match r with ReqSend _ _ _ _ => true | _ => false end.
Definition sends (effects : list Effect) : bool := match effects with RunCli r :: _ => is_send r | _ => false end.
Lemma pane_sends_nothing key state r : paneKeyIntent key state = Some (Run r) -> is_send r = false.
Proof. unfold paneKeyIntent, setupStepIntent. cbv zeta. intros E. split_hypothesis E; try discriminate E; by injection E as <-. Qed.
Lemma mapKey_run key state r : mapKey key state = Some (Run r) -> is_send r = false.
Proof.
  unfold mapKey, modalIntent, inputKey, ctrl_intent. cbv zeta. intros E.
  destruct (os_modal state); [split_hypothesis E; discriminate E|]. destruct (os_input state); [split_hypothesis E; discriminate E|].
  destruct (paneKeyIntent key state) eqn:Ep; split_hypothesis E; try discriminate E. injection E as ->. by eapply pane_sends_nothing.
Qed.
Lemma mapKey_submit key state : mapKey (decodeKey key) state = Some InputSubmit -> key = CR \/ key = LF.
Proof.
  unfold mapKey, modalIntent, inputKey, ctrl_intent, paneKeyIntent, setupStepIntent. cbv zeta. rewrite decodeKey_sequence.
  intros E. destruct (os_modal state); [split_hypothesis E; discriminate E|].
  destruct (os_input state); [|split_hypothesis E; discriminate E].
  destruct (k_ctrl _); [split_hypothesis E; discriminate E|]. destruct (starts_with ESC key); [split_hypothesis E; discriminate E|].
  destruct (eqb key CR || eqb key LF) eqn:Er; [|split_hypothesis E; discriminate E].
  apply orb_true_iff in Er as [Er|Er]; apply (proj1 (eqb_eq _ _)) in Er; auto.
Qed.
Lemma submit_sends state input d to text id : submitRequest state input = Some (ReqSend d to text id) ->
  in_field input = FieldMessage /\ in_buffer input = text /\ id = None /\ os_selectedContactId state = Some to /\
  exists profile, activeProfile state = Some profile /\ pv_profileDir profile = d.
Proof.
  unfold submitRequest. destruct (activeProfile state) as [profile|]; [|done]. cbv zeta.
  destruct (in_field input); try discriminate; try (destruct (_ || _); discriminate); try (destruct (eqb _ _); discriminate).
  destruct (os_selectedContactId state) as [contact|]; [|done]. destruct (_ || _); [done|]. intros [= <- <- <- <-]. eauto 7.
Qed.
Lemma key_sends state key intent next d to text id effects :
  mapKey (decodeKey key) state = Some intent -> reduce state intent = Ok (next, RunCli (ReqSend d to text id) :: effects) ->
  (key = CR \/ key = LF) /\ row_of state = Some (FieldMessage, text) /\ row_of next = None /\ id = None /\
  os_selectedContactId state = Some to /\ exists profile, activeProfile state = Some profile /\ pv_profileDir profile = d.
Proof.
  intros Hk Hr. destruct intent; cbn [reduce] in Hr.
  4:{ apply mapKey_run in Hk. destruct (os_busy state); [discriminate Hr|]. by injection Hr as _ -> _. }
  all: try (by split_hypothesis Hr; discriminate Hr); try (by destruct (_ || _); [|destruct (initialBuffer _ _)]; discriminate Hr).
  apply mapKey_submit in Hk. split; [exact Hk|]. unfold row_of. destruct (os_input state) as [input|]; [|discriminate Hr].
  destruct (_ || _ || _); [discriminate Hr|]. destruct (submitRequest state input) as [request|] eqn:Es; [|discriminate Hr].
  injection Hr as <- -> _. apply submit_sends in Es as (Hf & Hb & Hid & Hto & Hp). cbn. by rewrite Hf, Hb.
Qed.

(** ** What leaves the row and the children's inputs alone *)

Definition unsent (e : entry) : bool := match e with StdinEnd (_ :: _) => false | _ => true end.
(** The row is as it was, and no child was given anything to read. *)
Definition still (s s' : shell) : Prop :=
  row_of (sh_current s') = row_of (sh_current s) /\ exists newer, sh_trace s' = newer ++ sh_trace s /\ forallb unsent newer = true.
#[local] Instance still_preorder : PreOrder still.
Proof.
  split; [intros s; split; [done|by exists []]|].
  intros s1 s2 s3 [R1 (n1 & E1 & U1)] [R2 (n2 & E2 & U2)]. split; [by rewrite R2|].
  exists (n2 ++ n1). by rewrite E2, E1, app_assoc, forallb_app, U1, U2.
Qed.
Lemma still_modify f : (forall s, row_of (sh_current (f s)) = row_of (sh_current s) /\ sh_trace (f s) = sh_trace s) -> preserves still (modify f).
Proof. intros Hf s. destruct (Hf s) as [Hr Ht]. split; [exact Hr|]. by exists []. Qed.
Lemma still_log e : unsent e = true -> preserves still (modify (log e)).
Proof. intros He s. split; [done|]. exists [e]. split; [done|]. cbn. by rewrite He. Qed.
Ltac still_tac := solve_preserves_with ltac:(fun _ => first
  [ apply still_log; reflexivity | apply still_modify; intros ?; split; reflexivity ]).

Section runs.
Context (now : nat -> Z) (size : nat -> option Z * option Z) (launched : list ProfileView) (state : OperatorState).

Lemma still_paint : preserves still (paint now size).
Proof.
  intros s.
  unfold paint, viewport, get_state, write, read_clock, bind, gets, modify, ret, lift. cbn [tick_looks sh_current sh_looks].
  destruct (renderFrame _ _) as [frame|e]; [|by split; [|exists []]].
  set (painted := MkViewport _ _). cbn [log tick_looks sh_current].
  destruct (os_modal (sh_current s)) as [m|]; [destruct (is_some _ || _)|];
    cbn [on_current with_modal os_input sh_current log tick_looks tick_clock];
    (destruct (os_input (sh_current s)) as [i|] eqn:Ei; [destruct (is_some _ || _)|]);
    (split; [unfold row_of; cbn; by rewrite ?Ei|by exists [Wrote (frame_text frame)]]).
Qed.
Lemma paint_writes s u s' : paint now size s = (Ok u, s') -> exists text, sh_trace s' = Wrote text :: sh_trace s.
Proof.
  unfold paint, viewport, get_state, write, read_clock, bind, gets, modify, ret, lift. cbn [tick_looks sh_current sh_looks].
  destruct (renderFrame _ _) as [frame|e]; [|done].
  set (painted := MkViewport _ _). cbn [log tick_looks sh_current].
  destruct (os_modal (sh_current s)) as [m|]; [destruct (is_some _ || _)|];
    cbn [on_current with_modal os_input sh_current log tick_looks tick_clock];
    (destruct (os_input (sh_current s)) as [i|]; [destruct (is_some _ || _)|]);
    intros [= _ <-]; by eexists.
Qed.
Lemma still_note text : preserves still (note now text).
Proof. unfold note, read_clock. still_tac. Qed.
#[local] Hint Resolve still_paint still_note : echolet.
Lemma still_finish : preserves still (finish size).
Proof. unfold finish, viewport, write. still_tac. Qed.
#[local] Hint Resolve still_finish : echolet.
Lemma still_tail startup : preserves still (tail_of now size startup).
Proof. unfold tail_of. still_tac. Qed.
#[local] Hint Resolve still_tail : echolet.
Lemma still_chain startup effects : sends effects = false -> preserves still (chain now size startup effects).
Proof.
  intros Hs. unfold chain, runCli, answerTrustPrompt. destruct effects as [|[r|b|] effects]; [still_tac| |still_tac|still_tac].
  cbn [sends] in Hs. destruct r; try discriminate Hs; still_tac.
Qed.
Lemma still_drain n : preserves still (drain now size n).
Proof. induction n; cbn [drain]; still_tac. Qed.
#[local] Hint Resolve still_drain : echolet.
Lemma still_settle_pending : preserves still (settle_pending now size).
Proof. unfold settle_pending. still_tac. Qed.
#[local] Hint Resolve still_settle_pending : echolet.

Lemma row_applyOutcome st request outcome t : row_of (applyOutcome st request outcome t) = row_of st.
Proof. unfold applyOutcome. cbv zeta. destruct (co_ok outcome), (req_command request), (is_object (co_data outcome)); reflexivity. Qed.
Lemma row_observeContact m st : row_of (observeContact m st) = row_of st.
Proof. unfold observeContact. repeat case_match; reflexivity. Qed.
(** A new state with the old row, and what follows it. *)
Lemma still_put {A} next (k : Sh A) s : row_of next = row_of (sh_current s) -> preserves still k -> still s (bind (put_state next) (fun _ => k) s).2.
Proof. intros Hr Hk. etrans; [|exact (Hk (on_current (fun _ => next) s))]. split; [exact Hr|by exists []]. Qed.
Lemma still_settled c outcome : preserves still (settled now size c outcome).
Proof.
  unfold settled. cbv zeta. apply preserves_bind; [apply _|still_tac|intros _].
  apply preserves_bind; [apply _|apply still_note|intros _]. intros s.
  unfold bind at 1 2 3, get_state, read_clock, gets, modify, ret, bind at 1 2 3. cbn [tick_clock sh_current sh_clock].
  set (s2 := tick_clock (tick_clock s)). assert (still s s2) as H2 by (split; [done|by exists []]).
  etrans; [exact H2|]. apply still_put; [exact (row_applyOutcome _ _ _ _)|].
  apply preserves_bind; [apply _| |intros _; apply still_tail]. destruct (is_import _); [|still_tac].
  apply preserves_bind; [apply _|still_tac|]. intros [m|]; [|still_tac].
  apply preserves_bind; [apply _| |intros _; still_tac]. destruct (co_ok outcome); [|still_tac].
  apply still_modify. intros s3. split; [exact (row_observeContact _ _)|done].
Qed.
#[local] Hint Resolve still_settled : echolet.
(** Only keys touch the row, and only keys send. *)
Lemma still_handle e : match e with Data _ => False | _ => True end -> preserves still (handle now size launched e).
Proof.
  destruct e; [done|intros _; cbn [handle]..]; unfold on_stdout, on_stderr, on_close, hear; still_tac.
Qed.
Lemma still_start : preserves still (start now size).
Proof.
  unfold start. intros s. unfold bind at 1, get_state, gets. match goal with |- still _ (bind ?m ?f ?s1).2 => change (still s1 (bind m f s1).2) end.
  assert (preserves still (askWhatIsThere now size)) as Hask.
  { intros s1. unfold askWhatIsThere, bind at 1, get_state, gets. destruct (activeProfile _); [|split; [done|by exists []]].
    destruct (is_unknown _); [|split; [done|by exists []]]. unfold bind at 1, lift. cbn [reduce].
    destruct (os_busy _); (apply still_put; [done|]; apply preserves_bind; [apply _|apply still_paint|intros _]; by apply still_chain). }
  assert (preserves still (modify (log (SetRawMode true));; modify (log Resumed);; write ALTERNATE_SCREEN_ON;; paint now size;; askWhatIsThere now size)) as Hrest.
  { unfold write. still_tac. }
  destruct (os_observedAtMs (sh_current s)); [exact (Hrest s)|]. unfold bind at 1 2, read_clock, bind at 1 2, gets, modify, ret.
  etrans; [|apply Hrest]. split; [done|by exists []].
Qed.
End runs.

(** ** A row's keys *)

Section composing.
Context (now : nat -> Z) (size : nat -> option Z * option Z) (launched : list ProfileView) (state : OperatorState).
Context (Hclock : forall n, valid_time (now n) = true) (Hlaunched : forallb profile_clean launched = true) (Hfresh : fresh state).

(** The keys of a chunk: with a row open, the whole chunk is one. *)
Definition chunk_keys (s : shell) (chunk : bytes) : list jstr :=
  match os_input (sh_current s) with None => splitKeystrokes (utf8_to_string chunk) | Some _ => [utf8_to_string chunk] end.
(** In a run of the console, [key] is about to be handled in [s], and [keys] after it. *)
Inductive handling : shell -> jstr -> list jstr -> Prop :=
  | handling_first s chunk key keys :
      reachable now size launched state s -> event_ok (Data chunk) -> sh_running s = true ->
      chunk_keys s chunk = key :: keys -> handling s key keys
  | handling_next s key key' keys s' :
      handling s key (key' :: keys) -> handleKey now size key s = (Ok tt, s') -> sh_running s' = true -> handling s' key' keys.
(** The row of a message is open in [s], and these keys were handled since it opened, the last
    one last; what the child says, its end, and the end of a chunk come in between. *)
Inductive typed_since : list jstr -> shell -> Prop :=
  | typed_none s key keys s' b :
      handling s key keys -> row_of (sh_current s) = None -> handleKey now size key s = (Ok tt, s') ->
      row_of (sh_current s') = Some (FieldMessage, b) -> typed_since [] s'
  | typed_key typed s key keys s' b :
      typed_since typed s -> handling s key keys -> handleKey now size key s = (Ok tt, s') ->
      row_of (sh_current s') = Some (FieldMessage, b) -> typed_since (typed ++ [key]) s'
  | typed_event typed s e s' :
      typed_since typed s -> match e with Data _ => False | _ => True end ->
      handle now size launched e s = (Ok tt, s') -> typed_since typed s'
  | typed_chunk typed s s' : typed_since typed s -> settle_pending now size s = (Ok tt, s') -> typed_since typed s'.

(** What is known of a text on a child's input: Enter was handled in a run's state where the row
    of a message held exactly that text, spelled by the keys since the row opened, and the
    child was started for it, for the selected contact, after the frame that shows the row
    gone. *)
Definition sent_from_row (text : jstr) (older : list entry) : Prop :=
  exists s key keys typed profile to frame,
    handling s key keys /\ (key = CR \/ key = LF) /\ typed_since typed s /\
    row_of (sh_current s) = Some (FieldMessage, text) /\ text = spelled typed /\
    activeProfile (sh_current s) = Some profile /\ os_selectedContactId (sh_current s) = Some to /\
    let request := ReqSend (pv_profileDir profile) to text None in
    older = Spawned request (buildArgv request) :: Wrote frame :: sh_trace s.
Definition sent_ok (trace : list entry) : Prop :=
  forall newer text older, trace = newer ++ StdinEnd text :: older -> text <> [] -> sent_from_row text older.
Definition row_typed (s : shell) : Prop :=
  forall b, row_of (sh_current s) = Some (FieldMessage, b) -> exists typed, typed_since typed s /\ b = spelled typed.

Lemma sent_ok_still s s' : still s s' -> sent_ok (sh_trace s) -> sent_ok (sh_trace s').
Proof.
  intros [_ (new & E & Hu)] Hs newer text older E' Hne. rewrite E in E'. clear E. revert newer E'.
  induction new as [|e new IH]; intros newer E'; [by eapply Hs|]. cbn [forallb] in Hu. apply andb_true_iff in Hu as [He Hu].
  destruct newer as [|e' newer]; cbn [app] in E'; injection E' as -> E'; [|by eapply IH].
  destruct text; [done|discriminate He].
Qed.
Lemma handling_base s key keys : handling s key keys -> base s /\ linked s /\ well_formed key = true /\ forallb well_formed keys = true.
Proof.
  induction 1 as [s chunk key keys Hr He _ Hk|s key key' keys s' _ (Hb & Hl & Hw & Hws) Hh _].
  - destruct (reachable_inv now size launched state Hclock Hlaunched Hfresh s Hr) as [Hb Hl _]. split; [done|]. split; [done|].
    pose proof (utf8_to_string_well_formed chunk He) as Hw. apply andb_true_iff.
    change (forallb well_formed (key :: keys) = true). rewrite <- Hk. unfold chunk_keys.
    destruct (os_input _); [cbn [forallb]; by rewrite Hw|by apply splitKeystrokes_well_formed].
  - cbn [forallb] in Hws. apply andb_true_iff in Hws as [Hw' Hws].
    assert (base s' /\ linked s') as [Hb' Hl']; [|done].
    exact (runs_ok _ _ _ _ _ (runs_handleKey now size Hclock key s (fun _ s1 => base s1 /\ linked s1) Hb Hl Hw (fun s1 H1 L1 => conj H1 L1)) Hh).
Qed.

(** What a key leaves: the row it edits, and, where it sends, the two entries on top. *)
Lemma handleKey_effect key s s' : handleKey now size key s = (Ok tt, s') ->
  (mapKey (decodeKey key) (sh_current s) = None /\ s' = s)
  \/ exists intent next effects, mapKey (decodeKey key) (sh_current s) = Some intent /\ reduce (sh_current s) intent = Ok (next, effects)
       /\ row_of (sh_current s') = row_of next
       /\ if sends effects
          then exists d to text id rest frame, effects = RunCli (ReqSend d to text id) :: rest /\
                 let request := ReqSend d to text id in
                 sh_trace s' = StdinEnd text :: Spawned request (buildArgv request) :: Wrote frame :: sh_trace s
          else exists newer, sh_trace s' = newer ++ sh_trace s /\ forallb unsent newer = true.
Proof.
  unfold handleKey. intros Hr. apply bind_ok in Hr as (st & s0 & E & Hr). injection E as <- <-.
  destruct (mapKey _ _) as [intent|]; [right|left; by injection Hr as <-].
  apply bind_ok in Hr as ([next effects] & s0 & E & Hr). unfold lift in E. injection E as E <-.
  apply bind_ok in Hr as (u & s1 & Hm & Hr).
  assert (sh_trace s1 = sh_trace s) as T1.
  { destruct (os_modal _); [|by injection Hm as _ <-]. destruct (confirms effects); by injection Hm as _ <-. }
  apply bind_ok in Hr as (u2 & s2 & Hp & Hr). injection Hp as _ <-. apply bind_ok in Hr as (u3 & s3 & Hp & Hr).
  pose proof (still_paint now size (on_current (fun _ => next) s1)) as [R3 (new3 & T3 & U3)].
  pose proof (paint_writes _ _ _ _ _ Hp) as (frame & F3). rewrite Hp in R3, T3. cbn [snd on_current sh_current sh_trace] in R3, T3, F3.
  rewrite T1 in T3, F3. exists intent, next, effects. split; [done|]. split; [exact E|]. destruct (sends effects) eqn:Es.
  - destruct effects as [|[r|b|] rest]; try discriminate Es. destruct r as [| | | |d to text id| | |]; try discriminate Es.
    cbn [chain runCli] in Hr. unfold bind, modify in Hr. injection Hr as <-. split; [exact R3|].
    exists d, to, text, id, rest, frame. split; [done|]. cbn. by rewrite F3.
  - pose proof (still_chain now size false effects Es s3) as [R4 (new4 & T4 & U4)]. rewrite Hr in R4, T4. cbn [snd] in R4, T4.
    split; [by rewrite R4|]. exists (new4 ++ new3). by rewrite T4, T3, app_assoc, forallb_app, U3, U4.
Qed.

(** Every key keeps both. *)
Lemma key_tracked key keys s s' :
  handling s key keys -> handleKey now size key s = (Ok tt, s') ->
  row_typed s /\ sent_ok (sh_trace s) -> row_typed s' /\ sent_ok (sh_trace s').
Proof.
  intros Hh Hr [Hrow Hsent]. pose proof (b_state _ (proj1 (handling_base _ _ _ Hh))) as Hok.
  destruct (handleKey_effect key s s' Hr) as [[Hnone ->]|(intent & next & effects & Hk & E & R & Ht)].
  - split; [|exact Hsent]. intros b Hb. destruct (Hrow b Hb) as (typed & Hty & ->). exists (typed ++ [key]).
    split; [by eapply typed_key|]. pose proof (key_edits _ key _ Hok Hb) as He. rewrite Hnone in He.
    unfold spelled in *. by rewrite fold_left_app.
  - split.
    + intros b Hb. destruct (row_of (sh_current s)) as [[f b0]|] eqn:E0.
      * assert (f = FieldMessage) as -> by (eapply row_field_kept; [exact Hok|exact E0|exact Hk|exact E|rewrite <- R; exact Hb]).
        destruct (Hrow b0 E0) as (typed & Hty & ->). exists (typed ++ [key]). split; [by eapply typed_key|].
        pose proof (key_edits _ key _ Hok E0) as He. rewrite Hk in He. rewrite R in Hb.
        destruct (He next effects E) as [He'|He']; rewrite Hb in He'; [done|]. injection He' as ->.
        unfold spelled. by rewrite fold_left_app.
      * exists []. split; [by eapply typed_none|]. rewrite R in Hb. by eapply row_opens.
    + destruct (sends effects).
      * destruct Ht as (d & to & text & id & rest & frame & -> & T). cbv zeta in T. rewrite T.
        destruct (key_sends _ _ _ _ _ _ _ _ _ Hk E) as (Hkey & Hb & _ & -> & Hto & profile & Hp & <-).
        destruct (Hrow text Hb) as (typed & Hty & Hsp).
        intros newer text' older E' Hne. destruct newer as [|e newer]; cbn [app] in E'; injection E' as E1 E2.
        -- subst text' older. exists s, key, keys, typed, profile, to, frame. done.
        -- destruct newer as [|e2 newer]; cbn [app] in E2; [discriminate E2|]. injection E2 as _ E2.
           destruct newer as [|e3 newer]; cbn [app] in E2; [discriminate E2|]. injection E2 as _ E2. by eapply Hsent.
      * destruct Ht as (new & T & U). apply (sent_ok_still (on_current (fun _ => sh_current s') s)); [|exact Hsent].
        split; [done|]. by exists new.
Qed.
Lemma keys_tracked keys s s' :
  (forall key rest, keys = key :: rest -> sh_running s = true -> handling s key rest) ->
  handleKeys now size keys s = (Ok tt, s') ->
  row_typed s /\ sent_ok (sh_trace s) -> row_typed s' /\ sent_ok (sh_trace s').
Proof.
  revert s. induction keys as [|key keys IH]; intros s Hh Hr Ht; cbn [handleKeys] in Hr; [by injection Hr as <-|].
  apply bind_ok in Hr as (b & s0 & E & Hr). injection E as <- <-. destruct (sh_running s) eqn:Erun; [|by injection Hr as <-].
  apply bind_ok in Hr as ([] & s1 & Hk & Hr). pose proof (Hh key keys eq_refl eq_refl) as Hhk.
  apply (IH s1); [|exact Hr|by eapply key_tracked]. intros key' rest -> Hrun. by eapply handling_next.
Qed.
Lemma still_tracked s s' :
  still s s' -> (forall typed, typed_since typed s -> typed_since typed s') ->
  row_typed s /\ sent_ok (sh_trace s) -> row_typed s' /\ sent_ok (sh_trace s').
Proof.
  intros Hs Ht [Hrow Hsent]. split; [|by eapply sent_ok_still]. intros b Hb. rewrite (proj1 Hs) in Hb.
  destruct (Hrow b Hb) as (typed & Hty & ->). eauto.
Qed.
Lemma reachable_tracked s : reachable now size launched state s -> row_typed s /\ sent_ok (sh_trace s).
Proof.
  induction 1 as [s Hs|e s s' Hr IH He Hh].
  - pose proof (still_start now size (shell_of state)) as Hst. rewrite Hs in Hst. cbn [snd] in Hst. split.
    + intros b Hb. rewrite (proj1 Hst) in Hb. unfold row_of in Hb. cbn in Hb. by rewrite (fr_input _ Hfresh) in Hb.
    + eapply sent_ok_still; [exact Hst|]. intros [|? ?] ? ? E; discriminate E.
  - destruct (match e as e return (match e with Data _ => False | _ => True end \/ exists chunk, e = Data chunk)
              with Data chunk => or_intror (ex_intro _ chunk eq_refl) | _ => or_introl I end) as [Hne|[chunk ->]].
    + pose proof (still_handle now size launched e Hne s) as Hst. rewrite Hh in Hst.
      apply (still_tracked s s' Hst); [|exact IH]. intros typed Hty. by eapply typed_event.
    + cbn [handle] in Hh. unfold on_data in Hh. apply bind_ok in Hh as (b & s0 & E & Hh). injection E as <- <-.
      destruct (sh_running s) eqn:Erun; [|by injection Hh as <-]. cbv zeta in Hh.
      apply bind_ok in Hh as (st & s0 & E & Hh). injection E as <- <-. apply bind_ok in Hh as ([] & s1 & Hk & Hh).
      pose proof (still_settle_pending now size s1) as Hst. rewrite Hh in Hst.
      apply (still_tracked s1 s' Hst); [intros typed Hty; by eapply typed_chunk|].
      eapply keys_tracked; [|exact Hk|exact IH]. intros key rest Ek _. by eapply handling_first.
Qed.

(** C27: a message is sent as it was typed, and only from the row.  In every run of the console,
    whatever is typed and whatever a child prints: when a text is written to a child's input,
    then Enter was just handled in a state where the row of a message held exactly that text;
    the text is what the keys handled since the row opened spell ([spelled]); the child was
    started for it with the active profile and the selected contact; and its arguments are the
    same for every other text.  The text is within the bound, and the child reads it back:
    however the pipe cuts the bytes, [readStdinBody] returns exactly it. *)
Theorem message_travels s newer text older :
  reachable now size launched state s -> sh_trace s = newer ++ StdinEnd text :: older -> text <> [] ->
  (exists s0 key keys typed profile to frame,
     handling s0 key keys /\ (key = CR \/ key = LF) /\
     typed_since typed s0 /\ row_of (sh_current s0) = Some (FieldMessage, text) /\ text = spelled typed /\
     activeProfile (sh_current s0) = Some profile /\ os_selectedContactId (sh_current s0) = Some to /\
     let request body := ReqSend (pv_profileDir profile) to body None in
     older = Spawned (request text) (buildArgv (request text)) :: Wrote frame :: sh_trace s0 /\
     forall other, buildArgv (request other) = buildArgv (request text)) /\
  utf8_length text <= MAX_PLAINTEXT_BYTES /\
  forall chunks, concat chunks = utf8_encode text -> readStdinBody chunks = Ok text.
Proof.
  intros Hr E Hne. split; [|by eapply body_read].
  destruct (proj2 (reachable_tracked s Hr) newer text older E Hne)
    as (s0 & key & keys & typed & profile & to & frame & Hh & Hk & Hty & Hrow & Hsp & Hp & Hto & Ho).
  exists s0, key, keys, typed, profile, to, frame. cbv zeta in *. done.
Qed.
End composing.

(** ** Witnesses *)

Lemma message_travels_witness :
  let trace := sh_trace TuiSample.sent in
  trace = StdinEnd (js "hello") :: drop 1 trace /\
  exists typed profile to frame s0,
    js "hello" = spelled typed /\ activeProfile (sh_current s0) = Some profile /\
    let request := ReqSend (pv_profileDir profile) to (js "hello") None in
    drop 1 trace = Spawned request (buildArgv request) :: Wrote frame :: sh_trace s0.
Proof.
  intros trace.
  assert (E : trace = StdinEnd (js "hello") :: drop 1 trace) by (vm_compute; reflexivity).
  split; [exact E|].
  destruct (message_travels TuiSample.now TuiSample.size TuiSample.launched TuiSample.state TuiSample.clock
           TuiSample.launched_clean TuiSample.fresh_state TuiSample.sent [] (js "hello") (drop 1 trace) TuiSample.reach_sent E)
    as ((s0 & key & keys & typed & profile & to & frame & _ & _ & _ & _ & Hsp & Hp & _ & Ho & _) & _).
  - vm_compute. discriminate.
  - exists typed, profile, to, frame, s0. exact (conj Hsp (conj Hp Ho)).
Defined.
(** A slip corrected on the way, and an arrow key, leave no trace. *)
Example spelled_edits : spelled [js "he"; js "y"; DEL; ESC ++ js "[D"; js "llo"] = js "hello".
Proof. vm_compute. reflexivity. Qed.
