(* ===== verification/Launch.v ===== *)
(** * How the console is launched: the argument vector of [tui/main.ts]

    [wantsHelp], [parseOptions] and [withStoreKeyPresence], and the state [main] hands to
    the shell.  [path.resolve], the directory of the bundle and the question whether a
    variable exists in the environment are parameters; an error [main] prints and exits
    with is its message. *)

From S2P Require Import Prelude JsString Json JsMap Effects Text Console Frame Reducer TuiShell.

Definition USAGE : jstr := join [10]
  [ js "echolet operator console — an UNAUDITED PROTOTYPE, not for sensitive communication.";
    [];
    js "usage: echolet-tui --profile <dir> [options] [--profile <dir> [options] …]";
    [];
    js "  --profile <dir>        a profile directory; repeat for more than one profile";
    js "  --label <name>         what to call the preceding profile on screen";
    js "  --relay-url <url>      the relay the preceding profile is configured against";
    js "  --store-key-env <var>  the NAME of the environment variable holding that profile's";
    js "                         32-byte store key. The value is never read here: it reaches";
    js "                         the CLI through the inherited environment.";
    js "  --card <path>          a contact card the preceding profile may import with [i]";
    js "  --cli <path>           the CLI bundle to drive (default: cli.js beside this file)";
    js "  --help                 print this and exit";
    [];
    js "Keys: [1-5] pane  [enter] next registration step  [p] poll  [d] doctor";
    js "      [r] publish  [h] history  [i] import  [c] contact  [t] profile";
    js "      [?] help  [q] quit" ].
Definition HELP_FLAGS : list jstr := [js "--help"; js "-h"].
Definition is_help (token : jstr) : bool := existsb (eqb token) HELP_FLAGS.
(** Positionally: every other option has one value. *)
Fixpoint wantsHelp (argv : list jstr) : bool :=
  match argv with
  | [] => false
  | token :: rest => is_help token || match rest with [] => false | _ :: rest => wantsHelp rest end
  end.

Record Options := MkOptions { op_profiles : list ProfileView; op_cliPath : jstr }.

Definition with_label v p := MkProfile v (pv_profileDir p) (pv_relayUrl p) (pv_storeKeyEnv p) (pv_identityId p) (pv_deviceId p) (pv_contactCount p) (pv_published p) (pv_state p) (pv_storeKeyPresent p) (pv_setup p) (pv_contactCardPath p).
Definition with_storeKeyEnv v p := MkProfile (pv_label p) (pv_profileDir p) (pv_relayUrl p) v (pv_identityId p) (pv_deviceId p) (pv_contactCount p) (pv_published p) (pv_state p) (pv_storeKeyPresent p) (pv_setup p) (pv_contactCardPath p).
Definition with_card v p := MkProfile (pv_label p) (pv_profileDir p) (pv_relayUrl p) (pv_storeKeyEnv p) (pv_identityId p) (pv_deviceId p) (pv_contactCount p) (pv_published p) (pv_state p) (pv_storeKeyPresent p) (pv_setup p) (Some v).
Definition with_presence b setup p := MkProfile (pv_label p) (pv_profileDir p) (pv_relayUrl p) (pv_storeKeyEnv p) (pv_identityId p) (pv_deviceId p) (pv_contactCount p) (pv_published p) (pv_state p) b (Some setup) (pv_contactCardPath p).

Section main.
(** [resolve] of one path, the default bundle, and [Object.hasOwn(process.env, name)]. *)
Context (resolve : jstr -> jstr) (default_cli : jstr) (in_env : jstr -> bool).

Definition patch (key value : jstr) (p : ProfileView) : res jstr ProfileView :=
  if eqb key (js "--label") then Ok (with_label value p)
  else if eqb key (js "--relay-url") then Ok (with_relayUrl value p)
  else if eqb key (js "--store-key-env") then Ok (with_storeKeyEnv value p)
  else if eqb key (js "--card") then Ok (with_card (resolve value) p)
  else Err (js "unknown option " ++ key).
(** [assign]: the last profile is patched. *)
Fixpoint assign (key value : jstr) (profiles : list ProfileView) : res jstr (list ProfileView) :=
  match profiles with
  | [] => Err (key ++ js " must follow a --profile")
  | [p] => res_map (fun p => [p]) (patch key value p)
  | p :: profiles => res_map (cons p) (assign key value profiles)
  end.
Definition new_profile (n : nat) (dir : jstr) : ProfileView :=
  MkProfile (js "profile-" ++ show_Z (Z.of_nat n + 1)) (resolve dir) [] [] (js "(run doctor)") (js "(run doctor)") 0 false
    (Some StateUnknown) false (Some PENDING_SETUP) None.
Fixpoint option_loop (argv : list jstr) (profiles : list ProfileView) (cliPath : jstr) : res jstr Options :=
  match argv with
  | [] =>
      match profiles with
      | [] => Err (js "at least one --profile <dir> is required")
      | _ => Ok (MkOptions profiles cliPath)
      end
  | flag :: rest =>
      if is_help flag then option_loop rest profiles cliPath
      else match rest with
           | [] => Err (flag ++ js " needs a value")
           | value :: rest =>
               if eqb flag (js "--profile") then option_loop rest (profiles ++ [new_profile (length profiles) value]) cliPath
               else if eqb flag (js "--cli") then option_loop rest profiles (resolve value)
               else match assign flag value profiles with
                    | Ok profiles => option_loop rest profiles cliPath
                    | Err message => Err message
                    end
           end
  end.
Definition parseOptions (rawArgv : list jstr) : res jstr Options := option_loop (map paintable rawArgv) [] default_cli.
Definition withStoreKeyPresence (p : ProfileView) : ProfileView :=
  let present := in_env (pv_storeKeyEnv p) in
  with_presence present
    (imap (fun step outcome => if Nat.eqb step 0 then (if present then StepOk else Pending) else outcome)
       (default_to PENDING_SETUP (pv_setup p))) p.
(** What [main] does with its arguments: the usage, a refusal, or a console. *)
Inductive launch := Usage (text : jstr) | Refused (message : jstr) | Console_ (options : Options) (state : OperatorState).
Definition main (argv : list jstr) : launch :=
  if wantsHelp argv then Usage (USAGE ++ [10])
  else match parseOptions argv with
       | Ok options => Console_ options (createInitialState (map withStoreKeyPresence (op_profiles options)))
       | Err message => Refused message
       end.
End main.

(** ** Lemmas *)

Section launched.
Context (resolve : jstr -> jstr) (default_cli : jstr) (in_env : jstr -> bool).

Lemma assign_last key value l p :
  assign resolve key value (l ++ [p]) = res_map (fun p => l ++ [p]) (patch resolve key value p).
Proof.
  induction l as [|q l IH]; [done|]. cbn [app assign]. destruct (l ++ [p]) eqn:E; [by destruct l|].
  rewrite IH. by destruct (patch resolve key value p).
Qed.

(** A flag of a profile and its value, whatever the value looks like. *)
Lemma loop_assign flag value rest l p q cli :
  is_help flag = false -> eqb flag (js "--profile") = false -> eqb flag (js "--cli") = false ->
  patch resolve flag value p = Ok q ->
  option_loop resolve (flag :: value :: rest) (l ++ [p]) cli = option_loop resolve rest (l ++ [q]) cli.
Proof. intros H1 H2 H3 H4. cbn [option_loop]. by rewrite H1, H2, H3, assign_last, H4. Qed.
Lemma loop_profile value rest l cli :
  option_loop resolve (js "--profile" :: value :: rest) l cli
  = option_loop resolve rest (l ++ [new_profile resolve (length l) value]) cli.
Proof.
  cbn [option_loop]. replace (is_help (js "--profile")) with false by (vm_compute; reflexivity).
  by replace (eqb (js "--profile") (js "--profile")) with true by (vm_compute; reflexivity).
Qed.

Lemma help_skipped flag value rest : is_help flag = false -> wantsHelp (flag :: value :: rest) = wantsHelp rest.
Proof. intros H. cbn [wantsHelp]. by rewrite H. Qed.

(** *** What a profile is asked for, and the vector that asks for it *)
Record profile_spec := MkSpec { ps_dir : jstr; ps_label : jstr; ps_relayUrl : jstr; ps_storeKeyEnv : jstr; ps_card : jstr }.
Definition spec_argv (s : profile_spec) : list jstr :=
  [ js "--profile"; ps_dir s; js "--label"; ps_label s; js "--relay-url"; ps_relayUrl s;
    js "--store-key-env"; ps_storeKeyEnv s; js "--card"; ps_card s ].
Definition spec_profile (s : profile_spec) : ProfileView :=
  MkProfile (ps_label s) (resolve (ps_dir s)) (ps_relayUrl s) (ps_storeKeyEnv s) (js "(run doctor)") (js "(run doctor)") 0 false
    (Some StateUnknown) false (Some PENDING_SETUP) (Some (resolve (ps_card s))).
Definition spec_clean (s : profile_spec) : bool :=
  clean (ps_dir s) && clean (ps_label s) && clean (ps_relayUrl s) && clean (ps_storeKeyEnv s) && clean (ps_card s).

Lemma spec_argv_painted s : spec_clean s = true -> map paintable (spec_argv s) = spec_argv s.
Proof.
  unfold spec_clean. rewrite !andb_true_iff. intros ((((H1 & H2) & H3) & H4) & H5).
  unfold spec_argv. cbn [map]. rewrite (paintable_id _ H1), (paintable_id _ H2), (paintable_id _ H3), (paintable_id _ H4), (paintable_id _ H5).
  repeat (f_equal; [vm_compute; reflexivity|f_equal]). reflexivity.
Qed.
(** Two literals that are compared while the value beside them is a variable. *)
Ltac literals := repeat match goal with
  | |- context [eqb ?a ?b] =>
      (replace (eqb a b) with true by (vm_compute; reflexivity)) || (replace (eqb a b) with false by (vm_compute; reflexivity))
  end.
Lemma patch_each value p :
  patch resolve (js "--label") value p = Ok (with_label value p) /\
  patch resolve (js "--relay-url") value p = Ok (with_relayUrl value p) /\
  patch resolve (js "--store-key-env") value p = Ok (with_storeKeyEnv value p) /\
  patch resolve (js "--card") value p = Ok (with_card (resolve value) p).
Proof. unfold patch. literals. split_and!; reflexivity. Qed.
Lemma loop_spec s rest l cli :
  option_loop resolve (spec_argv s ++ rest) l cli = option_loop resolve rest (l ++ [spec_profile s]) cli.
Proof.
  unfold spec_argv. cbn [app]. rewrite loop_profile.
  pose proof (fun flag value rest p q => loop_assign flag value rest l p q cli) as step.
  erewrite step; [|vm_compute; reflexivity..|refine (proj1 (patch_each (ps_label s) _))].
  erewrite step; [|vm_compute; reflexivity..|refine (proj1 (proj2 (patch_each (ps_relayUrl s) _)))].
  erewrite step; [|vm_compute; reflexivity..|refine (proj1 (proj2 (proj2 (patch_each (ps_storeKeyEnv s) _))))].
  erewrite step; [|vm_compute; reflexivity..|refine (proj2 (proj2 (proj2 (patch_each (ps_card s) _))))]. reflexivity.
Qed.
Lemma loop_specs specs l cli :
  l ++ map spec_profile specs <> [] ->
  option_loop resolve (concat (map spec_argv specs)) l cli = Ok (MkOptions (l ++ map spec_profile specs) cli).
Proof.
  revert l. induction specs as [|s specs IH]; intros l Hl; cbn [map concat] in *.
  - rewrite app_nil_r in *. by destruct l.
  - replace (l ++ spec_profile s :: map spec_profile specs) with ((l ++ [spec_profile s]) ++ map spec_profile specs) in *
      by by rewrite <- app_assoc.
    rewrite loop_spec. by apply IH.
Qed.
Lemma specs_no_help specs : wantsHelp (concat (map spec_argv specs)) = false.
Proof.
  induction specs as [|s specs IH]; [done|]. cbn [map concat]. unfold spec_argv at 1. cbn [app].
  do 5 (rewrite help_skipped by (vm_compute; reflexivity)). exact IH.
Qed.
Lemma specs_painted specs :
  forallb spec_clean specs = true -> map paintable (concat (map spec_argv specs)) = concat (map spec_argv specs).
Proof.
  induction specs as [|s specs IH]; [done|]. cbn [forallb map concat]. rewrite andb_true_iff. intros [H1 H2].
  by rewrite map_app, spec_argv_painted, IH.
Qed.

(** *** Filtered tokens give filtered profiles *)
Context (Hresolve : forall path, clean path = true -> clean (resolve path) = true).

Lemma patch_clean key value p :
  clean key = true -> clean value = true -> profile_clean p = true ->
  match patch resolve key value p with Ok q => profile_clean q = true | Err message => clean message = true end.
Proof.
  intros Hk Hv Hp. apply profile_parts in Hp as (H1 & H2 & H3 & H4 & H5 & H6 & H7 & H8). unfold patch.
  assert (forall q, clean (pv_label q) = true -> clean (pv_profileDir q) = true -> clean (pv_relayUrl q) = true ->
            clean (pv_storeKeyEnv q) = true -> clean (pv_identityId q) = true -> clean (pv_deviceId q) = true ->
            forallb step_clean (default_to [] (pv_setup q)) = true -> clean_opt (pv_contactCardPath q) = true ->
            profile_clean q = true) as Hq by (intros q E1 E2 E3 E4 E5 E6 E7 E8; unfold profile_clean; by rewrite E1, E2, E3, E4, E5, E6, E7, E8).
  destruct (eqb key (js "--label")); [by apply Hq|]. destruct (eqb key (js "--relay-url")); [by apply Hq|].
  destruct (eqb key (js "--store-key-env")); [by apply Hq|].
  destruct (eqb key (js "--card")); [apply Hq; try assumption; exact (Hresolve _ Hv)|].
  rewrite clean_app, Hk, andb_true_r. vm_compute. reflexivity.
Qed.
Lemma assign_clean key value l :
  clean key = true -> clean value = true -> forallb profile_clean l = true ->
  match assign resolve key value l with Ok l' => forallb profile_clean l' = true | Err message => clean message = true end.
Proof.
  intros Hk Hv. induction l as [|p l IH].
  - intros _. cbn [assign]. rewrite clean_app, Hk. vm_compute. reflexivity.
  - cbn [forallb]. rewrite andb_true_iff. intros [Hp Hl]. cbn [assign]. destruct l as [|q l].
    + pose proof (patch_clean key value p Hk Hv Hp) as H. destruct (patch resolve key value p); cbn [res_map]; [|done].
      cbn [forallb]. by rewrite H.
    + specialize (IH Hl). destruct (assign resolve key value (q :: l)); cbn [res_map]; [|done]. cbn [forallb]. by rewrite Hp.
Qed.
Lemma new_profile_clean n dir : clean dir = true -> profile_clean (new_profile resolve n dir) = true.
Proof.
  intros H. unfold profile_clean, new_profile. cbn [pv_label pv_profileDir pv_relayUrl pv_storeKeyEnv pv_identityId pv_deviceId pv_setup pv_contactCardPath default_to clean_opt].
  rewrite clean_app, show_Z_clean, (Hresolve _ H). vm_compute. reflexivity.
Qed.
Definition options_clean (o : Options) : Prop :=
  op_profiles o <> [] /\ forallb profile_clean (op_profiles o) = true /\ clean (op_cliPath o) = true.
Lemma loop_clean argv profiles cli :
  forallb clean argv = true -> forallb profile_clean profiles = true -> clean cli = true ->
  match option_loop resolve argv profiles cli with Ok o => options_clean o | Err message => clean message = true end.
Proof.
  remember (length argv) as n eqn:En. assert (length argv <= n)%nat as Hn by lia. clear En.
  revert argv profiles cli Hn. induction n as [|n IH]; intros argv profiles cli Hn Ha Hp Hc.
  { destruct argv; [|cbn in Hn; lia]. cbn [option_loop]. destruct profiles; [vm_compute; reflexivity|by split]. }
  destruct argv as [|flag rest]; [cbn [option_loop]; destruct profiles; [vm_compute; reflexivity|by split]|].
  cbn [forallb length] in *. apply andb_true_iff in Ha as [Hf Ha]. cbn [option_loop].
  destruct (is_help flag); [apply IH; auto; lia|]. destruct rest as [|value rest].
  { rewrite clean_app, Hf. vm_compute. reflexivity. }
  cbn [forallb length] in *. apply andb_true_iff in Ha as [Hv Ha].
  destruct (eqb flag (js "--profile")).
  { apply IH; [lia|done| |done]. rewrite forallb_app, Hp. cbn [forallb]. by rewrite new_profile_clean. }
  destruct (eqb flag (js "--cli")); [apply IH; auto; lia|].
  pose proof (assign_clean flag value profiles Hf Hv Hp) as H. destruct (assign resolve flag value profiles); [|done].
  apply IH; auto; lia.
Qed.
Lemma presence_clean p : profile_clean p = true -> profile_clean (withStoreKeyPresence in_env p) = true.
Proof.
  intros (H1 & H2 & H3 & H4 & H5 & H6 & H7 & H8)%profile_parts. unfold profile_clean, withStoreKeyPresence.
  cbn [with_presence pv_label pv_profileDir pv_relayUrl pv_storeKeyEnv pv_identityId pv_deviceId pv_setup pv_contactCardPath].
  rewrite H1, H2, H3, H4, H5, H6, H8, andb_true_r. cbn [andb]. unfold default_to at 1.
  set (l := default_to PENDING_SETUP (pv_setup p)).
  assert (forallb step_clean l = true) as Hl by (subst l; destruct (pv_setup p); [exact H7|reflexivity]).
  apply forallb_forall. intros o Ho. apply list_elem_of_In, elem_of_lookup_imap in Ho as (i & x & -> & Hx).
  destruct (Nat.eqb i 0); [by destruct (in_env _)|]. rewrite forallb_forall in Hl. apply Hl, list_elem_of_In. by eapply list_elem_of_lookup_2.
Qed.
Lemma initial_fresh profiles : forallb profile_clean profiles = true -> fresh (createInitialState profiles).
Proof.
  intros H. constructor; [|done..]. constructor; [|constructor; done|done|done]. constructor; try done.
  cbn. destruct profiles as [|p profiles]; [done|]. cbn [forallb] in H. apply andb_true_iff in H as [H%profile_parts _]. apply H.
Qed.
End launched.

(** ** What a launch promises *)

(** Whatever the argument vector, the console starts from a state the event loop's
    promises hold of, or not at all.  [main] prints the usage exactly when a flag stands
    where an option does; otherwise it refuses with a message that cannot steer the terminal,
    or starts a console whose profiles, at least one, hold nothing that could, that is idle,
    and has neither a panel nor a row open. *)
Theorem launch_is_safe (resolve : jstr -> jstr) (default_cli : jstr) (in_env : jstr -> bool) (argv : list jstr) :
  (forall path, clean path = true -> clean (resolve path) = true) -> clean default_cli = true ->
  match main resolve default_cli in_env argv with
  | Usage text => wantsHelp argv = true /\ text = USAGE ++ [10]
  | Refused message => wantsHelp argv = false /\ clean message = true
  | Console_ options state =>
      wantsHelp argv = false /\ options_clean options /\ fresh state /\
      length (os_profiles state) = length (op_profiles options)
  end.
Proof.
  intros Hr Hc. unfold main. destruct (wantsHelp argv); [done|].
  pose proof (loop_clean resolve in_env Hr (map paintable argv) [] default_cli) as H. unfold parseOptions.
  destruct (option_loop _ _ _ _) as [o|m].
  - assert (options_clean o) as Ho by (apply H; [apply forallb_map; intros; apply paintable_clean|done|done]).
    split_and!; [done|done| |cbn; by rewrite length_map].
    apply initial_fresh, forallb_map. intros p Hp. apply presence_clean.
    destruct Ho as (_ & Hf & _). rewrite forallb_forall in Hf. by apply Hf.
  - split; [done|]. apply H; [apply forallb_map; intros; apply paintable_clean|done|done].
Qed.

(** The options of a launch are read as they were meant.  A vector that names its profiles
    with their four options is read back as exactly those profiles, in order, each with its own
    values and the answer to whether its key's variable exists; a value is a value even
    when it looks like a flag ([--label -h]). *)
Theorem launch_reads_options (resolve : jstr -> jstr) (default_cli : jstr) (in_env : jstr -> bool) (specs : list profile_spec) :
  specs <> [] -> forallb spec_clean specs = true ->
  main resolve default_cli in_env (concat (map spec_argv specs))
  = Console_ (MkOptions (map (spec_profile resolve) specs) default_cli)
      (createInitialState (map (fun s => withStoreKeyPresence in_env (spec_profile resolve s)) specs)).
Proof.
  intros Hne Hs. unfold main, parseOptions. rewrite specs_no_help, specs_painted, loop_specs by (done || by destruct specs).
  cbn [op_profiles app]. by rewrite map_map.
Qed.

Module LaunchSample.
Definition resolve (path : jstr) : jstr := js "/work/" ++ path.
Lemma resolve_clean path : clean path = true -> clean (resolve path) = true.
Proof. intros H. unfold resolve. rewrite clean_app, H. vm_compute. reflexivity. Qed.
Definition in_env (name : jstr) : bool := eqb name (js "ECHOLET_E2E_KEY").
Definition specs : list profile_spec :=
  [ MkSpec (js "alice") (js "-h") (js "https://relay.example") (js "ECHOLET_E2E_KEY") (js "bob-card.json");
    MkSpec (js "bob") (js "bob") (js "--help") (js "OTHER") (js "--profile") ].
Definition hostile : list jstr := [js "--profile"; js "alice"; js "--label"; js "A" ++ [27] ++ js "[2JB"].
End LaunchSample.

Lemma launch_is_safe_witness :
  match main LaunchSample.resolve (js "cli.js") LaunchSample.in_env LaunchSample.hostile with
  | Console_ _ state => fresh state /\ map pv_label (os_profiles state) = [js "A[2JB"]
  | _ => False
  end.
Proof.
  pose proof (launch_is_safe LaunchSample.resolve (js "cli.js") LaunchSample.in_env LaunchSample.hostile
                LaunchSample.resolve_clean ltac:(vm_compute; reflexivity)) as H.
  destruct (main LaunchSample.resolve (js "cli.js") LaunchSample.in_env LaunchSample.hostile) as [t|m|o s] eqn:E.
  - exfalso. vm_compute in E. discriminate.
  - exfalso. vm_compute in E. discriminate.
  - destruct H as (_ & _ & H & _). split; [exact H|]. vm_compute in E. injection E as _ <-. vm_compute. reflexivity.
Defined.

Lemma launch_reads_options_witness :
  main LaunchSample.resolve (js "cli.js") LaunchSample.in_env (concat (map spec_argv LaunchSample.specs))
  = Console_ (MkOptions (map (spec_profile LaunchSample.resolve) LaunchSample.specs) (js "cli.js"))
      (createInitialState (map (fun s => withStoreKeyPresence LaunchSample.in_env (spec_profile LaunchSample.resolve s)) LaunchSample.specs)).
Proof.
  apply (launch_reads_options LaunchSample.resolve (js "cli.js") LaunchSample.in_env LaunchSample.specs);
    [discriminate|vm_compute; reflexivity].
Defined.
