(* ===== verification/NodePath.v ===== *)
(** * Paths as Node's [node:path] reads them on POSIX

    What the program uses of [path.posix]: [resolve], [join], [dirname], [basename] and
    [extname].  A path is split at [/]; the lemmas say where a resolved path lies. *)

From S2P Require Import Prelude JsString.

Definition slash : Z := 47.
Definition dot : jstr := js ".".
Definition dotdot : jstr := js "..".
Definition is_absolute (path : jstr) : bool := match path with u :: _ => u =? slash | [] => false end.
(** [normalizeString]: empty segments and [.] vanish, [..] takes the segment before it away;
    [kept] is in reverse. *)
Fixpoint normalize_segments (above : bool) (kept segments : list jstr) : list jstr :=
  match segments with
  | [] => rev kept
  | s :: segments =>
      if eqb s [] || eqb s dot then normalize_segments above kept segments
      else if eqb s dotdot
      then match kept with
           | k :: kept' => if eqb k dotdot then normalize_segments above (if above then s :: kept else kept) segments
                           else normalize_segments above kept' segments
           | [] => normalize_segments above (if above then [s] else []) segments
           end
      else normalize_segments above (s :: kept) segments
  end.
Definition segments_of (path : jstr) : list jstr := split_on slash path.
Definition absolute_path (segments : list jstr) : jstr := slash :: join [slash] segments.
Definition normalize_absolute (path : jstr) : jstr := absolute_path (normalize_segments false [] (segments_of path)).
(** [resolve(...paths)] in a process whose directory is [cwd]: from the right, up to an absolute path. *)
Fixpoint resolve_from (cwd : jstr) (reversed : list jstr) (resolved : jstr) : jstr :=
  match reversed with
  | [] => normalize_absolute (cwd ++ slash :: resolved)
  | path :: reversed =>
      if eqb path [] then resolve_from cwd reversed resolved
      else let resolved := path ++ slash :: resolved in
           if is_absolute path then normalize_absolute resolved else resolve_from cwd reversed resolved
  end.
Definition path_resolve (cwd : jstr) (paths : list jstr) : jstr := resolve_from cwd (rev paths) [].

Definition trailing_slash (path : jstr) : bool := match rev path with u :: _ => u =? slash | [] => false end.
Definition path_normalize (path : jstr) : jstr :=
  match path with
  | [] => dot
  | _ =>
      let absolute := is_absolute path in
      let body := join [slash] (normalize_segments (negb absolute) [] (segments_of path)) in
      let body := if eqb body [] then (if absolute then [] else if trailing_slash path then dot ++ [slash] else dot)
                  else if trailing_slash path then body ++ [slash] else body in
      if absolute then slash :: body else body
  end.
Definition path_join (paths : list jstr) : jstr :=
  match filter (fun p => p <> []) paths with
  | [] => dot
  | paths => path_normalize (join [slash] paths)
  end.

(** [dirname] and [basename] ignore the slashes at the end. *)
Fixpoint drop_slashes (reversed : jstr) : jstr :=
  match reversed with
  | u :: reversed' => if u =? slash then drop_slashes reversed' else reversed
  | [] => []
  end.
Fixpoint before_slash (reversed : jstr) : jstr * option jstr :=
  match reversed with
  | [] => ([], None)
  | u :: reversed => if u =? slash then ([], Some reversed) else let '(base, rest) := before_slash reversed in (u :: base, rest)
  end.
Definition path_basename (path : jstr) : jstr := rev (before_slash (drop_slashes (rev path))).1.
Definition path_dirname (path : jstr) : jstr :=
  match (before_slash (drop_slashes (rev path))).2 with
  | Some rest => match drop_slashes rest with [] => [slash] | rest => rev rest end
  | None => if is_absolute path then [slash] else dot
  end.
(** The part of the name from its last dot, unless that dot is its first unit or the name is [..]. *)
Fixpoint before_dot (reversed : jstr) : option (jstr * jstr) :=
  match reversed with
  | [] => None
  | u :: reversed => if u =? 46 then Some ([u], reversed)
                     else match before_dot reversed with Some (ext, rest) => Some (u :: ext, rest) | None => None end
  end.
Definition path_extname (path : jstr) : jstr :=
  let base := path_basename path in
  if eqb base dotdot then []
  else match before_dot (rev base) with
       | Some (ext, _ :: _) => rev ext
       | _ => []
       end.

(** ** Where a resolved path lies *)

(** A directory as [resolve] writes it. *)
Definition plain_segment (s : jstr) : bool := negb (eqb s [] || eqb s dot || eqb s dotdot) && negb (existsb (Z.eqb slash) s).
Definition plain_path (segments : list jstr) : Prop := forallb plain_segment segments = true.
Definition inside (directory : list jstr) (path : jstr) : Prop :=
  exists rest, plain_path rest /\ path = absolute_path (directory ++ rest).

Lemma segments_cons s rest : slash ∉ s -> segments_of (s ++ slash :: rest) = s :: segments_of rest.
Proof. intros H. by apply split_on_app. Qed.
Lemma segments_app a b : segments_of (a ++ slash :: b) = segments_of a ++ segments_of b.
Proof.
  unfold segments_of. revert b. induction a as [|u a IH]; intros b; cbn [app split_on].
  - by rewrite Z.eqb_refl.
  - destruct (u =? slash); [by rewrite IH|]. rewrite IH. destruct (split_on slash a) eqn:E; [by apply split_on_nonempty in E|done].
Qed.
Lemma normalize_app above kept a b :
  normalize_segments above kept (a ++ b) = normalize_segments above (rev (normalize_segments above kept a)) b.
Proof.
  revert kept. induction a as [|s a IH]; intros kept; cbn [app normalize_segments]; [by rewrite rev_involutive|].
  repeat case_match; apply IH.
Qed.
Lemma plain_segment_test s : plain_segment s = true -> eqb s [] || eqb s dot = false /\ eqb s dotdot = false.
Proof. unfold plain_segment. intros [Hs%negb_true_iff _]%andb_true_iff. by apply orb_false_iff in Hs as [? ?]. Qed.
Lemma normalize_plain above kept l : plain_path l -> normalize_segments above kept l = rev kept ++ l.
Proof.
  unfold plain_path. revert kept. induction l as [|s l IH]; intros kept H; cbn [normalize_segments forallb] in *; [by rewrite app_nil_r|].
  apply andb_true_iff in H as [[-> ->]%plain_segment_test Hl]. rewrite IH by done. cbn [rev]. by rewrite <- app_assoc.
Qed.
(** Without [..], normalizing only drops segments. *)
Definition droppable (s : jstr) : bool := eqb s [] || eqb s dot.
Lemma normalize_no_dotdot above kept l :
  forallb (fun s => negb (eqb s dotdot)) l = true ->
  normalize_segments above kept l = rev kept ++ filter (fun s => droppable s = false) l.
Proof.
  revert kept. induction l as [|s l IH]; intros kept H; cbn [normalize_segments forallb] in *; [by rewrite app_nil_r|].
  apply andb_true_iff in H as [Hs%negb_true_iff Hl]. rewrite Hs. fold (droppable s). rewrite filter_cons.
  destruct (droppable s) eqn:Ed; [rewrite decide_False by done; by apply IH|]. rewrite decide_True by done.
  rewrite IH by done. cbn [rev]. by rewrite <- app_assoc.
Qed.
Lemma split_no_separator c s x : x ∈ split_on c s -> c ∉ x.
Proof.
  revert x. induction s as [|u s IH]; intros x; cbn [split_on].
  - intros ->%list_elem_of_singleton. apply not_elem_of_nil.
  - destruct (u =? c) eqn:E.
    + intros [->|Hx]%elem_of_cons; [apply not_elem_of_nil|by apply IH].
    + destruct (split_on c s) as [|y l] eqn:El; [by apply split_on_nonempty in El|].
      apply Z.eqb_neq in E. intros [->|Hx]%elem_of_cons; [|by apply IH; right].
      intros [->|Hc]%elem_of_cons; [done|]. by apply (IH y); [left|].
Qed.
Lemma segments_slashless path s : s ∈ segments_of path -> existsb (Z.eqb slash) s = false.
Proof.
  intros Hs%split_no_separator. apply not_true_iff_false. intros (x & Hx & <-%Z.eqb_eq)%existsb_exists.
  by apply Hs, list_elem_of_In.
Qed.
Lemma segments_join l : l <> [] -> plain_path l -> segments_of (join [slash] l) = l.
Proof.
  intros Hl Hp. apply split_join; [done|]. apply Forall_forall. intros s Hs Hin.
  apply list_elem_of_In in Hs. apply (forallb_In _ _ _ Hp) in Hs. apply andb_true_iff in Hs as [_ Hs%negb_true_iff].
  apply not_true_iff_false in Hs. apply Hs, existsb_exists. exists slash. split; [by apply list_elem_of_In|apply Z.eqb_refl].
Qed.
Lemma segments_absolute directory : plain_path directory ->
  normalize_segments false [] (segments_of (absolute_path directory)) = directory.
Proof.
  intros H. unfold absolute_path. change (segments_of (slash :: join [slash] directory)) with ([] :: segments_of (join [slash] directory)).
  cbn [normalize_segments]. rewrite eqb_refl. cbn [orb]. destruct directory as [|s l].
  - cbn [join segments_of split_on normalize_segments]. by rewrite eqb_refl.
  - rewrite segments_join by done. by rewrite normalize_plain.
Qed.
Definition no_dotdot (path : jstr) : bool := forallb (fun s => negb (eqb s dotdot)) (segments_of path).
Lemma kept_plain path : no_dotdot path = true -> plain_path (filter (fun s => droppable s = false) (segments_of path)).
Proof.
  intros H. unfold plain_path. apply forallb_forall. intros s Hs. apply list_elem_of_In, list_elem_of_filter in Hs as [Hd Hs].
  unfold plain_segment. unfold droppable in Hd. rewrite Hd, (segments_slashless path s Hs). cbn [orb negb].
  rewrite andb_true_r. apply (forallb_In _ _ s H). by apply list_elem_of_In.
Qed.

(** A relative path without [..] resolves into its directory. *)
Lemma resolve_inside cwd directory path :
  plain_path directory -> is_absolute path = false -> no_dotdot path = true ->
  inside directory (path_resolve cwd [absolute_path directory; path]).
Proof.
  intros Hd Ha Hp. unfold path_resolve. cbn [rev app resolve_from].
  assert (forall r, normalize_absolute (absolute_path directory ++ slash :: r) =
    absolute_path (normalize_segments false (rev directory) (segments_of r))) as Hn.
  { intros r. unfold normalize_absolute. by rewrite segments_app, normalize_app, segments_absolute. }
  assert (forall r, no_dotdot r = true -> inside directory (normalize_absolute (absolute_path directory ++ slash :: r))) as Hi.
  { intros r Hr. rewrite Hn, normalize_no_dotdot, rev_involutive by done. eexists. split; [by apply kept_plain|done]. }
  assert (eqb (absolute_path directory) [] = false) as Hne by (by apply eqb_neq).
  change (is_absolute (absolute_path directory)) with true.
  destruct (eqb path []) eqn:Ep; rewrite Hne; [by apply Hi|]. rewrite Ha. apply Hi.
  unfold no_dotdot in *. rewrite (segments_app path []), forallb_app, Hp. done.
Qed.
(** An absolute one forgets the directory. *)
Lemma resolve_absolute cwd directory path :
  is_absolute path = true -> path_resolve cwd [directory; path] = normalize_absolute (path ++ [slash]).
Proof. intros Ha. unfold path_resolve. cbn [rev app resolve_from]. destruct path; [done|]. by rewrite Ha. Qed.

(** An absolute path without dots is resolved to itself. *)
Lemma resolve_plain cwd directory : plain_path directory -> path_resolve cwd [absolute_path directory] = absolute_path directory.
Proof.
  intros Hd. unfold path_resolve. cbn [rev app resolve_from].
  assert (eqb (absolute_path directory) [] = false /\ is_absolute (absolute_path directory) = true) as [-> ->] by (split; [by apply eqb_neq|done]).
  unfold normalize_absolute. rewrite segments_app, normalize_app, segments_absolute by done.
  change (segments_of []) with ([[]] : list jstr). cbn [normalize_segments]. rewrite eqb_refl. cbn [orb]. by rewrite rev_involutive.
Qed.

Lemma plain_segment_of s : plain_segment s = true -> segments_of s = [s].
Proof.
  intros [_ Hs%negb_true_iff]%andb_true_iff. apply split_on_fresh. intros Hin. apply not_true_iff_false in Hs.
  apply Hs, existsb_exists. exists slash. split; [by apply list_elem_of_In|apply Z.eqb_refl].
Qed.
(** A plain name is resolved in its directory. *)
Lemma resolve_plain_name cwd directory name : plain_path directory -> plain_segment name = true ->
  path_resolve cwd [absolute_path directory; name] = absolute_path (directory ++ [name]).
Proof.
  intros Hd Hn. pose proof (plain_segment_test _ Hn) as [Ht _]. assert (eqb name [] = false) as Ep by (by apply orb_false_iff in Ht as [Ht _]).
  assert (is_absolute name = false) as Ha.
  { apply andb_true_iff in Hn as [_ Hs%negb_true_iff]. destruct name as [|u name]; [done|]. cbn [existsb] in Hs. apply orb_false_iff in Hs as [Hs _].
    unfold is_absolute. by rewrite Z.eqb_sym. }
  unfold path_resolve. cbn [rev app resolve_from]. rewrite Ep, Ha. change (is_absolute (absolute_path directory)) with true.
  assert (eqb (absolute_path directory) [] = false) as -> by (by apply eqb_neq).
  unfold normalize_absolute. rewrite segments_app, normalize_app, segments_absolute by done.
  rewrite (segments_app name []), (plain_segment_of name Hn). change (segments_of []) with ([[]] : list jstr).
  cbn [app normalize_segments]. rewrite Ht. rewrite (proj2 (plain_segment_test _ Hn)). cbn [normalize_segments]. rewrite eqb_refl. cbn [orb rev].
  by rewrite rev_involutive.
Qed.
(** [join(directory, name)] of a plain name adds that name. *)
Lemma join_plain directory name :
  plain_path directory -> plain_segment name = true -> path_join [absolute_path directory; name] = absolute_path (directory ++ [name]).
Proof.
  intros Hd Hn. pose proof (plain_segment_test _ Hn) as [Ht Hdd]. assert (name <> []) as Hne by (by intros ->).
  unfold path_join. rewrite filter_cons_True, filter_cons_True by done.
  change (filter (fun p : jstr => p <> []) []) with (@nil jstr). cbn [join].
  assert (trailing_slash (absolute_path directory ++ [slash] ++ name) = false) as Htr.
  { unfold trailing_slash. rewrite !rev_app_distr. destruct (rev name) as [|u r] eqn:Er.
    - apply (f_equal (@rev _)) in Er. rewrite rev_involutive in Er. done.
    - cbn [app]. assert (In u name) as Hin by (apply in_rev; rewrite Er; by left).
      apply andb_true_iff in Hn as [_ Hs%negb_true_iff]. apply not_true_iff_false in Hs.
      apply not_true_iff_false. intros E. apply Hs, existsb_exists. exists u. split; [done|]. by rewrite Z.eqb_sym. }
  assert (normalize_segments false [] (segments_of (absolute_path directory ++ [slash] ++ name)) = directory ++ [name]) as En.
  { change ([slash] ++ name) with (slash :: name). rewrite segments_app, normalize_app, segments_absolute by done.
    rewrite plain_segment_of, normalize_plain, rev_involutive; [done|unfold plain_path; by cbn; rewrite Hn|done]. }
  unfold path_normalize. change (absolute_path directory ++ [slash] ++ name) with (slash :: (join [slash] directory ++ [slash] ++ name)) at 1.
  cbv iota zeta. change (is_absolute (absolute_path directory ++ [slash] ++ name)) with true. cbn [negb].
  rewrite Htr, En. unfold absolute_path. by destruct (eqb (join [slash] (directory ++ [name])) []) eqn:E;
    [apply (proj1 (eqb_eq _ _)) in E; rewrite E|].
Qed.
