(* ===== verification/Pretty.v ===== *)
(** * [JSON.stringify(value, null, 2)]

    The indented form in which the program writes the files a person may open: its
    configurations and contact cards.  It parses back to the value, as the compact form does. *)

From S2P Require Import Prelude JsString Json.

Definition newline (depth : nat) : jstr := 10 :: replicate (2 * depth) 32.
Fixpoint pretty_at (depth : nat) (v : json) : jstr :=
  match v with
  | JArr (x :: l) =>
      91 :: newline (S depth) ++ join (44 :: newline (S depth)) (map (pretty_at (S depth)) (x :: l)) ++ newline depth ++ [93]
  | JObj (m :: l) =>
      123 :: newline (S depth)
      ++ join (44 :: newline (S depth)) (map (fun kv => quote kv.1 ++ 58 :: 32 :: pretty_at (S depth) kv.2) (m :: l))
      ++ newline depth ++ [125]
  | v => stringify v
  end.
Definition pretty_json (v : json) : jstr := pretty_at 0 v.

(** ** It parses back *)

Lemma skip_newline depth s : skip_ws (newline depth ++ s) = skip_ws s.
Proof. unfold newline. cbn [app skip_ws is_ws Z.eqb]. induction (2 * depth)%nat as [|n IH]; [done|]. exact IH. Qed.
Lemma expect_newline c depth s : expect c (newline depth ++ s) = expect c s.
Proof. unfold expect. by rewrite skip_newline. Qed.
Lemma parse_value_newline n depth s : parse_value n (newline depth ++ s) = parse_value n s.
Proof. destruct n; [done|]. cbn [parse_value]. by rewrite skip_newline. Qed.
Lemma parse_members_newline n depth s : parse_members n (newline depth ++ s) = parse_members n s.
Proof. destruct n; [done|]. cbn [parse_members]. by rewrite expect_newline. Qed.
Lemma parse_elements_newline n depth s : parse_elements n (newline depth ++ s) = parse_elements n s.
Proof. destruct n; [done|]. cbn [parse_elements]. by rewrite parse_value_newline. Qed.
Lemma stops_newline depth s : stops (newline depth ++ s).
Proof. apply stops_cons. tauto. Qed.

Definition pretty_reads (depth : nat) (v : json) : Prop :=
  forall n r, (2 * length (pretty_at depth v) <= n)%nat -> stops r -> parse_value n (pretty_at depth v ++ r) = Some (v, r).
Definition pretty_member (depth : nat) (kv : jstr * json) : jstr := quote kv.1 ++ 58 :: 32 :: pretty_at depth kv.2.
Definition pretty_starts (t : jstr) : Prop := exists u s, t = u :: s /\ value_start u.

Lemma pretty_start depth v : pretty_starts (pretty_at depth v).
Proof.
  destruct v as [|b|z|s|[|x l]|[|m l]]; cbn [pretty_at]; try (destruct (stringify_start JNull) as (u & t & E & H);
    eexists _, _; split; [exact E|exact H]).
  all: try (match goal with |- pretty_starts (stringify ?v) => exact (stringify_start v) end).
  - destruct (stringify_start (JArr [])) as (u & t & E & H). injection E as <- _. by eexists _, _.
  - destruct (stringify_start (JObj [])) as (u & t & E & H). injection E as <- _. by eexists _, _.
Qed.
Lemma pretty_length depth v : (1 <= length (pretty_at depth v))%nat.
Proof. destruct (pretty_start depth v) as (u & t & -> & _). cbn. lia. Qed.

Lemma parse_pretty_elements depth l n r :
  l <> [] -> Forall (pretty_reads (S depth)) l ->
  (2 * length (join (44%Z :: newline (S depth)) (map (pretty_at (S depth)) l)) + 1 <= n)%nat ->
  parse_elements n (join (44 :: newline (S depth)) (map (pretty_at (S depth)) l) ++ newline depth ++ 93 :: r) = Some (l, r).
Proof.
  intros Hl H. revert n. induction H as [|v l Hv Hrest IH]; [done|]. intros n Hn. destruct n as [|n]; [lia|].
  destruct l as [|w l].
  - cbn [map join] in *. cbn [parse_elements]. rewrite Hv by (first [lia | apply stops_newline]).
    by rewrite !expect_newline, expect_miss, expect_hit by done.
  - change (map (pretty_at (S depth)) (v :: w :: l)) with (pretty_at (S depth) v :: pretty_at (S depth) w :: map (pretty_at (S depth)) l) in *.
    rewrite join_cons in *. rewrite !length_app in Hn. cbn [length] in Hn.
    rewrite <- !app_assoc. cbn [parse_elements app]. rewrite Hv by (first [lia | apply stops_cons; lia]). rewrite expect_hit by done.
    change (pretty_at (S depth) w :: map (pretty_at (S depth)) l) with (map (pretty_at (S depth)) (w :: l)) in *.
    rewrite parse_elements_newline, IH; [done|done|]. pose proof (pretty_length (S depth) v). lia.
Qed.
Lemma parse_pretty_member depth kv n t :
  forallb unit_ok kv.1 = true -> pretty_reads depth kv.2 -> stops t -> (2 * length (pretty_member depth kv) <= n)%nat ->
  exists r1, expect 34 (pretty_member depth kv ++ t) = Some r1 /\
  exists r2, parse_string r1 = Some (kv.1, r2) /\
  exists r3, expect 58 r2 = Some r3 /\ parse_value n r3 = Some (kv.2, t).
Proof.
  intros Hk Hv Ht Hn. unfold pretty_member in *. rewrite length_app in Hn. cbn [length] in Hn.
  rewrite <- app_assoc, quote_cons. eexists. split; [by apply expect_hit|]. eexists. split; [by apply parse_string_quote|].
  eexists. split; [by apply expect_hit|]. destruct n as [|n]; [lia|].
  transitivity (parse_value (S n) (pretty_at depth kv.2 ++ t)); [done|]. apply Hv; [lia|done].
Qed.
Lemma parse_pretty_members depth l n r :
  l <> [] -> Forall (fun kv => forallb unit_ok kv.1 = true /\ pretty_reads (S depth) kv.2) l ->
  (2 * length (join (44%Z :: newline (S depth)) (map (pretty_member (S depth)) l)) + 1 <= n)%nat ->
  parse_members n (join (44 :: newline (S depth)) (map (pretty_member (S depth)) l) ++ newline depth ++ 125 :: r) = Some (l, r).
Proof.
  intros Hl H. revert n. induction H as [|[k v] l [Hk Hv] Hrest IH]; [done|]. intros n Hn. destruct n as [|n]; [lia|].
  destruct l as [|w l].
  - cbn [map join] in *. cbn [parse_members].
    destruct (parse_pretty_member (S depth) (k, v) n (newline depth ++ 125 :: r) Hk Hv) as (r1 & -> & r2 & -> & r3 & -> & ->);
      [apply stops_newline|lia|]. by rewrite !expect_newline, expect_miss, expect_hit by done.
  - change (map (pretty_member (S depth)) ((k, v) :: w :: l))
      with (pretty_member (S depth) (k, v) :: pretty_member (S depth) w :: map (pretty_member (S depth)) l) in *.
    rewrite join_cons in *. rewrite !length_app in Hn. cbn [length] in Hn. rewrite <- !app_assoc. cbn [parse_members app].
    destruct (parse_pretty_member (S depth) (k, v) n
      (44 :: newline (S depth) ++ join (44 :: newline (S depth)) (pretty_member (S depth) w :: map (pretty_member (S depth)) l)
        ++ newline depth ++ 125 :: r) Hk Hv) as (r1 & -> & r2 & -> & r3 & -> & ->); [apply stops_cons; lia|lia|].
    rewrite expect_hit by done.
    change (pretty_member (S depth) w :: map (pretty_member (S depth)) l) with (map (pretty_member (S depth)) (w :: l)) in *.
    rewrite parse_members_newline, IH; [done|done|lia].
Qed.

Lemma pretty_join_start {A} (f : A -> jstr) sep x l : pretty_starts (f x) -> pretty_starts (join sep (map f (x :: l))).
Proof.
  intros (u & t & E & H). destruct l as [|y l]; cbn [map join]; [by exists u, t|].
  rewrite E. by exists u, (t ++ sep ++ join sep (f y :: map f l)).
Qed.
Lemma starts_not_closed c t r : pretty_starts t -> c = 93 \/ c = 125 -> expect c (t ++ r) = None.
Proof.
  intros (u & s & -> & Hu) Hc. pose proof (value_start_not_ws u Hu) as (? & ? & ? & _). apply expect_miss; [done|lia].
Qed.
Lemma pretty_reads_back v : json_ok v = true -> forall depth, pretty_reads depth v.
Proof.
  induction v as [|b|z|s|l IH|l IH] using json_rect'; intros Hok depth n r Hn Hr; cbn [pretty_at] in *;
    try (by apply parse_value_stringify).
  - destruct l as [|x l]; [by apply parse_value_stringify|]. destruct n as [|n]; [cbn in Hn; lia|].
    rewrite <- app_comm_cons, <- !app_assoc. cbn [parse_value]. rewrite skip_ws_id by done. cbn [Z.eqb Pos.eqb app].
    rewrite expect_newline, starts_not_closed by (first [apply pretty_join_start, pretty_start | by left]).
    cbn [length] in Hn. rewrite !length_app in Hn. cbn [length] in Hn.
    rewrite parse_elements_newline, parse_pretty_elements; [done|done| |lia].
    apply forallb_Forall' in Hok. rewrite Forall_forall in *. auto.
  - destruct l as [|m l]; [by apply parse_value_stringify|]. destruct n as [|n]; [cbn in Hn; lia|].
    change (map (fun kv => quote kv.1 ++ 58 :: 32 :: pretty_at (S depth) kv.2) (m :: l)) with (map (pretty_member (S depth)) (m :: l)) in *.
    change (keys_ok (m :: l) && forallb (fun kv => json_ok kv.2) (m :: l) = true) in Hok. apply andb_true_iff in Hok as [Hk Hok].
    rewrite <- app_comm_cons, <- !app_assoc. cbn [parse_value]. rewrite skip_ws_id by done. cbn [Z.eqb Pos.eqb app].
    assert (pretty_starts (pretty_member (S depth) m)) as Hm.
    { exists 34, (drop 1 (quote m.1) ++ 58 :: 32 :: pretty_at (S depth) m.2). split; [apply quote_cons|left; tauto]. }
    rewrite expect_newline, starts_not_closed by (first [by apply pretty_join_start | by right]).
    cbn [length] in Hn. rewrite !length_app in Hn. cbn [length] in Hn.
    rewrite parse_members_newline, parse_pretty_members; [by rewrite obj_of_ok|done| |lia].
    unfold keys_ok in Hk. apply andb_true_iff in Hk as [_ Hk]. apply forallb_Forall' in Hk. apply forallb_Forall' in Hok.
    apply Forall_fmap in Hk. rewrite Forall_forall in *. intros kv Hin. split; [|auto].
    specialize (Hk kv Hin). cbn in Hk. apply andb_true_iff in Hk. tauto.
Qed.
Lemma parse_pretty v : json_ok v = true -> parse (pretty_json v) = Some v.
Proof.
  intros Hv. unfold parse, pretty_json. rewrite <- (app_nil_r (pretty_at 0 v)) at 2.
  rewrite pretty_reads_back; [done|done|unfold fuel_for; lia|apply stops_nil].
Qed.
