(* ===== verification/Files.v ===== *)
(** * The machine an operator command runs on

    Files and directories under their paths with their modes, the lines of the terminal in both
    directions, the environment, and whatever else the platform keeps.  An operation of
    [node:fs] throws when its preconditions fail, and may throw at any time ([m_faults] says
    when): what a command has done by then is in the state it leaves.  Links are not modelled,
    and the order of a directory's entries is that of the map. *)

From stdpp Require Import gmap.
From S2P Require Import Prelude JsString Json JsMap Effects NodePath.

(** A mode as it is written, [0oabc]. *)
Definition octal (a b c : Z) : Z := 64 * a + 8 * b + c.
Inductive node := FileNode (content : jstr) (mode : Z) | DirNode (mode : Z).
Abbreviation files := (gmap jstr node).
Inductive line := Out (text : jstr) | Err_ (text : jstr).
Record machine (W : Type) := Machine {
  m_files : files; m_faults : list bool; m_input : list jstr; m_output : list line;
  m_environment : list (jstr * jstr); m_exitCode : option Z; m_world : W }.
Arguments Machine {W}.
Arguments m_files {W}. Arguments m_faults {W}. Arguments m_input {W}. Arguments m_output {W}.
Arguments m_environment {W}. Arguments m_exitCode {W}. Arguments m_world {W}.

Section machine.
Context {W : Type}.
Abbreviation Op := (M (machine W)).

Definition with_files (fs : files) (s : machine W) : machine W :=
  Machine fs (m_faults s) (m_input s) (m_output s) (m_environment s) (m_exitCode s) (m_world s).
Definition with_faults (l : list bool) (s : machine W) : machine W :=
  Machine (m_files s) l (m_input s) (m_output s) (m_environment s) (m_exitCode s) (m_world s).
Definition with_input (l : list jstr) (s : machine W) : machine W :=
  Machine (m_files s) (m_faults s) l (m_output s) (m_environment s) (m_exitCode s) (m_world s).
Definition with_environment (e : list (jstr * jstr)) (s : machine W) : machine W :=
  Machine (m_files s) (m_faults s) (m_input s) (m_output s) e (m_exitCode s) (m_world s).
Definition with_exit (code : Z) (s : machine W) : machine W :=
  Machine (m_files s) (m_faults s) (m_input s) (m_output s) (m_environment s) (Some code) (m_world s).
Definition with_world (w : W) (s : machine W) : machine W :=
  Machine (m_files s) (m_faults s) (m_input s) (m_output s) (m_environment s) (m_exitCode s) w.
Definition say (text : jstr) : Op unit :=
  modify (fun s => Machine (m_files s) (m_faults s) (m_input s) (m_output s ++ [Out text]) (m_environment s) (m_exitCode s) (m_world s)).
Definition complain (text : jstr) : Op unit :=
  modify (fun s => Machine (m_files s) (m_faults s) (m_input s) (m_output s ++ [Err_ text]) (m_environment s) (m_exitCode s) (m_world s)).
(** [process.exit(code)] does not return. *)
Definition exited : err := ErrOther (js "process.exit").
Definition exit_process {A} (code : Z) : Op A := modify (with_exit code);; throw exited.
Definition on_world {A} (f : W -> A * W) : Op A := fun s => let '(a, w) := f (m_world s) in (Ok a, with_world w s).
Definition setenv (name value : jstr) : Op unit := modify (fun s => with_environment (set name value (m_environment s)) s).

(** ** [node:fs] *)

Definition io_error : err := ErrOther (js "Error").
(** One operation that may fail: [f] is [None] where the system refuses it. *)
Definition fs_try {A} (f : files -> option (A * files)) : Op A := fun s =>
  match m_faults s with
  | true :: faults => (Err io_error, with_faults faults s)
  | faults =>
      let s := with_faults (tail faults) s in
      match f (m_files s) with
      | Some (a, fs) => (Ok a, with_files fs s)
      | None => (Err io_error, s)
      end
  end.
Definition is_dir (n : option node) : bool := match n with Some (DirNode _) => true | _ => false end.
Definition fs_exists (path : jstr) : Op bool := gets (fun s => match m_files s !! path with Some _ => true | None => false end).
Definition read_content (path : jstr) (fs : files) : option jstr :=
  match fs !! path with Some (FileNode content _) => Some content | _ => None end.
Definition fs_read (path : jstr) : Op jstr := fs_try (fun fs => option_map (fun content => (content, fs)) (read_content path fs)).
(** [writeFileSync(path, text, { mode })]: the mode is that of a new file only. *)
Definition fs_write (path text : jstr) (mode : Z) : Op unit :=
  fs_try (fun fs =>
    if is_dir (fs !! path_dirname path)
    then match fs !! path with
         | Some (FileNode _ mode') => Some (tt, <[path := FileNode text mode']> fs)
         | Some (DirNode _) => None
         | None => Some (tt, <[path := FileNode text mode]> fs)
         end
    else None).
Definition fs_chmod (path : jstr) (mode : Z) : Op unit :=
  fs_try (fun fs =>
    match fs !! path with
    | Some (FileNode content _) => Some (tt, <[path := FileNode content mode]> fs)
    | Some (DirNode _) => Some (tt, <[path := DirNode mode]> fs)
    | None => None
    end).
(** The path and the directories above it, from the top. *)
Definition ancestors (path : jstr) : list jstr :=
  let l := segments_of path in
  map (fun n => join [slash] (take n l)) (List.filter (fun n => negb (eqb (take n l) [[]])) (seq 1 (length l))).
Fixpoint make_dirs (paths : list jstr) (mode : Z) (fs : files) : option files :=
  match paths with
  | [] => Some fs
  | path :: paths =>
      match fs !! path with
      | Some (FileNode _ _) => None
      | Some (DirNode _) => make_dirs paths mode fs
      | None => make_dirs paths mode (<[path := DirNode mode]> fs)
      end
  end.
(** [mkdirSync(path, { recursive: true, mode })] *)
Definition fs_mkdir (path : jstr) (mode : Z) : Op unit :=
  fs_try (fun fs => option_map (fun fs => (tt, fs)) (make_dirs (ancestors path) mode fs)).
(** [path] itself or something below it. *)
Definition under (path p : jstr) : bool := eqb p path || starts_with (path ++ [slash]) p.
(** [rmSync(path, { recursive: true, force: true })] *)
Definition remove_tree (path : jstr) (fs : files) : files := filter (fun e => under path e.1 = false) fs.
Definition fs_rm (path : jstr) : Op unit := fs_try (fun fs => Some (tt, remove_tree path fs)).
Definition fs_unlink (path : jstr) : Op unit :=
  fs_try (fun fs => match fs !! path with Some (FileNode _ _) => Some (tt, base.delete path fs) | _ => None end).
(** The names of the directories in a directory. *)
Definition entries (path : jstr) (fs : files) : list (jstr * node) :=
  map (fun e => (path_basename e.1, e.2))
    (List.filter (fun e => eqb (path_dirname e.1) path && negb (eqb e.1 path)) (map_to_list fs)).
Definition fs_readdir (path : jstr) : Op (list (jstr * node)) :=
  fs_try (fun fs => if is_dir (fs !! path) then Some (entries path fs, fs) else None).
(** [openSync(path, "a")], of a file that is then written by a child. *)
Definition fs_append (path : jstr) : Op unit :=
  fs_try (fun fs =>
    if is_dir (fs !! path_dirname path)
    then match fs !! path with
         | Some (FileNode _ _) => Some (tt, fs)
         | Some (DirNode _) => None
         | None => Some (tt, <[path := FileNode [] (octal 6 4 4)]> fs)
         end
    else None).

(** ** What an operation does *)

(** It changes files only as [f] says, and nothing but files. *)
Definition same_but_files (s s' : machine W) : Prop :=
  m_input s' = m_input s /\ m_output s' = m_output s /\ m_environment s' = m_environment s /\ m_exitCode s' = m_exitCode s /\
  m_world s' = m_world s.
Lemma fs_try_ok {A} (f : files -> option (A * files)) s a s' :
  fs_try f s = (Ok a, s') -> exists fs, f (m_files s) = Some (a, fs) /\ m_files s' = fs /\ same_but_files s s'.
Proof.
  unfold fs_try. destruct (m_faults s) as [|[] faults]; [|done|]; cbn [m_files with_faults];
    (destruct (f (m_files s)) as [[b fs]|]; [|done]); intros [= <- <-]; exists fs; by repeat split.
Qed.
Lemma fs_try_err {A} (f : files -> option (A * files)) s e s' :
  fs_try f s = (Err e, s') -> m_files s' = m_files s /\ same_but_files s s'.
Proof.
  unfold fs_try. destruct (m_faults s) as [|[] faults]; cbn [m_files with_faults]; try (intros [= <- <-]; by repeat split);
    (destruct (f (m_files s)) as [[b fs]|]; [done|]); intros [= <- <-]; by repeat split.
Qed.
(** Without faults, what the system allows succeeds. *)
Lemma fs_try_total {A} (f : files -> option (A * files)) s a fs :
  Forall (eq false) (m_faults s) -> f (m_files s) = Some (a, fs) ->
  exists s', fs_try f s = (Ok a, s') /\ m_files s' = fs /\ Forall (eq false) (m_faults s').
Proof.
  intros Hf E. unfold fs_try. destruct (m_faults s) as [|b faults] eqn:Ef.
  - cbn [m_files with_faults tail]. rewrite E. eexists. split; [reflexivity|]. by split; [|apply Forall_nil].
  - apply Forall_cons in Hf as [<- Hf]. cbn [m_files with_faults tail]. rewrite E. eexists. split; [reflexivity|]. by split.
Qed.
Lemma fs_exists_read path s b s' : fs_exists path s = (Ok b, s') -> s' = s /\ b = match m_files s !! path with Some _ => true | None => false end.
Proof. by intros [= <- <-]. Qed.

(** A state in which nothing fails without a reason. *)
Definition calm (s : machine W) : Prop := Forall (eq false) (m_faults s).
Definition stays_calm (s s' : machine W) : Prop := calm s -> calm s'.
#[export] Instance stays_calm_preorder : PreOrder stays_calm.
Proof. split; [by intros s H|]. intros s1 s2 s3 H1 H2 H. by apply H2, H1. Qed.
Lemma calm_try {A} (f : files -> option (A * files)) : preserves stays_calm (fs_try f).
Proof.
  intros s Hs. unfold calm, fs_try in *. destruct (m_faults s) as [|b faults] eqn:Ef.
  - destruct (f (m_files (with_faults (tail []) s))) as [[a fs]|]; cbn; apply Forall_nil_2.
  - apply Forall_cons in Hs as [<- Hs]. destruct (f (m_files (with_faults (tail (false :: faults)) s))) as [[a fs]|]; exact Hs.
Qed.
Lemma calm_gets {A} (f : machine W -> A) : preserves stays_calm (gets f).
Proof. intros s H. exact H. Qed.
Lemma fs_read_total path content mode s :
  calm s -> m_files s !! path = Some (FileNode content mode) ->
  exists s', fs_read path s = (Ok content, s') /\ m_files s' = m_files s /\ calm s'.
Proof. intros Hs E. apply (fs_try_total _ s content (m_files s) Hs). unfold read_content. by rewrite E. Qed.
Lemma fs_write_ok path text mode s s' :
  fs_write path text mode s = (Ok tt, s') ->
  exists mode', m_files s' = <[path := FileNode text mode']> (m_files s) /\ (m_files s !! path = None -> mode' = mode) /\ same_but_files s s'.
Proof.
  intros (fs & E & -> & Hs)%fs_try_ok. destruct (is_dir _); [|done].
  destruct (m_files s !! path) as [[content mode'|]|] eqn:Ep; [| done |]; injection E as <-; eexists; (split; [reflexivity|]); by split.
Qed.
Lemma fs_chmod_ok path mode content mode' s s' :
  m_files s !! path = Some (FileNode content mode') -> fs_chmod path mode s = (Ok tt, s') ->
  m_files s' = <[path := FileNode content mode]> (m_files s) /\ same_but_files s s'.
Proof. intros Ep (fs & E & -> & Hs)%fs_try_ok. rewrite Ep in E. by injection E as <-. Qed.
(** A text written with its mode. *)
Lemma fs_put path text mode s s' :
  (fs_write path text mode;; fs_chmod path mode) s = (Ok tt, s') ->
  m_files s' = <[path := FileNode text mode]> (m_files s) /\ same_but_files s s'.
Proof.
  intros ([] & s1 & (mode' & E1 & _ & H1)%fs_write_ok & E2)%bind_ok.
  apply (fs_chmod_ok _ _ text mode') in E2 as [E2 H2]; [|by rewrite E1, lookup_insert_eq].
  split; [by rewrite E2, E1, insert_insert_eq|]. unfold same_but_files in *. destruct H1 as (? & ? & ? & ? & ?), H2 as (? & ? & ? & ? & ?).
  by split_and!; etrans.
Qed.

(** Making directories and setting modes changes no text of a file. *)
Definition same_content (s s' : machine W) : Prop := forall path, read_content path (m_files s') = read_content path (m_files s).
#[export] Instance same_content_preorder : PreOrder same_content.
Proof. split; [by intros s path|]. intros s1 s2 s3 H1 H2 path. by rewrite H2, H1. Qed.
Lemma content_same (s s' : machine W) : m_files s' = m_files s -> same_content s s'.
Proof. intros E path. by rewrite E. Qed.
Lemma content_try {A} (f : files -> option (A * files)) :
  (forall fs a fs' path, f fs = Some (a, fs') -> read_content path fs' = read_content path fs) -> preserves same_content (fs_try f).
Proof.
  intros Hf s. destruct (fs_try f s) as [[a|e] s'] eqn:E; cbn [snd].
  - apply fs_try_ok in E as (fs & E & Ef & _). intros path. rewrite Ef. by eapply Hf.
  - apply fs_try_err in E as [E _]. by apply content_same.
Qed.
Lemma content_chmod path mode : preserves same_content (fs_chmod path mode).
Proof.
  apply content_try. intros fs a fs' p E. destruct (fs !! path) as [[content m|m]|] eqn:Ep; [| |done]; injection E as _ <-;
    unfold read_content; (destruct (decide (p = path)) as [->|]; [by rewrite lookup_insert_eq, Ep|by rewrite lookup_insert_ne]).
Qed.
Lemma make_dirs_content paths mode fs fs' p : make_dirs paths mode fs = Some fs' -> read_content p fs' = read_content p fs.
Proof.
  revert fs. induction paths as [|path paths IH]; intros fs; cbn [make_dirs]; [by intros [= ->]|].
  destruct (fs !! path) as [[]|] eqn:E; [done|by apply IH|]. intros H. rewrite (IH _ H). unfold read_content.
  destruct (decide (p = path)) as [->|]; [by rewrite lookup_insert_eq, E|by rewrite lookup_insert_ne].
Qed.
Lemma content_mkdir path mode : preserves same_content (fs_mkdir path mode).
Proof.
  apply content_try. intros fs a fs' p E. destruct (make_dirs (ancestors path) mode fs) as [fs1|] eqn:Em; [|done].
  injection E as _ <-. by eapply make_dirs_content.
Qed.
Lemma read_content_insert (path text : jstr) (mode : Z) (p : jstr) (fs : files) :
  read_content p (<[path := FileNode text mode]> fs) = if decide (p = path) then Some text else read_content p fs.
Proof. unfold read_content. destruct (decide (p = path)) as [->|]; [by rewrite lookup_insert_eq|by rewrite lookup_insert_ne]. Qed.

Section within.
(** Only texts of files in [area] change. *)
Context (area : jstr -> bool).
Definition changes_within (s s' : machine W) : Prop :=
  forall path, area path = false -> read_content path (m_files s') = read_content path (m_files s).
#[export] Instance changes_within_preorder : PreOrder changes_within.
Proof. split; [by intros s path|]. intros s1 s2 s3 H1 H2 path Ha. by rewrite H2, H1. Qed.
Lemma within_content {A} (m : Op A) : preserves same_content m -> preserves changes_within m.
Proof. intros H s path _. apply H. Qed.
Lemma within_same {A} (m : Op A) : (forall s, m_files (m s).2 = m_files s) -> preserves changes_within m.
Proof. intros H s path _. by rewrite H. Qed.
Lemma within_try {A} (f : files -> option (A * files)) :
  (forall fs a fs' path, f fs = Some (a, fs') -> area path = false -> read_content path fs' = read_content path fs) ->
  preserves changes_within (fs_try f).
Proof.
  intros Hf s path Ha. destruct (fs_try f s) as [[a|e] s'] eqn:E; cbn [snd].
  - apply fs_try_ok in E as (fs & E & Ef & _). rewrite Ef. by eapply Hf.
  - apply fs_try_err in E as [E _]. by rewrite E.
Qed.
Lemma within_read path : preserves changes_within (fs_read path).
Proof. apply within_try. intros fs a fs' p E _. destruct (read_content path fs); [|done]. by injection E as _ <-. Qed.
Lemma within_write path text mode : area path = true -> preserves changes_within (fs_write path text mode).
Proof.
  intros Hin. apply within_try. intros fs a fs' p E Ha. destruct (is_dir _); [|done]. assert (p <> path) by congruence.
  destruct (fs !! path) as [[]|]; try done; injection E as _ <-; by rewrite read_content_insert, decide_False.
Qed.
Lemma within_unlink path : area path = true -> preserves changes_within (fs_unlink path).
Proof.
  intros Hin. apply within_try. intros fs a fs' p E Ha. assert (p <> path) by congruence.
  destruct (fs !! path) as [[]|]; try done; injection E as _ <-. unfold read_content. by rewrite lookup_delete_ne.
Qed.
Lemma within_readdir path : preserves changes_within (fs_readdir path).
Proof. apply within_try. intros fs a fs' p E _. destruct (is_dir _); [|done]. by injection E as _ <-. Qed.
Lemma within_append path : area path = true -> preserves changes_within (fs_append path).
Proof.
  intros Hin. apply within_try. intros fs a fs' p E Ha. assert (p <> path) by congruence. destruct (is_dir _); [|done].
  destruct (fs !! path) as [[]|]; try done; injection E as _ <-; [done|]. by rewrite read_content_insert, decide_False.
Qed.
Lemma removed_content (path p : jstr) (fs : files) :
  read_content p (remove_tree path fs) = if under path p then None else read_content p fs.
Proof.
  unfold read_content, remove_tree. rewrite map_lookup_filter. destruct (fs !! p) as [n|]; cbn; [|by destruct (under path p)].
  case_guard as H; cbn in H; by destruct (under path p).
Qed.
Lemma within_rm path : (forall p, under path p = true -> area p = true) -> preserves changes_within (fs_rm path).
Proof.
  intros Hin. apply within_try. intros fs a fs' p [= _ <-] Ha. rewrite removed_content.
  destruct (under path p) eqn:E; [|done]. apply Hin in E. congruence.
Qed.
Lemma within_world {A} (f : W -> A * W) : preserves changes_within (on_world f).
Proof. apply within_same. intros s. unfold on_world. by destruct (f (m_world s)). Qed.
End within.
End machine.

(** The steps of a command, one by one: [within_steps tac] closes the side conditions, that a
    path lies in the area, with [tac]. *)
Ltac within_step tac :=
  match goal with
  | |- preserves _ (fs_exists _) => by apply within_same
  | |- preserves _ (fs_read _) => apply within_read
  | |- preserves _ (fs_mkdir _ _) => apply within_content, content_mkdir
  | |- preserves _ (fs_chmod _ _) => apply within_content, content_chmod
  | |- preserves _ (fs_readdir _) => apply within_readdir
  | |- preserves _ (fs_write _ _ _) => apply within_write; tac tt
  | |- preserves _ (fs_unlink _) => apply within_unlink; tac tt
  | |- preserves _ (fs_append _) => apply within_append; tac tt
  | |- preserves _ (fs_rm _) => apply within_rm; tac tt
  | |- preserves _ (say _) => by apply within_same
  | |- preserves _ (complain _) => by apply within_same
  | |- preserves _ (on_world _) => apply within_world
  | |- preserves _ (exit_process _) => by apply within_same
  end.
Ltac within_steps tac := repeat first [ progress intros | within_step tac | preserves_step ].
Ltac calm_steps := repeat first [ progress intros | apply calm_try | apply calm_gets | preserves_step ].
