(* ===== verification/Async.v ===== *)
(** * Asynchronous functions: programs that await, and their interleavings

    An [async] function of the web station runs without a pause from one [await] to
    the next, and between two of them any other handler may run.  Here such a function
    is a tree: a synchronous step reads and writes the shared state [S]; an [await]
    puts a question [q] (start a process, read a file, fetch) and goes on with the
    answer, or with the error the awaited promise was rejected with.

    [always] is the program logic of these trees: what is asked, after which answers,
    what every step does to the state, and how the function ends, under any answers and
    any change of the state by others in between.  [reachable] is the event loop: a pool
    of suspended functions, any of which may be resumed next. *)

From stdpp Require Import relations.
From S2P Require Import Prelude.

Section async.
Context {S E Q : Type} {A : Q -> Type}.

Inductive prog (R : Type) : Type :=
  | Ret (r : R)
  | Throw (e : E)
  | Sync (X : Type) (f : S -> X * S) (k : X -> prog R)
  | Await (q : Q) (k : res E (A q) -> prog R).
Arguments Ret {R} r.
Arguments Throw {R} e.
Arguments Sync {R X} f k.
Arguments Await {R} q k.

Definition of_res {R} (r : res E R) : prog R := match r with Ok r => Ret r | Err e => Throw e end.

(** [attempt p] never throws: it hands over how [p] ended. *)
Fixpoint attempt {R R'} (p : prog R) (f : res E R -> prog R') : prog R' :=
  match p with
  | Ret r => f (Ok r)
  | Throw e => f (Err e)
  | Sync g k => Sync g (fun x => attempt (k x) f)
  | Await q k => Await q (fun a => attempt (k a) f)
  end.
Definition andThen {R R'} (p : prog R) (f : R -> prog R') : prog R' :=
  attempt p (fun r => match r with Ok r => f r | Err e => Throw e end).
(** [try { p } catch (e) { h e }] *)
Definition catching {R} (p : prog R) (h : E -> prog R) : prog R :=
  attempt p (fun r => match r with Ok r => Ret r | Err e => h e end).
(** [try { p } finally { f }] *)
Definition finally {R} (p : prog R) (f : prog unit) : prog R :=
  attempt p (fun r => andThen f (fun _ => of_res r)).
Definition sync {X} (f : S -> X * S) : prog X := Sync f Ret.
Definition update (f : S -> S) : prog unit := Sync (fun s => (tt, f s)) Ret.
Definition get {X} (f : S -> X) : prog X := Sync (fun s => (f s, s)) Ret.
Definition await (q : Q) : prog (A q) := Await q of_res.

(** ** The program logic

    [tr] is what was asked and answered so far.  [always G P F tr p]: every synchronous
    step of [p] keeps [G], every question is allowed by [P], and [p] ends as [F] says. *)
Definition exchange : Type := sigT (fun q => res E (A q)).
Section always.
Context (G : S -> S -> Prop) (P : list exchange -> Q -> Prop).

Fixpoint always {R} (F : list exchange -> res E R -> Prop) (tr : list exchange) (p : prog R) : Prop :=
  match p with
  | Ret r => F tr (Ok r)
  | Throw e => F tr (Err e)
  | Sync f k => forall s, G s (f s).2 /\ always F tr (k (f s).1)
  | Await q k => P tr q /\ forall a, always F (tr ++ [existT q a]) (k a)
  end.

Lemma always_mono {R} (F F' : list exchange -> res E R -> Prop) p tr :
  always F tr p -> (forall tr' r, F (tr ++ tr') r -> F' (tr ++ tr') r) -> always F' tr p.
Proof.
  revert tr. induction p as [r|e|X f k IH|q k IH]; intros tr H HF; cbn in *.
  - rewrite <- (app_nil_r tr). apply HF. by rewrite app_nil_r.
  - rewrite <- (app_nil_r tr). apply HF. by rewrite app_nil_r.
  - intros s. destruct (H s) as [? Hk]. split; [done|]. by apply IH.
  - destruct H as [? Hk]. split; [done|]. intros a. apply IH; [done|].
    intros tr' r. rewrite <- app_assoc. apply HF.
Qed.
Lemma always_attempt {R R'} (p : prog R) (f : res E R -> prog R') F tr :
  always (fun tr r => always F tr (f r)) tr p -> always F tr (attempt p f).
Proof.
  revert tr. induction p as [r|e|X g k IH|q k IH]; intros tr H; cbn in *; [done|done| |].
  - intros s. destruct (H s) as [? Hk]. split; [done|]. by apply IH.
  - destruct H as [? Hk]. split; [done|]. intros a. by apply IH.
Qed.
Lemma always_andThen {R R'} (p : prog R) (f : R -> prog R') F tr :
  always (fun tr r => match r with Ok r => always F tr (f r) | Err e => F tr (Err e) end) tr p ->
  always F tr (andThen p f).
Proof. intros H. apply always_attempt. eapply always_mono; [exact H|]. by intros tr' [r|e]. Qed.
Lemma always_catching {R} (p : prog R) h F tr :
  always (fun tr r => match r with Ok r => F tr (Ok r) | Err e => always F tr (h e) end) tr p ->
  always F tr (catching p h).
Proof. intros H. apply always_attempt. eapply always_mono; [exact H|]. by intros tr' [r|e]. Qed.
Lemma always_finally {R} (p : prog R) f F tr :
  always (fun tr r => always (fun tr u => F tr (match u with Ok _ => r | Err e => Err e end)) tr f) tr p ->
  always F tr (finally p f).
Proof.
  intros H. apply always_attempt. eapply always_mono; [exact H|]. intros tr' r Hf.
  apply always_andThen. eapply always_mono; [exact Hf|]. intros tr'' [u|e]; [|done]. by destruct r.
Qed.
Lemma always_get {X} (f : S -> X) F tr : (forall s, G s s) -> (forall s, F tr (Ok (f s))) -> always F tr (get f).
Proof. intros HG HF s. split; [apply HG|apply HF]. Qed.
Lemma always_sync {X} (f : S -> X * S) F tr :
  (forall s, G s (f s).2 /\ F tr (Ok (f s).1)) -> always F tr (sync f).
Proof. done. Qed.
Lemma always_update f (F : list exchange -> res E unit -> Prop) tr :
  (forall s, G s (f s)) -> F tr (Ok tt) -> always F tr (update f).
Proof. intros HG HF s. split; [apply HG|apply HF]. Qed.
Lemma always_await q F tr :
  P tr q -> (forall a, F (tr ++ [existT q a]) a) -> always F tr (await q).
Proof. intros HP HF. split; [done|]. intros a. specialize (HF a). by destruct a. Qed.
End always.

(** A program that is safe from the start is safe after [pre]. *)
Lemma always_after G P {R} (F : list exchange -> res E R -> Prop) pre tr p :
  always G (fun tr q => P (pre ++ tr) q) (fun tr r => F (pre ++ tr) r) tr p -> always G P F (pre ++ tr) p.
Proof.
  revert tr. induction p as [r|e|X f k IH|q k IH]; intros tr H; cbn in *; [done|done| |].
  - intros s. destruct (H s). split; [done|]. by apply IH.
  - destruct H as [? Hk]. split; [done|]. intros a. rewrite <- app_assoc. by apply IH.
Qed.
(** What holds of every question and every step holds of weaker demands. *)
Lemma always_weaken (G G' : S -> S -> Prop) P P' {R} (F : list exchange -> res E R -> Prop) tr p :
  (forall s s', G s s' -> G' s s') -> (forall tr q, P tr q -> P' tr q) ->
  always G P F tr p -> always G' P' F tr p.
Proof.
  intros HG HP. revert tr. induction p as [r|e|X f k IH|q k IH]; intros tr H; cbn in *; [done|done| |].
  - intros s. destruct (H s). split; [by apply HG|]. by apply IH.
  - destruct H as [? Hk]. split; [by apply HP|]. intros a. by apply IH.
Qed.
End async.

#[global] Arguments prog : clear implicits.
#[global] Arguments Ret {S E Q A R} r.
#[global] Arguments Throw {S E Q A R} e.
#[global] Arguments Sync {S E Q A R X} f k.
#[global] Arguments Await {S E Q A R} q k.
#[global] Arguments exchange {E Q} A.

(** ** The event loop

    A handler is started by an event under a label, runs to its first [await] and is parked;
    an answer resumes one parked function, whichever comes first.  A handler whose promise is
    rejected with nobody to catch it ends the process. *)
Section loop.
Context {S E Q L : Type} {A : Q -> Type}.
Abbreviation task := (prog S E Q A unit).

Fixpoint advance (p : task) (s : S) : task * S :=
  match p with
  | Sync f k => let '(x, s) := f s in advance (k x) s
  | p => (p, s)
  end.
(** Up to its end or its next question, [attempt p f] runs as [p] does. *)
Lemma advance_attempt (p : task) (f : res E unit -> task) s :
  match advance p s with
  | (Ret r, s') => advance (attempt p f) s = advance (f (Ok r)) s'
  | (Throw e, s') => advance (attempt p f) s = advance (f (Err e)) s'
  | (Await q k, s') => advance (attempt p f) s = (Await q (fun a => attempt (k a) f), s')
  | (Sync _ _, _) => False
  end.
Proof.
  revert s. induction p as [r|e|X g k IH|q k IH]; intros s; cbn; [done|done| |done].
  destruct (g s) as [x s']. apply IH.
Qed.
Definition parked (l : L) (p : task) : list (L * task) := match p with Await _ _ => [(l, p)] | _ => [] end.
Definition survives (p : task) : bool := match p with Throw _ => false | _ => true end.
Record loop := Loop { alive : bool; shared : S; tasks : list (L * task) }.
Definition resume (before : list (L * task)) (l : L) (p : task) (after : list (L * task)) (s : S) : loop :=
  let '(p, s) := advance p s in Loop (survives p) s (before ++ parked l p ++ after).

(** [handler] starts the functions, [answered] is what the platform may answer. *)
Context (handler : L -> task -> Prop) (answered : exchange (E := E) A -> Prop).
Inductive step : loop -> loop -> Prop :=
  | step_event l p s ts : handler l p -> step (Loop true s ts) (resume ts l p [] s)
  | step_answer before l q k after s (a : res E (A q)) :
      answered (existT q a) -> step (Loop true s (before ++ (l, Await q k) :: after)) (resume before l (k a) after s).
Definition reachable (s0 : S) : loop -> Prop := rtc step (Loop true s0 []).

(** What every handler keeps, the loop keeps, however its functions interleave: a relation [G]
    of the state to the first one, and for each parked function what it may still ask ([P]) and
    how it may end ([F]). *)
Context (G : S -> S -> Prop) `{!PreOrder G}.
Context (P : L -> list (exchange (E := E) A) -> Q -> Prop) (F : L -> list (exchange (E := E) A) -> res E unit -> Prop).
Definition safe (l : L) (p : task) : Prop := exists tr, Forall answered tr /\ always G (P l) (F l) tr p.
Definition all_safe (ts : list (L * task)) : Prop := Forall (fun t => safe t.1 t.2) ts.
Lemma advance_safe l tr p s :
  always G (P l) (F l) tr p -> G s (advance p s).2 /\ always G (P l) (F l) tr (advance p s).1.
Proof.
  revert s. induction p as [r|e|X f k IH|q k IH]; intros s H; cbn in *; [done..| |done].
  destruct (H s) as [Hs Hk]. destruct (f s) as [x s'] eqn:Ef. destruct (IH x s' Hk) as [? ?].
  split; [by etrans|done].
Qed.
Lemma parked_safe l p : safe l p -> all_safe (parked l p).
Proof. intros H. unfold all_safe. destruct p; cbn; auto. Qed.
Lemma resume_safe before l p after s :
  safe l p -> all_safe before -> all_safe after ->
  G s (shared (resume before l p after s)) /\ all_safe (tasks (resume before l p after s)) /\
  (alive (resume before l p after s) = false -> exists tr e, Forall answered tr /\ F l tr (Err e)).
Proof.
  intros (tr & Htr & Hp) Hb Ha. unfold resume. destruct (advance_safe l tr p s Hp) as [Hs Hp'].
  destruct (advance p s) as [p' s']. cbn [fst snd shared tasks alive] in *. split; [done|]. split.
  - apply Forall_app; split; [done|]. apply Forall_app; split; [|done]. apply parked_safe. by exists tr.
  - destruct p' as [|e| |]; try done. intros _. exists tr, e. by split.
Qed.
Lemma reachable_safe s0 c :
  (forall l p, handler l p -> safe l p) -> reachable s0 c ->
  G s0 (shared c) /\ all_safe (tasks c) /\
  (alive c = false -> exists l tr e, Forall answered tr /\ F l tr (Err e)).
Proof.
  intros Hh H. pattern c. eapply rtc_ind_r; [| |exact H].
  { split; [reflexivity|]. split; [by apply Forall_nil|done]. }
  clear c H. intros c c' _ Hstep (HG & Hts & _). unfold all_safe in Hts.
  destruct Hstep as [l p s ts Hl|before l q k after s a Ha]; cbn in HG, Hts.
  - destruct (resume_safe ts l p [] s) as (? & ? & Hd); [by eapply Hh|done|by apply Forall_nil|].
    split; [by etrans|]. split; [done|]. intros Halive. exists l. by apply Hd.
  - apply Forall_app in Hts as [Hb [(tr & Htr & _ & Hk) Haf]%Forall_cons]. cbn in Hk.
    destruct (resume_safe before l (k a) after s) as (? & ? & Hd); [|done|done|].
    { exists (tr ++ [existT q a]). split; [|done]. apply Forall_app. by split; [|apply Forall_singleton]. }
    split; [by etrans|]. split; [done|]. intros Halive. exists l. by apply Hd.
Qed.
End loop.
#[global] Arguments loop : clear implicits.

(** ** The event loop with its history

    What was asked and answered so far, by all functions together, is the history [h]; it only
    grows.  [holds I P F h p]: from a state that satisfies the invariant [I] every step of [p]
    leads to one that does, every question is allowed by [P] at the moment it is asked, and [p]
    ends as [F] says; at every [await] other functions may run, ask and be answered. *)
Section history.
Context {S E Q L : Type} {A : Q -> Type}.
Abbreviation task := (prog S E Q A unit).
Abbreviation past := (list (exchange (E := E) A)).
Context (I : past -> S -> Prop).
Context (P : past -> Q -> Prop).

Fixpoint holds {R} (F : past -> res E R -> Prop) (h : past) (p : prog S E Q A R) : Prop :=
  match p with
  | Ret r => F h (Ok r)
  | Throw e => F h (Err e)
  | Sync f k => forall s, I h s -> I h (f s).2 /\ holds F h (k (f s).1)
  | Await q k => P h q /\ forall h' a, h ⊆ h' -> existT q a ∈ h' -> holds F h' (k a)
  end.
(** The continuation may rely on all that happened up to the end of [p]. *)
Lemma holds_mono {R} (F F' : past -> res E R -> Prop) p h :
  holds F h p -> (forall h' r, h ⊆ h' -> F h' r -> F' h' r) -> holds F' h p.
Proof.
  revert h. induction p as [r|e|X f k IH|q k IH]; intros h H HF; cbn in *; [by apply HF..| |].
  - intros s Hs. destruct (H s Hs) as [? Hk]. split; [done|]. by apply IH.
  - destruct H as [? Hk]. split; [done|]. intros h' a Hh Ha. apply IH; [by apply Hk|].
    intros h'' r Hh'. apply HF. by etrans.
Qed.
Lemma holds_attempt {R R'} (p : prog S E Q A R) (f : res E R -> prog S E Q A R') F h :
  holds (fun h r => holds F h (f r)) h p -> holds F h (attempt p f).
Proof.
  revert h. induction p as [r|e|X g k IH|q k IH]; intros h H; cbn in *; [done|done| |].
  - intros s Hs. destruct (H s Hs) as [? Hk]. split; [done|]. by apply IH.
  - destruct H as [? Hk]. split; [done|]. intros h' a Hh Ha. apply IH. by apply Hk.
Qed.
Lemma holds_andThen {R R'} (p : prog S E Q A R) (f : R -> prog S E Q A R') F h :
  holds (fun h r => match r with Ok r => holds F h (f r) | Err e => F h (Err e) end) h p ->
  holds F h (andThen p f).
Proof. intros H. apply holds_attempt. eapply holds_mono; [exact H|]. by intros h' [r|e]. Qed.
Lemma holds_catching {R} (p : prog S E Q A R) g F h :
  holds (fun h r => match r with Ok r => F h (Ok r) | Err e => holds F h (g e) end) h p ->
  holds F h (catching p g).
Proof. intros H. apply holds_attempt. eapply holds_mono; [exact H|]. by intros h' [r|e]. Qed.
Lemma holds_finally {R} (p : prog S E Q A R) f F h :
  holds (fun h r => holds (fun h u => F h (match u with Ok _ => r | Err e => Err e end)) h f) h p ->
  holds F h (finally p f).
Proof.
  intros H. apply holds_attempt. eapply holds_mono; [exact H|]. intros h' r Hh Hf.
  apply holds_andThen. eapply holds_mono; [exact Hf|]. intros h'' [u|e] Hh'; [|done]. by destruct r.
Qed.
Lemma holds_get {X} (f : S -> X) (F : past -> res E X -> Prop) h :
  (forall s, I h s -> F h (Ok (f s))) -> holds F h (get f).
Proof. intros HF s Hs. split; [done|]. by apply HF. Qed.
Lemma holds_update f (F : past -> res E unit -> Prop) h :
  (forall s, I h s -> I h (f s)) -> F h (Ok tt) -> holds F h (update f).
Proof. intros HI HF s Hs. split; [by apply HI|done]. Qed.
Lemma holds_sync {X} (f : S -> X * S) (F : past -> res E X -> Prop) h :
  (forall s, I h s -> I h (f s).2 /\ F h (Ok (f s).1)) -> holds F h (sync f).
Proof. intros HF s Hs. by apply HF. Qed.
Lemma holds_await q F h :
  P h q -> (forall h' a, h ⊆ h' -> existT q a ∈ h' -> F h' a) -> holds F h (await q).
Proof. intros HP HF. split; [done|]. intros h' a Hh Ha. specialize (HF h' a Hh Ha). by destruct a. Qed.
Lemma holds_of_res {R} (r : res E R) (F : past -> res E R -> Prop) h : F h r -> holds F h (of_res r).
Proof. by destruct r. Qed.

(** One step of the loop, with the history before and after it. *)
Context (handler : L -> task -> Prop).
Inductive recorded : past * loop S E Q L A -> past * loop S E Q L A -> Prop :=
  | recorded_event h l p s ts : handler l p -> recorded (h, Loop true s ts) (h, resume ts l p [] s)
  | recorded_answer h before l q k after s (a : res E (A q)) :
      recorded (h, Loop true s (before ++ (l, Await q k) :: after)) (h ++ [existT q a], resume before l (k a) after s).
Definition happens (s0 : S) (h : past) (c : loop S E Q L A) : Prop := rtc recorded ([], Loop true s0 []) (h, c).

Context (I_mono : forall h h' s, h ⊆ h' -> I h s -> I h' s) (P_mono : forall h h' q, h ⊆ h' -> P h q -> P h' q).
Context (F : past -> res E unit -> Prop).
(** A suspended function still holds when more has happened meanwhile. *)
Definition waits (h : past) (t : L * task) : Prop :=
  match t.2 with Await q k => holds F h (Await q k) | _ => False end.
Lemma waits_mono h h' t : h ⊆ h' -> waits h t -> waits h' t.
Proof.
  unfold waits. intros Hh. destruct t.2 as [| | |q k]; try done. intros [HP Hk]. split; [by eapply P_mono|].
  intros h'' a Hh'. apply Hk. by etrans.
Qed.
Lemma advance_holds h l p s :
  I h s -> holds F h p -> I h (advance p s).2 /\ Forall (waits h) (parked l (advance p s).1) /\
  match (advance p s).1 with Throw e => F h (Err e) | _ => True end.
Proof.
  revert s. induction p as [r|e|X f k IH|q k IH]; intros s Hs H; cbn in *.
  - by split_and!; [|apply Forall_nil|].
  - by split_and!; [|apply Forall_nil|].
  - destruct (H s Hs) as [Hs' Hk]. destruct (f s) as [x s']. by apply IH.
  - split; [done|]. split; [|done]. by apply Forall_singleton.
Qed.
Lemma resume_holds h before l p after s :
  I h s -> holds F h p -> Forall (waits h) before -> Forall (waits h) after ->
  let c := resume before l p after s in
  I h (shared c) /\ Forall (waits h) (tasks c) /\ (alive c = false -> exists e, F h (Err e)).
Proof.
  intros Hs Hp Hb Ha. unfold resume. destruct (advance_holds h l p s Hs Hp) as (Hs' & Hw & He).
  destruct (advance p s) as [p' s']. cbn [fst snd shared tasks alive] in *. split; [done|]. split.
  - apply Forall_app; split; [done|]. by apply Forall_app.
  - destruct p' as [|e| |]; try done. intros _. by exists e.
Qed.
(** The invariant and the demands on questions hold at every moment, whatever happened. *)
Definition in_order (c : past * loop S E Q L A) : Prop :=
  I c.1 (shared c.2) /\ Forall (waits c.1) (tasks c.2) /\ (alive c.2 = false -> exists h e, F h (Err e)).
Lemma recorded_in_order c c' :
  (forall l p h, handler l p -> holds F h p) -> recorded c c' -> in_order c -> in_order c'.
Proof.
  intros Hh [h l p s ts Hl|h before l q k after s a] (Hs & Hts & _); cbn in Hs, Hts; unfold in_order; cbn [fst snd].
  - destruct (resume_holds h ts l p [] s) as (? & ? & Hd); [done|by eapply Hh|done|by apply Forall_nil|].
    split_and!; [done..|]. intros Hal. exists h. by apply Hd.
  - assert (h ⊆ h ++ [existT q a]) as Hsub by (apply list_subseteq_app_l; reflexivity).
    apply Forall_app in Hts as [Hb [[_ Hk] Haf]%Forall_cons].
    destruct (resume_holds (h ++ [existT q a]) before l (k a) after s) as (? & ? & Hd).
    + by eapply I_mono.
    + apply Hk; [done|]. apply elem_of_app. right. by apply list_elem_of_singleton.
    + eapply Forall_impl; [exact Hb|]. intros t. by apply waits_mono.
    + eapply Forall_impl; [exact Haf|]. intros t. by apply waits_mono.
    + split_and!; [done..|]. intros Hal. eexists. by apply Hd.
Qed.
Lemma happens_holds s0 h c :
  I [] s0 -> (forall l p h, handler l p -> holds F h p) -> happens s0 h c -> in_order (h, c).
Proof.
  intros H0 Hh H. pattern (h, c). eapply rtc_ind_r; [| |exact H].
  - split; [done|]. split; [by apply Forall_nil|done].
  - intros c1 c2 _ Hstep. by apply recorded_in_order.
Qed.
(** Every question of the history was allowed by what had happened before its answer. *)
Lemma happens_allowed s0 h c before q a after :
  I [] s0 -> (forall l p h, handler l p -> holds F h p) -> happens s0 h c ->
  h = before ++ existT q a :: after -> P before q.
Proof.
  intros H0 Hh H. revert before q a after. change h with (h, c).1. pattern (h, c). eapply rtc_ind_r; [| |exact H].
  - intros before q a after Eh. by destruct before.
  - intros c1 c2 H1 Hstep IH before q a after. assert (in_order c1) as (_ & Hts & _).
    { destruct c1 as [h1 c1]. by eapply happens_holds. }
    destruct Hstep as [h1 l p s ts Hl|h1 earlier l q1 k later s a1]; [apply IH|]. cbn [fst snd tasks] in *. intros Eh.
    destruct after as [|x after _] using rev_ind.
    + apply app_inj_tail in Eh as [-> [= -> _]]. by apply Forall_app in Hts as [_ [[? _] _]%Forall_cons].
    + rewrite app_comm_cons, app_assoc in Eh. apply app_inj_tail in Eh as [-> _]. by eapply IH.
Qed.
End history.

(** A run that is computed: an event under a label, or an answer to one parked function. *)
Section play.
Context {S E Q L : Type} {A : Q -> Type} (run : L -> prog S E Q A unit).
Inductive move := Occurs (l : L) | Answered (position : nat) (reply : forall q, res E (A q)).
Definition move_step (c : list (exchange A) * loop S E Q L A) (m : move) : list (exchange A) * loop S E Q L A :=
  let '(h, Loop alive s ts) := c in
  if alive then
    match m with
    | Occurs l => (h, resume ts l (run l) [] s)
    | Answered position reply =>
        match ts !! position with
        | Some (l, Await q k) =>
            (h ++ [existT q (reply q)], resume (take position ts) l (k (reply q)) (drop (Datatypes.S position) ts) s)
        | _ => c
        end
    end
  else c.
Definition play (s0 : S) (moves : list move) : list (exchange A) * loop S E Q L A :=
  fold_left move_step moves ([], Loop true s0 []).
Lemma move_recorded handler c m : (forall l, handler l (run l)) -> rtc (recorded handler) c (move_step c m).
Proof.
  intros Hh. destruct c as [h [[] s ts]]; [|apply rtc_refl]. destruct m as [l|position reply]; cbn [move_step].
  - apply rtc_once, recorded_event, Hh.
  - destruct (ts !! position) as [[l [| | |q k]]|] eqn:Et; try apply rtc_refl.
    rewrite <- (take_drop_middle _ _ _ Et) at 1. apply rtc_once, recorded_answer.
Qed.
Lemma play_happens handler s0 moves :
  (forall l, handler l (run l)) -> happens handler s0 (play s0 moves).1 (play s0 moves).2.
Proof.
  intros Hh. unfold happens. rewrite <- surjective_pairing. unfold play.
  generalize (@nil (exchange (E := E) A), @Loop S E Q L A true s0 []). induction moves as [|m moves IH]; intros c; [apply rtc_refl|].
  cbn [fold_left]. etrans; [by apply move_recorded|apply IH].
Qed.
End play.

Declare Scope async_scope.
Delimit Scope async_scope with async.
Notation "x <~ m ; k" := (andThen m (fun x => k))
  (at level 100, m at next level, right associativity) : async_scope.
Notation "m ;~ k" := (andThen m (fun _ => k))
  (at level 100, right associativity) : async_scope.
