(* ===== verification/Home.v ===== *)
(** * The operator's directory: [apps/cli/src/runtime/globalPaths.ts]

    Where profiles, keys, logs and the global configuration live, and the functions that read
    and write them.  Theorems: choosing an active profile and reading it back, without losing
    what else the configuration says; a profile's key, made once, is the same forever and is a
    key the store accepts; where a callsign's directory lies. *)

From stdpp Require Import gmap.
From S2P Require Import Prelude JsString Json JsMap Base64Url WellFormed Platform Effects NodePath Pretty Config Outbound Files.

Definition DEFAULT_RELAY_URL : jstr := js "https://depr.tail5a88fb.ts.net:8443".
Definition DEFAULT_PORT : Z := 3001.
Definition private_file : Z := octal 6 0 0.
Definition private_dir : Z := octal 7 0 0.

(** ** Paths, from the home of the process *)

(** [process.env.ECHOLET_HOME || path.join(os.homedir(), ".echolet")] *)
Definition getEcholetHome (environment : list (jstr * jstr)) (homedir : jstr) : jstr :=
  match get (js "ECHOLET_HOME") environment with
  | Some (u :: home) => u :: home
  | _ => path_join [homedir; js ".echolet"]
  end.

Section home.
Context (home : jstr).
Definition getProfilesDir : jstr := path_join [home; js "profiles"].
Definition getProfileDir (callsign : jstr) : jstr := path_join [getProfilesDir; callsign].
Definition getStoreKeyPath (callsign : jstr) : jstr := path_join [getProfileDir callsign; js "store.key"].
Definition getClientDbPath (callsign : jstr) : jstr := path_join [getProfileDir callsign; js "client.sqlite"].
Definition getCardPath (callsign : jstr) : jstr := path_join [getProfileDir callsign; js "identity.card.json"].
Definition getProfileConfigPath (callsign : jstr) : jstr := path_join [getProfileDir callsign; js "config.json"].
Definition getRunDir : jstr := path_join [home; js "run"].
Definition getLogsDir : jstr := path_join [home; js "logs"].
Definition getRepeaterDir : jstr := path_join [home; js "repeater"].
Definition getRepeaterEnvPath : jstr := path_join [getRepeaterDir; js "config.env"].
Definition getRepeaterDbPath : jstr := path_join [getRepeaterDir; js "data"].
Definition global_config_path : jstr := path_join [home; js "config.json"].

(** ** Reading and writing *)

Section operations.
Context {W : Type}.
Abbreviation Op := (M (machine W)).

Definition ensureKeyPermissions (filePath : jstr) : Op unit := fs_chmod filePath private_file.
Definition echolet_dirs : list jstr := [home; getProfilesDir; getRepeaterDir; getRunDir; getLogsDir].
Definition ensureEcholetDirs : Op unit :=
  forM echolet_dirs (fun dir => fs_mkdir dir private_dir;; fs_chmod dir private_dir).
(** [ensureGlobalDirs] also answers the paths. *)
Definition ensureGlobalDirs : Op jstr := ensureEcholetDirs;; ret getRepeaterDir.

Definition write_config_file (config : json) : Op unit :=
  fs_write global_config_path (pretty_json config) private_file;; fs_chmod global_config_path private_file.
(** The text of an existing file, or [None] when it cannot be read. *)
Definition try_read (path : jstr) : Op (option jstr) := catch (text <- fs_read path; ret (Some text)) (fun _ => ret None).
Definition getActiveProfile : Op (option jstr) :=
  exists_ <- fs_exists global_config_path;
  if exists_
  then content <- try_read global_config_path;
       ret match content with
           | Some content =>
               match parse content with
               | Some (JObj parsed) =>
                   match obj_get (js "activeProfile") parsed with
                   | Some (JStr name) => match trim name with [] => None | name => Some name end
                   | _ => None
                   end
               | _ => None
               end
           | None => None
           end
  else ret None.
Definition initial_config : list (jstr * json) :=
  [(js "defaultRelayUrl", JStr DEFAULT_RELAY_URL); (js "defaultPort", JNum DEFAULT_PORT)].
Definition setActiveProfile (callsign : jstr) : Op unit :=
  ensureEcholetDirs;;
  exists_ <- fs_exists global_config_path;
  current <- (if exists_
              then content <- try_read global_config_path;
                   ret match content with
                       | Some content => match parse content with Some (JObj parsed) => parsed | _ => [] end
                       | None => []
                       end
              else ret initial_config);
  write_config_file (JObj (obj_set (js "activeProfile") (JStr callsign) current)).
Definition listProfiles : Op (list jstr) :=
  exists_ <- fs_exists getProfilesDir;
  if exists_
  then catch (found <- fs_readdir getProfilesDir; ret (map fst (List.filter (fun e => is_dir (Some e.2)) found))) (fun _ => ret [])
  else ret [].
Definition getGlobalConfig : Op json :=
  ensureEcholetDirs;;
  exists_ <- fs_exists global_config_path;
  if exists_
  then content <- try_read global_config_path;
       ret match content with
           | Some content => match parse content with Some config => config | None => JObj initial_config end
           | None => JObj initial_config
           end
  else write_config_file (JObj initial_config);; ret (JObj initial_config).
Definition saveGlobalConfig (config : json) : Op unit := ensureEcholetDirs;; write_config_file config.
(** [config.key] and [config.key = value] on what a file may hold: reading a member of [null]
    throws, and so does, in a module, assigning one to [null] or to a primitive. *)
Definition config_member (key : jstr) (config : json) : Op (option json) :=
  match config with JNull => fail (js "TypeError") | config => ret (field key config) end.
Definition config_assign (key : jstr) (value : json) (config : json) : Op json :=
  match config with
  | JObj members => ret (JObj (obj_set key value members))
  | JArr l => ret (JArr l)
  | _ => fail (js "TypeError")
  end.

Definition getProfileKey `{!World W} (name : jstr) : Op jstr :=
  let dir := getProfileDir name in
  let keyPath := getStoreKeyPath name in
  exists_ <- fs_exists keyPath;
  if exists_ then content <- fs_read keyPath; ret (trim content)
  else bytes <- on_world (randomBytes 32);
       let key := encodeBase64Url bytes in
       made <- fs_exists dir;
       when (negb made) (fs_mkdir dir private_dir;; fs_chmod dir private_dir);;
       fs_write keyPath key private_file;;
       ensureKeyPermissions keyPath;;
       ret key.
End operations.
End home.

(** ** Where things lie *)

Section paths.
Context (root : list jstr) (Hroot : plain_path root).
Abbreviation home := (absolute_path root).
Lemma plain_snoc l name : plain_path l -> plain_segment name = true -> plain_path (l ++ [name]).
Proof. unfold plain_path. intros Hl Hn. by rewrite forallb_app, Hl; cbn; rewrite Hn. Qed.
Lemma home_entry name : plain_segment name = true -> path_join [home; name] = absolute_path (root ++ [name]).
Proof. by apply join_plain. Qed.
Lemma profiles_dir : getProfilesDir home = absolute_path (root ++ [js "profiles"]).
Proof. apply home_entry. vm_compute. reflexivity. Qed.
Lemma profiles_plain : plain_path (root ++ [js "profiles"]).
Proof. apply plain_snoc; [exact Hroot|vm_compute; reflexivity]. Qed.
Lemma profile_dir name : plain_segment name = true -> getProfileDir home name = absolute_path (root ++ [js "profiles"; name]).
Proof.
  intros Hn. unfold getProfileDir. rewrite profiles_dir, join_plain by (first [apply profiles_plain | exact Hn]).
  by rewrite <- app_assoc.
Qed.
Lemma profile_plain name : plain_segment name = true -> plain_path (root ++ [js "profiles"; name]).
Proof. intros Hn. change [js "profiles"; name] with ([js "profiles"] ++ [name]). rewrite app_assoc. by apply plain_snoc; [apply profiles_plain|]. Qed.
Lemma profile_file name file : plain_segment name = true -> plain_segment file = true ->
  path_join [getProfileDir home name; file] = absolute_path (root ++ [js "profiles"; name; file]).
Proof.
  intros Hn Hf. rewrite profile_dir by done. rewrite join_plain by (first [by apply profile_plain | done]). by rewrite <- app_assoc.
Qed.
Lemma config_path : global_config_path home = absolute_path (root ++ [js "config.json"]).
Proof. apply home_entry. vm_compute. reflexivity. Qed.

Lemma absolute_inj a b : plain_path a -> plain_path b -> absolute_path a = absolute_path b -> a = b.
Proof.
  intros Ha Hb E. injection E as E. destruct a as [|x a], b as [|y b]; [done|..].
  - destruct (join [slash] (y :: b)) eqn:Ej; [|done]. pose proof (segments_join (y :: b)) as Hj. rewrite Ej in Hj.
    specialize (Hj (fun H => ltac:(discriminate H)) Hb). injection Hj as <- <-. vm_compute in Hb. done.
  - destruct (join [slash] (x :: a)) eqn:Ej; [|done]. pose proof (segments_join (x :: a)) as Hj. rewrite Ej in Hj.
    specialize (Hj (fun H => ltac:(discriminate H)) Ha). injection Hj as <- <-. vm_compute in Ha. done.
  - rewrite <- (segments_join (x :: a)), <- (segments_join (y :: b)) by done. by rewrite E.
Qed.
End paths.

(** ** The active profile *)

Section active.
Context {W : Type} (home : jstr).
Abbreviation Op := (M (machine W)).
Abbreviation config := (global_config_path home).

Lemma ensure_steps (R : machine W -> machine W -> Prop) `{!PreOrder R} :
  (forall dir, preserves R (fs_mkdir dir private_dir)) -> (forall dir, preserves R (fs_chmod dir private_dir)) ->
  preserves R (ensureEcholetDirs home).
Proof. intros Hm Hc. unfold ensureEcholetDirs. apply preserves_forM; [apply _|]. intros dir. by apply preserves_bind; [apply _| |]. Qed.
Lemma dirs_content : preserves same_content (ensureEcholetDirs home : Op unit).
Proof. apply ensure_steps; [apply _|intros; apply content_mkdir|intros; apply content_chmod]. Qed.
Lemma dirs_calm : preserves stays_calm (ensureEcholetDirs home : Op unit).
Proof. apply ensure_steps; [apply _|intros; apply calm_try|intros; apply calm_try]. Qed.
Lemma try_read_calm path s : calm (W := W) s ->
  exists s', try_read path s = (Ok (read_content path (m_files s)), s') /\ m_files s' = m_files s /\ calm s'.
Proof.
  intros Hs. unfold try_read, catch, bind. destruct (read_content path (m_files s)) as [content|] eqn:Ec.
  - assert (exists mode, m_files s !! path = Some (FileNode content mode)) as [mode E].
    { unfold read_content in Ec. destruct (m_files s !! path) as [[c m|]|]; [|done|done]. injection Ec as ->. by eexists. }
    destruct (fs_read_total path content mode s Hs E) as (s' & -> & Hf & Hc). exists s'. by split.
  - pose proof (calm_try (W := W) (fun fs => option_map (fun content => (content, fs)) (read_content path fs)) s Hs) as Hc.
    unfold fs_read. destruct (fs_try _ s) as [[content|e] s'] eqn:E.
    + apply fs_try_ok in E as (fs & E & _). rewrite Ec in E. done.
    + apply fs_try_err in E as [Hf _]. exists s'. by split.
Qed.
Lemma settled_calm path text (s s' : machine W) :
  (fs_write path text private_file;; fs_chmod path private_file) s = (Ok tt, s') -> calm s -> calm s'.
Proof.
  intros H. enough (preserves stays_calm ((fs_write path text private_file;; fs_chmod path private_file) : Op unit)) as Hp.
  { specialize (Hp s). by rewrite H in Hp. }
  calm_steps.
Qed.
(** The members a configuration's text holds. *)
Definition members_of (content : jstr) : list (jstr * json) := match parse content with Some (JObj parsed) => parsed | _ => [] end.
Definition config_ok (fs : files) : Prop := forall content, read_content config fs = Some content -> json_ok (JObj (members_of content)) = true.
Lemma initial_ok : json_ok (JObj initial_config) = true.
Proof. vm_compute. reflexivity. Qed.
Lemma active_key : is_index (js "activeProfile") = false /\ forallb unit_ok (js "activeProfile") = true.
Proof. split; vm_compute; reflexivity. Qed.

(** The active profile is the one that was chosen.  Choosing a profile, where no operation
    of the file system fails, leaves a configuration only its owner can read, in which the
    choice is read back, every other member that was there is kept, and no other file has
    another content. *)
Theorem active_profile_read_back callsign (s s' : machine W) :
  calm s -> config_ok (m_files s) -> json_ok (JStr callsign) = true ->
  setActiveProfile home callsign s = (Ok tt, s') ->
  (getActiveProfile home s').1 = Ok (if eqb (trim callsign) [] then None else Some (trim callsign)) /\
  (exists members, m_files s' !! config = Some (FileNode (pretty_json (JObj members)) private_file) /\
     obj_get (js "activeProfile") members = Some (JStr callsign) /\
     forall content key, read_content config (m_files s) = Some content -> key <> js "activeProfile" ->
       obj_get key members = obj_get key (members_of content)) /\
  (forall path, path <> config -> read_content path (m_files s') = read_content path (m_files s)).
Proof.
  intros Hs Hconf Hname H. apply bind_ok in H as ([] & s1 & E1 & H).
  pose proof (dirs_calm s Hs) as Hs1. pose proof (dirs_content s) as Hc1. rewrite E1 in Hs1, Hc1. cbn [snd] in Hs1, Hc1. clear E1 Hs.
  apply bind_ok in H as (there & s2 & [-> ->]%fs_exists_read & H). apply bind_ok in H as (current & s3 & E & H).
  assert (m_files s3 = m_files s1 /\ calm s3 /\ json_ok (JObj current) = true /\
    (forall content, read_content config (m_files s) = Some content -> current = members_of content)) as (Hf3 & Hs3 & Hok & Hcur).
  { rewrite <- Hc1. unfold config_ok in Hconf. rewrite <- Hc1 in Hconf. destruct (m_files s1 !! config) as [n|] eqn:En.
    - destruct (try_read_calm config s1 Hs1) as (s4 & Er & Hf & Hc). unfold bind in E. rewrite Er in E. injection E as <- <-.
      split; [done|]. split; [done|]. destruct (read_content config (m_files s1)) as [content|]; [|done].
      split; [by apply Hconf|]. by intros c [= ->].
    - injection E as <- <-. split; [done|]. split; [done|]. split; [apply initial_ok|]. unfold read_content. by rewrite En. }
  assert (calm s') as Hs' by (by apply (settled_calm _ _ s3 s' H)).
  apply fs_put in H as [Hf' _]. rewrite Hf3 in Hf'. set (members := obj_set _ _ current) in *. destruct active_key as [Hi Hu].
  assert (json_ok (JObj members) = true) as Hm by (by apply obj_set_json_ok).
  assert (obj_get (js "activeProfile") members = Some (JStr callsign)) as Hget by (by apply obj_get_set_eq).
  split; [|split].
  - unfold getActiveProfile, fs_exists, gets. unfold bind at 1. cbv beta iota. rewrite Hf', lookup_insert_eq.
    destruct (try_read_calm config s' Hs') as (s4 & Er & _ & _). unfold bind. rewrite Er, Hf', read_content_insert, decide_True by done.
    rewrite parse_pretty by exact Hm. rewrite Hget. cbn [fst ret]. by destruct (trim callsign).
  - exists members. split; [by rewrite Hf', lookup_insert_eq|]. split; [exact Hget|]. intros content key Hr Hk.
    unfold members. rewrite obj_get_set_ne by done. by rewrite (Hcur content Hr).
  - intros path Hp. rewrite Hf', read_content_insert, decide_False by exact Hp. apply Hc1.
Qed.
End active.

(** ** The key of a profile *)

Section key.
Context {W : Type} `{!World W} (home : jstr).
(** [randomBytes(n)] gives [n] bytes. *)
Definition gives_bytes : Prop := forall n w, length (randomBytes n w).1 = n /\ Forall byte_range (randomBytes n w).1.

Lemma encoded_plain bs : Forall byte_range bs -> trim (encodeBase64Url bs) = encodeBase64Url bs.
Proof.
  intros Hb. apply trim_plain. rewrite encode_chars by done. apply forallb_Forall', Forall_map.
  eapply Forall_impl; [by apply sextets_ok|]. intros v Hv. cbn. destruct (url_char_facts v Hv) as (_ & _ & _ & Hu & _).
  unfold url_unit, is_digit in Hu. unfold is_js_space.
  assert (url_char v = 45 \/ 48 <= url_char v <= 57 \/ 65 <= url_char v <= 90 \/ url_char v = 95 \/ 97 <= url_char v <= 122) by lia. lia.
Qed.
Lemma key_read_again name key mode s : calm (W := W) s ->
  m_files s !! getStoreKeyPath home name = Some (FileNode key mode) ->
  exists s', getProfileKey home name s = (Ok (trim key), s') /\ m_files s' = m_files s.
Proof.
  intros Hs Hf. unfold getProfileKey, fs_exists, gets, bind. rewrite Hf.
  destruct (fs_read_total _ key mode s Hs Hf) as (s' & -> & Ef & _). by exists s'.
Qed.

(** A profile's key is made once.  The first call for a profile without one writes 32 random
    bytes, readable by the owner only, in the very form the store accepts as its key; every
    later call answers that key, whatever else happened to the files, and changes no file. *)
Theorem profile_key_kept name variable key (s s' : machine W) :
  gives_bytes -> m_files s !! getStoreKeyPath home name = None ->
  getProfileKey home name s = (Ok key, s') ->
  (exists bytes, readStoreKey variable (fun _ => Some key) = Ok bytes /\ key = encodeBase64Url bytes) /\
  m_files s' !! getStoreKeyPath home name = Some (FileNode key private_file) /\
  forall later mode, calm later -> m_files later !! getStoreKeyPath home name = Some (FileNode key mode) ->
    exists later', getProfileKey home name later = (Ok key, later') /\ m_files later' = m_files later.
Proof.
  intros Hb Hn H. unfold getProfileKey in H. apply bind_ok in H as (there & s0 & [-> ->]%fs_exists_read & H). rewrite Hn in H.
  apply bind_ok in H as (bs & s1 & E & H). destruct (Hb 32%nat (m_world s)) as [Hl Hr].
  assert (bs = (randomBytes 32 (m_world s)).1) as -> by (unfold on_world in E; destruct (randomBytes 32 (m_world s)); by injection E as <- _).
  set (bs := (randomBytes 32 (m_world s)).1) in *. clearbody bs. clear E.
  apply bind_ok in H as (made & s2 & _ & H). apply bind_ok in H as ([] & s3 & _ & H).
  apply bind_ok in H as ([] & s4 & E4 & H). apply bind_ok in H as ([] & s5 & E5 & H). injection H as <- <-.
  apply fs_write_ok in E4 as (mode & E4 & _ & _). unfold ensureKeyPermissions in E5.
  apply (fs_chmod_ok _ _ (encodeBase64Url bs) mode) in E5 as [E5 _]; [|by rewrite E4, lookup_insert_eq].
  split; [|split].
  - exists bs. split; [|done]. by apply (readStoreKey_exact variable).
  - by rewrite E5, lookup_insert_eq.
  - intros later mode' Hc Hf. destruct (key_read_again name _ mode' later Hc Hf) as (later' & E & Ef).
    exists later'. split; [|done]. by rewrite E, encoded_plain.
Qed.
End key.

(** ** Witnesses *)
Module HomeSample.
Import Toy.
Abbreviation machine := (machine Toy.world).
Definition home : jstr := js "/home/op/.echolet".
Definition start : machine := Machine ∅ [] [] [] [] None 7.
(** An operator has chosen a profile and made its key. *)
Definition chosen : machine := (setActiveProfile home (js " Radio ") start).2.
Definition keyed : res err jstr * machine := getProfileKey home (js "Radio") chosen.
Lemma bytes : gives_bytes (W := Toy.world).
Proof.
  intros n w. change (randomBytes n w).1 with (replicate n (Toy.byte w)). split; [by rewrite length_replicate|]. apply Forall_replicate. unfold byte_range, Toy.byte. lia.
Qed.
Lemma no_config : config_ok home (m_files start).
Proof. intros content. unfold read_content, start. cbn [m_files]. by rewrite lookup_empty. Qed.
End HomeSample.
Lemma active_profile_read_back_witness :
  (getActiveProfile HomeSample.home HomeSample.chosen).1 = Ok (if eqb (trim (js " Radio ")) [] then None else Some (trim (js " Radio "))).
Proof.
  apply (active_profile_read_back HomeSample.home (js " Radio ") HomeSample.start HomeSample.chosen (Forall_nil_2 _) HomeSample.no_config);
    vm_compute; reflexivity.
Defined.
Lemma profile_key_kept_witness :
  m_files HomeSample.keyed.2 !! getStoreKeyPath HomeSample.home (js "Radio")
  = Some (FileNode (ok_or [] HomeSample.keyed.1) private_file).
Proof.
  apply (profile_key_kept HomeSample.home (js "Radio") (js "ECHOLET_STORE_KEY") (ok_or [] HomeSample.keyed.1) HomeSample.chosen HomeSample.keyed.2
    HomeSample.bytes); vm_compute; reflexivity.
Defined.
(** A callsign that is no name leads out of the directory of profiles. *)
Lemma callsign_escapes : getProfileDir HomeSample.home (js "..") = HomeSample.home.
Proof. vm_compute. reflexivity. Qed.
