(* ===== verification/Repeater.v ===== *)
(** * The repeater's configuration: [apps/cli/src/operator/repeaterConfig.ts]

    What may stand in the repeater's environment file and in the arguments of [docker run].
    Theorems: a file that was written is read back entry by entry, and no value can start a
    variable of its own; whatever a file says, what is passed on to Docker is a callsign of
    letters and digits and a port on the loopback address, or nothing. *)

From stdpp Require Import list.
From S2P Require Import Prelude JsString JsMap.

Definition DEFAULT_REPEATER_PORT : Z := 8081.
Definition REPEATER_CONTAINER_NAME : jstr := js "echolet-relay".
Definition REPEATER_IMAGE : jstr := js "echolet-relay:latest".

Definition control_character (u : Z) : bool := ((0 <=? u) && (u <=? 0x1f)) || (u =? 0x7f).
Definition letter_or_digit (u : Z) : bool :=
  ((65 <=? u) && (u <=? 90)) || ((97 <=? u) && (u <=? 122)) || is_digit u.
Definition callsign_unit (u : Z) : bool := letter_or_digit u || (u =? 95) || (u =? 45).
(** [/^[A-Za-z0-9][A-Za-z0-9_-]{0,31}$/] *)
Definition callsign_pattern (s : jstr) : bool :=
  match s with u :: rest => letter_or_digit u && forallb callsign_unit rest && (length rest <=? 31)%nat | [] => false end.
Definition printable (value : jstr) : jstr := map (fun u => if control_character u then 63 else u) value.

(** The operations throw a [RepeaterConfigError]: its message is the error here. *)
Definition callsign_error (value : jstr) : jstr :=
  js "Недопустимый позывной " ++ 34 :: printable value
  ++ 34 :: js ": 1–32 символа, латинские буквы, цифры, " ++ [34; 45; 34] ++ js " и " ++ [34; 95; 34] ++ js ", начиная с буквы или цифры.".
Definition validateCallsign (value : jstr) : res jstr jstr :=
  let callsign := trim value in if callsign_pattern callsign then Ok callsign else Err (callsign_error value).
Definition port_error (text : jstr) : jstr :=
  js "Недопустимый порт " ++ 34 :: printable text ++ 34 :: js ": ожидается целое число от 1 до 65535.".
(** A run of digits is an integer or, when it is too long, infinite: above 65535 in any case. *)
Definition validatePort (value : jstr) : res jstr Z :=
  let text := trim value in
  let port := read_digits text in
  if negb (eqb text []) && forallb is_digit text && (1 <=? port) && (port <=? 65535) then Ok port else Err (port_error text).
Definition validateEnvValue (name value : jstr) : res jstr jstr :=
  if existsb control_character value
  then Err (js "Недопустимое значение " ++ name ++ js ": управляющие символы и переводы строки запрещены.")
  else Ok value.

Fixpoint format_lines (entries : list (jstr * jstr)) : res jstr (list jstr) :=
  match entries with
  | [] => Ok []
  | (name, value) :: entries =>
      res_bind (validateEnvValue name value) (fun value =>
      res_bind (format_lines entries) (fun lines => Ok ((name ++ 61 :: value) :: lines)))
  end.
Definition formatEnvFile (entries : list (jstr * jstr)) : res jstr jstr :=
  res_map (fun lines => join [10] lines ++ [10]) (format_lines entries).

(** [cfg[key] = value] for a string on an object literal: [__proto__] ignores it. *)
Definition assign (key value : jstr) (cfg : list (jstr * jstr)) : list (jstr * jstr) :=
  if eqb key (js "__proto__") then cfg else set key value cfg.
Definition parse_line (cfg : list (jstr * jstr)) (line : jstr) : list (jstr * jstr) :=
  match split_on 61 line with
  | (u :: key) :: (part :: rest) => assign (trim (u :: key)) (trim (join [61] (part :: rest))) cfg
  | _ => cfg
  end.
Definition parseEnvFile (raw : jstr) : list (jstr * jstr) := fold_left parse_line (split_on 10 raw) [].

Record RepeaterStartConfig := StartConfig { rc_callsign : jstr; rc_port : Z }.
(** [cfg.name || fallback] *)
Definition setting (name fallback : jstr) (cfg : list (jstr * jstr)) : jstr :=
  match get name cfg with Some (u :: value) => u :: value | _ => fallback end.
Definition resolveStartConfig (cfg : list (jstr * jstr)) : res jstr RepeaterStartConfig :=
  res_bind (validateCallsign (setting (js "ECHOLET_NODE_CALLSIGN") (js "LOCAL-REPEATER") cfg)) (fun callsign =>
  res_bind (validatePort (setting (js "ECHOLET_PORT") (show_Z DEFAULT_REPEATER_PORT) cfg)) (fun port =>
  Ok (StartConfig callsign port))).

Definition published (config : RepeaterStartConfig) : jstr := js "127.0.0.1:" ++ show_Z (rc_port config) ++ js ":8443".
Definition callsign_variable (config : RepeaterStartConfig) : jstr := js "ECHOLET_NODE_CALLSIGN=" ++ rc_callsign config.
Definition buildDockerRunArgs (config : RepeaterStartConfig) (dataDir : jstr) : list jstr :=
  [ js "run"; js "-d"; js "--name"; REPEATER_CONTAINER_NAME; js "--restart"; js "unless-stopped"; js "--user"; js "10001:10001";
    js "-p"; published config; js "-e"; js "ECHOLET_HTTP_ADDR=0.0.0.0:8443"; js "-e"; js "ECHOLET_DATA_DIR=/var/lib/echolet";
    js "-e"; callsign_variable config; js "-v"; dataDir ++ js ":/var/lib/echolet"; REPEATER_IMAGE ].

(** ** Reading what was written *)

(** A name of the file: no separator, no line end, nothing to trim. *)
Definition variable_name (name : jstr) : bool :=
  negb (eqb name []) && eqb (trim name) name && negb (existsb (fun u => (u =? 61) || (u =? 10)) name) && negb (eqb name (js "__proto__")).
Lemma variable_name_spec name : variable_name name = true ->
  (name <> []) /\ trim name = name /\ (61 ∉ name) /\ (10 ∉ name) /\ eqb name (js "__proto__") = false.
Proof.
  unfold variable_name. intros [[[Hn Ht]%andb_true_iff Hs]%andb_true_iff Hp]%andb_true_iff.
  apply negb_true_iff in Hn, Hs, Hp. apply eqb_true in Ht. apply eqb_neq in Hn.
  assert (forall u, u = 61 \/ u = 10 -> u ∉ name) as Hu.
  { intros u E Hin. apply not_true_iff_false in Hs. apply Hs, existsb_exists. exists u.
    split; [by apply list_elem_of_In|]. destruct E as [->| ->]; reflexivity. }
  split_and!; auto.
Qed.
Lemma control_free value u : existsb control_character value = false -> 0 <= u <= 31 -> u ∉ value.
Proof.
  intros H Hu Hin. apply not_true_iff_false in H. apply H, existsb_exists. exists u. split; [by apply list_elem_of_In|].
  unfold control_character. lia.
Qed.
Lemma format_lines_spec entries :
  format_lines entries = Ok (map (fun e => e.1 ++ 61 :: e.2) entries) /\ Forall (fun e => existsb control_character e.2 = false) entries \/
  exists message, format_lines entries = Err message /\ Exists (fun e => existsb control_character e.2 = true) entries.
Proof.
  induction entries as [|[name value] entries IH]; [by left|]. cbn [format_lines]. unfold validateEnvValue.
  destruct (existsb control_character value) eqn:Ec; cbn [res_bind].
  { right. eexists. split; [reflexivity|]. by apply Exists_cons_hd. }
  destruct IH as [[-> H]|(message & -> & H)]; cbn [res_bind].
  - left. split; [done|]. by apply Forall_cons.
  - right. exists message. split; [done|]. by apply Exists_cons_tl.
Qed.
Lemma split_lines lines : Forall (fun line => 10 ∉ line) lines ->
  exists empties, split_on 10 (join [10] lines ++ [10]) = lines ++ empties /\ Forall (eq []) empties.
Proof.
  induction 1 as [|line lines Hl Hls (empties & E & He)].
  { exists [[]; []]. split; [reflexivity|]. by repeat constructor. }
  destruct lines as [|line2 lines].
  - exists [[]]. cbn [join]. rewrite split_on_app by done. split; [reflexivity|]. by repeat constructor.
  - exists empties. split; [|done]. change (join [10] (line :: line2 :: lines)) with (line ++ [10] ++ join [10] (line2 :: lines)).
    rewrite <- !app_assoc. cbn [app]. rewrite split_on_app by done. by rewrite E.
Qed.
Lemma parse_entry cfg name value : variable_name name = true -> parse_line cfg (name ++ 61 :: value) = set name (trim value) cfg.
Proof.
  intros (Hn & Ht & He & _ & Hp)%variable_name_spec. unfold parse_line. rewrite split_on_app by done.
  destruct name as [|u name]; [done|]. pose proof (join_split 61 value) as Hj.
  destruct (split_on 61 value) as [|part rest] eqn:E; [by apply split_on_nonempty in E|].
  unfold assign. by rewrite Ht, Hj, Hp.
Qed.
Lemma parse_empties empties cfg : Forall (eq []) empties -> fold_left parse_line empties cfg = cfg.
Proof. intros H. revert cfg. induction H as [|e empties <- H IH]; intros cfg; [done|]. cbn [fold_left]. apply IH. Qed.
Lemma parse_entries entries cfg : Forall (fun e => variable_name e.1 = true) entries ->
  fold_left parse_line (map (fun e => e.1 ++ 61 :: e.2) entries) cfg = fold_left (fun cfg e => set e.1 (trim e.2) cfg) entries cfg.
Proof. intros H. revert cfg. induction H as [|e entries He H IH]; intros cfg; [done|]. cbn [map fold_left]. by rewrite parse_entry, IH. Qed.
Lemma set_all entries cfg : NoDup entries.*1 -> (forall k, k ∈ entries.*1 -> k ∉ keys cfg) ->
  fold_left (fun cfg e => set e.1 (trim e.2) cfg) entries cfg = cfg ++ map (fun e => (e.1, trim e.2)) entries.
Proof.
  revert cfg. induction entries as [|[k v] entries IH]; intros cfg; cbn [fold_left map fmap list_fmap fst snd]; [by rewrite app_nil_r|].
  intros [Hk Hd]%NoDup_cons Hf. rewrite (set_fresh k) by (apply Hf; by left). rewrite IH; [by rewrite <- app_assoc|done|].
  intros k' Hk'. unfold keys. rewrite fmap_app. intros [Hin|Hin]%elem_of_app.
  - by apply (Hf k'); [right|].
  - apply list_elem_of_singleton in Hin. cbn in Hin. by subst k'.
Qed.

Lemma written_entries entries text :
  Forall (fun e => variable_name e.1 = true) entries -> NoDup entries.*1 -> formatEnvFile entries = Ok text ->
  parseEnvFile text = map (fun e => (e.1, trim e.2)) entries.
Proof.
  intros Hn Hd. unfold formatEnvFile. destruct (format_lines_spec entries) as [[-> H]|(message & -> & H)]; cbn [res_map]; [|done].
  intros [= <-]. unfold parseEnvFile. destruct (split_lines (map (fun e => e.1 ++ 61 :: e.2) entries)) as (empties & -> & He).
  { apply Forall_map. eapply Forall_impl; [exact (proj2 (Forall_and _ entries) (conj Hn H))|]. intros [name value]. cbn.
    intros [(_ & _ & _ & H10 & _)%variable_name_spec Hv]. rewrite not_elem_of_app, not_elem_of_cons. split_and!; [done|done|].
    apply control_free; [done|lia]. }
  rewrite fold_left_app, parse_empties by done. rewrite parse_entries by done. rewrite set_all; [done|done|]. intros k _ Hk. by apply elem_of_nil in Hk.
Qed.
(** The environment file.  A file is written exactly when no value has a control character,
    a line end above all; then reading it gives the entries that were written, in their order,
    each with its own value, trimmed: no value can end its line, add a variable or change
    another's. *)
Theorem env_file_read_back entries :
  Forall (fun e => variable_name e.1 = true) entries -> NoDup entries.*1 ->
  (forall text, formatEnvFile entries = Ok text -> parseEnvFile text = map (fun e => (e.1, trim e.2)) entries) /\
  ((exists text, formatEnvFile entries = Ok text) <-> Forall (fun e => existsb control_character e.2 = false) entries).
Proof.
  intros Hn Hd. split; [intros text; by apply written_entries|]. unfold formatEnvFile.
  destruct (format_lines_spec entries) as [[-> H]|(message & -> & H)]; cbn [res_map].
  - split; [done|by eexists].
  - split; [by intros []|]. intros Hf. exfalso. rewrite Exists_exists in H. destruct H as (e & Hin & E).
    rewrite Forall_forall in Hf. specialize (Hf e Hin). cbn in Hf. congruence.
Qed.

(** ** What reaches Docker *)

Lemma validateCallsign_spec value callsign : validateCallsign value = Ok callsign -> callsign_pattern callsign = true /\ callsign = trim value.
Proof. unfold validateCallsign. destruct (callsign_pattern (trim value)) eqn:E; [|done]. by intros [= <-]. Qed.
Lemma validatePort_spec value port : validatePort value = Ok port -> 1 <= port <= 65535.
Proof. unfold validatePort. destruct (_ && _) eqn:E; [|done]. intros [= <-]. cbv zeta. lia. Qed.
Lemma callsign_units callsign : callsign_pattern callsign = true -> forallb callsign_unit callsign = true.
Proof.
  destruct callsign as [|u rest]; [done|]. cbn [callsign_pattern forallb]. intros [[Hu Hr]%andb_true_iff _]%andb_true_iff.
  unfold callsign_unit at 1. by rewrite Hu, Hr.
Qed.
Lemma callsign_free callsign u : callsign_pattern callsign = true -> callsign_unit u = false -> u ∉ callsign.
Proof.
  intros H%callsign_units Hu Hin. rewrite forallb_Forall', Forall_forall in H. specialize (H u Hin). congruence.
Qed.
Lemma callsign_trim callsign : callsign_pattern callsign = true -> trim callsign = callsign.
Proof.
  intros H%callsign_units. apply trim_plain. rewrite forallb_Forall' in *. eapply Forall_impl; [exact H|].
  intros u Hu. unfold callsign_unit, letter_or_digit, is_digit in Hu. unfold is_js_space.
  assert (u = 45 \/ 48 <= u <= 57 \/ 65 <= u <= 90 \/ u = 95 \/ 97 <= u <= 122) by lia. lia.
Qed.
Lemma valid_callsign callsign : callsign_pattern callsign = true -> validateCallsign callsign = Ok callsign.
Proof. intros H. unfold validateCallsign. by rewrite callsign_trim, H by done. Qed.
Lemma valid_port port : 1 <= port <= 65535 -> validatePort (show_Z port) = Ok port.
Proof.
  intros H. unfold validatePort. cbv zeta. rewrite trim_show_Z, show_Z_all_digits, show_Z_read by lia.
  rewrite (proj2 (eqb_neq _ _) (show_Z_nonempty port)). cbn [negb andb].
  by rewrite (proj2 (Z.leb_le 1 port)), (proj2 (Z.leb_le port 65535)) by lia.
Qed.
(** What is shown of a refused value cannot steer a terminal. *)
Definition harmless (message : jstr) : bool := forallb (fun u => negb (control_character u)) message.
Lemma printable_harmless value : harmless (printable value) = true.
Proof.
  unfold harmless, printable. apply forallb_map. intros u _. by destruct (control_character u) eqn:E; [|rewrite E].
Qed.
Lemma harmless_app a b : harmless (a ++ b) = harmless a && harmless b.
Proof. apply forallb_app. Qed.
Lemma callsign_error_harmless value : harmless (callsign_error value) = true.
Proof.
  unfold callsign_error. rewrite harmless_app. cbn [harmless forallb]. fold (harmless (printable value ++ 34 :: js ": 1–32 символа, латинские буквы, цифры, " ++ [34; 45; 34] ++ js " и " ++ [34; 95; 34] ++ js ", начиная с буквы или цифры.")).
  rewrite harmless_app, printable_harmless. vm_compute. reflexivity.
Qed.
Lemma port_error_harmless value : harmless (port_error value) = true.
Proof.
  unfold port_error. rewrite harmless_app. cbn [harmless forallb]. fold (harmless (printable value ++ 34 :: js ": ожидается целое число от 1 до 65535.")).
  rewrite harmless_app, printable_harmless. vm_compute. reflexivity.
Qed.
(** A literal is cut at a separator it has. *)
Definition separators : Prop :=
  (js "127.0.0.1:" = js "127.0.0.1" ++ [58] /\ js ":8443" = 58 :: js "8443") /\
  (js "ECHOLET_NODE_CALLSIGN=" = js "ECHOLET_NODE_CALLSIGN" ++ [61] /\ js ":/var/lib/echolet" = 58 :: js "/var/lib/echolet").
Lemma separators_hold : separators.
Proof. split; split; vm_compute; reflexivity. Qed.
Definition separators_fresh : Prop :=
  ((58 ∉ js "127.0.0.1") /\ (58 ∉ js "8443")) /\ ((61 ∉ js "ECHOLET_NODE_CALLSIGN") /\ (58 ∉ js "/var/lib/echolet")).
Lemma separators_fresh_hold : separators_fresh.
Proof.
  split; split.
  - refine (proj1 (bool_decide_eq_true (58 ∉ js "127.0.0.1")) _). vm_compute. reflexivity.
  - refine (proj1 (bool_decide_eq_true (58 ∉ js "8443")) _). vm_compute. reflexivity.
  - refine (proj1 (bool_decide_eq_true (61 ∉ js "ECHOLET_NODE_CALLSIGN")) _). vm_compute. reflexivity.
  - refine (proj1 (bool_decide_eq_true (58 ∉ js "/var/lib/echolet")) _). vm_compute. reflexivity.
Qed.
Lemma published_parts config : 0 <= rc_port config -> split_on 58 (published config) = [js "127.0.0.1"; show_Z (rc_port config); js "8443"].
Proof.
  intros Hp. unfold published. destruct separators_hold as [[-> ->] _], separators_fresh_hold as [[Ha Hb] _].
  rewrite <- app_assoc. cbn [app]. rewrite split_on_app by exact Ha. rewrite split_on_app by (apply show_Z_fresh; [reflexivity|lia]).
  rewrite (split_on_fresh _ _ Hb). reflexivity.
Qed.
Lemma variable_parts config : callsign_pattern (rc_callsign config) = true ->
  split_on 61 (callsign_variable config) = [js "ECHOLET_NODE_CALLSIGN"; rc_callsign config].
Proof.
  intros H. unfold callsign_variable. destruct separators_hold as [_ [-> _]], separators_fresh_hold as [_ [Ha _]].
  rewrite <- app_assoc. cbn [app]. rewrite split_on_app by exact Ha. rewrite split_on_fresh; [reflexivity|]. by apply callsign_free.
Qed.
Lemma volume_parts dataDir : 58 ∉ dataDir -> split_on 58 (dataDir ++ js ":/var/lib/echolet") = [dataDir; js "/var/lib/echolet"].
Proof.
  intros H. destruct separators_hold as [_ [_ ->]], separators_fresh_hold as [_ [_ Hb]]. rewrite split_on_app by exact H.
  rewrite (split_on_fresh _ _ Hb). reflexivity.
Qed.

(** Whatever stands in the environment file, Docker is given a safe command line or none.  A
    file is refused with a message that cannot steer the terminal, or gives a callsign of 1 to 32
    letters, digits, dashes and underscores that opens with none of the last two, and a port
    between 1 and 65535; the arguments then publish that port on the loopback address only, set
    that one variable, mount the data directory, and are fixed in every other place. *)
Theorem docker_argv_contained raw dataDir :
  match resolveStartConfig (parseEnvFile raw) with
  | Err message => harmless message = true
  | Ok config =>
      callsign_pattern (rc_callsign config) = true /\ 1 <= rc_port config <= 65535 /\
      let argv := buildDockerRunArgs config dataDir in
      option_map (split_on 58) (argv !! 9%nat) = Some [js "127.0.0.1"; show_Z (rc_port config); js "8443"] /\
      option_map (split_on 61) (argv !! 15%nat) = Some [js "ECHOLET_NODE_CALLSIGN"; rc_callsign config] /\
      (58 ∉ dataDir -> option_map (split_on 58) (argv !! 17%nat) = Some [dataDir; js "/var/lib/echolet"]) /\
      forall config' dataDir' i, i <> 9%nat -> i <> 15%nat -> i <> 17%nat -> argv !! i = buildDockerRunArgs config' dataDir' !! i
  end.
Proof.
  unfold resolveStartConfig. generalize (parseEnvFile raw). intros cfg.
  destruct (validateCallsign _) as [callsign|] eqn:Ec; cbn [res_bind].
  2:{ revert Ec. unfold validateCallsign. destruct (callsign_pattern _); [done|]. intros [= <-]. apply callsign_error_harmless. }
  destruct (validatePort _) as [port|] eqn:Ep; cbn [res_bind].
  2:{ revert Ep. unfold validatePort. destruct (_ && _); [done|]. intros [= <-]. apply port_error_harmless. }
  apply validateCallsign_spec in Ec as [Hc _]. apply validatePort_spec in Ep. split; [exact Hc|]. split; [exact Ep|]. cbv zeta.
  split; [|split; [|split]].
  - cbn [buildDockerRunArgs lookup list_lookup option_map]. rewrite published_parts by (cbn; lia). reflexivity.
  - cbn [buildDockerRunArgs lookup list_lookup option_map]. rewrite variable_parts by exact Hc. reflexivity.
  - intros Hd. cbn [buildDockerRunArgs lookup list_lookup option_map]. rewrite volume_parts by exact Hd. reflexivity.
  - intros config' dataDir' i H9 H15 H17. do 19 (destruct i as [|i]; [first [reflexivity | lia]|]). reflexivity.
Qed.

(** ** What [repeater setup] writes, [repeater start] reads *)

(** The entries of [handleRepeaterCommand]'s setup. *)
Definition setup_entries (callsign : jstr) (port : Z) (dataDir mode tlsCert tlsKey : jstr) : list (jstr * jstr) :=
  [ (js "ECHOLET_NODE_CALLSIGN", callsign); (js "ECHOLET_HTTP_ADDR", js "0.0.0.0:" ++ show_Z port); (js "ECHOLET_DATA_DIR", dataDir);
    (js "ECHOLET_LOG_LEVEL", js "info"); (js "ECHOLET_MODE", mode); (js "ECHOLET_PORT", show_Z port) ]
  ++ (if eqb tlsCert [] then [] else [(js "ECHOLET_TLS_CERT_FILE", tlsCert)])
  ++ (if eqb tlsKey [] then [] else [(js "ECHOLET_TLS_KEY_FILE", tlsKey)]).
Definition setup_names : list jstr :=
  [js "ECHOLET_NODE_CALLSIGN"; js "ECHOLET_HTTP_ADDR"; js "ECHOLET_DATA_DIR"; js "ECHOLET_LOG_LEVEL"; js "ECHOLET_MODE"; js "ECHOLET_PORT";
   js "ECHOLET_TLS_CERT_FILE"; js "ECHOLET_TLS_KEY_FILE"].
Lemma setup_names_ok : forallb variable_name setup_names = true.
Proof. vm_compute. reflexivity. Qed.
Lemma setup_names_distinct : NoDup setup_names.
Proof. refine (proj1 (bool_decide_eq_true (NoDup setup_names)) _). vm_compute. reflexivity. Qed.
Lemma optional_last {A} (l : list A) (x y : A) (b c : bool) :
  sublist (l ++ (if b then [] else [x]) ++ (if c then [] else [y])) (l ++ [x; y]).
Proof.
  apply sublist_app; [reflexivity|]. destruct b, c; cbn [app]; repeat constructor.
Qed.
Lemma setup_names_of callsign port dataDir mode tlsCert tlsKey :
  sublist (setup_entries callsign port dataDir mode tlsCert tlsKey).*1 setup_names.
Proof.
  pose proof (optional_last [js "ECHOLET_NODE_CALLSIGN"; js "ECHOLET_HTTP_ADDR"; js "ECHOLET_DATA_DIR"; js "ECHOLET_LOG_LEVEL"; js "ECHOLET_MODE";
    js "ECHOLET_PORT"] (js "ECHOLET_TLS_CERT_FILE") (js "ECHOLET_TLS_KEY_FILE") (eqb tlsCert []) (eqb tlsKey [])) as H.
  unfold setup_entries. by destruct (eqb tlsCert []), (eqb tlsKey []).
Qed.
(** The settings of a file that [start] looks at. *)
Lemma setup_settings (a b c d e f fallback : jstr) rest :
  let cfg := (js "ECHOLET_NODE_CALLSIGN", a) :: (js "ECHOLET_HTTP_ADDR", b) :: (js "ECHOLET_DATA_DIR", c) :: (js "ECHOLET_LOG_LEVEL", d)
             :: (js "ECHOLET_MODE", e) :: (js "ECHOLET_PORT", f) :: rest in
  get (js "ECHOLET_NODE_CALLSIGN") cfg = Some a /\ get (js "ECHOLET_MODE") cfg = Some e /\ get (js "ECHOLET_PORT") cfg = Some f.
Proof. cbv zeta. split; [vm_compute; reflexivity|split; vm_compute; reflexivity]. Qed.

(** What the setup wrote, the start accepts.  For any answers the setup took, and whatever
    the other answers were, the file it writes is read as the callsign and the port that were
    given, and as the mode. *)
Lemma setup_read_by_start callsignAnswer portAnswer dataDir mode tlsCert tlsKey callsign port text :
  validateCallsign callsignAnswer = Ok callsign -> validatePort portAnswer = Ok port ->
  formatEnvFile (setup_entries callsign port dataDir mode tlsCert tlsKey) = Ok text ->
  resolveStartConfig (parseEnvFile text) = Ok (StartConfig callsign port) /\
  setting (js "ECHOLET_MODE") (js "docker") (parseEnvFile text) = (if eqb (trim mode) [] then js "docker" else trim mode).
Proof.
  intros [Hc _]%validateCallsign_spec Hp%validatePort_spec Hf. pose proof (setup_names_of callsign port dataDir mode tlsCert tlsKey) as Hs.
  assert (parseEnvFile text = map (fun e => (e.1, trim e.2)) (setup_entries callsign port dataDir mode tlsCert tlsKey)) as ->.
  { apply written_entries; [|exact (sublist_NoDup _ _ setup_names_distinct Hs)|exact Hf].
    apply Forall_forall. intros e He. eapply forallb_In; [exact setup_names_ok|]. apply list_elem_of_In.
    refine (elem_of_sublist _ _ _ _ Hs). by apply list_elem_of_fmap_2. }
  unfold setup_entries. rewrite map_app. cbn [map app fst snd]. rewrite trim_show_Z, callsign_trim by (first [exact Hc | lia]).
  set (rest := map _ _). unfold resolveStartConfig, setting.
  destruct (setup_settings callsign (trim (js "0.0.0.0:" ++ show_Z port)) (trim dataDir) (trim (js "info")) (trim mode) (show_Z port) [] rest)
    as (-> & -> & ->).
  destruct (show_Z port) as [|u digits] eqn:Es; [by destruct (show_Z_nonempty port)|]. rewrite <- Es.
  destruct callsign as [|v callsign]; [done|]. rewrite (valid_callsign _ Hc), (valid_port _ Hp). cbn [res_bind].
  split; [reflexivity|]. by destruct (trim mode).
Qed.

(** ** Witnesses *)
Module RepeaterSample.
Definition entries : list (jstr * jstr) := [(js "A", js "1=2"); (js "B", js " x ")].
Definition text : jstr := js "A=1=2" ++ 10 :: js "B= x " ++ [10].
Lemma names : Forall (fun e => variable_name e.1 = true) entries.
Proof. repeat apply Forall_cons_2; [vm_compute; reflexivity|vm_compute; reflexivity|apply Forall_nil_2]. Qed.
Lemma distinct : NoDup entries.*1.
Proof. refine (proj1 (bool_decide_eq_true (NoDup entries.*1)) _). vm_compute. reflexivity. Qed.
Definition setup_text : jstr := ok_or [] (formatEnvFile (setup_entries (js "R-1") 9000 (js "/d") (js "native") [] [])).
End RepeaterSample.
Lemma env_file_read_back_witness : parseEnvFile RepeaterSample.text = [(js "A", js "1=2"); (js "B", js "x")].
Proof.
  rewrite (proj1 (env_file_read_back RepeaterSample.entries RepeaterSample.names RepeaterSample.distinct) RepeaterSample.text
    ltac:(vm_compute; reflexivity)). vm_compute. reflexivity.
Defined.
Lemma docker_argv_contained_witness :
  resolveStartConfig (parseEnvFile RepeaterSample.setup_text) = Ok (StartConfig (js "R-1") 9000) /\
  option_map (split_on 58) (buildDockerRunArgs (StartConfig (js "R-1") 9000) (js "/d") !! 9%nat) = Some [js "127.0.0.1"; show_Z 9000; js "8443"].
Proof.
  assert (resolveStartConfig (parseEnvFile RepeaterSample.setup_text) = Ok (StartConfig (js "R-1") 9000)) as E by (vm_compute; reflexivity).
  split; [exact E|]. pose proof (docker_argv_contained RepeaterSample.setup_text (js "/d")) as H. rewrite E in H.
  destruct H as (_ & _ & H & _). exact H.
Defined.
