(* ===== verification/Daemon.v ===== *)
(** * Background processes: [apps/cli/src/runtime/daemon.ts]

    A daemon is a detached child and a file with its process id.  Creating a process and sending
    a signal are parameters ([ProcessHost]).  Theorems: the life of a daemon, from its start
    through its status to its stop; which process a stop reaches, and that it reaches no other.
    A new file is assumed to get the mode of the usual mask, 022. *)

From stdpp Require Import gmap.
From S2P Require Import Prelude JsString Json JsMap Platform Effects NodePath Text Signal Outbound Files Home.

Record DaemonMeta := MkMeta {
  dm_pid : Z; dm_name : jstr; dm_command : json; dm_port : option json; dm_profile : option json; dm_startedAt : json }.

Inductive kill_signal := Probe | SIGTERM.
(** What [process.kill] does: the signal was sent, or an error with its code was thrown. *)
Inductive kill_result := Sent | KillFails (code : jstr).
Class ProcessHost (W : Type) := {
  (** [process.platform === "win32"] *)
  is_win32 : W -> bool;
  (** [spawn(cmd, args, { detached, stdio, env })]: it throws, or gives a child, with its pid
      when it was started *)
  spawn_detached : jstr -> list jstr -> list (jstr * jstr) -> jstr -> W -> res jstr (option Z) * W;
  process_kill : Z -> kill_signal -> W -> kill_result * W;
  (** [taskkill], whatever it answers *)
  taskkill : Z -> W -> W;
}.

Section daemon.
Context {W : Type} `{!World W} `{!ProcessHost W} (home : jstr).
Abbreviation Op := (M (machine W)).

Definition getPidPath (name : jstr) : jstr := path_join [getRunDir home; name ++ js ".pid"].
Definition getLogPath (name : jstr) : jstr := path_join [getLogsDir home; name ++ js ".log"].
(** [process.kill] throws where it does not send. *)
Definition isProcessAlive (pid : Z) : Op bool :=
  sent <- on_world (process_kill pid Probe);
  ret match sent with Sent => true | KillFails code => eqb code (js "EPERM") end.

(** [{ ...process.env, ...env }] *)
Definition merged_env (env environment : list (jstr * jstr)) : list (jstr * jstr) :=
  fold_left (fun e kv => set kv.1 kv.2 e) env environment.
Definition no_pid (name : jstr) : jstr := js "Failed to start daemon process '" ++ name ++ js "': child.pid is undefined".
Record started := Started { st_pid : Z; st_logPath : jstr }.
Definition startDaemon (name cmd : jstr) (args : list jstr) (env : list (jstr * jstr)) : Op started :=
  ensureEcholetDirs home;;
  let logPath := getLogPath name in
  fs_append logPath;;
  environment <- gets (fun s => merged_env env (m_environment s));
  child <- on_world (spawn_detached cmd args environment logPath);
  match child with
  | Err message => fail message
  | Ok (Some pid) =>
      if pid =? 0 then fail (no_pid name)
      else fs_write (getPidPath name) (show_Z pid) (octal 6 4 4);; ret (Started pid logPath)
  | Ok None => fail (no_pid name)
  end.

(** The pid a file's text says: a number, or the object earlier versions wrote. *)
Definition stored_pid (raw : jstr) : option Z :=
  match parseInt10 raw with
  | Some pid => Some pid
  | None =>
      if starts_with [123] raw
      then match parse raw with Some (JObj members) => parseInt10 (template (obj_get (js "pid") members)) | _ => None end
      else None
  end.
Definition not_running : err := ErrOther (js "Daemon is not running").
(** [stopDaemon] answers the pid, or that nothing runs. *)
Definition stop_process (pid : Z) : Op unit :=
  win32 <- gets (fun s => is_win32 (m_world s));
  if win32 then on_world (fun w => (tt, taskkill pid w)) else on_world (process_kill pid SIGTERM);; ret tt.
Definition unlink_quietly (path : jstr) : Op unit := catch (fs_unlink path) (fun _ => ret tt).
Definition stopDaemon (name : jstr) : Op (option Z) :=
  let pidFile := getPidPath name in
  there <- fs_exists pidFile;
  if there
  then content <- try_read pidFile;
       match option_map trim content with
       | Some (u :: raw) =>
           match stored_pid (u :: raw) with
           | Some pid => stop_process pid;; unlink_quietly pidFile;; ret (Some pid)
           | None => ret None
           end
       | _ => ret None
       end
  else ret None.

Record status := Status { ds_running : bool; ds_pid : option Z; ds_logPath : jstr; ds_meta : option DaemonMeta }.
Definition stopped (logPath : jstr) : status := Status false None logPath None.
(** [parsedMeta]: what JSON the text is; [pid] and the members read from it. *)
Definition or_empty (v : option json) : json :=
  match v with Some v => if truthy v then v else JStr [] | None => JStr [] end.
Definition read_meta (name raw : jstr) : option DaemonMeta :=
  let parsed := if starts_with [123] raw then match parse raw with Some (JObj members) => members | _ => [] end else [] in
  let pid := match obj_get (js "pid") parsed with Some (JNum pid) => Some pid | _ => parseInt10 raw end in
  option_map (fun pid => MkMeta pid name (or_empty (obj_get (js "command") parsed)) (obj_get (js "port") parsed)
                                (obj_get (js "profile") parsed) (or_empty (obj_get (js "startedAt") parsed))) pid.
Definition getDaemonStatus (name : jstr) : Op status :=
  let logPath := getLogPath name in
  let pidFile := getPidPath name in
  there <- fs_exists pidFile;
  if there
  then content <- try_read pidFile;
       match option_map trim content with
       | None => ret (stopped logPath)
       | Some [] => unlink_quietly pidFile;; ret (stopped logPath)
       | Some raw =>
           match read_meta name raw with
           | None => unlink_quietly pidFile;; ret (stopped logPath)
           | Some meta =>
               alive <- isProcessAlive (dm_pid meta);
               if alive then ret (Status true (Some (dm_pid meta)) logPath (Some meta))
               else unlink_quietly pidFile;; ret (stopped logPath)
           end
       end
  else ret (stopped logPath).

Definition startDaemonProcess (name execPath : jstr) (args : list jstr) (env : list (jstr * jstr)) (port : option Z) (profile : option jstr) :
    Op DaemonMeta :=
  result <- startDaemon name execPath args env;
  now <- on_world date_now;
  ret (MkMeta (st_pid result) name (JStr (execPath ++ js " " ++ join (js " ") args)) (option_map JNum port) (option_map JStr profile)
              (JStr (iso_text now))).

(** ** The life of a daemon *)

(** The processes, and what they are started with, are as they were. *)
Definition same_host (s s' : machine W) : Prop := m_world s' = m_world s /\ m_environment s' = m_environment s.
#[export] Instance same_host_preorder : PreOrder same_host.
Proof. split; [by intros s|]. intros s1 s2 s3 [? ?] [? ?]. by split; etrans. Qed.
Lemma host_try {A} (f : files -> option (A * files)) : preserves same_host (fs_try f).
Proof.
  intros s. destruct (fs_try f s) as [[a|e] s'] eqn:E; cbn [snd]; [apply fs_try_ok in E as (_ & _ & _ & H)|apply fs_try_err in E as [_ H]];
    by destruct H as (_ & _ & ? & _ & ?).
Qed.

Lemma host_try_read path : preserves same_host (try_read path : Op (option jstr)).
Proof.
  unfold try_read. apply preserves_catch; [apply _| |intros; apply preserves_ret; apply _].
  apply preserves_bind; [apply _|apply host_try|intros; apply preserves_ret; apply _].
Qed.

(** The file that [startDaemon] writes. *)
Definition recorded (name : jstr) (pid : Z) (fs : files) : Prop := read_content (getPidPath name) fs = Some (show_Z pid).
Lemma recorded_file name pid fs : recorded name pid fs -> exists mode, fs !! getPidPath name = Some (FileNode (show_Z pid) mode).
Proof.
  unfold recorded, read_content. destruct (fs !! getPidPath name) as [[content mode|]|]; [|done|done]. intros [= ->]. by exists mode.
Qed.
(** A start that answers a pid has started one process, and has written its pid. *)
Lemma startDaemon_ok name cmd args env s st s' : startDaemon name cmd args env s = (Ok st, s') ->
  recorded name (st_pid st) (m_files s') /\
  spawn_detached cmd args (merged_env env (m_environment s)) (getLogPath name) (m_world s) = (Ok (Some (st_pid st)), m_world s').
Proof.
  unfold startDaemon. intros H. apply bind_ok in H as ([] & s1 & E1 & H). apply bind_ok in H as ([] & s2 & E2 & H).
  assert (same_host s s2) as [Hw He].
  { etrans; [|pose proof (host_try (A := unit) _ s1 : same_host s1 (fs_append (getLogPath name) s1).2) as Ha; rewrite E2 in Ha; exact Ha].
    assert (same_host s (ensureEcholetDirs home s).2) as Hd by (apply ensure_steps; [apply _|intros; apply host_try|intros; apply host_try]).
    by rewrite E1 in Hd. }
  apply bind_ok in H as (environment & s3 & E3 & H). injection E3 as <- <-. apply bind_ok in H as (child & s4 & E4 & H).
  unfold on_world in E4. destruct (spawn_detached _ _ _ _ (m_world s2)) as [r w] eqn:Es. injection E4 as -> <-.
  destruct child as [[pid|]|]; [|done|done]. destruct (pid =? 0); [done|]. apply bind_ok in H as ([] & s5 & E5 & H). injection H as <- <-.
  apply fs_write_ok in E5 as (mode & Ef & _ & Hs). cbn [st_pid]. split.
  - unfold recorded. by rewrite Ef, read_content_insert, decide_True.
  - destruct Hs as (_ & _ & _ & _ & ->). by rewrite <- Hw, <- He.
Qed.
Lemma digits_no_brace pid : 0 <= pid -> starts_with [123] (show_Z pid) = false.
Proof.
  intros Hp. pose proof (show_Z_all_digits pid Hp) as H. destruct (show_Z pid) as [|u digits]; [done|]. cbn [forallb] in H.
  apply andb_true_iff in H as [Hu _]. unfold is_digit in Hu. unfold starts_with. cbn [length take]. apply eqb_neq. intros [= ->]. done.
Qed.
Lemma unlink_calm path content mode s : calm s -> m_files s !! path = Some (FileNode content mode) ->
  exists s', (unlink_quietly path : Op unit) s = (Ok tt, s') /\ m_files s' = base.delete path (m_files s) /\ calm s' /\ same_host s s'.
Proof.
  intros Hs E. unfold unlink_quietly, catch.
  destruct (fs_try_total (W := W) (fun fs => match fs !! path with Some (FileNode _ _) => Some (tt, base.delete path fs) | _ => None end)
    s tt (base.delete path (m_files s)) Hs) as (s' & E' & Hf & Hc); [by rewrite E|]. unfold fs_unlink. rewrite E'.
  exists s'. split_and!; [done|done|done|..]; pose proof (host_try (fun fs => match fs !! path with Some (FileNode _ _) => Some (tt, base.delete path fs) | _ => None end) s) as Hh;
    rewrite E' in Hh; by destruct Hh.
Qed.
Definition probed (pid : Z) (w : W) : bool :=
  match (process_kill pid Probe w).1 with Sent => true | KillFails code => eqb code (js "EPERM") end.
Definition bare_meta (name : jstr) (pid : Z) : DaemonMeta := MkMeta pid name (JStr []) None None (JStr []).
Definition shown (name : jstr) (pid : Z) (w : W) : status :=
  if probed pid w then Status true (Some pid) (getLogPath name) (Some (bare_meta name pid)) else stopped (getLogPath name).
Lemma read_meta_recorded name pid : 0 < pid -> read_meta name (show_Z pid) = Some (bare_meta name pid).
Proof. intros Hp. unfold read_meta. rewrite digits_no_brace by lia. cbn [obj_get]. by rewrite parseInt10_show. Qed.
Lemma isProcessAlive_run pid s : exists s', isProcessAlive pid s = (Ok (probed pid (m_world s)), s') /\
  m_files s' = m_files s /\ m_faults s' = m_faults s /\ m_world s' = (process_kill pid Probe (m_world s)).2.
Proof. unfold isProcessAlive, probed, on_world, bind. destruct (process_kill pid Probe (m_world s)) as [r w]. eexists. by split. Qed.
Lemma status_recorded name pid s : calm s -> recorded name pid (m_files s) -> 0 < pid ->
  exists s', getDaemonStatus name s = (Ok (shown name pid (m_world s)), s') /\
    m_files s' = (if probed pid (m_world s) then m_files s else base.delete (getPidPath name) (m_files s)) /\
    m_world s' = (process_kill pid Probe (m_world s)).2.
Proof.
  intros Hs Hr Hp. destruct (recorded_file _ _ _ Hr) as (mode & Ef). unfold getDaemonStatus, fs_exists, gets. unfold bind at 1. rewrite Ef.
  destruct (try_read_calm (getPidPath name) s Hs) as (s1 & E1 & Hf1 & Hs1). pose proof (host_try_read (getPidPath name) s) as [Hw1 _]. rewrite E1 in Hw1. cbn [snd] in Hw1.
  unfold bind at 1. rewrite E1, Hr. cbn [option_map]. rewrite trim_show_Z by lia.
  destruct (show_Z pid) as [|u digits] eqn:Ed; [by destruct (show_Z_nonempty pid)|]. rewrite <- Ed, read_meta_recorded by done.
  destruct (isProcessAlive_run pid s1) as (s2 & E2 & Hf2 & Hc2 & Hw2). unfold bind at 1. cbn [dm_pid bare_meta]. rewrite E2, Hw1.
  rewrite Hw1 in Hw2. unfold shown. destruct (probed pid (m_world s)); cbn [ret].
  { exists s2. split; [done|]. split; [by rewrite Hf2|done]. }
  destruct (unlink_calm (getPidPath name) (show_Z pid) mode s2) as (s3 & E3 & Hf3 & _ & Hw3 & _).
  { unfold calm. rewrite Hc2. exact Hs1. }
  { by rewrite Hf2, Hf1, Ed. }
  unfold bind. rewrite E3. exists s3. split; [done|]. by rewrite Hf3, Hf2, Hf1, Hw3.
Qed.
Definition signalled (pid : Z) (w : W) : W := if is_win32 w then taskkill pid w else (process_kill pid SIGTERM w).2.
Lemma stop_process_run pid s : exists s', stop_process pid s = (Ok tt, s') /\
  m_files s' = m_files s /\ m_faults s' = m_faults s /\ m_world s' = signalled pid (m_world s).
Proof.
  unfold stop_process, gets, signalled. unfold bind at 1. destruct (is_win32 (m_world s)); [by eexists|].
  unfold on_world, bind. destruct (process_kill pid SIGTERM (m_world s)) as [r w]. by eexists.
Qed.
Lemma stop_recorded name pid s : calm s -> recorded name pid (m_files s) -> 0 < pid ->
  exists s', stopDaemon name s = (Ok (Some pid), s') /\ m_files s' = base.delete (getPidPath name) (m_files s) /\
    m_world s' = signalled pid (m_world s).
Proof.
  intros Hs Hr Hp. destruct (recorded_file _ _ _ Hr) as (mode & Ef). unfold stopDaemon, fs_exists, gets. unfold bind at 1. rewrite Ef.
  destruct (try_read_calm (getPidPath name) s Hs) as (s1 & E1 & Hf1 & Hs1).
  pose proof (host_try_read (getPidPath name) s) as [Hw1 _]. rewrite E1 in Hw1. cbn [snd] in Hw1.
  unfold bind at 1. rewrite E1, Hr. cbn [option_map]. rewrite trim_show_Z by lia.
  destruct (show_Z pid) as [|u digits] eqn:Ed; [by destruct (show_Z_nonempty pid)|]. unfold stored_pid. rewrite <- Ed, parseInt10_show by done.
  destruct (stop_process_run pid s1) as (s2 & E2 & Hf2 & Hc2 & Hw2). unfold bind at 1. rewrite E2.
  destruct (unlink_calm (getPidPath name) (show_Z pid) mode s2) as (s3 & E3 & Hf3 & _ & Hw3 & _).
  { unfold calm. rewrite Hc2. exact Hs1. }
  { by rewrite Hf2, Hf1, Ed. }
  unfold bind. rewrite E3. exists s3. split; [done|]. by rewrite Hf3, Hf2, Hf1, Hw3, Hw2, Hw1.
Qed.
Lemma absent_run name s : m_files s !! getPidPath name = None ->
  stopDaemon name s = (Ok None, s) /\ getDaemonStatus name s = (Ok (stopped (getLogPath name)), s).
Proof. intros E. unfold stopDaemon, getDaemonStatus, fs_exists, gets, bind. by rewrite E. Qed.

(** C26: The life of a daemon.  A start that succeeds has started one process with the command it
    was given and recorded its pid.  As long as that record stands and the file system works:
    the status says running, with that pid, exactly when the process answers or belongs to
    another user, and otherwise drops the stale record; a stop sends one signal, to that pid,
    and drops the record; and without a record a stop reaches no process and both say that
    nothing runs. *)
Theorem daemon_lifecycle name cmd args env s st s1 later :
  startDaemon name cmd args env s = (Ok st, s1) -> 0 < st_pid st ->
  calm later -> read_content (getPidPath name) (m_files later) = read_content (getPidPath name) (m_files s1) ->
  spawn_detached cmd args (merged_env env (m_environment s)) (getLogPath name) (m_world s) = (Ok (Some (st_pid st)), m_world s1) /\
  (exists s2, getDaemonStatus name later = (Ok (shown name (st_pid st) (m_world later)), s2) /\
     m_files s2 = (if probed (st_pid st) (m_world later) then m_files later else base.delete (getPidPath name) (m_files later)) /\
     m_world s2 = (process_kill (st_pid st) Probe (m_world later)).2) /\
  (exists s2, stopDaemon name later = (Ok (Some (st_pid st)), s2) /\ m_files s2 = base.delete (getPidPath name) (m_files later) /\
     m_world s2 = signalled (st_pid st) (m_world later) /\
     stopDaemon name s2 = (Ok None, s2) /\ getDaemonStatus name s2 = (Ok (stopped (getLogPath name)), s2)).
Proof.
  intros [Hr Hspawn]%startDaemon_ok Hp Hc Hsame. unfold recorded in Hr. rewrite <- Hsame in Hr. split; [exact Hspawn|]. split.
  - by apply status_recorded.
  - destruct (stop_recorded name (st_pid st) later Hc Hr Hp) as (s2 & E & Hf & Hw). exists s2. split; [done|]. split; [done|].
    split; [done|]. apply absent_run. by rewrite Hf, lookup_delete_eq.
Qed.
(** The port that [startDaemonProcess] answers is not in the record: the status knows none. *)
Lemma port_forgotten name pid w : option_map dm_port (ds_meta (shown name pid w)) = if probed pid w then Some None else None.
Proof. unfold shown. by destruct (probed pid w). Qed.
End daemon.

(** ** Witnesses *)
Module DaemonSample.
Import Toy.
(** The process 42 starts and answers; a stopped one is gone. *)
#[export] Instance host : ProcessHost Toy.world := {|
  is_win32 _ := false;
  spawn_detached _ _ _ _ w := (Ok (Some 42), w + 1);
  process_kill pid signal w := match signal with Probe => (Sent, w) | SIGTERM => (Sent, w + 100) end;
  taskkill _ w := w;
|}.
Definition home : jstr := js "/home/op/.echolet".
Definition start : machine Toy.world := Machine ∅ [] [] [] [] None 7.
Definition run := startDaemon home (js "station") (js "node") [js "server.js"] [] start.
(** The record of the process cannot be written: eleven operations succeed, the twelfth fails. *)
Definition unlucky : machine Toy.world := Machine ∅ (replicate 11 false ++ [true]) [] [] [] None 7.
Definition unlucky_run := startDaemon home (js "station") (js "node") [js "server.js"] [] unlucky.
Definition stop (s : machine Toy.world) := stopDaemon home (js "station") s.
End DaemonSample.
Lemma daemon_lifecycle_witness : exists s2,
  DaemonSample.stop DaemonSample.run.2 = (Ok (Some 42), s2) /\ m_world s2 = 108.
Proof.
  destruct (daemon_lifecycle (ProcessHost0 := DaemonSample.host) DaemonSample.home (js "station") (js "node") [js "server.js"] [] DaemonSample.start
    (Started 42 (getLogPath DaemonSample.home (js "station"))) DaemonSample.run.2 DaemonSample.run.2) as (_ & _ & s2 & E & _ & Hw & _);
    [vm_compute; reflexivity|vm_compute; reflexivity|exact (Forall_nil_2 _)|reflexivity|].
  exists s2. split; [exact E|]. rewrite Hw. vm_compute. reflexivity.
Defined.
(** A process whose record cannot be written runs on, and nothing knows of it: the start fails
    with the child started, and a stop finds nothing to stop. *)
Lemma unrecorded_child_runs_on :
  is_ok DaemonSample.unlucky_run.1 = false /\ m_world DaemonSample.unlucky_run.2 = 8 /\
  (DaemonSample.stop DaemonSample.unlucky_run.2).1 = Ok None.
Proof. split; [vm_compute; reflexivity|split; vm_compute; reflexivity]. Qed.
