(* ===== verification/Operator.v ===== *)
(** * The operator's commands on profiles: [apps/cli/src/operator/prompts.ts], [profile.ts]

    Questions on the terminal, and [echolet profile].  The command reads its configuration as
    whatever JSON the file holds; a value that is no string throws where the platform takes
    none.  Theorem: a deletion touches the one profile that was named and the configuration,
    and nothing at all before the operator agreed. *)

From stdpp Require Import gmap.
From S2P Require Import Prelude JsString Json JsMap WellFormed Platform Effects NodePath Pretty Signal Outbound Files Home.

Section operator.
Context {W : Type} (home cwd : jstr).
Abbreviation Op := (M (machine W)).

(** ** Questions *)

(** One line of the input, or its end. *)
Definition next_line : Op (option jstr) := fun s =>
  match m_input s with [] => (Ok None, s) | l :: rest => (Ok (Some l), with_input rest s) end.
Definition prompt_text (question defaultValue : jstr) : jstr :=
  if eqb defaultValue [] then question ++ js ": " else question ++ js " [" ++ defaultValue ++ js "]: ".
Definition ask (question defaultValue : jstr) : Op jstr :=
  say (prompt_text question defaultValue);;
  value <- next_line;
  ret match option_map trim value with Some (u :: answer) => u :: answer | _ => defaultValue end.
(** [answer.toLowerCase().startsWith("y")] *)
Definition yes (answer : jstr) : bool := starts_with (js "y") (lower answer).
Definition confirm (question : jstr) (defaultYes : bool) : Op bool :=
  let hint := if defaultYes then js "[Y/n]" else js "[y/N]" in
  answer <- ask (question ++ js " " ++ hint) (if defaultYes then js "y" else js "n");
  ret (yes answer).
Record choice := Choice { ch_label : jstr; ch_value : jstr }.
Fixpoint show_choices (index : nat) (defaultIndex : nat) (choices : list choice) : Op unit :=
  match choices with
  | [] => ret tt
  | c :: choices =>
      let marker := if Nat.eqb index defaultIndex then js "*" else js " " in
      say (js "  [" ++ show_Z (Z.of_nat index + 1) ++ js "]" ++ marker ++ js " " ++ ch_label c);;
      show_choices (S index) defaultIndex choices
  end.
Definition chosen (choices : list choice) (defaultIndex : nat) (raw : jstr) : jstr :=
  let selected :=
    match parseInt10 raw with
    | Some num => if (1 <=? num) && (num <=? Z.of_nat (length choices)) then choices !! Z.to_nat (num - 1) else None
    | None => None
    end in
  match selected with
  | Some c => ch_value c
  | None => match choices !! defaultIndex with Some c => ch_value c | None => default_to [] (option_map ch_value (choices !! 0%nat)) end
  end.
Definition askChoice (question : jstr) (choices : list choice) (defaultIndex : nat) : Op jstr :=
  say (10 :: question);;
  show_choices 0 defaultIndex choices;;
  raw <- ask (js "Выберите вариант (1-" ++ show_Z (Z.of_nat (length choices)) ++ js ")") (show_Z (Z.of_nat defaultIndex + 1));
  ret (chosen choices defaultIndex raw).

(** ** [echolet profile] *)

(** [args[i]]; [undefined] past the end *)
Definition arg (args : list jstr) (i : nat) : option jstr := args !! i.
Definition given (o : option jstr) : bool := match o with Some (_ :: _) => true | _ => false end.
(** [value || next] of a member *)
Definition or_else (v : option json) (next : Op (option json)) : Op (option json) :=
  match v with Some w => if truthy w then ret v else next | None => next end.
Definition first_profile : Op (option json) := profiles <- listProfiles home; ret (option_map JStr (profiles !! 0%nat)).
(** The path functions take strings only. *)
Definition as_string (v : json) : Op jstr := match v with JStr s => ret s | _ => fail (js "TypeError") end.
Definition pad_end (n : nat) (s : jstr) : jstr := s ++ replicate (n - length s) 32.
Definition is_active (name : jstr) (active : option json) (alone : bool) : bool :=
  bool_decide (active = Some (JStr name)) || alone && negb (match active with Some v => truthy v | None => false end).

Fixpoint profile_lines (active : option json) (alone : bool) (names : list jstr) : Op unit :=
  match names with
  | [] => ret tt
  | name :: names =>
      let mark := if is_active name active alone then js " ⭐ [АКТИВНАЯ]" else [] in
      hasDb <- fs_exists (path_join [getProfileDir home name; js "client.sqlite"]);
      let status := if hasDb : bool then js "✅ Готова" else js "⚠️ Не инициализирована" in
      say (js "  📻 " ++ pad_end 20 name ++ js " " ++ status ++ mark);;
      profile_lines active alone names
  end.
Definition profile_list : Op unit :=
  config <- getGlobalConfig home;
  profiles <- listProfiles home;
  say (10 :: js "📂 ЗАРЕГИСТРИРОВАННЫЕ СТАНЦИИ ECHOLET (~/.echolet/profiles/):" ++ [10]);;
  match profiles with
  | [] => say (js "  (нет созданных станций. Выполните: echolet station)" ++ [10])
  | _ =>
      active <- config_member (js "activeProfile") config;
      profile_lines active (Nat.eqb (length profiles) 1) profiles;;
      say (10 :: js "Используйте: echolet profile switch <позывной>" ++ [10])
  end.
Definition profile_switch (args : list jstr) : Op unit :=
  match arg args 1 with
  | Some (u :: rest) =>
      let target := u :: rest in
      profiles <- listProfiles home;
      if negb (existsb (eqb target) profiles)
      then complain (js "Ошибка: профиль " ++ 34 :: target ++ 34 :: js " не найден. Список: " ++ join (js ", ") profiles);; exit_process 1
      else config <- getGlobalConfig home;
           config <- config_assign (js "activeProfile") (JStr target) config;
           saveGlobalConfig home config;;
           say (js "✅ Активной станцией по умолчанию выбрана: " ++ target)
  | _ => complain (js "Ошибка: укажите позывной. Пример: echolet profile switch RadioMan");; exit_process 1
  end.
(** The argument after [--out], when there is one that is not empty. *)
Definition after_flag (flag : jstr) (args : list jstr) : option jstr :=
  match list_find (eq flag) args with
  | Some (i, _) => match args !! S i with Some (u :: value) => Some (u :: value) | _ => None end
  | None => None
  end.
Definition profile_export (args : list jstr) : Op unit :=
  config <- getGlobalConfig home;
  target <- (match arg args 1 with
             | Some (u :: name) =>
                 if u =? 45 then active <- config_member (js "activeProfile") config; or_else active first_profile
                 else ret (Some (JStr (u :: name)))
             | _ => active <- config_member (js "activeProfile") config; or_else active first_profile
             end);
  match target with
  | None => complain (js "Ошибка: профили не найдены.");; exit_process 1
  | Some target =>
      if negb (truthy target) then complain (js "Ошибка: профили не найдены.");; exit_process 1
      else
        name <- as_string target;
        let cardPath := path_join [getProfileDir home name; js "identity.card.json"] in
        there <- fs_exists cardPath;
        if negb there
        then complain (js "Карточка профиля " ++ name ++ js " не найдена на диске (" ++ cardPath ++ js ").");; exit_process 1
        else
          cardContent <- fs_read cardPath;
          match after_flag (js "--out") args with
          | Some outArg =>
              fs_write (path_resolve cwd [outArg]) cardContent (octal 6 4 4);;
              say (js "✅ Радио-карточка станции " ++ 34 :: name ++ 34 :: js " сохранена в: " ++ outArg)
          | None =>
              say (10 :: js "=== 📻 РАДИО-КАРТОЧКА СТАНЦИИ: " ++ name ++ js " ===");;
              say cardContent;;
              say (js "==================================================");;
              say (js "Передайте этот JSON собеседнику (echolet contact add <файл>)")
          end
  end.
(** [config.activeProfile = undefined], which printing leaves out *)
Definition forget_active (config : json) : json :=
  match config with JObj members => JObj (List.filter (fun kv => negb (eqb kv.1 (js "activeProfile"))) members) | config => config end.
Definition delete_question (target : jstr) : jstr :=
  js "Вы ТОЧНО уверены, что хотите БЕЗВОЗВРАТНО удалить станцию " ++ 34 :: target ++ 34 :: js " и всю историю?".
Definition delete_named (target : jstr) : Op unit :=
  let dir := getProfileDir home target in
  there <- fs_exists dir;
  if negb there then complain (js "Профиль " ++ 34 :: target ++ 34 :: js " не существует.");; exit_process 1
  else
    agreed <- confirm (delete_question target) false;
    if agreed : bool
    then fs_rm dir;;
         config <- getGlobalConfig home;
         active <- config_member (js "activeProfile") config;
         when (bool_decide (active = Some (JStr target))) (saveGlobalConfig home (forget_active config));;
         say (js "🗑️ Профиль " ++ 34 :: target ++ 34 :: js " успешно удалён.")
    else say (js "Удаление отменено.").
Definition profile_delete (args : list jstr) : Op unit :=
  match arg args 1 with
  | Some (u :: target) => delete_named (u :: target)
  | _ => complain (js "Ошибка: укажите имя профиля для удаления.");; exit_process 1
  end.
Definition handleProfileCommand (args : list jstr) : Op unit :=
  let sub := match arg args 0 with Some (u :: sub) => u :: sub | _ => js "list" end in
  if eqb sub (js "list") then profile_list
  else if eqb sub (js "switch") then profile_switch args
  else if eqb sub (js "export") then profile_export args
  else if eqb sub (js "delete") then profile_delete args
  else say (js "Неизвестная подкоманда: " ++ sub ++ js ". Доступно: list, switch, export, delete").
End operator.

(** ** Deleting a profile *)

(** The first line of the input agrees; nothing, or an empty line, does not. *)
Definition agreed_by (input : list jstr) : bool :=
  match input with l :: _ => match trim l with [] => false | answer => yes answer end | [] => false end.

Section deletion.
Context {W : Type} (root : list jstr) (Hroot : plain_path root) (cwd : jstr).
Abbreviation home := (absolute_path root).
Abbreviation Op := (M (machine W)).

Lemma confirm_run question (s : machine W) : exists s',
  confirm question false s = (Ok (agreed_by (m_input s)), s') /\ m_files s' = m_files s /\ m_faults s' = m_faults s.
Proof.
  assert (yes (js "n") = false) as Hn by (vm_compute; reflexivity). unfold confirm, ask, agreed_by.
  set (text := prompt_text _ _). clearbody text. unfold say, modify, next_line, bind.
  cbn [m_input]. destruct (m_input s) as [|l rest]; cbn [option_map]; [|destruct (trim l)]; unfold ret; rewrite ?Hn; by eexists.
Qed.
Lemma segments_rooted l name : plain_path (l ++ [name]) -> segments_of (absolute_path (l ++ [name])) = [] :: l ++ [name].
Proof using.
  intros Hl. unfold absolute_path. change (slash :: ?x) with ([] ++ slash :: x). rewrite segments_cons by apply not_elem_of_nil.
  rewrite segments_join; [done|by destruct l|done].
Qed.
Lemma config_outside target path : plain_segment target = true ->
  under (getProfileDir home target) path = true -> path <> global_config_path home.
Proof using Hroot.
  intros Ht Hu ->. rewrite (profile_dir root Hroot), (config_path root Hroot) in Hu by exact Ht. unfold under in Hu.
  assert (plain_path (root ++ [js "config.json"])) as Hc by (apply plain_snoc; [exact Hroot|vm_compute; reflexivity]).
  pose proof (profile_plain root Hroot target Ht) as Hp.
  apply orb_true_iff in Hu as [E%eqb_true|(rest & E)%starts_with_iff].
  - apply absolute_inj in E; [|exact Hc|exact Hp]. apply (f_equal length) in E. rewrite !length_app in E. cbn in E. lia.
  - rewrite <- app_assoc in E. apply (f_equal segments_of) in E. cbn [app] in E. rewrite segments_app in E.
    change [js "profiles"; target] with ([js "profiles"] ++ [target]) in *.
    rewrite !app_assoc in *. rewrite !segments_rooted in E by (first [exact Hc | exact Hp]). apply (f_equal length) in E.
    cbn [length app] in E. rewrite !length_app in E. cbn [length] in E. pose proof (split_on_nonempty slash rest) as Hne. unfold segments_of in E.
    destruct (split_on slash rest); [done|]. cbn [length] in E. lia.
Qed.
Lemma delete_dispatch target : target <> [] ->
  handleProfileCommand (W := W) home cwd [js "delete"; target] = delete_named home target.
Proof using.
  intros Hne. unfold handleProfileCommand.
  assert (eqb (js "delete") (js "list") = false /\ eqb (js "delete") (js "switch") = false /\ eqb (js "delete") (js "export") = false)
    as (E1 & E2 & E3) by (split; [vm_compute; reflexivity|split; vm_compute; reflexivity]).
  change (arg [js "delete"; target] 0) with (Some (js "delete")). destruct (js "delete") as [|d delete] eqn:Ed; [vm_compute in Ed; discriminate Ed|].
  rewrite E1, E2, E3, eqb_refl. unfold profile_delete. cbn [arg lookup list_lookup]. by destruct target.
Qed.
Section profile.
Context (target : jstr) (Htarget : plain_segment target = true).
Abbreviation dir := (getProfileDir home target).
Definition config_only (path : jstr) : bool := eqb path (global_config_path home).
Definition deletion_area (path : jstr) : bool := under dir path || config_only path.
Lemma global_config_within (area : jstr -> bool) : area (global_config_path home) = true ->
  preserves (changes_within area) (getGlobalConfig home : Op json) /\ forall config, preserves (changes_within area) (saveGlobalConfig home config : Op unit).
Proof using.
  intros Ha. split; [|intros config]; unfold getGlobalConfig, saveGlobalConfig, write_config_file, ensureEcholetDirs, try_read;
    within_steps ltac:(fun _ => exact Ha).
Qed.
Lemma forget_within (area : jstr -> bool) : area (global_config_path home) = true ->
  preserves (changes_within area) (config <- getGlobalConfig home;
    active <- config_member (js "activeProfile") config;
    when (bool_decide (active = Some (JStr target))) (saveGlobalConfig home (forget_active config));;
    say (js "🗑️ Профиль " ++ 34 :: target ++ 34 :: js " успешно удалён.") : Op unit).
Proof using.
  intros Ha. destruct (global_config_within area Ha) as [Hg Hs]. apply preserves_bind; [apply _|exact Hg|]. intros config.
  apply preserves_bind; [apply _|unfold config_member; destruct config; by preserves_step|]. intros active.
  apply preserves_bind; [apply _|by apply preserves_when; [apply _|]|]. intros _. by apply within_same.
Qed.

(** C24: Deleting a profile.  For a callsign that is a plain name, whatever the files hold,
    whatever the operator types and whatever fails on the way, [echolet profile delete] changes
    the text of no file but those of that profile's directory and the configuration; it changes
    nothing at all unless the first line typed agrees; and when it reports success nothing is
    left of the profile's files. *)
Theorem profile_delete_contained (s : machine W) :
  let ran := handleProfileCommand home cwd [js "delete"; target] s in
  (forall path, under dir path = false -> path <> global_config_path home ->
     read_content path (m_files ran.2) = read_content path (m_files s)) /\
  (agreed_by (m_input s) = false -> m_files ran.2 = m_files s) /\
  (ran.1 = Ok tt -> agreed_by (m_input s) = true -> forall path, under dir path = true -> read_content path (m_files ran.2) = None).
Proof using Hroot Htarget.
  cbv zeta. rewrite delete_dispatch by (intros E; by rewrite E in Htarget). unfold delete_named. cbv zeta.
  rewrite (bind_run (fs_exists dir) _ s _ s eq_refl). destruct (m_files s !! dir) as [n|]; cbn [negb].
  2:{ unfold complain, exit_process, bind, modify, throw. cbn [fst snd]. split; [done|]. split; [done|]. intros [=]. }
  destruct (confirm_run (delete_question target) s) as (s1 & E & Hf & _). rewrite (bind_run _ _ _ _ _ E).
  destruct (agreed_by (m_input s)).
  2:{ unfold say, modify. cbn [fst snd m_files]. rewrite Hf. split; [done|]. split; [done|]. intros _ [=]. }
  destruct (fs_rm dir s1) as [[[]|e] s2] eqn:Er.
  2:{ rewrite (bind_fails _ _ _ _ _ Er). apply fs_try_err in Er as [Ef _]. cbn [fst snd]. rewrite Ef, Hf. split; [done|]. split; [done|]. intros [=]. }
  rewrite (bind_run _ _ _ _ _ Er). apply fs_try_ok in Er as (fs & [= <-] & Ef & _). rewrite Hf in Ef.
  split; [|split; [done|]].
  - intros path Hu Hc. pose proof (forget_within deletion_area) as Hw. rewrite Hw by first
      [ by unfold deletion_area, config_only; rewrite eqb_refl, orb_true_r
      | by unfold deletion_area, config_only; rewrite Hu, (proj2 (eqb_neq _ _) Hc) ].
    by rewrite Ef, removed_content, Hu.
  - intros _ _ path Hu. rewrite (forget_within config_only) by first
      [ by unfold config_only; rewrite eqb_refl
      | unfold config_only; apply eqb_neq; by apply (config_outside target) ].
    by rewrite Ef, removed_content, Hu.
Qed.
End profile.
End deletion.

(** ** Witnesses *)
Module OperatorSample.
Definition root : list jstr := [js "home"; js "op"].
Definition home : jstr := absolute_path root.
Definition dir_of (path : jstr) : jstr * node := (path, DirNode private_dir).
Definition disk : files := list_to_map
  [ dir_of (js "/home"); dir_of (js "/home/op"); dir_of (js "/home/op/profiles"); dir_of (js "/home/op/profiles/A");
    (js "/home/op/profiles/A/store.key", FileNode (js "k") private_file); (js "/home/op/note", FileNode (js "n") private_file) ].
Definition state (input : list jstr) : machine Z := Machine disk [] input [] [] None 0.
Definition ran (target : String.string) (input : list jstr) := handleProfileCommand home (js "/") [js "delete"; js target] (state input).
End OperatorSample.
Lemma profile_delete_contained_witness :
  read_content (js "/home/op/profiles/A/store.key") (m_files (OperatorSample.ran "A" [js " Yes "]).2) = None /\
  m_files (OperatorSample.ran "A" [js "n"]).2 = m_files (OperatorSample.state [js "n"]).
Proof.
  split.
  - apply (profile_delete_contained OperatorSample.root eq_refl (js "/") (js "A") ltac:(vm_compute; reflexivity) (OperatorSample.state [js " Yes "]));
      vm_compute; reflexivity.
  - apply (profile_delete_contained OperatorSample.root eq_refl (js "/") (js "A") ltac:(vm_compute; reflexivity) (OperatorSample.state [js "n"])).
    vm_compute. reflexivity.
Defined.
(** A callsign that is no name is not refused: [..] is the operator's whole directory. *)
Lemma delete_escapes :
  read_content (js "/home/op/note") (m_files (OperatorSample.state [js "y"])) = Some (js "n") /\
  read_content (js "/home/op/note") (m_files (OperatorSample.ran ".." [js "y"]).2) = None.
Proof. split; vm_compute; reflexivity. Qed.
