(* ===== verification/Guard.v ===== *)
(** * The station's request guard: [apps/web/src/server/requestGuard.ts]

    The station drives the operator's identity for a browser on the same machine.  The
    guard refuses what another page, or another machine, may send: a [Host] outside
    loopback, another origin, a cross-site request, a body that needs no preflight. *)

From S2P Require Import Prelude JsString.

(** Node gives a header as a string of Latin-1 units, or as the list of its lines, under its
    lower-case name. *)
Inductive header_value := One (value : jstr) | Many (values : list jstr).
Definition headers : Type := jstr -> option header_value.
Definition header (hs : headers) (name : jstr) : option jstr :=
  match hs name with
  | Some (Many values) => values !! 0%nat
  | Some (One value) => Some value
  | None => None
  end.
(** [toLowerCase] on Latin-1 *)
Definition latin1_lower (u : Z) : Z :=
  if ((65 <=? u) && (u <=? 90)) || ((0xC0 <=? u) && (u <=? 0xDE) && negb (u =? 0xD7)) then u + 32 else u.
Definition toLowerCase (s : jstr) : jstr := map latin1_lower s.

Definition STATION_BIND_HOST : jstr := js "127.0.0.1".
Definition LOOPBACK_HOSTNAMES : list jstr := [js "localhost"; js "127.0.0.1"; js "[::1]"].
Record GuardRejection := MkRejection { gr_status : Z; gr_code : jstr; gr_error : jstr }.

(** A port that [parseInt] did not read is [NaN]. *)
Definition show_port (port : option Z) : jstr := match port with Some p => show_Z p | None => js "NaN" end.
Definition allowedHosts (port : option Z) : list jstr := map (fun name => name ++ js ":" ++ show_port port) LOOPBACK_HOSTNAMES.
Definition allowedOrigins (port : option Z) : list jstr :=
  map (fun name => js "http://" ++ name ++ js ":" ++ show_port port) LOOPBACK_HOSTNAMES.
Definition has (set : list jstr) (s : jstr) : bool := existsb (eqb s) set.

Definition host_not_allowed : GuardRejection :=
  MkRejection 421 (js "HOST_NOT_ALLOWED") (js "Station answers only on loopback").
Definition checkHost (hs : headers) (port : option Z) : option GuardRejection :=
  match option_map toLowerCase (header hs (js "host")) with
  | Some host => if negb (eqb host []) && has (allowedHosts port) host then None else Some host_not_allowed
  | None => Some host_not_allowed
  end.

Definition origin_not_allowed : GuardRejection :=
  MkRejection 403 (js "ORIGIN_NOT_ALLOWED") (js "Cross-origin requests are refused").
Definition cross_site_refused : GuardRejection :=
  MkRejection 403 (js "CROSS_SITE_REFUSED") (js "Cross-site requests are refused").
Definition unsupported_media_type : GuardRejection :=
  MkRejection 415 (js "UNSUPPORTED_MEDIA_TYPE") (js "POST body must be application/json").
(** [split(";")[0]?.trim().toLowerCase()] *)
Definition media_type (value : jstr) : jstr := toLowerCase (trim (default_to [] (split_on 59 value !! 0%nat))).
Definition checkApiRequest (method : option jstr) (hs : headers) (port : option Z) : option GuardRejection :=
  if match header hs (js "origin") with Some origin => negb (has (allowedOrigins port) (toLowerCase origin)) | None => false end
  then Some origin_not_allowed
  else if match header hs (js "sec-fetch-site") with
          | Some site => negb (eqb site (js "same-origin")) && negb (eqb site (js "none"))
          | None => false
          end
  then Some cross_site_refused
  else if bool_decide (method = Some (js "POST"))
  then if bool_decide (option_map media_type (header hs (js "content-type")) = Some (js "application/json"))
       then None else Some unsupported_media_type
  else None.

(** ** The guard admits its own page and refuses every other *)

Lemma has_spec set s : has set s = true <-> s ∈ set.
Proof.
  unfold has. rewrite existsb_exists. split.
  - intros (x & Hx & ->%eqb_eq). by apply list_elem_of_In.
  - intros Hs. exists s. split; [by apply list_elem_of_In|apply eqb_refl].
Qed.

Lemma checkHost_spec hs port :
  checkHost hs port = None <-> exists host, header hs (js "host") = Some host /\ toLowerCase host ∈ allowedHosts port.
Proof.
  unfold checkHost. destruct (header hs (js "host")) as [host|]; cbn [option_map].
  - destruct (has (allowedHosts port) (toLowerCase host)) eqn:Eh.
    + apply has_spec in Eh. split; [eauto|]. intros _. rewrite andb_true_r. destruct (eqb (toLowerCase host) []) eqn:E0; [|done].
      apply (proj1 (eqb_eq _ _)) in E0. rewrite E0 in Eh. apply list_elem_of_In, in_map_iff in Eh as (name & En & _).
      apply (f_equal length) in En. rewrite !length_app in En. change (length (js ":")) with 1%nat in En. cbn in En. lia.
    + rewrite andb_false_r. split; [done|]. intros (h & [= <-] & Hh%has_spec). congruence.
  - split; [done|]. by intros (h & [=] & _).
Qed.
Lemma checkHost_refuses hs port : checkHost hs port = None \/ checkHost hs port = Some host_not_allowed.
Proof. unfold checkHost. repeat case_match; auto. Qed.

Section checks.
Context (method : option jstr) (hs : headers) (port : option Z).
Definition origin_ok : Prop :=
  forall origin, header hs (js "origin") = Some origin -> toLowerCase origin ∈ allowedOrigins port.
Definition site_ok : Prop :=
  forall site, header hs (js "sec-fetch-site") = Some site -> site = js "same-origin" \/ site = js "none".
Definition body_ok : Prop :=
  method = Some (js "POST") ->
  exists value, header hs (js "content-type") = Some value /\ media_type value = js "application/json".
Lemma origin_spec :
  match header hs (js "origin") with Some origin => negb (has (allowedOrigins port) (toLowerCase origin)) | None => false end = false
  <-> origin_ok.
Proof.
  unfold origin_ok. destruct (header hs (js "origin")) as [o|]; [|split; [by intros _ ? [=]|done]].
  rewrite negb_false_iff, has_spec. split; [by intros H ? [= <-]|auto].
Qed.
Lemma site_spec :
  match header hs (js "sec-fetch-site") with
  | Some site => negb (eqb site (js "same-origin")) && negb (eqb site (js "none"))
  | None => false
  end = false <-> site_ok.
Proof.
  unfold site_ok. destruct (header hs (js "sec-fetch-site")) as [s|]; [|split; [by intros _ ? [=]|done]].
  rewrite andb_false_iff, !negb_false_iff, !eqb_eq. split; [by intros H ? [= <-]|auto].
Qed.
Lemma body_spec {R} (r : R) :
  (if bool_decide (method = Some (js "POST"))
   then if bool_decide (option_map media_type (header hs (js "content-type")) = Some (js "application/json")) then None else Some r
   else None) = None <-> body_ok.
Proof.
  unfold body_ok. destruct (bool_decide_reflect (method = Some (js "POST"))) as [Em|Em]; [|by split].
  destruct (bool_decide_reflect (option_map media_type (header hs (js "content-type")) = Some (js "application/json"))) as [Ec|Ec].
  - split; [intros _ _|done]. destruct (header hs (js "content-type")) as [v|]; [|done].
    exists v. split; [done|]. by injection Ec.
  - split; [done|]. intros Hb. destruct Ec. destruct (Hb Em) as (v & -> & Hv). cbn [option_map]. by f_equal.
Qed.
Lemma checkApiRequest_spec :
  checkApiRequest method hs port = None <-> origin_ok /\ site_ok /\ body_ok.
Proof.
  rewrite <- origin_spec, <- site_spec, <- (body_spec unsupported_media_type). unfold checkApiRequest.
  destruct (match header hs (js "origin") with Some _ => _ | None => _ end); [by split; [|intros (? & _)]|].
  destruct (match header hs (js "sec-fetch-site") with Some _ => _ | None => _ end); [by split; [|intros (_ & ? & _)]|].
  split; [by repeat split|by intros (_ & _ & ?)].
Qed.
Lemma checkApiRequest_foreign : ~ (origin_ok /\ site_ok) -> exists r, checkApiRequest method hs port = Some r /\ gr_status r = 403.
Proof.
  intros Hn. unfold checkApiRequest.
  destruct (match header hs (js "origin") with Some _ => _ | None => _ end) eqn:E1; [by eexists|].
  destruct (match header hs (js "sec-fetch-site") with Some _ => _ | None => _ end) eqn:E2; [by eexists|].
  destruct Hn. by rewrite <- origin_spec, <- site_spec.
Qed.
End checks.

(** What a browser sends for a page that is not the station's: that page's origin, or the
    relation it has found between the page and the station; and for a request it makes without
    a preflight, one of the three types a form may have. *)
Definition foreign_page (hs : headers) (port : option Z) : Prop :=
  (exists origin, header hs (js "origin") = Some origin /\ toLowerCase origin ∉ allowedOrigins port) \/
  header hs (js "sec-fetch-site") = Some (js "cross-site") \/
  header hs (js "sec-fetch-site") = Some (js "same-site").
Definition form_types : list jstr :=
  [js "text/plain"; js "application/x-www-form-urlencoded"; js "multipart/form-data"].
Definition form_body (hs : headers) : Prop :=
  exists value, header hs (js "content-type") = Some value /\ media_type value ∈ form_types.

Lemma form_types_not_json : js "application/json" ∉ form_types.
Proof. refine (proj1 (bool_decide_eq_true (js "application/json" ∉ form_types)) _). vm_compute. reflexivity. Qed.
Lemma site_literals :
  (js "cross-site" <> js "same-origin" /\ js "cross-site" <> js "none") /\
  (js "same-site" <> js "same-origin" /\ js "same-site" <> js "none").
Proof. repeat split; apply eqb_neq; vm_compute; reflexivity. Qed.

(** C30: the request guard.  A request under a [Host] that is not a loopback name with the
    station's port (DNS rebinding, another machine) is refused with 421; an API request that
    carries what a browser adds for a foreign page, another local station included, is refused
    with 403 whatever its method; a [POST] with a body a form can send without a preflight is
    refused; and the station's own page, sending JSON when it posts, is let through. *)
Theorem guard_refuses_foreign method hs port :
  ((forall host, header hs (js "host") = Some host -> toLowerCase host ∉ allowedHosts port) ->
   checkHost hs port = Some host_not_allowed) /\
  (foreign_page hs port -> exists r, checkApiRequest method hs port = Some r /\ gr_status r = 403) /\
  (method = Some (js "POST") -> form_body hs -> checkApiRequest method hs port <> None) /\
  (forall host, header hs (js "host") = Some host -> toLowerCase host ∈ allowedHosts port ->
   header hs (js "sec-fetch-site") = Some (js "same-origin") ->
   (header hs (js "origin") = None \/ exists o, header hs (js "origin") = Some o /\ toLowerCase o ∈ allowedOrigins port) ->
   body_ok method hs -> checkHost hs port = None /\ checkApiRequest method hs port = None).
Proof.
  split; [|split; [|split]].
  - intros Hh. destruct (checkHost_refuses hs port) as [(host & E & Hin)%checkHost_spec|]; [|done].
    by destruct (Hh host E).
  - intros Hf. apply checkApiRequest_foreign. intros [Ho Hs]. unfold origin_ok, site_ok in *.
    destruct site_literals as [[? ?] [? ?]].
    destruct Hf as [(o & Eo & Hn)|[E|E]]; [by apply Hn, Ho|..]; by destruct (Hs _ E).
  - intros Hm (v & Ev & Hv) (_ & _ & Hb)%checkApiRequest_spec. destruct (Hb Hm) as (v' & Ev' & E).
    apply form_types_not_json. congruence.
  - intros host Eh Hh Es Ho Hb. split; [apply checkHost_spec; eauto|]. apply checkApiRequest_spec.
    split; [|split; [|done]].
    + intros o Eo. destruct Ho as [Ho|(o' & Eo' & ?)]; congruence.
    + intros s E. left. congruence.
Qed.

Module GuardSample.
Definition own : headers := fun name =>
  if eqb name (js "host") then Some (One (js "LocalHost:3001"))
  else if eqb name (js "origin") then Some (One (js "http://127.0.0.1:3001"))
  else if eqb name (js "sec-fetch-site") then Some (One (js "same-origin"))
  else if eqb name (js "content-type") then Some (Many [js "application/json; charset=utf-8"]) else None.
Definition port : option Z := Some 3001.
Definition post : option jstr := Some (js "POST").
End GuardSample.
Lemma guard_refuses_foreign_witness :
  checkHost GuardSample.own GuardSample.port = None /\
  checkApiRequest GuardSample.post GuardSample.own GuardSample.port = None /\
  (exists r, checkApiRequest None (fun _ => Some (One (js "cross-site"))) GuardSample.port = Some r /\ gr_status r = 403).
Proof.
  destruct (guard_refuses_foreign GuardSample.post GuardSample.own GuardSample.port) as (_ & _ & _ & H).
  destruct (guard_refuses_foreign None (fun _ => Some (One (js "cross-site"))) GuardSample.port) as (_ & H' & _).
  assert (checkHost GuardSample.own GuardSample.port = None /\
          checkApiRequest GuardSample.post GuardSample.own GuardSample.port = None) as [? ?].
  { apply (H (js "LocalHost:3001")).
    - vm_compute. reflexivity.
    - apply has_spec. vm_compute. reflexivity.
    - vm_compute. reflexivity.
    - right. exists (js "http://127.0.0.1:3001"). split; [vm_compute; reflexivity|].
      apply has_spec. vm_compute. reflexivity.
    - intros _. exists (js "application/json; charset=utf-8"). split; vm_compute; reflexivity. }
  split; [done|]. split; [done|]. apply H'. right. left. vm_compute. reflexivity.
Defined.
