(* ===== verification/Bridge.v ===== *)
(** * The station's bridge to the command line: [apps/web/src/server/cliBridge.ts]

    Each operation of the station is one run of [apps/cli] as a child process: an argument
    vector, perhaps a text for its standard input, and what its streams and its exit are
    taken to mean.  Theorems: the vectors are read by the command line as what they were
    written for, exactly one of the ends of a child settles the call, the command line's
    report comes through unchanged, and validating a card changes nothing. *)

From S2P Require Import Prelude JsString Json JsMap Zod Platform Effects NodePath WellFormed.
From S2P Require Import Store Signal Profile Config RelayClient Inbound Outbound Args Cli Console.

(** ** [resolveCliPath] *)

Definition resolveCliPath (existsSync : jstr -> bool) (cwd HERE : jstr) (ECHOLET_CLI_PATH overridePath : option jstr) : jstr :=
  let given (path : option jstr) := match path with Some p => negb (eqb p []) && existsSync p | None => false end in
  if given overridePath then default_to [] overridePath
  else if given ECHOLET_CLI_PATH then default_to [] ECHOLET_CLI_PATH
  else let flattenedNpmPath := path_resolve cwd [HERE; js "./cli.js"] in
       if existsSync flattenedNpmPath then flattenedNpmPath
       else let siblingDistPath := path_resolve cwd [HERE; js "../cli/dist/cli.js"] in
            if existsSync siblingDistPath then siblingDistPath
            else path_resolve cwd [HERE; js "../../cli/dist/cli.js"].

(** ** The operations: the arguments and the standard input of each *)

Inductive BridgeCall :=
  | Doctor | Poll | History (contactIdentityId : jstr) | Send (toIdentityId text : jstr) | Publish
  | ExportContact (outPath : jstr) | ImportContact (cardPath : jstr) | ValidateContact (cardPath : jstr).
Definition argv (profileDir : jstr) (call : BridgeCall) : list jstr :=
  match call with
  | Doctor => [js "doctor"; js "--profile"; profileDir; js "--json"]
  | Poll => [js "poll"; js "--profile"; profileDir; js "--json"]
  | History contactIdentityId => [js "history"; js "--with"; contactIdentityId; js "--profile"; profileDir; js "--json"]
  | Send toIdentityId _ => [js "send"; js "--to"; toIdentityId; js "--profile"; profileDir; js "--json"]
  | Publish => [js "relay"; js "publish"; js "--profile"; profileDir; js "--json"]
  | ExportContact outPath => [js "contact"; js "export"; js "--out"; outPath; js "--profile"; profileDir; js "--json"]
  | ImportContact cardPath =>
      [js "contact"; js "import"; js "--from"; cardPath; js "--yes"; js "--profile"; profileDir; js "--json"]
  | ValidateContact cardPath =>
      [js "contact"; js "import"; js "--from"; cardPath; js "--profile"; profileDir; js "--json"]
  end.
Definition stdinInput (call : BridgeCall) : option jstr :=
  match call with
  | Send _ text => Some text
  | ValidateContact _ => Some (js "no" ++ [10])
  | _ => None
  end.

(** ** [execute]: one child process *)

(** What the report says is taken as it is: [ok] and [code] are whatever JSON has there. *)
Record CliOutcome := Outcome { ok : json; code : json; exitCode : Z; data : json }.
Definition failed_outcome (reason : jstr) (message : jstr) : CliOutcome :=
  Outcome (JBool false) (JStr reason) 1 (JObj [(js "error", JStr message)]).
Definition timed_out : CliOutcome := failed_outcome (js "CLI_TIMEOUT") (js "CLI command timed out").
Definition spawn_error (message : jstr) : CliOutcome := failed_outcome (js "SPAWN_ERROR") message.
(** [a ?? b] *)
Definition nullish (a : option json) (b : json) : json :=
  match a with Some JNull | None => b | Some a => a end.
(** [parsed.error?.code] *)
Definition error_code (parsed : json) : option json :=
  match field (js "error") parsed with Some error => field (js "code") error | None => None end.
Definition reported (parsed : json) (exit : Z) : CliOutcome :=
  Outcome (nullish (field (js "ok") parsed) (JBool (exit =? 0)))
    (nullish (error_code parsed) (JStr (if exit =? 0 then js "ok" else js "ERROR")))
    exit (nullish (field (js "data") parsed) parsed).
Definition unreported (stdout stderr : jstr) (exit : Z) : CliOutcome :=
  Outcome (JBool (exit =? 0)) (JStr (if exit =? 0 then js "ok" else js "NON_ZERO_EXIT")) exit
    (JObj [(js "stdout", JStr stdout); (js "stderr", JStr stderr)]).
Definition closed (stdout stderr : jstr) (exitCode : option Z) : CliOutcome :=
  let exit := default_to 0 exitCode in
  let trimmed := trim stdout in
  if starts_with (js "{") trimmed
  then match parse trimmed with
       | Some parsed => reported parsed exit
       | None => unreported stdout stderr exit
       end
  else unreported stdout stderr exit.

(** The events of a child and of the timer.  A child ended by a signal closes without a code. *)
Inductive child_event :=
  | StdoutData (chunk : bytes) | StderrData (chunk : bytes) | StdinError
  | TimerFires | ChildError (message : jstr) | Close (exitCode : option Z).
Record child := MkChild {
  c_stdout : jstr; c_stderr : jstr; c_settled : option CliOutcome; c_timer : bool; c_killed : bool }.
Definition spawned : child := MkChild [] [] None true false.
(** [finish]: the first call settles the promise and stops the timer. *)
Definition finish (outcome : CliOutcome) (c : child) : child :=
  match c_settled c with
  | Some _ => c
  | None => MkChild (c_stdout c) (c_stderr c) (Some outcome) false (c_killed c)
  end.
Definition on_event (c : child) (e : child_event) : child :=
  match e with
  | StdoutData chunk => MkChild (c_stdout c ++ utf8_to_string chunk) (c_stderr c) (c_settled c) (c_timer c) (c_killed c)
  | StderrData chunk => MkChild (c_stdout c) (c_stderr c ++ utf8_to_string chunk) (c_settled c) (c_timer c) (c_killed c)
  | StdinError => c
  | TimerFires => if c_timer c then finish timed_out (MkChild (c_stdout c) (c_stderr c) (c_settled c) false true) else c
  | ChildError message => finish (spawn_error message) c
  | Close exitCode => finish (closed (c_stdout c) (c_stderr c) exitCode) c
  end.
Definition execute (events : list child_event) : child := fold_left on_event events spawned.

(** ** A child settles its call once *)

(** Data and a broken pipe settle nothing. *)
Definition quiet (e : child_event) : bool :=
  match e with StdoutData _ | StderrData _ | StdinError => true | _ => false end.
Definition stdout_of (events : list child_event) : jstr :=
  flat_map (fun e => match e with StdoutData chunk => utf8_to_string chunk | _ => [] end) events.
Definition stderr_of (events : list child_event) : jstr :=
  flat_map (fun e => match e with StderrData chunk => utf8_to_string chunk | _ => [] end) events.
Definition end_outcome (e : child_event) (stdout stderr : jstr) : CliOutcome :=
  match e with
  | TimerFires => timed_out
  | ChildError message => spawn_error message
  | Close exitCode => closed stdout stderr exitCode
  | _ => unreported stdout stderr 0
  end.
Lemma quiet_run events out err k :
  forallb quiet events = true ->
  fold_left on_event events (MkChild out err None true k) = MkChild (out ++ stdout_of events) (err ++ stderr_of events) None true k.
Proof.
  revert out err. induction events as [|e events IH]; intros out err H; cbn [fold_left]; [by rewrite !app_nil_r|].
  cbn [forallb] in H. apply andb_true_iff in H as [He H].
  unfold stdout_of, stderr_of. destruct e; try done; cbn [on_event c_stdout c_stderr c_settled c_timer c_killed flat_map app];
    rewrite IH by done; rewrite ?app_assoc; done.
Qed.
Lemma settled_stays events c o :
  c_settled c = Some o -> c_timer c = false ->
  c_settled (fold_left on_event events c) = Some o /\ c_killed (fold_left on_event events c) = c_killed c.
Proof.
  revert c. induction events as [|e events IH]; intros c Hs Ht; [done|]. cbn [fold_left].
  assert (c_settled (on_event c e) = Some o /\ c_timer (on_event c e) = false /\ c_killed (on_event c e) = c_killed c) as (? & ? & Hk).
  { destruct e; cbn [on_event]; rewrite ?Ht; unfold finish; rewrite ?Hs; done. }
  rewrite <- Hk. by apply IH.
Qed.

(** One run of the command line, one outcome.  Whatever a child writes, in whatever
    chunks, the first of its ends settles the call: its exit with the outcome read from all
    the output before it, a failed start with [SPAWN_ERROR], fifteen seconds with
    [CLI_TIMEOUT]; the child is killed exactly in the last case; and nothing that happens
    afterwards, the exit of the killed child included, changes the outcome. *)
Theorem execute_settles_once before e after :
  forallb quiet before = true -> quiet e = false ->
  c_settled (execute (before ++ e :: after)) = Some (end_outcome e (stdout_of before) (stderr_of before)) /\
  c_killed (execute (before ++ e :: after)) = (match e with TimerFires => true | _ => false end) /\
  c_settled (execute before) = None.
Proof.
  intros Hb He. unfold execute. rewrite fold_left_app. unfold spawned.
  rewrite quiet_run by done. cbn [app fold_left].
  set (c := on_event _ e). assert (c_settled c = Some (end_outcome e (stdout_of before) (stderr_of before)) /\ c_timer c = false /\
    c_killed c = (match e with TimerFires => true | _ => false end)) as (Hs & Ht & Hk).
  { subst c. by destruct e. }
  destruct (settled_stays after c _ Hs Ht) as [? ->]. by split_and!.
Qed.

(** ** The command line reads what the station wrote *)

(** Every operation but an import is one of the console's requests. *)
Definition call_request (profileDir : jstr) (call : BridgeCall) : CliRequest :=
  match call with
  | Doctor => ReqDoctor profileDir
  | Poll => ReqPoll profileDir
  | History id => ReqHistory profileDir id
  | Send id text => ReqSend profileDir id text None
  | Publish => ReqRelayPublish profileDir
  | ExportContact out => ReqContactExport profileDir out
  | ImportContact card | ValidateContact card => ReqContactImport profileDir card
  end.
Definition confirms (call : BridgeCall) : bool := match call with ImportContact _ => true | _ => false end.
Definition call_items (profileDir : jstr) (call : BridgeCall) : list arg_item :=
  match call with
  | ImportContact card => [Spaced (js "from") card; Flag (js "yes"); Spaced (js "profile") profileDir; Flag (js "json")]
  | _ => request_items (call_request profileDir call)
  end.
Definition call_command (call : BridgeCall) : CliCommand := req_command (call_request [] call).
Definition call_operands (call : BridgeCall) : list jstr :=
  match call with
  | History x | Send x _ | ExportContact x | ImportContact x | ValidateContact x => [x]
  | _ => []
  end.
Definition call_ok (profileDir : jstr) (call : BridgeCall) : bool :=
  forallb operand_ok (profileDir :: call_operands call) && negb (eqb (trim profileDir) []).

Lemma call_command_request dir call : req_command (call_request dir call) = call_command call.
Proof. by destruct call. Qed.
Lemma argv_render dir call : argv dir call = command_words (call_command call) ++ flat_map render (call_items dir call).
Proof.
  assert (confirms call = false -> argv dir call = buildArgv (call_request dir call)) as Hc by (by destruct call).
  destruct (confirms call) eqn:E.
  - by destruct call.
  - rewrite Hc, buildArgv_render, call_command_request by done. by destruct call.
Qed.
Lemma call_items_declared dir call : forallb item_declared (call_items dir call) = true.
Proof. destruct call; vm_compute; reflexivity. Qed.
Lemma call_items_names dir call : bool_decide (NoDup (map item_name (call_items dir call))) = true.
Proof. destruct call; vm_compute; reflexivity. Qed.
Lemma call_items_allowed dir call :
  exists names, get (command_text (call_command call)) commandOptions = Some names /\
    forallb (fun i => member (item_name i) names) (call_items dir call) = true.
Proof. destruct call; eexists; (split; [vm_compute; reflexivity|vm_compute; reflexivity]). Qed.
Lemma call_items_operands dir call :
  forallb operand_ok (dir :: call_operands call) = true ->
  forallb operand_ok (flat_map (fun i => match i with Spaced _ v => [v] | _ => [] end) (call_items dir call)) = true.
Proof. destruct call; cbn; rewrite ?andb_true_r, ?andb_true_iff; tauto. Qed.
Lemma call_profile dir call : text_value (js "profile") (map item_entry (call_items dir call)) = Some dir.
Proof. destruct call; vm_compute; reflexivity. Qed.
Lemma call_required dir call :
  forallb operand_ok (dir :: call_operands call) = true ->
  rejectUnexpectedMissing (command_text (call_command call)) (map item_entry (call_items dir call)) = Ok tt.
Proof.
  intros H. destruct call; cbn [call_operands forallb] in H; rewrite ?andb_true_iff in H;
    repeat match goal with
    | H : _ /\ _ |- _ => destruct H
    | H : operand_ok ?v = true |- _ => apply operand_nonempty in H as (? & ? & ->)
    end; vm_compute; reflexivity.
Qed.
Lemma call_parsed dir call :
  call_ok dir call = true ->
  parseCommand (argv dir call) = Ok (command_text (call_command call), map item_entry (call_items dir call)).
Proof.
  intros [Ho Hp%negb_true_iff]%andb_true_iff. destruct (call_items_allowed dir call) as (names & Hn & Ha). rewrite argv_render.
  eapply parseCommand_items; [apply command_words_ok|apply items_ok; [apply call_items_declared|by apply call_items_operands]
    |apply (bool_decide_eq_true_1 _ (call_items_names dir call))|apply command_words_text|exact Hn|exact Ha|apply call_profile|done].
Qed.

(** The station's argument vectors say what the station meant.  For every operation whose
    operands are neither empty nor the separator, the vector is read by the command line as
    that command with exactly those operands, whatever a page made them look like: a recipient
    or a contact spelled like an option stays a value.  Only an import carries [--yes], the
    text of a message is in no vector, and a validation answers [no]. *)
Theorem bridge_argv_read profileDir call :
  call_ok profileDir call = true ->
  let values := map item_entry (call_items profileDir call) in
  dispatch (argv profileDir call) = Protocol /\
  parseCommand (argv profileDir call) = Ok (command_text (call_command call), values) /\
  rejectUnexpectedMissing (command_text (call_command call)) values = Ok tt /\
  (get (js "yes") values = if confirms call then Some VTrue else None) /\
  (forall id text text', call = Send id text ->
     argv profileDir (Send id text') = argv profileDir call /\ stdinInput (Send id text') = Some text').
Proof.
  intros H values. split_and!.
  - clear. destruct call; vm_compute; reflexivity.
  - by apply call_parsed.
  - apply call_required. by apply andb_true_iff in H as [H _].
  - subst values. clear. destruct call; vm_compute; reflexivity.
  - intros id text text' ->. done.
Qed.

(** ** The report comes through *)

(** A printed object has nothing to trim but the line end after it. *)
Lemma trim_report l : trim (stringify (JObj l) ++ [10]) = stringify (JObj l).
Proof.
  rewrite stringify_obj. unfold trim. cbn [app]. rewrite trim_start_keep by done.
  replace (rev (123 :: (join [44] (map member_text l) ++ [125]) ++ [10])) with (10 :: 125 :: rev (123 :: join [44] (map member_text l))).
  2:{ cbn [rev]. rewrite !rev_app_distr. reflexivity. }
  cbn [trim_start]. change (is_js_space 10) with true. change (is_js_space 125) with false. cbv iota.
  cbn [rev]. by rewrite rev_app_distr, rev_involutive.
Qed.
Lemma closed_report l exit err :
  json_ok (JObj l) = true -> closed (stringify (JObj l) ++ [10]) err exit = reported (JObj l) (default_to 0 exit).
Proof.
  intros H. unfold closed. rewrite trim_report, (parse_stringify _ H).
  assert (starts_with (js "{") (stringify (JObj l)) = true) as ->; [|done].
  rewrite stringify_obj. exact (starts_with_app [123] (join [44] (map member_text l) ++ [125])).
Qed.
(** The text [s] written in pieces, each of them whole characters. *)
Definition pieces_of (s : jstr) (events : list child_event) : Prop :=
  exists pieces : list jstr, concat pieces = s /\ forallb well_formed pieces = true /\
    flat_map (fun e => match e with StdoutData chunk => [chunk] | _ => [] end) events = map utf8_encode pieces.
Lemma pieces_stdout s events : pieces_of s events -> stdout_of events = s.
Proof.
  intros (pieces & <- & Hw & He). revert pieces Hw He. unfold stdout_of.
  induction events as [|e events IH]; intros pieces Hw He; cbn [flat_map] in *.
  - destruct pieces; [done|by apply (f_equal length) in He].
  - destruct e; cbn [app] in He; try (by apply IH).
    destruct pieces as [|p pieces]; [done|]. cbn [map concat forallb] in *. injection He as -> He.
    apply andb_true_iff in Hw as [Hp Hw]. rewrite utf8_to_string_encode by done. f_equal. by apply IH.
Qed.
Lemma success_reported data exit :
  data <> JNull -> reported (success_report data) exit = Outcome (JBool true) (JStr (if exit =? 0 then js "ok" else js "ERROR")) exit data.
Proof.
  intros Hd. unfold reported, success_report, error_code.
  assert (field (js "ok") (JObj [(js "ok", JBool true); (js "data", data)]) = Some (JBool true)) as -> by (vm_compute; reflexivity).
  assert (field (js "error") (JObj [(js "ok", JBool true); (js "data", data)]) = None) as -> by (vm_compute; reflexivity).
  assert (field (js "data") (JObj [(js "ok", JBool true); (js "data", data)]) = Some data) as -> by (vm_compute; reflexivity).
  by destruct data.
Qed.
Lemma failure_reported code exit :
  reported (failure_report code) exit = Outcome (JBool false) (JStr code) exit (failure_report code).
Proof. vm_compute. reflexivity. Qed.

(** C16: the command line's report is the station's outcome.  When the child prints the report
    of a run in chunks that split no character, and exits with the run's code before the timer,
    the station resolves with [ok], the code and the data of that report: a success with the
    command's data, a failure with the typed code and the exit code it was classified with. *)
Theorem bridge_reads_report {W : Type} `{Zod} `{World W} `{Native W} `{Crypto} `{Fetch W} `{UrlParser} `{Shell W}
    rawArgs (s : env W) report exit s' events later :
  run_protocol rawArgs s = ((report, exit), s') -> json_ok report = true ->
  forallb quiet events = true -> pieces_of (stringify report ++ [10]) events ->
  (protocol_command rawArgs s).1 <> Ok JNull ->
  c_settled (execute (events ++ Close (Some exit) :: later)) =
  Some match (protocol_command rawArgs s).1 with
       | Ok data => Outcome (JBool true) (JStr (js "ok")) 0 data
       | Err e => Outcome (JBool false) (JStr (f_code (classify e))) (f_exitCode (classify e)) report
       end.
Proof.
  intros Hr Hok Hq Hp Hn. unfold execute. rewrite fold_left_app. unfold spawned. rewrite quiet_run by done. cbn [app fold_left].
  rewrite (pieces_stdout _ _ Hp).
  set (c := on_event _ _). assert (c_settled c = Some (closed (stringify report ++ [10]) (stderr_of events) (Some exit))) as Hs by done.
  destruct (settled_stays later c _ Hs eq_refl) as [-> _]. f_equal.
  unfold run_protocol in Hr. destruct (protocol_command rawArgs s) as [[data|e] s1]; cbn [fst] in *; injection Hr as <- <- <-.
  - unfold success_report. rewrite closed_report by done. cbn [default_to]. fold (success_report data).
    rewrite success_reported by congruence. done.
  - unfold failure_report. rewrite closed_report by done. cbn [default_to]. fold (failure_report (f_code (classify e))).
    by rewrite failure_reported.
Qed.

(** ** Validating a card *)

Section validate.
Context {W : Type} `{Zod} `{World W} `{Native W} `{Crypto} `{Fetch W} `{UrlParser} `{Shell W}.
(** The child's standard input is what the station writes, in whatever chunks. *)
Definition answers_stdin (call : BridgeCall) : Prop :=
  forall w : W, concat (stdin_answer w).1 = default_to [] (stdinInput call).

Lemma no_is_no : affirmative (answer_line (js "no" ++ [10])) = false.
Proof. vm_compute. reflexivity. Qed.
Lemma validate_unconfirmed dir card :
  answers_stdin (ValidateContact card) -> not_confirmed (W := W) (map item_entry (call_items dir (ValidateContact card))).
Proof.
  intros Hs. split; [clear; vm_compute; discriminate|]. intros w. rewrite (Hs w). cbn [stdinInput default_to]. apply no_is_no.
Qed.

(** Validating a contact card changes nothing.  The station validates a card by an import
    whose confirmation it declines: whatever the card says, whatever the state of the profile,
    the command line run with that vector and that standard input reports a failure, and no
    record of the store changes, not even for a moment. *)
Theorem validate_changes_nothing dir card (s : env W) :
  call_ok dir (ValidateContact card) = true -> answers_stdin (ValidateContact card) -> has_profile (disk s) ->
  exists e s', run_protocol (argv dir (ValidateContact card)) s
               = ((failure_report (f_code (classify e)), f_exitCode (classify e)), s')
    /\ stays (disk s) s s'.
Proof.
  intros Hok Hs Hm. pose proof (validate_unconfirmed dir card Hs) as Hn. apply call_parsed in Hok.
  unfold run_protocol. rewrite (import_command _ _ _ Hok). set (run := bind _ _).
  assert (keeps (eq (disk s)) run) as Hk.
  { apply keeps_bind; [apply keeps_lift|]. intros u. apply keeps_bind; [apply keeps_lift|]. intros d. by apply import_fails. }
  destruct (run s) as [[b|e] s'] eqn:E; [|exists e, s'; split; [done|by eapply keeps_stays]].
  apply bind_ok in E as (u & s2 & _ & E). apply bind_ok in E as (d & s3 & _ & E).
  by apply (import_fails _ _ (disk s)) in E.
Qed.
End validate.

(** ** Where the bridge falls short *)

(** A child that a signal ended before it could report closes without an exit code, and counts
    as a success: an import that was killed is announced as trusted. *)
Lemma killed_child_succeeds :
  c_settled (execute [Close None]) = Some (unreported [] [] 0) /\ ok (unreported [] [] 0) = JBool true.
Proof. split; vm_compute; reflexivity. Qed.
(** Each chunk is decoded by itself: the same bytes of a two-byte character, in one chunk or in
    two, give two different reports. *)
Definition split_report (chunks : list bytes) : option json :=
  option_map data (c_settled (execute (map StdoutData chunks ++ [Close (Some 0)]))).
Definition report_bytes : bytes := utf8_encode (jsq "{'ok':true,'data':'" ++ [0x0416] ++ jsq "'}").
Lemma split_character_corrupted :
  split_report [report_bytes] = Some (JStr [0x0416]) /\
  split_report [take 20 report_bytes; drop 20 report_bytes] = Some (JStr [0xFFFD; 0xFFFD]).
Proof. split; vm_compute; reflexivity. Qed.

(** ** Witnesses *)
Module BridgeSample.
Definition call : BridgeCall := History (js "--yes").
Definition card : jstr := js "card.json".
Definition shell : Shell Toy.world := {|
  Cli.resolve := @Cli.resolve _ CliSample.shell; Cli.dirname d := d; Cli.environment := @Cli.environment _ CliSample.shell;
  Cli.existsSync _ w := (true, w); Cli.readFile := @Cli.readFile _ CliSample.shell; Cli.mkdirSync _ w := (true, w);
  Cli.writeNewFile _ _ w := (true, w); Cli.linkSync _ _ w := (true, w); Cli.unlinkSync _ w := (true, w);
  Cli.store_opens _ _ w := (true, w); Cli.write_stderr _ w := w; Cli.stdin_isTTY := false; Cli.stdin_body w := ([], w);
  Cli.stdin_answer w := ([js "n"; js "o" ++ [10]], w) |}.
Definition run : (json * Z) * env Toy.world :=
  run_protocol (H := zod_example) (H0 := Toy.world_ops) (H1 := ToyNative.native) (H2 := Toy.crypto)
    (H3 := ToyRelay.fetch) (H4 := CliSample.parser) (H5 := shell) (argv (js "p") (ValidateContact card)) ProfileSample.opened.2.
Definition pieces : list jstr := [take 10 (stringify CliSample.run.1.1); drop 10 (stringify CliSample.run.1.1) ++ [10]].
Definition events : list child_event := [StdoutData (utf8_encode (pieces !!! 0%nat)); StderrData [10]; StdinError; StdoutData (utf8_encode (pieces !!! 1%nat))].
End BridgeSample.
Lemma execute_settles_once_witness :
  c_settled (execute [StdoutData [123]; TimerFires; Close None]) = Some timed_out.
Proof. refine (proj1 (execute_settles_once [StdoutData [123]] TimerFires [Close None] _ _)); reflexivity. Defined.
Lemma bridge_argv_read_witness :
  parseCommand (argv (js "/p") BridgeSample.call) = Ok (js "history", [(js "with", VText (js "--yes")); (js "profile", VText (js "/p")); (js "json", VTrue)]).
Proof. refine (proj1 (proj2 (bridge_argv_read (js "/p") BridgeSample.call _))). vm_compute. reflexivity. Defined.
Lemma bridge_reads_report_witness :
  c_settled (execute (BridgeSample.events ++ [Close (Some 3)]))
  = Some (Outcome (JBool false) (JStr (js "CONTACT_NOT_CONFIRMED")) 3 (failure_report (js "CONTACT_NOT_CONFIRMED"))).
Proof.
  set (read := bridge_reads_report (H := zod_example) (H0 := Toy.world_ops) (H1 := ToyNative.native) (H2 := Toy.crypto)
    (H3 := ToyRelay.fetch) (H4 := CliSample.parser) (H5 := CliSample.shell) CliSample.arguments ProfileSample.opened.2
    CliSample.run.1.1 3 CliSample.run.2 BridgeSample.events []).
  rewrite read.
  - vm_compute. reflexivity.
  - refine (eq_trans (surjective_pairing CliSample.run) (f_equal (fun p => (p, CliSample.run.2)) _)).
    refine (eq_trans (surjective_pairing CliSample.run.1) (f_equal (fun c => (CliSample.run.1.1, c)) _)). vm_compute. reflexivity.
  - vm_compute. reflexivity.
  - reflexivity.
  - exists BridgeSample.pieces. split; [vm_compute; reflexivity|]. split; vm_compute; reflexivity.
  - vm_compute. discriminate.
Defined.
Lemma validate_changes_nothing_witness : exists e s',
  BridgeSample.run = ((failure_report (f_code (classify e)), f_exitCode (classify e)), s').
Proof.
  destruct (validate_changes_nothing (H := zod_example) (H0 := Toy.world_ops) (H1 := ToyNative.native) (H2 := Toy.crypto)
    (H3 := ToyRelay.fetch) (H4 := CliSample.parser) (H5 := BridgeSample.shell) (js "p") BridgeSample.card
    ProfileSample.opened.2) as (e & s' & Hr & _).
  - vm_compute. reflexivity.
  - intros w. vm_compute. reflexivity.
  - vm_compute. discriminate.
  - exists e, s'. exact Hr.
Defined.
