(* ===== verification/Cards.v ===== *)
(** * Contact cards at the station: [apps/web/src/server/contactCards.ts] and
      [apps/web/src/client/contactCard.ts]

    A card travels from the browser through the station to the command line, by way of a
    file in a directory of its own.  Theorems: that directory is removed however the
    operation ends, the command line imports the checked card and nothing else, a validation
    succeeds exactly when the command line stopped at the confirmation, and what the browser
    accepts the station accepts with the same preview. *)

From S2P Require Import Prelude JsString Json NodePath Async Console Outbound Bridge.

(** ** What the station awaits *)

(** [new Error(message)] and [RequestBodyError] of [server.ts]. *)
Inductive thrown := RequestBodyError (statusCode : Z) (code message : jstr) | Thrown (message : jstr).
(** The body of a request: its chunks, then its end or its failure. *)
Inductive body_end := BodyEnds | BodyFails (message : jstr).
Record request_body := RequestBody { chunks : list bytes; final : body_end }.
Inductive question :=
  | AskCli (call : BridgeCall)
  | FetchHealth (url : jstr)
  | DoctorOrHealth (url : jstr)
  | PendingDoctor
  | PendingHealth (url : jstr)
  | ReadBody
  | MkDtemp (prefix : jstr)
  | WriteFile (path text : jstr)
  | ReadText (path : jstr)
  | ReadBytes (path : jstr)
  | RemoveTree (path : jstr).
(** [WriteFile] creates a file with mode 0600 that did not exist; [FetchHealth] answers
    [response.ok]; [DoctorOrHealth] starts both and is answered by the one that is settled first;
    the other is then pending. *)
Definition answer (q : question) : Type :=
  match q with
  | AskCli _ | PendingDoctor => CliOutcome
  | FetchHealth _ | PendingHealth _ => bool
  | DoctorOrHealth _ => res thrown CliOutcome + res thrown bool
  | ReadBody => request_body
  | MkDtemp _ | ReadText _ => jstr
  | ReadBytes _ => bytes
  | WriteFile _ _ | RemoveTree _ => unit
  end.

(** ** [contactCards.ts] *)

Record ContactCardPreview := Preview { identityId : jstr; deviceId : jstr }.
Abbreviation members := (list (jstr * json)).
Inductive ContactCardResult :=
  | CardOk (card : members) (preview : ContactCardPreview)
  | CardFailure (code : json) (message : jstr) (outcome : option CliOutcome).

(** [undefined] is [None]; [value?.key] *)
Definition objectValue (value : option json) : option members :=
  match value with Some (JObj members) => Some members | _ => None end.
Definition member_of (key : jstr) (object : option members) : option json :=
  match object with Some members => obj_get key members | None => None end.
Definition is_text (s : jstr) (value : option json) : bool := bool_decide (value = Some (JStr s)).
Definition invalid_card (message : jstr) : ContactCardResult := CardFailure (JStr (js "INVALID_CONTACT_CARD")) message None.
Definition card_of_value (value : option json) : ContactCardResult :=
  let card := objectValue value in
  let signalBundle := objectValue (member_of (js "signal_bundle") card) in
  let deviceRecord := objectValue (member_of (js "device_record") signalBundle) in
  let missing := invalid_card (js "Contact card is missing public identity fields") in
  match card with
  | Some card =>
      if negb (is_text (js "echolet_contact_card") (obj_get (js "type") card))
         || negb (bool_decide (obj_get (js "version") card = Some (JNum 1)))
      then missing
      else match member_of (js "identity_id") deviceRecord, member_of (js "device_id") deviceRecord with
           | Some (JStr (u :: identityId)), Some (JStr (v :: deviceId)) => CardOk card (Preview (u :: identityId) (v :: deviceId))
           | _, _ => missing
           end
  | None => missing
  end.
Definition parseContactCardJson (input : option json) : ContactCardResult :=
  match input with
  | Some (JStr text) =>
      match parse text with
      | Some value => card_of_value (Some value)
      | None => invalid_card (js "Contact card is not valid JSON")
      end
  | _ => card_of_value input
  end.

Definition errorDetail (outcome : CliOutcome) : option jstr :=
  match member_of (js "detail") (objectValue (member_of (js "error") (objectValue (Some (data outcome))))) with
  | Some (JStr detail) => Some detail
  | _ => None
  end.
Definition operationFailure (outcome : CliOutcome) : ContactCardResult :=
  CardFailure (code outcome) (js "Contact card operation failed") (Some outcome).
Definition ioFailure : ContactCardResult :=
  CardFailure (JStr (js "PERSISTENCE_FAILURE")) (js "Temporary contact card storage failed") None.

Section operations.
Context {S : Type}.
Abbreviation async := (prog S thrown question answer).
Open Scope async_scope.

(** The frame of the three operations: a directory of their own, every error an I/O failure,
    the directory removed at the end, come what may. *)
Definition with_directory (temporaryRoot prefix : jstr) (body : jstr -> async ContactCardResult) : async ContactCardResult :=
  attempt (await (MkDtemp (path_join [temporaryRoot; prefix]))) (fun made =>
    match made with
    | Ok directory =>
        finally (catching (body directory) (fun _ => Ret ioFailure))
          (if eqb directory [] then Ret tt else catching (await (RemoveTree directory)) (fun _ => Ret tt))
    | Err _ => Ret ioFailure
    end).
Definition exportContactCard (temporaryRoot : jstr) : async ContactCardResult :=
  with_directory temporaryRoot (js "echolet-web-export-") (fun directory =>
    let outputPath := path_join [directory; js "contact-card.json"] in
    outcome <~ await (AskCli (ExportContact outputPath));
    if negb (truthy (ok outcome)) then Ret (operationFailure outcome)
    else contents <~ await (ReadText outputPath); Ret (parseContactCardJson (Some (JStr contents)))).
Definition importContactCardJson (cardJson : option json) (temporaryRoot : jstr) : async ContactCardResult :=
  match parseContactCardJson cardJson with
  | CardOk card _ as parsed =>
      with_directory temporaryRoot (js "echolet-web-import-") (fun directory =>
        let inputPath := path_join [directory; js "contact-card.json"] in
        await (WriteFile inputPath (stringify (JObj card)));~
        outcome <~ await (AskCli (ImportContact inputPath));
        if negb (truthy (ok outcome)) then Ret (operationFailure outcome) else Ret parsed)
  | parsed => Ret parsed
  end.
Definition declined (outcome : CliOutcome) : bool :=
  eqb (code outcome) (JStr (js "CONTACT_NOT_CONFIRMED"))
  || (eqb (code outcome) (JStr (js "TRUST_FAILURE"))
      && bool_decide (errorDetail outcome = Some (js "CONTACT_NOT_CONFIRMED"))).
Definition validateContactCardJson (cardJson : option json) (temporaryRoot : jstr) : async ContactCardResult :=
  match parseContactCardJson cardJson with
  | CardOk card _ as parsed =>
      with_directory temporaryRoot (js "echolet-web-validate-") (fun directory =>
        let inputPath := path_join [directory; js "contact-card.json"] in
        await (WriteFile inputPath (stringify (JObj card)));~
        outcome <~ await (AskCli (ValidateContact inputPath));
        Ret (if declined outcome then parsed else operationFailure outcome))
  | parsed => Ret parsed
  end.
End operations.

(** ** What a card operation asks for and leaves behind *)

Abbreviation exch := (exchange (E := thrown) answer).
Inductive card_operation := Importing | Validating.
Definition run_operation {S} (op : card_operation) (cardJson : option json) (temporaryRoot : jstr) :
  prog S thrown question answer ContactCardResult :=
  match op with
  | Importing => importContactCardJson cardJson temporaryRoot
  | Validating => validateContactCardJson cardJson temporaryRoot
  end.
Definition op_call (op : card_operation) (path : jstr) : BridgeCall :=
  match op with Importing => ImportContact path | Validating => ValidateContact path end.
Definition op_prefix (op : card_operation) : jstr :=
  match op with Importing => js "echolet-web-import-" | Validating => js "echolet-web-validate-" end.
(** The command line's answer that makes the operation succeed. *)
Definition accepted (op : card_operation) (o : CliOutcome) : bool :=
  match op with Importing => truthy (ok o) | Validating => declined o end.
Definition card_path (directory : jstr) : jstr := path_join [directory; js "contact-card.json"].

Definition cli_answer (x : exch) : option (BridgeCall * CliOutcome) :=
  match x with existT (AskCli call) (Ok o) => Some (call, o) | _ => None end.
Definition created (x : exch) : option jstr :=
  match x with existT (MkDtemp _) (Ok directory) => Some directory | _ => None end.
Definition removed (x : exch) : option jstr :=
  match x with existT (RemoveTree directory) _ => Some directory | _ => None end.
(** Every directory that was made was removed, and it is what was done last. *)
Definition tidy (tr : list exch) : Prop :=
  forall directory, directory ∈ omap created tr -> directory <> [] -> option_map removed (last tr) = Some (Some directory).

(** What may be asked after [tr]: one directory; in it the checked card; the command line's
    verdict on that file; the removal of that directory. *)
Definition allowed (op : card_operation) (cardJson : option json) (temporaryRoot : jstr) (tr : list exch) (q : question) : Prop :=
  exists card preview, parseContactCardJson cardJson = CardOk card preview /\
  let made directory := existT (MkDtemp (path_join [temporaryRoot; op_prefix op])) (Ok directory) in
  match q with
  | MkDtemp prefix => tr = [] /\ prefix = path_join [temporaryRoot; op_prefix op]
  | WriteFile path text => exists directory, tr = [made directory] /\ path = card_path directory /\ text = stringify (JObj card)
  | AskCli call => exists directory,
      tr = [made directory; existT (WriteFile (card_path directory) (stringify (JObj card))) (Ok tt)]
      /\ call = op_call op (card_path directory)
  | RemoveTree directory => exists rest, tr = made directory :: rest
  | _ => False
  end.
(** The result: the card when the command line took it, else why not. *)
Definition result_of (op : card_operation) (cardJson : option json) (tr : list exch) (v : ContactCardResult) : Prop :=
  match omap cli_answer tr with
  | [] => (v = ioFailure \/ parseContactCardJson cardJson = v /\ tr = [])
          /\ match v with CardOk _ _ => False | CardFailure _ _ _ => True end
  | (_, o) :: _ => v = if accepted op o then parseContactCardJson cardJson else operationFailure o
  end.

Lemma directory_contained {S} (P : list exch -> question -> Prop) F root prefix (body : jstr -> prog S thrown question answer ContactCardResult) :
  P [] (MkDtemp (path_join [root; prefix])) ->
  (forall m, F [existT (MkDtemp (path_join [root; prefix])) (Err m)] (Ok ioFailure)) ->
  (forall directory, let tr : list exch := [existT (MkDtemp (path_join [root; prefix])) (Ok directory)] in
    always eq P (fun tr r => let v := match r with Ok v => v | Err _ => ioFailure end in
      (directory = [] -> F tr (Ok v)) /\
      (directory <> [] -> P tr (RemoveTree directory) /\ forall a, F (tr ++ [existT (RemoveTree directory) a]) (Ok v)))
      tr (body directory)) ->
  always eq P F [] (with_directory root prefix body).
Proof.
  intros HP Hm Hb. apply always_attempt. apply always_await; [done|]. cbn [app]. intros [directory|m]; [|apply Hm].
  apply always_finally, always_catching. eapply always_mono; [apply Hb|]. intros tr r [He Hr].
  assert (forall v, (directory = [] -> F (existT (MkDtemp (path_join [root; prefix])) (Ok directory) :: tr) (Ok v)) ->
    (directory <> [] -> P (existT (MkDtemp (path_join [root; prefix])) (Ok directory) :: tr) (RemoveTree directory) /\
       forall a, F ((existT (MkDtemp (path_join [root; prefix])) (Ok directory) :: tr) ++ [existT (RemoveTree directory) a]) (Ok v)) ->
    always (S := S) eq P (fun tr' u => F tr' (match u with Ok _ => Ok v | Err e => Err e end))
      (existT (MkDtemp (path_join [root; prefix])) (Ok directory) :: tr)
      (if eqb directory [] then Ret tt else catching (await (RemoveTree directory)) (fun _ => Ret tt))) as Hgo.
  { intros v H1 H2. destruct (eqb directory []) eqn:E; [apply (proj1 (eqb_eq _ _)) in E; by apply H1|].
    apply eqb_neq in E. destruct (H2 E) as [? HF]. apply always_catching. apply always_await; [done|].
    intros [[]|m']; apply HF. }
  destruct r as [v|m]; cbn [always]; by apply Hgo.
Qed.

Definition opened (prefix directory : jstr) (tr : list exch) : Prop :=
  exists rest, tr = existT (MkDtemp prefix) (Ok directory) :: rest.
(** The command line was not asked, or answered [o]. *)
Definition heard (tr : list exch) (o : option CliOutcome) : Prop :=
  match o with None => omap cli_answer tr = [] | Some o => exists call, omap cli_answer tr = [(call, o)] end.
Definition ends_well (op : card_operation) (cardJson : option json) (tr : list exch) (r : res thrown ContactCardResult) : Prop :=
  exists v, r = Ok v /\ tidy tr /\ result_of op cardJson tr v.
Lemma ends_failed op cardJson tr : tidy tr -> omap cli_answer tr = [] -> ends_well op cardJson tr (Ok ioFailure).
Proof. intros Ht Hn. exists ioFailure. split; [done|]. split; [done|]. unfold result_of. rewrite Hn. split; [by left|done]. Qed.
Lemma tidy_without tr : omap created tr = [] -> tidy tr.
Proof. intros H d Hd. rewrite H in Hd. by apply not_elem_of_nil in Hd. Qed.
Lemma tidy_empty tr : omap created tr = [[]] -> tidy tr.
Proof. intros H d Hd Hn. rewrite H in Hd. by apply list_elem_of_singleton in Hd. Qed.
Lemma tidy_removed tr directory a : omap created tr = [directory] -> tidy (tr ++ [existT (RemoveTree directory) a]).
Proof.
  intros H d Hd _. rewrite omap_app, H in Hd. cbn in Hd. apply list_elem_of_singleton in Hd as ->. by rewrite last_snoc.
Qed.

Lemma checked_card_contained {S} op cardJson temporaryRoot card preview
    (k : jstr -> CliOutcome -> prog S thrown question answer ContactCardResult) :
  parseContactCardJson cardJson = CardOk card preview ->
  (forall directory o, k directory o = Ret (if accepted op o then parseContactCardJson cardJson else operationFailure o)) ->
  always eq (allowed op cardJson temporaryRoot) (ends_well op cardJson) []
    (with_directory temporaryRoot (op_prefix op) (fun directory =>
       andThen (await (WriteFile (card_path directory) (stringify (JObj card)))) (fun _ =>
       andThen (await (AskCli (op_call op (card_path directory)))) (k directory)))).
Proof.
  intros E Hk. assert (forall (directory : jstr) (tr : list exch) (o : option CliOutcome),
      omap created tr = [directory] ->
      opened (path_join [temporaryRoot; op_prefix op]) directory tr ->
      let v := match o with None => ioFailure | Some o => if accepted op o then parseContactCardJson cardJson else operationFailure o end in
      heard tr o ->
      (directory = [] -> ends_well op cardJson tr (Ok v)) /\
      (directory <> [] -> allowed op cardJson temporaryRoot tr (RemoveTree directory) /\
         forall a, ends_well op cardJson (tr ++ [existT (RemoveTree directory) a]) (Ok v))) as Hend.
  { intros directory tr o Hc H0 v Ho. assert (forall tr' : list exch, omap cli_answer tr' = omap cli_answer tr -> tidy tr' ->
      ends_well op cardJson tr' (Ok v)) as Hw.
    { intros tr' Ea Ht. subst v. destruct o as [o|]; [|apply ends_failed; [done|by rewrite Ea]]. destruct Ho as (c & Ho).
      eexists. split; [done|]. split; [done|]. unfold result_of. by rewrite Ea, Ho. }
    split.
    - intros ->. apply Hw; [done|by apply tidy_empty].
    - intros _. split.
      + exists card, preview. by split.
      + intros a. apply Hw; [|by apply tidy_removed]. rewrite omap_app. cbn. by rewrite app_nil_r. }
  apply directory_contained.
  - exists card, preview. split; [done|]. by split.
  - intros m. apply ends_failed; [|done]. by apply tidy_without.
  - intros directory tr. apply always_andThen, always_await.
    { exists card, preview. split; [done|]. by eexists. }
    intros [[]|m]; [|apply (Hend directory _ None); [done|by eexists|done]].
    apply always_andThen, always_await.
    { exists card, preview. split; [done|]. by eexists. }
    intros [o|m]; [|apply (Hend directory _ None); [done|by eexists|done]].
    rewrite Hk. apply (Hend directory _ (Some o)); [done|by eexists|by eexists].
Qed.

Lemma operation_contained {S} op cardJson temporaryRoot :
  always (S := S) eq (allowed op cardJson temporaryRoot)
    (ends_well op cardJson)
    [] (run_operation op cardJson temporaryRoot).
Proof.
  destruct (parseContactCardJson cardJson) as [card preview|code message outcome] eqn:E.
  - destruct op; cbn [run_operation]; unfold importContactCardJson, validateContactCardJson; rewrite E.
    + refine (checked_card_contained Importing cardJson temporaryRoot card preview
        (fun _ o => if negb (truthy (ok o)) then Ret (operationFailure o) else Ret (CardOk card preview)) E _).
      intros _ o. cbn [accepted]. rewrite E. by destruct (truthy (ok o)).
    + refine (checked_card_contained Validating cardJson temporaryRoot card preview
        (fun _ o => Ret (if declined o then CardOk card preview else operationFailure o)) E _).
      intros _ o. cbn [accepted]. by rewrite E.
  - assert (ends_well op cardJson [] (Ok (CardFailure code message outcome))) as Hd.
    { eexists. split; [done|]. split; [by apply tidy_without|]. split; [by right|done]. }
    destruct op; cbn [run_operation]; unfold importContactCardJson, validateContactCardJson; rewrite E; exact Hd.
Qed.


(** C21: importing and validating a card, from any answers of the platform and the command
    line.  The card is parsed and checked before anything happens.  The only file written is
    the checked card, printed, under a directory made for it; the command line is asked once,
    about that file; the directory is removed last, whatever failed.  The operation never
    throws; it succeeds with the checked card exactly when the command line took it, and an
    operation that never reached the command line fails. *)
Theorem card_operation_contained {S} op cardJson temporaryRoot :
  always (S := S) eq (allowed op cardJson temporaryRoot)
    (fun tr r => exists v, r = Ok v /\ tidy tr /\ result_of op cardJson tr v)
    [] (run_operation op cardJson temporaryRoot).
Proof. apply operation_contained. Qed.

(** An export removes its directory too, and what it hands out is a parsed card of the file the
    command line wrote there. *)
Definition file_read (x : exch) : option jstr := match x with existT (ReadText _) (Ok text) => Some text | _ => None end.
Lemma export_contained {S} temporaryRoot :
  always (S := S) eq (fun tr q => match q with
      | ReadText path => exists directory, omap created tr = [directory] /\ path = card_path directory
      | AskCli call => exists directory, omap created tr = [directory] /\ call = ExportContact (card_path directory)
      | DoctorOrHealth _ | PendingDoctor | ReadBytes _ => False
      | _ => True
      end)
    (fun tr r => exists v, r = Ok v /\ tidy tr /\
       match v with CardOk _ _ => exists text, omap file_read tr = [text] /\ v = parseContactCardJson (Some (JStr text)) | _ => True end)
    [] (exportContactCard temporaryRoot).
Proof.
  unfold exportContactCard. apply directory_contained; [done|..].
  - intros m. exists ioFailure. split; [done|]. split; [by apply tidy_without|done].
  - intros directory tr.
    assert (forall (tr' : list exch) (v : ContactCardResult), omap created tr' = [directory] ->
      match v with CardOk _ _ => exists text, omap file_read tr' = [text] /\ v = parseContactCardJson (Some (JStr text)) | _ => True end ->
      (directory = [] -> exists v', Ok (E := thrown) v = Ok v' /\ tidy tr' /\
         match v' with CardOk _ _ => exists text, omap file_read tr' = [text] /\ v' = parseContactCardJson (Some (JStr text)) | _ => True end) /\
      (directory <> [] -> True /\ forall a, exists v', Ok (E := thrown) v = Ok v' /\ tidy (tr' ++ [existT (RemoveTree directory) a]) /\
         match v' with CardOk _ _ => exists text, omap file_read (tr' ++ [existT (RemoveTree directory) a]) = [text] /\ v' = parseContactCardJson (Some (JStr text)) | _ => True end)) as Hend.
    { intros tr' v Hc Hv. split.
      - intros ->. exists v. split; [done|]. split; [by apply tidy_empty|done].
      - intros _. split; [done|]. intros a. exists v. split; [done|]. split; [by apply tidy_removed|].
        rewrite omap_app. cbn. by rewrite app_nil_r. }
    apply always_andThen, always_await; [by exists directory|]. intros [o|m]; [|by apply Hend].
    destruct (negb (truthy (ok o))); [by apply Hend|]. apply always_andThen, always_await; [by exists directory|].
    intros [text|m]; [|by apply Hend]. apply Hend; [done|]. destruct (parseContactCardJson (Some (JStr text))) eqn:Ep; [|done].
    exists text. split; [done|by rewrite Ep].
Qed.

(** ** [client/contactCard.ts]: what the browser checks before it asks the station *)
Module Client.
Definition MAX_CONTACT_CARD_BYTES : Z := 128 * 1024.
Record ContactCardPreview := MkPreview { cp_identityId : jstr; cp_deviceId : jstr }.
Inductive ContactCardParseResult :=
  | Accepted (card : members) (preview : ContactCardPreview)
  | Refused (error : jstr).
Definition isRecord (value : option json) : bool := match value with Some (JObj _) => true | _ => false end.
Definition hasString (record : members) (key : jstr) : bool :=
  match obj_get key record with Some (JStr (_ :: _)) => true | _ => false end.
Definition hasRecord (record : members) (key : jstr) : bool := isRecord (obj_get key record).
Definition unsupported : jstr := js "Неподдерживаемый формат карточки. Нужна действительная contact-card Echolet.".
Definition bundle_shape (bundle : members) : bool :=
  is_text (js "signal_prekey_bundle") (obj_get (js "type") bundle)
  && bool_decide (obj_get (js "version") bundle = Some (JNum 2))
  && is_text (js "libsignal-pq-v1") (obj_get (js "suite") bundle)
  && hasRecord bundle (js "device_record")
  && hasString bundle (js "bundle_id")
  && hasString bundle (js "signal_identity_key")
  && hasRecord bundle (js "signed_prekey")
  && hasRecord bundle (js "kyber_prekey")
  && isRecord (obj_get (js "one_time_prekey") bundle)
  && hasString bundle (js "signature").
Definition parseContactCard (input : jstr) : ContactCardParseResult :=
  if eqb (trim input) [] then Refused (js "Вставьте JSON-карточку или выберите файл.")
  else if MAX_CONTACT_CARD_BYTES <? utf8_length input then Refused (js "Карточка превышает допустимый размер 128 КБ.")
  else match parse input with
       | None => Refused (js "Некорректный JSON карточки.")
       | Some (JObj value) =>
           match obj_get (js "signal_bundle") value with
           | Some (JObj bundle) =>
               if is_text (js "echolet_contact_card") (obj_get (js "type") value)
                  && bool_decide (obj_get (js "version") value = Some (JNum 1)) && bundle_shape bundle
               then match obj_get (js "device_record") bundle with
                    | Some (JObj device) =>
                        match obj_get (js "identity_id") device, obj_get (js "device_id") device with
                        | Some (JStr (u :: identity_id)), Some (JStr (v :: device_id)) =>
                            Accepted value (MkPreview (u :: identity_id) (v :: device_id))
                        | _, _ => Refused unsupported
                        end
                    | _ => Refused unsupported
                    end
               else Refused unsupported
           | _ => Refused unsupported
           end
       | Some _ => Refused (js "Карточка должна быть JSON-объектом.")
       end.
Definition isDuplicateContact (preview : ContactCardPreview) (identityIds : list jstr) : bool :=
  existsb (fun identityId => eqb identityId (cp_identityId preview)) identityIds.
Inductive ExportCardResponse := Exported (cardJson : jstr) | NotExported (error : jstr).
Definition parseExportCardResponse (status : Z) (body : jstr) : ExportCardResponse :=
  if (status <? 200) || (300 <=? status) then
    let unavailable := NotExported (js "Экспорт недоступен (HTTP " ++ show_Z status ++ js ").") in
    match parse body with
    | Some (JObj error) =>
        let code := match obj_get (js "code") error with
                    | Some (JStr code) => Some code
                    | _ => match obj_get (js "error") error with Some (JStr code) => Some code | _ => None end
                    end in
        match code with
        | Some (u :: code) => NotExported (js "Ошибка экспорта: " ++ u :: code)
        | _ => unavailable
        end
    | _ => unavailable
    end
  else match parseContactCard body with
       | Accepted _ _ => Exported body
       | Refused error => NotExported error
       end.

Lemma accepted_shape input card preview :
  parseContactCard input = Accepted card preview ->
  exists bundle device u v identity_id device_id, parse input = Some (JObj card) /\
    is_text (js "echolet_contact_card") (obj_get (js "type") card) = true /\
    obj_get (js "version") card = Some (JNum 1) /\
    obj_get (js "signal_bundle") card = Some (JObj bundle) /\ obj_get (js "device_record") bundle = Some (JObj device) /\
    obj_get (js "identity_id") device = Some (JStr (u :: identity_id)) /\
    obj_get (js "device_id") device = Some (JStr (v :: device_id)) /\
    preview = MkPreview (u :: identity_id) (v :: device_id) /\ utf8_length input <= MAX_CONTACT_CARD_BYTES.
Proof.
  unfold parseContactCard. destruct (eqb (trim input) []); [done|].
  destruct (Z.ltb_spec MAX_CONTACT_CARD_BYTES (utf8_length input)) as [|Hl]; [done|].
  destruct (parse input) as [[| | | | |value]|] eqn:Ep; try done.
  destruct (obj_get (js "signal_bundle") value) as [[| | | | |bundle]|] eqn:Eb; try done.
  destruct (is_text _ (obj_get (js "type") value) && _ && bundle_shape bundle) eqn:Es; [|done].
  apply andb_true_iff in Es as [[Et Ev%bool_decide_eq_true]%andb_true_iff _].
  destruct (obj_get (js "device_record") bundle) as [[| | | | |device]|] eqn:Ed; try done.
  destruct (obj_get (js "identity_id") device) as [[| | |[|u i]| |]|] eqn:Ei; try done.
  destruct (obj_get (js "device_id") device) as [[| | |[|v d]| |]|] eqn:Ew; try done.
  intros [= <- <-]. exists bundle, device, u, v, i, d. by split_and!.
Qed.
End Client.

Lemma accepted_card_read input card preview :
  Client.parseContactCard input = Client.Accepted card preview ->
  parseContactCardJson (Some (JObj card)) = CardOk card (Preview (Client.cp_identityId preview) (Client.cp_deviceId preview)).
Proof.
  intros (bundle & device & u & v & i & d & _ & Et & Ev & Eb & Ed & Ei & Ew & -> & _)%Client.accepted_shape.
  cbn [parseContactCardJson]. unfold card_of_value. cbn [objectValue member_of]. rewrite Et, Ev, Eb.
  cbn [objectValue member_of]. rewrite Ed. cbn [objectValue member_of negb orb]. rewrite bool_decide_true by done.
  by rewrite Ei, Ew.
Qed.

(** Browser and station agree on a card.  A text the browser accepts is at most 128 KiB and
    is accepted by the station, with the same card and the same identifiers in the preview the
    operator is asked about, whether the text itself or its parsed value is sent; and the card
    the station then writes for the command line is, read back, that same card. *)
Theorem client_and_station_agree input card preview :
  Client.parseContactCard input = Client.Accepted card preview ->
  utf8_length input <= Client.MAX_CONTACT_CARD_BYTES /\
  (let accepted := CardOk card (Preview (Client.cp_identityId preview) (Client.cp_deviceId preview)) in
   parseContactCardJson (Some (JStr input)) = accepted /\ parseContactCardJson (Some (JObj card)) = accepted) /\
  (json_ok (JObj card) = true -> parseContactCardJson (Some (JStr (stringify (JObj card)))) =
     CardOk card (Preview (Client.cp_identityId preview) (Client.cp_deviceId preview))).
Proof.
  intros H. pose proof (accepted_card_read _ _ _ H) as Hc.
  apply Client.accepted_shape in H as (bundle & device & u & v & i & d & Ep & _ & _ & _ & _ & _ & _ & _ & Hl).
  split; [done|]. split; [split|intros Hok]; unfold parseContactCardJson.
  - by rewrite Ep.
  - done.
  - by rewrite parse_stringify.
Qed.

Module CardSample.
Definition text : jstr := jsq "{'type':'echolet_contact_card','version':1,'signal_bundle':{'type':'signal_prekey_bundle','version':2,'suite':'libsignal-pq-v1','bundle_id':'b','signal_identity_key':'k','signed_prekey':{},'kyber_prekey':{},'one_time_prekey':{},'signature':'s','device_record':{'identity_id':'id','device_id':'dev'}}}".
Definition card : members := match parse text with Some (JObj card) => card | _ => [] end.
End CardSample.
Lemma client_and_station_agree_witness :
  parseContactCardJson (Some (JStr CardSample.text)) = CardOk CardSample.card (Preview (js "id") (js "dev")).
Proof.
  refine (proj1 (proj1 (proj2 (client_and_station_agree CardSample.text CardSample.card (Client.MkPreview (js "id") (js "dev")) _)))).
  vm_compute. reflexivity.
Defined.
