(* ===== verification/Station.v ===== *)
(** * The station's view of itself: [apps/web/src/server/stationStatus.ts], [stationApi.ts]
      and the reader in [client/stationStatus.ts]

    Two checks run again and again, on timers and on request: the command line's [doctor] and
    the relay's [/health].  Answers come in any order; each refresh has a generation, and the
    answer of one that is no longer the latest is dropped.  Theorems: an answer never replaces
    what a later refresh found, the profile is shown as verified exactly when there is one, and
    the browser reads back what the station wrote. *)

From S2P Require Import Prelude JsString Json Platform Text Console Outbound Bridge Cards.

Inductive ConnectionState := Connected | Disconnected | ConnectionUnknown.
Inductive ReachabilityState := Reachable | NotReachable | ReachabilityUnknown.
Inductive ProfileVerdict := Verified | Unverified | VerdictUnknown.
Definition connection_text (s : ConnectionState) : jstr :=
  match s with Connected => js "connected" | Disconnected => js "disconnected" | ConnectionUnknown => js "unknown" end.
Definition reachability_text (s : ReachabilityState) : jstr :=
  match s with Reachable => js "reachable" | NotReachable => js "unreachable" | ReachabilityUnknown => js "unknown" end.
Definition verdict_text (s : ProfileVerdict) : jstr :=
  match s with Verified => js "verified" | Unverified => js "unverified" | VerdictUnknown => js "unknown" end.

Record StationStatusSnapshot := Snapshot {
  sn_profile : option members; sn_profileState : ProfileVerdict; sn_relay : ConnectionState;
  sn_relayReachability : ReachabilityState; sn_relayUrl : jstr; sn_pingMs : option Z; sn_statusUpdatedAt : jstr }.
(** The private fields; the options stay beside. *)
Record StationStatus := MkStation {
  profile : option members; profileState : ProfileVerdict; relay : ConnectionState;
  relayReachability : ReachabilityState; pingMs : option Z; statusUpdatedAt : jstr;
  profileRefreshGeneration : Z; relayRefreshGeneration : Z }.

(** [new Date(now).toISOString()] of a clock. *)
Definition instant (now : Z) : jstr := iso_text now.
Definition createStation (now : Z) : StationStatus :=
  MkStation None VerdictUnknown ConnectionUnknown ReachabilityUnknown None (instant now) 0 0.
Definition touch (now : Z) (s : StationStatus) : StationStatus :=
  MkStation (profile s) (profileState s) (relay s) (relayReachability s) (pingMs s) (instant now)
    (profileRefreshGeneration s) (relayRefreshGeneration s).

(** [refreshProfile], up to its [await] and after it *)
Definition refreshProfile_starts (s : StationStatus) : Z * StationStatus :=
  let generation := profileRefreshGeneration s + 1 in
  (generation, MkStation (profile s) (profileState s) (relay s) (relayReachability s) (pingMs s) (statusUpdatedAt s)
                 generation (relayRefreshGeneration s)).
Definition is_code (outcome : CliOutcome) (name : jstr) : bool := eqb (code outcome) (JStr name).
Definition verdict (profile : option members) (outcome : CliOutcome) : ProfileVerdict :=
  match profile with
  | Some _ => Verified
  | None => if is_code outcome (js "SPAWN_ERROR") || is_code outcome (js "CLI_TIMEOUT") then VerdictUnknown else Unverified
  end.
Definition refreshProfile_ends (generation : Z) (outcome : CliOutcome) (now : Z) (s : StationStatus) : StationStatus :=
  let found := if truthy (ok outcome) then objectValue (Some (data outcome)) else None in
  if negb (generation =? profileRefreshGeneration s) then s
  else touch now (MkStation found (verdict found outcome) (relay s) (relayReachability s) (pingMs s) (statusUpdatedAt s)
                    (profileRefreshGeneration s) (relayRefreshGeneration s)).

(** [refreshRelayReachability]: [None] is a [fetch] that threw or was aborted *)
Definition refreshRelay_starts (s : StationStatus) : Z * StationStatus :=
  let generation := relayRefreshGeneration s + 1 in
  (generation, MkStation (profile s) (profileState s) (relay s) (relayReachability s) (pingMs s) (statusUpdatedAt s)
                 (profileRefreshGeneration s) generation).
(** [elapsed] is [now() - startedAt], read only for an answer that is [ok]. *)
Definition refreshRelay_ends (generation : Z) (response : option bool) (elapsed now : Z) (s : StationStatus) : StationStatus :=
  let '(found, ping) := match response with
                        | Some true => (Reachable, Some (Z.max 0 elapsed))
                        | _ => (NotReachable, None)
                        end in
  if negb (generation =? relayRefreshGeneration s) then s
  else touch now (MkStation (profile s) (profileState s) (relay s) found ping (statusUpdatedAt s)
                    (profileRefreshGeneration s) (relayRefreshGeneration s)).

Definition recordPoll (outcome : CliOutcome) (now : Z) (s : StationStatus) : StationStatus :=
  let relay := if truthy (ok outcome) then Connected
               else if is_code outcome (js "RELAY_UNAVAILABLE") || is_code outcome (js "CLI_TIMEOUT")
                       || is_code outcome (js "SPAWN_ERROR")
               then Disconnected else ConnectionUnknown in
  touch now (MkStation (profile s) (profileState s) relay (relayReachability s) (pingMs s) (statusUpdatedAt s)
               (profileRefreshGeneration s) (relayRefreshGeneration s)).
Definition snapshot (relayUrl : jstr) (s : StationStatus) : StationStatusSnapshot :=
  Snapshot (profile s) (profileState s) (relay s) (relayReachability s) relayUrl (pingMs s) (statusUpdatedAt s).

(** ** [stationApi.ts] *)

Definition createStatusPayload (label : jstr) (s : StationStatusSnapshot) : members :=
  [ (js "label", JStr label);
    (js "profile", match sn_profile s with Some profile => JObj profile | None => JNull end);
    (js "profileState", JStr (verdict_text (sn_profileState s)));
    (js "relay", JStr (connection_text (sn_relay s)));
    (js "relayReachability", JStr (reachability_text (sn_relayReachability s)));
    (js "relayUrl", JStr (sn_relayUrl s));
    (js "pingMs", match sn_pingMs s with Some ms => JNum ms | None => JNull end);
    (js "statusUpdatedAt", JStr (sn_statusUpdatedAt s)) ].
Definition validationFailureHttpStatus (code : json) : Z :=
  if eqb code (JStr (js "INVALID_CONTACT_CARD")) || eqb code (JStr (js "TRUST_FAILURE")) then 400
  else if eqb code (JStr (js "CLI_TIMEOUT")) then 504 else 500.

(** ** [client/stationStatus.ts] *)
Module Browser.
Record StationStatus := MkStatus {
  label : option jstr; profile : option members; profileState : ProfileVerdict; relay : ConnectionState;
  relayReachability : ReachabilityState; relayUrl : jstr; pingMs : option Z; telemetry : option (list json) }.
Definition connectionState (value : option json) : ConnectionState :=
  if is_text (js "connected") value then Connected
  else if is_text (js "disconnected") value then Disconnected else ConnectionUnknown.
Definition verdict_of (value : option json) : ProfileVerdict :=
  if is_text (js "verified") value then Verified else if is_text (js "unverified") value then Unverified else VerdictUnknown.
Definition reachabilityState (value : option json) : ReachabilityState :=
  if is_text (js "reachable") value then Reachable
  else if is_text (js "unreachable") value then NotReachable else ReachabilityUnknown.
Definition text_of (value : option json) : option jstr := match value with Some (JStr s) => Some s | _ => None end.
Definition parseStationStatus (value : json) : option StationStatus :=
  match value with
  | JObj value =>
      if bool_decide (obj_get (js "ok") value = Some (JBool false)) then None
      else Some (MkStatus (text_of (obj_get (js "label") value)) (objectValue (obj_get (js "profile") value))
        (verdict_of (obj_get (js "profileState") value)) (connectionState (obj_get (js "relay") value))
        (reachabilityState (obj_get (js "relayReachability") value))
        (default_to [] (text_of (obj_get (js "relayUrl") value)))
        (match obj_get (js "pingMs") value with Some (JNum ms) => Some ms | _ => None end)
        (match obj_get (js "telemetry") value with Some (JArr items) => Some items | _ => None end))
  | _ => None
  end.
Definition effectiveRelayState (localStation relay : ConnectionState) : ConnectionState :=
  match localStation with Disconnected => Disconnected | _ => relay end.
End Browser.

(** ** Refreshes that overtake each other *)

Inductive station_event :=
  | ProfileStarts | ProfileAnswers (generation : Z) (outcome : CliOutcome)
  | RelayStarts | RelayAnswers (generation : Z) (response : option bool) (elapsed : Z)
  | Polled (outcome : CliOutcome).
(** Each event with the clock at that moment. *)
Definition station_step (s : StationStatus) (e : station_event * Z) : StationStatus :=
  match e with
  | (ProfileStarts, _) => (refreshProfile_starts s).2
  | (ProfileAnswers generation outcome, now) => refreshProfile_ends generation outcome now s
  | (RelayStarts, _) => (refreshRelay_starts s).2
  | (RelayAnswers generation response elapsed, now) => refreshRelay_ends generation response elapsed now s
  | (Polled outcome, now) => recordPoll outcome now s
  end.
Definition station_run (now : Z) (events : list (station_event * Z)) : StationStatus :=
  fold_left station_step events (createStation now).
(** Refreshes are numbered from 1 in the order they start. *)
Definition profile_starts (events : list (station_event * Z)) : Z :=
  Z.of_nat (length (List.filter (fun e => match e.1 with ProfileStarts => true | _ => false end) events)).
Definition relay_starts (events : list (station_event * Z)) : Z :=
  Z.of_nat (length (List.filter (fun e => match e.1 with RelayStarts => true | _ => false end) events)).
(** The answers among [events] are of refreshes [allowed], and the latest number is not given out again. *)
Definition profile_answers (allowed : Z -> Prop) (events : list (station_event * Z)) : Prop :=
  Forall (fun e => match e.1 with ProfileAnswers g _ => allowed g | _ => True end) events.
Definition relay_answers (allowed : Z -> Prop) (events : list (station_event * Z)) : Prop :=
  Forall (fun e => match e.1 with RelayAnswers g _ _ => allowed g | _ => True end) events.

Ltac station_cases :=
  repeat match goal with
  | |- context [if ?b then _ else _] => destruct b eqn:?
  | |- context [match ?x with _ => _ end] => destruct x eqn:?
  end.
Lemma starts_cons e events :
  profile_starts (e :: events) = profile_starts events + (match e.1 with ProfileStarts => 1 | _ => 0 end) /\
  relay_starts (e :: events) = relay_starts events + (match e.1 with RelayStarts => 1 | _ => 0 end).
Proof. unfold profile_starts, relay_starts. destruct e as [[] ?]; cbn [List.filter fst length]; split; lia. Qed.
Lemma run_generations events s :
  profileRefreshGeneration (fold_left station_step events s) = profileRefreshGeneration s + profile_starts events /\
  relayRefreshGeneration (fold_left station_step events s) = relayRefreshGeneration s + relay_starts events.
Proof.
  revert s. induction events as [|e events IH]; intros s; cbn [fold_left].
  { unfold profile_starts, relay_starts. cbn. lia. }
  destruct (starts_cons e events) as [-> ->], (IH (station_step s e)) as [-> ->].
  destruct e as [[] ?]; cbn [station_step refreshProfile_starts refreshRelay_starts fst snd]; unfold refreshProfile_ends, refreshRelay_ends;
    station_cases; cbn; lia.
Qed.
Lemma run_generation now events :
  profileRefreshGeneration (station_run now events) = profile_starts events /\
  relayRefreshGeneration (station_run now events) = relay_starts events.
Proof. unfold station_run. destruct (run_generations events (createStation now)) as [-> ->]. cbn. lia. Qed.
(** Answers of refreshes older than the latest one leave its part of the view alone. *)
Lemma stale_profile events s :
  profile_answers (fun g => g < profileRefreshGeneration s) events ->
  let s' := fold_left station_step events s in profile s' = profile s /\ profileState s' = profileState s.
Proof.
  revert s. induction events as [|e events IH]; intros s H; [done|]. inversion H as [|? ? He Hes]; subst. cbn [fold_left].
  destruct (run_generations [e] s) as [Hg _]. cbn [fold_left] in Hg.
  assert (profile (station_step s e) = profile s /\ profileState (station_step s e) = profileState s) as [H1 H2].
  { destruct e as [[|g o| |g r el|o] t]; cbn in He; cbn [station_step]; [done| |done| |done].
    - unfold refreshProfile_ends. cbv zeta. replace (g =? profileRefreshGeneration s) with false by (symmetry; apply Z.eqb_neq; lia). done.
    - unfold refreshRelay_ends. station_cases; done. }
  rewrite <- H1, <- H2. apply IH. eapply Forall_impl; [exact Hes|]. intros [[|g o| | |] t]; cbn; try done.
  intros Hlt. rewrite Hg. unfold profile_starts. lia.
Qed.
Lemma stale_relay events s :
  relay_answers (fun g => g < relayRefreshGeneration s) events ->
  let s' := fold_left station_step events s in relayReachability s' = relayReachability s /\ pingMs s' = pingMs s.
Proof.
  revert s. induction events as [|e events IH]; intros s H; [done|]. inversion H as [|? ? He Hes]; subst. cbn [fold_left].
  destruct (run_generations [e] s) as [_ Hg]. cbn [fold_left] in Hg.
  assert (relayReachability (station_step s e) = relayReachability s /\ pingMs (station_step s e) = pingMs s) as [H1 H2].
  { destruct e as [[|g o| |g r el|o] t]; cbn in He; cbn [station_step]; [done| |done| |done].
    - unfold refreshProfile_ends. cbv zeta. station_cases; done.
    - unfold refreshRelay_ends. replace (g =? relayRefreshGeneration s) with false by (symmetry; apply Z.eqb_neq; lia).
      station_cases; done. }
  rewrite <- H1, <- H2. apply IH. eapply Forall_impl; [exact Hes|]. intros [[| | |g r el|] t]; cbn; try done.
  intros Hlt. rewrite Hg. unfold relay_starts. lia.
Qed.

(** What is to be shown, read off the events, the last of them first: the last answer that came
    from the refresh that was the newest one started by then. *)
Fixpoint newest_profile_answer (latest_first : list (station_event * Z)) : option CliOutcome :=
  match latest_first with
  | [] => None
  | (ProfileAnswers g outcome, _) :: earlier =>
      if g =? profile_starts earlier then Some outcome else newest_profile_answer earlier
  | _ :: earlier => newest_profile_answer earlier
  end.
Fixpoint newest_relay_answer (latest_first : list (station_event * Z)) : option (option bool * Z) :=
  match latest_first with
  | [] => None
  | (RelayAnswers g response elapsed, _) :: earlier =>
      if g =? relay_starts earlier then Some (response, elapsed) else newest_relay_answer earlier
  | _ :: earlier => newest_relay_answer earlier
  end.
(** How the answer of a refresh shows: the profile a successful [doctor] reported, or none, with
    its verdict; reachable with the round trip for a response that was ok, or unreachable. *)
Definition profile_shown (outcome : CliOutcome) : option members * ProfileVerdict :=
  let found := if truthy (ok outcome) then objectValue (Some (data outcome)) else None in
  (found, verdict found outcome).
Definition relay_shown (response : option bool) (elapsed : Z) : ReachabilityState * option Z :=
  match response with Some true => (Reachable, Some (Z.max 0 elapsed)) | _ => (NotReachable, None) end.
Definition profile_view (s : StationStatus) : option members * ProfileVerdict := (profile s, profileState s).
Definition relay_view (s : StationStatus) : ReachabilityState * option Z := (relayReachability s, pingMs s).

Lemma starts_rev events :
  profile_starts (rev events) = profile_starts events /\ relay_starts (rev events) = relay_starts events.
Proof. unfold profile_starts, relay_starts. by rewrite !List.filter_rev, !length_rev. Qed.
Lemma run_snoc now events e : station_run now (events ++ [e]) = station_step (station_run now events) e.
Proof. unfold station_run. by rewrite fold_left_app. Qed.
Lemma profile_view_spec now events :
  profile_view (station_run now events)
  = match newest_profile_answer (rev events) with Some outcome => profile_shown outcome | None => (None, VerdictUnknown) end.
Proof.
  induction events as [|e events IH] using rev_ind; [done|]. rewrite run_snoc, rev_app_distr. cbn [rev app].
  destruct (run_generation now events) as [Hg _], (starts_rev events) as [Hs _].
  destruct e as [[|g o| |g r el|o] t]; cbn [newest_profile_answer station_step]; try exact IH.
  - rewrite Hs, <- Hg. unfold refreshProfile_ends. cbv zeta. destruct (g =? _); [done|exact IH].
  - rewrite <- IH. unfold refreshRelay_ends. by station_cases.
Qed.
Lemma relay_view_spec now events :
  relay_view (station_run now events)
  = match newest_relay_answer (rev events) with
    | Some (response, elapsed) => relay_shown response elapsed
    | None => (ReachabilityUnknown, None)
    end.
Proof.
  induction events as [|e events IH] using rev_ind; [done|]. rewrite run_snoc, rev_app_distr. cbn [rev app].
  destruct (run_generation now events) as [_ Hg], (starts_rev events) as [_ Hs].
  destruct e as [[|g o| |g r el|o] t]; cbn [newest_relay_answer station_step]; try exact IH.
  - rewrite <- IH. unfold refreshProfile_ends. by station_cases.
  - rewrite Hs, <- Hg. unfold refreshRelay_ends, relay_shown. destruct r as [[]|], (g =? _); done || exact IH.
Qed.

(** Older answers change nothing after the newest refresh has started, and, once it answered,
    its answer stays. *)
Lemma profile_unmoved now before between t :
  profile_answers (fun g => g <= profile_starts before) between ->
  profile_view (station_run now (before ++ (ProfileStarts, t) :: between)) = profile_view (station_run now before).
Proof.
  intros Ha. destruct (run_generation now before) as [Hg _]. unfold station_run in *. rewrite fold_left_app. cbn [fold_left station_step].
  set (s := fold_left station_step before _) in *. set (s1 := (refreshProfile_starts s).2).
  assert (profileRefreshGeneration s1 = profile_starts before + 1) as H1 by (cbn; lia).
  destruct (stale_profile between s1) as [Hp Hq]; [|unfold profile_view; by rewrite Hp, Hq].
  eapply Forall_impl; [exact Ha|]. intros [[|g o| | |] ?]; cbn [fst]; try done. rewrite H1. lia.
Qed.
Lemma relay_unmoved now before between t :
  relay_answers (fun g => g <= relay_starts before) between ->
  relay_view (station_run now (before ++ (RelayStarts, t) :: between)) = relay_view (station_run now before).
Proof.
  intros Ha. destruct (run_generation now before) as [_ Hg]. unfold station_run in *. rewrite fold_left_app. cbn [fold_left station_step].
  set (s := fold_left station_step before _) in *. set (s1 := (refreshRelay_starts s).2).
  assert (relayRefreshGeneration s1 = relay_starts before + 1) as H1 by (cbn; lia).
  destruct (stale_relay between s1) as [Hp Hq]; [|unfold relay_view; by rewrite Hp, Hq].
  eapply Forall_impl; [exact Ha|]. intros [[| | |g o e|] ?]; cbn [fst]; try done. rewrite H1. lia.
Qed.
Lemma starts_between before between t :
  profile_starts (before ++ (ProfileStarts, t) :: between) = profile_starts before + 1 + profile_starts between /\
  relay_starts (before ++ (RelayStarts, t) :: between) = relay_starts before + 1 + relay_starts between.
Proof. unfold profile_starts, relay_starts. rewrite !List.filter_app. cbn. rewrite !length_app. cbn. lia. Qed.
Lemma profile_settled now before between t outcome t' after :
  profile_answers (fun g => g <= profile_starts before) after -> profile_starts between = 0 ->
  profile_view (station_run now ((before ++ (ProfileStarts, t) :: between)
    ++ (ProfileAnswers (profile_starts before + 1) outcome, t') :: after)) = profile_shown outcome.
Proof.
  intros Ha H0. destruct (starts_between before between t) as [Hs _].
  set (events := before ++ (ProfileStarts, t) :: between) in *. destruct (run_generation now events) as [Hg _].
  change (?x :: after) with ([x] ++ after). rewrite app_assoc. unfold station_run. rewrite fold_left_app.
  change (fold_left station_step (events ++ _) _) with (station_run now (events ++ [(ProfileAnswers (profile_starts before + 1) outcome, t')])).
  rewrite run_snoc. cbn [station_step]. set (s := station_run now events) in *.
  assert (refreshProfile_ends (profile_starts before + 1) outcome t' s
    = touch t' (MkStation (profile_shown outcome).1 (profile_shown outcome).2 (relay s) (relayReachability s) (pingMs s)
        (statusUpdatedAt s) (profileRefreshGeneration s) (relayRefreshGeneration s))) as ->.
  { unfold refreshProfile_ends. cbv zeta. by replace (_ =? profileRefreshGeneration s) with true by (symmetry; apply Z.eqb_eq; lia). }
  match goal with |- profile_view (fold_left _ _ ?s1) = _ => destruct (stale_profile after s1) as [Hp Hq] end.
  - eapply Forall_impl; [exact Ha|]. intros [[|g o| | |] ?]; cbn [fst]; try done. cbn. lia.
  - unfold profile_view. rewrite Hp, Hq. done.
Qed.
Lemma relay_settled now before between t response elapsed t' after :
  relay_answers (fun g => g <= relay_starts before) after -> relay_starts between = 0 ->
  relay_view (station_run now ((before ++ (RelayStarts, t) :: between)
    ++ (RelayAnswers (relay_starts before + 1) response elapsed, t') :: after)) = relay_shown response elapsed.
Proof.
  intros Ha H0. destruct (starts_between before between t) as [_ Hs].
  set (events := before ++ (RelayStarts, t) :: between) in *. destruct (run_generation now events) as [_ Hg].
  change (?x :: after) with ([x] ++ after). rewrite app_assoc. unfold station_run. rewrite fold_left_app.
  change (fold_left station_step (events ++ _) _) with (station_run now (events ++ [(RelayAnswers (relay_starts before + 1) response elapsed, t')])).
  rewrite run_snoc. cbn [station_step]. set (s := station_run now events) in *.
  assert (refreshRelay_ends (relay_starts before + 1) response elapsed t' s
    = touch t' (MkStation (profile s) (profileState s) (relay s) (relay_shown response elapsed).1 (relay_shown response elapsed).2
        (statusUpdatedAt s) (profileRefreshGeneration s) (relayRefreshGeneration s))) as ->.
  { unfold refreshRelay_ends. replace (_ =? relayRefreshGeneration s) with true by (symmetry; apply Z.eqb_eq; lia).
    by destruct response as [[]|]. }
  match goal with |- relay_view (fold_left _ _ ?s1) = _ => destruct (stale_relay after s1) as [Hp Hq] end.
  - eapply Forall_impl; [exact Ha|]. intros [[| | |g o e|] ?]; cbn [fst]; try done. cbn. lia.
  - unfold relay_view. rewrite Hp, Hq. by destruct (relay_shown response elapsed).
Qed.

(** C22: the newest refresh wins.  From the station's start, in any order of starts, answers
    and polls, what is shown of the profile (of the relay's reachability) is the last answer
    that came from the refresh that was the newest one started when it came, and nothing is
    shown before there is one.  So an answer that comes after a later refresh has started is
    dropped, though that later one has not answered yet; answers of refreshes started before
    the newest one change nothing, whether they come before its answer or after it; and once
    its own answer came, exactly that answer is shown until another refresh starts. *)
Theorem newest_refresh_wins now events :
  (let s := station_run now events in
   profile_view s = match newest_profile_answer (rev events) with
                    | Some outcome => profile_shown outcome | None => (None, VerdictUnknown) end /\
   relay_view s = match newest_relay_answer (rev events) with
                  | Some (response, elapsed) => relay_shown response elapsed
                  | None => (ReachabilityUnknown, None) end) /\
  (forall before between t, events = before ++ (ProfileStarts, t) :: between ->
   let older events := profile_answers (fun g => g <= profile_starts before) events in
   older between ->
   profile_view (station_run now events) = profile_view (station_run now before) /\
   (profile_starts between = 0 -> forall outcome t' after, older after ->
    profile_view (station_run now (events ++ (ProfileAnswers (profile_starts before + 1) outcome, t') :: after))
    = profile_shown outcome)) /\
  (forall before between t, events = before ++ (RelayStarts, t) :: between ->
   let older events := relay_answers (fun g => g <= relay_starts before) events in
   older between ->
   relay_view (station_run now events) = relay_view (station_run now before) /\
   (relay_starts between = 0 -> forall response elapsed t' after, older after ->
    relay_view (station_run now (events ++ (RelayAnswers (relay_starts before + 1) response elapsed, t') :: after))
    = relay_shown response elapsed)).
Proof.
  split; [exact (conj (profile_view_spec now events) (relay_view_spec now events))|].
  split; intros before between t -> older Hb; (split; [now apply profile_unmoved || now apply relay_unmoved|]).
  - intros H0 outcome t' after Ha. now apply profile_settled.
  - intros H0 response elapsed t' after Ha. now apply relay_settled.
Qed.

(** What is shown is consistent: a profile with its verdict, a round trip with its relay. *)
Definition consistent (s : StationStatus) : Prop :=
  (profileState s = Verified <-> profile s <> None) /\
  (relayReachability s = Reachable <-> pingMs s <> None) /\
  match pingMs s with Some ms => 0 <= ms | None => True end.
Lemma step_consistent s e : consistent s -> consistent (station_step s e).
Proof.
  intros H. destruct e as [[|g o| |g r el|o] t]; cbn [station_step]; try exact H.
  - unfold refreshProfile_ends. cbv zeta. case_match; [done|]. destruct H as (_ & H). split; [|exact H]. cbn.
    unfold verdict. destruct (if truthy (ok o) then _ else _); [done|]. station_cases; split; done.
  - unfold refreshRelay_ends. destruct r as [[]|]; (case_match; [done|]); destruct H as [H _]; (split; [exact H|]); cbn;
      (split; [done|]); lia || done.
Qed.
(** Whatever the order of the answers, the station shows a profile as verified exactly when
    it has one to show, the relay as reachable exactly when it has a round trip to show, and no
    round trip is negative, whatever the clock does. *)
Theorem station_consistent now events : consistent (station_run now events).
Proof.
  unfold station_run. assert (consistent (createStation now)) as H by (by repeat split).
  revert H. generalize (createStation now). induction events as [|e events IH]; intros s H; [done|].
  cbn [fold_left]. by apply IH, step_consistent.
Qed.

(** ** The browser reads what the station wrote *)

Definition status_response (label : jstr) (s : StationStatusSnapshot) (telemetry : list json) : json :=
  JObj ((js "ok", JBool true) :: createStatusPayload label s ++ [(js "telemetry", JArr telemetry)]).
(** What the browser knows of a snapshot. *)
Definition browser_view (label : jstr) (s : StationStatusSnapshot) (telemetry : option (list json)) : Browser.StationStatus :=
  Browser.MkStatus (Some label) (sn_profile s) (sn_profileState s) (sn_relay s) (sn_relayReachability s) (sn_relayUrl s)
    (sn_pingMs s) telemetry.
Lemma words_read :
  (forall c, Browser.connectionState (Some (JStr (connection_text c))) = c) /\
  (forall r, Browser.reachabilityState (Some (JStr (reachability_text r))) = r) /\
  (forall v, Browser.verdict_of (Some (JStr (verdict_text v))) = v).
Proof. split_and!; intros []; vm_compute; reflexivity. Qed.
(** Reading the members of the response, whatever their values. *)
Lemma response_members a b c d e f g h i j :
  let l := [(js "ok", a); (js "label", b); (js "profile", c); (js "profileState", d); (js "relay", e); (js "relayReachability", f);
            (js "relayUrl", g); (js "pingMs", h); (js "statusUpdatedAt", i); (js "telemetry", j)] in
  obj_get (js "ok") l = Some a /\
  obj_get (js "label") l = Some b /\
  obj_get (js "profile") l = Some c /\
  obj_get (js "profileState") l = Some d /\
  obj_get (js "relay") l = Some e /\
  obj_get (js "relayReachability") l = Some f /\
  obj_get (js "relayUrl") l = Some g /\
  obj_get (js "pingMs") l = Some h /\
  obj_get (js "telemetry") l = Some j.
Proof. cbv zeta. repeat split; vm_compute; reflexivity. Qed.
Lemma payload_members b c d e f g h i :
  let l := [(js "label", b); (js "profile", c); (js "profileState", d); (js "relay", e); (js "relayReachability", f);
            (js "relayUrl", g); (js "pingMs", h); (js "statusUpdatedAt", i)] in
  obj_get (js "ok") l = None /\
  obj_get (js "label") l = Some b /\
  obj_get (js "profile") l = Some c /\
  obj_get (js "profileState") l = Some d /\
  obj_get (js "relay") l = Some e /\
  obj_get (js "relayReachability") l = Some f /\
  obj_get (js "relayUrl") l = Some g /\
  obj_get (js "pingMs") l = Some h /\
  obj_get (js "telemetry") l = None.
Proof. cbv zeta. repeat split; vm_compute; reflexivity. Qed.

(** The browser reads what the station wrote.  The response of [/api/status] and the event
    that is broadcast are, printed and parsed, read as the station's snapshot: its label, its
    profile and verdict, the relay's state and reachability, address and round trip, and the
    log when the response carries one; nothing is inferred and nothing is lost but the time of
    the last change. *)
Theorem status_read_back label s telemetry :
  (json_ok (status_response label s telemetry) = true ->
   option_map Browser.parseStationStatus (parse (stringify (status_response label s telemetry)))
   = Some (Some (browser_view label s (Some telemetry)))) /\
  (json_ok (JObj (createStatusPayload label s)) = true ->
   option_map Browser.parseStationStatus (parse (stringify (JObj (createStatusPayload label s))))
   = Some (Some (browser_view label s None))).
Proof.
  destruct s as [p v c r url ms at_]. destruct words_read as (Hc & Hr & Hv). split; intros Hok; rewrite (parse_stringify _ Hok);
    cbn [option_map]; f_equal; unfold status_response, createStatusPayload, browser_view, Browser.parseStationStatus;
    cbn [sn_profile sn_profileState sn_relay sn_relayReachability sn_relayUrl sn_pingMs sn_statusUpdatedAt app].
  - destruct (response_members (JBool true) (JStr label) match p with Some p => JObj p | None => JNull end (JStr (verdict_text v))
      (JStr (connection_text c)) (JStr (reachability_text r)) (JStr url) match ms with Some ms => JNum ms | None => JNull end
      (JStr at_) (JArr telemetry)) as (-> & -> & -> & -> & -> & -> & -> & -> & ->).
    rewrite bool_decide_false by done. rewrite Hc, Hr, Hv. by destruct p, ms.
  - destruct (payload_members (JStr label) match p with Some p => JObj p | None => JNull end (JStr (verdict_text v))
      (JStr (connection_text c)) (JStr (reachability_text r)) (JStr url) match ms with Some ms => JNum ms | None => JNull end
      (JStr at_)) as (-> & -> & -> & -> & -> & -> & -> & -> & ->).
    rewrite bool_decide_false by done. rewrite Hc, Hr, Hv. by destruct p, ms.
Qed.
Module StationSample.
Definition sample : StationStatusSnapshot :=
  Snapshot (Some [(js "identity_id", JStr (js "me"))]) Verified Disconnected Reachable (js "https://relay") (Some 12) (instant 0).
End StationSample.
Lemma status_read_back_witness :
  option_map Browser.parseStationStatus (parse (stringify (status_response (js "Op") StationSample.sample [])))
  = Some (Some (browser_view (js "Op") StationSample.sample (Some []))).
Proof. refine (proj1 (status_read_back (js "Op") StationSample.sample []) _). vm_compute. reflexivity. Defined.
Lemma newest_refresh_wins_witness :
  let doctor identity := Outcome (JBool true) (JStr (js "ok")) 0 (JObj [(js "identity_id", JStr identity)]) in
  let answer g identity t := (ProfileAnswers g (doctor identity), t) in
  profile_view (station_run 0 (([(ProfileStarts, 1)] ++ (ProfileStarts, 2) :: [answer 1 (js "old") 3])
    ++ answer (1 + 1) (js "new") 4 :: [answer 1 (js "old") 5]))
  = (Some [(js "identity_id", JStr (js "new"))], Verified).
Proof.
  intros doctor answer.
  destruct (newest_refresh_wins 0 ([(ProfileStarts, 1)] ++ (ProfileStarts, 2) :: [answer 1 (js "old") 3])) as (_ & H & _).
  assert (forall t, profile_answers (fun g => g <= profile_starts [(ProfileStarts, 1)]) [answer 1 (js "old") t]) as Hold.
  { intros t. constructor; [|constructor]. cbn. discriminate. }
  destruct (H [(ProfileStarts, 1)] [answer 1 (js "old") 3] 2 eq_refl (Hold 3)) as [_ Hs].
  refine (eq_trans (Hs eq_refl (doctor (js "new")) 4 [answer 1 (js "old") 5] (Hold 5)) _). vm_compute. reflexivity.
Defined.
