(* ===== verification/Server.v ===== *)
(** * The web station: [apps/web/src/server/server.ts]

    A local HTTP server that drives the command line for the operator's browser: routes,
    a poller, a reachability timer, a log that is broadcast, and the files of the page.
    The handlers are programs of [Async] over one shared state.  Theorems: no request that
    the guard refuses, and no import without the operator's confirmation, ever starts a
    command; one poll runs at a time, whatever the timers and the answers do; the log is
    bounded; a body over the limit is refused; a served file lies in the page's directory,
    but for one shape of path. *)

From stdpp Require Import relations.
From S2P Require Import Prelude JsString Json Platform NodePath Config Signal Outbound Args Console.
From S2P Require Import Async Guard Bridge Cards Station.

(** ** What the handlers use of the platform *)

(** The WHATWG parser against a base, the query of a parsed address, the random name of a log
    line, the local time of day, and what is on disk when a file is looked for. *)
Class StationHost (W : Type) := {
  new_URL_base : jstr -> jstr -> option url;
  searchParams_get : url -> jstr -> option jstr;
  random_name : W -> jstr * W;
  time_of_day : Z -> jstr;
  exists_sync : jstr -> W -> bool;
  tmpdir : jstr;
}.

Create HintDb station discriminated.
#[export] Hint Constants Opaque : station.

(** ** The configuration *)

Record ServerConfig := MkServerConfig {
  port : option Z; profileDir : jstr; label : jstr; relayUrl : jstr; storeKeyEnv : jstr; cliPath : jstr }.
Definition default_config (cwd DEFAULT_CLI_PATH : jstr) : ServerConfig :=
  MkServerConfig (Some 3000) (path_resolve cwd [cwd; js ".tmp/demo-data/alice"]) (js "Operator")
    (js "https://depr.tail5a88fb.ts.net:8443") (js "ECHOLET_STORE_KEY") DEFAULT_CLI_PATH.
(** One option with its value; [None] when [arg] is none of the six. *)
Definition set_config (cwd arg next : jstr) (c : ServerConfig) : option ServerConfig :=
  if eqb arg (js "--port") then Some (MkServerConfig (parseInt10 next) (profileDir c) (label c) (relayUrl c) (storeKeyEnv c) (cliPath c))
  else if eqb arg (js "--profile") then Some (MkServerConfig (port c) (path_resolve cwd [next]) (label c) (relayUrl c) (storeKeyEnv c) (cliPath c))
  else if eqb arg (js "--label") then Some (MkServerConfig (port c) (profileDir c) next (relayUrl c) (storeKeyEnv c) (cliPath c))
  else if eqb arg (js "--relay-url") then Some (MkServerConfig (port c) (profileDir c) (label c) next (storeKeyEnv c) (cliPath c))
  else if eqb arg (js "--store-key-env") then Some (MkServerConfig (port c) (profileDir c) (label c) (relayUrl c) next (cliPath c))
  else if eqb arg (js "--cli") then Some (MkServerConfig (port c) (profileDir c) (label c) (relayUrl c) (storeKeyEnv c) (path_resolve cwd [next]))
  else None.
Fixpoint parse_args (cwd : jstr) (argv : list jstr) (c : ServerConfig) : ServerConfig :=
  match argv with
  | [] => c
  | arg :: rest =>
      match rest with
      | (u :: next) :: rest' =>
          match set_config cwd arg (u :: next) c with
          | Some c' => parse_args cwd rest' c'
          | None => parse_args cwd rest c
          end
      | _ => parse_args cwd rest c
      end
  end.
Definition parseArgv (cwd DEFAULT_CLI_PATH : jstr) (argv : list jstr) : ServerConfig :=
  parse_args cwd argv (default_config cwd DEFAULT_CLI_PATH).

(** ** The shared state *)

Inductive telemetry_type := Info | Success | Warn | ErrorLine | CryptoLine.
Definition telemetry_text (t : telemetry_type) : jstr :=
  match t with Info => js "info" | Success => js "success" | Warn => js "warn" | ErrorLine => js "error" | CryptoLine => js "crypto" end.
Record TelemetryItem := MkItem { ti_id : jstr; ti_time : jstr; ti_type : telemetry_type; ti_message : jstr }.
Definition item_json (i : TelemetryItem) : json :=
  JObj [ (js "id", JStr (ti_id i)); (js "time", JStr (ti_time i)); (js "type", JStr (telemetry_text (ti_type i)));
         (js "message", JStr (ti_message i)) ].
(** What was written to the connections: a whole response, the head of a stream, a piece of one. *)
Inductive output :=
  | Respond (request : Z) (status : Z) (contentType : jstr) (body : jstr)
  | RespondFile (request : Z) (contentType : jstr) (content : bytes)
  | OpenStream (request : Z)
  | WriteStream (request : Z) (payload : jstr).

Record server (W : Type) := Server {
  sv_status : StationStatus; sv_telemetry : list TelemetryItem; sv_clients : list Z; sv_output : list output;
  sv_polling : bool; sv_world : W }.
Arguments Server {W}.
Arguments sv_status {W}. Arguments sv_telemetry {W}. Arguments sv_clients {W}. Arguments sv_output {W}.
Arguments sv_polling {W}. Arguments sv_world {W}.

Definition numericField (value : json) (key : jstr) : option Z :=
  match value with
  | JObj members => match obj_get key members with Some (JNum n) => Some n | _ => None end
  | _ => None
  end.

(** ** [readBody] *)

Definition MAX_JSON_BODY_BYTES : Z := 128 * 1024.
Definition too_large : thrown := RequestBodyError 413 (js "PAYLOAD_TOO_LARGE") (js "JSON body exceeds 128 KiB").
Definition not_object : thrown := RequestBodyError 400 (js "INVALID_JSON_BODY") (js "JSON body must be an object").
Definition malformed : thrown := RequestBodyError 400 (js "INVALID_JSON_BODY") (js "JSON body is malformed").
Definition parse_body (body : jstr) : res thrown members :=
  if eqb body [] then Ok []
  else match parse body with
       | Some (JObj members) => Ok members
       | Some _ => Err not_object
       | None => Err malformed
       end.
Fixpoint read_body_chunks (count : Z) (body : jstr) (chunks : list bytes) (final : body_end) : res thrown members :=
  match chunks with
  | [] => match final with BodyEnds => parse_body body | BodyFails message => Err (Thrown message) end
  | chunk :: chunks =>
      let count := count + Z.of_nat (length chunk) in
      if MAX_JSON_BODY_BYTES <? count then Err too_large
      else read_body_chunks count (body ++ utf8_to_string chunk) chunks final
  end.
Definition read_body (b : request_body) : res thrown members := read_body_chunks 0 [] (Cards.chunks b) (final b).

(** ** The steps on the shared state *)

Section station.
Context {W : Type} `{!World W} `{!StationHost W}.
Abbreviation state := (server W).
Abbreviation async := (prog state thrown question answer).
Open Scope async_scope.
Context (config : ServerConfig).

Definition on_status (f : StationStatus -> StationStatus) (s : state) : state :=
  Server (f (sv_status s)) (sv_telemetry s) (sv_clients s) (sv_output s) (sv_polling s) (sv_world s).
Definition with_polling (b : bool) (s : state) : state :=
  Server (sv_status s) (sv_telemetry s) (sv_clients s) (sv_output s) b (sv_world s).
Definition with_clients (f : list Z -> list Z) (s : state) : state :=
  Server (sv_status s) (sv_telemetry s) (f (sv_clients s)) (sv_output s) (sv_polling s) (sv_world s).
Definition emit (written : list output) (s : state) : state :=
  Server (sv_status s) (sv_telemetry s) (sv_clients s) (sv_output s ++ written) (sv_polling s) (sv_world s).
(** [Date.now()] *)
Definition read_clock (s : state) : Z * state :=
  let '(now, w) := date_now (sv_world s) in
  (now, Server (sv_status s) (sv_telemetry s) (sv_clients s) (sv_output s) (sv_polling s) w).

Definition sse_payload (event : jstr) (data : json) : jstr :=
  js "event: " ++ event ++ 10 :: js "data: " ++ stringify data ++ [10; 10].
Definition broadcastSSE (event : jstr) (data : json) (s : state) : state :=
  emit (map (fun client => WriteStream client (sse_payload event data)) (sv_clients s)) s.
(** [push], then [shift] when there are more than 200 *)
Definition keep_200 (items : list TelemetryItem) : list TelemetryItem :=
  if (200 <? length items)%nat then drop 1 items else items.
Definition logTelemetry (type : telemetry_type) (message : jstr) (s : state) : state :=
  let '(now, s) := read_clock s in
  let time := time_of_day now ++ js "." ++ pad_start 3 48 (show_Z (now mod 1000)) in
  let '(id, w) := random_name (sv_world s) in
  let item := MkItem id time type message in
  broadcastSSE (js "telemetry") (item_json item)
    (Server (sv_status s) (keep_200 (sv_telemetry s ++ [item])) (sv_clients s) (sv_output s) (sv_polling s) w).
Definition statusSnapshot (s : state) : StationStatusSnapshot := snapshot (relayUrl config) (sv_status s).
Definition statusPayload (s : state) : members := createStatusPayload (label config) (statusSnapshot s).
Definition broadcastStatus (s : state) : state := broadcastSSE (js "status") (JObj (statusPayload s)) s.
Definition log (type : telemetry_type) (message : jstr) : async unit := update (logTelemetry type message).
Definition writeJson (request status : Z) (value : json) : async unit :=
  update (emit [Respond request status (js "application/json") (stringify value)]).

(** ** The refreshes of [StationStatus] *)

(** The clock is read where the new state is stamped; reading it has no other effect. *)
Definition stamp (f : Z -> StationStatus -> StationStatus) (s : state) : state :=
  let '(now, s) := read_clock s in on_status (f now) s.
Definition start_profile : async Z :=
  sync (fun s => let '(generation, status) := refreshProfile_starts (sv_status s) in (generation, on_status (fun _ => status) s)).
Definition end_profile (generation : Z) (outcome : CliOutcome) : async unit :=
  update (stamp (refreshProfile_ends generation outcome)).
Definition start_relay : async (Z * Z) :=
  sync (fun s => let '(generation, status) := refreshRelay_starts (sv_status s) in
                 let '(startedAt, s) := read_clock (on_status (fun _ => status) s) in ((generation, startedAt), s)).
Definition end_relay (started : Z * Z) (response : res thrown bool) : async unit :=
  update (fun s =>
    let answered := match response with Ok ok => Some ok | Err _ => None end in
    let '(now, s) := read_clock s in
    stamp (refreshRelay_ends started.1 answered (now - started.2)) s).
Definition refreshProfile : async unit :=
  generation <~ start_profile; outcome <~ await (AskCli Doctor); end_profile generation outcome.
Definition health_url : jstr := relayUrl config ++ js "/health".
Definition refreshRelayReachability : async unit :=
  started <~ start_relay; attempt (await (FetchHealth health_url)) (end_relay started).
(** [Promise.all] of the two: both have started, and are answered in either order. *)
Definition refreshBoth : async unit :=
  generation <~ start_profile;
  started <~ start_relay;
  first <~ await (DoctorOrHealth health_url);
  match first with
  | inl doctor =>
      outcome <~ of_res doctor;
      end_profile generation outcome;~
      attempt (await (PendingHealth health_url)) (end_relay started)
  | inr response =>
      end_relay started response;~
      outcome <~ await PendingDoctor;
      end_profile generation outcome
  end.

(** ** The timers and the start *)

Definition received_from (outcome : CliOutcome) : Z := default_to 0 (numericField (data outcome) (js "received")).
Definition poll_answered (outcome : CliOutcome) : async unit :=
  update (stamp (recordPoll outcome));~
  update broadcastStatus;~
  if truthy (ok outcome) && truthy (data outcome)
  then let received := received_from outcome in
       if 0 <? received
       then log Success (js "[Inbound] " ++ show_Z received ++ js " new encrypted message(s) downloaded from relay");~
            update (broadcastSSE (js "new_message") (JObj [(js "received", JNum received)]))
       else Ret tt
  else if negb (truthy (ok outcome)) then log Warn (js "[Poll Warning] " ++ to_text (code outcome)) else Ret tt.
Definition poll_failed (error : thrown) : async unit :=
  log ErrorLine (js "[Poll Error] " ++ match error with Thrown message => message | RequestBodyError _ _ message => message end).
Definition pollLoop : async unit :=
  polling <~ get sv_polling;
  if polling then Ret tt
  else
    update (with_polling true);~
    finally (catching (outcome <~ await (AskCli Poll); poll_answered outcome) poll_failed) (update (with_polling false)).
Definition reachTimer : async unit :=
  refreshRelayReachability;~
  ping <~ get (fun s => sn_pingMs (statusSnapshot s));
  update (broadcastSSE (js "ping")
    (JObj match ping with
          | Some ms => [(js "ping", JNum ms); (js "status", JStr (js "reachable"))]
          | None => [(js "ping", JNull); (js "status", JStr (js "unreachable"))]
          end));~
  update broadcastStatus.
Definition bootstrap : async unit :=
  log CryptoLine (js "Initializing Echolet Web Node for [" ++ label config ++ js "]");~
  log Info (js "Profile store: " ++ profileDir config);~
  log Info (js "Target relay: " ++ relayUrl config);~
  refreshRelayReachability;~
  ping <~ get (fun s => sn_pingMs (statusSnapshot s));
  match ping with
  | Some ms => log Success (js "Relay reachable: " ++ show_Z ms ++ js "ms latency")
  | None => log Warn (js "Relay unreachable or checking...")
  end;~
  refreshProfile;~
  profile <~ get (fun s => sn_profile (statusSnapshot s));
  match profile with
  | Some profile =>
      let identityId := match obj_get (js "identity_id") profile with Some (JStr id) => id | _ => [] end in
      log CryptoLine (js "Identity verified: " ++ take 16 identityId ++ js "...");~
      log Info (js "Pinned contacts count: " ++ show_Z (default_to 0 (numericField (JObj profile) (js "contact_count"))))
  | None => Ret tt
  end.

(** ** Requests *)

Record request := MkRequest { rq_id : Z; rq_method : option jstr; rq_url : option jstr; rq_headers : headers }.
Definition refuse (rq : request) (r : GuardRejection) : async unit :=
  writeJson (rq_id rq) (gr_status r) (JObj [(js "ok", JBool false); (js "code", JStr (gr_code r)); (js "error", JStr (gr_error r))]).
Definition failure_json (code : json) (error : jstr) : json :=
  JObj [(js "ok", JBool false); (js "code", code); (js "error", JStr error)].
Definition writeRequestError (rq : request) (error : thrown) : async unit :=
  match error with
  | RequestBodyError statusCode code message => writeJson (rq_id rq) statusCode (failure_json (JStr code) message)
  | Thrown _ => writeJson (rq_id rq) 500 (failure_json (JStr (js "INTERNAL_ERROR")) (js "Request failed"))
  end.
Definition thrown_message (error : thrown) : jstr :=
  match error with Thrown message => message | RequestBodyError _ _ message => message end.
Definition outcome_json (o : CliOutcome) : json :=
  JObj [(js "ok", ok o); (js "code", code o); (js "exitCode", JNum (exitCode o)); (js "data", data o)].
Definition writeOutcome (rq : request) (o : CliOutcome) : async unit :=
  writeJson (rq_id rq) (if truthy (ok o) then 200 else 500) (outcome_json o).
Definition readBody : async members := body <~ await ReadBody; of_res (read_body body).
Definition text_member (key : jstr) (body : members) : jstr := match obj_get key body with Some (JStr s) => s | _ => [] end.
Definition preview_json (p : ContactCardPreview) : json :=
  JObj [(js "preview", JObj [(js "identityId", JStr (identityId p)); (js "deviceId", JStr (deviceId p))])].

Definition events_route (rq : request) : async unit :=
  update (emit [OpenStream (rq_id rq)]);~
  update (fun s => emit [WriteStream (rq_id rq) (sse_payload (js "status") (JObj (statusPayload s)))] s);~
  update (with_clients (fun clients => clients ++ [rq_id rq])).
(** [req.on("close")] of a stream *)
Definition close_stream (client : Z) : async unit := update (with_clients (List.filter (fun c => negb (c =? client)))).
Definition last_50 (items : list TelemetryItem) : list TelemetryItem := drop (length items - 50) items.
Definition status_route (rq : request) : async unit :=
  refreshBoth;~
  response <~ get (fun s => status_response (label config) (statusSnapshot s) (map item_json (last_50 (sv_telemetry s))));
  writeJson (rq_id rq) 200 response.
Definition history_route (rq : request) (url : url) : async unit :=
  match searchParams_get url (js "with") with
  | Some (u :: withId) => outcome <~ await (AskCli (History (u :: withId))); writeOutcome rq outcome
  | _ => writeJson (rq_id rq) 400 (JObj [(js "ok", JBool false); (js "error", JStr (js "Missing 'with' parameter"))])
  end.
Definition send_route (rq : request) : async unit :=
  catching
    (body <~ readBody;
     let to := text_member (js "to") body in
     let text := text_member (js "text") body in
     if eqb to [] || eqb text []
     then writeJson (rq_id rq) 400 (JObj [(js "ok", JBool false); (js "error", JStr (js "Missing 'to' or 'text'"))])
     else log CryptoLine (js "Encrypting message via Double Ratchet for recipient " ++ take 12 to ++ js "...");~
          outcome <~ await (AskCli (Send to text));
          (if truthy (ok outcome)
           then log Success (js "[Outbound] Envelope delivered to relay (status: " ++ template (field (js "status") (data outcome)) ++ js ")");~
                update (broadcastSSE (js "outbound_sent") (data outcome))
           else log ErrorLine (js "Send failure: " ++ to_text (code outcome)));~
          writeOutcome rq outcome)
    (fun error => writeJson (rq_id rq) 500 (JObj [(js "ok", JBool false); (js "error", JStr (thrown_message error))])).
Definition publish_route (rq : request) : async unit :=
  log CryptoLine (js "Minting and publishing Signal PreKey Bundles...");~
  outcome <~ await (AskCli Publish);
  (if truthy (ok outcome) then log Success (js "PreKey pool updated: target 20, claimable 20")
   else log ErrorLine (js "Publish failed: " ++ to_text (code outcome)));~
  writeOutcome rq outcome.
Definition export_route (rq : request) : async unit :=
  result <~ exportContactCard tmpdir;
  match result with
  | CardOk card _ => writeJson (rq_id rq) 200 (JObj card)
  | CardFailure code message _ =>
      log ErrorLine (js "Contact export failed: " ++ to_text code);~
      writeJson (rq_id rq) 500 (failure_json code message)
  end.
Definition validate_route (rq : request) : async unit :=
  catching
    (body <~ readBody;
     result <~ validateContactCardJson (obj_get (js "cardJson") body) tmpdir;
     match result with
     | CardOk _ preview => writeJson (rq_id rq) 200 (JObj [(js "ok", JBool true); (js "data", preview_json preview)])
     | CardFailure code message _ => writeJson (rq_id rq) (validationFailureHttpStatus code) (failure_json code message)
     end)
    (writeRequestError rq).
Definition refused_card (code : json) : bool :=
  eqb code (JStr (js "INVALID_CONTACT_CARD")) || eqb code (JStr (js "TRUST_FAILURE")).
Definition import_route (rq : request) : async unit :=
  catching
    (body <~ readBody;
     match obj_get (js "cardJson") body with
     | None => writeJson (rq_id rq) 400 (failure_json (JStr (js "MISSING_CONTACT_CARD")) (js "Missing cardJson"))
     | Some cardJson =>
         if negb (bool_decide (obj_get (js "confirmed") body = Some (JBool true)))
         then writeJson (rq_id rq) 409
                (failure_json (JStr (js "CONFIRMATION_REQUIRED")) (js "Confirm the validated contact card before import"))
         else log CryptoLine (js "Verifying contact card cryptographic signatures...");~
              result <~ importContactCardJson (Some cardJson) tmpdir;
              match result with
              | CardOk _ preview =>
                  log Success (js "Contact trusted & added to secure address book");~
                  refreshProfile;~
                  update (broadcastSSE (js "contact_added") (JObj []));~
                  update broadcastStatus;~
                  writeJson (rq_id rq) 200 (JObj [(js "ok", JBool true); (js "code", JStr (js "ok")); (js "data", preview_json preview)])
              | CardFailure code message _ =>
                  log ErrorLine (js "Contact import failed: " ++ to_text code);~
                  writeJson (rq_id rq) (if refused_card code then 400 else 500) (failure_json code message)
              end
     end)
    (writeRequestError rq).

(** The files of the page. *)
Definition MIME_TYPES : list (jstr * jstr) :=
  [ (js ".html", js "text/html"); (js ".js", js "application/javascript"); (js ".css", js "text/css");
    (js ".json", js "application/json"); (js ".svg", js "image/svg+xml"); (js ".png", js "image/png"); (js ".jpg", js "image/jpeg") ].
Context (cwd CLIENT_DIST : jstr).
Definition file_path (pathname : jstr) : jstr :=
  if eqb pathname (js "/") then js "index.html" else match pathname with u :: rest => if u =? slash then rest else pathname | [] => [] end.
Definition static_target (pathname : jstr) : jstr := path_resolve cwd [CLIENT_DIST; file_path pathname].
Definition index_page : jstr := path_resolve cwd [CLIENT_DIST; js "index.html"].
Definition plain_response (rq : request) (status : Z) (body : jstr) : async unit :=
  update (emit [Respond (rq_id rq) status [] body]).
Definition static_route (rq : request) (pathname : jstr) : async unit :=
  found <~ get (fun s => exists_sync (static_target pathname) (sv_world s));
  let target := if found then static_target pathname else index_page in
  present <~ get (fun s => exists_sync target (sv_world s));
  if present
  then let contentType := default_to (js "application/octet-stream") (assoc (lower (path_extname target)) MIME_TYPES) in
       attempt (await (ReadBytes target)) (fun content =>
         match content with
         | Ok content => update (emit [RespondFile (rq_id rq) contentType content])
         | Err _ => plain_response rq 500 (js "Error loading file")
         end)
  else plain_response rq 404 (js "Not Found").

Definition is_method (rq : request) (m : jstr) : bool := bool_decide (rq_method rq = Some m).
Definition host_text (hs : headers) : jstr :=
  match hs (js "host") with Some (One value) => value | Some (Many values) => join (js ",") values | None => js "undefined" end.
Definition request_url (rq : request) : option url :=
  new_URL_base (default_to (js "/") (rq_url rq)) (js "http://" ++ host_text (rq_headers rq)).
Definition api_prefix : jstr := js "/api/".
Definition route (rq : request) (url : url) : async unit :=
  let pathname := u_pathname url in
  if eqb pathname (js "/api/events") then events_route rq
  else if eqb pathname (js "/api/status") && is_method rq (js "GET") then status_route rq
  else if eqb pathname (js "/api/history") && is_method rq (js "GET") then history_route rq url
  else if eqb pathname (js "/api/send") && is_method rq (js "POST") then send_route rq
  else if eqb pathname (js "/api/publish") && is_method rq (js "POST") then publish_route rq
  else if eqb pathname (js "/api/contacts/export") && is_method rq (js "GET") then export_route rq
  else if eqb pathname (js "/api/contacts/validate") && is_method rq (js "POST") then validate_route rq
  else if eqb pathname (js "/api/contacts/import") && is_method rq (js "POST") then import_route rq
  else static_route rq pathname.
Definition handle (rq : request) : async unit :=
  match checkHost (rq_headers rq) (port config) with
  | Some rejection => refuse rq rejection
  | None =>
      match request_url rq with
      | None => Throw (Thrown (js "Invalid URL"))
      | Some url =>
          match (if starts_with api_prefix (u_pathname url) then checkApiRequest (rq_method rq) (rq_headers rq) (port config) else None) with
          | Some rejection => refuse rq rejection
          | None => route rq url
          end
      end
  end.

(** ** The station as an event loop *)

Inductive event := PollTimer | ReachTimer | Bootstrap | Request (rq : request) | Disconnected (client : Z).
Definition event_handler (e : event) : async unit :=
  match e with
  | PollTimer => pollLoop
  | ReachTimer => reachTimer
  | Bootstrap => bootstrap
  | Request rq => handle rq
  | Disconnected client => close_stream client
  end.
(** Which events come and which answers are given is left to the environment. *)
Context (occurs : event -> Prop) (answered : exch -> Prop).
Definition station_handler (e : event) (p : async unit) : Prop := occurs e /\ p = event_handler e.
Definition station_start (now : Z) (w : W) : state := Server (createStation now) [] [] [] false w.
Definition station_reaches (now : Z) (w : W) : loop state thrown question event answer -> Prop :=
  reachable station_handler answered (station_start now w).
End station.

(** ** What every handler keeps *)

Section kept.
Context {W : Type} `{!World W} `{!StationHost W}.
Abbreviation state := (server W).

(** The log stays bounded, what was written stays written, and the poller's flag is left alone. *)
Definition bounded (s : state) : Prop := (length (sv_telemetry s) <= 200)%nat.
Definition station_keeps (s s' : state) : Prop :=
  (bounded s -> bounded s') /\ (exists new, sv_output s' = sv_output s ++ new) /\ sv_polling s' = sv_polling s.
#[export] Instance station_keeps_preorder : PreOrder station_keeps.
Proof.
  split.
  - intros s. split; [done|]. split; [exists []; by rewrite app_nil_r|done].
  - intros s1 s2 s3 (H1 & (n1 & E1) & P1) (H2 & (n2 & E2) & P2). split; [auto|]. split; [|congruence].
    exists (n1 ++ n2). by rewrite E2, E1, app_assoc.
Qed.
Lemma keeps_same s s' : sv_telemetry s' = sv_telemetry s -> (exists new, sv_output s' = sv_output s ++ new) ->
  sv_polling s' = sv_polling s -> station_keeps s s'.
Proof. intros Ht Ho Hp. split; [unfold bounded; by rewrite Ht|done]. Qed.
Lemma keeps_emit new s : station_keeps s (emit new s).
Proof. apply keeps_same; [done| |done]. by exists new. Qed.
Lemma keeps_broadcast e d s : station_keeps s (broadcastSSE e d s).
Proof. apply keeps_emit. Qed.
Lemma keeps_broadcastStatus config s : station_keeps s (broadcastStatus config s).
Proof. apply keeps_emit. Qed.
Lemma keeps_clients f s : station_keeps s (with_clients f s).
Proof. apply keeps_same; [done| |done]. exists []. by rewrite app_nil_r. Qed.
Lemma keeps_on_status f s : station_keeps s (on_status f s).
Proof. apply keeps_same; [done| |done]. exists []. by rewrite app_nil_r. Qed.
Lemma keeps_clock s : station_keeps s (read_clock s).2.
Proof. unfold read_clock. destruct (date_now (sv_world s)). apply keeps_same; [done| |done]. exists []. by rewrite app_nil_r. Qed.
Lemma keeps_stamp f s : station_keeps s (stamp f s).
Proof. unfold stamp. pose proof (keeps_clock s) as H. destruct (read_clock s) as [now s']. etrans; [exact H|apply keeps_on_status]. Qed.
Lemma keep_200_bound items i : (length items <= 200)%nat -> (length (keep_200 (items ++ [i])) <= 200)%nat.
Proof. unfold keep_200. rewrite length_app. cbn [length]. destruct (Nat.ltb_spec 200 (length items + 1)); rewrite ?length_drop, length_app; cbn [length]; lia. Qed.
Lemma keeps_log t m s : station_keeps s (logTelemetry t m s).
Proof.
  unfold logTelemetry. pose proof (keeps_clock s) as H. destruct (read_clock s) as [now s']. etrans; [exact H|].
  destruct (random_name (sv_world s')) as [id w]. cbv zeta. etrans; [|apply keeps_broadcast].
  split; [apply keep_200_bound|]. split; [exists []; by rewrite app_nil_r|done].
Qed.
End kept.
#[export] Hint Resolve keeps_emit keeps_broadcast keeps_broadcastStatus keeps_clients keeps_on_status keeps_stamp keeps_log : station.

(** ** Who may start a command *)

(** One step of a traversal: [ask] proves that a question is allowed. *)
Ltac walk_step ask :=
  lazymatch goal with
  | |- always _ _ _ _ (andThen _ _) => apply always_andThen
  | |- always _ _ _ _ (catching _ _) => apply always_catching
  | |- always _ _ _ _ (finally _ _) => apply always_finally
  | |- always _ _ _ _ (attempt (await _) _) => apply always_attempt
  | |- always _ _ _ _ (update _) => apply always_update; [intros ?; auto with station|]
  | |- always _ _ _ _ (get _) => apply always_get; [intros ?; reflexivity|intros ?]
  | |- always _ _ _ _ (await _) => apply always_await; [ask|intros [?|?]]
  | |- always _ _ _ _ (if ?b then _ else _) => destruct b eqn:?
  | |- always _ _ _ _ (match ?x with _ => _ end) => destruct x eqn:?
  | |- always _ _ _ _ (Ret _) => cbn [always]
  | |- always _ _ _ _ (Throw _) => cbn [always]
  end.
Ltac walk ask := repeat first [walk_step ask | progress unfold log, writeJson, writeOutcome, plain_response, of_res].

Section guarded.
Context {W : Type} `{!World W} `{!StationHost W} (config : ServerConfig) (cwd CLIENT_DIST : jstr).
Abbreviation state := (server W).

Definition body_read (x : exch) : option (res thrown members) :=
  match x with existT ReadBody (Ok b) => Some (read_body b) | _ => None end.
(** The request's body was read, and it is an object with [p]. *)
Definition posted (tr : list exch) (p : members -> Prop) : Prop := exists body, head (omap body_read tr) = Some (Ok body) /\ p body.
(** The guard let the request through, and it asks for [path] with [method]. *)
Definition guarded (rq : request) (method path : jstr) : Prop :=
  checkHost (rq_headers rq) (port config) = None /\ checkApiRequest (rq_method rq) (rq_headers rq) (port config) = None /\
  rq_method rq = Some method /\ exists u, request_url rq = Some u /\ u_pathname u = path.
Definition card_posted (call : jstr -> BridgeCall) (asked : BridgeCall) (tr : list exch) (p : members -> Prop) : Prop :=
  posted tr (fun body => p body /\
    exists card preview path, parseContactCardJson (obj_get (js "cardJson") body) = CardOk card preview /\ asked = call path).
Definition confirmed (body : members) : Prop := obj_get (js "confirmed") body = Some (JBool true).
Definition GET : jstr := js "GET".
Definition POST : jstr := js "POST".
Definition command_allowed (rq : request) (tr : list exch) (call : BridgeCall) : Prop :=
  match call with
  | Poll => False
  | Doctor => guarded rq POST (js "/api/contacts/import") /\ posted tr confirmed
  | History id => guarded rq GET (js "/api/history") /\
      exists u, request_url rq = Some u /\ searchParams_get u (js "with") = Some id /\ id <> []
  | Send to text => guarded rq POST (js "/api/send") /\
      posted tr (fun body => text_member (js "to") body = to /\ text_member (js "text") body = text) /\ to <> [] /\ text <> []
  | Publish => guarded rq POST (js "/api/publish")
  | ExportContact _ => guarded rq GET (js "/api/contacts/export")
  | ValidateContact _ => guarded rq POST (js "/api/contacts/validate") /\ card_posted ValidateContact call tr (fun _ => True)
  | ImportContact _ => guarded rq POST (js "/api/contacts/import") /\ card_posted ImportContact call tr confirmed
  end.
Definition question_allowed (rq : request) (tr : list exch) (q : question) : Prop :=
  match q with
  | AskCli call => command_allowed rq tr call
  | DoctorOrHealth _ | PendingDoctor => guarded rq GET (js "/api/status")
  | ReadBytes path => exists u, request_url rq = Some u /\
      (path = static_target cwd CLIENT_DIST (u_pathname u) \/ path = index_page cwd CLIENT_DIST)
  | _ => True
  end.
(** A child could not even be started. *)
Definition refused_to_start (x : exch) : bool :=
  match x with
  | existT (AskCli _) (Err _) | existT (DoctorOrHealth _) (Err _) | existT PendingDoctor (Err _) => true
  | existT (DoctorOrHealth _) (Ok (inl (Err _))) => true
  | _ => false
  end.
Definition request_ends (rq : request) (tr : list exch) (r : res thrown unit) : Prop :=
  r = Ok tt \/ (checkHost (rq_headers rq) (port config) = None /\ request_url rq = None) \/ existsb refused_to_start tr = true.
Abbreviation safely rq := (always station_keeps (question_allowed rq) (request_ends rq)).

Lemma started_error tr x : refused_to_start x = true -> existsb refused_to_start (tr ++ [x]) = true.
Proof. intros H. rewrite existsb_app. cbn [existsb]. by rewrite H, orb_true_l, orb_true_r. Qed.
Lemma posted_after b body tr (p : members -> Prop) : read_body b = Ok body -> p body -> posted (existT ReadBody (Ok b) :: tr) p.
Proof. intros Hb Hp. exists body. split; [|done]. cbn. by rewrite Hb. Qed.

(** *** The card operations inside a route *)
Lemma operation_posted rq op b body (F : list exch -> res thrown ContactCardResult -> Prop) :
  read_body b = Ok body ->
  (forall tr path card preview, parseContactCardJson (obj_get (js "cardJson") body) = CardOk card preview ->
     command_allowed rq (existT ReadBody (Ok b) :: tr) (op_call op path)) ->
  (forall tr v, F (existT ReadBody (Ok b) :: tr) (Ok v)) ->
  always station_keeps (question_allowed rq) F [existT ReadBody (Ok b)]
    (run_operation (S := state) op (obj_get (js "cardJson") body) tmpdir).
Proof.
  intros Hb Hcall HF. apply (always_after _ _ F [existT ReadBody (Ok b)] []).
  eapply (always_mono _ _ (ends_well op (obj_get (js "cardJson") body))); [|intros tr r (v & -> & _); apply HF].
  eapply always_weaken; [| |apply operation_contained]; [by intros s s' ->|].
  intros tr q (card & preview & E & Hq). destruct q; try done; cbn [question_allowed app].
  destruct Hq as (directory & _ & ->). by eapply Hcall.
Qed.

(** *** The routes *)
Ltac finish_route := first [ by left | right; right; apply started_error; reflexivity | idtac ].
Lemma refresh_profile_safe rq (tr : list exch) (F : list exch -> res thrown unit -> Prop) :
  command_allowed rq tr Doctor ->
  (forall tr', F (tr ++ tr') (Ok tt)) -> (forall tr' e, existsb refused_to_start tr' = true -> F (tr ++ tr') (Err e)) ->
  always (S := state) station_keeps (question_allowed rq) F tr refreshProfile.
Proof.
  intros Ha Hok Herr. unfold refreshProfile, start_profile. apply always_andThen, always_sync. intros s.
  split; [apply keeps_on_status|]. apply always_andThen, always_await; [exact Ha|]. intros [o|e]; [|by apply Herr].
  unfold end_profile. apply always_update; [auto with station|apply Hok].
Qed.
Lemma start_profile_safe P (tr : list exch) (F : list exch -> res thrown Z -> Prop) :
  (forall g, F tr (Ok g)) -> always (S := state) station_keeps P F tr start_profile.
Proof. intros HF. apply always_sync. intros s. split; [apply keeps_on_status|apply HF]. Qed.
Lemma start_relay_safe P (tr : list exch) (F : list exch -> res thrown (Z * Z) -> Prop) :
  (forall g, F tr (Ok g)) -> always (S := state) station_keeps P F tr start_relay.
Proof.
  intros HF. apply always_sync. intros s. cbn. set (s1 := on_status _ s). pose proof (keeps_clock s1) as Hc.
  destruct (read_clock s1) as [t s2]. split; [|apply HF]. etrans; [apply keeps_on_status|exact Hc].
Qed.
Lemma end_relay_safe P (tr : list exch) (F : list exch -> res thrown unit -> Prop) started r :
  F tr (Ok tt) -> always (S := state) station_keeps P F tr (end_relay started r).
Proof.
  intros HF. apply always_update; [|exact HF]. intros s. pose proof (keeps_clock s) as Hc.
  destruct (read_clock s) as [t s2]. etrans; [exact Hc|apply keeps_stamp].
Qed.
Lemma refresh_relay_safe P (tr : list exch) (F : list exch -> res thrown unit -> Prop) :
  P tr (FetchHealth (health_url config)) \/ True -> (forall tr q, match q with FetchHealth _ => P tr q | _ => True end) ->
  (forall tr', F (tr ++ tr') (Ok tt)) -> always (S := state) station_keeps P F tr (refreshRelayReachability config).
Proof.
  intros _ HP HF. unfold refreshRelayReachability. apply always_andThen, start_relay_safe. intros started.
  apply always_attempt, always_await; [exact (HP tr (FetchHealth (health_url config)))|]. intros a.
  apply end_relay_safe, HF.
Qed.

Section routes.
Context (rq : request).
Abbreviation safely := (always (S := state) station_keeps (question_allowed rq) (request_ends rq) []).
Lemma events_safe : safely (events_route config rq).
Proof. unfold events_route. walk ltac:(exact I). by left. Qed.
Lemma history_safe u :
  guarded rq GET (js "/api/history") -> request_url rq = Some u -> safely (history_route rq u).
Proof.
  intros Hg Hu. unfold history_route. walk ltac:(split; [exact Hg|exists u; by split_and!]); finish_route.
Qed.
Lemma publish_safe : guarded rq POST (js "/api/publish") -> safely (publish_route rq).
Proof. intros Hg. unfold publish_route. walk ltac:(exact Hg); finish_route. Qed.
Lemma export_safe : guarded rq GET (js "/api/contacts/export") -> safely (export_route rq).
Proof.
  intros Hg. unfold export_route. apply always_andThen.
  eapply always_weaken; [| |eapply always_mono; [apply (export_contained tmpdir)|]].
  - intros s s' ->. reflexivity.
  - intros tr q Hq. destruct q; [destruct Hq as (d & _ & ->); exact Hg|exact I|destruct Hq|destruct Hq|exact I..|destruct Hq|exact I].
  - intros tr r (v & -> & _). cbn [app]. walk ltac:(exact I); by left.
Qed.
Lemma status_safe : guarded rq GET (js "/api/status") -> safely (status_route config rq).
Proof.
  intros Hg. unfold status_route, refreshBoth. apply always_andThen, always_andThen, start_profile_safe. intros g.
  apply always_andThen, start_relay_safe. intros started. apply always_andThen, always_await; [exact Hg|].
  intros [[[o|e]|r]|e]; [| | |finish_route].
  - unfold end_profile. walk ltac:(exact I). all: apply end_relay_safe; walk ltac:(exact I); by left.
  - walk ltac:(exact I). finish_route.
  - apply always_andThen, end_relay_safe. unfold end_profile. walk ltac:(exact Hg); finish_route.
Qed.
Lemma send_safe : guarded rq POST (js "/api/send") -> safely (send_route rq).
Proof.
  intros Hg. unfold send_route, readBody. apply always_catching, always_andThen, always_andThen, always_await; [exact I|].
  intros [b|e]; [|by walk ltac:(exact I); left]. unfold of_res. destruct (read_body b) as [body|e] eqn:Eb; [|by walk ltac:(exact I); left].
  cbn [always app]. set (to := text_member (js "to") body). set (text := text_member (js "text") body). cbv zeta.
  destruct (eqb to [] || eqb text []) eqn:Ene; [by walk ltac:(exact I); left|].
  apply orb_false_iff in Ene as [Hto%eqb_neq Htext%eqb_neq].
  walk ltac:(split; [exact Hg|split; [apply (posted_after _ body); [exact Eb|by split]|by split]]); by left.
Qed.
Lemma validate_safe : guarded rq POST (js "/api/contacts/validate") -> safely (validate_route rq).
Proof.
  intros Hg. unfold validate_route, readBody. apply always_catching, always_andThen, always_andThen, always_await; [exact I|].
  intros [b|e]; [|by unfold writeRequestError; walk ltac:(exact I); left].
  unfold of_res. destruct (read_body b) as [body|e] eqn:Eb; [|by unfold writeRequestError; walk ltac:(exact I); left].
  cbn [always app]. apply always_andThen. refine (operation_posted rq Validating b body _ Eb _ _).
  - intros tr path card preview E. split; [exact Hg|]. apply (posted_after _ body); [exact Eb|].
    split; [exact I|]. by exists card, preview, path.
  - intros tr v. walk ltac:(exact I); by left.
Qed.
Lemma import_safe : guarded rq POST (js "/api/contacts/import") -> safely (import_route config rq).
Proof.
  intros Hg. unfold import_route, readBody. apply always_catching, always_andThen, always_andThen, always_await; [exact I|].
  intros [b|e]; [|by unfold writeRequestError; walk ltac:(exact I); left].
  unfold of_res. destruct (read_body b) as [body|e] eqn:Eb; [|by unfold writeRequestError; walk ltac:(exact I); left].
  cbn [always app]. destruct (obj_get (js "cardJson") body) as [cardJson|] eqn:Ec; [|by walk ltac:(exact I); left].
  destruct (bool_decide_reflect (obj_get (js "confirmed") body = Some (JBool true))) as [Hconf|];
    cbn [negb]; [|by walk ltac:(exact I); left].
  unfold log at 1. apply always_andThen, always_update; [auto with station|]. apply always_andThen. rewrite <- Ec.
  refine (operation_posted rq Importing b body _ Eb _ _).
  - intros tr path card preview E. split; [exact Hg|]. apply (posted_after _ body); [exact Eb|].
    split; [exact Hconf|]. by exists card, preview, path.
  - intros tr [card preview|code message o]; [|by walk ltac:(exact I); left].
    unfold log at 1. apply always_andThen, always_update; [auto with station|]. apply always_andThen, refresh_profile_safe.
    + split; [exact Hg|]. by apply (posted_after _ body).
    + intros tr'. walk ltac:(exact I); by left.
    + intros tr' e _. unfold writeRequestError. walk ltac:(exact I); by left.
Qed.
Lemma static_safe u : request_url rq = Some u -> safely (static_route cwd CLIENT_DIST rq (u_pathname u)).
Proof.
  intros Hu. unfold static_route.
  walk ltac:(exists u; split; [exact Hu|case_match; [by left|by right]]); by left.
Qed.

Lemma handle_safe : safely (handle config cwd CLIENT_DIST rq).
Proof.
  unfold handle. destruct (checkHost (rq_headers rq) (port config)) as [r|] eqn:Eh; [by unfold refuse; walk ltac:(exact I); left|].
  destruct (request_url rq) as [u|] eqn:Eu; [|right; left; by split].
  destruct (if starts_with api_prefix (u_pathname u) then _ else _) as [r|] eqn:Ea; [by unfold refuse; walk ltac:(exact I); left|].
  assert (forall path m, eqb (u_pathname u) path && is_method rq m = true -> starts_with api_prefix path = true ->
    guarded rq m path) as Hguard.
  { intros path m [Ep%eqb_true Em%bool_decide_eq_true]%andb_true_iff Hs. rewrite Ep, Hs in Ea. split_and!; try done. by exists u. }
  unfold route. cbv zeta. destruct (eqb (u_pathname u) (js "/api/events")); [apply events_safe|].
  repeat match goal with
  | |- context [if eqb (u_pathname u) ?path && is_method rq ?m then _ else _] =>
      destruct (eqb (u_pathname u) path && is_method rq m) eqn:?;
        [match goal with H : eqb (u_pathname u) path && is_method rq m = true |- _ =>
           pose proof (Hguard path m H ltac:(vm_compute; reflexivity)) end|]
  end; [by apply status_safe|by apply history_safe|by apply send_safe|by apply publish_safe|by apply export_safe
       |by apply validate_safe|by apply import_safe|by apply static_safe].
Qed.
End routes.
End guarded.

(** ** The running station *)

Section running.
Context {W : Type} `{!World W} `{!StationHost W} (config : ServerConfig) (cwd CLIENT_DIST : jstr).
Abbreviation state := (server W).
Abbreviation async := (prog state thrown question answer).

(** What a handler may ask, by the event that started it, and how it may end. *)
Definition may_ask (e : event) (tr : list exch) (q : question) : Prop :=
  match e with
  | Request rq => question_allowed config cwd CLIENT_DIST rq tr q
  | PollTimer => match q with AskCli call => call = Poll | DoctorOrHealth _ | PendingDoctor => False | _ => True end
  | Bootstrap => match q with AskCli call => call = Doctor | DoctorOrHealth _ | PendingDoctor => False | _ => True end
  | _ => match q with AskCli _ | DoctorOrHealth _ | PendingDoctor => False | _ => True end
  end.
Definition may_end (e : event) (tr : list exch) (r : res thrown unit) : Prop :=
  match e with
  | Request rq => request_ends config rq tr r
  | Bootstrap => r = Ok tt \/ existsb refused_to_start tr = true
  | _ => r = Ok tt
  end.
(** The log stays bounded and what was written stays written. *)
Definition station_grows (s s' : state) : Prop := (bounded s -> bounded s') /\ exists new, sv_output s' = sv_output s ++ new.
#[export] Instance station_grows_preorder : PreOrder station_grows.
Proof.
  split.
  - intros s. split; [done|]. exists []. by rewrite app_nil_r.
  - intros s1 s2 s3 (H1 & n1 & E1) (H2 & n2 & E2). split; [auto|]. exists (n1 ++ n2). by rewrite E2, E1, app_assoc.
Qed.
Lemma keeps_grows s s' : station_keeps s s' -> station_grows s s'.
Proof. by intros (? & ? & _). Qed.

Lemma bootstrap_safe : always (S := state) station_keeps (may_ask Bootstrap) (may_end Bootstrap) [] (bootstrap config).
Proof.
  unfold bootstrap, log. do 3 (apply always_andThen, always_update; [auto with station|]).
  apply always_andThen, refresh_relay_safe; [by right|by intros tr []|]. intros tr. cbn [app].
  apply always_andThen, always_get; [reflexivity|]. intros s. apply always_andThen. 
  assert (forall tr, always (S := state) station_keeps (may_ask Bootstrap) (may_end Bootstrap) tr
    (andThen refreshProfile (fun _ => andThen (get (fun s => sn_profile (statusSnapshot config s))) (fun profile =>
      match profile with
      | Some profile => andThen (log CryptoLine (js "Identity verified: " ++ take 16 (match obj_get (js "identity_id") profile with Some (JStr id) => id | _ => [] end) ++ js "..."))
          (fun _ => log Info (js "Pinned contacts count: " ++ show_Z (default_to 0 (numericField (JObj profile) (js "contact_count")))))
      | None => Ret tt
      end)))) as Hrest.
  { intros tr'. apply always_andThen. unfold refreshProfile. apply always_andThen, start_profile_safe. intros g.
    unfold end_profile, log. walk ltac:(reflexivity); first [by left|right; apply started_error; reflexivity]. }
  unfold log. destruct (sn_pingMs (statusSnapshot config s)); (apply always_update; [auto with station|]); apply Hrest.
Qed.
Lemma reach_safe : always (S := state) station_keeps (may_ask ReachTimer) (may_end ReachTimer) [] (reachTimer config).
Proof.
  unfold reachTimer. apply always_andThen, refresh_relay_safe; [by right|by intros tr []|]. intros tr. cbn [app].
  walk ltac:(exact I). reflexivity.
Qed.
Lemma close_safe client : always (S := state) station_keeps (may_ask (Disconnected client)) (may_end (Disconnected client)) [] (close_stream client).
Proof. unfold close_stream. walk ltac:(exact I). reflexivity. Qed.

Lemma request_safe rq : always (S := state) station_keeps (may_ask (Request rq)) (may_end (Request rq)) []
  (handle config cwd CLIENT_DIST rq).
Proof. apply handle_safe. Qed.
Lemma grows_polling b s : station_grows s (with_polling b s).
Proof. split; [done|]. exists []. by rewrite app_nil_r. Qed.
#[local] Hint Resolve keeps_grows grows_polling : station.
Lemma poll_safe : always (S := state) station_grows (may_ask PollTimer) (may_end PollTimer) [] (pollLoop config).
Proof.
  unfold pollLoop. apply always_andThen, always_get; [reflexivity|]. intros s. destruct (sv_polling s); [reflexivity|].
  apply always_andThen, always_update; [apply grows_polling|]. apply always_finally, always_catching.
  apply always_andThen, always_await; [reflexivity|].
  intros [o|e]; unfold poll_answered, poll_failed, log; walk ltac:(exact I); reflexivity.
Qed.

Context (occurs : event -> Prop) (answered : exch -> Prop).
Abbreviation reaches := (station_reaches config cwd CLIENT_DIST occurs answered).
Lemma handlers_safe e (p : async unit) :
  station_handler config cwd CLIENT_DIST occurs e p -> safe answered station_grows may_ask (fun e tr r => occurs e /\ may_end e tr r) e p.
Proof.
  intros [Ho ->]. exists []. split; [by apply Forall_nil|]. eapply always_mono; [|intros tr r Hr; split; [exact Ho|exact Hr]].
  destruct e as [| | |rq|client]; cbn [event_handler]; [apply poll_safe|..];
    (eapply always_weaken; [apply keeps_grows|intros tr q Hq; exact Hq|]);
    [apply reach_safe|apply bootstrap_safe|apply request_safe|apply close_safe].
Qed.
Lemma reaches_safe now w c :
  reaches now w c -> station_grows (station_start now w) (shared c) /\ all_safe answered station_grows may_ask (fun e tr r => occurs e /\ may_end e tr r) (tasks c) /\
  (alive c = false -> exists e tr error, Forall answered tr /\ occurs e /\ may_end e tr (Err error)).
Proof.
  exact (reachable_safe (station_handler config cwd CLIENT_DIST occurs) answered station_grows may_ask
    (fun e tr r => occurs e /\ may_end e tr r) (station_start now w) c handlers_safe).
Qed.

(** C4: a command is started only for the operator.  In every state the station reaches, under
    any requests, timers, answers and interleavings: a handler of a request that waits for the
    command line was let through by the guard and asks for what its route, its method and its
    body say; an import runs only for a posted body that says [confirmed: true] and a card that
    was checked; a message goes to the recipient and with the text of the body.  Without a
    request the station runs only the poll and, at its start, [doctor]. *)
Theorem commands_guarded now w c e q k :
  reaches now w c -> (e, Await q k) ∈ tasks c ->
  exists tr, Forall answered tr /\
  match q with
  | AskCli call =>
      match e with
      | Request rq => command_allowed config rq tr call
      | PollTimer => call = Poll
      | Bootstrap => call = Doctor
      | _ => False
      end
  | DoctorOrHealth _ | PendingDoctor => exists rq, e = Request rq /\ guarded config rq GET (js "/api/status")
  | _ => True
  end.
Proof.
  intros Hr Hin. destruct (reaches_safe now w c Hr) as (_ & Hts & _).
  assert (safe answered station_grows may_ask (fun e tr r => occurs e /\ may_end e tr r) e (Await q k)) as (tr & Htr & Hq & _).
  { unfold all_safe in Hts. rewrite Forall_forall in Hts. exact (Hts _ Hin). }
  exists tr. split; [exact Htr|]. destruct q; try exact I; destruct e as [| | |rq|]; try exact Hq; try (by destruct Hq);
    exists rq; by split.
Qed.

(** The log is bounded.  In every state the station reaches the log has at most 200 lines,
    and what was once written to a connection has been written. *)
Theorem log_bounded now w c :
  reaches now w c -> (length (sv_telemetry (shared c)) <= 200)%nat /\ (length (last_50 (sv_telemetry (shared c))) <= 50)%nat.
Proof.
  intros Hr. destruct (reaches_safe now w c Hr) as ((Hb & _) & _). split; [apply Hb; unfold bounded; cbn; lia|].
  unfold last_50. rewrite length_drop. lia.
Qed.
End running.

(** ** One poll at a time *)

Section polling.
Context {W : Type} `{!World W} `{!StationHost W} (config : ServerConfig) (cwd CLIENT_DIST : jstr).
Abbreviation state := (server W).
Abbreviation async := (prog state thrown question answer).
Context (occurs : event -> Prop) (answered : exch -> Prop).

(** What a poll does when the command line has answered. *)
Definition poll_rest (a : res thrown CliOutcome) : async unit :=
  finally (catching (andThen (of_res a) (poll_answered config)) poll_failed) (update (with_polling false)).
Lemma advance_poll s :
  advance (pollLoop config) s = if sv_polling s then (Ret tt, s) else (Await (AskCli Poll) poll_rest, with_polling true s).
Proof. unfold pollLoop. cbn. by destruct (sv_polling s). Qed.
Lemma advance_poll_rest a s :
  parked PollTimer (advance (poll_rest a) s).1 = [] /\ sv_polling (advance (poll_rest a) s).2 = false /\
  survives (advance (poll_rest a) s).1 = true.
Proof.
  unfold poll_rest, finally. set (body := catching _ _).
  assert (always (S := state) station_keeps (fun _ _ => False) (fun _ r => r = Ok tt) [] body) as Hb.
  { subst body. apply always_catching. destruct a as [o|e]; cbn [of_res];
      [change (andThen (Ret o) (poll_answered config)) with (poll_answered config o)|];
      unfold poll_answered, poll_failed, log; walk ltac:(idtac); reflexivity. }
  pose proof (advance_attempt body (fun r => andThen (update (with_polling false)) (fun _ => of_res r)) s) as Ha.
  destruct (advance_safe (L := unit) station_keeps (fun _ _ _ => False) (fun _ _ r => r = Ok tt) tt [] body s Hb) as [_ Hend].
  destruct (advance body s) as [[r|e|X f k|q k] s']; cbn [fst snd] in *; rewrite ?Ha; try done. by destruct Hend.
Qed.

Definition continuation (p : async unit) : option (res thrown CliOutcome -> async unit) :=
  match p with
  | Await q k =>
      match q return (res thrown (answer q) -> async unit) -> option (res thrown CliOutcome -> async unit) with
      | AskCli _ => Some
      | _ => fun _ => None
      end k
  | _ => None
  end.
Definition is_poll (e : event) : bool := match e with PollTimer => true | _ => false end.
Definition polls (ts : list (event * async unit)) : list (event * async unit) := List.filter (fun t => is_poll t.1) ts.
Definition task_ok (t : event * async unit) : Prop :=
  if is_poll t.1 then t.2 = Await (AskCli Poll) poll_rest
  else safe answered station_keeps (fun _ _ _ => True) (fun _ _ _ => True) t.1 t.2.
Definition poll_invariant (c : loop state thrown question event answer) : Prop :=
  Forall task_ok (tasks c) /\ length (polls (tasks c)) = (if sv_polling (shared c) then 1%nat else 0%nat).
Lemma polls_app a b : polls (a ++ b) = polls a ++ polls b.
Proof. apply List.filter_app. Qed.
Lemma parked_polls e (p : async unit) : is_poll e = false -> polls (parked e p) = [].
Proof. intros He. destruct p; cbn; try done. by rewrite He. Qed.
Lemma other_handler e : is_poll e = false ->
  safe answered station_keeps (fun _ _ _ => True) (fun _ _ _ => True) e (event_handler config cwd CLIENT_DIST e).
Proof.
  intros He. exists []. split; [by apply Forall_nil|].
  assert (always (S := state) station_keeps (may_ask config cwd CLIENT_DIST e) (may_end config e) [] (event_handler config cwd CLIENT_DIST e)) as H.
  { destruct e; [done|apply reach_safe|apply bootstrap_safe|apply request_safe|apply close_safe]. }
  eapply always_mono; [|done]. eapply always_weaken; [| |exact H]; done.
Qed.
(** Another handler's step leaves the flag and the polls alone. *)
Lemma resume_other before e p after s :
  is_poll e = false -> safe answered station_keeps (fun _ _ _ => True) (fun _ _ _ => True) e p ->
  poll_invariant (Loop true s (before ++ after)) -> poll_invariant (resume before e p after s).
Proof.
  intros He (tr & Htr & Hp) [Hok Hn]. unfold resume.
  destruct (advance_safe station_keeps (fun _ _ _ => True) (fun _ _ _ => True) e tr p s Hp) as [(_ & _ & Hflag) Hp'].
  destruct (advance p s) as [p' s']. cbn [fst snd shared tasks] in *. split.
  - cbn [tasks]. apply Forall_app in Hok as [Hb Ha]. apply Forall_app; split; [done|]. apply Forall_app; split; [|done].
    assert (task_ok (e, p')) as Ht by (unfold task_ok; cbn; rewrite He; by exists tr).
    destruct p'; cbn; auto.
  - cbn [tasks shared]. rewrite polls_app in Hn. rewrite !polls_app, parked_polls, Hflag by done. exact Hn.
Qed.

(** C29: one poll at a time.  Whatever the timers do and in whatever order handlers are resumed:
    at most one run of [poll] is in flight, it is in flight exactly while the flag is up, it is
    the poller's, and when it has answered, or could not be started, the flag comes down, so the
    next timer polls again. *)
Theorem one_poll_at_a_time now w c :
  station_reaches config cwd CLIENT_DIST occurs answered now w c ->
  length (polls (tasks c)) = (if sv_polling (shared c) then 1%nat else 0%nat) /\
  (forall p, (PollTimer, p) ∈ tasks c -> p = Await (AskCli Poll) poll_rest) /\
  (forall a, sv_polling (advance (poll_rest a) (shared c)).2 = false) /\
  (sv_polling (shared c) = false -> (advance (pollLoop config) (shared c)).1 = Await (AskCli Poll) poll_rest).
Proof.
  intros Hr. assert (poll_invariant c) as [Hok Hn].
  { pattern c. eapply rtc_ind_r; [| |exact Hr]; [split; [by apply Forall_nil|done]|].
    clear c Hr. intros c c' _ Hstep [Hok Hn]. destruct Hstep as [e p s ts [_ ->]|before e q k after s a Hans].
    - destruct (is_poll e) eqn:He; [|apply resume_other; [done|by apply other_handler|by rewrite app_nil_r]].
      destruct e; try done. cbn [event_handler]. unfold resume. rewrite advance_poll. cbn [shared tasks] in *.
      destruct (sv_polling s) eqn:Ef; cbn [parked]; rewrite !app_nil_r.
      + split; [done|]. cbn [tasks shared]. by rewrite Ef.
      + split; cbn [tasks shared with_polling sv_polling]; [apply Forall_app; split; [done|by apply Forall_singleton]|].
        rewrite polls_app, length_app, Hn. done.
    - cbn [shared tasks] in *. apply Forall_app in Hok as [Hb [Ht Ha]%Forall_cons].
      rewrite polls_app in Hn. cbn [polls List.filter fst] in Hn. unfold task_ok in Ht. cbn [fst snd] in Ht.
      destruct (is_poll e) eqn:He.
      + destruct e; try done. pose proof (f_equal continuation Ht) as Hk. injection Ht as -> _.
        injection Hk as ->.
        destruct (advance_poll_rest a s) as (Hp & Hf & _). unfold resume.
        destruct (advance (poll_rest a) s) as [p' s']. cbn [fst snd] in *. rewrite Hp. cbn [app].
        split; cbn [tasks shared]; [by apply Forall_app|]. rewrite Hf, polls_app.
        rewrite length_app in *. cbn [length] in Hn. unfold polls in *. destruct (sv_polling s); lia.
      + apply resume_other; [done| |].
        * destruct Ht as (tr & Htr & _ & Hk). exists (tr ++ [existT q a]). split; [|apply Hk].
          apply Forall_app. split; [done|]. by apply Forall_singleton.
        * split; cbn [tasks shared]; [by apply Forall_app|]. rewrite polls_app. exact Hn. }
  split; [done|]. split; [|split].
  - intros p Hp. rewrite Forall_forall in Hok. apply (Hok _ Hp).
  - intros a. apply advance_poll_rest.
  - intros Hf. rewrite advance_poll, Hf. done.
Qed.
End polling.

Section survival.
Context {W : Type} `{!World W} `{!StationHost W} (config : ServerConfig) (cwd CLIENT_DIST : jstr).
(** The addresses of the requests can be parsed, and a child can be started. *)
Definition parsable (e : event) : Prop :=
  match e with Request rq => checkHost (rq_headers rq) (port config) = None -> request_url (W := W) rq <> None | _ => True end.
Definition child_starts (x : exch) : Prop := refused_to_start x = false.

(** C13: the station survives its clients.  As long as the address of every request that passes
    the host check can be parsed, and the system can start a child, no request, no body, no
    failure of a command, of the relay or of a file, and no interleaving of them, ends the
    process: every handler ends without an uncaught error. *)
Theorem station_survives now w c :
  station_reaches config cwd CLIENT_DIST parsable child_starts now w c -> alive c = true.
Proof.
  intros Hr. destruct (alive c) eqn:Ea; [done|]. exfalso.
  destruct (reaches_safe config cwd CLIENT_DIST _ _ now w c Hr) as (_ & _ & Hd).
  destruct (Hd Ea) as (e & tr & error & Htr & Ho & Hend).
  assert (existsb refused_to_start tr = true -> False) as Hn.
  { rewrite existsb_exists. intros (x & Hx & E). rewrite Forall_forall in Htr. apply list_elem_of_In in Hx.
    specialize (Htr x Hx). unfold child_starts in Htr. congruence. }
  destruct e as [| | |rq|client]; cbn [may_end parsable] in *; try done; [by destruct Hend|].
  destruct Hend as [|[[Hh Hu]|]]; [done|by apply Ho|by apply Hn].
Qed.
End survival.

(** ** The files of the page *)

Section files.
Context {W : Type} `{!World W} `{!StationHost W} (config : ServerConfig) (cwd : jstr) (dist : list jstr).
Context (Hdist : plain_path dist).
Lemma index_inside : inside dist (index_page cwd (absolute_path dist)).
Proof. apply resolve_inside; [exact Hdist|vm_compute; reflexivity..]. Qed.
(** A path as a parsed address has it: rooted and without dot segments, or, where the scheme is
    not one of the web's, empty. *)
Definition parsed_path (pathname : jstr) : Prop :=
  pathname = [] \/ exists rest, pathname = slash :: rest /\ no_dotdot rest = true.
(** The file a path names from the root of the disk: its segments, without empty ones and dots. *)
Definition from_root (path : jstr) : jstr := absolute_path (filter (fun s => droppable s = false) (segments_of path)).
Lemma normalize_from_root path : no_dotdot path = true -> normalize_absolute (path ++ [slash]) = from_root path.
Proof.
  intros Hp. assert (no_dotdot (path ++ [slash]) = true) as Hs.
  { unfold no_dotdot in *. by rewrite (segments_app path []), forallb_app, Hp. }
  unfold normalize_absolute, from_root. rewrite normalize_no_dotdot by exact Hs. f_equal.
  rewrite (segments_app path []), filter_app. change (segments_of []) with ([[]] : list jstr).
  rewrite (filter_cons_False _ [] []) by (unfold droppable; by rewrite eqb_refl). by rewrite filter_nil, app_nil_r.
Qed.
(** What a parsed path makes the station read: a file of the page, or, where it opens with two
    slashes, the file the rest of it names, wherever that is. *)
Definition page_or_root (pathname path : jstr) : Prop :=
  inside dist path \/ exists rest, pathname = slash :: rest /\ is_absolute rest = true /\ path = from_root rest.
Lemma target_known pathname : parsed_path pathname -> page_or_root pathname (static_target cwd (absolute_path dist) pathname).
Proof.
  unfold static_target, file_path. intros [->|(rest & -> & Hd)].
  { left. assert (eqb [] (js "/") = false) as -> by (vm_compute; reflexivity). apply resolve_inside; [exact Hdist|reflexivity..]. }
  destruct (eqb (slash :: rest) (js "/")); [left; apply index_inside|]. rewrite Z.eqb_refl.
  destruct (is_absolute rest) eqn:Ea; [|left; by apply resolve_inside].
  right. exists rest. split; [done|]. split; [exact Ea|]. rewrite resolve_absolute by done. by apply normalize_from_root.
Qed.

(** C31: which files the station reads to serve a page.  Whatever a handler of a request reads
    from the disk is a file under the page's directory, with one exception, which is all there
    is: a path that opens with two slashes makes it read the file that the rest of the path
    names from the root of the disk.  The only thing asked of the parser of addresses is that
    a path it gives is rooted and has no [..] left, or is empty. *)
Theorem served_files_known occurs answered now w c rq path k :
  (forall u, request_url rq = Some u -> parsed_path (u_pathname u)) ->
  station_reaches config cwd (absolute_path dist) occurs answered now w c ->
  (Request rq, Await (ReadBytes path) k) ∈ tasks c ->
  exists u, request_url rq = Some u /\ page_or_root (u_pathname u) path.
Proof.
  intros Hu Hr Hin. destruct (reaches_safe config cwd (absolute_path dist) _ _ now w c Hr) as (_ & Hts & _).
  unfold all_safe in Hts. rewrite Forall_forall in Hts. destruct (Hts _ Hin) as (tr & _ & Hq & _).
  destruct Hq as (u & Eu & Hp). exists u. split; [exact Eu|].
  destruct Hp as [->| ->]; [by apply target_known, Hu|left; apply index_inside].
Qed.
End files.

(** ** The body of a request *)

Definition body_bytes (chunks : list bytes) : Z := Z.of_nat (length (concat chunks)).
Lemma body_bytes_cons chunk chunks : body_bytes (chunk :: chunks) = Z.of_nat (length chunk) + body_bytes chunks.
Proof. unfold body_bytes. cbn [concat]. rewrite length_app. lia. Qed.
Lemma read_body_chunks_spec chunks final count body :
  count <= MAX_JSON_BODY_BYTES ->
  read_body_chunks count body chunks final =
  if MAX_JSON_BODY_BYTES <? count + body_bytes chunks then Err too_large
  else match final with
       | BodyEnds => parse_body (body ++ flat_map utf8_to_string chunks)
       | BodyFails message => Err (Thrown message)
       end.
Proof.
  revert count body. induction chunks as [|chunk chunks IH]; intros count body Hc; cbn [read_body_chunks flat_map].
  - unfold body_bytes. cbn [concat length]. rewrite Z.add_0_r, app_nil_r. by destruct (Z.ltb_spec MAX_JSON_BODY_BYTES count); [lia|].
  - rewrite body_bytes_cons. pose proof (Nat2Z.is_nonneg (length (concat chunks))) as Hn. cbv zeta.
    destruct (Z.ltb_spec MAX_JSON_BODY_BYTES (count + Z.of_nat (length chunk))) as [Hl|Hl].
    + unfold body_bytes. by destruct (Z.ltb_spec MAX_JSON_BODY_BYTES (count + (Z.of_nat (length chunk) + Z.of_nat (length (concat chunks))))); [|lia].
    + rewrite IH by lia. replace (count + Z.of_nat (length chunk) + body_bytes chunks) with (count + (Z.of_nat (length chunk) + body_bytes chunks)) by lia.
      by rewrite app_assoc.
Qed.
Lemma flat_map_decode pieces : forallb well_formed pieces = true -> flat_map utf8_to_string (map utf8_encode pieces) = concat pieces.
Proof.
  induction pieces as [|p pieces IH]; [done|]. cbn [forallb map flat_map concat]. intros [Hp H]%andb_true_iff.
  by rewrite utf8_to_string_encode, IH.
Qed.

(** Reading a body.  A body of more than 128 KiB is refused with 413, in whatever chunks it
    comes and however it ends; a smaller one that breaks off is an error; and a smaller one whose
    chunks split no character is the object its text says, a printed object coming back as it
    was, no body as the empty object, and anything else is refused with 400. *)
Theorem body_read_back chunks pieces members message :
  (MAX_JSON_BODY_BYTES < body_bytes chunks -> forall final, read_body (RequestBody chunks final) = Err too_large) /\
  (body_bytes chunks <= MAX_JSON_BODY_BYTES -> read_body (RequestBody chunks (BodyFails message)) = Err (Thrown message)) /\
  (forallb well_formed pieces = true -> body_bytes (map utf8_encode pieces) <= MAX_JSON_BODY_BYTES ->
   read_body (RequestBody (map utf8_encode pieces) BodyEnds) = parse_body (concat pieces) /\
   (json_ok (JObj members) = true -> concat pieces = stringify (JObj members) ->
    read_body (RequestBody (map utf8_encode pieces) BodyEnds) = Ok members)).
Proof.
  unfold read_body. cbn [Cards.chunks final]. assert (0 <= MAX_JSON_BODY_BYTES) as H0 by (unfold MAX_JSON_BODY_BYTES; lia).
  split; [|split].
  - intros Hl f. rewrite read_body_chunks_spec, Z.add_0_l by done. by destruct (Z.ltb_spec MAX_JSON_BODY_BYTES (body_bytes chunks)); [|lia].
  - intros Hl. rewrite read_body_chunks_spec, Z.add_0_l by done. by destruct (Z.ltb_spec MAX_JSON_BODY_BYTES (body_bytes chunks)); [lia|].
  - intros Hw Hl.
    assert (read_body_chunks 0 [] (map utf8_encode pieces) BodyEnds = parse_body (concat pieces)) as E.
    { rewrite read_body_chunks_spec, Z.add_0_l by done. rewrite flat_map_decode by done.
      by destruct (Z.ltb_spec MAX_JSON_BODY_BYTES (body_bytes (map utf8_encode pieces))); [lia|]. }
    split; [exact E|]. intros Hok Hs. rewrite E, Hs. unfold parse_body. rewrite (parse_stringify _ Hok).
    destruct (eqb (stringify (JObj members)) []) eqn:En; [|done]. apply eqb_true in En. by rewrite stringify_obj in En.
Qed.

(** ** Where the station falls short *)

Section short.
Context {W : Type} `{!World W} `{!StationHost W} (config : ServerConfig) (cwd CLIENT_DIST : jstr).
(** An address that cannot be parsed is thrown out of the handler, where nobody catches it: one
    request, from any page the operator visits, ends the station. *)
Lemma unparsable_address_kills rq s :
  checkHost (rq_headers rq) (port config) = None -> request_url (W := W) rq = None ->
  alive (resume [] (Request rq) (handle config cwd CLIENT_DIST rq) [] s) = false.
Proof. intros Hh Hu. unfold handle. by rewrite Hh, Hu. Qed.
(** So does a history of a contact with a NUL in its name: a child cannot be started with it. *)
Lemma unstartable_history_kills rq u id e s :
  searchParams_get (W := W) u (js "with") = Some id -> id <> [] ->
  exists k, (advance (history_route (W := W) rq u) s).1 = Await (AskCli (History id)) k /\
    alive (resume [] (Request rq) (k (Err e)) [] s) = false.
Proof.
  intros Hw Hid. unfold history_route. rewrite Hw. destruct id as [|c id]; [done|]. eexists. split; [reflexivity|done].
Qed.
(** A body that is too large is answered with 413 by the other routes, with 500 by [/api/send]. *)
Lemma large_message_is_500 rq b s :
  read_body b = Err too_large ->
  exists k, (advance (send_route (W := W) rq) s).1 = Await ReadBody k /\
    exists body, sv_output (advance (k (Ok b)) s).2 = sv_output s ++ [Respond (rq_id rq) 500 (js "application/json") body].
Proof.
  intros Hb. unfold send_route, readBody. eexists. split; [reflexivity|]. cbn [of_res attempt]. rewrite Hb. cbn. by eexists.
Qed.
End short.
(** A path with two slashes forgets the page's directory. *)
Lemma absolute_path_escapes :
  static_target (js "/srv") (js "/srv/web/client") (js "//etc/passwd") = js "/etc/passwd".
Proof. vm_compute. reflexivity. Qed.

(** ** Witnesses *)
Module ServerSample.
(** Addresses are rooted paths; no file is there. *)
Definition host : StationHost Toy.world := {|
  new_URL_base path base := Some (Url (js "http:") [] [] (js "localhost") [] [] path (js "http://localhost"));
  searchParams_get _ _ := None;
  random_name w := (show_Z w, w + 1);
  time_of_day _ := js "00:00:00";
  exists_sync path _ := true;
  tmpdir := js "/tmp";
|}.
#[local] Existing Instance Toy.world_ops.
#[local] Existing Instance host.
Definition config : ServerConfig := MkServerConfig (Some 3001) (js "/p") (js "Op") (js "https://relay") (js "KEY") (js "/cli.js").
Definition dist : list jstr := [js "srv"; js "client"].
Definition status : request := MkRequest 1 (Some GET) (Some (js "/api/status")) GuardSample.own.
Definition page : request := MkRequest 2 (Some GET) (Some (js "/app.js")) GuardSample.own.
Abbreviation start := (station_start (W := Toy.world) 0 0).
Abbreviation run e := (event_handler (World0 := Toy.world_ops) (StationHost0 := host) config (js "/") (absolute_path dist) e).
Definition after (e : event) : loop (server Toy.world) thrown question event answer := resume [] e (run e) [] start.
Lemma reached (occurs : event -> Prop) answered e : occurs e ->
  station_reaches (World0 := Toy.world_ops) (StationHost0 := host) config (js "/") (absolute_path dist) occurs answered 0 0 (after e).
Proof. intros He. eapply rtc_l; [|apply rtc_refl]. apply (step_event _ _ e _ start []). by split. Qed.
Lemma handled rq (u : url) : request_url (StationHost0 := host) rq = Some u -> checkHost (rq_headers rq) (Some 3001) = None ->
  (if starts_with api_prefix (u_pathname u) then checkApiRequest (rq_method rq) (rq_headers rq) (Some 3001) else None) = None ->
  run (Request rq) = route (StationHost0 := host) config (js "/") (absolute_path dist) rq u.
Proof. intros Hu Hh Ha. cbn [event_handler]. unfold handle. cbn [port config]. by rewrite Hh, Hu, Ha. Qed.
Lemma status_parked : exists k, tasks (after (Request status)) = [(Request status, Await (DoctorOrHealth (js "https://relay/health")) k)].
Proof.
  unfold after, resume. rewrite (handled status (Url (js "http:") [] [] (js "localhost") [] [] (js "/api/status") (js "http://localhost")));
    [|vm_compute; reflexivity..].
  unfold route. cbn [u_pathname]. replace (eqb (js "/api/status") (js "/api/events")) with false by (vm_compute; reflexivity).
  rewrite eqb_refl. replace (is_method status (js "GET")) with true by (vm_compute; reflexivity). cbn [andb].
  replace (js "https://relay/health") with (health_url config) by (vm_compute; reflexivity).
  eexists. reflexivity.
Qed.
Lemma page_parked : exists k, tasks (after (Request page)) =
  [(Request page, Await (ReadBytes (static_target (js "/") (absolute_path dist) (js "/app.js"))) k)].
Proof.
  unfold after, resume. rewrite (handled page (Url (js "http:") [] [] (js "localhost") [] [] (js "/app.js") (js "http://localhost")));
    [|vm_compute; reflexivity..].
  unfold route. cbn [u_pathname].
  replace (eqb (js "/app.js") (js "/api/events")) with false by (vm_compute; reflexivity).
  replace (eqb (js "/app.js") (js "/api/status")) with false by (vm_compute; reflexivity).
  replace (eqb (js "/app.js") (js "/api/history")) with false by (vm_compute; reflexivity).
  replace (eqb (js "/app.js") (js "/api/send")) with false by (vm_compute; reflexivity).
  replace (eqb (js "/app.js") (js "/api/publish")) with false by (vm_compute; reflexivity).
  replace (eqb (js "/app.js") (js "/api/contacts/export")) with false by (vm_compute; reflexivity).
  replace (eqb (js "/app.js") (js "/api/contacts/validate")) with false by (vm_compute; reflexivity).
  replace (eqb (js "/app.js") (js "/api/contacts/import")) with false by (vm_compute; reflexivity).
  cbn [andb]. eexists. reflexivity.
Qed.
Definition pieces : list jstr := [jsq "{'to':'"; js "Ж" ++ jsq "','text':'x'}"].
Definition body : members := [(js "to", JStr (js "Ж")); (js "text", JStr (js "x"))].
End ServerSample.
Lemma commands_guarded_witness :
  exists rq, ServerSample.status = rq /\ guarded (StationHost0 := ServerSample.host) ServerSample.config rq GET (js "/api/status").
Proof.
  destruct ServerSample.status_parked as [k Hk].
  destruct (commands_guarded (World0 := Toy.world_ops) (StationHost0 := ServerSample.host) ServerSample.config (js "/")
    (absolute_path ServerSample.dist) (fun _ => True) (fun _ => True) 0 0 (ServerSample.after (Request ServerSample.status))
    (Request ServerSample.status) (DoctorOrHealth (js "https://relay/health")) k
    (ServerSample.reached (fun _ => True) (fun _ => True) _ I)) as (tr & _ & rq & E & Hg).
  - rewrite Hk. by apply list_elem_of_singleton.
  - exists rq. split; [|exact Hg]. by injection E.
Defined.
Lemma log_bounded_witness :
  (length (sv_telemetry (shared (ServerSample.after Bootstrap))) <= 200)%nat /\
  (length (last_50 (sv_telemetry (shared (ServerSample.after Bootstrap)))) <= 50)%nat.
Proof.
  exact (log_bounded (World0 := Toy.world_ops) (StationHost0 := ServerSample.host) ServerSample.config (js "/")
    (absolute_path ServerSample.dist) (fun _ => True) (fun _ => True) 0 0 _ (ServerSample.reached (fun _ => True) (fun _ => True) Bootstrap I)).
Defined.
Lemma one_poll_at_a_time_witness : length (polls (tasks (ServerSample.after PollTimer))) = 1%nat.
Proof.
  exact (proj1 (one_poll_at_a_time (World0 := Toy.world_ops) (StationHost0 := ServerSample.host) ServerSample.config (js "/")
    (absolute_path ServerSample.dist) (fun _ => True) (fun _ => True) 0 0 _ (ServerSample.reached (fun _ => True) (fun _ => True) PollTimer I))).
Defined.
Lemma station_survives_witness : alive (ServerSample.after (Request ServerSample.status)) = true.
Proof.
  refine (station_survives (World0 := Toy.world_ops) (StationHost0 := ServerSample.host) ServerSample.config (js "/")
    (absolute_path ServerSample.dist) 0 0 _ (ServerSample.reached _ _ (Request ServerSample.status) _)).
  intros _. discriminate.
Defined.
Lemma served_files_known_witness : exists u,
  request_url (StationHost0 := ServerSample.host) ServerSample.page = Some u /\
  page_or_root ServerSample.dist (u_pathname u) (static_target (js "/") (absolute_path ServerSample.dist) (js "/app.js")).
Proof.
  destruct ServerSample.page_parked as [k Hk].
  refine (served_files_known (World0 := Toy.world_ops) (StationHost0 := ServerSample.host) ServerSample.config (js "/")
    ServerSample.dist _ (fun _ => True) (fun _ => True) 0 0 (ServerSample.after (Request ServerSample.page)) ServerSample.page _ k _
    (ServerSample.reached (fun _ => True) (fun _ => True) _ I) _).
  - vm_compute. reflexivity.
  - intros u E. right. exists (js "app.js"). injection E as <-. split; vm_compute; reflexivity.
  - rewrite Hk. by apply list_elem_of_singleton.
Defined.
Lemma body_read_back_witness :
  read_body (RequestBody (map utf8_encode ServerSample.pieces) BodyEnds) = Ok ServerSample.body.
Proof.
  refine (proj2 (proj2 (proj2 (body_read_back [] ServerSample.pieces ServerSample.body [])) _ _) _ _).
  - vm_compute. reflexivity.
  - vm_compute. discriminate.
  - vm_compute. reflexivity.
  - vm_compute. reflexivity.
Defined.
