(* ===== verification/Page.v ===== *)
(** * The operator's page: the state and the handlers of [apps/web/src/client/App.tsx]

    A React component whose handlers fetch from the station and set state between their
    awaits.  A handler reads the page as it was last rendered; what it sets is shown by the
    next render, and the refs are shared at once.  Theorems: over every interleaving of
    handlers, answers and renders, the page asks the station to import a card only after the
    station accepted exactly that card, and shows nothing as checked, exported or said that the
    station did not answer; and what the page posts is what the station reads.

    Not in the model: markup, skins, knobs, canvases and sounds. *)

From stdpp Require Import relations.
From S2P Require Import Prelude JsString Json Outbound Async Bridge Cards Station Server.
Import Client.

(** ** What the page awaits *)

(** An [Error] with its message. *)
Inductive thrown := Failed (message : jstr).
(** A [Response] of the station: [res.ok] and [await res.json()]. *)
Record response := Response { res_ok : bool; res_json : json }.
Record file := File { file_size : Z; file_name : jstr }.
Inductive question :=
  | GetStatus
  | GetHistory (url : jstr)
  | PostSend (body : jstr)
  | GetExport
  | PostValidate (body : jstr)
  | PostImport (body : jstr)
  | ReadFile (chosen : file)
  | WriteClipboard (text : jstr).
(** A rejected [fetch], or a body that is no JSON, is an error; [GetExport] answers the status
    and the text of the body; [WriteClipboard] fails too where there is no clipboard. *)
Definition answer (q : question) : Type :=
  match q with
  | GetStatus | GetHistory _ | PostSend _ | PostValidate _ | PostImport _ => response
  | GetExport => Z * jstr
  | ReadFile _ => jstr
  | WriteClipboard _ => unit
  end.
Abbreviation exch := (exchange (E := thrown) answer).

(** The messages of the engine's own errors. *)
Class PageHost := { null_read : jstr -> jstr; malformed_uri : jstr }.

(** ** The state of the component *)

(** [ct_object] is the identity of the object: an effect runs again for a new object. *)
Record Contact := MkContact {
  ct_object : Z; identity_id : jstr; device_id : jstr; device_pubkey : option jstr;
  signal_identity_key : option jstr; contact_name : option jstr }.
(** [ContactCardPreview] has one format only. *)
Record panel := Panel {
  label : jstr; relayUrl : jstr; pingMs : option json; relayState : ConnectionState; localStationState : ConnectionState;
  profileState : ProfileVerdict; relayReachability : ReachabilityState; telemetry : list json }.
(** [setHistory] of a function calls it: an answer whose [data] is an array has the method
    [entries], and the page breaks. *)
Inductive shown := Entries (entries : json) | Broken.
Record import_dialog := ImportDialog {
  showImportModal : bool; importJsonText : jstr; importPreview : option ContactCardPreview;
  validatedCard : option members; importError : jstr; importing : bool; validatingImport : bool }.
Record export_dialog := ExportDialog {
  showExportModal : bool; exportJsonText : jstr; exportError : jstr; exportLoading : bool; copyStatus : jstr }.
Record view := View {
  vw_panel : panel; contacts : list Contact; selectedContact : option Contact; history : shown;
  inputMsg : jstr; sending : bool; vw_import : import_dialog; vw_export : export_dialog }.
Record refs := Refs {
  selectedContactRef : option Contact; historyRequestRef : Z; exportRequestRef : Z; importGenerationRef : Z;
  objects : Z }.
(** What the setters have set, what is on the screen, the refs, and the alerts. *)
Record page := Page { now : view; rendered : view; pg_refs : refs; alerts : list jstr }.

Definition initial_view : view :=
  View (Panel (js "Operator") [] (Some JNull) ConnectionUnknown ConnectionUnknown VerdictUnknown ReachabilityUnknown [])
    [] None (Entries (JArr [])) [] false
    (ImportDialog false [] None None [] false false) (ExportDialog false [] [] false []).
Definition initial_page : page := Page initial_view initial_view (Refs None 0 0 0 0) [].

(** ** The setters *)

Definition on_view (f : view -> view) (p : page) : page := Page (f (now p)) (rendered p) (pg_refs p) (alerts p).
Definition on_refs (f : refs -> refs) (p : page) : page := Page (now p) (rendered p) (f (pg_refs p)) (alerts p).
Definition on_panel (f : panel -> panel) : page -> page :=
  on_view (fun v => View (f (vw_panel v)) (contacts v) (selectedContact v) (history v) (inputMsg v) (sending v) (vw_import v) (vw_export v)).
Definition on_import (f : import_dialog -> import_dialog) : page -> page :=
  on_view (fun v => View (vw_panel v) (contacts v) (selectedContact v) (history v) (inputMsg v) (sending v) (f (vw_import v)) (vw_export v)).
Definition on_export (f : export_dialog -> export_dialog) : page -> page :=
  on_view (fun v => View (vw_panel v) (contacts v) (selectedContact v) (history v) (inputMsg v) (sending v) (vw_import v) (f (vw_export v))).
Definition setContacts (l : list Contact) : page -> page :=
  on_view (fun v => View (vw_panel v) l (selectedContact v) (history v) (inputMsg v) (sending v) (vw_import v) (vw_export v)).
Definition setSelectedContact (c : option Contact) : page -> page :=
  on_view (fun v => View (vw_panel v) (contacts v) c (history v) (inputMsg v) (sending v) (vw_import v) (vw_export v)).
Definition setHistory (h : shown) : page -> page :=
  on_view (fun v => View (vw_panel v) (contacts v) (selectedContact v) h (inputMsg v) (sending v) (vw_import v) (vw_export v)).
Definition setInputMsg (text : jstr) : page -> page :=
  on_view (fun v => View (vw_panel v) (contacts v) (selectedContact v) (history v) text (sending v) (vw_import v) (vw_export v)).
Definition setSending (b : bool) : page -> page :=
  on_view (fun v => View (vw_panel v) (contacts v) (selectedContact v) (history v) (inputMsg v) b (vw_import v) (vw_export v)).
Definition set_selected_ref (c : option Contact) : page -> page :=
  on_refs (fun r => Refs c (historyRequestRef r) (exportRequestRef r) (importGenerationRef r) (objects r)).
Definition alert (message : jstr) (p : page) : page := Page (now p) (rendered p) (pg_refs p) (alerts p ++ [message]).

Definition setShowImportModal (b : bool) : page -> page :=
  on_import (fun d => ImportDialog b (importJsonText d) (importPreview d) (validatedCard d) (importError d) (importing d) (validatingImport d)).
Definition setImportJsonText (text : jstr) : page -> page :=
  on_import (fun d => ImportDialog (showImportModal d) text (importPreview d) (validatedCard d) (importError d) (importing d) (validatingImport d)).
(** [setImportPreview] and [setValidatedCard] are always called together. *)
Definition set_checked (card : option (members * ContactCardPreview)) : page -> page :=
  on_import (fun d => ImportDialog (showImportModal d) (importJsonText d) (option_map snd card) (option_map fst card) (importError d)
                        (importing d) (validatingImport d)).
Definition setImportError (error : jstr) : page -> page :=
  on_import (fun d => ImportDialog (showImportModal d) (importJsonText d) (importPreview d) (validatedCard d) error (importing d) (validatingImport d)).
Definition setImporting (b : bool) : page -> page :=
  on_import (fun d => ImportDialog (showImportModal d) (importJsonText d) (importPreview d) (validatedCard d) (importError d) b (validatingImport d)).
Definition setValidatingImport (b : bool) : page -> page :=
  on_import (fun d => ImportDialog (showImportModal d) (importJsonText d) (importPreview d) (validatedCard d) (importError d) (importing d) b).

(** ** The status of the station *)

Definition text_member (key : jstr) (object : members) : option jstr := Browser.text_of (obj_get key object).
(** The objects that [mapContacts] makes are new ones. *)
Definition mapContact (item : json) : option (Z -> Contact) :=
  match item with
  | JObj item =>
      match text_member (js "identity_id") item, text_member (js "device_id") item with
      | Some identity_id, Some device_id =>
          Some (fun object => MkContact object identity_id device_id (text_member (js "device_pubkey") item)
                                (text_member (js "signal_identity_key") item) (text_member (js "name") item))
      | _, _ => None
      end
  | _ => None
  end.
Definition mapContacts (objects : Z) (value : option json) : list Contact :=
  match value with
  | Some (JArr items) => imap (fun i make => make (objects + Z.of_nat i)) (omap mapContact items)
  | _ => []
  end.
Definition is_string (value : option json) : bool := match value with Some (JStr _) => true | _ => false end.
Definition isTelemetryItem (value : json) : bool :=
  match value with
  | JObj item =>
      is_string (obj_get (js "id") item) && is_string (obj_get (js "time") item) && is_string (obj_get (js "message") item)
      && existsb (fun type => is_text type (obj_get (js "type") item))
           [js "info"; js "success"; js "warn"; js "error"; js "crypto"]
  | _ => false
  end.
Definition panel_of (status : Browser.StationStatus) (p : panel) : panel :=
  Panel (default_to (label p) (Browser.label status)) (Browser.relayUrl status)
    (Some match Browser.pingMs status with Some ms => JNum ms | None => JNull end)
    (Browser.relay status) (localStationState p) (Browser.profileState status) (Browser.relayReachability status)
    (match Browser.telemetry status with Some items => List.filter isTelemetryItem items | None => telemetry p end).
Definition next_selected (mapped : list Contact) (selectedId : option jstr) : option Contact :=
  match find (fun contact => bool_decide (Some (identity_id contact) = selectedId)) mapped with
  | Some contact => Some contact
  | None => head mapped
  end.
Definition applyStatus (payload : json) (p : page) : page :=
  match Browser.parseStationStatus payload with
  | None => p
  | Some status =>
      let mapped := mapContacts (objects (pg_refs p)) (member_of (js "contacts") (Browser.profile status)) in
      let nextSelected := next_selected mapped (option_map identity_id (selectedContactRef (pg_refs p))) in
      let p := on_refs (fun r => Refs nextSelected (historyRequestRef r) (exportRequestRef r) (importGenerationRef r)
                                   (objects r + Z.of_nat (length mapped))) p in
      let p := setSelectedContact nextSelected (setContacts mapped (on_panel (panel_of status) p)) in
      match nextSelected with None => setHistory (Entries (JArr [])) p | Some _ => p end
  end.

(** ** Addresses and bodies *)

Definition uri_unreserved (u : Z) : bool :=
  is_digit u || ((65 <=? u) && (u <=? 90)) || ((97 <=? u) && (u <=? 122))
  || existsb (Z.eqb u) [45; 95; 46; 33; 126; 42; 39; 40; 41].
Definition upper_hex (d : Z) : Z := if d <? 10 then 48 + d else 55 + d.
Definition percent (b : Z) : jstr := [37; upper_hex (b / 16); upper_hex (b mod 16)].
Definition uri_point (p : jstr) : jstr :=
  match p with
  | [u] => if uri_unreserved u then p else flat_map percent (utf8_encode p)
  | _ => flat_map percent (utf8_encode p)
  end.
(** [encodeURIComponent]; [None] is its [URIError] *)
Definition encodeURIComponent (s : jstr) : option jstr :=
  if well_formed s then Some (flat_map uri_point (code_points s)) else None.
Definition history_url (contactId : jstr) : option jstr :=
  option_map (fun id => js "/api/history?with=" ++ id) (encodeURIComponent contactId).
Definition send_body (to text : jstr) : jstr := stringify (JObj [(js "to", JStr to); (js "text", JStr text)]).
Definition validate_body (card : members) : jstr := stringify (JObj [(js "cardJson", JObj card)]).
Definition import_body (card : members) : jstr := stringify (JObj [(js "cardJson", JObj card); (js "confirmed", JBool true)]).

(** [data.key] of an answer: reading a property of [null] throws. *)
Definition is_truthy (value : option json) : bool := match value with Some v => truthy v | None => false end.
(** [data.ok && data.data?.entries] when that is truthy; [data] is not [null] *)
Definition entries_of (data : json) : option shown :=
  if is_truthy (field (js "ok") data) then
    match field (js "data") data with
    | Some (JObj inner) =>
        match obj_get (js "entries") inner with
        | Some entries => if truthy entries then Some (Entries entries) else None
        | None => None
        end
    | Some (JArr _) => Some Broken
    | _ => None
    end
  else None.
(** [res.ok && isRecord(data) && data.ok === true] *)
Definition accepted (r : response) : bool :=
  res_ok r && match res_json r with JObj data => bool_decide (obj_get (js "ok") data = Some (JBool true)) | _ => false end.
Definition answered_error (r : response) (otherwise : jstr) : jstr :=
  match res_json r with JObj data => default_to otherwise (text_member (js "error") data) | _ => otherwise end.

(** ** The handlers *)

Section handlers.
Context {engine : PageHost}.
Abbreviation async := (prog page thrown question answer).
Open Scope async_scope.

(** Every handler starts from the page as it was rendered: its closure. *)
Definition closure : async view := get rendered.
Definition null_error (key : jstr) : thrown := Failed (null_read key).
(** [data.key] where [data] may be [null] *)
Definition not_null (key : jstr) (data : json) : res thrown json :=
  match data with JNull => Err (null_error key) | _ => Ok data end.
Definition error_message (e : thrown) : jstr := match e with Failed message => message end.

Definition loadStatus : async unit :=
  catching (r <~ await GetStatus; update (applyStatus (res_json r))) (fun _ => Ret tt).
Definition next_history_request : async Z :=
  sync (fun p => let requestId := historyRequestRef (pg_refs p) + 1 in
    (requestId, on_refs (fun r => Refs (selectedContactRef r) requestId (exportRequestRef r) (importGenerationRef r) (objects r)) p)).
Definition show_history (contactId : jstr) (requestId : Z) (data : json) (p : page) : page :=
  match entries_of data with
  | Some entries =>
      if bool_decide (option_map identity_id (selectedContactRef (pg_refs p)) = Some contactId)
         && (requestId =? historyRequestRef (pg_refs p))
      then setHistory entries p else p
  | None => p
  end.
Definition loadHistory (contactId : jstr) : async unit :=
  requestId <~ next_history_request;
  catching
    (match history_url contactId with
     | None => Throw (Failed malformed_uri)
     | Some url =>
         r <~ await (GetHistory url);
         data <~ of_res (not_null (js "ok") (res_json r));
         update (show_history contactId requestId data)
     end)
    (fun _ => Ret tt).

(** The listeners of [/api/events]; [None] is data that is no JSON. *)
Inductive station_event :=
  | StreamOpen | StreamError | StatusEvent (data : option json) | TelemetryEvent (data : option json)
  | PingEvent (data : option json) | NewMessage | OutboundSent | ContactAdded.
Definition set_local (s : ConnectionState) : page -> page :=
  on_panel (fun n => Panel (label n) (relayUrl n) (pingMs n) (relayState n) s (profileState n) (relayReachability n) (telemetry n)).
Definition last_150 (items : list json) : list json := drop (length items - 150) items.
Definition add_telemetry (item : json) : page -> page :=
  on_panel (fun n => Panel (label n) (relayUrl n) (pingMs n) (relayState n) (localStationState n) (profileState n)
                       (relayReachability n) (last_150 (telemetry n) ++ [item])).
Definition set_ping (ping : option json) : page -> page :=
  on_panel (fun n => Panel (label n) (relayUrl n) ping (relayState n) (localStationState n) (profileState n)
                       (relayReachability n) (telemetry n)).
Definition reload_selected : async unit :=
  selected <~ get (fun p => selectedContactRef (pg_refs p));
  match selected with Some contact => loadHistory (identity_id contact) | None => Ret tt end.
Definition on_station_event (e : station_event) : async unit :=
  match e with
  | StreamOpen => update (set_local Connected)
  | StreamError => update (set_local Station.Disconnected)
  | StatusEvent (Some data) => update (applyStatus data)
  | TelemetryEvent (Some item) => update (add_telemetry item)
  | PingEvent (Some JNull) => Ret tt
  | PingEvent (Some data) => update (set_ping (field (js "ping") data))
  | StatusEvent None | TelemetryEvent None | PingEvent None => Ret tt
  | NewMessage | OutboundSent => reload_selected
  | ContactAdded => loadStatus
  end.

(** The screen is brought up to date, then the effect on [selectedContact] runs when it is
    another object than before. *)
Definition render : async unit :=
  changed <~ sync (fun p =>
    let selected := selectedContact (now p) in
    (if bool_decide (option_map ct_object selected = option_map ct_object (selectedContact (rendered p))) then None else selected,
     Page (now p) (now p) (pg_refs p) (alerts p)));
  match changed with
  | Some contact => update (set_selected_ref (Some contact));~ loadHistory (identity_id contact)
  | None => Ret tt
  end.

Definition report_send (data : json) : page -> page :=
  let code := match field (js "code") data with
              | Some code => if truthy code then to_text code else js "UNKNOWN"
              | None => js "UNKNOWN"
              end in
  alert (js "Ошибка отправки: " ++ code).
Definition handleSend : async unit :=
  c <~ closure;
  match selectedContact c with
  | None => Ret tt
  | Some contact =>
      if eqb (trim (inputMsg c)) [] || sending c then Ret tt
      else
        let text := inputMsg c in
        update (fun p => setInputMsg [] (setSending true p));~
        finally
          (catching
            (r <~ await (PostSend (send_body (identity_id contact) text));
             data <~ of_res (not_null (js "ok") (res_json r));
             if is_truthy (field (js "ok") data) then loadHistory (identity_id contact) else update (report_send data))
            (fun err => update (alert (js "Ошибка: " ++ error_message err))))
          (update (setSending false))
  end.

Definition start_export : async Z :=
  sync (fun p => let requestId := exportRequestRef (pg_refs p) + 1 in
    (requestId,
     on_export (fun _ => ExportDialog true [] [] true [])
       (on_refs (fun r => Refs (selectedContactRef r) (historyRequestRef r) requestId (importGenerationRef r) (objects r)) p))).
(** A setter that runs only for the latest request. *)
Definition if_latest_export (requestId : Z) (f : page -> page) (p : page) : page :=
  if requestId =? exportRequestRef (pg_refs p) then f p else p.
Definition setExportJsonText (text : jstr) : page -> page :=
  on_export (fun d => ExportDialog (showExportModal d) text (exportError d) (exportLoading d) (copyStatus d)).
Definition setExportError (error : jstr) : page -> page :=
  on_export (fun d => ExportDialog (showExportModal d) (exportJsonText d) error (exportLoading d) (copyStatus d)).
Definition setExportLoading (b : bool) : page -> page :=
  on_export (fun d => ExportDialog (showExportModal d) (exportJsonText d) (exportError d) b (copyStatus d)).
Definition setCopyStatus (status : jstr) : page -> page :=
  on_export (fun d => ExportDialog (showExportModal d) (exportJsonText d) (exportError d) (exportLoading d) status).
Definition handleExportCard : async unit :=
  requestId <~ start_export;
  finally
    (catching
      (r <~ await GetExport;
       match parseExportCardResponse r.1 r.2 with
       | NotExported error => Throw (Failed error)
       | Exported cardJson => update (if_latest_export requestId (setExportJsonText cardJson))
       end)
      (fun error => update (if_latest_export requestId (setExportError (error_message error)))))
    (update (if_latest_export requestId (setExportLoading false))).
Definition closeExportModal : page -> page := fun p =>
  on_export (fun d => ExportDialog false (exportJsonText d) (exportError d) (exportLoading d) (copyStatus d))
    (on_refs (fun r => Refs (selectedContactRef r) (historyRequestRef r) (exportRequestRef r + 1) (importGenerationRef r) (objects r)) p).
Definition copy_card : async unit :=
  c <~ closure;
  catching
    (await (WriteClipboard (exportJsonText (vw_export c)));~
     update (setCopyStatus (js "Карточка скопирована в буфер обмена.")))
    (fun _ => update (setCopyStatus (js "Не удалось скопировать карточку. Скопируйте текст вручную."))).

(** *** The import dialog *)

Definition next_generation : page -> page :=
  on_refs (fun r => Refs (selectedContactRef r) (historyRequestRef r) (exportRequestRef r) (importGenerationRef r + 1) (objects r)).
Definition resetImportPreparation (p : page) : page :=
  setImportError [] (set_checked None (setValidatingImport false (next_generation p))).
Definition handleImportTextChange (value : jstr) (p : page) : page := resetImportPreparation (setImportJsonText value p).
Definition generation_now : async Z := get (fun p => importGenerationRef (pg_refs p)).
(** A setter that runs only while nothing else was begun in the dialog. *)
Definition if_latest_import (generation : Z) (f : page -> page) (p : page) : page :=
  if generation =? importGenerationRef (pg_refs p) then f p else p.
Definition handleImportFile (chosen : option file) : async unit :=
  update resetImportPreparation;~
  generation <~ generation_now;
  match chosen with
  | None => Ret tt
  | Some chosen =>
      if MAX_CONTACT_CARD_BYTES <? file_size chosen
      then update (setImportError (js "Карточка превышает допустимый размер 128 КБ."))
      else catching
        (text <~ await (ReadFile chosen); update (if_latest_import generation (setImportJsonText text)))
        (fun _ => update (if_latest_import generation (setImportError (js "Не удалось прочитать выбранный файл карточки."))))
  end.
Definition handleValidateImport : async unit :=
  c <~ closure;
  update (fun p => setImportError [] (set_checked None (next_generation p)));~
  generation <~ generation_now;
  match parseContactCard (importJsonText (vw_import c)) with
  | Refused error => update (setImportError error)
  | Accepted card preview =>
      if isDuplicateContact preview (map identity_id (contacts c))
      then update (setImportError (js "Этот абонент уже есть в адресной книге."))
      else
        update (setValidatingImport true);~
        finally
          (catching
            (r <~ await (PostValidate (validate_body card));
             if negb (accepted r)
             then Throw (Failed (answered_error r (js "Карточка не прошла криптографическую проверку.")))
             else update (if_latest_import generation (set_checked (Some (card, preview)))))
            (fun error => update (if_latest_import generation (setImportError (error_message error)))))
          (update (if_latest_import generation (setValidatingImport false)))
  end.
Definition changed_card (text : jstr) (card : members) : bool :=
  match parseContactCard text with
  | Accepted current _ => negb (eqb (stringify (JObj current)) (stringify (JObj card)))
  | Refused _ => true
  end.
Definition import_done (p : page) : page :=
  resetImportPreparation (setImportJsonText [] (setShowImportModal false (next_generation p))).
Definition handleConfirmImport : async unit :=
  c <~ closure;
  match validatedCard (vw_import c) with
  | None => Ret tt
  | Some card =>
      if importing (vw_import c) then Ret tt
      else if changed_card (importJsonText (vw_import c)) card
      then update (setImportError (js "Карточка изменилась. Проверьте её повторно перед импортом."))
      else
        update (fun p => setImportError [] (setImporting true p));~
        finally
          (catching
            (r <~ await (PostImport (import_body card));
             if negb (accepted r)
             then Throw (Failed (answered_error r (js "Не удалось импортировать карточку.")))
             else update import_done;~ loadStatus)
            (fun error => update (setImportError (error_message error))))
          (update (setImporting false))
  end.
Definition closeImportModal (p : page) : page := setShowImportModal false (resetImportPreparation p).

(** ** What the operator and the station cause *)

(** A control that is disabled on the screen does nothing. *)
Definition unless (disabled : import_dialog -> bool) (p : async unit) : async unit :=
  c <~ closure; if disabled (vw_import c) then Ret tt else p.
Definition busy (d : import_dialog) : bool := importing d || validatingImport d.
Definition unconfirmable (d : import_dialog) : bool :=
  match validatedCard d with None => true | Some _ => false end || importing d || validatingImport d.
Inductive event :=
  | Mounted | Rendered | Station (e : station_event)
  | ContactPicked (position : nat) | MessageTyped (text : jstr) | MessageSubmitted
  | ExportClicked | ExportClosed | CopyClicked
  | ImportOpened | FileChosen (chosen : option file) | CardTyped (text : jstr)
  | ValidateClicked | ConfirmClicked | CancelClicked | ImportDismissed.
Definition pick (position : nat) : async unit :=
  c <~ closure;
  match contacts c !! position with
  | Some contact => update (fun p => setSelectedContact (Some contact) (set_selected_ref (Some contact) p))
  | None => Ret tt
  end.
Definition type_message (text : jstr) : async unit :=
  c <~ closure; if sending c then Ret tt else update (setInputMsg text).
Definition event_handler (e : event) : async unit :=
  match e with
  | Mounted => loadStatus
  | Rendered => render
  | Station e => on_station_event e
  | ContactPicked position => pick position
  | MessageTyped text => type_message text
  | MessageSubmitted => handleSend
  | ExportClicked => handleExportCard
  | ExportClosed => update closeExportModal
  | CopyClicked => copy_card
  | ImportOpened => update (setShowImportModal true)
  | FileChosen chosen => unless busy (handleImportFile chosen)
  | CardTyped text => unless busy (update (handleImportTextChange text))
  | ValidateClicked => unless busy handleValidateImport
  | ConfirmClicked => unless unconfirmable handleConfirmImport
  | CancelClicked | ImportDismissed => unless importing (update closeImportModal)
  end.
Definition page_handler (e : event) (p : async unit) : Prop := p = event_handler e.
(** The page after any events, renders and answers, with all that was asked and answered. *)
Definition page_happens : list exch -> loop page thrown question event answer -> Prop :=
  happens page_handler initial_page.
End handlers.

(** ** The labels over the cabinet *)

Definition displayedRelayState (n : panel) : ConnectionState := Browser.effectiveRelayState (localStationState n) (relayState n).
Definition relayLabel (n : panel) : jstr :=
  match displayedRelayState n, localStationState n with
  | Connected, _ => js "Соединение с relay подтверждено"
  | _, Station.Disconnected => js "Локальная станция недоступна"
  | Station.Disconnected, _ => js "Соединение с relay отключено"
  | _, _ => js "Состояние relay неизвестно"
  end.
Definition profileLabel (n : panel) : jstr :=
  match profileState n with
  | Verified => js "Профиль готов"
  | Unverified => js "Профиль требует проверки"
  | VerdictUnknown => js "Состояние профиля неизвестно"
  end.

(** ** What the page may show and ask for *)

(** The station accepted exactly this card for import, and it is a card of the page's format. *)
Definition validated (h : list exch) (card : members) (preview : ContactCardPreview) : Prop :=
  (exists text, parseContactCard text = Accepted card preview) /\
  exists r, existT (PostValidate (validate_body card)) (Ok r) ∈ h /\ accepted r = true.
(** The station exported this text, which is a card. *)
Definition exported (h : list exch) (text : jstr) : Prop :=
  exists status, existT GetExport (Ok (status, text)) ∈ h /\ parseExportCardResponse status text = Exported text.
(** The station answered these entries to a question for one contact. *)
Definition told (h : list exch) (entries : shown) : Prop :=
  exists contactId url r, history_url contactId = Some url /\ existT (GetHistory url) (Ok r) ∈ h /\ entries_of (res_json r) = Some entries.

Definition view_ok (h : list exch) (v : view) : Prop :=
  match validatedCard (vw_import v), importPreview (vw_import v) with
  | Some card, Some preview => validated h card preview
  | None, None => True
  | _, _ => False
  end /\
  (exportJsonText (vw_export v) = [] \/ exported h (exportJsonText (vw_export v))) /\
  (history v = Entries (JArr []) \/ told h (history v)).
Definition page_ok (h : list exch) (p : page) : Prop := view_ok h (now p) /\ view_ok h (rendered p).
Definition may_ask (h : list exch) (q : question) : Prop :=
  match q with
  | PostImport body => exists card preview, body = import_body card /\ validated h card preview
  | PostSend body => exists to text, body = send_body to text /\ trim text <> []
  | WriteClipboard text => text = [] \/ exported h text
  | _ => True
  end.

Lemma validated_mono h h' card preview : h ⊆ h' -> validated h card preview -> validated h' card preview.
Proof. intros Hh (? & r & Hr & ?). split; [done|]. exists r. split; [by apply Hh|done]. Qed.
Lemma exported_mono h h' text : h ⊆ h' -> exported h text -> exported h' text.
Proof. intros Hh (status & Hr & ?). exists status. split; [by apply Hh|done]. Qed.
Lemma told_mono h h' entries : h ⊆ h' -> told h entries -> told h' entries.
Proof. intros Hh (id & url & r & ? & Hr & ?). exists id, url, r. split_and!; [done|by apply Hh|done]. Qed.
Lemma view_ok_mono h h' v : h ⊆ h' -> view_ok h v -> view_ok h' v.
Proof.
  intros Hh (Hc & He & Ht). split; [|split].
  - destruct (validatedCard _), (importPreview _); try done. by eapply validated_mono.
  - destruct He; [by left|right]. by eapply exported_mono.
  - destruct Ht; [by left|right]. by eapply told_mono.
Qed.
Lemma page_ok_mono h h' p : h ⊆ h' -> page_ok h p -> page_ok h' p.
Proof. intros Hh [? ?]. split; by eapply view_ok_mono. Qed.
Lemma may_ask_mono h h' q : h ⊆ h' -> may_ask h q -> may_ask h' q.
Proof.
  intros Hh. destruct q; cbn; try done.
  - intros (card & preview & ? & ?). exists card, preview. split; [done|]. by eapply validated_mono.
  - intros [?|?]; [by left|right]. by eapply exported_mono.
Qed.

Lemma exported_text status body cardJson : parseExportCardResponse status body = Exported cardJson -> cardJson = body.
Proof.
  unfold parseExportCardResponse. destruct (_ || _).
  - destruct (parse body) as [[| | | | |error]|]; try done. cbv zeta. by destruct (match obj_get _ error with Some _ => _ | None => _ end) as [[]|].
  - destruct (parseContactCard body); [|done]. congruence.
Qed.
(** What leaves the cards, the exported text and the conversation alone keeps the page right. *)
Definition keeps_shown (f : page -> page) : Prop :=
  forall p, rendered (f p) = rendered p /\
    validatedCard (vw_import (now (f p))) = validatedCard (vw_import (now p)) /\
    importPreview (vw_import (now (f p))) = importPreview (vw_import (now p)) /\
    exportJsonText (vw_export (now (f p))) = exportJsonText (vw_export (now p)) /\
    history (now (f p)) = history (now p).
Lemma keeps_shown_ok h f p : keeps_shown f -> page_ok h p -> page_ok h (f p).
Proof.
  intros Hf [(Hc & He & Ht) Hr]. destruct (Hf p) as (Er & Ev & Ep & Ex & Eh).
  split; [|by rewrite Er]. split; [by rewrite Ev, Ep|]. split; [by rewrite Ex|by rewrite Eh].
Qed.
Lemma set_checked_ok h card p :
  match card with Some (card, preview) => validated h card preview | None => True end ->
  page_ok h p -> page_ok h (set_checked card p).
Proof. intros Hc [(_ & He & Ht) Hr]. split; [|done]. split; [|by split]. by destruct card as [[]|]. Qed.
Lemma setHistory_ok h entries p :
  entries = Entries (JArr []) \/ told h entries -> page_ok h p -> page_ok h (setHistory entries p).
Proof. intros Hh [(Hc & He & _) Hr]. split; [|done]. by split_and!. Qed.
Lemma setExportJsonText_ok h text p : exported h text -> page_ok h p -> page_ok h (setExportJsonText text p).
Proof. intros Hx [(Hc & He & Ht) Hr]. split; [|done]. split; [done|]. split; [by right|done]. Qed.

(** ** Every handler keeps the page right *)

Section kept.
Context {engine : PageHost}.
Abbreviation ends := (fun (_ : list exch) (r : res thrown unit) => r = Ok tt).
Abbreviation safe h p := (holds page_ok may_ask ends h p).

Lemma latest_export_ok h requestId f p : (page_ok h p -> page_ok h (f p)) -> page_ok h p -> page_ok h (if_latest_export requestId f p).
Proof. unfold if_latest_export. destruct (_ =? _); auto. Qed.
Lemma latest_import_ok h generation f p : (page_ok h p -> page_ok h (f p)) -> page_ok h p -> page_ok h (if_latest_import generation f p).
Proof. unfold if_latest_import. destruct (_ =? _); auto. Qed.
(** A step that shows nothing new. *)
Ltac quiet :=
  try (apply latest_export_ok; [intros _|done]); try (apply latest_import_ok; [intros _|done]);
  apply keeps_shown_ok; [by intros [[] ? [] ?]|done].
Ltac steps :=
  repeat first
    [ reflexivity
    | apply holds_andThen | apply holds_catching | apply holds_finally
    | apply holds_update; [let p := fresh "p" in let Hp := fresh "Hp" in intros p Hp; first [quiet|idtac]|]
    | apply holds_get; let p := fresh "p" in let Hp := fresh "Hp" in intros p Hp
    | apply holds_await; [first [exact Logic.I|idtac]|let h' := fresh "h'" in let a := fresh "a" in intros h' a ? ?] ].

Lemma not_null_cases key data : not_null key data = Ok data \/ data = JNull /\ not_null key data = Err (null_error key).
Proof. destruct data; [by right|by left..]. Qed.
Lemma applyStatus_ok h payload p : page_ok h p -> page_ok h (applyStatus payload p).
Proof.
  intros Hp. unfold applyStatus. destruct (Browser.parseStationStatus payload) as [status|]; [|done]. cbv zeta.
  assert (forall c f, page_ok h (setSelectedContact c (setContacts f (on_panel (panel_of status) (on_refs (fun r => Refs c (historyRequestRef r) (exportRequestRef r) (importGenerationRef r) (objects r + Z.of_nat (length f))) p))))) as Hq.
  { intros c f. apply (keeps_shown_ok h (fun p => setSelectedContact c (setContacts f (on_panel (panel_of status) (on_refs (fun r => Refs c (historyRequestRef r) (exportRequestRef r) (importGenerationRef r) (objects r + Z.of_nat (length f))) p))))); [by intros []|done]. }
  destruct (next_selected _ _); [apply Hq|]. apply setHistory_ok; [by left|apply Hq].
Qed.
Lemma loadStatus_safe h : safe h loadStatus.
Proof. unfold loadStatus. steps. destruct a as [r|e]; [|done]. steps. by apply applyStatus_ok. Qed.
Lemma show_history_ok h contactId requestId url r p :
  history_url contactId = Some url -> existT (GetHistory url) (Ok r) ∈ h ->
  page_ok h p -> page_ok h (show_history contactId requestId (res_json r) p).
Proof.
  intros Eu Hr Hp. unfold show_history. destruct (entries_of (res_json r)) as [entries|] eqn:E; [|done].
  destruct (_ && _); [|done]. apply setHistory_ok; [|done]. right. by exists contactId, url, r.
Qed.
Lemma loadHistory_safe h contactId : safe h (loadHistory contactId).
Proof.
  unfold loadHistory, next_history_request. apply holds_andThen, holds_sync. intros p Hp. split; [quiet|]. cbn [fst].
  apply holds_catching. destruct (history_url contactId) as [url|] eqn:Eu; [|done]. steps.
  destruct a as [r|e]; [|done]. apply holds_andThen, holds_of_res. destruct (not_null_cases (js "ok") (res_json r)) as [->|[_ ->]]; [|done].
  steps. by eapply show_history_ok.
Qed.
#[local] Opaque loadStatus loadHistory.
Lemma station_event_safe h e : safe h (on_station_event e).
Proof.
  destruct e as [| |[d|]|[d|]|[d|]| | |]; cbn [on_station_event]; try done; try (by steps).
  - steps. by apply applyStatus_ok.
  - by destruct d; steps.
  - unfold reload_selected. steps. destruct (selectedContactRef _); [apply loadHistory_safe|done].
  - unfold reload_selected. steps. destruct (selectedContactRef _); [apply loadHistory_safe|done].
  - apply loadStatus_safe.
Qed.
Lemma render_safe h : safe h render.
Proof.
  unfold render. apply holds_andThen, holds_sync. intros p [Hn Hr]. split; [by split|]. cbn [fst].
  destruct (if bool_decide _ then _ else _) as [contact|]; [|done]. steps. apply loadHistory_safe.
Qed.
Lemma handleSend_safe h : safe h handleSend.
Proof.
  unfold handleSend, closure. steps. destruct (selectedContact (rendered p)) as [contact|]; [|done].
  destruct (eqb _ [] || _) eqn:E; [done|]. apply orb_false_iff in E as [E%eqb_neq _]. steps.
  - by exists (identity_id contact), (inputMsg (rendered p)).
  - destruct a as [r|e]; [|steps]. apply holds_andThen, holds_of_res. destruct (not_null_cases (js "ok") (res_json r)) as [->|[_ ->]]; [|by steps].
    destruct (is_truthy _); [|by steps]. eapply holds_mono; [apply loadHistory_safe|]; intros h'' r' _ ->; by steps.
Qed.
Lemma handleExportCard_safe h : safe h handleExportCard.
Proof.
  unfold handleExportCard, start_export. apply holds_andThen, holds_sync. intros p Hp. split.
  { destruct Hp as [(Hc & He & Ht) Hr]. split; [|done]. split; [done|]. split; [by left|done]. }
  cbn [fst]. steps. destruct a as [[status text]|e]; [|by steps]. cbn [fst snd].
  destruct (parseExportCardResponse status text) as [cardJson|error] eqn:E; [|by steps]. steps.
  apply latest_export_ok; [|done]. apply setExportJsonText_ok. exists status.
  assert (cardJson = text) as -> by by eapply exported_text. by split.
Qed.
Lemma copy_card_safe h : safe h copy_card.
Proof.
  unfold copy_card, closure. steps; [|by destruct a; steps]. destruct Hp as [_ (_ & He & _)]. exact He.
Qed.
Lemma handleImportFile_safe h chosen : safe h (handleImportFile chosen).
Proof.
  unfold handleImportFile, generation_now. steps; [by apply set_checked_ok|]. destruct chosen as [chosen|]; [|done].
  destruct (_ <? _); [by steps|]. steps. by destruct a; steps.
Qed.
Lemma handleValidateImport_safe h : safe h handleValidateImport.
Proof.
  unfold handleValidateImport, closure, generation_now. steps.
  { apply keeps_shown_ok; [by intros []|]. by apply set_checked_ok. }
  destruct (parseContactCard _) as [card preview|error] eqn:E; [|by steps].
  destruct (isDuplicateContact _ _); [by steps|]. steps. destruct a as [r|e]; [|by steps].
  destruct (accepted r) eqn:Er; cbn [negb]; [|by steps]. steps.
  apply latest_import_ok; [|done]. apply set_checked_ok. split; [by eexists|]. by exists r.
Qed.
Lemma handleConfirmImport_safe h : safe h handleConfirmImport.
Proof.
  unfold handleConfirmImport, closure. steps. destruct (validatedCard _) as [card|] eqn:Ec; [|done].
  destruct (importing _); [done|]. destruct (changed_card _ _); [by steps|]. steps.
  - destruct Hp as [_ (Hv & _)]. rewrite Ec in Hv. destruct (importPreview _) as [preview|]; [|done]. by exists card, preview.
  - destruct a as [r|e]; [|by steps]. destruct (accepted r); cbn [negb]; [|by steps]. steps; [by apply set_checked_ok|].
    eapply holds_mono; [apply loadStatus_safe|]. intros ? ? _ ->. by steps.
Qed.
#[local] Opaque render handleSend handleExportCard copy_card handleImportFile handleValidateImport handleConfirmImport.
Lemma event_safe h e : safe h (event_handler e).
Proof.
  destruct e as [| |e|position|text| | | | | |chosen|text| | | |]; cbn [event_handler]; unfold unless, pick, type_message, closure;
    try (by steps); eauto using loadStatus_safe, render_safe, station_event_safe, handleSend_safe, handleExportCard_safe, copy_card_safe.
  - steps. destruct (contacts _ !! position); by steps.
  - steps. destruct (sending _); by steps.
  - steps. destruct (busy _); [done|]. apply handleImportFile_safe.
  - steps. destruct (busy _); [done|]. steps. by apply set_checked_ok.
  - steps. destruct (busy _); [done|]. apply handleValidateImport_safe.
  - steps. destruct (unconfirmable _); [done|]. apply handleConfirmImport_safe.
  - steps. destruct (importing _); [done|]. steps. by apply set_checked_ok.
  - steps. destruct (importing _); [done|]. steps. by apply set_checked_ok.
Qed.
End kept.

Section page.
Context {engine : PageHost}.
Abbreviation ends := (fun (_ : list exch) (r : res thrown unit) => r = Ok tt).
Lemma page_handlers_safe e p h : page_handler e p -> holds page_ok may_ask ends h p.
Proof. intros ->. apply event_safe. Qed.
Lemma initial_page_ok : page_ok [] initial_page.
Proof. split; (split; [exact Logic.I|]; split; by left). Qed.
Lemma page_in_order h c : page_happens h c -> in_order page_ok may_ask ends (h, c).
Proof.
  apply happens_holds; [exact page_ok_mono|exact may_ask_mono|exact initial_page_ok|exact page_handlers_safe].
Qed.
Lemma page_allowed h c before q a after : page_happens h c -> h = before ++ existT q a :: after -> may_ask before q.
Proof.
  intros Hc. by eapply happens_allowed; [exact page_ok_mono|exact may_ask_mono|exact initial_page_ok|exact page_handlers_safe|exact Hc].
Qed.

(** C14: An import is asked for only after the station accepted exactly that card. *)
Theorem import_needs_validation h c : page_happens h c ->
  (forall before body a after, h = before ++ existT (PostImport body) a :: after ->
     exists card preview, body = import_body card /\ validated before card preview) /\
  (forall before body a after, h = before ++ existT (PostSend body) a :: after ->
     exists to text, body = send_body to text /\ trim text <> []) /\
  (forall before text a after, h = before ++ existT (WriteClipboard text) a :: after ->
     text = [] \/ exported before text) /\
  alive c = true.
Proof.
  intros Hc. split_and!.
  - intros before body a after. by apply (page_allowed h c before (PostImport body)).
  - intros before body a after. by apply (page_allowed h c before (PostSend body)).
  - intros before text a after. by apply (page_allowed h c before (WriteClipboard text)).
  - destruct (alive c) eqn:E; [done|]. destruct (page_in_order h c Hc) as (_ & _ & Hd). by destruct (Hd E) as (? & ? & Hx).
Qed.

(** C35: What the operator sees. *)
Theorem page_shows_answers h c : page_happens h c ->
  forall v, v = now (shared c) \/ v = rendered (shared c) ->
  (forall card, validatedCard (vw_import v) = Some card ->
     exists preview, importPreview (vw_import v) = Some preview /\ validated h card preview) /\
  (forall preview, importPreview (vw_import v) = Some preview ->
     exists card, validatedCard (vw_import v) = Some card /\ validated h card preview) /\
  (exportJsonText (vw_export v) = [] \/ exported h (exportJsonText (vw_export v))) /\
  (history v = Entries (JArr []) \/ told h (history v)).
Proof.
  intros Hc v Hv. assert (view_ok h v) as (Hi & He & Ht).
  { destruct (page_in_order h c Hc) as ([? ?] & _). by destruct Hv as [-> | ->]. }
  split_and!; [|..|done|done].
  - intros card E. rewrite E in Hi. destruct (importPreview _) as [preview|]; [|done]. by exists preview.
  - intros preview E. rewrite E in Hi. destruct (validatedCard _) as [card|]; [|done]. by exists card.
Qed.
End page.

(** ** What the page posts, the station reads *)

Lemma encoded_bytes pieces : forallb well_formed pieces = true -> body_bytes (map utf8_encode pieces) = utf8_length (concat pieces).
Proof.
  induction pieces as [|p pieces IH]; [done|]. cbn [forallb map concat]. intros [Hp H]%andb_true_iff.
  rewrite body_bytes_cons, IH by done. unfold utf8_length. rewrite utf8_encode_app, length_app by done. lia.
Qed.
(** Chunks that split no character: each is the bytes of a text of its own. *)
Definition whole_characters (chunks : list bytes) : Prop :=
  exists pieces, forallb well_formed pieces = true /\ chunks = map utf8_encode pieces.
Lemma encoded_concat pieces : forallb well_formed pieces = true -> concat (map utf8_encode pieces) = utf8_encode (concat pieces).
Proof.
  induction pieces as [|p pieces IH]; [done|]. cbn [forallb map concat]. intros [Hp H]%andb_true_iff.
  by rewrite IH, utf8_encode_app.
Qed.
(** A text of ASCII is its own bytes, so no cut splits a character of it. *)
Definition ascii (text : jstr) : bool := forallb (fun u => (0 <=? u) && (u <? 128)) text.
Lemma ascii_encoded text : ascii text = true -> utf8_encode text = text /\ well_formed text = true.
Proof.
  assert (forall u, (0 <=? u) && (u <? 128) = true -> utf8_encode [u] = [u] /\ well_formed [u] = true) as Hone.
  { intros u [H1 H2]%andb_true_iff. unfold well_formed, utf8_encode. cbn [code_points flat_map forallb]. unfold is_lone, point_value, utf8_scalar.
    assert (is_surrogate u = false /\ unit_ok u = true) as [-> ->] by (unfold is_surrogate, unit_ok, is_high, is_low; split; lia).
    split; [|done]. replace (u <? 0x80) with true by lia. done. }
  induction text as [|u text IH]; [done|]. unfold ascii. cbn [forallb]. intros [Hu Ht]%andb_true_iff.
  destruct (Hone u Hu) as [Eu Wu], (IH Ht) as [Et Wt]. change (u :: text) with ([u] ++ text).
  split; [by rewrite utf8_encode_app, Eu, Et|by apply well_formed_app].
Qed.
Lemma ascii_chunks text chunks : ascii text = true -> concat chunks = utf8_encode text -> whole_characters chunks.
Proof.
  intros Ha E. rewrite (proj1 (ascii_encoded _ Ha)) in E. subst text. exists chunks.
  assert (forall c, c ∈ chunks -> utf8_encode c = c /\ well_formed c = true) as Hc.
  { intros c Hc. apply ascii_encoded. unfold ascii in *. apply forallb_forall. intros u Hu.
    apply (forallb_In _ _ u Ha). apply in_concat. exists c. split; [by apply list_elem_of_In|exact Hu]. }
  clear Ha. induction chunks as [|c chunks IH]; [done|]. cbn [forallb map].
  destruct (Hc c) as [E W]; [by left|]. destruct IH as [F M]; [intros c' Hc'; apply Hc; by right|]. by rewrite W, F, E, <- M.
Qed.

(** A printed object that is too long is refused, whatever the chunks; one that is not is read
    back from chunks that split no character. *)
Definition body_read (chunks : list bytes) (object : members) (size : Z) : Prop :=
  concat chunks = utf8_encode (stringify (JObj object)) ->
  let body := read_body (RequestBody chunks BodyEnds) in
  (MAX_JSON_BODY_BYTES < size -> body = Err too_large) /\
  (size <= MAX_JSON_BODY_BYTES -> whole_characters chunks -> body = Ok object).
Lemma printed_body_read chunks object :
  json_ok (JObj object) = true -> body_read chunks object (utf8_length (stringify (JObj object))).
Proof.
  intros Hok E. cbv zeta. pose proof (stringify_well_formed _ Hok) as Hs.
  assert (body_bytes chunks = utf8_length (stringify (JObj object))) as Hl by (unfold body_bytes; by rewrite E).
  unfold read_body. cbn [Cards.chunks final]. rewrite read_body_chunks_spec, Z.add_0_l, Hl by done.
  split; intros Hsize.
  - by replace (MAX_JSON_BODY_BYTES <? _) with true by (symmetry; by apply Z.ltb_lt).
  - replace (MAX_JSON_BODY_BYTES <? _) with false by (symmetry; by apply Z.ltb_ge). intros (pieces & Hw & ->).
    rewrite encoded_concat in E by done. apply (f_equal utf8_to_string) in E.
    rewrite !utf8_to_string_encode in E by (done || by apply well_formed_concat).
    rewrite flat_map_decode, E by done. cbn [app]. unfold parse_body. rewrite (parse_stringify _ Hok).
    destruct (eqb (stringify (JObj object)) []) eqn:En; [|done]. apply eqb_true in En. by rewrite stringify_obj in En.
Qed.
Lemma card_body_ok card : json_ok (JObj card) = true ->
  json_ok (JObj [(js "cardJson", JObj card)]) = true /\
  json_ok (JObj [(js "cardJson", JObj card); (js "confirmed", JBool true)]) = true.
Proof.
  intros Hc. cbn [json_ok forallb fst snd] in *. rewrite Hc. split; rewrite !andb_true_r; vm_compute; reflexivity.
Qed.
Lemma send_body_ok to message : forallb unit_ok to = true -> forallb unit_ok message = true ->
  json_ok (JObj [(js "to", JStr to); (js "text", JStr message)]) = true.
Proof. intros Ht Hm. cbn [json_ok forallb fst snd]. rewrite Ht, Hm. vm_compute. reflexivity. Qed.
Lemma utf8_length_app a b : well_formed a = true -> utf8_length (a ++ b) = utf8_length a + utf8_length b.
Proof. intros Ha. unfold utf8_length. rewrite utf8_encode_app, length_app by done. lia. Qed.
(** What stands around the card. *)
Lemma body_shapes card :
  validate_body card = jsq "{'cardJson':" ++ stringify (JObj card) ++ js "}" /\
  import_body card = jsq "{'cardJson':" ++ stringify (JObj card) ++ jsq ",'confirmed':true}".
Proof.
  unfold validate_body, import_body. rewrite (stringify_obj [_]), (stringify_obj [_; _]). unfold member_text. cbn [map fst snd join].
  generalize (stringify (JObj card)). intros printed. rewrite <- !app_assoc. split; vm_compute; reflexivity.
Qed.
Lemma body_sizes card : well_formed (stringify (JObj card)) = true ->
  utf8_length (validate_body card) = 13 + utf8_length (stringify (JObj card)) /\
  utf8_length (import_body card) = 30 + utf8_length (stringify (JObj card)).
Proof.
  intros Hs. destruct (body_shapes card) as [-> ->]. rewrite !utf8_length_app by (done || (vm_compute; reflexivity)).
  replace (utf8_length (jsq "{'cardJson':")) with 12 by (vm_compute; reflexivity).
  replace (utf8_length (js "}")) with 1 by (vm_compute; reflexivity).
  replace (utf8_length (jsq ",'confirmed':true}")) with 18 by (vm_compute; reflexivity). lia.
Qed.

(** C40: What the page posts is what the station reads: the card of a validation; the card of an
    import, with the confirmation; the recipient and the text of a message; and the station
    takes the card for the one the page showed.  The body may come in any chunks that split no
    character, which for a body of ASCII is any chunks at all; a split character is garbled
    ([split_character_posted_wrong]).  And the wrapping counts: a card within 30 bytes of the
    page's own limit, or 13 for a validation, is one the station refuses, in whatever chunks
    it comes. *)
Theorem station_reads_page text card preview to message chunks :
  parseContactCard text = Accepted card preview -> json_ok (JObj card) = true ->
  forallb unit_ok to = true -> forallb unit_ok message = true ->
  let body := read_body (RequestBody chunks BodyEnds) in
  let size := utf8_length (stringify (JObj card)) in
  (concat chunks = utf8_encode (validate_body card) ->
     (MAX_JSON_BODY_BYTES < 13 + size -> body = Err too_large) /\
     (13 + size <= MAX_JSON_BODY_BYTES -> whole_characters chunks -> body = Ok [(js "cardJson", JObj card)])) /\
  (concat chunks = utf8_encode (import_body card) ->
     (MAX_JSON_BODY_BYTES < 30 + size -> body = Err too_large) /\
     (30 + size <= MAX_JSON_BODY_BYTES -> whole_characters chunks ->
        body = Ok [(js "cardJson", JObj card); (js "confirmed", JBool true)])) /\
  parseContactCardJson (Some (JObj card)) = CardOk card (Preview (cp_identityId preview) (cp_deviceId preview)) /\
  (concat chunks = utf8_encode (send_body to message) ->
     (MAX_JSON_BODY_BYTES < utf8_length (send_body to message) -> body = Err too_large) /\
     (utf8_length (send_body to message) <= MAX_JSON_BODY_BYTES -> whole_characters chunks ->
        exists posted, body = Ok posted /\ Server.text_member (js "to") posted = to /\ Server.text_member (js "text") posted = message)) /\
  (forall posted, ascii posted = true -> concat chunks = utf8_encode posted -> whole_characters chunks).
Proof.
  intros Ha Hok Hto Hm. cbv zeta. destruct (card_body_ok card Hok) as [Hv Hi].
  assert (well_formed (stringify (JObj card)) = true) as Hs by by apply stringify_well_formed.
  destruct (body_sizes card Hs) as [Ev Ei]. split; [|split; [|split; [|split]]].
  - intros Ep. rewrite <- Ev. exact (printed_body_read chunks _ Hv Ep).
  - intros Ep. rewrite <- Ei. exact (printed_body_read chunks _ Hi Ep).
  - by eapply accepted_card_read.
  - intros Ep. destruct (printed_body_read chunks _ (send_body_ok to message Hto Hm) Ep) as [Hlong Hread].
    split; [exact Hlong|]. intros Hl Hw. exists [(js "to", JStr to); (js "text", JStr message)]. split; [exact (Hread Hl Hw)|].
    unfold Server.text_member. cbn [obj_get]. rewrite eqb_refl.
    replace (eqb (js "to") (js "text")) with false by (vm_compute; reflexivity). by rewrite eqb_refl.
  - intros posted Hp E. by eapply ascii_chunks.
Qed.

(** ** Runs *)

Module PageSample.
Definition host : PageHost := {| null_read key := js "Cannot read properties of null (reading '" ++ key ++ js "')"; malformed_uri := js "URI malformed" |}.
#[local] Existing Instance host.
Definition run : list move -> list exch * loop page thrown question event answer := play event_handler initial_page.
Definition yes : response := Response true (JObj [(js "ok", JBool true)]).
(** A station that says yes to everything. *)
Definition reply (q : question) : res thrown (answer q) :=
  match q with
  | GetStatus | PostSend _ | PostValidate _ | PostImport _ | GetHistory _ => Ok yes
  | GetExport => Ok (200, CardSample.text)
  | ReadFile _ => Ok []
  | WriteClipboard _ => Ok tt
  end.
Definition refuse (q : question) : res thrown (answer q) := Err (Failed (js "failed")).
Definition import_run : list (move (L := event)) :=
  [Occurs ImportOpened; Occurs (CardTyped CardSample.text); Occurs Rendered; Occurs ValidateClicked; Occurs Rendered;
   Answered 0 reply; Occurs Rendered; Occurs ConfirmClicked; Occurs Rendered; Answered 0 reply].
Definition asked_validation : exch := existT (PostValidate (validate_body CardSample.card)) (Ok yes).
Definition contact (id : jstr) : json := JObj [(js "identity_id", JStr id); (js "device_id", JStr (js "d"))].
Definition status : json := JObj [(js "profile", JObj [(js "contacts", JArr [contact (js "alice"); contact (js "bob")])])].
Definition no_profile : json := JObj [(js "profile", JNull)].
Definition entries : json := JArr [JStr (js "from alice")].
Definition reply_history (q : question) : res thrown (answer q) :=
  match q with
  | GetHistory _ => Ok (Response true (JObj [(js "ok", JBool true); (js "data", JObj [(js "entries", entries)])]))
  | q => reply q
  end.
Definition seen (moves : list move) : option jstr * shown * jstr :=
  let v := rendered (shared (run moves).2) in (option_map identity_id (selectedContact v), history v, inputMsg v).
End PageSample.
Lemma import_needs_validation_witness :
  exists card preview, import_body CardSample.card = import_body card /\ validated [PageSample.asked_validation] card preview.
Proof.
  refine (proj1 (import_needs_validation (engine := PageSample.host) _ _ (play_happens _ _ initial_page PageSample.import_run _))
    [PageSample.asked_validation] _ _ [] _).
  - intros e. reflexivity.
  - vm_compute. reflexivity.
Defined.
Lemma page_shows_answers_witness :
  exists card, validatedCard (vw_import (rendered (shared (PageSample.run (take 7 PageSample.import_run)).2))) = Some card /\
    validated (PageSample.run (take 7 PageSample.import_run)).1 card (MkPreview (js "id") (js "dev")).
Proof.
  refine (proj1 (proj2 (page_shows_answers (engine := PageSample.host) _ _ (play_happens _ _ initial_page (take 7 PageSample.import_run) _)
    _ (or_intror eq_refl))) _ _).
  - intros e. reflexivity.
  - vm_compute. reflexivity.
Defined.
Lemma station_reads_page_witness :
  let body := utf8_encode (validate_body CardSample.card) in
  read_body (RequestBody [take 100 body; drop 100 body] BodyEnds) = Ok [(js "cardJson", JObj CardSample.card)] /\
  ascii (validate_body CardSample.card) = true.
Proof.
  intros body. assert (ascii (validate_body CardSample.card) = true) as Hascii by (vm_compute; reflexivity). split; [|exact Hascii].
  assert (concat [take 100 body; drop 100 body] = body) as Hc by (cbn [concat]; by rewrite app_nil_r, take_drop).
  destruct (station_reads_page CardSample.text CardSample.card (MkPreview (js "id") (js "dev")) [] []
    [take 100 body; drop 100 body]) as (H & _ & _ & _ & Hw).
  - vm_compute. reflexivity.
  - vm_compute. reflexivity.
  - reflexivity.
  - reflexivity.
  - refine (proj2 (H Hc) _ (Hw _ Hascii Hc)). vm_compute. discriminate.
Defined.

(** ** Where the page falls short *)

(** The station decodes each chunk of a body by itself: a character that two chunks share is
    read as two replacement characters, and that is the message that is sent. *)
Definition split_message : bytes := utf8_encode (send_body (js "bob") [0x0416]).
Lemma split_character_posted_wrong :
  let text chunks := match read_body (RequestBody chunks BodyEnds) with Ok posted => Server.text_member (js "text") posted | Err _ => [] end in
  text [split_message] = [0x0416] /\ text [take 21 split_message; drop 21 split_message] = [0xFFFD; 0xFFFD].
Proof. vm_compute. split; reflexivity. Qed.

(** The conversation of the last contact stays on the screen under the next one until that
    one's has come, and for good when it does not. *)
Lemma conversation_stays :
  PageSample.seen [Occurs (Station (StatusEvent (Some PageSample.status))); Occurs Rendered; Answered 0 PageSample.reply_history;
    Occurs Rendered; Occurs (ContactPicked 1); Occurs Rendered; Answered 0 PageSample.refuse; Occurs Rendered]
  = (Some (js "bob"), Entries PageSample.entries, []).
Proof. vm_compute. reflexivity. Qed.
(** One status without a profile, which a single failed [doctor] brings about, drops the
    selection; the next one selects the first contact, and the draft is now a draft to them. *)
Lemma selection_jumps :
  let start := [Occurs (Station (StatusEvent (Some PageSample.status))); Occurs Rendered; Occurs (ContactPicked 1);
    Occurs Rendered; Occurs (MessageTyped (js "hi bob")); Occurs Rendered] in
  PageSample.seen start = (Some (js "bob"), Entries (JArr []), js "hi bob") /\
  PageSample.seen (start ++ [Occurs (Station (StatusEvent (Some PageSample.no_profile))); Occurs Rendered;
    Occurs (Station (StatusEvent (Some PageSample.status))); Occurs Rendered])
  = (Some (js "alice"), Entries (JArr []), js "hi bob").
Proof. vm_compute. split; reflexivity. Qed.
