(* ===== verification/Mobile.v ===== *)
(** * The mobile prototype: [apps/mobile/src]

    The relay client, the terminal's log, the navigation, onboarding and the messaging demo
    over the bootstrap sessions of [Session].  The handlers are programs of [Async] over one
    shared state; a screen that is left loses its state, and what its handlers set afterwards
    is lost with it.  Theorem: no handler fails, whatever the relay answers; what is
    acknowledged is what one poll gave, after it was gone through, each envelope opened or, its
    sender's bundle not given, passed over; what is sent is sealed and signed; and without the
    demo flag no message is ever sent or read.  [Delivery] joins two phones.

    Not in the model: markup and styles. *)

From stdpp Require Import relations.
From S2P Require Import Prelude JsString Json JsMap Base64Url Platform Effects Transcripts Session Args Outbound Async.

(** An error that the screens throw, and an error of the code they call. *)
Inductive thrown := Own (message : jstr) | Raised (e : err).
(** A request to the relay: a [POST] with a body, or a [GET]. *)
Inductive question := Fetch (path : jstr) (body : option jstr).
(** [await response.json()]; a failed [fetch] and a body that is no JSON are errors. *)
Definition answer (q : question) : Type := json.
Abbreviation exch := (exchange (E := thrown) answer).

(** Random numbers as the code draws them, [uuidv7], and the text of an exception. *)
Class PhoneHost (W : Type) := {
  random_16_bits : W -> Z * W;
  random_text : W -> jstr * W;
  uuidv7 : W -> jstr * W;
  exception_message : err -> jstr;
  exception_text : err -> jstr;
}.

(** ** The state *)

Record TerminalEvent := MkTerminalEvent { te_id : jstr; te_timestamp : Z; te_type : jstr; te_message : jstr }.
(** A message as it is shown; what was read from a peer is not checked. *)
Record RenderedMessage := MkMessage {
  rm_id : option json; rm_outgoing : bool; rm_body : option json; rm_status : json; rm_createdAtMs : option json }.
(** [object] tells one profile object from another. *)
Record held_profile := Held { object : Z; the_profile : IdentityProfile }.
Record onboarding := Onboarding {
  step : Z; ob_profile : option held_profile; seedInput : jstr; ob_callsign : jstr; ob_suffix : jstr }.
Record messaging := Messaging {
  recipientIdentityId : jstr; messageBody : jstr; publishedBundle : option json; recipientBundle : option json;
  messages : list RenderedMessage; isBusy : bool; outboundSessions : list (jstr * jstr); inboundSessions : list (jstr * jstr) }.
Inductive screen := OnboardingScreen | MessagesScreen | TerminalScreen.
#[export] Instance screen_eq_dec : EqDecision screen.
Proof. solve_decision. Defined.
Record view := View {
  activeScreen : screen; profile : option held_profile; vw_onboarding : onboarding; vw_messaging : messaging }.
(** What is set and what is on the screen; [instance] counts the screens that were mounted, and
    [objects] the profiles that were made. *)
Record phone (W : Type) := Phone {
  now : view; rendered : view; instance : Z; objects : Z; events : list TerminalEvent; alerts : list (jstr * jstr); world : W }.
Arguments Phone {W}. Arguments now {W}. Arguments rendered {W}. Arguments instance {W}. Arguments objects {W}.
Arguments events {W}. Arguments alerts {W}. Arguments world {W}.

Definition new_onboarding : onboarding := Onboarding 1 None [] [] [].
Definition new_messaging : messaging := Messaging [] [] None None [] false [] [].
Definition first_view : view := View OnboardingScreen None new_onboarding new_messaging.

(** ** Reading what the relay answered *)

(** [value.key], of a value that may be [undefined] ([None]) or [null]; [value?.key] *)
Definition type_error : thrown := Raised (ErrOther (js "TypeError")).
Definition prop (key : jstr) (value : option json) : res thrown (option json) :=
  match value with None | Some JNull => Err type_error | Some v => Ok (field key v) end.
Definition optional (key : jstr) (value : option json) : option json :=
  match value with None | Some JNull => None | Some v => field key v end.
Definition is_truthy (value : option json) : bool := match value with Some v => truthy v | None => false end.
(** [result.error?.message || otherwise] as the message of an [Error] *)
Definition failure (result : json) (otherwise : jstr) : thrown :=
  Own match optional (js "message") (field (js "error") result) with
      | Some message => if truthy message then to_text message else otherwise
      | None => otherwise
      end.
(** [!bundles.length ? null : bundles[0]] *)
Definition first_bundle (bundles : option json) : res thrown (option json) :=
  match bundles with
  | None | Some JNull => Err type_error
  | Some (JArr l) => Ok (head l)
  | Some (JStr []) => Ok None
  | Some (JStr (u :: _)) => Ok (Some (JStr [u]))
  | Some (JObj m) => Ok (if is_truthy (obj_get (js "length") m) then obj_get (js "0") m else None)
  | Some _ => Ok None
  end.
(** [envelopes.length === 0], and the values of [for (const envelope of envelopes)] *)
Definition no_items (envelopes : json) : bool :=
  match envelopes with
  | JArr [] | JStr [] => true
  | JObj m => bool_decide (obj_get (js "length") m = Some (JNum 0))
  | _ => false
  end.
Definition items_of (envelopes : json) : res thrown (list json) :=
  match envelopes with
  | JArr l => Ok l
  | JStr s => Ok (map JStr (code_points s))
  | _ => Err type_error
  end.
(** [envelopes.map((envelope) => envelope.envelope_id)] *)
Definition ids_of (envelopes : json) : res thrown (list (option json)) :=
  match envelopes with
  | JArr l => if existsb (fun v => eqb v JNull) l then Err type_error else Ok (map (field (js "envelope_id")) l)
  | _ => Err type_error
  end.
(** A text is expected; what is none fails when it is used as one. *)
Definition text_of (value : option json) : res thrown jstr :=
  match value with Some (JStr s) => Ok s | _ => Err type_error end.
Definition decoded (value : option json) : res thrown bytes :=
  res_bind (text_of value) (fun s => of_option (Raised invalid_base64) (decodeBase64Url s)).

(** ** Sessions under the name of a device *)

(** The sessions are the properties of an object literal: a name that every object has finds
    an inherited value, whose text is no JSON. *)
Definition stored_session (name : jstr) (sessions : list (jstr * jstr)) : res thrown (option SessionState) :=
  match JsMap.get name sessions with
  | Some (u :: text) => match deserializeSession (u :: text) with Ok s => Ok (Some s) | Err e => Err (Raised e) end
  | Some [] => Ok None
  | None => if member name inherited_names then Err (Raised (ErrOther (js "SyntaxError"))) else Ok None
  end.
(** [sessions[name] = text]: a text is no prototype. *)
Definition assign_session (name text : jstr) (sessions : list (jstr * jstr)) : list (jstr * jstr) :=
  if eqb name (js "__proto__") then sessions else JsMap.set name text sessions.

(** ** The conversation on the screen *)

(** Keys of a [Map]; each object read is a key of its own. *)
Definition same_key (a b : option json) : bool :=
  match a with Some (JObj _) | Some (JArr _) => false | _ => bool_decide (a = b) end.
Fixpoint put_message (m : RenderedMessage) (l : list RenderedMessage) : list RenderedMessage :=
  match l with
  | [] => [m]
  | x :: l => if same_key (rm_id x) (rm_id m) then m :: l else x :: put_message m l
  end.
(** [left.createdAtMs - right.createdAtMs]; without two numbers the order is left as it is *)
Definition earlier (left right : RenderedMessage) : bool :=
  match rm_createdAtMs left, rm_createdAtMs right with
  | Some (JNum a), Some (JNum b) => a <? b
  | _, _ => false
  end.
Fixpoint insert_by_time (m : RenderedMessage) (l : list RenderedMessage) : list RenderedMessage :=
  match l with
  | [] => [m]
  | x :: l => if earlier m x then m :: x :: l else x :: insert_by_time m l
  end.
Definition sort_by_time (l : list RenderedMessage) : list RenderedMessage :=
  fold_left (fun sorted m => insert_by_time m sorted) l [].
Definition by_id (l : list RenderedMessage) : list RenderedMessage := fold_left (fun l m => put_message m l) l [].
Definition merge_messages (current decrypted : list RenderedMessage) : list RenderedMessage :=
  sort_by_time (fold_left (fun l m => put_message m l) decrypted (by_id current)).

(** ** The handlers *)

Section phone.
Context {W : Type} `{!Crypto} `{!SessionCrypto} `{!World W} `{!PhoneHost W}.
Abbreviation state := (phone W).
Abbreviation async := (prog state thrown question answer).
Open Scope async_scope.

Definition message_of (e : thrown) : jstr := match e with Own message => message | Raised e => exception_message e end.
Definition string_of (e : thrown) : jstr := match e with Own message => js "Error: " ++ message | Raised e => exception_text e end.
Definition lifted {A} (r : res err A) : async A := of_res match r with Ok a => Ok a | Err e => Err (Raised e) end.
Definition or_raise {A} (o : option A) : async A := of_res (of_option type_error o).
Definition on_world {A} (f : W -> A * W) : async A :=
  sync (fun p => let '(a, w) := f (world p) in (a, Phone (now p) (rendered p) (instance p) (objects p) (events p) (alerts p) w)).
Definition on_view (f : view -> view) (p : state) : state :=
  Phone (f (now p)) (rendered p) (instance p) (objects p) (events p) (alerts p) (world p).
(** The setters of a screen reach it while it is mounted. *)
Definition on_messaging (mounted : Z) (f : messaging -> messaging) (p : state) : state :=
  if mounted =? instance p
  then on_view (fun v => View (activeScreen v) (profile v) (vw_onboarding v) (f (vw_messaging v))) p else p.
Definition on_onboarding (mounted : Z) (f : onboarding -> onboarding) (p : state) : state :=
  if mounted =? instance p
  then on_view (fun v => View (activeScreen v) (profile v) (f (vw_onboarding v)) (vw_messaging v)) p else p.
Definition alert (title message : jstr) : async unit :=
  update (fun p => Phone (now p) (rendered p) (instance p) (objects p) (events p) (alerts p ++ [(title, message)]) (world p)).

(** *** [useTerminalStore.ts] *)

Definition addEvent (type message : jstr) : async unit :=
  first <~ on_world date_now;
  random <~ on_world random_text;
  timestamp <~ on_world date_now;
  update (fun p => Phone (now p) (rendered p) (instance p) (objects p)
    (events p ++ [MkTerminalEvent (show_Z first ++ js "-" ++ random) timestamp type message]) (alerts p) (world p)).
Definition clearEvents : async unit :=
  update (fun p => Phone (now p) (rendered p) (instance p) (objects p) [] (alerts p) (world p)).

(** *** [relayApi.ts] *)

Definition network_error (message : jstr) : json :=
  JObj [(js "ok", JBool false); (js "error", JObj [(js "code", JStr (js "NETWORK_ERROR")); (js "message", JStr message)])].
Definition request (path : jstr) (body : option json) : async json :=
  catching (await (Fetch path (option_map stringify body))) (fun error => Ret (network_error (message_of error))).
Definition member_text (key : jstr) (text : jstr) : jstr * json := (key, JStr text).
(** [undefined] is left out of an object and is [null] in an array. *)
Definition member_raw (key : jstr) (value : option json) : list (jstr * json) :=
  match value with Some v => [(key, v)] | None => [] end.
Definition healthCheck : async json := request (js "/health") None.
Definition publishDeviceRecord (deviceRecord : json) : async json :=
  request (js "/v1/device-records/publish") (Some (JObj [(js "device_record", deviceRecord)])).
Definition publishPreKeyBundle (bundle : json) : async json :=
  request (js "/v1/prekeys/publish") (Some (JObj [(js "bundle", bundle)])).
Definition getPreKeyBundles (identityId : option json) : async json :=
  request (js "/v1/prekeys/" ++ template identityId) None.
Definition send_path : jstr := js "/v1/messages/send".
Definition sendEnvelope (envelope : json) : async json :=
  request send_path (Some (JObj [(js "envelope", envelope)])).
Definition createChallenge (recipientMailboxId deviceId signature : jstr) : async json :=
  request (js "/v1/mailbox/challenge")
    (Some (JObj [member_text (js "recipient_mailbox_id") recipientMailboxId; member_text (js "device_id") deviceId;
                 member_text (js "signature") signature])).
Definition pollMailbox (challengeId : option json) (recipientMailboxId deviceId signature : jstr) : async json :=
  request (js "/v1/mailbox/poll")
    (Some (JObj (member_raw (js "challenge_id") challengeId ++
                 [member_text (js "recipient_mailbox_id") recipientMailboxId; member_text (js "device_id") deviceId;
                  member_text (js "signature") signature]))).
Definition ack_path : jstr := js "/v1/mailbox/ack".
Definition ack_body (recipientMailboxId deviceId : jstr) (envelopeIds : list (option json)) (signature : jstr) : json :=
  JObj [member_text (js "recipient_mailbox_id") recipientMailboxId; member_text (js "device_id") deviceId;
        (js "envelope_ids", JArr (map (default_to JNull) envelopeIds)); member_text (js "signature") signature].
Definition ackMailbox (recipientMailboxId deviceId : jstr) (envelopeIds : list (option json)) (signature : jstr) : async json :=
  request ack_path (Some (ack_body recipientMailboxId deviceId envelopeIds signature)).

(** *** [OnboardingScreen.tsx] *)

(** A handler knows its screen and the page it was rendered with. *)
Definition closure : async (Z * view) := get (fun p => (instance p, rendered p)).
Definition generated (seed suffix : jstr) : async held_profile :=
  seed <~ (if eqb seed [] then on_world generateMnemonic else Ret seed);
  made <~ or_raise (createIdentityProfile seed (js "mobile-device") suffix);
  sync (fun p => (Held (objects p) made,
    Phone (now p) (rendered p) (instance p) (objects p + 1) (events p) (alerts p) (world p))).
Definition handleGenerateIdentity : async unit :=
  c <~ closure;
  let o := vw_onboarding c.2 in
  catching
    (next <~ generated (trim (seedInput o)) (ob_suffix o);
     let p := the_profile next in
     update (on_onboarding c.1 (fun o => Onboarding 2 (Some next) (seed p) (callsign p) (ob_suffix o)));~
     addEvent (js "IDENTITY")
       ((if eqb (trim (seedInput o)) [] then js "Generated identity: " else js "Recovered identity: ") ++ callsign p))
    (fun error =>
      addEvent (js "ERROR") (js "Failed to generate identity: " ++ string_of error);~
      alert (js "Error") (js "Failed to generate identity")).
Definition set_step (step : Z) (o : onboarding) : onboarding :=
  Onboarding step (ob_profile o) (seedInput o) (ob_callsign o) (ob_suffix o).
Definition handleConfirmSeed : async unit :=
  c <~ closure; update (on_onboarding c.1 (set_step 3));~ addEvent (js "ONBOARDING") (js "Seed confirmed").
(** [onComplete] of [App.tsx], which is always mounted *)
Definition onComplete (nextProfile : held_profile) : state -> state :=
  on_view (fun v => View MessagesScreen (Some nextProfile) (vw_onboarding v) (vw_messaging v)).
Definition handlePublishToRelay : async unit :=
  c <~ closure;
  match ob_profile (vw_onboarding c.2) with
  | None => alert (js "Error") (js "Generate or recover an identity first")
  | Some held =>
      let p := the_profile held in
      catching
        (created <~ on_world date_now;
         record <~ or_raise (createSignedDeviceRecord (identityId p) (deviceUuid p) (devicePubKey p) (identitySecretKey p)
                               (Some (js "mobile-device")) created);
         result <~ publishDeviceRecord record;
         ok <~ of_res (prop (js "ok") (Some result));
         if is_truthy ok
         then addEvent (js "RELAY") (js "Device record published");~
              update (on_onboarding c.1 (set_step 4));~
              update (onComplete held)
         else
           let message := optional (js "message") (field (js "error") result) in
           addEvent (js "ERROR") (js "Failed to publish device record: " ++ template message);~
           alert (js "Error") (if is_truthy message then template message else js "Failed to publish"))
        (fun error =>
          addEvent (js "ERROR") (js "Failed to publish: " ++ string_of error);~
          alert (js "Error") (js "Failed to publish to relay"))
  end.

(** *** [MessagingScreen.tsx] *)

Definition with_busy (b : bool) (m : messaging) : messaging :=
  Messaging (recipientIdentityId m) (messageBody m) (publishedBundle m) (recipientBundle m) (messages m) b
    (outboundSessions m) (inboundSessions m).
Definition setPublishedBundle (bundle : json) (m : messaging) : messaging :=
  Messaging (recipientIdentityId m) (messageBody m) (Some bundle) (recipientBundle m) (messages m) (isBusy m)
    (outboundSessions m) (inboundSessions m).
Definition setRecipientBundle (bundle : json) (m : messaging) : messaging :=
  Messaging (recipientIdentityId m) (messageBody m) (publishedBundle m) (Some bundle) (messages m) (isBusy m)
    (outboundSessions m) (inboundSessions m).
Definition ensureOwnPreKeyBundle (mounted : Z) (m : messaging) (p : IdentityProfile) : async json :=
  match publishedBundle m with
  | Some bundle => Ret bundle
  | None =>
      created <~ on_world date_now;
      id <~ on_world uuidv7;
      bundle <~ or_raise (createSignedPreKeyBundle p 5 created id);
      result <~ publishPreKeyBundle bundle;
      ok <~ of_res (prop (js "ok") (Some result));
      if negb (is_truthy ok) then Throw (failure result (js "Failed to publish prekey bundle"))
      else
        update (on_messaging mounted (setPublishedBundle bundle));~
        addEvent (js "PREKEY") (js "Published local prekey bundle");~
        Ret bundle
  end.
Definition bundle_of (result : json) : res thrown (option json) :=
  res_bind (prop (js "ok") (Some result)) (fun ok =>
  if negb (is_truthy ok) then Ok None
  else match field (js "data") result with
       | None | Some JNull => Ok None
       | Some data => first_bundle (field (js "bundles") data)
       end).
Definition fetchBundle (identityId : option json) : async (option json) :=
  result <~ getPreKeyBundles identityId; of_res (bundle_of result).
Definition ensureRecipientBundle (mounted : Z) (m : messaging) (p : IdentityProfile) : async (option json) :=
  if eqb (recipientIdentityId m) (identityId p) then
    own <~ ensureOwnPreKeyBundle mounted m p;
    update (on_messaging mounted (setRecipientBundle own));~
    Ret (Some own)
  else if is_truthy (recipientBundle m)
          && bool_decide (optional (js "identity_id") (recipientBundle m) = Some (JStr (recipientIdentityId m)))
  then Ret (recipientBundle m)
  else
    found <~ fetchBundle (Some (JStr (recipientIdentityId m)));
    match found with
    | Some bundle =>
        if truthy bundle
        then update (on_messaging mounted (setRecipientBundle bundle));~
             addEvent (js "PREKEY") (js "Loaded bundle for " ++ take 12 (recipientIdentityId m))
        else Ret tt
    | None => Ret tt
    end;~
    Ret found.

(** The frame of the four handlers: busy while they run, an error shown and logged. *)
Definition busy_while (mounted : Z) (what : jstr) (body : async unit) : async unit :=
  update (on_messaging mounted (with_busy true));~
  finally
    (catching body (fun error =>
      addEvent (js "ERROR") (js "Failed to " ++ what ++ js ": " ++ message_of error);~
      alert (js "Error") (message_of error)))
    (update (on_messaging mounted (with_busy false))).
Definition handlePublishBundle (mounted : Z) (m : messaging) (p : IdentityProfile) : async unit :=
  busy_while mounted (js "publish prekey bundle")
    (ensureOwnPreKeyBundle mounted m p;~ alert (js "Success") (js "Prekey bundle published")).
Definition handleLoadBundle (mounted : Z) (m : messaging) (p : IdentityProfile) : async unit :=
  busy_while mounted (js "load prekey bundle")
    (bundle <~ ensureRecipientBundle mounted m p;
     if is_truthy bundle
     then alert (js "Success") (js "Loaded bundle for " ++ template (optional (js "device_id") bundle))
     else Throw (Own (js "No prekey bundle found for recipient"))).

(** *** Sending *)

Definition four_digits : async jstr := r <~ on_world random_16_bits; Ret (hex4 r).
Definition createUuid : async jstr :=
  a <~ four_digits; b <~ four_digits; c <~ four_digits; d <~ four_digits; e <~ four_digits;
  f <~ four_digits; g <~ four_digits; h <~ four_digits;
  Ret (a ++ b ++ js "-" ++ c ++ js "-4" ++ take 3 d ++ js "-a" ++ take 3 e ++ js "-" ++ f ++ g ++ h).
(** [[own, other].sort().join(":")]: [undefined] comes last, and neither it nor [null] is printed. *)
Definition conversation_id (own : jstr) (other : option json) : jstr :=
  match other with
  | None => own ++ js ":"
  | Some v =>
      let printed := match v with JNull => [] | _ => to_text v end in
      if decide (jle own (to_text v)) then own ++ js ":" ++ printed else printed ++ js ":" ++ own
  end.
Definition chat_message (p : IdentityProfile) (recipient : option json) (messageId : jstr) (createdAtMs : Z) (body : jstr) : json :=
  JObj [(js "type", JStr (js "chat_message")); (js "version", JNum 1); member_text (js "message_id") messageId;
        member_text (js "conversation_id") (conversation_id (identityId p) recipient);
        member_text (js "sender_identity_id") (identityId p); member_text (js "sender_device_id") (deviceUuid p);
        (js "created_at_ms", JNum createdAtMs); member_text (js "body") body; (js "reply_to_message_id", JNull)].
Definition session_name (bundle : json) : jstr := template (field (js "device_id") bundle).
Definition prekey_of (bundle : json) : res thrown bytes :=
  res_bind (prop (js "public_key") (field (js "signed_prekey") bundle)) decoded.
Definition session_secret (p : IdentityProfile) : res thrown bytes := decoded (Some (JStr (sessionSecretKey p))).
Definition new_outbound (p : IdentityProfile) (bundle : json) (created : Z) : res thrown SessionState :=
  res_bind (prekey_of bundle) (fun remote => res_bind (session_secret p) (fun own =>
  match createOutboundSession (identityId p) (deviceUuid p) (template (field (js "identity_id") bundle)) (session_name bundle)
          remote own created with
  | Ok made => Ok made.1
  | Err e => Err (Raised e)
  end)).
Definition outbound_session (p : IdentityProfile) (bundle : json) (sessions : list (jstr * jstr)) : async SessionState :=
  found <~ of_res (stored_session (session_name bundle) sessions);
  match found with
  | Some session => Ret session
  | None => created <~ on_world date_now; of_res (new_outbound p bundle created)
  end.
Definition a_day : Z := 24 * 60 * 60 * 1000.
Definition envelope_json (p : IdentityProfile) (bundle : json) (envelopeId messageId ciphertext : jstr) (createdAtMs : Z)
    (signature : jstr) : json :=
  JObj ([(js "type", JStr (js "mailbox_envelope")); (js "version", JNum 1); member_text (js "envelope_id") envelopeId;
         member_text (js "message_id") messageId; member_text (js "sender_identity_id") (identityId p);
         member_text (js "sender_device_id") (deviceUuid p)]
        ++ member_raw (js "recipient_identity_id") (field (js "identity_id") bundle)
        ++ member_raw (js "recipient_device_id") (field (js "device_id") bundle)
        ++ [member_text (js "recipient_mailbox_id") (deriveMailboxId (template (field (js "identity_id") bundle)));
            member_text (js "payload_type") (js "ciphertext_message"); member_text (js "ciphertext") ciphertext;
            (js "created_at_ms", JNum createdAtMs); (js "expires_at_ms", JNum (createdAtMs + a_day));
            (js "size_bytes", JNum (Z.of_nat (length ciphertext))); member_text (js "sender_signature") signature]).
Definition after_send (name text : jstr) (m : RenderedMessage) (s : messaging) : messaging :=
  Messaging (recipientIdentityId s) [] (publishedBundle s) (recipientBundle s) (messages s ++ [m]) (isBusy s)
    (JsMap.set name text (outboundSessions s)) (inboundSessions s).
Definition send_sealed (mounted : Z) (p : IdentityProfile) (bundle : json) (session : SessionState) (trimmedBody : jstr) : async unit :=
  let recipient := field (js "identity_id") bundle in
  messageId <~ createUuid;
  createdAtMs <~ on_world date_now;
  sealed <~ lifted (encryptMessage session (stringify (chat_message p recipient messageId createdAtMs trimmedBody)));
  envelopeId <~ createUuid;
  signature <~ or_raise (signMailboxEnvelopeMessage (deriveMailboxId (template recipient)) envelopeId
    (identityId p) (deviceUuid p) (hashMailboxEnvelopeCiphertext sealed.1) createdAtMs (createdAtMs + a_day)
    (inr (deviceSecretKey p)));
  result <~ sendEnvelope (envelope_json p bundle envelopeId messageId sealed.1 createdAtMs signature);
  ok <~ of_res (prop (js "ok") (Some result));
  if negb (is_truthy ok) then Throw (failure result (js "Failed to send envelope"))
  else
    let status := match optional (js "status") (field (js "data") result) with
                  | Some JNull | None => JStr (js "relayed")
                  | Some status => status
                  end in
    update (on_messaging mounted (after_send (session_name bundle) (serializeSession sealed.2)
      (MkMessage (Some (JStr messageId)) true (Some (JStr trimmedBody)) status (Some (JNum createdAtMs)))));~
    addEvent (js "MESSAGE") (js "Sent encrypted message to " ++ session_name bundle).
Definition handleSendMessage (mounted : Z) (m : messaging) (p : IdentityProfile) : async unit :=
  let trimmedBody := trim (messageBody m) in
  if eqb trimmedBody [] then alert (js "Error") (js "Enter a message body first")
  else busy_while mounted (js "send message")
    (found <~ ensureRecipientBundle mounted m p;
     match found with
     | Some bundle =>
         if negb (truthy bundle) then Throw (Own (js "Recipient prekey bundle is unavailable"))
         else
           session <~ outbound_session p bundle (outboundSessions m);
           send_sealed mounted p bundle session trimmedBody
     | None => Throw (Own (js "Recipient prekey bundle is unavailable"))
     end).

(** *** Reading the mailbox *)

Definition new_inbound (p : IdentityProfile) (envelope senderBundle : json) (created : Z) : res thrown SessionState :=
  res_bind (session_secret p) (fun own => res_bind (prekey_of senderBundle) (fun remote =>
  match createInboundSession (identityId p) (deviceUuid p) (template (field (js "sender_identity_id") envelope))
          (template (field (js "sender_device_id") envelope)) own remote created with
  | Ok made => Ok made
  | Err e => Err (Raised e)
  end)).
Definition inbound_session (p : IdentityProfile) (envelope senderBundle : json) (sessions : list (jstr * jstr)) : async SessionState :=
  found <~ of_res (stored_session (template (field (js "sender_device_id") envelope)) sessions);
  match found with
  | Some session => Ret session
  | None => created <~ on_world date_now; of_res (new_inbound p envelope senderBundle created)
  end.
(** The plaintext as the message it says it is. *)
Definition read_message (p : IdentityProfile) (plaintext : jstr) : res thrown RenderedMessage :=
  match parse plaintext with
  | None => Err (Raised (ErrOther (js "SyntaxError")))
  | Some JNull => Err type_error
  | Some message =>
      Ok (MkMessage (field (js "message_id") message)
            (bool_decide (field (js "sender_identity_id") message = Some (JStr (identityId p))))
            (field (js "body") message) (JStr (js "delivered")) (field (js "created_at_ms") message))
  end.
Definition open_envelope (p : IdentityProfile) (envelope senderBundle : json) (sessions : list (jstr * jstr)) :
    async (list (jstr * jstr) * RenderedMessage) :=
  session <~ inbound_session p envelope senderBundle sessions;
  opened <~ lifted (decryptMessage session (template (field (js "ciphertext") envelope)));
  message <~ of_res (read_message p opened.1);
  Ret (assign_session (template (field (js "sender_device_id") envelope)) (serializeSession opened.2) sessions, message).
Fixpoint read_envelopes (p : IdentityProfile) (own : json) (envelopes : list json) (sessions : list (jstr * jstr))
    (read : list RenderedMessage) : async (list (jstr * jstr) * list RenderedMessage) :=
  match envelopes with
  | [] => Ret (sessions, read)
  | envelope :: envelopes =>
      sender <~ of_res (prop (js "sender_identity_id") (Some envelope));
      found <~ (if bool_decide (sender = Some (JStr (identityId p))) then Ret (Some own) else fetchBundle sender);
      if is_truthy found then
        opened <~ open_envelope p envelope (default_to JNull found) sessions;
        read_envelopes p own envelopes opened.1 (read ++ [opened.2])
      else
        addEvent (js "ERROR") (js "Missing sender bundle for " ++ template sender);~
        read_envelopes p own envelopes sessions read
  end.
Definition after_poll (sessions : list (jstr * jstr)) (read : list RenderedMessage) (s : messaging) : messaging :=
  Messaging (recipientIdentityId s) (messageBody s) (publishedBundle s) (recipientBundle s) (merge_messages (messages s) read)
    (isBusy s) (outboundSessions s) sessions.
(** All of a page is read before any of it is shown, and shown before it is acknowledged. *)
Definition read_page (mounted : Z) (m : messaging) (p : IdentityProfile) (own envelopes : json) : async unit :=
  let mailboxId := deriveMailboxId (identityId p) in
  items <~ of_res (items_of envelopes);
  opened <~ read_envelopes p own items (inboundSessions m) [];
  update (on_messaging mounted (after_poll opened.1 opened.2));~
  ids <~ of_res (ids_of envelopes);
  ackSignature <~ or_raise (signMailboxAckMessage mailboxId (deviceUuid p) (map template ids) (deviceSecretKey p));
  ackMailbox mailboxId (deviceUuid p) ids ackSignature;~
  addEvent (js "MAILBOX") (js "Polled and decrypted " ++ show_Z (Z.of_nat (length opened.2)) ++ js " message(s)").
Definition handlePollMailbox (mounted : Z) (m : messaging) (p : IdentityProfile) : async unit :=
  busy_while mounted (js "poll mailbox")
    (own <~ ensureOwnPreKeyBundle mounted m p;
     let mailboxId := deriveMailboxId (identityId p) in
     challengeSignature <~ or_raise (signMailboxCreateChallengeMessage mailboxId (deviceUuid p) (deviceSecretKey p));
     challengeResult <~ createChallenge mailboxId (deviceUuid p) challengeSignature;
     ok <~ of_res (prop (js "ok") (Some challengeResult));
     let challenge := field (js "data") challengeResult in
     if negb (is_truthy ok) || negb (is_truthy challenge) then Throw (failure challengeResult (js "Failed to create mailbox challenge"))
     else
       let challengeId := optional (js "challenge_id") challenge in
       pollSignature <~ or_raise (signMailboxChallengeMessage (template challengeId) mailboxId (deviceUuid p)
         (template (optional (js "nonce") challenge)) (deviceSecretKey p));
       pollResult <~ pollMailbox challengeId mailboxId (deviceUuid p) pollSignature;
       ok <~ of_res (prop (js "ok") (Some pollResult));
       let polled := field (js "data") pollResult in
       if negb (is_truthy ok) || negb (is_truthy polled) then Throw (failure pollResult (js "Failed to poll mailbox"))
       else
         match optional (js "envelopes") polled with
         | None | Some JNull => Throw type_error
         | Some envelopes =>
             if no_items envelopes
             then addEvent (js "MAILBOX") (js "No envelopes available");~ alert (js "Mailbox") (js "No new messages")
             else
               read_page mounted m p own envelopes
         end).

(** *** [App.tsx]: what is rendered, and what the operator does *)

Context (demoEnabled : bool).
(** The effect of the messaging demo, when it is mounted and when its profile is another one. *)
Definition on_profile (held : option held_profile) (m : messaging) : messaging :=
  match held with
  | Some held => Messaging (identityId (the_profile held)) (messageBody m) (publishedBundle m) (recipientBundle m) (messages m)
                   (isBusy m) (outboundSessions m) (inboundSessions m)
  | None => Messaging [] (messageBody m) None None [] (isBusy m) [] []
  end.
Definition render (p : state) : state :=
  let remounted := negb (bool_decide (activeScreen (now p) = activeScreen (rendered p))) in
  let v := if remounted then View (activeScreen (now p)) (profile (now p)) new_onboarding new_messaging else now p in
  let another := remounted || negb (bool_decide (option_map object (profile v) = option_map object (profile (rendered p)))) in
  let runs := demoEnabled && bool_decide (activeScreen v = MessagesScreen) && another in
  Phone (if runs then View (activeScreen v) (profile v) (vw_onboarding v) (on_profile (profile v) (vw_messaging v)) else v) v
    (if remounted then instance p + 1 else instance p) (objects p) (events p) (alerts p) (world p).
Inductive event :=
  | Rendered | Navigated (to : screen) | LogCleared
  | SuffixTyped (text : jstr) | SeedTyped (text : jstr) | GenerateClicked | SeedConfirmed | PublishClicked
  | RecipientTyped (text : jstr) | BodyTyped (text : jstr)
  | BundlePublishClicked | BundleLoadClicked | SendClicked | PollClicked.
(** The demo has its controls only when it is enabled, its screen shown and a profile made;
    the buttons are disabled while a handler runs. *)
Definition in_demo (f : Z -> messaging -> IdentityProfile -> async unit) : async unit :=
  c <~ closure;
  match profile c.2 with
  | Some held => if demoEnabled && bool_decide (activeScreen c.2 = MessagesScreen) then f c.1 (vw_messaging c.2) (the_profile held) else Ret tt
  | None => Ret tt
  end.
Definition unless_busy (f : Z -> messaging -> IdentityProfile -> async unit) : async unit :=
  in_demo (fun mounted m p => if isBusy m then Ret tt else f mounted m p).
(** Onboarding shows the controls of one step. *)
Definition on_step (n : Z) (f : async unit) : async unit :=
  c <~ closure; if bool_decide (activeScreen c.2 = OnboardingScreen) && (step (vw_onboarding c.2) =? n) then f else Ret tt.
Definition type_onboarding (f : onboarding -> onboarding) : async unit := on_step 1 (c <~ closure; update (on_onboarding c.1 f)).
Definition event_handler (e : event) : async unit :=
  match e with
  | Rendered => update render
  | Navigated to => update (on_view (fun v => View to (profile v) (vw_onboarding v) (vw_messaging v)))
  | LogCleared => c <~ closure; if bool_decide (activeScreen c.2 = TerminalScreen) then clearEvents else Ret tt
  | SuffixTyped text => type_onboarding (fun o => Onboarding (step o) (ob_profile o) (seedInput o) (ob_callsign o) text)
  | SeedTyped text => type_onboarding (fun o => Onboarding (step o) (ob_profile o) text (ob_callsign o) (ob_suffix o))
  | GenerateClicked => on_step 1 handleGenerateIdentity
  | SeedConfirmed => on_step 2 handleConfirmSeed
  | PublishClicked => on_step 3 handlePublishToRelay
  | RecipientTyped text => in_demo (fun mounted _ _ => update (on_messaging mounted (fun m =>
      Messaging text (messageBody m) (publishedBundle m) (recipientBundle m) (messages m) (isBusy m) (outboundSessions m) (inboundSessions m))))
  | BodyTyped text => in_demo (fun mounted _ _ => update (on_messaging mounted (fun m =>
      Messaging (recipientIdentityId m) text (publishedBundle m) (recipientBundle m) (messages m) (isBusy m) (outboundSessions m) (inboundSessions m))))
  | BundlePublishClicked => unless_busy handlePublishBundle
  | BundleLoadClicked => unless_busy handleLoadBundle
  | SendClicked => unless_busy handleSendMessage
  | PollClicked => unless_busy handlePollMailbox
  end.
Definition phone_handler (e : event) (p : async unit) : Prop := p = event_handler e.
Definition first_phone (w : W) : state := Phone first_view first_view 0 0 [] [] w.
Definition phone_happens (w : W) : list exch -> loop state thrown question event answer -> Prop :=
  happens phone_handler (first_phone w).
End phone.

(** ** What the phone asks the relay for *)

Section safe.
Context {W : Type} `{!Crypto} `{!SessionCrypto} `{!World W} `{!PhoneHost W}.
Context (demoEnabled : bool).

(** A request was answered with [result], or failed and is reported as [result]. *)
Definition told (h : list exch) (path : jstr) (result : json) : Prop :=
  exists body, existT (Fetch path body) (Ok result) ∈ h \/
    exists e, existT (Fetch path body) (Err e) ∈ h /\ result = network_error (message_of (W := W) e).
(** The relay gave this bundle, or none, for an identity. *)
Definition bundle_told (h : list exch) (identityId found : option json) : Prop :=
  exists result, told h (js "/v1/prekeys/" ++ template identityId) result /\ bundle_of result = Ok found.

(** What a message is sealed with, and what composing it leaves. *)
Definition outbound_found (p : IdentityProfile) (bundle : json) (sessions : list (jstr * jstr)) (session : SessionState) : Prop :=
  stored_session (session_name bundle) sessions = Ok (Some session) \/
  stored_session (session_name bundle) sessions = Ok None /\ exists created, new_outbound p bundle created = Ok session.
Definition composes (p : IdentityProfile) (bundle : json) (sessions sessions' : list (jstr * jstr))
    (messageId body : jstr) (createdAtMs : Z) (envelope : json) : Prop :=
  exists session ciphertext session' envelopeId signature,
    outbound_found p bundle sessions session /\
    encryptMessage session (stringify (chat_message p (field (js "identity_id") bundle) messageId createdAtMs body)) = Ok (ciphertext, session') /\
    signMailboxEnvelopeMessage (deriveMailboxId (template (field (js "identity_id") bundle))) envelopeId (identityId p) (deviceUuid p)
      (hashMailboxEnvelopeCiphertext ciphertext) createdAtMs (createdAtMs + a_day) (inr (deviceSecretKey p)) = Some signature /\
    envelope = envelope_json p bundle envelopeId messageId ciphertext createdAtMs signature /\
    sessions' = JsMap.set (session_name bundle) (serializeSession session') sessions.
Definition sends (body : option jstr) : Prop :=
  exists p bundle sessions sessions' messageId text createdAtMs envelope, text <> [] /\
    composes p bundle sessions sessions' messageId text createdAtMs envelope /\
    body = Some (stringify (JObj [(js "envelope", envelope)])).

(** The bundle for a sender: the own one for the phone itself. *)
Definition found_for (h : list exch) (p : IdentityProfile) (own : json) (sender found : option json) : Prop :=
  sender = Some (JStr (identityId p)) /\ found = Some own \/ bundle_told h sender found.

(** The session an envelope is opened with, and what opening it leaves. *)
Definition inbound_found (p : IdentityProfile) (envelope senderBundle : json) (sessions : list (jstr * jstr)) (session : SessionState) : Prop :=
  stored_session (template (field (js "sender_device_id") envelope)) sessions = Ok (Some session) \/
  stored_session (template (field (js "sender_device_id") envelope)) sessions = Ok None /\
  exists created, new_inbound p envelope senderBundle created = Ok session.
Definition opens (p : IdentityProfile) (envelope senderBundle : json) (sessions sessions' : list (jstr * jstr)) (message : RenderedMessage) : Prop :=
  exists session text session', inbound_found p envelope senderBundle sessions session /\
    decryptMessage session (template (field (js "ciphertext") envelope)) = Ok (text, session') /\
    read_message p text = Ok message /\
    sessions' = assign_session (template (field (js "sender_device_id") envelope)) (serializeSession session') sessions.
(** All of a page, in its order: opened with the sender's bundle, or passed over unread, because
    the bundle asked for its sender was not given. *)
Inductive reads (h : list exch) (p : IdentityProfile) (own : json) :
    list json -> list (jstr * jstr) -> list (jstr * jstr) -> list RenderedMessage -> Prop :=
  | reads_end sessions : reads h p own [] sessions sessions []
  | reads_one envelope envelopes bundle sessions sessions' sessions'' message read :
      found_for h p own (field (js "sender_identity_id") envelope) (Some bundle) ->
      opens p envelope bundle sessions sessions' message ->
      reads h p own envelopes sessions' sessions'' read -> reads h p own (envelope :: envelopes) sessions sessions'' (message :: read)
  | reads_past envelope envelopes found sessions sessions' read :
      found_for h p own (field (js "sender_identity_id") envelope) found -> is_truthy found = false ->
      reads h p own envelopes sessions sessions' read -> reads h p own (envelope :: envelopes) sessions sessions' read.
Definition poll_path : jstr := js "/v1/mailbox/poll".
(** A poll was answered with these envelopes. *)
Definition polled (h : list exch) (envelopes : json) : Prop :=
  exists result, told h poll_path result /\ is_truthy (field (js "ok") result) = true /\
    optional (js "envelopes") (field (js "data") result) = Some envelopes.
Definition acknowledges (h : list exch) (body : option jstr) : Prop :=
  exists p own envelopes items ids signature sessions sessions' read,
    polled h envelopes /\ items_of envelopes = Ok items /\ reads h p own items sessions sessions' read /\ ids_of envelopes = Ok ids /\
    signMailboxAckMessage (deriveMailboxId (identityId p)) (deviceUuid p) (map template ids) (deviceSecretKey p) = Some signature /\
    body = Some (stringify (ack_body (deriveMailboxId (identityId p)) (deviceUuid p) ids signature)).
Definition may_ask (h : list exch) (q : question) : Prop :=
  let 'Fetch path body := q in
  (demoEnabled = false -> path = js "/v1/device-records/publish") /\ (path = ack_path -> acknowledges h body) /\
  (path = send_path -> sends body).

Lemma phone_told_mono h h' path result : h ⊆ h' -> told h path result -> told h' path result.
Proof. intros Hh (body & [Hr|(e & Hr & ?)]); exists body; [left|right; exists e]; auto. Qed.
Lemma found_mono h h' p own sender found : h ⊆ h' -> found_for h p own sender found -> found_for h' p own sender found.
Proof. intros Hh [Hb|(r & Hr & Hf)]; [by left|right]. exists r. split; [by eapply phone_told_mono|done]. Qed.
Lemma reads_mono h h' p own items sessions sessions' read :
  h ⊆ h' -> reads h p own items sessions sessions' read -> reads h' p own items sessions sessions' read.
Proof.
  intros Hh Hreads. induction Hreads as [|envelope envelopes bundle s s' s'' m read Hb Ho _ IH|envelope envelopes found s s' read Hf Ht _ IH].
  - apply reads_end.
  - eapply reads_one; [|exact Ho|exact IH]. by eapply found_mono.
  - eapply reads_past; [|exact Ht|exact IH]. by eapply found_mono.
Qed.
Lemma phone_may_ask_mono h h' q : h ⊆ h' -> may_ask h q -> may_ask h' q.
Proof.
  intros Hh. destruct q as [path body]. intros (Hd & Ha & Hs). split; [done|]. split; [|done]. intros E.
  destruct (Ha E) as (p & own & envelopes & items & ids & signature & s & s' & read & (r & Hr & Hp) & Hi & Hreads & Hrest).
  exists p, own, envelopes, items, ids, signature, s, s', read. split; [|split; [done|split; [by eapply reads_mono|exact Hrest]]].
  exists r. split; [by eapply phone_told_mono|exact Hp].
Qed.

(** What a part of a handler may ask while the demo is on, and with what result. *)
Abbreviation anywhere := (fun (_ : list exch) (_ : phone W) => True).
Abbreviation safe F h p := (holds anywhere may_ask F h p).
Abbreviation ends := (fun (_ : list exch) (r : res thrown unit) => r = Ok tt).

Lemma on_world_safe {R} (f : W -> R * W) F h : (forall x, F h (Ok x)) -> safe F h (on_world f).
Proof. intros HF. apply holds_sync. intros p _. split; [done|]. destruct (f (world p)). apply HF. Qed.
Lemma addEvent_safe type message F h : F h (Ok tt) -> safe F h (addEvent type message).
Proof.
  intros HF. unfold addEvent. repeat (apply holds_andThen, on_world_safe; intros ?). by apply holds_update.
Qed.
Lemma alert_safe title message F h : F h (Ok tt) -> safe F h (alert title message).
Proof. intros HF. by apply holds_update. Qed.
Lemma phone_request_safe path body F h :
  may_ask h (Fetch path (option_map stringify body)) ->
  (forall h' result, h ⊆ h' -> told h' path result -> F h' (Ok result)) -> safe F h (request path body).
Proof.
  intros Hq HF. apply holds_catching, holds_await; [done|]. intros h' [result|e] Hh Ha.
  - apply HF; [done|]. exists (option_map stringify body). by left.
  - apply HF; [done|]. exists (option_map stringify body). right. by exists e.
Qed.

(** *** The demo, when it is enabled *)
Section enabled.
Context (enabled : demoEnabled = true).
Lemma other_path h path body : path <> ack_path -> path <> send_path -> may_ask h (Fetch path body).
Proof. intros Hp Hs. split; [intros E; exfalso; rewrite E in enabled; discriminate|]. split; intros E; [destruct (Hp E)|destruct (Hs E)]. Qed.
Ltac other := apply other_path; let E := fresh in intros E; vm_compute in E; discriminate.

Lemma own_bundle_safe mounted m p F h :
  (forall h' r, h ⊆ h' -> F h' r) -> safe F h (ensureOwnPreKeyBundle mounted m p).
Proof.
  intros HF. unfold ensureOwnPreKeyBundle. destruct (publishedBundle m) as [bundle|]; [by apply HF|].
  apply holds_andThen, on_world_safe. intros created. apply holds_andThen, on_world_safe. intros id.
  apply holds_andThen, holds_of_res. destruct (of_option _ _) as [bundle|e]; [|by apply HF].
  apply holds_andThen, phone_request_safe; [other|]. intros h' result Hh _.
  apply holds_andThen, holds_of_res. destruct (prop _ _) as [ok|e]; [|by apply HF].
  destruct (negb _); [by apply HF|]. apply holds_andThen, holds_update; [done|].
  apply holds_andThen, addEvent_safe. by apply HF.
Qed.
Lemma fetchBundle_safe identityId F h :
  (forall h' result, h ⊆ h' -> told h' (js "/v1/prekeys/" ++ template identityId) result -> F h' (bundle_of result)) ->
  safe F h (fetchBundle identityId).
Proof.
  intros HF. apply holds_andThen, phone_request_safe.
  - apply other_path; intros E; apply (f_equal (take 5)) in E; unfold take in E; vm_compute in E; discriminate.
  - intros h' result Hh Hr. by apply holds_of_res, HF.
Qed.
Lemma recipient_bundle_safe mounted m p F h :
  (forall h' r, h ⊆ h' -> F h' r) -> safe F h (ensureRecipientBundle mounted m p).
Proof.
  intros HF. unfold ensureRecipientBundle. destruct (eqb _ _).
  { apply holds_andThen, own_bundle_safe. intros h' [own|e] Hh; [|by apply HF].
    apply holds_andThen, holds_update; [done|]. by apply HF. }
  destruct (_ && _); [by apply HF|]. apply holds_andThen, fetchBundle_safe. intros h' result Hh _.
  destruct (bundle_of result) as [found|e]; [|by apply HF]. apply holds_andThen.
  destruct found as [bundle|]; [|by apply HF]. destruct (truthy bundle); [|by apply HF].
  apply holds_andThen, holds_update; [done|]. apply addEvent_safe. by apply HF.
Qed.
Lemma busy_while_safe mounted what body h :
  safe (fun _ _ => True) h body -> safe ends h (busy_while mounted what body).
Proof.
  intros Hb. unfold busy_while. apply holds_andThen, holds_update; [done|]. apply holds_finally, holds_catching.
  eapply holds_mono; [exact Hb|]. intros h' [[]|e] _ _; [by apply holds_update|].
  apply holds_andThen, addEvent_safe, alert_safe. by apply holds_update.
Qed.
Lemma createUuid_safe (F : list exch -> res thrown jstr -> Prop) h : (forall x, F h (Ok x)) -> safe F h createUuid.
Proof.
  intros HF. unfold createUuid, four_digits. do 8 (apply holds_andThen, holds_andThen, on_world_safe; intros ?). apply HF.
Qed.
Lemma send_sealed_safe mounted p bundle sessions session body h :
  outbound_found p bundle sessions session -> body <> [] -> safe (fun _ _ => True) h (send_sealed mounted p bundle session body).
Proof.
  intros Hs Hb. unfold send_sealed. cbv zeta. apply holds_andThen, createUuid_safe. intros messageId.
  apply holds_andThen, on_world_safe. intros createdAtMs.
  apply holds_andThen, holds_of_res. destruct (encryptMessage _ _) as [[ciphertext session']|e] eqn:Ec; [|done].
  apply holds_andThen, createUuid_safe. intros envelopeId. apply holds_andThen, holds_of_res.
  destruct (signMailboxEnvelopeMessage _ _ _ _ _ _ _ _) as [signature|] eqn:Esig; [|done].
  apply holds_andThen, phone_request_safe.
  { split; [intros E; exfalso; rewrite E in enabled; discriminate|]. split; [intros E; exfalso; vm_compute in E; discriminate|].
    intros _. exists p, bundle, sessions, (JsMap.set (session_name bundle) (serializeSession session') sessions), messageId, body, createdAtMs,
      (envelope_json p bundle envelopeId messageId ciphertext createdAtMs signature).
    split; [exact Hb|]. split; [|reflexivity]. exists session, ciphertext, session', envelopeId, signature. by split_and!. }
  intros h1 result _ _. apply holds_andThen, holds_of_res.
  destruct (prop _ _); [|done]. destruct (negb _); [done|]. apply holds_andThen, holds_update; [done|]. by apply addEvent_safe.
Qed.
Lemma handleSendMessage_safe mounted m p h : safe ends h (handleSendMessage mounted m p).
Proof.
  unfold handleSendMessage. destruct (eqb _ _) eqn:Eb; [by apply alert_safe|]. apply eqb_neq in Eb. apply busy_while_safe.
  apply holds_andThen, recipient_bundle_safe. intros h' [[bundle|]|e] _; [|done..].
  destruct (negb _); [done|]. apply holds_andThen. unfold outbound_session. apply holds_andThen, holds_of_res.
  destruct (stored_session _ _) as [[session|]|e] eqn:Es; [| |done].
  { eapply send_sealed_safe; [by left|exact Eb]. }
  apply holds_andThen, on_world_safe. intros created. apply holds_of_res. destruct (new_outbound _ _ _) as [session|] eqn:En; [|done].
  eapply send_sealed_safe; [right; split; [exact Es|by exists created]|exact Eb].
Qed.
Lemma open_envelope_safe p envelope bundle sessions F h :
  (forall sessions' message, opens p envelope bundle sessions sessions' message -> F h (Ok (sessions', message))) ->
  (forall e, F h (Err e)) -> safe F h (open_envelope p envelope bundle sessions).
Proof.
  intros HF He. unfold open_envelope, inbound_session. apply holds_andThen, holds_andThen, holds_of_res.
  assert (forall session, inbound_found p envelope bundle sessions session -> safe F h
    (andThen (lifted (decryptMessage session (template (field (js "ciphertext") envelope)))) (fun opened =>
     andThen (of_res (read_message p opened.1)) (fun message =>
     Ret (assign_session (template (field (js "sender_device_id") envelope)) (serializeSession opened.2) sessions, message))))) as Hgo.
  { intros session Hs. apply holds_andThen, holds_of_res. destruct (decryptMessage _ _) as [[text session']|e] eqn:Ed; [|apply He].
    apply holds_andThen, holds_of_res. cbn [fst snd]. destruct (read_message p text) as [message|e] eqn:Em; [|apply He].
    apply HF. by exists session, text, session'. }
  destruct (stored_session _ _) as [[session|]|e] eqn:Es; [apply Hgo; by left| |apply He].
  apply holds_andThen, on_world_safe. intros created. apply holds_of_res.
  destruct (new_inbound _ _ _ _) as [session|e] eqn:En; [|apply He]. apply Hgo. right. split; [done|]. by exists created.
Qed.
Lemma read_envelopes_safe p own items sessions read F h :
  (forall h' sessions' read', h ⊆ h' -> reads h' p own items sessions sessions' read' -> F h' (Ok (sessions', read ++ read'))) ->
  (forall h' e, F h' (Err e)) -> safe F h (read_envelopes p own items sessions read).
Proof.
  revert sessions read h. induction items as [|envelope items IH]; intros sessions read h HF He; cbn [read_envelopes].
  { replace (sessions, read) with (sessions, read ++ []) by by rewrite app_nil_r. apply HF; [done|apply reads_end]. }
  apply holds_andThen, holds_of_res. destruct (prop _ _) as [sender|e] eqn:Es; [|apply He].
  assert (sender = field (js "sender_identity_id") envelope) as -> by by destruct envelope; cbn in Es; [|injection Es as <-..].
  apply holds_andThen.
  assert (forall h' found, h ⊆ h' -> found_for h' p own (field (js "sender_identity_id") envelope) found -> safe F h'
    (if is_truthy found then andThen (open_envelope p envelope (default_to JNull found) sessions)
       (fun opened => read_envelopes p own items opened.1 (read ++ [opened.2]))
     else andThen (addEvent (js "ERROR") (js "Missing sender bundle for " ++ template (field (js "sender_identity_id") envelope)))
       (fun _ => read_envelopes p own items sessions read))) as Hnext.
  { intros h' found Hh Hb. destruct (is_truthy found) eqn:Ht.
    - destruct found as [bundle|]; [|done]. cbn [default_to]. apply holds_andThen, open_envelope_safe; [|by intros].
      intros sessions' message Ho. apply IH; [|done]. cbn [fst snd]. intros h'' s'' read' Hh' Hreads. rewrite <- app_assoc.
      apply HF; [by etrans|]. eapply reads_one; [|exact Ho|exact Hreads]. by eapply found_mono.
    - apply holds_andThen, addEvent_safe, IH; [|done]. intros h'' s'' read' Hh' Hreads. apply HF; [by etrans|].
      eapply reads_past; [|exact Ht|exact Hreads]. by eapply found_mono. }
  destruct (bool_decide _) eqn:Eb; [apply bool_decide_eq_true in Eb; apply Hnext; [done|by left]|].
  apply fetchBundle_safe. intros h' result Hh Hr. destruct (bundle_of result) as [found|e] eqn:Ef; [|apply He].
  apply Hnext; [done|]. right. by exists result.
Qed.
Lemma handlePollMailbox_safe mounted m p h : safe ends h (handlePollMailbox mounted m p).
Proof.
  unfold handlePollMailbox. apply busy_while_safe, holds_andThen, own_bundle_safe. intros h1 [own|e] _; [|done]. cbv zeta.
  apply holds_andThen, holds_of_res. destruct (of_option _ _); [|done].
  apply holds_andThen, phone_request_safe; [other|]. intros h2 challenge _ _.
  apply holds_andThen, holds_of_res. destruct (prop _ _); [|done]. destruct (_ || _); [done|].
  apply holds_andThen, holds_of_res. destruct (of_option _ _); [|done].
  apply holds_andThen, phone_request_safe; [other|]. intros h3 result _ Hpoll.
  apply holds_andThen, holds_of_res. destruct (prop _ _) as [ok|] eqn:Eok; [|done].
  assert (ok = field (js "ok") result) as -> by by destruct result; cbn in Eok; [|injection Eok as <-..].
  destruct (_ || _) eqn:Et; [done|]. apply orb_false_iff in Et as [Et%negb_false_iff _].
  destruct (optional (js "envelopes") (field (js "data") result)) as [envelopes|] eqn:Ee; [|done].
  assert (safe (fun _ _ => True) h3
    (if no_items envelopes
     then andThen (addEvent (js "MAILBOX") (js "No envelopes available")) (fun _ => alert (js "Mailbox") (js "No new messages"))
     else read_page mounted m p own envelopes)) as Hpage; [|by destruct envelopes].
  destruct (no_items envelopes); [by apply holds_andThen, addEvent_safe, alert_safe|].
  unfold read_page. cbv zeta. apply holds_andThen, holds_of_res. destruct (items_of envelopes) as [items|] eqn:Ei; [|done].
  apply holds_andThen, read_envelopes_safe; [|done]. intros h4 sessions' read Hh4 Hreads. cbn [app fst snd].
  apply holds_andThen, holds_update; [done|]. apply holds_andThen, holds_of_res.
  destruct (ids_of envelopes) as [ids|] eqn:Eids; [|done]. apply holds_andThen, holds_of_res.
  destruct (signMailboxAckMessage _ _ _ _) as [signature|] eqn:Esig; [|done].
  apply holds_andThen, phone_request_safe; [|by intros; apply addEvent_safe].
  split; [intros E; exfalso; rewrite E in enabled; discriminate|]. split; [|intros E; exfalso; vm_compute in E; discriminate]. intros _.
  exists p, own, envelopes, items, ids, signature, (inboundSessions m), sessions', read. split_and!; try done.
  exists result. split_and!; [by eapply phone_told_mono|done..].
Qed.
End enabled.

Lemma catching_safe (body : prog (phone W) thrown question answer unit) handler h :
  safe (fun _ _ => True) h body -> (forall e h, safe ends h (handler e)) -> safe ends h (catching body handler).
Proof. intros Hb Hh. apply holds_catching. eapply holds_mono; [exact Hb|]. by intros h' [[]|e] _ _. Qed.
Lemma handleGenerateIdentity_safe h : safe ends h handleGenerateIdentity.
Proof.
  unfold handleGenerateIdentity, closure. apply holds_andThen, holds_get. intros p _. cbv zeta. apply catching_safe.
  2: { intros e h'. by apply holds_andThen, addEvent_safe, alert_safe. }
  apply holds_andThen. unfold generated. apply holds_andThen.
  assert (forall seed, safe (fun h r => match r with
      | Ok next => safe (fun _ _ => True) h
          (andThen (update (on_onboarding (instance p) (fun o => Onboarding 2 (Some next) (Transcripts.seed (the_profile next)) (callsign (the_profile next)) (ob_suffix o))))
            (fun _ => addEvent (js "IDENTITY")
              ((if eqb (trim (seedInput (vw_onboarding (rendered p)))) [] then js "Generated identity: " else js "Recovered identity: ") ++ callsign (the_profile next))))
      | Err _ => True
      end) h (andThen (or_raise (createIdentityProfile seed (js "mobile-device") (ob_suffix (vw_onboarding (rendered p))))) (fun made =>
        sync (fun p => (Held (objects p) made, Phone (now p) (rendered p) (instance p) (objects p + 1) (events p) (alerts p) (world p)))))) as Hgo.
  { intros seed. apply holds_andThen, holds_of_res. destruct (of_option _ _) as [made|]; [|done].
    apply holds_sync. intros p' _. split; [done|]. cbn [fst]. apply holds_andThen, holds_update; [done|]. by apply addEvent_safe. }
  destruct (eqb _ []); [apply on_world_safe; intros seed|]; apply Hgo.
Qed.
Lemma handlePublishToRelay_safe h : safe ends h handlePublishToRelay.
Proof.
  unfold handlePublishToRelay, closure. apply holds_andThen, holds_get. intros p _.
  destruct (ob_profile _) as [held|]; [|by apply alert_safe]. cbv zeta. apply catching_safe.
  2: { intros e h'. by apply holds_andThen, addEvent_safe, alert_safe. }
  apply holds_andThen, on_world_safe. intros created. apply holds_andThen, holds_of_res. destruct (of_option _ _) as [record|]; [|done].
  apply holds_andThen, phone_request_safe.
  { split; [reflexivity|]. split; intros E; exfalso; vm_compute in E; discriminate. }
  intros h' result _ _. apply holds_andThen, holds_of_res. destruct (prop _ _); [|done]. destruct (is_truthy _).
  - apply holds_andThen, addEvent_safe, holds_andThen, holds_update; [done|]. by apply holds_update.
  - by apply holds_andThen, addEvent_safe, alert_safe.
Qed.
Lemma in_demo_safe f h : (demoEnabled = true -> forall mounted m p h, safe ends h (f mounted m p)) -> safe ends h (in_demo demoEnabled f).
Proof.
  intros Hf. unfold in_demo, closure. apply holds_andThen, holds_get. intros p _. destruct (profile _) as [held|]; [|done].
  destruct (_ && _) eqn:E; [|done]. apply andb_true_iff in E as [E _]. by apply Hf.
Qed.
Lemma unless_busy_safe f h : (demoEnabled = true -> forall mounted m p h, safe ends h (f mounted m p)) -> safe ends h (unless_busy demoEnabled f).
Proof. intros Hf. apply in_demo_safe. intros E mounted m p h'. destruct (isBusy m); [done|]. by apply Hf. Qed.
Lemma on_step_safe n f h : safe ends h f -> safe ends h (on_step n f).
Proof. intros Hf. apply holds_andThen, holds_get. intros p _. by destruct (_ && _). Qed.
Lemma phone_event_safe h e : safe ends h (event_handler demoEnabled e).
Proof.
  destruct e; cbn [event_handler].
  1-2: by apply holds_update.
  - apply holds_andThen, holds_get. intros p _. destruct (bool_decide _); [by apply holds_update|done].
  - apply on_step_safe, holds_andThen, holds_get. intros p _. by apply holds_update.
  - apply on_step_safe, holds_andThen, holds_get. intros p _. by apply holds_update.
  - apply on_step_safe, handleGenerateIdentity_safe.
  - apply on_step_safe. unfold handleConfirmSeed, closure. apply holds_andThen, holds_get. intros p _. apply holds_andThen, holds_update; [done|].
    by apply addEvent_safe.
  - apply on_step_safe, handlePublishToRelay_safe.
  - apply in_demo_safe. intros _ mounted m p h'. by apply holds_update.
  - apply in_demo_safe. intros _ mounted m p h'. by apply holds_update.
  - apply unless_busy_safe. intros E mounted m p h'. apply busy_while_safe.
    apply holds_andThen, own_bundle_safe; [done|]. intros h'' [own|e] _; [|done]. by apply alert_safe.
  - apply unless_busy_safe. intros E mounted m p h'. apply busy_while_safe.
    apply holds_andThen, recipient_bundle_safe; [done|]. intros h'' [bundle|e] _; [|done]. destruct (is_truthy bundle); [by apply alert_safe|done].
  - apply unless_busy_safe. intros E mounted m p h'. by apply handleSendMessage_safe.
  - apply unless_busy_safe. intros E mounted m p h'. by apply handlePollMailbox_safe.
Qed.

(** C19: What the phone sends and acknowledges, and what it asks at all.  Over every order of events,
    answers and renders, whatever the relay answers: an acknowledgement is sent only for the
    envelopes one poll was answered with, all their identifiers under the phone's own signature,
    after it went through every one of them in order.  Each was either opened, with the bundle of
    its sender and the session left by the ones before, or passed over unread, which happens only
    where the bundle asked for its sender was not given: the relay had none, or did not answer.
    Such an envelope is acknowledged with the others ([Delivery.unread_message_acknowledged]).
    What is sent is a text that is not empty, sealed for the recipient's device with a
    session of its own and under the phone's signature; without the demo flag the phone asks for
    nothing but the publication of its device record; and no handler is ever rejected. *)
Theorem acknowledged_after_poll w h c : phone_happens demoEnabled w h c ->
  (forall before body a after, h = before ++ existT (Fetch ack_path body) a :: after -> acknowledges before body) /\
  (forall before body a after, h = before ++ existT (Fetch send_path body) a :: after -> sends body) /\
  (demoEnabled = false -> forall before path body a after, h = before ++ existT (Fetch path body) a :: after ->
     path = js "/v1/device-records/publish") /\
  alive c = true.
Proof.
  intros Hc. assert (forall (e : event) (p : prog (phone W) thrown question answer unit) h,
    phone_handler demoEnabled e p -> safe ends h p) as Hh by (intros e p h' ->; apply phone_event_safe).
  assert (forall before q a after, h = before ++ existT q a :: after -> may_ask before q) as Hq.
  { intros before q a after. by eapply (happens_allowed anywhere may_ask); [..|exact Hc]; [by intros|exact phone_may_ask_mono| |exact Hh]. }
  split; [|split; [|split]].
  - intros before body a after E. by apply (proj2 (Hq _ _ _ _ E)).
  - intros before body a after E. by apply (proj2 (Hq _ _ _ _ E)).
  - intros Ed before path body a after E. by apply (proj1 (Hq _ _ _ _ E)).
  - destruct (happens_holds anywhere may_ask (phone_handler demoEnabled) ltac:(by intros) phone_may_ask_mono ends (first_phone w) h c)
      as (_ & _ & Hd); [done|exact Hh|exact Hc|]. cbn [fst snd] in Hd.
    destruct (alive c) eqn:E; [done|]. destruct (Hd eq_refl) as (? & ? & Hx). discriminate Hx.
Qed.
End safe.
