(* ===== verification/Delivery.v ===== *)
(** * Messages between two phones, and what a phone shows

    The sessions of [Mobile] on both sides of a conversation, and the list on the screen.
    Theorems: whatever the relay answers, a page of what one phone composed is read by the
    other as the messages composed, in order, as long as the relay gives the sender's bundle;
    what is shown after a poll is in order of time, with the last message of every
    identifier.  Lemmas show where the screens lose or block messages. *)

From stdpp Require Import sorting.
From S2P Require Import Prelude JsString Json JsMap Zod Base64Url Platform WellFormed Effects Transcripts Session Args Outbound Async Mobile.

(** As documented: keys are bytes; a UUID is 36 hexadecimal digits and hyphens. *)
Class PhoneLaws `{Crypto} := {
  box_key_bytes : forall s public secret, box_keyPair_fromSecretKey s = Some (public, secret) ->
    Forall byte_range public /\ Forall byte_range secret;
  uuid_text : forall t, length (uuidv5_URL t) = 36%nat /\ Forall (fun u => 45 <= u <= 102) (uuidv5_URL t);
}.

(** ** What one phone composes, and the other reads *)

Section delivery.
Context `{!Crypto} `{!SessionCrypto} `{!CryptoLaws} `{!SessionLaws} `{!PhoneLaws}.

(** What the screen reads of the bundle of a profile. *)
Definition bundle_for (p : IdentityProfile) (bundle : json) : Prop :=
  field (js "identity_id") bundle = Some (JStr (identityId p)) /\ field (js "device_id") bundle = Some (JStr (deviceUuid p)) /\
  prop (js "public_key") (field (js "signed_prekey") bundle) = Ok (Some (JStr (sessionPubKey p))) /\ truthy bundle = true.
Lemma own_bundle_for p n created id bundle : createSignedPreKeyBundle p n created id = Some bundle -> bundle_for p bundle.
Proof.
  unfold createSignedPreKeyBundle. destruct (decodeBase64Url _); [|discriminate]. destruct (decodeBase64Url _); [|discriminate].
  destruct (signCanonicalJson _ _); [|discriminate]. destruct (one_time_prekeys _ _ _); [|discriminate].
  destruct (signCanonicalJson _ _); [|discriminate]. intros [= <-]. unfold bundle_for, prop. eval_object. split_and!; reflexivity.
Qed.

(** A profile as the two ends of a session see it. *)
Record end_of (p : IdentityProfile) (public secret : bytes) : Prop := {
  end_keys : exists s, box_keyPair_fromSecretKey s = Some (public, secret);
  end_public : sessionPubKey p = encodeBase64Url public /\ Forall byte_range public;
  end_secret : sessionSecretKey p = encodeBase64Url secret /\ Forall byte_range secret;
  end_names : forallb unit_ok (identityId p) = true /\ forallb unit_ok (deviceUuid p) = true;
  end_device : member (deviceUuid p) inherited_names = false;
}.
Lemma not_inherited name : length name = 36%nat -> member name inherited_names = false.
Proof.
  intros Hl. apply not_true_is_false. unfold member. intros [x [Hx E]]%existsb_exists. apply eqb_eq in E as ->.
  assert (forallb (fun n => (length n <? 36)%nat) inherited_names = true) as Hs by (vm_compute; reflexivity).
  rewrite forallb_forall in Hs. specialize (Hs _ Hx). cbv beta in Hs. rewrite Hl in Hs. discriminate Hs.
Qed.
Lemma profile_end the_seed label suffix p :
  createIdentityProfile the_seed label suffix = Some p -> exists public secret, end_of p public secret.
Proof.
  intros Hp. pose proof (createIdentityProfile_keys _ _ _ _ Hp) as (ip & isk & dp & dsk & Hk & _ & Ei & _).
  unfold createIdentityProfile in Hp. destruct (deriveKeyPairFromSeed _ _) as [[? ?]|]; [|discriminate].
  destruct (deriveKeyPairFromSeed _ _) as [[? ?]|]; [|discriminate].
  unfold deriveSessionKeyPairFromSeed, encode_pair in Hp.
  destruct (box_keyPair_fromSecretKey _) as [[public secret]|] eqn:Eb; [|discriminate].
  assert (deviceUuid p = uuidv5_URL (the_seed ++ colon ++ label)) as Ed by by injection Hp as <-.
  assert (sessionPubKey p = encodeBase64Url public /\ sessionSecretKey p = encodeBase64Url secret) as [Ep Es] by by injection Hp as <-.
  destruct (box_key_bytes _ _ _ Eb) as [Hpub Hsec]. destruct (uuid_text (the_seed ++ colon ++ label)) as [Hl Hu].
  exists public, secret. split; [by eexists|done|done| |rewrite Ed; by apply not_inherited].
  rewrite Ei, Ed. split; [by apply encode_units, (keyPair_bytes _ _ _ Hk)|]. apply forallb_Forall'.
  eapply Forall_impl; [exact Hu|]. cbn. intros u Hu'. unfold unit_ok. rewrite andb_true_iff, !Z.leb_le. lia.
Qed.

(** *** One message *)

(** A text as the screen shows one to its sender. *)
Record composed_message := Composed { cm_id : jstr; cm_body : jstr; cm_time : Z }.
Definition message_ok (m : composed_message) : Prop := forallb unit_ok (cm_id m) = true /\ forallb unit_ok (cm_body m) = true.
Definition received (a b : IdentityProfile) (m : composed_message) : RenderedMessage :=
  MkMessage (Some (JStr (cm_id m))) (bool_decide (Some (JStr (identityId a)) = Some (JStr (identityId b))))
    (Some (JStr (cm_body m))) (JStr (js "delivered")) (Some (JNum (cm_time m))).

Lemma units_app s t : forallb unit_ok s = true -> forallb unit_ok t = true -> forallb unit_ok (s ++ t) = true.
Proof. intros Hs Ht. by rewrite forallb_app, Hs, Ht. Qed.
Lemma conversation_units own other :
  forallb unit_ok own = true -> forallb unit_ok other = true -> forallb unit_ok (conversation_id own (Some (JStr other))) = true.
Proof.
  intros Ho Ht. unfold conversation_id. cbn [to_text]. destruct (decide _); by repeat apply units_app; try (vm_compute; reflexivity).
Qed.
Lemma chat_message_ok p other m :
  forallb unit_ok (identityId p) = true -> forallb unit_ok (deviceUuid p) = true -> forallb unit_ok other = true -> message_ok m ->
  json_ok (chat_message p (Some (JStr other)) (cm_id m) (cm_time m) (cm_body m)) = true.
Proof.
  intros Hp Hd Ho [Hi Hb]. unfold chat_message, member_text. apply (proj2 (andb_true_iff _ _)). split; [vm_compute; reflexivity|].
  cbn [forallb snd json_ok]. rewrite Hp, Hd, Hi, Hb, conversation_units by done. vm_compute. reflexivity.
Qed.
Lemma object_readable l : json_ok (JObj l) = true -> readable (stringify (JObj l)) = true.
Proof.
  intros Hl. unfold readable. rewrite stringify_well_formed by done. reflexivity.
Qed.
Lemma chat_readable p other m :
  forallb unit_ok (identityId p) = true -> forallb unit_ok (deviceUuid p) = true -> forallb unit_ok other = true -> message_ok m ->
  readable (stringify (chat_message p (Some (JStr other)) (cm_id m) (cm_time m) (cm_body m))) = true.
Proof. intros. by apply object_readable, chat_message_ok. Qed.
Lemma message_read a b other m :
  forallb unit_ok (identityId a) = true -> forallb unit_ok (deviceUuid a) = true -> forallb unit_ok other = true -> message_ok m ->
  read_message b (stringify (chat_message a (Some (JStr other)) (cm_id m) (cm_time m) (cm_body m))) = Ok (received a b m).
Proof.
  intros Hi Hd Ho Hm. unfold read_message. rewrite parse_stringify by by apply chat_message_ok.
  unfold chat_message, member_text, received. eval_object. reflexivity.
Qed.

(** *** The sessions of the two phones *)

Lemma serialized_cons s : exists u text, serializeSession s = u :: text.
Proof. unfold serializeSession, serializeSessionState. destruct (stringify_start (session_json s)) as (u & t & E & _). by exists u, t. Qed.
Lemma stored_after_set name s sessions :
  stored_session name (JsMap.set name (serializeSession s) sessions)
  = match deserializeSession (serializeSession s) with Ok s => Ok (Some s) | Err e => Err (Raised e) end.
Proof. unfold stored_session. rewrite JsMap.get_set_eq. by destruct (serialized_cons s) as (u & text & ->). Qed.
Lemma stored_after_assign name s sessions : member name inherited_names = false ->
  stored_session name (assign_session name (serializeSession s) sessions)
  = match deserializeSession (serializeSession s) with Ok s => Ok (Some s) | Err e => Err (Raised e) end.
Proof.
  intros Hn. unfold assign_session. destruct (eqb name (js "__proto__")) eqn:E; [|apply stored_after_set].
  apply eqb_eq in E as ->. vm_compute in Hn. discriminate Hn.
Qed.

(** Neither phone knows the other, or what the first sends the second reads next. *)
Definition linked (a b : IdentityProfile) (sent kept : list (jstr * jstr)) : Prop :=
  stored_session (deviceUuid b) sent = Ok None /\ stored_session (deviceUuid a) kept = Ok None \/
  exists x y, stored_session (deviceUuid b) sent = Ok (Some x) /\ stored_session (deviceUuid a) kept = Ok (Some y) /\ paired x y.

(** A message of a paired session is opened by the other end, and both stay paired. *)
Lemma paired_message x y t c x' :
  paired x y -> readable t = true -> encryptMessage x t = Ok (c, x') ->
  exists y' x1 y1, decryptMessage y c = Ok (t, y') /\ deserializeSession (serializeSession x') = Ok x1 /\
    deserializeSession (serializeSession y') = Ok y1 /\ paired x1 y1.
Proof.
  intros Hp Ht He. destruct (paired_turn x y t Hp Ht) as (x1 & y1 & E & Hp1). unfold one_turn in E. rewrite He in E.
  cbn [res_bind fst snd] in E. destruct (deserializeSession (serializeSession x')) as [x2|]; [|discriminate]. cbn [res_bind] in E.
  destruct (decryptMessage y c) as [[t' y']|]; [|discriminate]. cbn [res_bind fst snd] in E.
  destruct (deserializeSession (serializeSession y')) as [y2|] eqn:Ey; [|discriminate]. cbn [res_bind] in E. injection E as -> -> ->.
  by exists y', x1, y1.
Qed.
(** What each end makes of the other's bundle, at whatever instants. *)
Lemma session_inputs p public secret bundle : end_of p public secret -> bundle_for p bundle ->
  prekey_of bundle = Ok public /\ session_secret p = Ok secret /\ length public = 32%nat /\ length secret = 32%nat.
Proof.
  intros [[s Hk] [Ep Hp] [Es Hs] _ _] (_ & _ & Hb & _). unfold prekey_of, session_secret, decoded, text_of.
  rewrite Hb. cbn [res_bind]. rewrite Ep, Es, !decode_encode by done. cbn [of_option].
  destruct (box_key_length _ _ _ Hk). by split_and!.
Qed.
Lemma first_sessions a A sa b B sb bundleA bundleB envelope created x :
  end_of a A sa -> end_of b B sb -> bundle_for a bundleA -> bundle_for b bundleB ->
  field (js "sender_identity_id") envelope = Some (JStr (identityId a)) ->
  field (js "sender_device_id") envelope = Some (JStr (deviceUuid a)) ->
  new_outbound a bundleB created = Ok x -> forall created', exists y, new_inbound b envelope bundleA created' = Ok y /\ paired x y.
Proof.
  intros Ha Hb Fa Fb Ei Ed Hx created'. destruct (session_inputs _ _ _ _ Ha Fa) as (Pa & Sa & La & Lsa).
  destruct (session_inputs _ _ _ _ Hb Fb) as (Pb & Sb & Lb & Lsb).
  destruct Ha as [[s Hk] _ _ [Ha1 Ha2] _], Hb as [[t Hk'] _ _ [Hb1 Hb2] _]. destruct Fb as (Ib & Db & _).
  unfold new_outbound in Hx. rewrite Pb, Sa in Hx. cbn [res_bind] in Hx. unfold session_name in Hx. rewrite Ib, Db in Hx.
  cbn [template to_text] in Hx. destruct (createOutboundSession _ _ _ _ _ _ _) as [[x' c]|] eqn:Ex; [|discriminate].
  injection Hx as ->. unfold new_inbound. rewrite Sb, Pa, Ei, Ed. cbn [res_bind template to_text].
  destruct (createInboundSession (identityId b) (deviceUuid b) (identityId a) (deviceUuid a) sb A created') as [y|e] eqn:Ey.
  - exists y. split; [reflexivity|]. eapply (fresh_paired _ _ _ _ _ _ _ _ _ _ _ _ _ _ _ Hk Hk'); [|exact Ex|exact Ey].
    by repeat (apply Forall_cons_2; [done|]); apply List.Forall_nil.
  - exfalso. unfold createInboundSession, assertKeyLength in Ey. rewrite Lsb, La in Ey. discriminate Ey.
Qed.

Lemma envelope_fields p bundle envelopeId messageId ciphertext created signature :
  let envelope := envelope_json p bundle envelopeId messageId ciphertext created signature in
  field (js "sender_identity_id") envelope = Some (JStr (identityId p)) /\
  field (js "sender_device_id") envelope = Some (JStr (deviceUuid p)) /\
  field (js "ciphertext") envelope = Some (JStr ciphertext).
Proof.
  cbv zeta. unfold envelope_json, member_raw, member_text.
  split_and!; destruct (field (js "identity_id") bundle), (field (js "device_id") bundle); cbn [app]; eval_object; reflexivity.
Qed.

(** *** A page *)

(** The texts the first phone composed one after the other, each with the sessions the one
    before it left. *)
Inductive composed (a : IdentityProfile) (bundle : json) :
    list (jstr * jstr) -> list (jstr * jstr) -> list composed_message -> list json -> Prop :=
  | composed_none sessions : composed a bundle sessions sessions [] []
  | composed_one sessions sessions' sessions'' m envelope sent envelopes :
      composes a bundle sessions sessions' (cm_id m) (cm_body m) (cm_time m) envelope ->
      composed a bundle sessions' sessions'' sent envelopes ->
      composed a bundle sessions sessions'' (m :: sent) (envelope :: envelopes).

Context {W : Type} `{!World W} `{!PhoneHost W}.
Open Scope async_scope.
Abbreviation safe demo F h p := (holds (fun (_ : list exch) (_ : phone W) => True) (may_ask (W := W) demo) F h p).

Section two.
Context (a b : IdentityProfile) (A sa B sb : bytes) (bundleA bundleB : json) (demoEnabled : bool).
Context (Ha : end_of a A sa) (Hb : end_of b B sb) (Fa : bundle_for a bundleA) (Fb : bundle_for b bundleB).

Lemma composed_opens sent sent' kept m envelope (F : list exch -> res thrown _ -> Prop) h :
  linked a b sent kept -> message_ok m -> composes a bundleB sent sent' (cm_id m) (cm_body m) (cm_time m) envelope ->
  (forall kept', linked a b sent' kept' -> F h (Ok (kept', received a b m))) ->
  safe demoEnabled F h (open_envelope b envelope bundleA kept).
Proof.
  intros Hl Hm (x & c & x' & envelopeId & signature & Hx & He & _ & -> & ->) HF. 
  destruct (envelope_fields a bundleB envelopeId (cm_id m) c (cm_time m) signature) as (Ei & Ed & Ec).
  destruct (end_names _ _ _ Ha) as [Ui Ud]. destruct (end_names _ _ _ Hb) as [Vi Vd].
  assert (session_name bundleB = deviceUuid b) as En by (unfold session_name; by rewrite (proj1 (proj2 Fb))).
  rewrite (proj1 Fb) in He. unfold outbound_found in Hx. rewrite En in *.
  assert (forall y, paired x y -> safe demoEnabled F h
    (andThen (lifted (decryptMessage y c)) (fun opened => andThen (of_res (read_message b opened.1)) (fun message =>
     Ret (assign_session (deviceUuid a) (serializeSession opened.2) kept, message))))) as Hgo.
  { intros y Hp. destruct (paired_message x y _ c x' Hp (chat_readable _ _ _ Ui Ud Vi Hm) He)
      as (y' & x1 & y1 & Hd & Ex & Ey & Hp1).
    unfold lifted. rewrite Hd. apply holds_andThen, holds_of_res, holds_andThen, holds_of_res. cbn [fst snd].
    rewrite message_read by done. apply HF. right. exists x1, y1. split_and!; [|rewrite stored_after_assign by apply (end_device _ _ _ Ha)|done].
    - by rewrite stored_after_set, Ex.
    - by rewrite Ey. }
  unfold open_envelope, inbound_session. rewrite Ed, Ec. cbn [template to_text]. apply holds_andThen, holds_andThen, holds_of_res.
  destruct Hl as [[Es Ek]|(x0 & y0 & Es & Ek & Hp)]; rewrite Ek, Es in *.
  - destruct Hx as [Hx|[_ [created Hx]]]; [discriminate|]. apply holds_andThen, on_world_safe. intros created'. apply holds_of_res.
    destruct (first_sessions a A sa b B sb bundleA bundleB _ created x Ha Hb Fa Fb Ei Ed Hx created') as (y & -> & Hp). by apply Hgo.
  - destruct Hx as [[= ->]|[Hx _]]; [|discriminate]. by apply Hgo.
Qed.

Lemma prop_field key v x : field key v = Some x -> prop key (Some v) = Ok (Some x).
Proof. destruct v; intros E; [discriminate E|exact (f_equal Ok E)..]. Qed.
(** The relay answers every question for the first phone's bundle with it, as far as it answers. *)
Definition relay_has (h : list exch) : Prop :=
  forall result, told (W := W) h (js "/v1/prekeys/" ++ identityId a) result -> bundle_of result = Ok (Some bundleA).
Definition next_envelope own envelope envelopes kept read (found : option json) : prog (phone W) thrown question answer _ :=
  if is_truthy found
  then opened <~ open_envelope b envelope (default_to JNull found) kept; read_envelopes b own envelopes opened.1 (read ++ [opened.2])
  else addEvent (js "ERROR") (js "Missing sender bundle for " ++ template (Some (JStr (identityId a))));~ read_envelopes b own envelopes kept read.
Lemma next_envelope_safe own envelope envelopes kept read found h :
  demoEnabled = true -> safe demoEnabled (fun _ _ => True) h (next_envelope own envelope envelopes kept read found).
Proof.
  intros enabled. unfold next_envelope. destruct (is_truthy found).
  - apply holds_andThen, open_envelope_safe; [|done]. intros kept' message _. by apply read_envelopes_safe.
  - by apply holds_andThen, addEvent_safe, read_envelopes_safe.
Qed.
#[local] Instance thrown_eq_dec : EqDecision thrown.
Proof. solve_decision. Defined.
#[local] Instance res_eq_dec {R} `{EqDecision R} : EqDecision (res thrown R).
Proof. solve_decision. Defined.
Lemma page_read own sent sent' composed_texts envelopes kept read h :
  demoEnabled = true -> (identityId a = identityId b -> own = bundleA) -> Forall message_ok composed_texts ->
  composed a bundleB sent sent' composed_texts envelopes -> linked a b sent kept ->
  safe demoEnabled (fun h' r => relay_has h' -> exists kept', linked a b sent' kept' /\ r = Ok (kept', read ++ map (received a b) composed_texts))
    h (read_envelopes b own envelopes kept read).
Proof.
  intros enabled Ho Hm Hc. revert kept read h. induction Hc as [sessions|sent sent' sent'' m envelope texts envelopes Hc _ IH]; intros kept read h Hl.
  { intros _. exists kept. by rewrite app_nil_r. }
  apply Forall_cons in Hm as [Hm Hms]. specialize (IH Hms). cbn [read_envelopes].
  assert (field (js "sender_identity_id") envelope = Some (JStr (identityId a))) as Ei.
  { destruct Hc as (? & ? & ? & ? & ? & _ & _ & _ & -> & _). exact (proj1 (envelope_fields a bundleB _ _ _ _ _)). }
  rewrite (prop_field _ _ _ Ei). apply holds_andThen, holds_of_res.
  assert (forall h', safe demoEnabled (fun h' r => relay_has h' -> exists kept', linked a b sent'' kept' /\
      r = Ok (kept', read ++ map (received a b) (m :: texts))) h'
    (opened <~ open_envelope b envelope bundleA kept; read_envelopes b own envelopes opened.1 (read ++ [opened.2]))) as Hgo.
  { intros h'. apply holds_andThen. eapply composed_opens; [exact Hl|exact Hm|exact Hc|]. intros kept' Hl'. cbn [fst snd].
    eapply holds_mono; [apply IH, Hl'|]. intros h'' r _ Hr Hrelay. destruct (Hr Hrelay) as (kept'' & Hl'' & ->).
    exists kept''. split; [done|]. cbn [map]. by rewrite <- app_assoc. }
  assert (forall h' result found, told (W := W) h' (js "/v1/prekeys/" ++ identityId a) result -> bundle_of result <> Ok (Some bundleA) ->
    safe demoEnabled (fun h' r => relay_has h' -> exists kept', linked a b sent'' kept' /\
      r = Ok (kept', read ++ map (received a b) (m :: texts))) h'
    (next_envelope own envelope envelopes kept read found)) as Helse.
  { intros h' result found Ht Hne. eapply holds_mono; [by apply next_envelope_safe|]. intros h'' r Hh _ Hrelay.
    destruct (Hne (Hrelay _ (phone_told_mono _ _ _ _ Hh Ht))). }
  apply holds_andThen. destruct (bool_decide _) eqn:Eb.
  - apply bool_decide_eq_true in Eb. injection Eb as Eb. refine (holds_of_res _ _ (Ok (Some own)) _ _ _). specialize (Ho Eb). subst own.
    cbn [is_truthy default_to]. rewrite (proj2 (proj2 (proj2 Fa))). apply Hgo.
  - apply fetchBundle_safe; [exact enabled|]. intros h' result Hh Ht. cbn [template to_text] in Ht.
    destruct (decide (bundle_of result = Ok (Some bundleA))) as [E|Hne].
    + rewrite E. cbn [is_truthy default_to]. rewrite (proj2 (proj2 (proj2 Fa))). apply Hgo.
    + destruct (bundle_of result) as [found|e] eqn:Ef.
      * apply (Helse h' result found Ht). by rewrite Ef.
      * intros Hrelay. specialize (Hrelay result Ht). congruence.
Qed.
End two.

(** C20: What one phone composes the other reads.  For the profiles of any two seeds, also when they
    are one, and bundles they signed: when neither knows the other or their sessions are those an
    earlier page left, a page of envelopes that the first composed one after the other is read by
    the second as exactly those messages, in that order and under their identifiers and times,
    whatever the relay does, as long as it gives the first's bundle when asked for it; and the
    sessions are then ready for the next page. *)
Theorem page_is_read seedA suffixA a seedB suffixB b n created bundleId bundleA m created' bundleId' bundleB
    own sent sent' texts envelopes kept read h :
  createIdentityProfile seedA (js "mobile-device") suffixA = Some a ->
  createIdentityProfile seedB (js "mobile-device") suffixB = Some b ->
  createSignedPreKeyBundle a n created bundleId = Some bundleA ->
  createSignedPreKeyBundle b m created' bundleId' = Some bundleB ->
  (identityId a = identityId b -> own = bundleA) -> Forall message_ok texts ->
  linked a b sent kept -> composed a bundleB sent sent' texts envelopes ->
  safe true (fun h' r => relay_has a bundleA h' -> exists kept', linked a b sent' kept' /\
      r = Ok (kept', read ++ map (received a b) texts))
    h (read_envelopes b own envelopes kept read).
Proof.
  intros Ha Hb Fa%own_bundle_for Fb%own_bundle_for Ho Hm Hl Hc.
  apply profile_end in Ha as (A & sa & Ha). apply profile_end in Hb as (B & sb & Hb).
  by eapply (page_read a b A sa B sb bundleA bundleB true Ha Hb Fa Fb).
Qed.
End delivery.

(** ** What is shown after a poll *)

Section shown.
Implicit Types (m : RenderedMessage) (l : list RenderedMessage).

(** A message with an identifier and a time, as every composed one is. *)
Definition plain m : Prop := (exists id, rm_id m = Some (JStr id)) /\ (exists t, rm_createdAtMs m = Some (JNum t)).
Definition sent_at m : Z := match rm_createdAtMs m with Some (JNum t) => t | _ => 0 end.
Definition not_after m m' : Prop := sent_at m <= sent_at m'.
(** The last message with its identifier. *)
Definition latest m l : Prop := exists before after, l = before ++ m :: after /\ Forall (fun m' => rm_id m' <> rm_id m) after.

Lemma same_key_plain m m' : plain m -> same_key (rm_id m) (rm_id m') = bool_decide (rm_id m = rm_id m').
Proof. intros [[id E] _]. unfold same_key. by rewrite E. Qed.
Lemma earlier_plain m m' : plain m -> plain m' -> earlier m m' = (sent_at m <? sent_at m').
Proof. intros [_ [t E]] [_ [t' E']]. unfold earlier, sent_at. by rewrite E, E'. Qed.

Lemma put_ids m l : Forall plain l -> plain m -> NoDup (rm_id <$> l) ->
  NoDup (rm_id <$> put_message m l) /\ (forall x, x ∈ put_message m l <-> x = m \/ x ∈ l /\ rm_id x <> rm_id m).
Proof.
  intros Hl Hm. induction Hl as [|y l Hy Hl IH]; cbn [put_message fmap list_fmap]; intros Hn.
  - split; [apply NoDup_singleton|]. intros x. rewrite list_elem_of_singleton.
    split; [intros ->; by left|]. intros [-> | [Hx _]]; [done|by apply not_elem_of_nil in Hx].
  - apply NoDup_cons in Hn as [Hy' Hn]. rewrite same_key_plain by done. destruct (bool_decide_reflect (rm_id y = rm_id m)) as [E|E].
    + cbn. rewrite <- E. split; [by apply NoDup_cons|]. intros x. rewrite !elem_of_cons.
      assert (x ∈ l -> rm_id x <> rm_id y) by (intros Hx Hi; apply Hy'; rewrite <- Hi; by apply (list_elem_of_fmap_2 rm_id)).
      naive_solver.
    + destruct (IH Hn) as [IHn IHe]. cbn. split.
      * apply NoDup_cons. split; [|done]. intros (x & Ei & Hx)%list_elem_of_fmap. apply IHe in Hx as [->|[Hx _]]; [by apply E|].
        apply Hy'. rewrite Ei. by apply list_elem_of_fmap_2.
      * intros x. rewrite !elem_of_cons, IHe. naive_solver.
Qed.

Lemma latest_snoc x m l : latest x (l ++ [m]) <-> x = m \/ latest x l /\ rm_id x <> rm_id m.
Proof.
  split.
  - intros (before & after & E & Ha). destruct after as [|m' after _] using rev_ind.
    + apply app_inj_tail in E as [_ <-]. by left.
    + rewrite app_comm_cons, app_assoc in E. apply app_inj_tail in E as [-> <-].
      apply Forall_app in Ha as [Ha Hm]. apply Forall_cons in Hm as [Hm _]. right. split; [by exists before, after|congruence].
  - intros [->|[(before & after & -> & Ha) Hne]]; [exists l, []; by split|]. exists before, (after ++ [m]).
    rewrite <- app_assoc. split; [done|]. apply Forall_app. split; [done|]. apply Forall_cons_2; [congruence|apply List.Forall_nil].
Qed.
(** The list holds the last message of every identifier seen. *)
Definition holds_latest l seen : Prop := Forall plain l /\ NoDup (rm_id <$> l) /\ (forall x, x ∈ l <-> latest x seen).
Lemma put_latest ms l seen : Forall plain ms -> holds_latest l seen ->
  holds_latest (fold_left (fun l m => put_message m l) ms l) (seen ++ ms).
Proof.
  intros Hms. revert l seen. induction Hms as [|m ms Hm _ IH]; intros l seen (Hp & Hn & He); cbn [fold_left]; [by rewrite app_nil_r|].
  replace (seen ++ m :: ms) with ((seen ++ [m]) ++ ms) by by rewrite <- app_assoc. apply IH.
  destruct (put_ids m l Hp Hm Hn) as [Hn' He']. split; [|split; [done|]].
  - apply Forall_forall. intros x [->|[Hx _]]%He'; [done|]. by apply (proj1 (Forall_forall _ _) Hp).
  - intros x. rewrite He', latest_snoc, He. naive_solver.
Qed.

Lemma insert_perm m l : insert_by_time m l ≡ₚ m :: l.
Proof. induction l as [|x l IH]; cbn; [done|]. destruct (earlier m x); [done|]. rewrite IH. apply Permutation_swap. Qed.
Lemma insert_sorted m l : plain m -> Forall plain l -> Sorted not_after l -> Sorted not_after (insert_by_time m l).
Proof.
  intros Hm Hl. induction Hl as [|x l Hx Hl IH]; cbn [insert_by_time]; intros Hs; [by repeat constructor|].
  rewrite earlier_plain by done. destruct (Z.ltb_spec (sent_at m) (sent_at x)) as [Hlt|Hge].
  - constructor; [done|]. constructor. unfold not_after. lia.
  - inversion Hs as [|? ? Hs' Hh]; subst. constructor; [by apply IH|].
    destruct l as [|y l]; cbn [insert_by_time]; [by constructor|]. destruct (earlier m y); constructor; [done|].
    by inversion Hh.
Qed.
Lemma sort_latest l seen : holds_latest l seen -> holds_latest (sort_by_time l) seen /\ Sorted not_after (sort_by_time l).
Proof.
  intros (Hp & Hn & He).
  assert (forall l acc, Forall plain l -> Forall plain acc -> Sorted not_after acc ->
    fold_left (fun sorted m => insert_by_time m sorted) l acc ≡ₚ l ++ acc /\
    Sorted not_after (fold_left (fun sorted m => insert_by_time m sorted) l acc)) as Hfold.
  { clear. induction l as [|m l IH]; intros acc Hl Ha Hs; cbn [fold_left]; [done|]. apply Forall_cons in Hl as [Hm Hl].
    destruct (IH (insert_by_time m acc) Hl) as [IHp IHs]; [by rewrite insert_perm; apply Forall_cons|by apply insert_sorted|].
    split; [|done]. rewrite IHp, insert_perm. symmetry. apply Permutation_middle. }
  destruct (Hfold l [] Hp (List.Forall_nil _)) as [Hperm Hsorted]; [constructor|]. rewrite app_nil_r in Hperm.
  split; [|done]. unfold holds_latest, sort_by_time. split; [by rewrite Hperm|]. split; [by rewrite Hperm|].
  intros x. by rewrite Hperm.
Qed.
(** C39: What a poll leaves on the screen.  When the messages have identifiers and times, as all that
    were composed have, those shown after a poll are in order of time, no identifier is shown
    twice, and of the messages shown before and those just read, in this order, exactly the last
    one with each identifier is shown. *)
Theorem shown_after_poll current decrypted : Forall plain (current ++ decrypted) ->
  Sorted not_after (merge_messages current decrypted) /\ NoDup (rm_id <$> merge_messages current decrypted) /\
  (forall m, m ∈ merge_messages current decrypted <-> latest m (current ++ decrypted)).
Proof.
  intros [Hc Hd]%Forall_app. destruct (sort_latest (fold_left (fun l m => put_message m l) decrypted (by_id current)) (current ++ decrypted))
    as ((_ & Hn & He) & Hs); [|done].
  apply put_latest; [done|]. apply (put_latest current [] []); [done|]. split; [apply List.Forall_nil|].
  split; [apply NoDup_nil_2|]. intros x. split; [by intros ?%not_elem_of_nil|].
  intros ([|? ?] & after & E & _); discriminate E.
Qed.
End shown.

(** ** A phone that writes to itself *)

Module PhoneSample.
#[local] Existing Instances Toy.world_ops SessionSample.crypto SessionSample.suite.
#[export] Instance host : PhoneHost Toy.world := {|
  random_16_bits w := (w mod 65536, w + 1);
  random_text w := (js "0.5", w + 1);
  uuidv7 w := (Toy.uuid w, w + 1);
  exception_message e := match e with ErrOther message => message | _ => js "error" end;
  exception_text e := js "Error";
|}.
#[export] Instance crypto_laws : CryptoLaws.
Proof.
  split; cbn [sha256 sign_detached sign_detached_verify sign_keyPair_fromSeed SessionSample.crypto].
  - intros m. split; [apply Toy.pad_bytes|apply Toy.pad_length].
  - intros m sk sig [= <-]. apply Toy.pad_bytes.
  - intros s pk sk [= <- <-]. split; apply Toy.pad_bytes.
  - intros s pk sk m sig [= <- <-] [= <-]. by rewrite eqb_refl.
Qed.
#[export] Instance laws : PhoneLaws.
Proof.
  split; cbn [box_keyPair_fromSecretKey uuidv5_URL SessionSample.crypto].
  - intros s public secret [= <- <-]. split; apply Toy.pad_bytes.
  - intros _. split; [vm_compute; reflexivity|].
    assert (forallb (fun u => (45 <=? u) && (u <=? 102)) (js "110a486a-e330-43dd-8383-b1aa8b1cc353") = true) as E by (vm_compute; reflexivity).
    apply forallb_Forall' in E. eapply Forall_impl; [exact E|]. cbn. intros u. rewrite andb_true_iff, !Z.leb_le. lia.
Qed.
(** Moves of the demo: [render] after every click. *)
Definition clicked (e : event) : list (move (Q := question) (A := answer) (E := thrown) (L := event)) := [Occurs e; Occurs Rendered].
Definition told_ok (data : json) (q : question) : res thrown (answer q) :=
  match q with Fetch _ _ => Ok (JObj [(js "ok", JBool true); (js "data", data)]) end.
Definition answered (data : json) : list (move (Q := question) (A := answer) (E := thrown) (L := event)) :=
  [Answered 0 (told_ok data); Occurs Rendered].
Definition lost : list (move (Q := question) (A := answer) (E := thrown) (L := event)) :=
  [Answered 0 (fun q => Err (Own (js "Network request failed"))); Occurs Rendered].
Definition run (moves : list (move (Q := question) (A := answer) (E := thrown) (L := event))) :=
  play (event_handler true) (first_phone (0 : Toy.world)) moves.
Definition onboarded := clicked GenerateClicked ++ clicked SeedConfirmed ++ clicked PublishClicked ++ answered JNull ++ clicked Rendered.
Definition sent (text : jstr) := clicked (BodyTyped text) ++ clicked SendClicked.
(** The envelopes the phone asked the relay to store. *)
Definition envelopes_of (h : list exch) : list json :=
  omap (fun x => match projT1 x with
    | Fetch path (Some body) => if eqb path send_path then parse body ≫= field (js "envelope") else None
    | _ => None
    end) h.
Definition page (h : list exch) : json := JObj [(js "envelopes", JArr (envelopes_of h))].
Definition challenge : json := JObj [(js "challenge_id", JStr (js "c")); (js "nonce", JStr (js "n"))].
Definition polled_after moves := moves ++ clicked PollClicked ++ answered challenge ++ answered (page (run moves).1).
Definition shown (moves : list (move (Q := question) (A := answer) (E := thrown) (L := event))) : list (option json) * list (jstr * jstr) :=
  let p := shared (run moves).2 in (map rm_body (messages (vw_messaging (rendered p))), alerts p).
Definition one_sent := onboarded ++ sent (js "hello") ++ answered JNull ++ answered JNull.
Definition one_read := polled_after one_sent ++ answered JNull.
(** The relay stored the first message, but its answer is lost; the operator sends again. *)
Definition sent_twice := onboarded ++ sent (js "hello") ++ answered JNull ++ lost ++ clicked SendClicked ++ answered JNull.
(** A message of another phone, whose bundle cannot be fetched now. *)
Definition from_bob : json :=
  JObj [(js "envelope_id", JStr (js "e")); (js "sender_identity_id", JStr (js "bob")); (js "sender_device_id", JStr (js "b"));
        (js "ciphertext", JStr (js "sealed"))].
Definition bob_lost := onboarded ++ clicked PollClicked ++ answered JNull ++ answered challenge
  ++ answered (JObj [(js "envelopes", JArr [from_bob])]) ++ lost ++ answered JNull.
Definition asked moves : list jstr := map (fun x => match projT1 x with Fetch path _ => path end) (run moves).1.
Definition asks_ack moves : bool := existsb (eqb ack_path) (asked moves).
(** The acknowledgement of [one_read]. *)
Definition ack_asked : option jstr := match last (run one_read).1 with Some x => match projT1 x with Fetch _ body => body end | None => None end.

(** Two phones. *)
Definition no_profile : IdentityProfile := Build_IdentityProfile [] [] [] [] [] [] [] [] [] [].
Definition profile_of (seed : jstr) : IdentityProfile :=
  default no_profile (createIdentityProfile seed (js "mobile-device") []).
Definition alice : IdentityProfile := profile_of (js "alice").
Definition bob : IdentityProfile := profile_of (js "bob").
Definition bundle_made (p : IdentityProfile) : json := default JNull (createSignedPreKeyBundle p 1 1000 (js "bundle")).
Definition hello : composed_message := Composed (js "m1") (js "hello") 2000.
Definition again : composed_message := Composed (js "m2") (js "again") 2001.
Definition session_first : SessionState := ok_or (session_of JNull) (new_outbound alice (bundle_made bob) 1500).
Definition sealing (s : SessionState) (m : composed_message) : jstr * SessionState :=
  ok_or ([], s) (encryptMessage s
    (stringify (chat_message alice (field (js "identity_id") (bundle_made bob)) (cm_id m) (cm_time m) (cm_body m)))).
Definition signature_of (s : SessionState) (m : composed_message) : jstr :=
  default [] (signMailboxEnvelopeMessage (deriveMailboxId (template (field (js "identity_id") (bundle_made bob)))) (js "e")
    (identityId alice) (deviceUuid alice) (hashMailboxEnvelopeCiphertext (sealing s m).1) (cm_time m) (cm_time m + a_day)
    (inr (deviceSecretKey alice))).
Definition enveloped (s : SessionState) (m : composed_message) : json :=
  envelope_json alice (bundle_made bob) (js "e") (cm_id m) (sealing s m).1 (cm_time m) (signature_of s m).
Definition kept_after (s : SessionState) (sessions : list (jstr * jstr)) : list (jstr * jstr) :=
  JsMap.set (session_name (bundle_made bob)) (serializeSession s) sessions.
Definition session_next : SessionState := (sealing session_first hello).2.
Definition kept_next : list (jstr * jstr) := kept_after session_next [].
Definition kept_last : list (jstr * jstr) := kept_after (sealing session_next again).2 kept_next.
End PhoneSample.

(** Where the screens fall short.  A message whose sending was answered by nothing is sent again
    with the same key, nonce and number; the reader opens the first, fails at the second, keeps
    nothing of the page and acknowledges nothing, at every poll. *)
Lemma resent_message_blocks :
  last (PhoneSample.shown (PhoneSample.polled_after PhoneSample.sent_twice)).2 = Some (js "Error", js "unexpected message counter") /\
  PhoneSample.asks_ack (PhoneSample.polled_after PhoneSample.sent_twice) = false.
Proof. split; vm_compute; reflexivity. Qed.
(** A message of a sender whose bundle could not be fetched is acknowledged unread. *)
Lemma unread_message_acknowledged :
  (PhoneSample.shown PhoneSample.bob_lost).1 = [] /\ PhoneSample.asks_ack PhoneSample.bob_lost = true.
Proof. split; vm_compute; reflexivity. Qed.

(** ** Witnesses *)

#[local] Existing Instances Toy.world_ops SessionSample.crypto SessionSample.suite SessionSample.laws PhoneSample.host PhoneSample.crypto_laws PhoneSample.laws.
Lemma acknowledged_after_poll_witness :
  acknowledges (W := Toy.world) (take 5 (PhoneSample.run PhoneSample.one_read).1) PhoneSample.ack_asked.
Proof.
  refine (proj1 (acknowledged_after_poll true (0 : Toy.world) _ _
    (play_happens _ _ (first_phone (0 : Toy.world)) PhoneSample.one_read _)) _ _ (PhoneSample.told_ok JNull (Fetch ack_path PhoneSample.ack_asked)) [] _).
  - intros e. reflexivity.
  - vm_compute. reflexivity.
Defined.
Lemma shown_after_poll_witness :
  NoDup (rm_id <$> merge_messages [received PhoneSample.alice PhoneSample.bob PhoneSample.again]
    [received PhoneSample.alice PhoneSample.bob PhoneSample.again; received PhoneSample.alice PhoneSample.bob PhoneSample.hello]).
Proof.
  refine (proj1 (proj2 (shown_after_poll _ _ _))).
  repeat (apply Forall_cons_2; [split; eexists; reflexivity|]). apply List.Forall_nil.
Defined.
Lemma page_is_read_witness :
  holds (fun (_ : list exch) (_ : phone Toy.world) => True) (may_ask (W := Toy.world) true)
    (fun h' r => relay_has PhoneSample.alice (PhoneSample.bundle_made PhoneSample.alice) h' -> exists kept',
      linked PhoneSample.alice PhoneSample.bob PhoneSample.kept_last kept' /\
      r = Ok (kept', map (received PhoneSample.alice PhoneSample.bob) [PhoneSample.hello; PhoneSample.again]))
    [] (read_envelopes PhoneSample.bob (PhoneSample.bundle_made PhoneSample.bob)
         [PhoneSample.enveloped PhoneSample.session_first PhoneSample.hello; PhoneSample.enveloped PhoneSample.session_next PhoneSample.again] [] []).
Proof.
  refine (page_is_read (js "alice") [] PhoneSample.alice (js "bob") [] PhoneSample.bob 1 1000 (js "bundle") (PhoneSample.bundle_made PhoneSample.alice)
    1 1000 (js "bundle") (PhoneSample.bundle_made PhoneSample.bob) (PhoneSample.bundle_made PhoneSample.bob) [] PhoneSample.kept_last
    [PhoneSample.hello; PhoneSample.again]
    [PhoneSample.enveloped PhoneSample.session_first PhoneSample.hello; PhoneSample.enveloped PhoneSample.session_next PhoneSample.again]
    [] [] [] _ _ _ _ _ _ _ _).
  - vm_compute. reflexivity.
  - vm_compute. reflexivity.
  - vm_compute. reflexivity.
  - vm_compute. reflexivity.
  - intros E. exfalso. vm_compute in E. discriminate E.
  - repeat (apply Forall_cons_2; [split; vm_compute; reflexivity|]). apply List.Forall_nil.
  - left. split; vm_compute; reflexivity.
  - eapply (composed_one _ _ _ PhoneSample.kept_next).
    + exists PhoneSample.session_first, (PhoneSample.sealing PhoneSample.session_first PhoneSample.hello).1, (PhoneSample.sealing PhoneSample.session_first PhoneSample.hello).2, (js "e"), (PhoneSample.signature_of PhoneSample.session_first PhoneSample.hello).
      split; [right; split; [vm_compute; reflexivity|exists 1500; vm_compute; reflexivity]|]. split; [vm_compute; reflexivity|].
      split; [vm_compute; reflexivity|]. split; reflexivity.
    + eapply (composed_one _ _ _ PhoneSample.kept_last); [|apply composed_none].
      exists PhoneSample.session_next, (PhoneSample.sealing PhoneSample.session_next PhoneSample.again).1, (PhoneSample.sealing PhoneSample.session_next PhoneSample.again).2, (js "e"), (PhoneSample.signature_of PhoneSample.session_next PhoneSample.again).
      split; [left; vm_compute; reflexivity|]. split; [vm_compute; reflexivity|].
      split; [vm_compute; reflexivity|]. split; reflexivity.
Defined.
