(* ===== verification/Service.v ===== *)
(** * Running the station and the repeater: [apps/cli/src/operator/station.ts], [repeater.ts]

    [echolet station] (start, stop, status, open) and [echolet repeater].  Docker, the browser,
    a child on the terminal and the HTTP client are parameters ([Desktop]); what their callbacks
    print is a definition of its own.  Theorems: the arguments the station is started with are
    read by its server as what was meant; what the repeater's setup wrote is what its start
    runs; a refused configuration runs nothing.  The setup of a station is in [Setup]. *)

From stdpp Require Import gmap.
From S2P Require Import Prelude JsString Json JsMap Zod Protocol Platform Effects NodePath Signal Config Server.
From S2P Require Import Outbound Files Home Daemon Repeater Operator.

Class Desktop (W : Type) := {
  (** [process.platform] *)
  platform : W -> jstr;
  (** [exec(command, () => {})], now or after some milliseconds *)
  exec_quietly : Z -> jstr -> W -> W;
  (** [spawn] of a child on the terminal *)
  spawn_inherit : jstr -> list jstr -> list (jstr * jstr) -> W -> W;
  (** [execFileSync("docker", args, ...)] with its directory: the output, or a throw *)
  docker_run : list jstr -> option jstr -> W -> option jstr * W;
  (** [http.get(url, ...)] *)
  http_get : jstr -> W -> W;
}.

Section service.
Context {W : Type} `{!World W} `{!ProcessHost W} `{!Desktop W} `{Zod} `{UrlParser}.
(** The operator's directory, the working directory, the directory of the program, the path of
    node and the path of the script it runs. *)
Context (home cwd HERE execPath : jstr) (script : option jstr).
Abbreviation Op := (M (machine W)).

Definition includes (args : list jstr) (flags : list jstr) : bool := existsb (fun a => existsb (eqb a) flags) args.
Definition quoted (s : jstr) : jstr := 34 :: s ++ [34].

(** ** The station *)

Definition readStationProfileConfig (profileDir : jstr) : Op json :=
  text <- fs_read (path_join [profileDir; js "config.json"]);
  input <- from_option (js "SyntaxError") (parse text);
  lift (parseClientConfig input).
Definition candidates : list jstr :=
  [ path_resolve cwd [HERE; js "../web-dist/server.js"]; path_resolve cwd [HERE; js "./web-dist/server.js"];
    path_resolve cwd [HERE; js "../../web/dist/server.js"]; path_resolve cwd [HERE; js "../../../apps/web/dist/server.js"] ].
Definition resolveWebServerPath : Op jstr :=
  gets (fun s => default_to (path_resolve cwd [HERE; js "../../web/dist/server.js"])
                   (List.find (fun c => match m_files s !! c with Some _ => true | None => false end) candidates)).
Definition browser_command (platform url : jstr) : jstr :=
  (if eqb platform (js "darwin") then js "open " else if eqb platform (js "win32") then js "start " else js "xdg-open ") ++ quoted url.
Definition openBrowser (delay : Z) (url : jstr) : Op unit :=
  on_world (fun w => (tt, exec_quietly delay (browser_command (platform w) url) w)).
Definition station_url (port : Z) : jstr := js "http://127.0.0.1:" ++ show_Z port.
(** [parseInt(portArg, 10) || 3001] *)
Definition station_port (args : list jstr) : Z :=
  match after_flag (js "--port") args with
  | Some portArg => match parseInt10 portArg with Some port => if port =? 0 then 3001 else port | None => 3001 end
  | None => 3001
  end.
Definition station_args (serverScript : jstr) (port : Z) (profileDir label : jstr) (config : json) : list jstr :=
  [ serverScript; js "--port"; show_Z port; js "--profile"; profileDir; js "--label"; label;
    js "--relay-url"; str_field (js "relay_url") config; js "--store-key-env"; str_field (js "store_key_env") config ].
Definition station_env (config : json) (storeKey : jstr) : list (jstr * jstr) :=
  [ (str_field (js "store_key_env") config, storeKey);
    (js "ECHOLET_CLI_PATH", match script with Some (u :: path) => u :: path | _ => path_resolve cwd [HERE; js "../dist/cli.js"] end) ].
Definition no_stations : jstr := js "Ошибка: нет созданных станций. Сначала выполните: echolet station".
Definition station_start (args : list jstr) : Op unit :=
  config <- getGlobalConfig home;
  active <- config_member (js "activeProfile") config;
  target <- or_else active (first_profile home);
  let target := match after_flag (js "--profile") args with Some name => Some (JStr name) | None => target end in
  match target with
  | None => complain no_stations;; exit_process 1
  | Some target =>
      if negb (truthy target) then complain no_stations;; exit_process 1
      else
        let port := station_port args in
        let shouldOpen := includes args [js "--open"; js "-o"] in
        name <- as_string target;
        let profileDir := getProfileDir home name in
        let keyPath := getStoreKeyPath home name in
        there <- fs_exists keyPath;
        if negb there then complain (js "Ошибка: ключ хранилища " ++ keyPath ++ js " не найден.");; exit_process 1
        else
          key <- fs_read keyPath;
          let storeKey := trim key in
          profileConfig <- readStationProfileConfig profileDir;
          serverScript <- resolveWebServerPath;
          found <- fs_exists serverScript;
          if negb found
          then complain (js "Ошибка: веб-сервер не найден по пути " ++ serverScript ++ js ".");;
               complain (js "Запустите сборку: pnpm --filter @echolet/web build");; exit_process 1
          else
            let serverArgs := station_args serverScript port profileDir name profileConfig in
            let env := station_env profileConfig storeKey in
            if includes args [js "--daemon"; js "-d"]
            then
              status <- getDaemonStatus home (js "station");
              if ds_running status
              then say (js "⚠️ Станция уже запущена (PID: " ++ match ds_pid status with Some pid => show_Z pid | None => js "undefined" end
                        ++ js "). Порт: " ++ station_url port);;
                   when shouldOpen (openBrowser 0 (station_url port))
              else
                daemon <- startDaemon home (js "station") execPath serverArgs env;
                say (10 :: js "🚀 Станция " ++ quoted name ++ js " запущена в фоновом режиме (PID: " ++ show_Z (st_pid daemon) ++ js ")");;
                say (js "   Адрес интерфейса: " ++ station_url port);;
                say (js "   Файл журнала:     " ++ st_logPath daemon ++ [10]);;
                when shouldOpen (openBrowser 0 (station_url port))
            else
              say (10 :: js "🚀 Запуск станции " ++ quoted name ++ js " на " ++ station_url port ++ js "... (Ctrl+C для остановки)" ++ [10]);;
              when shouldOpen (openBrowser 800 (station_url port));;
              environment <- gets (fun s => merged_env env (m_environment s));
              on_world (fun w => (tt, spawn_inherit execPath serverArgs environment w))
  end.
(** The child on the terminal ends: [code] is [None] after a signal. *)
Definition station_child_exit (code : option Z) : Op unit := exit_process (default_to 0 code).
Definition station_stop : Op unit :=
  res <- stopDaemon home (js "station");
  match res with
  | Some pid => say (js "🛑 Станция успешно остановлена (бывший PID: " ++ show_Z pid ++ js ").")
  | None => say (js "ℹ️ Станция не запущена (Daemon is not running).")
  end.
Definition station_status : Op unit :=
  status <- getDaemonStatus home (js "station");
  config <- getGlobalConfig home;
  say (10 :: js "📊 СТАТУС ВЕБ-СТАНЦИИ ECHOLET:");;
  active <- config_member (js "activeProfile") config;
  say (js "  Активный профиль: " ++ match active with Some v => if truthy v then to_text v else js "не выбран" | None => js "не выбран" end);;
  (if ds_running status
   then say (js "  Состояние:        🟢 Работает (PID: " ++ match ds_pid status with Some pid => show_Z pid | None => js "undefined" end ++ js ")");;
        say (js "  Лог-файл:         " ++ ds_logPath status)
   else say (js "  Состояние:        ⚪ Остановлена"));;
  say [].
Definition station_open (args : list jstr) : Op unit :=
  let port := station_port args in
  openBrowser 0 (station_url port);;
  say (js "Открываем интерфейс станции: " ++ station_url port).

(** ** The repeater *)

(** [docker(args, ...)], which throws; and in a [try] of its own. *)
Definition docker (args : list jstr) : Op jstr := out <- on_world (docker_run args None); from_option (js "Error") out.
Definition docker_in (dir : jstr) (args : list jstr) : Op jstr := out <- on_world (docker_run args (Some dir)); from_option (js "Error") out.
Definition quietly (m : Op unit) : Op unit := catch m (fun _ => ret tt).

(** Asks until the answer is valid. *)
Definition out_of_fuel : err := ErrOther (js "out of fuel").
Fixpoint ask_valid {A} (fuel : nat) (question fallback : jstr) (validate : jstr -> res jstr A) : Op A :=
  match fuel with
  | O => throw out_of_fuel
  | S fuel =>
      answer <- ask question fallback;
      match validate answer with
      | Ok value => ret value
      | Err message => complain (js "❌ " ++ message);; ask_valid fuel question fallback validate
      end
  end.
(** Every invalid answer is a line of the input, and its end gives the fallback. *)
Definition askValid {A} (question fallback : jstr) (validate : jstr -> res jstr A) : Op A :=
  fun s => ask_valid (S (length (m_input s))) question fallback validate s.

Definition env_path : jstr := path_join [getRepeaterDir home; js "config.env"].
Definition data_path : jstr := path_join [getRepeaterDir home; js "data"].
Definition modes : list choice :=
  [ Choice (js "Docker (Изолированный легковесный контейнер)") (js "docker");
    Choice (js "Tailscale Mesh (Приватная зашифрованная сеть с TLS)") (js "tailscale");
    Choice (js "Локальный процесс Go (для разработки)") (js "native") ].
Definition ask_tls : Op (jstr * jstr) :=
  tailHost <- askValid (js "Доменное имя хоста в Tailscale (например, my-node.tailnet.ts.net)") [] (validateEnvValue (js "хоста Tailscale"));
  tlsCert <- askValid (js "Путь к cert.pem") (js "/etc/echolet/tls/" ++ tailHost ++ js ".crt") (validateEnvValue (js "ECHOLET_TLS_CERT_FILE"));
  tlsKey <- askValid (js "Путь к key.pem") (js "/etc/echolet/tls/" ++ tailHost ++ js ".key") (validateEnvValue (js "ECHOLET_TLS_KEY_FILE"));
  ret (tlsCert, tlsKey).
Definition repeater_setup : Op unit :=
  say (10 :: js "=== 📡 НАСТРОЙКА ЛОКАЛЬНОГО РЕПИТЕРА ECHOLET ===" ++ [10]);;
  callsign <- askValid (js "Позывной репитера (Callsign)") (js "REPEATER-01") validateCallsign;
  port <- askValid (js "Порт для входящих соединений") (show_Z DEFAULT_REPEATER_PORT) validatePort;
  mode <- askChoice (js "Выберите режим развёртывания:") modes 0;
  '(tlsCert, tlsKey) <- (if eqb mode (js "tailscale") then ask_tls else ret ([], []));
  match formatEnvFile (setup_entries callsign port data_path mode tlsCert tlsKey) with
  | Err message => fail message
  | Ok envContent =>
      fs_mkdir data_path private_dir;;
      fs_write env_path envContent private_file;;
      say (10 :: js "✅ Конфигурация сохранена в: " ++ env_path);;
      say (js "Запустите узел командой: echolet repeater start" ++ [10])
  end.

Definition relay_command : list jstr := [js "run"; js "./apps/relay/cmd/relay"].
Definition start_docker (config : RepeaterStartConfig) : Op unit :=
  let port := show_Z (rc_port config) in
  say (js "🐳 Запуск репитера " ++ quoted (rc_callsign config) ++ js " в Docker на порту " ++ port ++ js "...");;
  version <- on_world (docker_run [js "--version"] None);
  match version with
  | None => complain (js "❌ Ошибка: Docker не найден в PATH. Установите Docker или используйте нативный режим.");; exit_process 1
  | Some _ =>
      images <- on_world (docker_run [js "images"; js "-q"; REPEATER_IMAGE] None);
      let imageExists := match option_map trim images with Some (_ :: _) => true | _ => false end in
      when (negb imageExists)
        (say (js "🔨 Образ " ++ REPEATER_IMAGE ++ js " не найден. Запускаю сборку...");;
         docker_in (path_join [HERE; js "../../.."]) [js "build"; js "-t"; REPEATER_IMAGE; js "-f"; js "apps/relay/Dockerfile"; js "apps/relay"];; ret tt);;
      quietly (docker [js "rm"; js "-f"; REPEATER_CONTAINER_NAME];; ret tt);;
      fs_mkdir data_path private_dir;;
      id <- docker (buildDockerRunArgs config data_path);
      say (js "✅ Контейнер репитера успешно запущен: " ++ take 12 (trim id));;
      say (js "📡 Адрес узла: http://127.0.0.1:" ++ port);;
      say (js "Проверить статус: echolet repeater status")
  end.
Definition start_native (isDaemon : bool) (config : RepeaterStartConfig) : Op unit :=
  let port := show_Z (rc_port config) in
  say (js "🚀 Запуск нативного Go-репитера на порту " ++ port ++ js "...");;
  status <- getDaemonStatus home (js "repeater");
  if ds_running status
  then say (js "⚠️ Репитер уже запущен (PID: " ++ match ds_meta status with Some meta => show_Z (dm_pid meta) | None => js "undefined" end ++ js ")")
  else
    env <- gets (fun s => merged_env [ (js "ECHOLET_HTTP_ADDR", js ":" ++ port); (js "ECHOLET_DATA_DIR", data_path);
                                       (js "ECHOLET_NODE_CALLSIGN", rc_callsign config) ] (m_environment s));
    if isDaemon
    then meta <- startDaemonProcess home (js "repeater") (js "go") relay_command env (Some (rc_port config)) None;
         say (js "✅ Фоновый репитер запущен (PID: " ++ show_Z (dm_pid meta) ++ js ") на порту " ++ port ++ js ".");;
         say (js "Логи: echolet repeater logs")
    else on_world (fun w => (tt, spawn_inherit (js "go") relay_command env w)).
(** The child on the terminal ends. *)
Definition repeater_child_exit (code : option Z) : Op unit :=
  say (js "Репитер остановлен с кодом: " ++ match code with Some code => show_Z code | None => js "null" end).
Definition repeater_start (args : list jstr) : Op unit :=
  there <- fs_exists env_path;
  cfg <- (if there : bool then text <- fs_read env_path; ret (parseEnvFile text) else ret []);
  match resolveStartConfig cfg with
  | Err message =>
      complain (js "❌ " ++ message);;
      complain (js "Исправьте " ++ env_path ++ js " или выполните: echolet repeater setup");;
      modify (with_exit 1)
  | Ok config =>
      let mode := if includes args [js "--docker"] then js "docker" else setting (js "ECHOLET_MODE") (js "docker") cfg in
      if eqb mode (js "docker") then start_docker config else start_native (includes args [js "--daemon"; js "-d"]) config
  end.
Definition repeater_stop : Op unit :=
  quietly (docker [js "stop"; REPEATER_CONTAINER_NAME];;
           docker [js "rm"; REPEATER_CONTAINER_NAME];;
           say (js "🛑 Docker-контейнер echolet-relay остановлен."));;
  res <- stopDaemon home (js "repeater");
  match res with Some pid => say (js "Daemon repeater (PID " ++ show_Z pid ++ js ") stopped.") | None => ret tt end.
Definition repeater_status : Op unit :=
  say (10 :: js "=== 📡 СТАТУС РЕПИТЕРА ECHOLET ===");;
  out <- on_world (docker_run [js "ps"; js "--filter"; js "name=" ++ REPEATER_CONTAINER_NAME; js "--format"; js "{{.Status}}"] None);
  let running := match option_map trim out with Some (_ :: _) => true | _ => false end in
  when running (say (js "  🐳 Docker-контейнер: РАБОТАЕТ (" ++ default_to [] (option_map trim out) ++ js ")"));;
  status <- getDaemonStatus home (js "repeater");
  (match ds_running status, ds_meta status with
   | true, Some meta => say (js "  🚀 Нативный процесс: РАБОТАЕТ (PID: " ++ show_Z (dm_pid meta) ++ js ", Порт: " ++ template (dm_port meta) ++ js ")")
   | _, _ => when (negb running) (say (js "  ⚪ Репитер не запущен."))
   end);;
  on_world (fun w => (tt, http_get (js "http://127.0.0.1:8081/health") w));;
  say [].
(** A piece of the answer to the question after the repeater's health. *)
Definition health_answered (chunk : bytes) : Op unit := say (js "  🩺 Ответ /health: " ++ trim (utf8_to_string chunk)).
Definition repeater_logs : Op unit :=
  catch (docker [js "logs"; js "--tail"; js "50"; js "-f"; REPEATER_CONTAINER_NAME];; ret tt)
    (fun _ =>
       let logFile := getLogPath home (js "repeater") in
       there <- fs_exists logFile;
       if there : bool
       then text <- fs_read logFile;
            let lines := split_on 10 text in say (join [10] (drop (length lines - 50) lines))
       else say (js "Логи не найдены.")).
Definition handleRepeaterCommand (args : list jstr) : Op unit :=
  let sub := match arg args 0 with Some (u :: sub) => u :: sub | _ => js "status" end in
  ensureGlobalDirs home;;
  if eqb sub (js "setup") then repeater_setup
  else if eqb sub (js "start") then repeater_start args
  else if eqb sub (js "stop") then repeater_stop
  else if eqb sub (js "status") then repeater_status
  else if eqb sub (js "logs") then repeater_logs
  else say (js "Неизвестная подкоманда: " ++ sub ++ js ". Доступно: setup, start, stop, status, logs").

(** ** Questions end *)

Definition answer_of (defaultValue : jstr) (input : list jstr) : jstr :=
  match input with l :: _ => match trim l with [] => defaultValue | answer => answer end | [] => defaultValue end.
Lemma ask_run question defaultValue (s : machine W) : exists s', ask question defaultValue s = (Ok (answer_of defaultValue (m_input s)), s') /\
  m_input s' = tail (m_input s) /\ m_files s' = m_files s.
Proof.
  unfold ask, answer_of. set (text := prompt_text _ _). clearbody text. unfold say, modify, next_line, bind. cbn [m_input].
  destruct (m_input s) as [|l rest]; cbn [option_map]; [|destruct (trim l)]; unfold ret; by eexists.
Qed.
Lemma ask_valid_ends {A} fuel question fallback (validate : jstr -> res jstr A) value (s : machine W) :
  validate fallback = Ok value -> (length (m_input s) < fuel)%nat ->
  exists v s', ask_valid fuel question fallback validate s = (Ok v, s') /\ m_files s' = m_files s /\
    exists input, validate (answer_of fallback input) = Ok v.
Proof.
  intros Hf. revert s. induction fuel as [|fuel IH]; intros s Hl; [lia|]. cbn [ask_valid].
  destruct (ask_run question fallback s) as (s1 & E & Hi & Hfs). rewrite (bind_run _ _ _ _ _ E).
  destruct (validate (answer_of fallback (m_input s))) as [v|message] eqn:Ev; [exists v, s1; split; [done|]; split; [done|]; by exists (m_input s)|].
  rewrite (bind_run (complain _) _ s1 tt _ eq_refl). destruct (m_input s) as [|l rest] eqn:Em; [cbn [answer_of] in Ev; congruence|].
  match goal with |- exists v s', _ ?t = _ /\ _ => destruct (IH t) as (v & s2 & E2 & Hf2 & Hv) end.
  { cbn [m_input]. rewrite Hi. cbn [tail length] in *. lia. }
  exists v, s2. split; [exact E2|]. split; [|exact Hv]. rewrite Hf2. cbn [m_files]. exact Hfs.
Qed.

(** A question is answered.  When the fallback is valid, asking until the answer is valid
    ends, after at most as many questions as lines were typed and one more, with the value of a
    valid answer, and changes no file. *)
Theorem question_ends {A} question fallback (validate : jstr -> res jstr A) value (s : machine W) :
  validate fallback = Ok value ->
  exists v s', askValid question fallback validate s = (Ok v, s') /\ m_files s' = m_files s /\
    exists input, validate (answer_of fallback input) = Ok v.
Proof. intros Hf. apply (ask_valid_ends _ question fallback validate value s Hf). lia. Qed.

(** ** What the setup writes, the start runs *)

Lemma chosen_value (l : list choice) (c : choice) i raw : chosen (c :: l) i raw ∈ map ch_value (c :: l).
Proof.
  unfold chosen. set (selected := match parseInt10 raw with Some num => _ | None => None end).
  assert (forall d, selected = Some d -> d ∈ c :: l) as Hs.
  { intros d. subst selected. destruct (parseInt10 raw) as [num|]; [|done]. destruct (_ && _); [|done]. apply list_elem_of_lookup_2. }
  destruct selected as [d|]; [by apply list_elem_of_fmap_2, Hs|].
  destruct ((c :: l) !! i) as [d|] eqn:E; [by eapply list_elem_of_fmap_2, list_elem_of_lookup_2|]. cbn. by left.
Qed.
Lemma asked_valid {A} question fallback (validate : jstr -> res jstr A) value v (s s' : machine W) :
  validate fallback = Ok value -> askValid question fallback validate s = (Ok v, s') -> exists answer, validate answer = Ok v.
Proof.
  intros Hf E. destruct (ask_valid_ends (S (length (m_input s))) question fallback validate value s Hf ltac:(lia)) as (v' & s2 & E' & _ & input & Hv).
  unfold askValid in E. rewrite E in E'. injection E' as <- <-. by eexists.
Qed.
Lemma asked_mode question i (s s' : machine W) mode : askChoice question modes i s = (Ok mode, s') -> mode ∈ map ch_value modes.
Proof.
  unfold askChoice. intros (? & s1 & _ & (? & s2 & _ & (raw & s3 & _ & [= <- _])%bind_ok)%bind_ok)%bind_ok. apply chosen_value.
Qed.
Lemma mode_values : Forall (fun mode => eqb (trim mode) mode && negb (eqb mode []) = true) (map ch_value modes).
Proof. repeat (apply Forall_cons_2; [vm_compute; reflexivity|]). apply Forall_nil_2. Qed.
Lemma fallbacks : is_ok (validateCallsign (js "REPEATER-01")) = true /\ is_ok (validatePort (show_Z DEFAULT_REPEATER_PORT)) = true.
Proof. split; vm_compute; reflexivity. Qed.
Lemma is_ok_value {E A} (r : res E A) : is_ok r = true -> exists a, r = Ok a.
Proof. destruct r; [by eexists|done]. Qed.

(** C36: What [repeater setup] wrote, [repeater start] runs.  Whenever the setup succeeds, whatever
    was typed, the file it leaves is accepted by the start: it gives a callsign and a port, and
    one of the three modes of operation. *)
Theorem repeater_setup_startable (s s' : machine W) :
  repeater_setup s = (Ok tt, s') ->
  exists text config mode, read_content env_path (m_files s') = Some text /\
    resolveStartConfig (parseEnvFile text) = Ok config /\ 1 <= rc_port config <= 65535 /\
    mode ∈ map ch_value modes /\ setting (js "ECHOLET_MODE") (js "docker") (parseEnvFile text) = mode.
Proof.
  destruct fallbacks as [[c0 Hc0]%is_ok_value [p0 Hp0]%is_ok_value]. unfold repeater_setup.
  intros ([] & s1 & _ & (callsign & s2 & Ec & (port & s3 & Ep & (mode & s4 & Em & Hrun)%bind_ok)%bind_ok)%bind_ok)%bind_ok.
  apply (asked_valid _ _ _ _ _ _ _ Hc0) in Ec as (a & Ha). apply (asked_valid _ _ _ _ _ _ _ Hp0) in Ep as (b & Hb).
  apply asked_mode in Em. apply bind_ok in Hrun as ([tlsCert tlsKey] & s5 & _ & Hrun).
  destruct (formatEnvFile (setup_entries callsign port data_path mode tlsCert tlsKey)) as [text|] eqn:Ef; [|done].
  destruct (setup_read_by_start a b data_path mode tlsCert tlsKey callsign port text Ha Hb Ef) as [Hr Hm].
  pose proof mode_values as Hv. rewrite Forall_forall in Hv. specialize (Hv mode Em). apply andb_true_iff in Hv as [Ht%eqb_true Hne%negb_true_iff].
  apply bind_ok in Hrun as ([] & s6 & _ & Hrun). apply bind_ok in Hrun as ([] & s7 & (m & Hw & _ & _)%fs_write_ok & Hrun).
  exists text, (StartConfig callsign port), mode. split; [|split; [exact Hr|split; [by apply (validatePort_spec b)|split; [exact Em|]]]].
  - unfold say, modify, bind in Hrun. injection Hrun as <-. cbn [m_files]. by rewrite Hw, read_content_insert, decide_True.
  - by rewrite Hm, Ht, Hne.
Qed.

(** A refused configuration starts nothing.  When the environment file holds no valid callsign
    or port, [repeater start] starts neither a container nor a process, writes no file, and
    leaves the exit code 1. *)
Theorem refused_start_runs_nothing args text message (s : machine W) :
  calm s -> read_content env_path (m_files s) = Some text -> resolveStartConfig (parseEnvFile text) = Err message ->
  exists s', repeater_start args s = (Ok tt, s') /\ m_world s' = m_world s /\ m_files s' = m_files s /\ m_exitCode s' = Some 1.
Proof.
  intros Hs Hr He. assert (exists mode, m_files s !! env_path = Some (FileNode text mode)) as [mode Ef].
  { unfold read_content in Hr. destruct (m_files s !! env_path) as [[c m|]|]; [|done|done]. injection Hr as ->. by eexists. }
  unfold repeater_start. rewrite (bind_run (fs_exists env_path) _ s _ s eq_refl), Ef.
  destruct (fs_read_total env_path text mode s Hs Ef) as (s1 & E1 & Hf1 & _).
  assert (m_world s1 = m_world s) as Hw.
  { unfold fs_read in E1. apply fs_try_ok in E1 as (_ & _ & _ & Hsame). by destruct Hsame as (_ & _ & _ & _ & ?). }
  rewrite (bind_run _ _ s (parseEnvFile text) s1) by (by rewrite (bind_run _ _ _ _ _ E1)). rewrite He.
  eexists. split; [reflexivity|]. by split_and!.
Qed.

(** ** What the station is started with, its server reads *)

Lemma get_merged key env environment : key ∉ env.*1 -> get key (merged_env env environment) = get key environment.
Proof.
  unfold merged_env. revert environment. induction env as [|[k v] env IH]; intros environment; [done|]. cbn [fold_left fmap list_fmap fst snd].
  rewrite not_elem_of_cons. intros [Hk Hn]. rewrite IH by done. by rewrite get_set_ne.
Qed.
Lemma server_options cwd' c :
  (forall port, set_config cwd' (js "--port") port c = Some (MkServerConfig (parseInt10 port) (profileDir c) (label c) (relayUrl c) (storeKeyEnv c) (cliPath c))) /\
  (forall dir, set_config cwd' (js "--profile") dir c = Some (MkServerConfig (port c) (path_resolve cwd' [dir]) (label c) (relayUrl c) (storeKeyEnv c) (cliPath c))) /\
  (forall l, set_config cwd' (js "--label") l c = Some (MkServerConfig (port c) (profileDir c) l (relayUrl c) (storeKeyEnv c) (cliPath c))) /\
  (forall u, set_config cwd' (js "--relay-url") u c = Some (MkServerConfig (port c) (profileDir c) (label c) u (storeKeyEnv c) (cliPath c))) /\
  (forall e, set_config cwd' (js "--store-key-env") e c = Some (MkServerConfig (port c) (profileDir c) (label c) (relayUrl c) e (cliPath c))).
Proof. split; [|split; [|split; [|split]]]; intros x; vm_compute; reflexivity. Qed.

Lemma parse_option cwd' flag value rest c c' : value <> [] -> set_config cwd' flag value c = Some c' ->
  parse_args cwd' (flag :: value :: rest) c = parse_args cwd' rest c'.
Proof. intros Hv E. destruct value; [done|]. cbn [parse_args]. by rewrite E. Qed.
(** The station's server is started with what was meant.  For a plain directory and callsign,
    a positive port and a configuration with an address and the name of a variable, the server
    reads its argument vector as that port, the profile's directory, the callsign, the address
    and the variable, whatever they look like; and the child's environment holds the key under
    that variable. *)
Theorem station_arguments_read root name serverScript p config storeKey environment cwd' cli :
  plain_path root -> home = absolute_path root -> plain_segment name = true -> 0 < p ->
  str_field (js "relay_url") config <> [] -> str_field (js "store_key_env") config <> [] ->
  str_field (js "store_key_env") config <> js "ECHOLET_CLI_PATH" ->
  parseArgv cwd' cli (tail (station_args serverScript p (getProfileDir home name) name config)) =
    MkServerConfig (Some p) (getProfileDir home name) name (str_field (js "relay_url") config) (str_field (js "store_key_env") config) cli /\
  get (str_field (js "store_key_env") config) (merged_env (station_env config storeKey) environment) = Some storeKey.
Proof.
  intros Hroot -> Hn Hp Hu He Hcli. split.
  2:{ unfold station_env. change ((?a, ?b) :: ?l) with ([(a, b)] ++ l). unfold merged_env. rewrite fold_left_app. fold (merged_env [(str_field (js "store_key_env") config, storeKey)] environment).
      rewrite get_merged; [cbn [merged_env fold_left fst snd]; apply get_set_eq|]. cbn [fmap list_fmap fst]. by rewrite list_elem_of_singleton. }
  rewrite (profile_dir root Hroot) by done. assert (path_resolve cwd' [absolute_path (root ++ [js "profiles"; name])] = absolute_path (root ++ [js "profiles"; name])) as Hd
    by (by apply resolve_plain, profile_plain).
  assert (absolute_path (root ++ [js "profiles"; name]) <> []) as Hdn by done. assert (name <> []) as Hnn by (by intros ->).
  pose proof (show_Z_nonempty p) as Hpn. pose proof (parseInt10_show p Hp) as Hpi. unfold parseArgv, station_args. cbn [tail].
  destruct (server_options cwd' (default_config cwd' cli)) as (E1 & _). rewrite (parse_option _ _ _ _ _ _ Hpn (E1 _)). clear E1.
  match goal with |- parse_args _ _ ?c = _ => destruct (server_options cwd' c) as (_ & E & _) end. rewrite (parse_option _ _ _ _ _ _ Hdn (E _)). clear E.
  match goal with |- parse_args _ _ ?c = _ => destruct (server_options cwd' c) as (_ & _ & E & _) end. rewrite (parse_option _ _ _ _ _ _ Hnn (E _)). clear E.
  match goal with |- parse_args _ _ ?c = _ => destruct (server_options cwd' c) as (_ & _ & _ & E & _) end. rewrite (parse_option _ _ _ _ _ _ Hu (E _)). clear E.
  match goal with |- parse_args _ _ ?c = _ => destruct (server_options cwd' c) as (_ & _ & _ & _ & E) end. rewrite (parse_option _ _ _ _ _ _ He (E _)). clear E.
  cbn [parse_args profileDir label relayUrl storeKeyEnv cliPath port]. rewrite Hd, Hpi. reflexivity.
Qed.
End service.

(** ** Witnesses *)
Module ServiceSample.
Import Toy.
Definition desktop : Desktop Toy.world := {|
  platform _ := js "linux"; exec_quietly _ _ w := w + 1; spawn_inherit _ _ _ w := w + 1;
  docker_run _ _ w := (Some (js "id"), w + 10); http_get _ w := w |}.
Definition root : list jstr := [js "home"; js "op"].
Definition home : jstr := absolute_path root.
Definition dir_of (path : jstr) : jstr * node := (path, DirNode private_dir).
Definition state (config : list (jstr * node)) (input : list jstr) : machine Toy.world :=
  Machine (list_to_map (config ++ [dir_of (js "/home"); dir_of (js "/home/op"); dir_of (js "/home/op/repeater")])) [] input [] [] None 7.
(** A setup in which a wrong port is corrected. *)
Definition typed : machine Toy.world := state [] [js "R-1"; js "x"; js "9000"; js "3"].
Definition setup := repeater_setup home typed.
Definition wrong_file : jstr := js "ECHOLET_PORT=99999" ++ [10].
Definition tampered : machine Toy.world := state [(env_path home, FileNode wrong_file private_file)] [].
Definition message : jstr := match resolveStartConfig (parseEnvFile wrong_file) with Err message => message | Ok _ => [] end.
Definition config : json := JObj [(js "relay_url", JStr (js "https://r.example")); (js "store_key_env", JStr (js "KEY"))].
End ServiceSample.
Lemma question_ends_witness : exists v s', askValid (js "Port") (js "8081") validatePort ServiceSample.typed = (Ok v, s') /\
  m_files s' = m_files ServiceSample.typed /\ exists input, validatePort (answer_of (js "8081") input) = Ok v.
Proof. apply (question_ends (js "Port") (js "8081") validatePort 8081). vm_compute. reflexivity. Defined.
Lemma repeater_setup_startable_witness : exists text config mode,
  read_content (env_path ServiceSample.home) (m_files ServiceSample.setup.2) = Some text /\
  resolveStartConfig (parseEnvFile text) = Ok config /\ 1 <= rc_port config <= 65535 /\
  mode ∈ map ch_value modes /\ setting (js "ECHOLET_MODE") (js "docker") (parseEnvFile text) = mode.
Proof. apply (repeater_setup_startable ServiceSample.home ServiceSample.typed). vm_compute. reflexivity. Defined.
Lemma refused_start_runs_nothing_witness : exists s',
  repeater_start (Desktop0 := ServiceSample.desktop) (World0 := Toy.world_ops) (ProcessHost0 := DaemonSample.host)
    ServiceSample.home (js "/app") [js "start"; js "--docker"] ServiceSample.tampered = (Ok tt, s') /\
  m_world s' = m_world ServiceSample.tampered /\ m_files s' = m_files ServiceSample.tampered /\ m_exitCode s' = Some 1.
Proof.
  apply (refused_start_runs_nothing ServiceSample.home (js "/app") _ ServiceSample.wrong_file ServiceSample.message);
    [exact (Forall_nil_2 _)|vm_compute; reflexivity|vm_compute; reflexivity].
Defined.
Lemma station_arguments_read_witness :
  parseArgv (js "/tmp") (js "cli.js") (tail (station_args (js "server.js") 3001 (getProfileDir ServiceSample.home (js "--cli")) (js "--cli") ServiceSample.config))
  = MkServerConfig (Some 3001) (getProfileDir ServiceSample.home (js "--cli")) (js "--cli")
      (str_field (js "relay_url") ServiceSample.config) (str_field (js "store_key_env") ServiceSample.config) (js "cli.js").
Proof.
  refine (proj1 (station_arguments_read ServiceSample.home (js "/w") (js "/app") None ServiceSample.root (js "--cli") (js "server.js") 3001
    ServiceSample.config (js "k") [] (js "/tmp") (js "cli.js") _ eq_refl _ _ _ _ _)).
  - vm_compute. reflexivity.
  - vm_compute. reflexivity.
  - reflexivity.
  - apply eqb_neq. vm_compute. reflexivity.
  - apply eqb_neq. vm_compute. reflexivity.
  - apply eqb_neq. vm_compute. reflexivity.
Defined.
