(* ===== verification/Setup.v ===== *)
(** * Stations and contacts: [apps/cli/src/operator/station.ts] (setup), [contact.ts], [openProfile]

    The commands of the operator that open a profile over the files of [Files].  A profile's
    records live in its database file, sealed under its key ([StoreFile]); what runs on them is
    [Profile] and [Outbound].  Theorems: what the setup of a station leaves is what
    [echolet station start] starts; a contact is added to the active profile alone, as its card
    says.  Lemmas show where the commands fall short. *)

From stdpp Require Import gmap.
From S2P Require Import Prelude JsString Json JsMap Zod Base64Url WellFormed Protocol Platform Effects Transcripts Store Signal Wire.
From S2P Require Import NodePath Pretty Profile Config RelayClient Inbound Outbound Cli Server Files Home Daemon Repeater Operator Service.

(** SQLite's file: the one row of its table, [None] when there is none. *)
Class Sqlite := { row_text : row -> jstr; text_row : jstr -> option row }.
Class SqliteLaws `{Sqlite} := { row_kept : forall r, text_row (row_text r) = Some r }.

Section setup.
Context {V : Type} `{Zod} `{World V} `{Native V} `{Crypto} `{Fetch V} `{UrlParser} `{Gcm} `{Sqlite}.
(** The operator's directory, the working directory, and the message of an exception. *)
Context (home cwd : jstr) (err_message : err -> jstr).
Abbreviation Op := (M (machine V)).

(** ** New operations on files *)

(** [writeFileSync(path, text, { flag: "wx", mode })] *)
Definition fs_write_new (path text : jstr) (mode : Z) : Op unit :=
  fs_try (fun fs => match fs !! path with
                    | Some _ => None
                    | None => if is_dir (fs !! path_dirname path) then Some (tt, <[path := FileNode text mode]> fs) else None
                    end).
(** [linkSync(from, to)]; the first name is removed right after it *)
Definition fs_link (from to : jstr) : Op unit :=
  fs_try (fun fs => match fs !! from, fs !! to with
                    | Some (FileNode text mode), None => if is_dir (fs !! path_dirname to) then Some (tt, <[to := FileNode text mode]> fs) else None
                    | _, _ => None
                    end).
Definition attempted {A} (m : Op A) : Op (res err A) := fun s => let '(r, s) := m s in (Ok r, s).

(** ** The database of a profile *)

Record opened := Opened { op_database : jstr; op_key : bytes; op_config : json }.
Definition records_in (database : jstr) (key : bytes) (fs : files) : res err records :=
  match read_content database fs with Some text => read key (text_row text) | None => Err Store.io_error end.
(** What was committed last is in the file. *)
Definition save_records (o : opened) (r : records) (s : machine V) : machine V :=
  match m_files s !! op_database o with
  | Some (FileNode _ mode) =>
      let '(sealed, v) := write (op_key o) r (m_world s) in
      with_world v (with_files (<[op_database o := FileNode (row_text sealed) mode]> (m_files s)) s)
  | _ => s
  end.
(** A program on the open store.  Its transactions run, one after the other, on the records that
    [read] opens in the file ([Store.perform_refines_atomic]); what the last of them committed is
    what the file holds after it. *)
Definition in_store {A} (o : opened) (m : Rt (W := V) A) : Op A := fun s =>
  match records_in (op_database o) (op_key o) (m_files s) with
  | Err e => (Err e, s)
  | Ok r =>
      let '(a, e) := m (Env r (m_world s) []) in
      let s := with_world (world e) s in
      (a, match commits e with [] => s | _ => save_records o (disk e) s end)
  end.
(** [new EncryptedSqliteStore(path, key)] *)
Definition open_database (database : jstr) (key : bytes) : Op unit :=
  there <- fs_exists database;
  file <- (if there : bool then text <- fs_read database; ret (Some (text_row text)) else fs_write_new database [] private_file;; ret None);
  made <- on_world (open_store key file);
  made <- lift made;
  match there, made with
  | false, Some sealed => fs_write database (row_text sealed) private_file
  | _, _ => ret tt
  end.

(** ** [openProfile] *)

Definition publish_config (configPath : jstr) (config : json) : Op unit :=
  fs_mkdir (path_dirname configPath) private_dir;;
  id <- on_world randomUUID;
  let temporary := configPath ++ js "." ++ id ++ js ".tmp" in
  fs_write_new temporary (pretty_json config) private_file;;
  linked <- attempted (fs_link temporary configPath);
  fs_unlink temporary;;
  lift linked.
(** Which configuration holds, and whether it is in its file already. *)
Definition load_config (profileDir : jstr) (given : option json) (initialize : bool) : Op (bool * json) :=
  let configPath := path_join [path_resolve cwd [profileDir]; js "config.json"] in
  hasConfig <- fs_exists configPath;
  if negb hasConfig && (negb initialize || negb (is_some given)) then throw missing_configuration
  else
    input <- (if hasConfig : bool then text <- fs_read configPath; from_option (js "SyntaxError") (parse text) else ret (default_to JNull given));
    config <- lift (parseClientConfig input);
    match hasConfig, given with
    | true, Some given =>
        other <- lift (parseClientConfig given);
        if eqb (stringify other) (stringify config) then ret (hasConfig, config)
        else throw (ErrConfiguration (js "Existing profile configuration cannot be replaced"))
    | _, _ => ret (hasConfig, config)
    end.
Definition load_store (databasePath : jstr) (key : bytes) (config : json) (hasConfig initialize : bool) : Op opened :=
  hasDatabase <- fs_exists databasePath;
  if negb hasDatabase && (hasConfig || negb initialize)
  then throw (ErrProfile (js "Profile database is missing; refusing replacement"))
  else
    fs_mkdir (path_dirname databasePath) private_dir;;
    open_database databasePath key;;
    let profile := Opened databasePath key config in
    in_store profile (openProfile_transaction (str_field (js "profile_id") config) initialize);;
    ret profile.
Definition openProfile (profileDir : jstr) (given : option json) (initialize : bool) : Op opened :=
  '(hasConfig, config) <- load_config profileDir given initialize;
  environment <- gets m_environment;
  key <- lift (readStoreKey (str_field (js "store_key_env") config) (fun name => get name environment));
  profile <- load_store (path_resolve cwd [profileDir; str_field (js "database_path") config]) key config hasConfig initialize;
  when (negb hasConfig) (publish_config (path_join [path_resolve cwd [profileDir]; js "config.json"]) config);;
  ret profile.

(** ** [echolet station setup] *)

Definition default_relay : jstr := js "https://depr.tail5a88fb.ts.net:8443".
(** [new URL(relayUrl).origin], or the text itself *)
Definition relay_origin (relayUrl : jstr) : jstr := match new_URL relayUrl with Some u => u_origin u | None => relayUrl end.
Definition station_config (profile_id relayUrl : jstr) : json :=
  JObj [ (js "profile_version", JNum 1); (js "profile_id", JStr profile_id); (js "relay_url", JStr relayUrl);
         (js "database_path", JStr (js "client.sqlite")); (js "store_key_env", JStr (js "ECHOLET_STORE_KEY"));
         (js "request_timeout_ms", JNum 10000); (js "poll_batch_size", JNum 20) ].
(** The existing station, when there is one, goes; [false] when the operator keeps it. *)
Definition make_room (callsign : jstr) : Op bool :=
  let dir := getProfileDir home callsign in
  there <- fs_exists dir;
  if negb there then ret true
  else
    ready <- fs_exists (getClientDbPath home callsign);
    overwrite <- (if ready : bool
                  then confirm (js "Станция " ++ quoted callsign ++ js " уже существует. Перезаписать ключи? (ВНИМАНИЕ: данные будут удалены)") false
                  else ret true);
    if overwrite : bool then fs_rm dir;; ret true
    else say (js "Настройка отменена.");; ret false.
(** The key of the store, in its file and in the environment of the process. *)
Definition write_store_key (callsign : jstr) : Op unit :=
  bytes <- on_world (randomBytes 32);
  let storeKeyBase64 := encodeBase64Url bytes in
  let keyPath := getStoreKeyPath home callsign in
  fs_write keyPath storeKeyBase64 private_file;;
  ensureKeyPermissions keyPath;;
  modify (fun s => with_environment (set (js "ECHOLET_STORE_KEY") storeKeyBase64 (m_environment s)) s).
Definition write_card (callsign : jstr) (profile : opened) : Op unit :=
  card <- in_store profile exportContact;
  let cardPath := getCardPath home callsign in
  fs_write cardPath (pretty_json card) private_file;;
  say (js "✅ Карточка абонента экспортирована: " ++ cardPath).
Definition publish_keys (dir relayUrl : jstr) : Op unit :=
  catch
    (relay <- lift (new_RelayClient relayUrl 10000);
     profile <- openProfile dir None false;
     in_store profile (publish (H3 := client_relay relay));;
     say (js "✅ Связки успешно опубликованы на ретрансляторе!"))
    (fun e =>
       complain (js "⚠️ Не удалось опубликовать ключи на релее прямо сейчас: " ++ err_message e);;
       complain (js "(Станция опубликует их автоматически при первом подключении к сети)")).
Definition choose_station (callsign : jstr) : Op unit :=
  config <- getGlobalConfig home;
  config <- config_assign (js "activeProfile") (JStr callsign) config;
  saveGlobalConfig home config.
(** From the new profile on. *)
Definition finish_station (callsign relayUrl : jstr) (profile : opened) : Op unit :=
  write_card callsign profile;;
  say (js "⏳ Публикация пред-ключей (PreKeys) на релее...");;
  publish_keys (getProfileDir home callsign) relayUrl;;
  choose_station callsign;;
  say (10 :: js "🎉 Станция " ++ quoted callsign ++ js " успешно создана и выбрана активной!");;
  say (js "Запустите веб-клиент командой: echolet station start" ++ [10]).
(** From the answers on. *)
Definition make_station (callsign relayUrl : jstr) : Op unit :=
  let dir := getProfileDir home callsign in
  fs_mkdir dir private_dir;;
  write_store_key callsign;;
  say (10 :: js "⏳ Генерация криптографических связок Double Ratchet & PreKeys...");;
  profile_id <- on_world randomUUID;
  profile <- openProfile dir (Some (station_config profile_id relayUrl)) true;
  finish_station callsign relayUrl profile.
Definition station_setup : Op unit :=
  say (10 :: js "=== 📻 МАСТЕР НАСТРОЙКИ СТАНЦИИ ECHOLET ===" ++ [10]);;
  callsign <- ask (js "Введите позывной станции (Callsign)") (js "Echo-Operator");
  goes_on <- make_room callsign;
  if goes_on : bool
  then answer <- ask (js "URL ретранслятора/релея") default_relay; make_station callsign (relay_origin (trim answer))
  else ret tt.

(** ** [echolet contact] *)

(** [summary.correspondents || []], an array when it is there *)
Definition correspondents_of (summary : json) : list json :=
  match field (js "correspondents") summary with Some (JArr l) => l | _ => [] end.
(** [c.identity_id || c] *)
Definition correspondent_name (c : json) : jstr :=
  match field (js "identity_id") c with Some id => if truthy id then to_text id else to_text c | None => to_text c end.
Definition contact_list (profileName profileDir : jstr) : Op unit :=
  say (10 :: js "📖 АДРЕСНАЯ КНИГА СТАНЦИИ " ++ quoted profileName ++ js ":" ++ [10]);;
  catch
    (profile <- openProfile profileDir None false;
     summary <- in_store profile (summary (str_field (js "profile_id") (op_config profile)));
     let correspondents := correspondents_of summary in
     match correspondents with
     | [] => say (js "  (список контактов пуст. Добавьте контакт: echolet contact add <файл_карточки.json>)" ++ [10])
     | _ =>
         forM correspondents (fun c => say (js "  👤 ID: " ++ correspondent_name c ++ js " (Доверен)"));;
         say (10 :: js "Всего доверенных операторов: " ++ show_Z (Z.of_nat (length correspondents)) ++ [10])
     end)
    (fun e => complain (js "Не удалось прочитать контакты: " ++ err_message e)).
(** The card is the file of that name, or the argument itself. *)
Definition card_data (cardArg : jstr) : Op json :=
  let path := path_resolve cwd [cardArg] in
  there <- fs_exists path;
  text <- (if there : bool then fs_read path else ret cardArg);
  from_option (js "SyntaxError") (parse text).
(** [cardData.identity_key?.identity_id || "OK"] *)
Definition card_fingerprint (card : json) : jstr :=
  match field (js "identity_key") card with
  | None | Some JNull => js "OK"
  | Some key => match field (js "identity_id") key with Some id => if truthy id then to_text id else js "OK" | None => js "OK" end
  end.
Definition yes_to_all (identifiers : json) (v : V) : bool * V := (true, v).
(** The import and the request that follows it. *)
Definition import_and_walk (cardData : json) : Rt (W := V) bool :=
  imported <- importContact cardData (Some yes_to_all); when imported requestMailboxRewalk;; ret imported.
Definition add_card (profileName profileDir : jstr) (cardData : json) : Op unit :=
  profile <- openProfile profileDir None false;
  imported <- in_store profile (import_and_walk cardData);
  if imported : bool
  then say (10 :: js "✅ Контакт успешно добавлен и верифицирован в станции " ++ quoted profileName ++ js ".");;
       say (js "   Отпечаток ключа (Identity ID): " ++ card_fingerprint cardData ++ [10])
  else say (10 :: js "❌ Добавление контакта отклонено.").
Definition contact_add (profileName profileDir : jstr) (args : list jstr) : Op unit :=
  match arg args 1 with
  | Some (u :: rest) =>
      read <- attempted (card_data (u :: rest));
      match read with
      | Err _ => complain (js "Ошибка: некорректный JSON карточки контакта.");; exit_process 1
      | Ok cardData =>
          catch (add_card profileName profileDir cardData)
            (fun e => complain (js "Ошибка импорта контакта: " ++ err_message e);; exit_process 1)
      end
  | _ => complain (js "Ошибка: укажите путь к файлу карточки контакта или JSON. Пример: echolet contact add alice.card.json");; exit_process 1
  end.
Definition contact_verify (profileName : jstr) (args : list jstr) : Op unit :=
  match arg args 1 with
  | Some (u :: rest) =>
      let contactId := u :: rest in
      let part n := take 8 (drop n contactId) in
      say (10 :: js "🔐 СВЕРКА ОТПЕЧАТКОВ БЕЗОПАСНОСТИ (SAFETY NUMBERS):");;
      say (js "Станция: " ++ profileName);;
      say (js "Собеседник: " ++ contactId);;
      say (10 :: js "Отпечаток для голосовой сверки:");;
      say (js "  >>> [ " ++ part 0%nat ++ js " - " ++ part 8%nat ++ js " - " ++ part 16%nat ++ js " ] <<<");;
      say (10 :: js "Убедитесь по защищённому каналу связи (голосом), что цифры совпадают." ++ [10])
  | _ => complain (js "Ошибка: укажите Identity ID контакта для сверки. Пример: echolet contact verify <ID>");; exit_process 1
  end.
Definition handleContactCommand (args : list jstr) : Op unit :=
  let sub := match arg args 0 with Some (u :: sub) => u :: sub | _ => js "list" end in
  config <- getGlobalConfig home;
  active <- config_member (js "activeProfile") config;
  target <- or_else active (first_profile home);
  match target with
  | Some target =>
      if negb (truthy target) then complain no_stations;; exit_process 1
      else
        profileName <- as_string target;
        let profileDir := getProfileDir home profileName in
        let storeKeyPath := getStoreKeyPath home profileName in
        hasKey <- fs_exists storeKeyPath;
        hasDatabase <- fs_exists (path_join [profileDir; js "client.sqlite"]);
        if negb hasKey || negb hasDatabase
        then complain (js "Ошибка: профиль " ++ quoted profileName ++ js " повреждён или не содержит ключей.");; exit_process 1
        else
          key <- fs_read storeKeyPath;
          setenv (js "ECHOLET_STORE_KEY") (trim key);;
          if eqb sub (js "list") then contact_list profileName profileDir
          else if eqb sub (js "add") then contact_add profileName profileDir args
          else if eqb sub (js "verify") then contact_verify profileName args
          else say (js "Неизвестная подкоманда: echolet contact " ++ sub);;
               say (js "Доступно: list, add <card.json>, verify <id>")
  | None => complain no_stations;; exit_process 1
  end.
End setup.

Section dispatch.
Context {V : Type} `{Zod} `{World V} `{Native V} `{Crypto} `{Fetch V} `{UrlParser} `{Gcm} `{Sqlite} `{!ProcessHost V} `{!Desktop V}.
Context (home cwd HERE execPath : jstr) (script : option jstr) (err_message : err -> jstr).
Definition handleStationCommand (args : list jstr) : M (machine V) unit :=
  let sub := match arg args 0 with Some (u :: sub) => u :: sub | _ => js "setup" end in
  ensureEcholetDirs home;;
  if eqb sub (js "setup") || negb (starts_with (js "-") sub) && eqb sub (js "station") then station_setup home cwd err_message
  else if eqb sub (js "start") then station_start home cwd HERE execPath script args
  else if eqb sub (js "stop") then station_stop home
  else if eqb sub (js "status") then station_status home
  else if eqb sub (js "open") then station_open args
  else say (js "Неизвестная команда: echolet station " ++ sub);;
       say (js "Доступно: setup, start [--daemon] [--open], stop, status, open").
End dispatch.

(** ** Where the commands write *)

Section files.
Context {V : Type} `{Zod} `{World V} `{Native V} `{Crypto} `{Fetch V} `{UrlParser} `{Gcm} `{Sqlite}.
Abbreviation Op := (M (machine V)).
Abbreviation content path s := (read_content path (m_files s)).

Section within.
Context (area : jstr -> bool).
Abbreviation stays m := (preserves (changes_within area) m).

(** A step after which more is known. *)
Lemma within_then {A B} (m : Op A) (f : A -> Op B) s :
  changes_within area s (m s).2 -> (forall a s', m s = (Ok a, s') -> changes_within area s' (f a s').2) -> changes_within area s (bind m f s).2.
Proof.
  intros Hm Hf. unfold bind. destruct (m s) as [[a|e] s1]; cbn [snd] in *; [|exact Hm].
  etrans; [exact Hm|by apply Hf].
Qed.
Lemma within_write_new path text mode : area path = true -> stays (fs_write_new path text mode : Op unit).
Proof.
  intros Hin. apply within_try. intros fs a fs' p E Ha. assert (p <> path) by congruence.
  destruct (fs !! path); [done|]. destruct (is_dir _); [|done]. injection E as _ <-. by rewrite read_content_insert, decide_False.
Qed.
Lemma within_link from to : area to = true -> stays (fs_link from to : Op unit).
Proof.
  intros Hin. apply within_try. intros fs a fs' p E Ha. assert (p <> to) by congruence.
  destruct (fs !! from) as [[]|]; [|done..]. destruct (fs !! to); [done|]. destruct (is_dir _); [|done].
  injection E as _ <-. by rewrite read_content_insert, decide_False.
Qed.
Lemma within_attempted {A} (m : Op A) : stays m -> stays (attempted m).
Proof. intros Hm s. unfold attempted. specialize (Hm s). by destruct (m s). Qed.
Lemma within_in_store {A} o (m : Rt (W := V) A) : area (op_database o) = true -> stays (in_store o m).
Proof.
  intros Hin s. unfold in_store. destruct (records_in _ _ _) as [r|e]; [|by intros path _]. destruct (m _) as [a e]. cbn [snd].
  destruct (commits e); [by intros path _|].
  unfold save_records. cbn [m_files with_world]. destruct (m_files s !! op_database o) as [[text mode|]|]; [|by intros path _..].
  destruct (write _ _ _) as [sealed v]. intros path Ha. assert (path <> op_database o) by congruence.
  cbn [m_files with_world with_files]. by rewrite read_content_insert, decide_False.
Qed.
Lemma within_open_database database key : area database = true -> stays (open_database database key : Op unit).
Proof.
  intros Hin. apply preserves_bind; [apply _|by apply within_same|]. intros there.
  apply preserves_bind; [apply _| |].
  { destruct there; (apply preserves_bind; [apply _| |intros; apply preserves_ret; apply _]); [apply within_read|by apply within_write_new]. }
  intros file. apply preserves_bind; [apply _|apply within_world|]. intros made. apply preserves_bind; [apply _|apply preserves_lift; apply _|].
  intros [sealed|]; destruct there; first [apply preserves_ret; apply _ | by apply within_write].
Qed.
Lemma within_publish_config configPath config :
  (forall t, area (configPath ++ t) = true) -> stays (publish_config configPath config : Op unit).
Proof.
  intros Ha. unfold publish_config. cbv zeta.
  apply preserves_bind; [apply _|apply within_content, content_mkdir|]. intros _.
  apply preserves_bind; [apply _|apply within_world|]. intros id.
  apply preserves_bind; [apply _|apply within_write_new, Ha|]. intros _.
  apply preserves_bind; [apply _|apply within_attempted, within_link; rewrite <- (app_nil_r configPath); apply Ha|]. intros linked.
  apply preserves_bind; [apply _|apply within_unlink, Ha|]. intros _. apply preserves_lift; apply _.
Qed.
End within.

(** *** [openProfile] *)
Context (cwd : jstr).
Definition config_of (dir : jstr) : jstr := path_join [path_resolve cwd [dir]; js "config.json"].
Definition database_of (dir : jstr) (config : json) : jstr := path_resolve cwd [dir; str_field (js "database_path") config].
(** The configuration [openProfile] goes by. *)
Definition config_used (dir : jstr) (given : option json) (s : machine V) : option json :=
  match match content (config_of dir) s with Some text => parse text | None => given end with
  | Some input => match parseClientConfig input with Ok config => Some config | Err _ => None end
  | None => None
  end.

Lemma read_file path (s : machine V) text s' : fs_read path s = (Ok text, s') -> content path s = Some text /\ m_files s' = m_files s /\ same_but_files s s'.
Proof. intros (fs & E & -> & Hs)%fs_try_ok. destruct (read_content path (m_files s)); [|done]. by injection E as <- <-. Qed.
(** The configuration is found, and nothing is changed. *)
Lemma config_loaded dir given initialize (s : machine V) r s' :
  load_config cwd dir given initialize s = (r, s') ->
  m_files s' = m_files s /\ m_environment s' = m_environment s /\
  (forall has config, r = Ok (has, config) -> config_used dir given s = Some config /\
     has = (match content (config_of dir) s with Some _ => true | None => false end) /\ (has = false -> initialize = true)).
Proof.
  unfold load_config. fold (config_of dir). intros E. unfold fs_exists, gets in E. unfold bind at 1 in E. cbv beta iota in E.
  unfold config_used, read_content. destruct (m_files s !! config_of dir) as [n|] eqn:En; cbn [negb andb] in E.
  - unfold bind at 1 2 in E. destruct (fs_read (config_of dir) s) as [[text|e] s1] eqn:Er.
    2:{ injection E as <- <-. apply fs_try_err in Er as [Hf (_ & _ & He & _)]. by split_and!. }
    apply read_file in Er as (Ht & Hf & (_ & _ & He & _)). unfold read_content in Ht. rewrite En in Ht. destruct n as [t m|]; [|done]. injection Ht as ->.
    destruct (parse text) as [input|]; [|injection E as <- <-; by split_and!]. unfold from_option, ret at 1, bind at 1, lift at 1 in E.
    destruct (parseClientConfig input) as [config|e]; [|injection E as <- <-; by split_and!].
    destruct given as [g|]; [unfold bind, lift in E; destruct (parseClientConfig g) as [other|]; [destruct (eqb _ _)|]|]; injection E as <- <-;
      (split; [exact Hf|split; [exact He|]]); try discriminate; intros has c [= <- <-]; by split_and!.
  - destruct initialize, given as [g|]; cbn [negb orb is_some] in E; try (injection E as <- <-; by split_and!).
    unfold ret at 1, bind, lift, default_to in E. destruct (parseClientConfig g) as [config|e]; injection E as <- <-; (split; [done|split; [done|]]); [|done].
    intros has c [= <- <-]. by split_and!.
Qed.

Section opening.
Context (area : jstr -> bool) (dir : jstr) (given : option json).
Abbreviation stays m := (preserves (changes_within area) m).
Lemma load_store_within database key config hasConfig initialize :
  area database = true -> stays (load_store database key config hasConfig initialize : Op opened).
Proof.
  intros Ha. unfold load_store. cbv zeta. apply preserves_bind; [apply _|by apply within_same|]. intros there.
  destruct (negb there && _); [apply preserves_throw; apply _|].
  apply preserves_bind; [apply _|apply within_content, content_mkdir|]. intros _.
  apply preserves_bind; [apply _|by apply within_open_database|]. intros _.
  apply preserves_bind; [apply _|by apply within_in_store|]. intros _. apply preserves_ret; apply _.
Qed.
Lemma open_within initialize (s : machine V) :
  (forall config, config_used dir given s = Some config -> area (database_of dir config) = true) ->
  (initialize = true -> forall t, area (config_of dir ++ t) = true) ->
  changes_within area s (openProfile cwd dir given initialize s).2.
Proof.
  intros Ha Hi. unfold openProfile. fold (config_of dir). unfold bind at 1. destruct (load_config cwd dir given initialize s) as [r s1] eqn:E.
  apply config_loaded in E as (Hf & _ & Hr). assert (changes_within area s s1) as Hsame by (intros path _; by rewrite Hf).
  destruct r as [[hasConfig config]|e]; [|exact Hsame]. destruct (Hr _ _ eq_refl) as (Hu & _ & Hin). specialize (Ha _ Hu).
  etrans; [exact Hsame|]. apply preserves_bind; [apply _|apply preserves_gets; apply _|]. intros environment.
  apply preserves_bind; [apply _|apply preserves_lift; apply _|]. intros key.
  apply preserves_bind; [apply _|by apply load_store_within|]. intros profile.
  apply preserves_bind; [apply _| |intros; apply preserves_ret; apply _]. destruct hasConfig; [apply preserves_ret; apply _|].
  by apply within_publish_config, Hi, Hin.
Qed.
End opening.

(** *** What is in the database *)

(** The database is these records, sealed under the key. *)
Definition holds_records (database : jstr) (key : bytes) (r : records) (s : machine V) : Prop :=
  exists w, content database s = Some (row_text (write key r w).1).
(** A snapshot sealed under the key. *)
Definition sealed_at (database : jstr) (key : bytes) (s : machine V) : Prop :=
  exists r w, content database s = Some (row_text (write key r w).1).
Definition same_environment (s s' : machine V) : Prop := m_environment s' = m_environment s.
#[export] Instance same_environment_preorder : PreOrder same_environment.
Proof. split; [done|]. intros s1 s2 s3 E1 E2. unfold same_environment in *. congruence. Qed.
Lemma environment_try {A} (f : files -> option (A * files)) : preserves same_environment (fs_try f).
Proof.
  intros s. destruct (fs_try f s) as [[a|e] s'] eqn:E; cbn [snd].
  - apply fs_try_ok in E as (fs & _ & _ & _ & _ & He & _). exact He.
  - apply fs_try_err in E as (_ & _ & _ & He & _). exact He.
Qed.
Lemma environment_world {A} (f : V -> A * V) : preserves same_environment (on_world f).
Proof. intros s. unfold on_world. by destruct (f (m_world s)). Qed.
Lemma environment_attempted {A} (m : Op A) : preserves same_environment m -> preserves same_environment (attempted m).
Proof. intros Hm s. unfold attempted. specialize (Hm s). by destruct (m s). Qed.
Lemma environment_in_store {A} o (m : Rt (W := V) A) : preserves same_environment (in_store o m).
Proof.
  intros s. unfold in_store. destruct (records_in _ _ _) as [r|e]; [|done]. destruct (m _) as [a e]. cbn [snd]. destruct (commits e); [done|].
  unfold save_records. cbn [m_files with_world]. destruct (m_files s !! op_database o) as [[text mode|]|]; [|done..].
  by destruct (write _ _ _) as [sealed v].
Qed.
Ltac environment_steps := repeat first
  [ progress intros | apply environment_try | apply environment_world | apply environment_in_store | apply environment_attempted
  | (match goal with |- preserves _ (fs_exists _) => apply preserves_gets; try apply _ end) | preserves_step ].

Lemma environment_open_database database key : preserves same_environment (open_database database key : Op unit).
Proof. unfold open_database. environment_steps. Qed.
Lemma database_existing database key (s : machine V) : m_files s !! database <> None -> m_files (open_database database key s).2 = m_files s.
Proof.
  intros Hd. unfold open_database, fs_exists, gets. unfold bind at 1. cbv beta iota. destruct (m_files s !! database); [|done].
  unfold bind at 1 2. destruct (fs_read database s) as [[text|e] s1] eqn:Er; [|by apply fs_try_err in Er as [Hf _]].
  apply read_file in Er as (_ & Hf & _). unfold ret at 1, bind, on_world, lift. destruct (open_store _ _ _) as [[r|e] v]; exact Hf.
Qed.

(** What is sealed under a key is read back with it. *)
Lemma sealed_read_back `{!GcmLaws} `{!SqliteLaws} database key r w (s : machine V) : (forall n w, length (randomBytes n w).1 = n) ->
  records_ok r -> content database s = Some (row_text (write key r w).1) -> records_in database key (m_files s) = Ok r.
Proof. intros Hlen Hr Hc. unfold records_in. rewrite Hc, row_kept. by apply (read_write Hlen). Qed.

(** Opening a profile that is there seals its records anew, as they are. *)
Lemma open_tx_reads profile_id (s s' : records * V) : open_tx profile_id false s = (Ok tt, s') -> s'.1 = s.1.
Proof.
  unfold open_tx. intros Hr. apply bind_ok in Hr as (existing & s1 & Hg & Hr). apply tx_get_ok in Hg as [-> ->].
  destruct (get metadataKey s.1) as [bs|] eqn:Eg.
  2:{ apply bind_ok in Hr as (? & ? & (keys & s1 & _ & Hr)%bind_ok & _). discriminate Hr. }
  apply bind_ok in Hr as ([] & s1 & Hret & Hr). injection Hret as <-. apply bind_ok in Hr as (metadata & s1 & Hm & Hr).
  assert (s1 = s) as ->.
  { unfold readMetadata in Hm. apply bind_ok in Hm as (v & s2 & Hv & Hm). apply tx_get_ok in Hv as [-> ->]. rewrite Eg in Hm.
    apply bind_ok in Hm as (j & s2 & Hj & Hm). apply from_option_ok in Hj as [_ ->]. by injection Hm as _ <-. }
  destruct (negb _); [discriminate Hr|]. apply bind_ok in Hr as (address & s1 & Ha & Hr). apply from_option_ok in Ha as [_ ->].
  rewrite <- (create_reads address s); [by rewrite Hr|]. intros E. by rewrite E in Eg.
Qed.
Lemma openProfile_transaction_reads profile_id (s s' : env V) : openProfile_transaction profile_id false s = (Ok tt, s') ->
  disk s' = disk s /\ commits s' <> [].
Proof.
  unfold openProfile_transaction, atomic. destruct (io_begin (world s)) as [[] w]; [|discriminate]. cbn [negb].
  destruct (open_tx profile_id false (disk s, w)) as [[[]|e] [rs w1]] eqn:E; [|destruct (io_rollback w1) as [[] w2]; discriminate].
  destruct (randomBytes 12 w1) as [n w2]. destruct (io_commit w2) as [[] w3]; [|destruct (io_rollback w3); discriminate].
  intros [= <-]. apply open_tx_reads in E. split; [exact E|]. by destruct (commits s).
Qed.
Lemma records_content database key (s s' : machine V) :
  content database s' = content database s -> records_in database key (m_files s') = records_in database key (m_files s).
Proof. intros E. unfold records_in. by rewrite E. Qed.
Lemma in_store_reads `{!GcmLaws} `{!SqliteLaws} o (m : Rt (W := V) unit) r (s s' : machine V) :
  (forall n w, length (randomBytes n w).1 = n) -> records_ok r -> holds_records (op_database o) (op_key o) r s ->
  (forall e e', m e = (Ok tt, e') -> disk e' = disk e /\ commits e' <> []) ->
  in_store o m s = (Ok tt, s') -> holds_records (op_database o) (op_key o) r s'.
Proof.
  intros Hlen Hr [w Hw] Hm Hi. unfold in_store in Hi. rewrite (sealed_read_back _ _ _ _ _ Hlen Hr Hw) in Hi.
  destruct (m _) as [a e] eqn:Em. injection Hi as -> <-. apply Hm in Em as [Hd Hc]. cbn [disk] in Hd. rewrite Hd.
  destruct (commits e); [done|]. unfold save_records, read_content in *. cbn [m_files with_world].
  destruct (m_files s !! op_database o) as [[text mode|]|]; [|discriminate Hw..].
  cbn [m_world with_world]. destruct (write (op_key o) r (world e)) as [sealed v] eqn:Ew. exists (world e).
  cbn [m_files with_world with_files]. rewrite Ew. by rewrite read_content_insert, decide_True.
Qed.
Lemma load_store_keeps `{!GcmLaws} `{!SqliteLaws} database key config hasConfig r (s s' : machine V) o :
  (forall n w, length (randomBytes n w).1 = n) -> records_ok r -> holds_records database key r s ->
  load_store database key config hasConfig false s = (Ok o, s') -> holds_records database key r s'.
Proof.
  intros Hlen Hr [w Hw]. unfold load_store. intros (there & s1 & [-> _]%fs_exists_read & E)%bind_ok. destruct (_ && _); [discriminate E|]. cbv zeta in E.
  apply bind_ok in E as ([] & s2 & Em & E). pose proof (content_mkdir (path_dirname database) private_dir s database) as Hc. rewrite Em in Hc. cbn [snd] in Hc.
  rewrite Hw in Hc. apply bind_ok in E as ([] & s3 & Eo & E). apply bind_ok in E as ([] & s4 & Ei & E). injection E as _ <-.
  assert (m_files s3 = m_files s2) as Hf3.
  { pose proof (database_existing database key s2) as Hx. rewrite Eo in Hx. apply Hx. unfold read_content in Hc. intros En. by rewrite En in Hc. }
  refine (in_store_reads (Opened database key config) _ r s3 s4 Hlen Hr _ _ Ei).
  - exists w. cbn [op_database op_key]. rewrite Hf3. exact Hc.
  - intros e e'. apply openProfile_transaction_reads.
Qed.
Lemma open_keeps_records `{!GcmLaws} `{!SqliteLaws} dir config key r (s s' : machine V) o :
  (forall n w, length (randomBytes n w).1 = n) -> records_ok r ->
  config_used dir None s = Some config -> readStoreKey (str_field (js "store_key_env") config) (fun name => get name (m_environment s)) = Ok key ->
  holds_records (database_of dir config) key r s -> openProfile cwd dir None false s = (Ok o, s') -> holds_records (database_of dir config) key r s'.
Proof.
  intros Hlen Hr Hu Hk Hh ([hasConfig config'] & s1 & (Hf & He & Hc)%config_loaded & Ho)%bind_ok. destruct (Hc _ _ eq_refl) as (Hu' & _ & Hn).
  rewrite Hu in Hu'. injection Hu' as <-. destruct hasConfig; [|by discriminate Hn].
  apply bind_ok in Ho as (environment & s2 & Eg & Ho). injection Eg as <- <-.
  apply bind_ok in Ho as (key' & s3 & Ek & (profile & s4 & El & Ho)%bind_ok). unfold lift in Ek. injection Ek as Ek <-. rewrite He, Hk in Ek. injection Ek as <-.
  apply bind_ok in Ho as ([] & s5 & Ep & Ho). injection Ep as <-. injection Ho as _ <-.
  refine (load_store_keeps _ _ _ _ _ s1 s4 _ Hlen Hr _ El). destruct Hh as [w Hw]. exists w. rewrite Hf. exact Hw.
Qed.

(** The environment stays, and what is sealed stays sealed. *)
Section keeps.
Context (database : jstr) (key : bytes).
Definition keeps (s s' : machine V) : Prop :=
  same_environment s s' /\ (sealed_at database key s -> sealed_at database key s').
#[export] Instance keeps_preorder : PreOrder keeps.
Proof. split; [by intros s|]. intros s1 s2 s3 [E1 K1] [E2 K2]. split; [by etrans|]. intros Hs. by apply K2, K1. Qed.
Lemma keeps_elsewhere {A} (m : Op A) :
  preserves same_environment m -> preserves (changes_within (fun path => negb (eqb path database))) m -> preserves keeps m.
Proof.
  intros He Hw s. split; [apply He|]. intros (r & w & Hr). exists r, w. rewrite <- Hr. apply Hw. by rewrite eqb_refl.
Qed.
Lemma keeps_in_store {A} config (m : Rt (W := V) A) : preserves keeps (in_store (Opened database key config) m).
Proof.
  intros s. split; [apply environment_in_store|]. unfold in_store. cbn [op_database op_key].
  destruct (records_in _ _ _) as [r|e]; [|done]. destruct (m _) as [a e]. cbn [snd]. destruct (commits e); [done|].
  unfold save_records. cbn [m_files with_world op_database op_key]. destruct (m_files s !! database) as [[text mode|]|]; [|done..].
  destruct (write key (disk e) (m_world (with_world (world e) s))) as [sealed v] eqn:Ew. intros _. exists (disk e), (m_world (with_world (world e) s)).
  cbn [m_files with_world with_files]. rewrite Ew. by rewrite read_content_insert, decide_True.
Qed.
Lemma keeps_open_database : preserves keeps (open_database database key : Op unit).
Proof.
  intros s. split; [apply environment_open_database|]. intros (r & w & Hr). exists r, w. rewrite <- Hr.
  unfold read_content. rewrite database_existing; [done|]. intros E. unfold read_content in Hr. by rewrite E in Hr.
Qed.
Lemma keeps_exists path : preserves keeps (fs_exists path : Op bool).
Proof. by intros s. Qed.
Lemma keeps_mkdir path mode : preserves keeps (fs_mkdir path mode : Op unit).
Proof. apply keeps_elsewhere; [apply environment_try|apply within_content, content_mkdir]. Qed.
Lemma keeps_load_store config hasConfig initialize : preserves keeps (load_store database key config hasConfig initialize : Op opened).
Proof.
  unfold load_store. cbv zeta. apply preserves_bind; [apply _|apply keeps_exists|]. intros there. destruct (_ && _); [apply preserves_throw; apply _|].
  apply preserves_bind; [apply _|apply keeps_mkdir|]. intros _. apply preserves_bind; [apply _|apply keeps_open_database|]. intros _.
  apply preserves_bind; [apply _|apply keeps_in_store|]. intros _. apply preserves_ret; apply _.
Qed.
Lemma load_store_opens config hasConfig initialize (s : machine V) o s' :
  load_store database key config hasConfig initialize s = (Ok o, s') -> o = Opened database key config.
Proof.
  unfold load_store. intros (there & s1 & _ & E)%bind_ok. destruct (_ && _); [discriminate E|]. cbv zeta in E.
  apply bind_ok in E as (? & ? & _ & (? & ? & _ & (? & ? & _ & E)%bind_ok)%bind_ok). by injection E.
Qed.
(** A database that was not there is made. *)
Lemma load_store_new config hasConfig initialize (s : machine V) o s' :
  content database s = None -> load_store database key config hasConfig initialize s = (Ok o, s') -> sealed_at database key s'.
Proof.
  intros Hn. unfold load_store. intros (there & s1 & [-> _]%fs_exists_read & E)%bind_ok. destruct (_ && _); [discriminate E|]. cbv zeta in E.
  apply bind_ok in E as ([] & s2 & Em & E). pose proof (content_mkdir (path_dirname database) private_dir s database) as Hc. rewrite Em in Hc. cbn [snd] in Hc.
  rewrite Hn in Hc. apply bind_ok in E as ([] & s3 & Eo & E). apply bind_ok in E as ([] & s4 & Ei & E). injection E as _ <-.
  pose proof (keeps_in_store config (openProfile_transaction (str_field (js "profile_id") config) initialize) s3) as [_ Hk]. rewrite Ei in Hk. apply Hk. clear Hk Ei.
  unfold open_database in Eo. apply bind_ok in Eo as (found & s5 & [-> ->]%fs_exists_read & Eo). unfold read_content in Hc.
  destruct (m_files s2 !! database) as [[text mode|mode]|] eqn:Ed; [done| |].
  - apply bind_ok in Eo as (? & s6 & (text & ? & (Ht & _)%read_file & _)%bind_ok & _). unfold read_content in Ht. by rewrite Ed in Ht.
  - apply bind_ok in Eo as (file & s6 & (? & ? & Ew & Ef)%bind_ok & Eo). injection Ef as <- <-. apply bind_ok in Eo as (made & s7 & Ew7 & Eo).
    unfold on_world in Ew7. cbn [m_world] in Ew7. destruct (open_store key None _) as [made' v] eqn:Es. injection Ew7 as <- <-.
    apply bind_ok in Eo as (sealed & s8 & Hl & Eo). unfold lift in Hl. injection Hl as -> <-. unfold open_store in Es. destruct (negb _); [discriminate Es|].
    destruct (io_begin _) as [[] w1]; [|discriminate Es]. cbn [negb] in Es. destruct (write key [] w1) as [sealed' w2] eqn:Er.
    destruct (io_commit w2) as [[] w3]; [|destruct (io_rollback w3); discriminate Es]. injection Es as <- _.
    apply fs_write_ok in Eo as (m & Hf & _). exists [], w1. rewrite Hf, Er. by rewrite read_content_insert, decide_True.
Qed.
End keeps.

Lemma publish_config_ok configPath config (s s' : machine V) :
  publish_config configPath config s = (Ok tt, s') -> content configPath s' = Some (pretty_json config).
Proof.
  intros ([] & s1 & _ & (id & s2 & _ & ([] & s3 & Hw & (linked & s4 & Hl & ([] & s5 & Hu & Hr)%bind_ok)%bind_ok)%bind_ok)%bind_ok)%bind_ok.
  set (temporary := configPath ++ js "." ++ id ++ js ".tmp") in *.
  assert (temporary <> configPath) as Hne.
  { intros E. apply (f_equal length) in E. unfold temporary in E. rewrite !length_app in E. assert (length (js ".") = 1%nat) as El by (vm_compute; reflexivity).
    lia. }
  injection Hr as -> ->. apply fs_try_ok in Hw as (fs3 & Hw & Hf3 & _). destruct (m_files s2 !! temporary); [done|].
  destruct (is_dir _); [|done]. injection Hw as <-. unfold attempted in Hl. destruct (fs_link temporary configPath s3) as [r s4'] eqn:El. injection Hl as -> ->.
  apply fs_try_ok in El as (fs4 & El & Hf4 & _). rewrite Hf3, lookup_insert_eq in El. destruct (<[_:=_]> (m_files s2) !! configPath) eqn:Ec; [done|].
  destruct (is_dir _); [|done]. injection El as <-. apply fs_try_ok in Hu as (fs5 & Hu & Hf5 & _). rewrite Hf4 in Hu.
  rewrite lookup_insert_ne in Hu by done. rewrite lookup_insert_eq in Hu. injection Hu as <-. rewrite Hf5.
  unfold read_content. rewrite lookup_delete_ne by done. by rewrite lookup_insert_eq.
Qed.
Lemma open_again dir config key (s : machine V) :
  config_used dir None s = Some config ->
  readStoreKey (str_field (js "store_key_env") config) (fun name => get name (m_environment s)) = Ok key ->
  keeps (database_of dir config) key s (openProfile cwd dir None false s).2 /\
  (forall o s', openProfile cwd dir None false s = (Ok o, s') -> o = Opened (database_of dir config) key config).
Proof.
  intros Hu Hk. destruct (load_config cwd dir None false s) as [r s1] eqn:E. pose proof (config_loaded _ _ _ _ _ _ E) as (Hf & He & Hr).
  assert (keeps (database_of dir config) key s s1) as Hsame by (split; [exact He|]; intros (r0 & w & Hs); exists r0, w; by rewrite Hf).
  unfold openProfile. destruct r as [[hasConfig config']|e].
  2:{ rewrite (bind_fails _ _ _ _ _ E). split; [exact Hsame|discriminate]. }
  rewrite (bind_run _ _ _ _ _ E). destruct (Hr _ _ eq_refl) as (Hu' & _ & Hn). rewrite Hu in Hu'. injection Hu' as <-.
  destruct hasConfig; [|by discriminate Hn]. cbn [negb when]. rewrite (bind_run (gets m_environment) _ s1 _ s1 eq_refl).
  rewrite (bind_run (lift _) _ s1 key s1) by (unfold lift; by rewrite He, Hk). fold (database_of dir config). split.
  - etrans; [exact Hsame|]. apply preserves_bind; [apply _|apply keeps_load_store|]. intros profile.
    apply preserves_bind; [apply _|apply preserves_ret; apply _|]. intros _. apply preserves_ret; apply _.
  - intros o s' (profile & s2 & Ep%load_store_opens & Eo)%bind_ok. injection Eo as <- _. exact Ep.
Qed.
Lemma open_new dir given (s : machine V) o s' :
  content (config_of dir) s = None -> openProfile cwd dir (Some given) true s = (Ok o, s') ->
  exists config key, parseClientConfig given = Ok config /\
    readStoreKey (str_field (js "store_key_env") config) (fun name => get name (m_environment s)) = Ok key /\
    o = Opened (database_of dir config) key config /\ content (config_of dir) s' = Some (pretty_json config) /\
    same_environment s s' /\
    (content (database_of dir config) s = None -> starts_with (config_of dir) (database_of dir config) = false ->
     sealed_at (database_of dir config) key s').
Proof.
  intros Hn ([hasConfig config] & s1 & E & Hrest)%bind_ok. apply config_loaded in E as (Hf & He & Hr).
  destruct (Hr _ _ eq_refl) as (Hu & -> & _). unfold config_used in Hu. rewrite Hn in Hu, Hrest. cbn [negb when] in Hrest.
  destruct (parseClientConfig given) as [config'|] eqn:Ep; [|done]. injection Hu as ->.
  apply bind_ok in Hrest as (environment & s2 & Eg & Hrest). injection Eg as <- <-.
  apply bind_ok in Hrest as (key & s2 & Ek & Hrest). unfold lift in Ek. injection Ek as Hk <-. rewrite He in Hk.
  fold (database_of dir config) in Hrest. fold (config_of dir) in Hrest.
  apply bind_ok in Hrest as (profile & s2 & El & Hrest). apply bind_ok in Hrest as ([] & s3 & Epub & Hrest). injection Hrest as -> ->.
  exists config, key. split; [done|]. split; [exact Hk|]. split; [by eapply load_store_opens|]. split; [by eapply publish_config_ok|]. split.
  - destruct (keeps_load_store (database_of dir config) key config false true s1) as [E2 _]. rewrite El in E2. cbn [snd] in E2.
    assert (preserves same_environment (publish_config (config_of dir) config : Op unit)) as Hpub by (unfold publish_config; environment_steps).
    specialize (Hpub s2). rewrite Epub in Hpub. cbn [snd] in Hpub. unfold same_environment in *. congruence.
  - intros Hd Hs. assert (sealed_at (database_of dir config) key s2) as (r & w & Hw) by (eapply load_store_new; [by rewrite Hf|exact El]).
    exists r, w. rewrite <- Hw. pose proof (within_publish_config (starts_with (config_of dir)) (config_of dir) config) as Hp.
    specialize (Hp (fun t => ltac:(by apply starts_with_iff; eexists)) s2 _ Hs). rewrite Epub in Hp. exact Hp.
Qed.
End files.

(** ** The setup of a station *)

Section station.
Context {V : Type} `{Zod} `{World V} `{Native V} `{Crypto} `{Fetch V} `{UrlParser} `{Gcm} `{Sqlite}.
Abbreviation Op := (M (machine V)).
Abbreviation content path s := (read_content path (m_files s)).
Context (root : list jstr) (Hroot : plain_path root) (cwd : jstr) (err_message : err -> jstr).
Abbreviation home := (absolute_path root).

(** *** The configuration *)

Lemma parse_filters ps l ws :
  Forall (fun p => p.1.2 = false /\ forall v w, p.2 v = Some w -> w = v) ps ->
  parse_properties ps l = Some ws -> ws = map (fun p => (p.1.1, default_to JNull (obj_get p.1.1 l))) ps.
Proof using.
  intros Hps. revert ws. induction Hps as [|[[k optional] f] ps [Ho Hf] Hps IH]; intros ws; cbn [parse_properties map fst snd] in *; [by intros [= <-]|].
  subst optional. destruct (obj_get k l) as [v|]; [|done]. destruct (f v) as [w|] eqn:Ew; [|done].
  destruct (parse_properties ps l) as [ws'|]; [|done]. intros [= <-]. cbn [default_to]. by rewrite (Hf _ _ Ew), (IH ws').
Qed.
Lemma string_filter check v w : z_string check v = Some w -> w = v.
Proof using. unfold z_string. destruct v; [done..| |done|done]. destruct (check s); congruence. Qed.
Lemma number_filter check v w : z_number check v = Some w -> w = v.
Proof using. unfold z_number. destruct v; [done|done| |done..]. destruct (check z); congruence. Qed.
Lemma literal_filter x v w : z_literal x v = Some w -> w = v.
Proof using. unfold z_literal. destruct (eqb v x); congruence. Qed.
Lemma station_config_parsed id relayUrl config :
  parseClientConfig (station_config id relayUrl) = Ok config ->
  config = station_config id relayUrl /\ forallb hex_or_dash id = true /\ is_some (new_URL relayUrl) = true.
Proof using.
  intros (Hs & u & Hu & _)%parseClientConfig_ok. unfold configSchema, z_strict, station_config in Hs.
  destruct (forallb _ _); [|done]. unfold z_object in Hs. destruct (parse_properties _ _) as [ws|] eqn:Ep; [|done]. injection Hs as <-.
  pose proof Ep as Ef. apply parse_filters in Ef.
  2:{ repeat (apply Forall_cons_2; [split; [reflexivity|first [apply literal_filter | apply string_filter | apply number_filter]]|]). apply Forall_nil_2. }
  assert (JObj ws = station_config id relayUrl) as E by (rewrite Ef; vm_compute; reflexivity). split; [exact E|].
  split; [|rewrite E in Hu; assert (str_field (js "relay_url") (station_config id relayUrl) = relayUrl) as El by (vm_compute; reflexivity); by rewrite El in Hu; rewrite Hu].
  destruct (parse_properties_get _ _ _ (js "profile_id") (z_string (fun s => zod_uuid s && negb (eqb s []) && forallb hex_or_dash s)) Ep) as (v & w & Hv & Hw & _).
  - right. by left.
  - refine (bool_decide_eq_true_1 _ _). vm_compute. reflexivity.
  - assert (v = JStr id) as -> by (revert Hv; vm_compute; congruence). cbn [z_string] in Hw. destruct (_ && forallb hex_or_dash id) eqn:Eh; [|done].
    by apply andb_true_iff in Eh as [_ ->].
Qed.
(** The host of an address is written in ASCII, and so is its origin. *)
Definition ascii_origins : Prop := forall text u, new_URL text = Some u -> forallb unit_ok (u_origin u) = true.
Lemma station_config_ok id typed config : ascii_origins ->
  parseClientConfig (station_config id (relay_origin typed)) = Ok config ->
  config = station_config id (relay_origin typed) /\ json_ok config = true.
Proof using.
  intros Ha (-> & Hid & Hu)%station_config_parsed. split; [done|].
  assert (forallb unit_ok (relay_origin typed) = true) as Ho.
  { unfold relay_origin in *. destruct (new_URL typed) as [u|] eqn:E; [by eapply Ha|]. by rewrite E in Hu. }
  unfold station_config. cbn [json_ok forallb snd]. rewrite (hex_or_dash_units id Hid), Ho. apply andb_true_iff. split; vm_compute; reflexivity.
Qed.

(** *** The files of a profile *)

Lemma join_snoc l x : l <> [] -> join [slash] (l ++ [x]) = join [slash] l ++ slash :: x.
Proof using.
  induction l as [|y [|z l] IH]; [done|done|]. intros _. change ((y :: z :: l) ++ [x]) with (y :: (z :: l) ++ [x]).
  cbn [app] in *. rewrite (join_cons _ y z), (join_cons _ y z). rewrite IH by done. by rewrite <- !app_assoc.
Qed.
Section named.
Context (callsign : jstr) (Hname : plain_segment callsign = true).
Abbreviation dir := (getProfileDir home callsign).
Lemma file_path file : absolute_path (root ++ [js "profiles"; callsign; file]) = dir ++ slash :: file.
Proof using Hroot Hname.
  rewrite (profile_dir root Hroot) by done. unfold absolute_path. change [js "profiles"; callsign; file] with ([js "profiles"; callsign] ++ [file]).
  rewrite app_assoc, join_snoc; [done|by destruct root].
Qed.
Lemma joined file : plain_segment file = true -> path_join [dir; file] = dir ++ slash :: file.
Proof using Hroot Hname. intros Hf. rewrite (profile_file root Hroot) by done. apply file_path. Qed.
Lemma resolved file : plain_segment file = true -> path_resolve cwd [dir; file] = dir ++ slash :: file.
Proof using Hroot Hname.
  intros Hf. rewrite (profile_dir root Hroot) at 1 by done. rewrite resolve_plain_name by (first [by apply profile_plain | done]).
  rewrite <- app_assoc. apply file_path.
Qed.
Lemma plain_names : plain_segment (js "store.key") = true /\ plain_segment (js "config.json") = true /\
  plain_segment (js "client.sqlite") = true /\ plain_segment (js "identity.card.json") = true.
Proof using. split; [|split; [|split]]; vm_compute; reflexivity. Qed.
Lemma key_path : getStoreKeyPath home callsign = dir ++ slash :: js "store.key".
Proof using Hroot Hname. exact (joined _ (proj1 plain_names)). Qed.
Lemma card_path : getCardPath home callsign = dir ++ slash :: js "identity.card.json".
Proof using Hroot Hname. exact (joined _ (proj2 (proj2 (proj2 plain_names)))). Qed.
Lemma database_path : getClientDbPath home callsign = dir ++ slash :: js "client.sqlite".
Proof using Hroot Hname. exact (joined _ (proj1 (proj2 (proj2 plain_names)))). Qed.
Lemma profile_config_path : getProfileConfigPath home callsign = dir ++ slash :: js "config.json".
Proof using Hroot Hname. exact (joined _ (proj1 (proj2 plain_names))). Qed.
Lemma config_of_dir : config_of cwd dir = dir ++ slash :: js "config.json".
Proof using Hroot Hname.
  unfold config_of. rewrite (profile_dir root Hroot) at 1 by done. rewrite resolve_plain by (by apply profile_plain).
  rewrite <- (profile_dir root Hroot) by done. exact (joined _ (proj1 (proj2 plain_names))).
Qed.
Lemma database_of_station id relayUrl : database_of cwd dir (station_config id relayUrl) = dir ++ slash :: js "client.sqlite".
Proof using Hroot Hname.
  unfold database_of. assert (str_field (js "database_path") (station_config id relayUrl) = js "client.sqlite") as -> by (vm_compute; reflexivity).
  exact (resolved _ (proj1 (proj2 (proj2 plain_names)))).
Qed.
Lemma under_dir t : under dir (dir ++ slash :: t) = true.
Proof using. unfold under. apply orb_true_iff. right. apply starts_with_iff. exists t. by rewrite <- app_assoc. Qed.
Lemma not_global t : dir ++ slash :: t <> global_config_path home.
Proof using Hroot Hname. apply (config_outside root Hroot callsign); [done|apply under_dir]. Qed.
Lemma other_file a b : eqb (js a) (js b) = false -> dir ++ slash :: js a <> dir ++ slash :: js b.
Proof using. intros Hn E%app_inv_head. injection E as E. rewrite E, eqb_refl in Hn. discriminate Hn. Qed.

(** *** The steps *)

Definition only (paths : list jstr) (path : jstr) : bool := existsb (eqb path) paths.
Lemma only_in paths path : path ∈ paths -> only paths path = true.
Proof using. intros Hin. apply existsb_exists. exists path. split; [by apply list_elem_of_In|apply eqb_refl]. Qed.
Lemma only_out paths path : path ∉ paths -> only paths path = false.
Proof using.
  intros Hn. apply not_true_iff_false. intros (x & Hx & E)%existsb_exists. apply eqb_true in E as ->. by apply Hn, list_elem_of_In.
Qed.
Lemma within_only (area : jstr -> bool) paths {A} (m : Op A) :
  (forall path, path ∈ paths -> area path = true) -> preserves (changes_within (only paths)) m -> preserves (changes_within area) m.
Proof using.
  intros Ha Hm s path Hp. apply Hm, only_out. intros Hin. apply Ha in Hin. congruence.
Qed.
Lemma store_key_within : preserves (changes_within (only [dir ++ slash :: js "store.key"])) (write_store_key home callsign : Op unit).
Proof using Hroot Hname.
  unfold write_store_key, ensureKeyPermissions. rewrite key_path. apply preserves_bind; [apply _|apply within_world|]. intros bytes.
  apply preserves_bind; [apply _|apply within_write, only_in; by left|]. intros _.
  apply preserves_bind; [apply _|apply within_content, content_chmod|]. intros _. by apply within_same.
Qed.
Lemma store_key_written (s s' : machine V) : gives_bytes (W := V) -> write_store_key home callsign s = (Ok tt, s') ->
  exists key, length key = 32%nat /\ Forall byte_range key /\ content (dir ++ slash :: js "store.key") s' = Some (encodeBase64Url key) /\
    get (js "ECHOLET_STORE_KEY") (m_environment s') = Some (encodeBase64Url key).
Proof using Hroot Hname.
  intros Hb. unfold write_store_key, ensureKeyPermissions. rewrite key_path. intros (bs & s1 & E & Hr)%bind_ok.
  destruct (Hb 32%nat (m_world s)) as [Hl Hf].
  assert (bs = (randomBytes 32 (m_world s)).1) as -> by (unfold on_world in E; destruct (randomBytes 32 (m_world s)); by injection E as <- _).
  exists (randomBytes 32 (m_world s)).1. split; [exact Hl|]. split; [exact Hf|].
  apply bind_ok in Hr as ([] & s2 & (mode & Ew & _)%fs_write_ok & Hr). apply bind_ok in Hr as ([] & s3 & Ec & Hr).
  eapply fs_chmod_ok in Ec as [Ec _]; [|by rewrite Ew, lookup_insert_eq]. unfold modify in Hr. injection Hr as <-.
  cbn [m_files with_environment m_environment]. rewrite Ec, read_content_insert, decide_True by done. split; [done|]. apply get_set_eq.
Qed.
Lemma card_within o : preserves (changes_within (only [op_database o; dir ++ slash :: js "identity.card.json"])) (write_card home callsign o : Op unit).
Proof using Hroot Hname.
  unfold write_card. rewrite card_path. apply preserves_bind; [apply _|apply within_in_store, only_in; by left|]. intros card.
  apply preserves_bind; [apply _|apply within_write, only_in; right; by left|]. intros _. by apply within_same.
Qed.
Lemma card_keeps database key config : dir ++ slash :: js "identity.card.json" <> database ->
  preserves (keeps database key) (write_card home callsign (Opened database key config) : Op unit).
Proof using Hroot Hname.
  intros Hne. unfold write_card. rewrite card_path. apply preserves_bind; [apply _|apply keeps_in_store|]. intros card.
  apply preserves_bind; [apply _|apply keeps_elsewhere; [apply environment_try|apply within_write, negb_true_iff, eqb_neq, Hne]|].
  intros _. by intros s.
Qed.
(** Whether the keys can be published or not. *)
Lemma publish_relates (R : machine V -> machine V -> Prop) `{!PreOrder R} relayUrl (s : machine V) :
  (forall text, preserves R (say text : Op unit)) -> (forall text, preserves R (complain text : Op unit)) ->
  R s (openProfile cwd dir None false s).2 ->
  (forall o s' A (m : Rt (W := V) A), openProfile cwd dir None false s = (Ok o, s') -> preserves R (in_store o m)) ->
  R s (publish_keys cwd err_message dir relayUrl s).2.
Proof using.
  intros Hsay Hcomplain Hopen Hstore. unfold publish_keys, catch.
  set (m := bind (lift (new_RelayClient relayUrl 10000)) _).
  assert (R s (m s).2) as Hm.
  { subst m. unfold bind at 1, lift. destruct (new_RelayClient relayUrl 10000) as [relay|e]; [|done]. unfold bind at 1.
    destruct (openProfile cwd dir None false s) as [[o|e] s1]; [|exact Hopen]. etrans; [exact Hopen|].
    apply preserves_bind; [done|by eapply Hstore|]. intros _. apply Hsay. }
  clearbody m. destruct (m s) as [[[]|e] s1]; [exact Hm|]. etrans; [exact Hm|]. apply preserves_bind; [done|apply Hcomplain|]. intros _. apply Hcomplain.
Qed.
Lemma publish_within relayUrl config (s : machine V) : config_used cwd dir None s = Some config ->
  changes_within (only [database_of cwd dir config]) s (publish_keys cwd err_message dir relayUrl s).2.
Proof using.
  intros Hu. apply publish_relates; [apply _|intros text; by apply within_same|intros text; by apply within_same| |].
  - apply open_within; [|discriminate]. intros config' Hu'. rewrite Hu in Hu'. injection Hu' as <-. apply only_in. by left.
  - intros o s' A m Ho. apply within_in_store, only_in.
    unfold openProfile in Ho. apply bind_ok in Ho as ([has config'] & s1 & (_ & _ & Hc)%config_loaded & Ho). destruct (Hc _ _ eq_refl) as (Hu' & _).
    rewrite Hu in Hu'. injection Hu' as <-. apply bind_ok in Ho as (environment & s2 & _ & (key & s3 & _ & (profile & s4 & ->%load_store_opens & Ho)%bind_ok)%bind_ok).
    apply bind_ok in Ho as ([] & s5 & _ & Ho). injection Ho as <- _. by left.
Qed.
Lemma publish_keeps relayUrl config key (s : machine V) : config_used cwd dir None s = Some config ->
  readStoreKey (str_field (js "store_key_env") config) (fun name => get name (m_environment s)) = Ok key ->
  keeps (database_of cwd dir config) key s (publish_keys cwd err_message dir relayUrl s).2.
Proof using.
  intros Hu Hk. destruct (open_again cwd dir config key s Hu Hk) as [Hs Ho].
  apply publish_relates; [apply _|by intros text s1|by intros text s1|exact Hs|].
  intros o s' A m ->%Ho. apply keeps_in_store.
Qed.
Lemma choose_within : preserves (changes_within (only [global_config_path home])) (choose_station home callsign : Op unit).
Proof using.
  destruct (global_config_within (W := V) root (only [global_config_path home])) as [Hg Hs]; [apply only_in; by left|].
  unfold choose_station. apply preserves_bind; [apply _|exact Hg|]. intros config. apply preserves_bind; [apply _| |intros; apply Hs].
  unfold config_assign. destruct config; by preserves_step.
Qed.
(** The configuration of the directory is no array, if it is anything. *)
Definition config_object (s : machine V) : Prop :=
  forall text v, content (global_config_path home) s = Some text -> parse text = Some v -> exists members, v = JObj members.
Lemma config_got (s s' : machine V) config : config_object s -> getGlobalConfig home s = (Ok config, s') -> exists members, config = JObj members.
Proof using.
  intros Ho ([] & s1 & E1 & Hr)%bind_ok. pose proof (dirs_content home s (global_config_path home)) as Hc. rewrite E1 in Hc. cbn [snd] in Hc.
  apply bind_ok in Hr as (there & s2 & [-> ->]%fs_exists_read & Hr). destruct (m_files s1 !! global_config_path home).
  2:{ apply bind_ok in Hr as ([] & s3 & _ & Hr). injection Hr as <- _. by eexists. }
  apply bind_ok in Hr as (text & s3 & Et & Hr). injection Hr as <- _. destruct text as [text|]; [|by eexists].
  destruct (parse text) as [v|] eqn:Ep; [|by eexists]. apply (Ho text v); [|exact Ep]. rewrite <- Hc.
  unfold try_read, catch, bind in Et. destruct (fs_read (global_config_path home) s1) as [[t|e] s4] eqn:Er; [|done].
  apply read_file in Er as (Er & _). injection Et as <- _. exact Er.
Qed.
Lemma station_chosen (s s' : machine V) : config_object s -> choose_station home callsign s = (Ok tt, s') ->
  exists members, content (global_config_path home) s' = Some (pretty_json (JObj members)) /\ obj_get (js "activeProfile") members = Some (JStr callsign).
Proof using.
  intros Ho (config & s1 & Eg & Hr)%bind_ok. destruct (config_got s s1 config Ho Eg) as [members ->].
  apply bind_ok in Hr as (config & s2 & Ea & Hr). unfold config_assign in Ea. injection Ea as <- <-.
  apply bind_ok in Hr as ([] & s3 & _ & Hr). apply fs_put in Hr as [Hf _]. eexists. split; [by rewrite Hf, read_content_insert, decide_True|].
  apply obj_get_set_eq. vm_compute. reflexivity.
Qed.

(** *** The whole setup *)

(** Nothing lies in the directory. *)
Definition vacant (s : machine V) : Prop := forall t, content (dir ++ slash :: t) s = None.
Lemma vacant_after (s s1 s2 s3 : machine V) r key : vacant s -> fs_mkdir dir private_dir s = (r, s1) ->
  write_store_key home callsign s1 = (key, s2) -> m_files s3 = m_files s2 ->
  forall t, eqb (js "store.key") t = false -> content (dir ++ slash :: t) s3 = None.
Proof using Hroot Hname.
  intros Hv Em Ek Ef t Ht. pose proof (content_mkdir dir private_dir s (dir ++ slash :: t)) as Hc. rewrite Em in Hc. cbn [snd] in Hc.
  rewrite Ef. pose proof (store_key_within s1 (dir ++ slash :: t)) as Hk. rewrite Ek in Hk. cbn [snd] in Hk. rewrite Hk, Hc; [apply Hv|].
  apply only_out. intros E%list_elem_of_singleton. apply app_inv_head in E. injection E as ->. rewrite eqb_refl in Ht. discriminate Ht.
Qed.
(** What the opening of the new profile may write. *)
Definition opening_area (path : jstr) : bool :=
  eqb path (dir ++ slash :: js "client.sqlite") || starts_with (dir ++ slash :: js "config.json") path.
Lemma station_opened id relayUrl (s : machine V) : content (dir ++ slash :: js "config.json") s = None ->
  changes_within opening_area s (openProfile cwd dir (Some (station_config id relayUrl)) true s).2.
Proof using Hroot Hname.
  intros Hn. apply open_within.
  - unfold config_used. rewrite config_of_dir, Hn. intros config Hu. destruct (parseClientConfig _) as [c|] eqn:E; [|done]. injection Hu as <-.
    apply station_config_parsed in E as [-> _]. rewrite database_of_station. unfold opening_area. by rewrite eqb_refl.
  - intros _ t. rewrite config_of_dir. unfold opening_area. apply orb_true_iff. right. apply starts_with_iff. by eexists.
Qed.
Lemma outside_opening : opening_area (dir ++ slash :: js "store.key") = false /\ opening_area (global_config_path home) = false /\
  starts_with (dir ++ slash :: js "config.json") (dir ++ slash :: js "client.sqlite") = false.
Proof using Hroot Hname.
  assert (forall name, starts_with (js "config.json") (js name) = false -> starts_with (dir ++ slash :: js "config.json") (dir ++ slash :: js name) = false) as Hs.
  { intros name Hn. apply not_true_iff_false. intros (t & E)%starts_with_iff. rewrite <- app_assoc in E. apply app_inv_head in E. cbn [app] in E.
    injection E as E. apply not_true_iff_false in Hn. apply Hn, starts_with_iff. by exists t. }
  split; [|split].
  - unfold opening_area. apply orb_false_iff. split; [|apply Hs; vm_compute; reflexivity]. apply eqb_neq, other_file. vm_compute. reflexivity.
  - unfold opening_area. apply orb_false_iff. split; [apply eqb_neq, not_eq_sym, not_global|]. apply not_true_iff_false.
    intros (t & E)%starts_with_iff. rewrite <- app_assoc in E. cbn [app] in E. by apply (not_global (js "config.json" ++ t)).
  - apply Hs. vm_compute. reflexivity.
Qed.
Record station_files (key : bytes) (config : json) (s : machine V) : Prop := {
  key_file : content (dir ++ slash :: js "store.key") s = Some (encodeBase64Url key);
  config_file : content (dir ++ slash :: js "config.json") s = Some (pretty_json config);
  database_file : sealed_at (dir ++ slash :: js "client.sqlite") key s;
}.
Lemma files_same key config (s s' : machine V) : station_files key config s -> m_files s' = m_files s -> station_files key config s'.
Proof using. intros [Hk Hc (r & w & Hd)] E. split; [by rewrite E|by rewrite E|exists r, w; by rewrite E]. Qed.
Lemma files_kept paths key config (s s' : machine V) :
  station_files key config s -> changes_within (only paths) s s' -> keeps (dir ++ slash :: js "client.sqlite") key s s' ->
  (dir ++ slash :: js "store.key") ∉ paths -> (dir ++ slash :: js "config.json") ∉ paths -> station_files key config s'.
Proof using.
  intros [Hk Hc Hd] Hw [_ Hs] Hnk Hnc. split.
  - rewrite <- Hk. exact (Hw _ (only_out _ _ Hnk)).
  - rewrite <- Hc. exact (Hw _ (only_out _ _ Hnc)).
  - exact (Hs Hd).
Qed.
(** The new files, once the profile is opened; nothing else that matters changed. *)
Lemma station_begun typed (s3 s4 : machine V) key id o :
  ascii_origins -> length key = 32%nat -> Forall byte_range key ->
  content (dir ++ slash :: js "store.key") s3 = Some (encodeBase64Url key) ->
  get (js "ECHOLET_STORE_KEY") (m_environment s3) = Some (encodeBase64Url key) ->
  (forall t, eqb (js "store.key") t = false -> content (dir ++ slash :: t) s3 = None) ->
  openProfile cwd dir (Some (station_config id (relay_origin typed))) true s3 = (Ok o, s4) ->
  let config := station_config id (relay_origin typed) in
  json_ok config = true /\ parseClientConfig config = Ok config /\ o = Opened (dir ++ slash :: js "client.sqlite") key config /\
  station_files key config s4 /\ m_environment s4 = m_environment s3 /\ content (global_config_path home) s4 = content (global_config_path home) s3.
Proof using Hroot Hname.
  intros Ha Hl Hb Hk He Hv Eo. assert (content (dir ++ slash :: js "config.json") s3 = None) as Hc by (apply Hv; vm_compute; reflexivity).
  assert (content (dir ++ slash :: js "client.sqlite") s3 = None) as Hd by (apply Hv; vm_compute; reflexivity).
  pose proof (station_opened id (relay_origin typed) s3 Hc) as Hw. rewrite Eo in Hw. cbn [snd] in Hw. destruct outside_opening as (Ok1 & Og & Os).
  apply open_new in Eo as (config & key' & Ep & Ek & -> & Ef & Ee & Es); [|rewrite config_of_dir; exact Hc].
  destruct (station_config_ok _ _ _ Ha Ep) as [-> Hj]. rewrite config_of_dir in Ef, Es. rewrite database_of_station in *.
  assert (str_field (js "store_key_env") (station_config id (relay_origin typed)) = js "ECHOLET_STORE_KEY") as Hn by (vm_compute; reflexivity).
  destruct (proj1 (proj1 (readStoreKey_exact _ _) _) Ek) as (Ek' & Hl' & Hb'). clear Ek. rename Ek' into Ek. rewrite Hn, He in Ek. injection Ek as Ek.
  assert (key' = key) as -> by (rewrite <- (buffer_from_url key' Hb'), <- (buffer_from_url key Hb), Ek; reflexivity).
  split; [exact Hj|]. split; [exact Ep|]. split; [reflexivity|]. split; [|split; [exact Ee|exact (Hw _ Og)]].
  split; [rewrite (Hw _ Ok1); exact Hk|exact Ef|exact (Es Hd Os)].
Qed.
Lemma area_here t : deletion_area root callsign (dir ++ slash :: t) = true.
Proof using. unfold deletion_area. by rewrite under_dir. Qed.
Lemma area_global : deletion_area root callsign (global_config_path home) = true.
Proof using. unfold deletion_area, config_only. by rewrite eqb_refl, orb_true_r. Qed.
Lemma config_kept key id typed (s : machine V) : json_ok (station_config id (relay_origin typed)) = true ->
  parseClientConfig (station_config id (relay_origin typed)) = Ok (station_config id (relay_origin typed)) ->
  station_files key (station_config id (relay_origin typed)) s -> config_used cwd dir None s = Some (station_config id (relay_origin typed)).
Proof using Hroot Hname.
  intros Hj Hp [_ Hc _]. unfold config_used. rewrite config_of_dir, Hc. cbv beta iota. rewrite (parse_pretty _ Hj), Hp. reflexivity.
Qed.
Section finishing.
Context (typed id : jstr) (key : bytes) (Hlen : length key = 32%nat) (Hbytes : Forall byte_range key).
Abbreviation relayUrl := (relay_origin typed).
Abbreviation config := (station_config id relayUrl).
Context (Hok : json_ok config = true) (Hparsed : parseClientConfig config = Ok config).
Abbreviation profile := (Opened (dir ++ slash :: js "client.sqlite") key config).
(** The card is written, and the new files are as they were. *)
Lemma after_card (s : machine V) : station_files key config s ->
  let s' := (write_card home callsign profile s).2 in
  station_files key config s' /\ m_environment s' = m_environment s /\
  changes_within (only [dir ++ slash :: js "client.sqlite"; dir ++ slash :: js "identity.card.json"]) s s'.
Proof using Hroot Hname.
  intros Hs. pose proof (card_within profile s) as Hw. assert (keeps (dir ++ slash :: js "client.sqlite") key s (write_card home callsign profile s).2) as Hk.
  { apply card_keeps, other_file. vm_compute. reflexivity. }
  split; [|split; [exact (proj1 Hk)|exact Hw]]. apply (files_kept _ _ _ _ _ Hs Hw Hk).
  - intros [E|E%list_elem_of_singleton]%elem_of_cons; revert E; apply other_file; vm_compute; reflexivity.
  - intros [E|E%list_elem_of_singleton]%elem_of_cons; revert E; apply other_file; vm_compute; reflexivity.
Qed.
Lemma after_publish (s : machine V) : station_files key config s ->
  get (js "ECHOLET_STORE_KEY") (m_environment s) = Some (encodeBase64Url key) ->
  let s' := (publish_keys cwd err_message dir relayUrl s).2 in
  station_files key config s' /\ changes_within (only [dir ++ slash :: js "client.sqlite"]) s s'.
Proof using Hroot Hname Hlen Hbytes Hok Hparsed.
  intros Hs He. pose proof (config_kept key id typed s Hok Hparsed Hs) as Hu. pose proof (publish_within relayUrl config s Hu) as Hw.
  assert (readStoreKey (str_field (js "store_key_env") config) (fun name => get name (m_environment s)) = Ok key) as Hk.
  { assert (str_field (js "store_key_env") config = js "ECHOLET_STORE_KEY") as -> by (vm_compute; reflexivity).
    apply (proj2 (proj1 (readStoreKey_exact _ _) key)). split; [exact He|split; [exact Hlen|exact Hbytes]]. }
  pose proof (publish_keeps relayUrl config key s Hu Hk) as Hkeep. rewrite database_of_station in Hw, Hkeep.
  split; [|exact Hw]. apply (files_kept _ _ _ _ _ Hs Hw Hkeep); intros E%list_elem_of_singleton; revert E; apply other_file; vm_compute; reflexivity.
Qed.
Lemma finishing_contained (s : machine V) : station_files key config s ->
  get (js "ECHOLET_STORE_KEY") (m_environment s) = Some (encodeBase64Url key) ->
  changes_within (deletion_area root callsign) s (finish_station home cwd err_message callsign relayUrl profile s).2.
Proof using Hroot Hname Hlen Hbytes Hok Hparsed.
  intros Hs He. destruct (after_card s Hs) as (Hs1 & He1 & Hw1). unfold finish_station. apply within_then.
  { intros path Hp. apply Hw1, only_out. intros [-> | ->%list_elem_of_singleton]%elem_of_cons; rewrite area_here in Hp; discriminate Hp. }
  intros [] s1 E1. rewrite E1 in Hs1, He1. cbn [snd] in Hs1, He1. apply within_then; [by intros path _|]. intros [] s2 E2.
  assert (station_files key config s2 /\ m_environment s2 = m_environment s1) as [Hs2 He2] by (injection E2 as <-; split; [by apply (files_same _ _ s1)|reflexivity]).
  rewrite He1 in He2. rewrite <- He2 in He. destruct (after_publish s2 Hs2 He) as (_ & Hw3). apply within_then.
  { intros path Hp. apply Hw3, only_out. intros ->%list_elem_of_singleton. rewrite area_here in Hp. discriminate Hp. }
  intros [] s3 _. apply within_then; [|intros [] s4 _; apply within_then; [by intros path _|intros [] s5 _; by intros path _]].
  apply (within_only _ [global_config_path home]); [|apply choose_within]. intros path ->%list_elem_of_singleton. apply area_global.
Qed.
Lemma finishing_ok (s s' : machine V) : station_files key config s -> config_object s ->
  get (js "ECHOLET_STORE_KEY") (m_environment s) = Some (encodeBase64Url key) ->
  finish_station home cwd err_message callsign relayUrl profile s = (Ok tt, s') ->
  station_files key config s' /\
  exists members, content (global_config_path home) s' = Some (pretty_json (JObj members)) /\ obj_get (js "activeProfile") members = Some (JStr callsign).
Proof using Hroot Hname Hlen Hbytes Hok Hparsed.
  intros Hs Ho He. destruct (after_card s Hs) as (Hs1 & He1 & Hw1). intros ([] & s1 & E1 & Hr)%bind_ok.
  rewrite E1 in Hs1, He1, Hw1. cbn [snd] in Hs1, He1, Hw1. apply bind_ok in Hr as ([] & s2 & E2 & Hr).
  assert (station_files key config s2 /\ m_environment s2 = m_environment s1 /\ m_files s2 = m_files s1) as (Hs2 & He2 & Hf2)
    by (injection E2 as <-; split; [by apply (files_same _ _ s1)|split; reflexivity]).
  rewrite He1 in He2. rewrite <- He2 in He. destruct (after_publish s2 Hs2 He) as (Hs3 & Hw3). apply bind_ok in Hr as ([] & s3 & E3 & Hr).
  rewrite E3 in Hs3, Hw3. cbn [snd] in Hs3, Hw3. apply bind_ok in Hr as ([] & s4 & E4 & Hr).
  assert (content (global_config_path home) s3 = content (global_config_path home) s) as Hg.
  { rewrite (Hw3 _ (only_out [_] _ (fun H => not_global _ (eq_sym (proj1 (list_elem_of_singleton _ _) H))))), Hf2. apply Hw1, only_out.
    intros [E|E%list_elem_of_singleton]%elem_of_cons; exact (not_global _ (eq_sym E)). }
  assert (config_object s3) as Ho3 by (intros text v Ht; rewrite Hg in Ht; by apply Ho).
  destruct (station_chosen s3 s4 Ho3 E4) as (members & Hm & Hget). pose proof (choose_within s3) as Hw4. rewrite E4 in Hw4. cbn [snd] in Hw4.
  assert (station_files key config s4) as Hs4.
  { destruct Hs3 as [Hk Hc (r & w & Hd)]. split; [rewrite <- Hk|rewrite <- Hc|exists r, w; rewrite <- Hd];
      (apply Hw4, only_out; intros E%list_elem_of_singleton; exact (not_global _ E)). }
  assert (m_files s' = m_files s4) as Hf by (unfold say, modify, bind in Hr; by injection Hr as <-).
  split; [exact (files_same _ _ _ _ Hs4 Hf)|]. exists members. rewrite Hf. split; [exact Hm|exact Hget].
Qed.
End finishing.

Section making.
Context (Hbytes : gives_bytes (W := V)) (Hascii : ascii_origins).
(** The state the new profile is opened in: an empty directory but for the key. *)
Lemma making_begun (s s1 s2 s2' s3 : machine V) text id : vacant s -> fs_mkdir dir private_dir s = (Ok tt, s1) ->
  write_store_key home callsign s1 = (Ok tt, s2) -> say text s2 = (Ok tt, s2') -> on_world randomUUID s2' = (Ok id, s3) ->
  (forall t, eqb (js "store.key") t = false -> content (dir ++ slash :: t) s3 = None) /\
  content (global_config_path home) s3 = content (global_config_path home) s /\
  exists key, length key = 32%nat /\ Forall byte_range key /\ content (dir ++ slash :: js "store.key") s3 = Some (encodeBase64Url key) /\
    get (js "ECHOLET_STORE_KEY") (m_environment s3) = Some (encodeBase64Url key).
Proof using Hroot Hname Hbytes.
  intros Hv Em Ek E2 E3.
  assert (m_files s3 = m_files s2 /\ m_environment s3 = m_environment s2) as [Hf3 He3].
  { injection E2 as <-. unfold on_world in E3. destruct (randomUUID _) as [x v]. by injection E3 as _ <-. }
  split; [exact (vacant_after s s1 s2 s3 _ _ Hv Em Ek Hf3)|]. split.
  - rewrite Hf3. pose proof (store_key_within s1 (global_config_path home)) as Hk. rewrite Ek in Hk. cbn [snd] in Hk. rewrite Hk.
    + pose proof (content_mkdir dir private_dir s (global_config_path home)) as Hc. rewrite Em in Hc. exact Hc.
    + apply only_out. intros E%list_elem_of_singleton. exact (not_global _ (eq_sym E)).
  - destruct (store_key_written s1 s2 Hbytes Ek) as (key & Hl & Hr & Hk & He). exists key. rewrite Hf3, He3. by split_and!.
Qed.
(** Only the profile's directory and the configuration change, whatever fails on the way. *)
Lemma making_contained typed (s : machine V) : vacant s ->
  changes_within (deletion_area root callsign) s (make_station home cwd err_message callsign (relay_origin typed) s).2.
Proof using Hroot Hname Hbytes Hascii.
  intros Hv. unfold make_station. cbv zeta. apply within_then; [apply within_content, content_mkdir|]. intros [] s1 Em.
  apply within_then.
  { apply (within_only _ [dir ++ slash :: js "store.key"]); [intros path ->%list_elem_of_singleton; apply area_here|apply store_key_within]. }
  intros [] s2 Ek. apply within_then; [by apply within_same|]. intros [] s2' E2. apply within_then; [apply within_world|]. intros id s3 E3.
  destruct (making_begun s s1 s2 s2' s3 _ id Hv Em Ek E2 E3) as (Hv3 & _ & key & Hl & Hr & Hk & He).
  apply within_then.
  { intros path Hp. refine (station_opened id (relay_origin typed) s3 _ path _); [apply Hv3; vm_compute; reflexivity|].
    unfold opening_area. apply orb_false_iff. split.
    - apply eqb_neq. intros ->. rewrite area_here in Hp. discriminate Hp.
    - apply not_true_iff_false. intros (t & ->)%starts_with_iff. rewrite <- app_assoc in Hp. cbn [app] in Hp. rewrite area_here in Hp. discriminate Hp. }
  intros o s4 Eo. destruct (station_begun typed s3 s4 key id o Hascii Hl Hr Hk He Hv3 Eo) as (Hj & Hp & -> & Hfiles & He4 & _).
  apply (finishing_contained typed id key Hl Hr Hj Hp s4 Hfiles). rewrite He4. exact He.
Qed.
Lemma making_ok typed (s s' : machine V) : vacant s -> config_object s ->
  make_station home cwd err_message callsign (relay_origin typed) s = (Ok tt, s') ->
  exists key id, let config := station_config id (relay_origin typed) in
    length key = 32%nat /\ Forall byte_range key /\ json_ok config = true /\ parseClientConfig config = Ok config /\ station_files key config s' /\
    exists members, content (global_config_path home) s' = Some (pretty_json (JObj members)) /\ obj_get (js "activeProfile") members = Some (JStr callsign).
Proof using Hroot Hname Hbytes Hascii.
  intros Hv Ho ([] & s1 & Em & ([] & s2 & Ek & ([] & s2' & E2 & (id & s3 & E3 & (o & s4 & Eo & Hr)%bind_ok)%bind_ok)%bind_ok)%bind_ok)%bind_ok.
  destruct (making_begun s s1 s2 s2' s3 _ id Hv Em Ek E2 E3) as (Hv3 & Hg3 & key & Hl & Hb & Hk & He).
  destruct (station_begun typed s3 s4 key id o Hascii Hl Hb Hk He Hv3 Eo) as (Hj & Hp & -> & Hfiles & He4 & Hg4).
  exists key, id. split; [exact Hl|]. split; [exact Hb|]. split; [exact Hj|]. split; [exact Hp|].
  apply (finishing_ok typed id key Hl Hb Hj Hp s4 s' Hfiles); [|rewrite He4; exact He|exact Hr].
  intros text v Ht. rewrite Hg4, Hg3 in Ht. by apply Ho.
Qed.
End making.

(** *** Room for the new station *)

Lemma room_made (s s' : machine V) r : make_room home callsign s = (r, s') ->
  changes_within (deletion_area root callsign) s s' /\
  (r = Ok false -> m_files s' = m_files s) /\
  (r = Ok true -> (m_files s !! dir = None -> vacant s) -> m_input s' ∈ [m_input s; tail (m_input s)] /\ vacant s' /\ content (global_config_path home) s' = content (global_config_path home) s).
Proof using Hroot Hname.
  unfold make_room. cbv zeta. rewrite (bind_run (fs_exists dir) _ s _ s eq_refl). destruct (m_files s !! dir) as [n|] eqn:Ed; cbn [negb].
  2:{ intros [= <- <-]. split; [by intros path _|]. split; [done|]. intros _ Hv. split; [by left|]. split; [by apply Hv|reflexivity]. }
  rewrite (bind_run (fs_exists _) _ s _ s eq_refl).
  set (ask := if match m_files s !! getClientDbPath home callsign with Some _ => true | None => false end then _ else ret true).
  assert (exists b s1, ask s = (Ok b, s1) /\ m_files s1 = m_files s /\ m_input s1 ∈ [m_input s; tail (m_input s)]) as (b & s1 & E1 & Hf & Hin).
  { subst ask. destruct (m_files s !! getClientDbPath home callsign); [|by exists true, s; split_and!; [..|left]]. unfold confirm.
    match goal with |- context [Operator.ask ?question ?answer] => destruct (ask_run question answer s) as (s1 & E & Hi & Hf) end.
    rewrite (bind_run _ _ _ _ _ E). eexists _, s1. split; [reflexivity|]. split; [exact Hf|]. rewrite Hi. right. by left. }
  rewrite (bind_run _ _ _ _ _ E1). clearbody ask. destruct b.
  2:{ intros [= <- <-]. split; [intros path _; cbn [m_files]; by rewrite Hf|]. by split. }
  destruct (fs_rm dir s1) as [[[]|e] s2] eqn:Er.
  2:{ rewrite (bind_fails _ _ _ _ _ Er). intros [= <- <-]. apply fs_try_err in Er as [Ef _]. split; [intros path _; by rewrite Ef, Hf|]. by split. }
  rewrite (bind_run _ _ _ _ _ Er). intros [= <- <-]. apply fs_try_ok in Er as (fs & [= <-] & Ef & Hi & _). rewrite Hf in Ef.
  split; [|split; [done|]].
  - intros path Hp. unfold deletion_area in Hp. apply orb_false_iff in Hp as [Hp _]. by rewrite Ef, removed_content, Hp.
  - intros _ _. split; [by rewrite Hi|]. split; [intros t; by rewrite Ef, removed_content, under_dir|]. rewrite Ef, removed_content.
    destruct (under dir (global_config_path home)) eqn:Eu; [|done]. by destruct (config_outside root Hroot callsign _ Hname Eu).
Qed.

(** What the start reads of a profile. *)
Lemma start_reads config (s : machine V) : calm s -> json_ok config = true -> parseClientConfig config = Ok config ->
  content (dir ++ slash :: js "config.json") s = Some (pretty_json config) -> (readStationProfileConfig dir s).1 = Ok config.
Proof using Hroot Hname.
  intros Hs Hj Hp Hc. unfold readStationProfileConfig. rewrite (joined _ (proj1 (proj2 plain_names))).
  assert (exists mode, m_files s !! (dir ++ slash :: js "config.json") = Some (FileNode (pretty_json config) mode)) as [mode E].
  { unfold read_content in Hc. destruct (m_files s !! _) as [[c m|]|]; [|done|done]. injection Hc as ->. by eexists. }
  destruct (fs_read_total _ _ mode s Hs E) as (s1 & E1 & _). rewrite (bind_run _ _ _ _ _ E1), (parse_pretty _ Hj).
  unfold from_option, ret, bind, lift. cbn [fst]. exact Hp.
Qed.

(** C37: What the setup of a station leaves, the station starts on.  For a callsign that is a plain
    name, whatever fails on the way, [echolet station setup] changes the text of no file but
    those of that profile's directory and the configuration.  When it succeeds, it changed no
    file, because the operator kept the station that was there; or the directory holds a key of
    32 random bytes in the form the store accepts, a configuration that [echolet station start]
    accepts and that names the relay that was typed, the variable of the key and the database,
    a database sealed under that key, and the callsign is the active profile. *)
Theorem station_setup_startable (s s' : machine V) r :
  gives_bytes (W := V) -> ascii_origins -> config_object s ->
  answer_of (js "Echo-Operator") (m_input s) = callsign -> (m_files s !! dir = None -> vacant s) ->
  station_setup home cwd err_message s = (r, s') ->
  (forall path, under dir path = false -> path <> global_config_path home -> content path s' = content path s) /\
  (r = Ok tt -> m_files s' = m_files s \/ exists key config members typed,
     typed ∈ map (answer_of default_relay) [tail (m_input s); tail (tail (m_input s))] /\
     (content (getStoreKeyPath home callsign) s' = Some (encodeBase64Url key) /\
      readStoreKey (js "ECHOLET_STORE_KEY") (fun _ => Some (encodeBase64Url key)) = Ok key) /\
     (content (getProfileConfigPath home callsign) s' = Some (pretty_json config) /\
      (calm s' -> (readStationProfileConfig dir s').1 = Ok config)) /\
     (str_field (js "relay_url") config = relay_origin (trim typed) /\ str_field (js "store_key_env") config = js "ECHOLET_STORE_KEY" /\
      database_of cwd dir config = getClientDbPath home callsign /\ sealed_at (getClientDbPath home callsign) key s') /\
     content (global_config_path home) s' = Some (pretty_json (JObj members)) /\ obj_get (js "activeProfile") members = Some (JStr callsign)).
Proof using Hroot Hname.
  intros Hb Ha Ho Hc Hwhole. unfold station_setup. rewrite (bind_run (say _) _ s tt _ eq_refl).
  match goal with |- bind _ _ ?s0 = _ -> _ => set (s1 := s0) end.
  destruct (ask_run (js "Введите позывной станции (Callsign)") (js "Echo-Operator") s1) as (s2 & E2 & Hi2 & Hf2). rewrite (bind_run _ _ _ _ _ E2).
  change (m_input s1) with (m_input s) in *. change (m_files s1) with (m_files s) in *. rewrite Hc. clear E2.
  destruct (make_room home callsign s2) as [goes s3] eqn:Er. apply room_made in Er as Hroom. destruct Hroom as (Hw & Hno & Hyes).
  assert (changes_within (deletion_area root callsign) s s3) as Hw' by (intros path Hp; by rewrite (Hw path Hp), Hf2). clear Hw.
  assert (forall s', changes_within (deletion_area root callsign) s s' -> forall path, under dir path = false -> path <> global_config_path home ->
    content path s' = content path s) as Hspec.
  { intros s4 Hw4 path Hu Hg. apply Hw4. unfold deletion_area, config_only. by rewrite Hu, (proj2 (eqb_neq _ _) Hg). }
  destruct goes as [goes|e]; [|rewrite (bind_fails _ _ _ _ _ Er); intros [= <- <-]; split; [exact (Hspec _ Hw')|discriminate]].
  rewrite (bind_run _ _ _ _ _ Er). destruct goes.
  2:{ intros [= <- <-]. split; [exact (Hspec _ Hw')|]. intros _. left. by rewrite Hno. }
  destruct (Hyes eq_refl) as (Hin & Hv & Hg); [rewrite Hf2; intros Hn t; rewrite Hf2; by apply Hwhole|]. rewrite Hi2 in Hin. rewrite Hf2 in Hg.
  destruct (ask_run (js "URL ретранслятора/релея") default_relay s3) as (s4 & E4 & _ & Hf4). rewrite (bind_run _ _ _ _ _ E4). clear E4.
  set (typed := answer_of default_relay (m_input s3)). intros Em.
  assert (vacant s4) as Hv4 by (intros t; rewrite Hf4; apply Hv).
  pose proof (making_contained Hb Ha (trim typed) s4 Hv4) as Hw4. rewrite Em in Hw4. cbn [snd] in Hw4. split.
  { apply Hspec. etrans; [exact Hw'|]. etrans; [|exact Hw4]. intros path _. by rewrite Hf4. }
  intros ->. right. assert (config_object s4) as Ho4 by (intros text v Ht; rewrite Hf4, Hg in Ht; by apply Ho).
  destruct (making_ok Hb Ha (trim typed) s4 s' Hv4 Ho4 Em) as (key & id & Hl & Hr & Hj & Hp & [Hk Hcf Hd] & members & Hm & Hget).
  exists key, (station_config id (relay_origin (trim typed))), members, typed.
  split; [by apply (list_elem_of_fmap_2 (answer_of default_relay))|]. rewrite key_path, profile_config_path, !database_path.
  split; [split; [exact Hk|]|split; [split; [exact Hcf|]|split; [|split; [exact Hm|exact Hget]]]].
  - apply (proj2 (proj1 (readStoreKey_exact _ _) key)). split; [reflexivity|split; [exact Hl|exact Hr]].
  - intros Hcalm. exact (start_reads _ s' Hcalm Hj Hp Hcf).
  - split; [vm_compute; reflexivity|]. split; [vm_compute; reflexivity|]. split; [apply database_of_station|exact Hd].
Qed.
End named.
End station.

(** ** A contact is added *)

Section contact.
Context {V : Type} `{Zod} `{World V} `{Native V} `{Crypto} `{Fetch V} `{UrlParser} `{Gcm} `{Sqlite}.
Abbreviation Op := (M (machine V)).
Abbreviation content path s := (read_content path (m_files s)).
Context (cwd : jstr) (err_message : err -> jstr).

Lemma card_read arg (s : machine V) : m_files (card_data cwd arg s).2 = m_files s.
Proof using.
  unfold card_data. cbv zeta. rewrite (bind_run (fs_exists _) _ s _ s eq_refl). destruct (m_files s !! _) as [n|].
  - unfold bind at 1. destruct (fs_read _ s) as [[text|e] s1] eqn:E; [|by apply fs_try_err in E as [E _]].
    apply read_file in E as (_ & E & _). by destruct (parse text).
  - unfold bind, ret. by destruct (parse arg).
Qed.
Lemma card_environment arg : preserves same_environment (card_data cwd arg : Op json).
Proof using.
  unfold card_data. cbv zeta. apply preserves_bind; [apply _|by intros s|]. intros there. apply preserves_bind; [apply _| |].
  - destruct there; [apply environment_try|apply preserves_ret; apply _].
  - intros text. apply preserves_from_option; apply _.
Qed.
Lemma import_and_walk_ok cardData (s s' : env V) b : import_and_walk cardData s = (Ok b, s') ->
  commits s' <> [] /\ exists wire a bundle canonical,
    let k := contact_key (str_field (js "identity_id") (contact_identifiers wire)) in
    (exists copied card, copyJson cardData = Ok copied /\ zod_parse cardSchema copied = Ok card /\ wire = sub_field (js "signal_bundle") card) /\
    importVerifiedSignalBundleV2 wire (str_field (js "identity_id") (sub_field (js "device_record") wire))
      (str_field (js "device_id") (sub_field (js "device_record") wire)) (date_now (world s)).1 = Ok (a, bundle) /\
    get k (disk s') = Some (json_encode (contact_identifiers wire)) /\
    pk_deserialize (pb_identity bundle) = Some canonical /\ get (trust_key a) (disk s') = Some canonical /\
    get mailboxRewalkKey (disk s') = Some (utf8_encode (js "0")) /\
    (forall bs, get k (disk s) = Some bs -> exists j old,
       json_decode bs = Some j /\ contactSchema j = Some old /\ stringify old = stringify (contact_identifiers wire)) /\
    (forall k', cli_key k' = true -> k' <> k -> k' <> mailboxRewalkKey -> get k' (disk s') = get k' (disk s)) /\
    (forall a', trust_key a' <> trust_key a -> get (trust_key a') (disk s') = get (trust_key a') (disk s)).
Proof using.
  intros (imported & s1 & Hi & Hr)%bind_ok. destruct (import_runs _ _ _ _ _ Hi) as [(_ & Hn & Hf)|(ask & wire & now & a & bundle & w0 & w1 & Hw & -> & Ea & Hask & Ei & Ht)].
  { destruct imported; [by destruct Hn|]. by destruct (Hf eq_refl) as (ask & ids & w0 & w1 & [= <-] & [=]). }
  apply transact_ok in Ht as (w & w' & Hp & Hc).
  apply pin_contact_ok in Hp as (-> & Hg & Hprev & (canonical & Hk & Ht & _) & Hf1 & Hf2). cbn [disk fst] in *.
  apply bind_ok in Hr as ([] & s2 & Hwalk & Hr). injection Hr as <- <-. cbn [when] in Hwalk.
  apply transact_ok in Hwalk as (w2 & w2' & Hset & Hc2). apply tx_set_ok in Hset. injection Hset as Hdisk _.
  assert (cli_key mailboxRewalkKey = true) as Hcli by (vm_compute; reflexivity).
  assert (mailboxRewalkKey <> contact_key (str_field (js "identity_id") (contact_identifiers wire))) as Hne.
  { intros E. unfold contact_key in E. rewrite <- (app_nil_r mailboxRewalkKey) in E. revert E. apply clash_ne. vm_compute. reflexivity. }
  split; [rewrite Hc2; by destruct (commits s1)|]. exists wire, a, bundle, canonical. cbv zeta. rewrite Hdisk.
  split; [exact Hw|]. split; [exact Ei|]. split; [rewrite get_set_ne by exact Hne; exact Hg|]. split; [exact Hk|].
  split; [rewrite get_set_ne by exact (not_eq_sym (cli_not_trust _ _ Hcli)); exact Ht|]. split; [apply get_set_eq|]. split; [exact Hprev|]. split.
  - intros k' Hk' Hnk Hnr. rewrite get_set_ne by exact (not_eq_sym Hnr). exact (Hf1 k' Hk' Hnk).
  - intros a' Ha'. rewrite get_set_ne by exact (not_eq_sym (cli_not_trust _ _ Hcli)). exact (Hf2 a' Ha').
Qed.
Lemma used_same dir given (s s1 : machine V) : m_files s1 = m_files s -> config_used cwd dir given s1 = config_used cwd dir given s.
Proof using. intros E. unfold config_used. by rewrite E. Qed.
Lemma opened_as dir config o (s s' : machine V) : config_used cwd dir None s = Some config ->
  openProfile cwd dir None false s = (Ok o, s') -> exists key, o = Opened (database_of cwd dir config) key config /\
    readStoreKey (str_field (js "store_key_env") config) (fun name => get name (m_environment s)) = Ok key.
Proof using.
  intros Hu ([has config'] & s1 & (_ & He & Hc)%config_loaded & Ho)%bind_ok. destruct (Hc _ _ eq_refl) as (Hu' & _).
  rewrite Hu in Hu'. injection Hu' as <-. apply bind_ok in Ho as (environment & s2 & Eg & Ho). injection Eg as <- <-.
  apply bind_ok in Ho as (key & s3 & Ek & (profile & s4 & ->%load_store_opens & Ho)%bind_ok). unfold lift in Ek. injection Ek as Ek _. rewrite He in Ek.
  apply bind_ok in Ho as ([] & s5 & _ & Ho). injection Ho as <- _. by exists key.
Qed.
(** What was committed is in the file. *)
Lemma in_store_ok {A} o (m : Rt (W := V) A) (s s' : machine V) a : in_store o m s = (Ok a, s') ->
  exists before e, records_in (op_database o) (op_key o) (m_files s) = Ok before /\ m (Env before (m_world s) []) = (Ok a, e) /\
    (commits e <> [] -> exists w, content (op_database o) s' = Some (row_text (write (op_key o) (disk e) w).1)).
Proof using.
  unfold in_store. destruct (records_in _ _ _) as [before|e] eqn:Er; [|done]. destruct (m _) as [r e] eqn:Em. intros [= -> <-].
  exists before, e. split; [done|]. split; [done|]. intros Hc. destruct (commits e); [done|]. unfold records_in, read_content in Er.
  unfold save_records. cbn [m_files with_world]. destruct (m_files s !! op_database o) as [[text mode|]|]; [|done..].
  destruct (write _ _ _) as [sealed v] eqn:Ew. exists (m_world (with_world (world e) s)). cbn [m_files with_world with_files].
  by rewrite read_content_insert, decide_True, Ew.
Qed.

Lemma contact_within profileName dir cardData config (s : machine V) : config_used cwd dir None s = Some config ->
  changes_within (only [database_of cwd dir config]) s (catch (add_card cwd profileName dir cardData)
    (fun e => complain (js "Ошибка импорта контакта: " ++ err_message e);; exit_process 1) s).2.
Proof using.
  intros Hu. assert (changes_within (only [database_of cwd dir config]) s (add_card cwd profileName dir cardData s).2) as Hm.
  { unfold add_card. apply within_then.
    - apply open_within; [|discriminate]. intros config' Hu'. rewrite Hu in Hu'. injection Hu' as <-. apply only_in. by left.
    - intros o s1 Ho. destruct (opened_as _ _ _ _ _ Hu Ho) as (key & -> & _).
      apply preserves_bind; [apply _|apply within_in_store, only_in; by left|]. intros [].
      + apply preserves_bind; [apply _|by apply within_same|]. intros _. by apply within_same.
      + by apply within_same. }
  unfold catch. destruct (add_card cwd profileName dir cardData s) as [[[]|e] s1]; exact Hm.
Qed.

(** C38: A contact is added to the profile's database, as its card says, and nothing else of it
    changes.  Whatever happens, [echolet contact add] changes no text but that of the database
    which the profile's configuration names.  When it succeeds, the argument, or the file it
    names, is the text of a card; the profile was opened with its key; and the card's bundle
    was verified at the instant the clock showed then.  If the database was, when the command
    started, the records [before] sealed under that key, it is now, sealed under it, records
    that have the identifiers of that bundle, its key as the trusted one and a request to walk
    the mailbox again, and in which every other contact, every other record of the client and
    every other trusted key is as it was in [before].  A contact with that identity is only
    ever confirmed, never replaced. *)
Theorem contact_added `{!GcmLaws} `{!SqliteLaws} profileName dir args config (s s' : machine V) r :
  (forall n w, length (randomBytes n w).1 = n) ->
  config_used cwd dir None s = Some config ->
  contact_add cwd err_message profileName dir args s = (r, s') ->
  let database := database_of cwd dir config in
  (forall path, path <> database -> content path s' = content path s) /\
  (r = Ok tt -> exists arg key cardData s1 s2 wire a bundle,
     (Operator.arg args 1 = Some arg /\ card_data cwd arg s = (Ok cardData, s1)) /\
     (readStoreKey (str_field (js "store_key_env") config) (fun name => get name (m_environment s)) = Ok key /\
      openProfile cwd dir None false s1 = (Ok (Opened database key config), s2)) /\
     (exists copied card, copyJson cardData = Ok copied /\ zod_parse cardSchema copied = Ok card /\ wire = sub_field (js "signal_bundle") card) /\
     importVerifiedSignalBundleV2 wire (str_field (js "identity_id") (sub_field (js "device_record") wire))
       (str_field (js "device_id") (sub_field (js "device_record") wire)) (date_now (m_world s2)).1 = Ok (a, bundle) /\
     forall before, records_ok before -> holds_records database key before s ->
     exists after canonical, holds_records database key after s' /\
       let k := contact_key (str_field (js "identity_id") (contact_identifiers wire)) in
       (get k after = Some (json_encode (contact_identifiers wire)) /\ pk_deserialize (pb_identity bundle) = Some canonical /\
        get (trust_key a) after = Some canonical /\ get mailboxRewalkKey after = Some (utf8_encode (js "0"))) /\
       (forall bs, get k before = Some bs -> exists j old,
          json_decode bs = Some j /\ contactSchema j = Some old /\ stringify old = stringify (contact_identifiers wire)) /\
       (forall k', cli_key k' = true -> k' <> k -> k' <> mailboxRewalkKey -> get k' after = get k' before) /\
       (forall a', trust_key a' <> trust_key a -> get (trust_key a') after = get (trust_key a') before)).
Proof using.
  intros Hlen Hu. unfold contact_add. cbv zeta. destruct (Operator.arg args 1) as [[|u rest]|] eqn:Earg.
  1,3: unfold complain, exit_process, modify, throw, bind; intros [= <- <-]; split; [done|discriminate].
  pose proof (card_read (u :: rest) s) as Hf. pose proof (card_environment (u :: rest) s) as Henv.
  unfold attempted. destruct (card_data cwd (u :: rest) s) as [read s1] eqn:Ec. cbn [snd] in Hf, Henv.
  rewrite (bind_run _ _ s read s1) by (by rewrite Ec).
  destruct read as [cardData|e]; [|unfold complain, exit_process, modify, throw, bind; intros [= <- <-]; cbn [m_files with_exit]; rewrite Hf; split; [done|discriminate]].
  rewrite <- (used_same dir None _ _ Hf) in Hu. intros E.
  assert (forall path, path <> database_of cwd dir config -> content path s' = content path s1) as Hw.
  { intros path Hp. refine (_ : read_content path (m_files (r, s').2) = _). rewrite <- E.
    apply (contact_within profileName dir cardData config s1 Hu). apply only_out. by intros ->%list_elem_of_singleton. }
  split; [intros path Hp; by rewrite (Hw path Hp), Hf|]. intros ->. clear Hw.
  unfold catch in E. destruct (add_card cwd profileName dir cardData s1) as [[[]|e] s4] eqn:Ea; [|discriminate E]. injection E as ->.
  unfold add_card in Ea. apply bind_ok in Ea as (o & s2 & Eo & Ea). destruct (opened_as _ _ _ _ _ Hu Eo) as (key & -> & Hkey).
  apply bind_ok in Ea as (b & s3 & Ei & Ea). assert (m_files s' = m_files s3) as Hf3 by (destruct b; unfold say, modify, bind in Ea; by injection Ea as <-).
  apply in_store_ok in Ei as (stored & e & Hb & Hrun & Hsaved). cbn [op_database op_key] in *.
  destruct (import_and_walk_ok _ _ _ _ Hrun) as (Hne & wire & a & bundle & canonical & Hw & Hi & Hg & Hpk & Ht & Hwalk & Hprev & Hother & Htrust).
  destruct (Hsaved Hne) as (w & Hc). cbn [disk world] in *. exists (u :: rest), key, cardData, s1, s2, wire, a, bundle.
  split; [done|]. rewrite <- Henv. split; [exact (conj Hkey Eo)|]. split; [exact Hw|]. split; [exact Hi|]. intros before Hok [w0 Hh].
  assert (stored = before) as ->.
  { assert (holds_records (database_of cwd dir config) key before s2) as [w2 Hs2].
    { refine (open_keeps_records _ _ _ _ _ s1 s2 _ Hlen Hok Hu Hkey _ Eo). exists w0. rewrite Hf. exact Hh. }
    rewrite (sealed_read_back _ _ _ _ _ Hlen Hok Hs2) in Hb. by injection Hb. }
  exists (disk e), canonical. split; [exists w; rewrite Hf3; exact Hc|].
  split; [split; [exact Hg|split; [exact Hpk|split; [exact Ht|exact Hwalk]]]|]. split; [exact Hprev|]. split; [exact Hother|exact Htrust].
Qed.

(** The address book is empty whatever the profile trusts: a summary has no correspondents. *)
Lemma summary_lists_nobody profile_id (s s' : env V) answer :
  Profile.summary profile_id s = (Ok answer, s') -> correspondents_of answer = [].
Proof using.
  intros (w & w' & E & _)%transact_ok. apply bind_ok in E as (metadata & s1 & _ & (keys & s2 & _ & E)%bind_ok). injection E as <- _.
  vm_compute. reflexivity.
Qed.
(** The comparison of fingerprints prints pieces of its own argument, whatever the files hold. *)
Lemma verify_reads_nothing name args : exists lines, forall s : machine V,
  m_output (contact_verify name args s).2 = m_output s ++ lines /\ m_files (contact_verify name args s).2 = m_files s.
Proof using.
  unfold contact_verify. destruct (Operator.arg args 1) as [[|u rest]|]; eexists; intros s;
    unfold say, complain, exit_process, modify, throw, bind; cbn [snd m_output m_files with_exit]; rewrite <- ?app_assoc; (split; [reflexivity|reflexivity]).
Qed.
End contact.

(** ** Witnesses *)
Module SetupSample.
Import Toy.
#[export] Instance sqlite : Sqlite := {|
  row_text r := row_version r :: Z.of_nat (length (row_nonce r)) :: Z.of_nat (length (row_tag r)) :: row_nonce r ++ row_tag r ++ row_ciphertext r;
  text_row s := match s with
                | version :: n :: t :: s =>
                    let rest := drop (Z.to_nat n) s in Some (Row version (take (Z.to_nat n) s) (take (Z.to_nat t) rest) (drop (Z.to_nat t) rest))
                | _ => None
                end |}.
#[export] Instance sqlite_laws : SqliteLaws.
Proof.
  split. intros [version nonce tag text]. cbn [row_text text_row sqlite row_version row_nonce row_tag row_ciphertext].
  by rewrite !Nat2Z.id, take_app_length, drop_app_length, take_app_length, drop_app_length.
Qed.
#[export] Instance parser : UrlParser := {|
  new_URL s := if forallb unit_ok s && starts_with (js "http") s
               then Some (Url (if starts_with (js "https") s then js "https:" else js "http:") [] [] (js "relay.example") [] [] (js "/") s) else None |}.
Lemma ascii : ascii_origins.
Proof. intros text u. cbn [new_URL parser]. destruct (forallb unit_ok text) eqn:E; [|done]. destruct (starts_with _ _); [|done]. intros [= <-]. exact E. Qed.
Definition root : list jstr := [js "home"; js "op"].
Definition home : jstr := absolute_path root.
Definition cwd : jstr := js "/work".
Definition err_message (e : err) : jstr := js "error".
Definition dir_of (path : jstr) : jstr * node := (path, DirNode private_dir).
Definition disk : files := list_to_map [ dir_of (js "/home"); dir_of (js "/home/op"); dir_of (js "/home/op/profiles") ].
Definition state (fs : files) (faults : list bool) (input : list jstr) : machine Toy.world := Machine fs faults input [] [] None 7.
Definition setup (s : machine Toy.world) : res err unit * machine Toy.world :=
  station_setup (H := zod_example) (H0 := Toy.world_ops) (H1 := ToyNative.native) (H2 := Toy.crypto) (H3 := ToyRelay.fetch) (H5 := ToyGcm.gcm)
    home cwd err_message s.
(** A setup whose keys cannot be published: the database cannot be read a second time. *)
Definition typed : machine Toy.world := state disk (replicate 12 false ++ [true]) [js "Radio"; js "https://relay.example"].
Definition ran : res err unit * machine Toy.world := setup typed.
Definition station : machine Toy.world := ran.2.
Definition dir : jstr := getProfileDir home (js "Radio").
Definition config : json := default_to JNull (config_used (H := zod_example) cwd dir None station).
Definition adding : res err unit * machine Toy.world :=
  contact_add (H := zod_example) (H0 := Toy.world_ops) (H1 := ToyNative.native) (H2 := Toy.crypto) (H5 := ToyGcm.gcm)
    cwd err_message (js "Radio") dir [js "add"; stringify ProfileSample.card] station.
(** A station set up again, with an address the client refuses. *)
Definition mistyped : machine Toy.world := state (m_files station) [] [js "Radio"; js "y"; js "http://relay.example"].
End SetupSample.
(** No file yet, only directories. *)
Lemma no_files path : read_content path SetupSample.disk = None.
Proof.
  unfold read_content, SetupSample.disk. destruct (list_to_map _ !! path) as [[text mode|]|] eqn:E; [|done..].
  apply elem_of_list_to_map_2 in E. repeat (apply elem_of_cons in E as [E|E]; [unfold SetupSample.dir_of in E; discriminate E|]). by apply elem_of_nil in E.
Qed.
Lemma station_setup_startable_witness : exists key config,
  read_content (getStoreKeyPath SetupSample.home (js "Radio")) (m_files SetupSample.station) = Some (encodeBase64Url key) /\
  (readStationProfileConfig (H := zod_example) (H0 := SetupSample.parser) SetupSample.dir SetupSample.station).1 = Ok config.
Proof.
  destruct (station_setup_startable (H := zod_example) (H0 := Toy.world_ops) (H1 := ToyNative.native) (H2 := Toy.crypto) (H3 := ToyRelay.fetch)
    (H4 := SetupSample.parser) (H5 := ToyGcm.gcm) (H6 := SetupSample.sqlite) SetupSample.root eq_refl SetupSample.cwd SetupSample.err_message
    (js "Radio") ltac:(vm_compute; reflexivity) SetupSample.typed SetupSample.station SetupSample.ran.1 HomeSample.bytes SetupSample.ascii) as [_ Hok].
  - intros text v Ht. rewrite no_files in Ht. discriminate Ht.
  - vm_compute. reflexivity.
  - intros _ t. apply no_files.
  - apply surjective_pairing.
  - destruct Hok as [E|(key & config & members & typed & _ & (Hk & _) & (_ & Hread) & _)]; [vm_compute; reflexivity| |].
    + assert (is_some (read_content (getStoreKeyPath SetupSample.home (js "Radio")) (m_files SetupSample.station)) = true) as Hs by (vm_compute; reflexivity).
      rewrite E in Hs. rewrite no_files in Hs. discriminate Hs.
    + exists key, config. split; [exact Hk|]. apply Hread. vm_compute. apply Forall_nil_2.
Defined.
(** The records the station's database holds, checked. *)
Definition station_key : bytes :=
  ok_or [] (readStoreKey (str_field (js "store_key_env") SetupSample.config) (fun name => get name (m_environment SetupSample.station))).
Definition station_records : records :=
  ok_or [] (records_in (H5 := ToyGcm.gcm) (H6 := SetupSample.sqlite) (database_of SetupSample.cwd SetupSample.dir SetupSample.config)
    station_key (m_files SetupSample.station)).
Definition records_nonce : bytes :=
  match read_content (database_of SetupSample.cwd SetupSample.dir SetupSample.config) (m_files SetupSample.station) with
  | Some text => match text_row (Sqlite := SetupSample.sqlite) text with Some row => row_nonce row | None => [] end
  | None => []
  end.
Lemma records_check (r : records) :
  bool_decide (NoDup (keys r)) && forallb (fun kv => forallb unit_ok kv.1 && forallb byte_ok kv.2) r = true -> records_ok r.
Proof.
  intros [Hn Hf]%andb_true_iff. split; [by apply bool_decide_eq_true in Hn|]. apply Forall_forall. intros kv Hkv%list_elem_of_In.
  apply (forallb_In _ _ _ Hf) in Hkv. apply andb_true_iff in Hkv as [Hu Hb]. split; [exact Hu|].
  apply Forall_forall. intros b Hb'%list_elem_of_In. apply byte_range_ok. exact (forallb_In _ _ _ Hb Hb').
Qed.
Lemma contact_added_witness : exists after,
  holds_records (H0 := Toy.world_ops) (H5 := ToyGcm.gcm) (H6 := SetupSample.sqlite)
    (database_of SetupSample.cwd SetupSample.dir SetupSample.config) station_key after SetupSample.adding.2 /\
  get mailboxRewalkKey after = Some (utf8_encode (js "0")) /\ get metadataKey after = get metadataKey station_records.
Proof.
  destruct (contact_added (H := zod_example) (H0 := Toy.world_ops) (H1 := ToyNative.native) (H2 := Toy.crypto)
    (H4 := SetupSample.parser) (H5 := ToyGcm.gcm) (H6 := SetupSample.sqlite) (H7 := ToyGcm.laws) (H8 := SetupSample.sqlite_laws)
    SetupSample.cwd SetupSample.err_message (js "Radio") SetupSample.dir
    [js "add"; stringify ProfileSample.card] SetupSample.config SetupSample.station SetupSample.adding.2 SetupSample.adding.1) as [_ Hok].
  - intros n w. apply length_replicate.
  - vm_compute. reflexivity.
  - apply surjective_pairing.
  - destruct Hok as (arg & key & card & s1 & s2 & wire & a & bundle & _ & (Hkey & _) & _ & _ & Hb); [vm_compute; reflexivity|].
    assert (key = station_key) as -> by (unfold station_key; by rewrite Hkey).
    destruct (Hb station_records) as (after & canonical & Hafter & (_ & _ & _ & Hg) & _ & Hother & _).
    + apply records_check. vm_compute. reflexivity.
    + exists (match records_nonce with u :: _ => u | [] => 0 end). vm_compute. reflexivity.
    + exists after. split; [exact Hafter|]. split; [exact Hg|]. apply Hother.
      * vm_compute. reflexivity.
      * rewrite <- (app_nil_r metadataKey). apply clash_ne. vm_compute. reflexivity.
      * vm_compute. discriminate.
Defined.
(** A station is lost to a mistyped address: the directory is emptied before the address is
    checked, and the setup that fails leaves no database. *)
Lemma setup_loses_station :
  let database := getClientDbPath SetupSample.home (js "Radio") in
  is_some (read_content database (m_files SetupSample.mistyped)) = true /\
  is_ok (SetupSample.setup SetupSample.mistyped).1 = false /\
  read_content database (m_files (SetupSample.setup SetupSample.mistyped).2) = None.
Proof. vm_compute. split; [reflexivity|split; reflexivity]. Qed.
